(* ===== verification/_CoqProject ===== *)
-Q . S2P
Prelude.v
Framing.v
Slab.v
PageTracker.v
Crc32c.v
Pool.v
MemoryProtocol.v
ClientSession.v
MemoryDaemon.v
HeapArena.v
LruCache.v
RemoteStore.v
MemoryClient.v
MemoryClientSpec.v
Transparency.v
ClientNet.v
PageRegions.v
FaultBackend.v
PageFaultWin.v
RemoteHeap.v
RemoteHeapSpec.v
HeapDemo.v
HeapProgram.v
HeapClient.v
PageFaultLinux.v
PageFaultMac.v
PeerTable.v
Common.v
Discovery.v
Capacity.v
GpuDaemon.v
GpuClient.v
Hook.v
HookSlots.v
LocalIpc.v
LocalIpcWin.v
LanPaging.v
LanHeap.v
LanGpu.v
Launcher.v
HttpStatus.v
MemoryMonitor.v
Pressure.v
ClientLifecycle.v
HookDll.v
LanServer.v
MemoryServer.v
HeapProbe.v
PipeListener.v
GpuReal.v
VehProbe.v
