(* ===== verification/Prelude.v ===== *)
(** * MemInfo: a verification development for LAN RAM and GPU sharing

    MemInfo lets the machines of a network lend each other memory.  Every node
    runs [memoryd], which hands out pages of a pool over TCP, and [discoveryd],
    which finds the other nodes by multicast; [gpud] lends a GPU.  A program uses
    the memory of its peers through [memclient]: as handles that are read and
    written ([MemoryClient]), or as ordinary memory whose pages are fetched on a
    fault ([RemoteHeap]).  This library models that code and proves what each
    part promises to the next, up to the two statements a user cares for: a
    program cannot tell the client, or the remote heap, from local memory.

    ** The files

    Every file models the source it names in its own comment; the order is that
    of the dependencies.

    - [Prelude]: machine integers, bytes, the monad [M] of C++ statements (an
      outcome is a value, an exception, undefined behaviour or no fuel left),
      refinement between monads, weakest preconditions, lists indexed by [Z],
      iteration over hash maps in any order ([MapIter]).
    - [Common]: configuration, node ids, random bytes, libuv and signal handles
      ([common/src], [platform/src/linux/random_linux.cpp]).
    - [Framing]: the size-prefixed frames all TCP protocols share.
    - memoryd ([memoryd/src]): [Slab] (slab_allocator.cpp), [PageTracker]
      (page_tracker.cpp), [Crc32c] ([common/src/crc32c.cpp]), [Pool] (what the
      tracker is to its callers: objects, and how many pages they leave free),
      [MemoryProtocol] (memory_protocol.cpp), [ClientSession]
      (client_session.cpp), [MemoryDaemon] (memory_daemon.cpp and the handler of
      memory_control.cpp), [MemoryServer] (the daemon from start to end).
    - The client ([memclient/src]): [HeapArena] (heap_arena.cpp), [LruCache]
      (lru_cache.cpp), [RemoteStore] (what a peer promises the client: one
      class, whose laws memoryd's protocol discharges), [MemoryClient],
      [MemoryClientSpec] and [Transparency] (the data plane of client_api.cpp:
      allocation on peers, striping, eviction, loading back), [ClientNet] (its
      connections, requests and replies), [ClientLifecycle] (its threads from
      construction to destruction), [MemoryMonitor] ([platform/src]: what the
      system says of its memory, and the threads that poll it) and [Pressure]
      (the monitor's callback into the client, and other threads' calls in the
      middle of an eviction).
    - Paging: [PageRegions] and [FaultBackend] (the tables of the three fault
      backends and their common interface, a class with laws), [PageFaultWin],
      [PageFaultLinux], [PageFaultMac] ([platform/src]), [RemoteHeap],
      [RemoteHeapSpec] and [HeapProgram] (remote_heap.cpp under a program that
      loads and stores), [HeapClient] (the same over [MemoryClient] and its peers,
      on Windows), [HeapDemo] (a kernel and a store to run them on),
      [HeapProbe] (the probe of [tools/remote_heap_probe.cpp], a program from the
      heap's construction to its destruction), [VehProbe]
      ([tools/win_veh_probe.cpp], the test of what the Windows backend needs).
    - discoveryd ([discoveryd/src]): [PeerTable] (peer_table.cpp), [Discovery]
      (announcer.cpp, listener.cpp, pool_probe.cpp, control_socket.cpp,
      discovery_daemon.cpp), [Capacity] (from memoryd's pool through two
      discovery daemons to the client).
    - gpud ([gpud/src]): [GpuDaemon] (gpu_protocol.cpp, gpu_session.cpp,
      gpu_daemon.cpp, cuda_executor_stub.cpp), [GpuReal] (cuda_executor_real.cpp),
      [GpuClient] (gpu_client.cpp, and its composition with the daemon).
    - The malloc hook ([hook]): [Hook] (meminfo_hook.cpp: the five allocation
      functions over the arena and the process's runtimes), [HookSlots] (which
      runtimes are found and detoured), [HookDll] (the library from its attach to
      its detach), [Launcher] (meminfo_launch.cpp).
    - [HttpStatus]: the status endpoint ([common/src/http_status.cpp]).
    - Local requests between the processes of a node ([platform/src]):
      [LocalIpc] (the POSIX sockets of local_ipc_linux.cpp and
      local_ipc_mac.cpp), [LocalIpcWin] (the pipes of local_ipc_win.cpp) and
      [PipeListener] (its listening thread against its destructor).
    - The Windows prototype ([windows-lan-sharing]): [LanPaging] (the paging
      protocol, paging_server.cpp and TcpPageFaultBackend.cpp), [LanHeap]
      (RemoteHeap.cpp), [LanGpu] (cuda_proxy.cpp, gpu_server.cu and
      DevicePointerTracker.hpp), [LanServer] (both servers' start and the clients
      they accept).

    ** How they interact

    A record holds the members of each C++ class; each method is a definition
    with the method's name, a pure function or a computation in [M] over the
    record.  Where a class holds another, the method runs in the part ([zoom]).
    Threads and libuv callbacks appear as events: the state of a daemon or of the
    client changes by one callback at a time, and a theorem about all sequences
    of events covers every order in which libuv or the threads can deliver them.
    Where one component relies on another only through what it promises, the
    promise is a class: [RemoteStore] between client and peers, [FaultBackend]
    between heap and platform, [BlockStore] ([RemoteHeap]) between heap and
    client.  [RemoteStore] is discharged for memoryd's own protocol and
    [BlockStore] for the client ([HeapClient]); the fault backend for Windows and,
    under a named condition, for macOS, but not for Linux, where an unanswered fault
    reads as zeros.  [RemoteStore] describes the network at its best: connections
    that are up stay up and calls are answered in time.  What happens when they are
    not is in [ClientNet], for the client's own state.

    Code that is not in the repository is a class too, whose laws are the
    documented behaviour the code relies on, and each class has an instance on
    which the examples run: FlatBuffers ([MemoryWire], [DiscoveryWire]), the
    system calls of the fault backends ([WinVM], [Uffd], [PosixVM]), the GPU
    ([GpuWire], [Malloc], [CudaApi], and [CudaRuntime] for the prototype), the C runtimes ([Crt], with the laws of the C standard
    as [CrtLaws]).  What the operating system, libuv or Detours answers to a call
    is an argument.  A socket that is read and written with blocking calls is a
    script of what each call meets (so many bytes, a signal, an error, the end) and
    what has been written; two ends are tied together by saying that the script of
    one holds what the other writes.

    ** What the theorems show

    - memoryd: whatever bytes arrive and however TCP cuts them, a session gets
      exactly the specified replies and nobody else's bytes; every call on the
      page tracker is one on a plain pool of objects; no allocation outlives its
      session; a request to stop is never lost and leaves nothing behind, unless a
      silent client of the control socket holds its thread.
    - The client: any program of allocate, free, read and write behaves as on a
      map from handles to bytes, or gets an exception and loses nothing, while its
      peers answer and what crosses the network at once fits in a message; the
      network side never closes a handle twice, uses a deleted one or answers a
      call with another call's reply; its waits are bounded and its destructor
      closes everything; memory pressure does not show, or ends the process.
    - The heap: a program sees an array of zeros that it loads from and stores
      to, or dies of a fault that is not answered; the resident bytes stay within
      the budget; every operation terminates while the peers answer; what [flush]
      leaves on the peer is the array; the
      probe's verdict is sound, if not about the peer ([probe_deaf_ok]).
    - Discovery: the table of peers, and what a node announces, as functions of
      their history; clean shutdown; the capacity a client sees is what memoryd has
      free.
    - The GPU: calls through a connected client and the daemon are calls on the
      device, over any cutting of the streams, and each returns.
    - The hook: over the remote heap and every runtime of the process, malloc and
      its relatives are one allocator; no detour is put on a trampoline of its own,
      and none twice on a function, forwarders apart; the launcher delivers its
      options and the target's arguments.
    - The status endpoint answers a connection once and leaks nothing.
    - Local requests: a request over a socket or a pipe is a call of the handler;
      the listening object leaks nothing; the loop serves everyone until it is
      stopped, unless a client stays silent, which holds it for ever, or is gone
      before its reply, which ends the process (SIGPIPE, an exception nobody catches);
      on Windows stopping may miss the thread.
    - The Windows prototype: fetches and commits are reads and writes of the
      server's pool, loads from the heap read it; CUDA calls are the remote
      runtime behind renamed pointers, except for copies of data.
    - Several theorems and examples state defects exactly; they are the findings
      kept with the development (among them [budget_loop_spins],
      [bad_reply_strands_peer], [session_double_close],
      [linux_second_fault_untracks], [failed_listener_freed_open],
      [gpu_sizes_trusted], [detach_breaks], [ipc_loop_stops], [memoryd_stops],
      [scans_attach_once], [lan_failure_locks],
      [paging_round_safe], [gpu_readback_fails], [tracker_names_overlap],
      [backslash_mangles], [http_first_read_decides], [pressure_kills],
      [eviction_window], [eviction_loses_block], [roll_back_drops_block],
      [unload_leaves_trap], [accept_moves_contexts], [control_start_deaf],
      [destructor_can_hang], [lost_client_spins], [probe_deaf_ok]).

    ** Bounds and fuel

    Integers are [Z] and wrap where the code's types do; hypotheses such as
    [next_handle_ t + 1 < U64] exclude only the 2^64th allocation.  Loops that do
    not recurse on a list take fuel; out of fuel is an outcome of its own
    ([NoFuel]) that no theorem about results accepts.  The bytes of a message
    bound the loops over it, the number of blocks those of the cache and of an
    eviction; the theorems state these results outright.  The loop that enforces
    the heap's budget may not end when the peer is down:
    [remote_heap_terminates] gives one round per resident page but the last as the
    bound while the peer answers, and [budget_loop_spins] shows that it spins when
    not.  A thread that is joined is an outcome too ([thread_end]): out of fuel is a
    thread that never ends, and the join has that outcome.

    ** Not modelled

    The bodies of system calls and of the libraries (libuv, FlatBuffers, toml++,
    spdlog, CUDA); the ten seconds a call waits for its reply; memory ordering
    between threads (a lock makes a method one step, and locking a mutex twice in one
    thread is undefined), except for the steps of an eviction in [Pressure] and of the
    threads in [PipeListener].  The hook is modelled on one thread (its
    depth is thread-local and the arena locks itself), without its log; memory is
    one function from addresses to bytes there, since [HeapProgram] shows the
    remote heap to be an array.  Logging, the command lines of the daemons and of
    memclient_cli, tests and the dashboard are outside. *)

From Stdlib Require Export ZArith Lia.
From Stdlib.Strings Require Export Byte.
From stdpp Require Export prelude gmap list strings.

#[export] Set Default Goal Selector "!".
#[global] Open Scope Z_scope.

(** ** Machine integers

    Unsigned integers are [Z] with the wrap-around written out where the code
    can wrap.  [size_t], [uintptr_t], [uint64_t] and [handle_t] are 64 bits. *)

Definition U64 : Z := 2 ^ 64.
Definition U32 : Z := 2 ^ 32.
Definition SIZE_MAX : Z := U64 - 1.
Definition u64 (z : Z) : Z := z mod U64.
Definition u32 (z : Z) : Z := z mod U32.
Definition is_u64 (z : Z) : Prop := 0 <= z < U64.

Definition byte_to_Z (b : byte) : Z := Z.of_N (Byte.to_N b).

Definition byte_of_Z (z : Z) : byte :=
  match Byte.of_N (Z.to_N (z mod 256)) with
  | Some b => b
  | None => x00
  end.

#[export] Instance byte_eq_dec : EqDecision byte := Byte.byte_eq_dec.

(** ** Outcomes of C++ code

    [Ret]: the call returned.  [Throw]: an exception left it.  [Undef]: the
    code did something the language or a library it calls gives no meaning to
    (an invalid iterator, an index past the end of a vector).  [NoFuel]: a
    loop used up the bound the model gives it. *)

Inductive exn :=
| bad_alloc
| invalid_argument (msg : string)
| out_of_range (msg : string)
| runtime_error (msg : string)
| permission_denied_error.

#[export] Instance exn_eq_dec : EqDecision exn.
Proof. solve_decision. Defined.

(** [e.what()] of each exception the code throws. *)
Definition what (e : exn) : string :=
  match e with
  | bad_alloc => "std::bad_alloc"
  | invalid_argument m => m
  | out_of_range m => m
  | runtime_error m => m
  | permission_denied_error => "Permission denied: handle owned by another session"
  end.

Inductive outcome (A : Type) :=
| Ret (a : A)
| Throw (e : exn)
| Undef
| NoFuel.
Arguments Ret {A} a.
Arguments Throw {A} e.
Arguments Undef {A}.
Arguments NoFuel {A}.

(** Stateful code: the state is kept when an exception is thrown. *)
Definition M (S A : Type) : Type := S -> outcome A * S.

Definition ret {S A} (a : A) : M S A := fun s => (Ret a, s).
Definition throw {S A} (e : exn) : M S A := fun s => (Throw e, s).
Definition undef {S A} : M S A := fun s => (Undef, s).
Definition nofuel {S A} : M S A := fun s => (NoFuel, s).
Definition get {S} : M S S := fun s => (Ret s, s).
Definition put {S} (t : S) : M S unit := fun _ => (Ret tt, t).

Definition bind {S A B} (c : M S A) (f : A -> M S B) : M S B :=
  fun s =>
    match c s with
    | (Ret a, s') => f a s'
    | (Throw e, s') => (Throw e, s')
    | (Undef, s') => (Undef, s')
    | (NoFuel, s') => (NoFuel, s')
    end.

(** [try { c } catch (...) { h }]: only exceptions are caught. *)
Definition catch {S A} (c : M S A) (h : exn -> M S A) : M S A :=
  fun s =>
    match c s with
    | (Throw e, s') => h e s'
    | r => r
    end.

Definition throw_if {S} (b : bool) (e : exn) : M S unit :=
  if b then throw e else ret tt.

(** Run code of a component on the part of the state that holds it. *)
Definition zoom {S T A} (proj : S -> T) (upd : T -> S -> S) (c : M T A) : M S A :=
  fun s => let '(o, t) := c (proj s) in (o, upd t s).

(** The laws a projection and its update obey. *)
Record lens {S T} (proj : S -> T) (upd : T -> S -> S) : Prop := {
  lens_get : forall t s, proj (upd t s) = t;
  lens_put : forall s, upd (proj s) s = s;
  lens_upd : forall t u s, upd t (upd u s) = upd t s
}.

Declare Scope cpp_scope.
Delimit Scope cpp_scope with cpp.
Notation "'let!' x := c 'in' k" := (bind c (fun x => k))
  (at level 10, x name, c at level 100, k at level 200,
   format "'[v' 'let!'  x  :=  c  'in' '//' k ']'") : cpp_scope.
Notation "'do!' c 'in' k" := (bind c (fun _ => k))
  (at level 10, c at level 100, k at level 200,
   format "'[v' 'do!'  c  'in' '//' k ']'") : cpp_scope.
#[global] Open Scope cpp_scope.

(** A call that returns normally, and one that throws. *)
Definition returns {S A} (c : M S A) (s : S) (a : A) (s' : S) : Prop := c s = (Ret a, s').

Lemma bind_ret {S A B} (c : M S A) (f : A -> M S B) s a s' :
  c s = (Ret a, s') -> bind c f s = f a s'.
Proof. intros H. unfold bind. by rewrite H. Qed.

Lemma bind_throw {S A B} (c : M S A) (f : A -> M S B) s e s' :
  c s = (Throw e, s') -> bind c f s = (Throw e, s').
Proof. intros H. unfold bind. by rewrite H. Qed.

Lemma bind_inv_ret {S A B} (c : M S A) (f : A -> M S B) s b s' :
  bind c f s = (Ret b, s') -> exists a s1, c s = (Ret a, s1) /\ f a s1 = (Ret b, s').
Proof. unfold bind. destruct (c s) as [[a|e| |] s1]; naive_solver. Qed.

Lemma bind_bind {S A B C} (c : M S A) (f : A -> M S B) (g : B -> M S C) s :
  bind (bind c f) g s = bind c (fun x => bind (f x) g) s.
Proof. unfold bind. by destruct (c s) as [[a|e| |] s']. Qed.

Lemma bind_get {S B} (f : S -> M S B) s : bind get f s = f s s.
Proof. done. Qed.

Lemma bind_put {S B} (t : S) (f : unit -> M S B) s : bind (put t) f s = f tt t.
Proof. done. Qed.

Lemma zoom_ret {S T A} (proj : S -> T) (upd : T -> S -> S) (c : M T A) s a t :
  c (proj s) = (Ret a, t) -> zoom proj upd c s = (Ret a, upd t s).
Proof. intros H. unfold zoom. by rewrite H. Qed.

(** ** Refinement of stateful code

    [refines_at wf abs c d s]: run from [s], the code [c] has a defined outcome,
    keeps the invariant [wf], and is one run of [d] on the abstract state. *)

Definition no_undefined {A} (o : outcome A) : Prop := o <> Undef /\ o <> NoFuel.

Section refinement.
Context {S T : Type} (wf : S -> Prop) (abs : S -> T).

Definition refines_at {A} (c : M S A) (d : M T A) (s : S) : Prop :=
  exists o s', c s = (o, s') /\ wf s' /\ no_undefined o /\ d (abs s) = (o, abs s').

Lemma refines_ret {A} (a : A) s : wf s -> refines_at (ret a) (ret a) s.
Proof. intros. by exists (Ret a), s. Qed.

Lemma refines_throw {A} e s : wf s -> refines_at (A := A) (throw e) (throw e) s.
Proof. intros. by exists (Throw e), s. Qed.

Lemma refines_bind {A B} (c : M S A) (d : M T A) (f : A -> M S B) (g : A -> M T B) s :
  refines_at c d s ->
  (forall a s', c s = (Ret a, s') -> wf s' -> refines_at (f a) (g a) s') ->
  refines_at (bind c f) (bind d g) s.
Proof.
  intros (o & s' & Hc & Hwf & Hd & Hs) Hk. unfold bind, refines_at. rewrite Hc, Hs.
  destruct o as [a|e| |]; [by apply Hk|by exists (Throw e), s'|destruct Hd; done..].
Qed.

Lemma refines_catch {A} (c : M S A) (d : M T A) (f : exn -> M S A) (g : exn -> M T A) s :
  refines_at c d s ->
  (forall e s', c s = (Throw e, s') -> wf s' -> refines_at (f e) (g e) s') ->
  refines_at (catch c f) (catch d g) s.
Proof.
  intros (o & s' & Hc & Hwf & Hd & Hs) Hk. unfold catch, refines_at. rewrite Hc, Hs.
  destruct o as [a|e| |]; [by exists (Ret a), s'|by apply Hk|destruct Hd; done..].
Qed.
End refinement.

(** ** Weakest preconditions

    [wp c Q E s]: run from [s], the code returns with [Q] or throws with [E];
    it is never undefined and never runs out of fuel. *)

Definition wp {S A} (c : M S A) (Q : A -> S -> Prop) (E : exn -> S -> Prop) (s : S) : Prop :=
  match c s with
  | (Ret a, s') => Q a s'
  | (Throw e, s') => E e s'
  | _ => False
  end.

Section wp.
Context {S : Type}.

Lemma wp_run {A} (c : M S A) Q E s a s' : c s = (Ret a, s') -> Q a s' -> wp c Q E s.
Proof. unfold wp. by intros ->. Qed.

Lemma wp_mono {A} (c : M S A) (Q Q' : A -> S -> Prop) (E E' : exn -> S -> Prop) s :
  wp c Q E s -> (forall a s', Q a s' -> Q' a s') -> (forall e s', E e s' -> E' e s') -> wp c Q' E' s.
Proof. unfold wp. destruct (c s) as [[]]; naive_solver. Qed.

Lemma wp_bind {A B} (c : M S A) (f : A -> M S B) Q E s :
  wp c (fun a s' => wp (f a) Q E s') E s -> wp (bind c f) Q E s.
Proof. unfold wp, bind. by destruct (c s) as [[]]. Qed.

Lemma wp_catch {A} (c : M S A) (h : exn -> M S A) Q E s :
  wp c Q (fun e s' => wp (h e) Q E s') s -> wp (catch c h) Q E s.
Proof. unfold wp, catch. by destruct (c s) as [[]]. Qed.

Lemma wp_zoom {T A} (proj : S -> T) (upd : T -> S -> S) (c : M T A) Q E s :
  wp c (fun a t => Q a (upd t s)) (fun e t => E e (upd t s)) (proj s) -> wp (zoom proj upd c) Q E s.
Proof. unfold wp, zoom. by destruct (c (proj s)) as [[]]. Qed.

Lemma wp_get Q E (s : S) : Q s s -> wp get Q E s.
Proof. done. Qed.

(** What a [wp] says of an execution. *)
Lemma wp_elim {A} (c : M S A) Q E s o s' :
  wp c Q E s -> c s = (o, s') ->
  match o with Ret a => Q a s' | Throw e => E e s' | _ => False end.
Proof. unfold wp. intros H Hc. by rewrite Hc in H. Qed.
End wp.

(** [wpx N]: as [wp], for code with a loop that may not end; [N] holds if the
    fuel of the model runs out ([N := True] for partial correctness). *)
Definition wpx {S A} (N : Prop) (c : M S A) (Q : A -> S -> Prop) (E : exn -> S -> Prop) (s : S) : Prop :=
  match c s with
  | (Ret a, s') => Q a s'
  | (Throw e, s') => E e s'
  | (Undef, _) => False
  | (NoFuel, _) => N
  end.

Section wpx.
Context {S : Type} (N : Prop).

Lemma wpx_of_wp {A} (c : M S A) Q E s : wp c Q E s -> wpx N c Q E s.
Proof. unfold wp, wpx. destruct (c s) as [[]]; naive_solver. Qed.

Lemma wpx_run {A} (c : M S A) Q E s a s' : c s = (Ret a, s') -> Q a s' -> wpx N c Q E s.
Proof. unfold wpx. by intros ->. Qed.

Lemma wpx_mono {A} (c : M S A) (Q Q' : A -> S -> Prop) (E E' : exn -> S -> Prop) s :
  wpx N c Q E s -> (forall a s', Q a s' -> Q' a s') -> (forall e s', E e s' -> E' e s') -> wpx N c Q' E' s.
Proof. unfold wpx. destruct (c s) as [[]]; naive_solver. Qed.

Lemma wpx_bind {A B} (c : M S A) (f : A -> M S B) Q E s :
  wpx N c (fun a s' => wpx N (f a) Q E s') E s -> wpx N (bind c f) Q E s.
Proof. unfold wpx, bind. by destruct (c s) as [[]]. Qed.

Lemma wpx_catch {A} (c : M S A) (h : exn -> M S A) Q E s :
  wpx N c Q (fun e s' => wpx N (h e) Q E s') s -> wpx N (catch c h) Q E s.
Proof. unfold wpx, catch. by destruct (c s) as [[]]. Qed.

Lemma wpx_zoom {T A} (proj : S -> T) (upd : T -> S -> S) (c : M T A) Q E s :
  wpx N c (fun a t => Q a (upd t s)) (fun e t => E e (upd t s)) (proj s) -> wpx N (zoom proj upd c) Q E s.
Proof. unfold wpx, zoom. by destruct (c (proj s)) as [[]]. Qed.

Lemma wpx_get Q E (s : S) : Q s s -> wpx N get Q E s.
Proof. done. Qed.

(** What a [wpx] says of a run that returned. *)
Lemma wpx_elim_ret {A} (c : M S A) Q E s a : wpx N c Q E s -> fst (c s) = Ret a -> Q a (snd (c s)).
Proof. unfold wpx. destruct (c s) as [[]]; cbn; congruence. Qed.

Lemma wpx_ret {A} (a : A) Q E (s : S) : Q a s -> wpx N (ret a) Q E s.
Proof. done. Qed.
End wpx.

(** ** Lists indexed and sliced by [Z] *)

Section zlist.
Context {A : Type}.
Implicit Types (l src : list A) (i off len : Z).

Definition zlen l : Z := Z.of_nat (length l).

(** [v[i]]: no value outside the vector. *)
Definition znth l i : option A := if i <? 0 then None else l !! Z.to_nat i.

(** [v[i] = x] with [i] in range. *)
Definition zset l i (x : A) : list A := <[Z.to_nat i := x]> l.

(** The [len] elements from [off] on. *)
Definition slice off len l : list A := take (Z.to_nat len) (drop (Z.to_nat off) l).

(** [memcpy(l + off, src, src.size())]. *)
Definition splice off src l : list A :=
  take (Z.to_nat off) l ++ src ++ drop (Z.to_nat off + length src) l.

End zlist.

(** ** Automation *)

Create HintDb meminfo discriminated.

(** Decide the comparisons that an [if] of the goal or of a hypothesis tests. *)
Ltac zcase_step :=
  match goal with
  | |- context [if ?a <? ?b then _ else _] => destruct (Z.ltb_spec a b)
  | |- context [if ?a <=? ?b then _ else _] => destruct (Z.leb_spec a b)
  | |- context [if ?a =? ?b then _ else _] => destruct (Z.eqb_spec a b)
  | H : context [if ?a <? ?b then _ else _] |- _ => destruct (Z.ltb_spec a b)
  | H : context [if ?a <=? ?b then _ else _] |- _ => destruct (Z.leb_spec a b)
  | H : context [if ?a =? ?b then _ else _] |- _ => destruct (Z.eqb_spec a b)
  end.
Ltac zcase := repeat (zcase_step; try lia).

(** Turn boolean tests of hypotheses into propositions. *)
Ltac zprop :=
  repeat match goal with
  | H : (_ || _)%bool = false |- _ => apply orb_false_iff in H as [? ?]
  | H : (_ && _)%bool = true |- _ => apply andb_true_iff in H as [? ?]
  | H : negb _ = true |- _ => apply negb_true_iff in H
  | H : negb _ = false |- _ => apply negb_false_iff in H
  | H : (_ <? _) = true |- _ => apply Z.ltb_lt in H
  | H : (_ <? _) = false |- _ => apply Z.ltb_ge in H
  | H : (_ <=? _) = true |- _ => apply Z.leb_le in H
  | H : (_ <=? _) = false |- _ => apply Z.leb_gt in H
  | H : (_ =? _) = true |- _ => apply Z.eqb_eq in H
  | H : (_ =? _) = false |- _ => apply Z.eqb_neq in H
  end.

(** Unfold one layer of the outcome monad in the goal. *)
Ltac munfold := unfold bind, ret, throw, throw_if, get, put, undef, nofuel, catch, zoom.
Ltac munfold_in H :=
  unfold bind, ret, throw, throw_if, get, put, undef, nofuel, catch, zoom in H.

(** ** Facts on machine integers *)

Lemma u64_small z : 0 <= z < U64 -> u64 z = z.
Proof. apply Z.mod_small. Qed.

Lemma u64_range z : 0 <= u64 z < U64.
Proof. unfold u64, U64. apply Z.mod_pos_bound. lia. Qed.

Lemma u32_small z : 0 <= z < U32 -> u32 z = z.
Proof. apply Z.mod_small. Qed.

Lemma u32_range z : 0 <= u32 z < U32.
Proof. unfold u32, U32. apply Z.mod_pos_bound. lia. Qed.

Lemma byte_to_Z_range b : 0 <= byte_to_Z b < 256.
Proof. unfold byte_to_Z. pose proof (Byte.to_N_bounded b). lia. Qed.

Lemma byte_to_of_Z z : byte_to_Z (byte_of_Z z) = z mod 256.
Proof.
  unfold byte_to_Z, byte_of_Z.
  pose proof (Z.mod_pos_bound z 256 ltac:(lia)) as Hb.
  destruct (Byte.of_N (Z.to_N (z mod 256))) as [b|] eqn:E.
  - apply Byte.to_of_N in E. rewrite E. lia.
  - apply Byte.of_N_None_iff in E. lia.
Qed.

Lemma byte_of_to_Z b : byte_of_Z (byte_to_Z b) = b.
Proof.
  unfold byte_of_Z. rewrite Z.mod_small by apply byte_to_Z_range.
  unfold byte_to_Z. rewrite N2Z.id, Byte.of_to_N. done.
Qed.

#[export] Instance byte_countable : Countable byte :=
  inj_countable' byte_to_Z byte_of_Z byte_of_to_Z.

Lemma byte_to_Z_inj b b' : byte_to_Z b = byte_to_Z b' -> b = b'.
Proof. intros H. by rewrite <- (byte_of_to_Z b), H, byte_of_to_Z. Qed.

(** ** Powers of two and masks *)

Lemma pow2_of_land a : 0 < a < U64 -> Z.land a (a - 1) = 0 -> exists k, 0 <= k < 64 /\ a = 2 ^ k.
Proof.
  intros Ha Hl. pose proof (Z.log2_nonneg a) as Hk. pose proof (Z.log2_spec a ltac:(lia)) as [Hlo Hhi].
  exists (Z.log2 a). split; [split; [done|apply Z.log2_lt_pow2; unfold U64 in Ha; lia]|].
  destruct (Z.eq_dec a (2 ^ Z.log2 a)) as [|Hne]; [done|].
  assert (Hb : Z.testbit (Z.land a (a - 1)) (Z.log2 a) = true); [|by rewrite Hl, Z.bits_0 in Hb].
  rewrite Z.land_spec, Z.bit_log2 by lia. rewrite <- (Z.log2_unique (a - 1) (Z.log2 a)) by lia.
  by rewrite Z.bit_log2 by lia.
Qed.

Lemma land_lnot_mask x k :
  0 <= x < U64 -> 0 <= k < 64 -> Z.land x (u64 (Z.lnot (2 ^ k - 1))) = x - x mod 2 ^ k.
Proof.
  intros Hx Hk. replace (2 ^ k - 1) with (Z.ones k) by (rewrite Z.ones_equiv; lia).
  transitivity (Z.ldiff x (Z.ones k)).
  - apply Z.bits_inj'. intros n Hn. rewrite Z.land_spec, Z.ldiff_spec. unfold u64, U64.
    destruct (Z.lt_ge_cases n 64).
    + rewrite Z.mod_pow2_bits_low, Z.lnot_spec by lia. done.
    + assert (Hb : Z.testbit x n = false); [|by rewrite Hb].
      rewrite <- (Z.mod_small x (2 ^ 64)) by done. by apply Z.mod_pow2_bits_high.
  - rewrite Z.ldiff_ones_r, Z.shiftl_mul_pow2, Z.shiftr_div_pow2 by lia.
    pose proof (Z.div_mod x (2 ^ k) ltac:(pose proof (Z.pow_pos_nonneg 2 k); lia)). lia.
Qed.

(** ** Facts on slices *)

Section zlist_facts.
Context {A : Type}.
Implicit Types (l src : list A) (i off len : Z).

Lemma zlen_nonneg l : 0 <= zlen l.
Proof. unfold zlen. lia. Qed.

Lemma zlen_app l1 l2 : zlen (l1 ++ l2) = zlen l1 + zlen l2.
Proof. unfold zlen. rewrite length_app. lia. Qed.

Lemma zlen_nil : zlen (@nil A) = 0.
Proof. done. Qed.

Lemma zlen_cons x l : zlen (x :: l) = 1 + zlen l.
Proof. unfold zlen. cbn [length]. lia. Qed.

Lemma zlen_replicate n (x : A) : 0 <= n -> zlen (replicate (Z.to_nat n) x) = n.
Proof. intros. unfold zlen. rewrite length_replicate. lia. Qed.

Lemma znth_lookup l i : 0 <= i -> znth l i = l !! Z.to_nat i.
Proof. intros. unfold znth. by zcase. Qed.

Lemma znth_Some l i x : znth l i = Some x -> 0 <= i < zlen l.
Proof.
  unfold znth, zlen. zcase; [done|].
  intros Hl%lookup_lt_Some. lia.
Qed.

Lemma znth_is_Some l i : 0 <= i < zlen l -> is_Some (znth l i).
Proof.
  intros H. rewrite znth_lookup by lia. apply lookup_lt_is_Some.
  unfold zlen in H. lia.
Qed.

Lemma zlen_zset l i x : zlen (zset l i x) = zlen l.
Proof. unfold zlen, zset. by rewrite length_insert. Qed.

Lemma znth_zset_eq l i x : 0 <= i < zlen l -> znth (zset l i x) i = Some x.
Proof.
  intros H. rewrite znth_lookup by lia. unfold zset.
  apply list_lookup_insert_eq. unfold zlen in H. lia.
Qed.

Lemma znth_zset_ne l i j x : 0 <= i -> i <> j -> znth (zset l i x) j = znth l j.
Proof.
  intros Hi Hij. unfold znth, zset. zcase; [done|].
  apply list_lookup_insert_ne. lia.
Qed.

Lemma lookup_slice off len l (k : nat) :
  0 <= off -> 0 <= len ->
  slice off len l !! k = if Z.of_nat k <? len then l !! (Z.to_nat off + k)%nat else None.
Proof.
  intros. unfold slice. zcase.
  - rewrite lookup_take_lt by lia. by rewrite lookup_drop.
  - rewrite lookup_take_ge by lia. done.
Qed.

Lemma zlen_slice off len l :
  0 <= off -> 0 <= len -> off + len <= zlen l -> zlen (slice off len l) = len.
Proof.
  unfold zlen, slice. intros. rewrite length_take, length_drop. lia.
Qed.

Lemma zlen_splice off src l :
  0 <= off -> off + zlen src <= zlen l -> zlen (splice off src l) = zlen l.
Proof.
  unfold zlen, splice. intros. rewrite !length_app, length_take, length_drop. lia.
Qed.

Lemma lookup_splice off src l (k : nat) :
  0 <= off -> off + zlen src <= zlen l ->
  splice off src l !! k =
    if Z.of_nat k <? off then l !! k
    else if Z.of_nat k <? off + zlen src then src !! (k - Z.to_nat off)%nat else l !! k.
Proof.
  unfold zlen, splice. intros Hoff Hlen. zcase.
  - rewrite lookup_app_l by (rewrite length_take; lia). by rewrite lookup_take_lt by lia.
  - rewrite lookup_app_r by (rewrite length_take; lia).
    rewrite length_take, lookup_app_l by lia. f_equal. lia.
  - rewrite lookup_app_r by (rewrite length_take; lia).
    rewrite length_take, lookup_app_r, lookup_drop by lia. f_equal. lia.
Qed.

End zlist_facts.

(** Prove an equality of slices and splices position by position. *)
Ltac slice_ext k :=
  apply list_eq; intros k;
  rewrite ?lookup_splice, ?lookup_slice, ?lookup_splice, ?lookup_slice
    by (rewrite ?zlen_splice, ?zlen_slice; lia);
  zcase; rewrite ?lookup_splice, ?lookup_slice by (rewrite ?zlen_splice; lia);
  zcase; try (f_equal; lia); try done.

Section slice_algebra.
Context {A : Type}.
Implicit Types (l src : list A) (cs : list (list A)) (i off len : Z).

Lemma slice_splice_same off src l :
  0 <= off -> off + zlen src <= zlen l -> slice off (zlen src) (splice off src l) = src.
Proof.
  intros. pose proof (zlen_nonneg src). slice_ext k.
  symmetry. apply lookup_ge_None_2. unfold zlen in *. lia.
Qed.

Lemma slice_splice_disjoint off src o2 n l :
  0 <= off -> off + zlen src <= zlen l -> 0 <= o2 -> 0 <= n ->
  o2 + n <= off \/ off + zlen src <= o2 ->
  slice o2 n (splice off src l) = slice o2 n l.
Proof. intros. slice_ext k. Qed.

Lemma slice_splice_inner off src o2 n l :
  0 <= o2 <= off -> off + zlen src <= o2 + n -> o2 + n <= zlen l ->
  slice o2 n (splice off src l) = splice (off - o2) src (slice o2 n l).
Proof.
  intros. pose proof (zlen_nonneg src). slice_ext k.
Qed.

Lemma splice_splice_adj off s1 s2 l :
  0 <= off -> off + zlen s1 + zlen s2 <= zlen l ->
  splice (off + zlen s1) s2 (splice off s1 l) = splice off (s1 ++ s2) l.
Proof.
  intros. pose proof (zlen_nonneg s1). pose proof (zlen_nonneg s2).
  apply list_eq; intros k.
  rewrite (lookup_splice (off + zlen s1)), (lookup_splice off s1),
    (lookup_splice off (s1 ++ s2)) by (rewrite ?zlen_splice, ?zlen_app; lia).
  rewrite zlen_app. zcase; try done.
  - by rewrite lookup_app_l by (unfold zlen in *; lia).
  - rewrite lookup_app_r by (unfold zlen in *; lia). f_equal. unfold zlen in *. lia.
Qed.

Lemma splice_nil off l : 0 <= off <= zlen l -> splice off [] l = l.
Proof.
  intros. unfold splice. cbn. rewrite Nat.add_0_r. apply take_drop.
Qed.

Lemma splice_full src l : zlen src = zlen l -> splice 0 src l = src.
Proof.
  intros H. unfold splice, zlen in *. cbn.
  rewrite drop_ge by lia. by rewrite app_nil_r.
Qed.

Lemma slice_app_adj off n m l :
  0 <= off -> 0 <= n -> 0 <= m -> off + n + m <= zlen l ->
  slice off n l ++ slice (off + n) m l = slice off (n + m) l.
Proof.
  intros. unfold slice. rewrite !Z2Nat.inj_add by lia.
  rewrite <- drop_drop, take_take_drop. done.
Qed.

Lemma slice_slice a n b m l :
  0 <= a -> 0 <= n -> 0 <= b -> a + n <= m -> slice a n (slice b m l) = slice (a + b) n l.
Proof. intros. slice_ext k. Qed.

Lemma slice_full l : slice 0 (zlen l) l = l.
Proof. unfold slice, zlen. cbn. rewrite Nat2Z.id. apply take_ge. lia. Qed.

Lemma slice_nil off l : slice off 0 l = [].
Proof. done. Qed.

(** Equal-sized chunks: a vector of pages seen as one flat range. *)
Definition chunks_of (n : Z) cs : Prop := Forall (fun c => zlen c = n) cs.

Lemma zlen_concat n cs : chunks_of n cs -> zlen (concat cs) = zlen cs * n.
Proof.
  induction 1 as [|c cs Hc _ IH]; [done|].
  cbn [concat]. rewrite zlen_app, zlen_cons, IH, Hc. lia.
Qed.

Lemma slice_concat n cs i c off len :
  chunks_of n cs -> znth cs i = Some c -> 0 <= off -> 0 <= len -> off + len <= n ->
  slice (i * n + off) len (concat cs) = slice off len c.
Proof.
  intros Hcs Hi Ho Hl Hn.
  destruct (znth_Some _ _ _ Hi) as [Hi0 _].
  rewrite znth_lookup in Hi by lia.
  assert (Hi' : i = Z.of_nat (Z.to_nat i)) by lia.
  revert Hi Hi'. generalize (Z.to_nat i) as k. intros k Hk ->. clear Hi0.
  revert k Hk. induction Hcs as [|c0 cs Hc0 Hcs IH]; intros k Hk; [done|].
  destruct k as [|k]; cbn in Hk; cbn [concat].
  - simplify_eq. unfold slice. cbn. rewrite drop_app_le by (unfold zlen in *; lia).
    apply take_app_le. rewrite length_drop. unfold zlen in *; lia.
  - rewrite <- (IH k Hk). unfold slice.
    rewrite drop_app_ge by (unfold zlen in *; nia).
    do 2 f_equal. unfold zlen in *. nia.
Qed.

Lemma splice_concat n cs i c off src :
  chunks_of n cs -> znth cs i = Some c -> 0 <= off -> off + zlen src <= n ->
  concat (zset cs i (splice off src c)) = splice (i * n + off) src (concat cs).
Proof.
  intros Hcs Hi Ho Hn.
  destruct (znth_Some _ _ _ Hi) as [Hi0 _].
  rewrite znth_lookup in Hi by lia. unfold zset.
  assert (Hi' : i = Z.of_nat (Z.to_nat i)) by lia.
  revert Hi Hi'. generalize (Z.to_nat i) as k. intros k Hk ->. clear Hi0.
  revert k Hk. induction Hcs as [|c0 cs Hc0 Hcs IH]; intros k Hk; [done|].
  pose proof (zlen_nonneg src).
  destruct k as [|k]; cbn in Hk; cbn [concat list_insert insert].
  - simplify_eq. unfold splice, zlen in *. cbn.
    rewrite take_app_le, drop_app_le, !app_assoc by lia. done.
  - change (c0 ++ concat (<[k:=splice off src c]> cs) =
            splice (Z.of_nat (S k) * n + off) src (c0 ++ concat cs)).
    rewrite (IH k Hk). unfold splice.
    rewrite take_app_ge, drop_app_ge, <- app_assoc by (unfold zlen in *; nia).
    f_equal. f_equal; [|f_equal]; f_equal; unfold zlen in *; nia.
Qed.

Lemma chunks_of_zset n cs i c :
  chunks_of n cs -> zlen c = n -> chunks_of n (zset cs i c).
Proof. intros Hcs Hc. apply Forall_insert; done. Qed.

End slice_algebra.

#[export] Hint Resolve zlen_nonneg u64_range byte_to_Z_range : meminfo.

(** ** Iteration order of hash maps

    [std::unordered_map] promises each entry once and no order.  Code that
    iterates one takes the order from this class; every theorem holds for any
    order. *)

Class MapIter (K : Type) `{Countable K} (V : Type) := {
  map_iter : gmap K V -> list (K * V);
  map_iter_perm : forall m, map_iter m ≡ₚ map_to_list m
}.

Definition map_iter_std K `{Countable K} V : MapIter K V :=
  {| map_iter := map_to_list; map_iter_perm := fun m => Permutation_refl _ |}.

Section map_iter_facts.
Context {K V : Type} `{!EqDecision K} `{!Countable K} `{!MapIter K V}.
Implicit Types (m : gmap K V).

Lemma elem_of_map_iter m k v : (k, v) ∈ map_iter m <-> m !! k = Some v.
Proof. rewrite map_iter_perm. apply elem_of_map_to_list. Qed.

Lemma NoDup_map_iter m : NoDup (map_iter m).*1.
Proof. rewrite map_iter_perm. apply NoDup_fst_map_to_list. Qed.

End map_iter_facts.

(** ** Little-endian byte strings *)

Fixpoint le_value (l : list byte) : Z :=
  match l with
  | [] => 0
  | b :: l => byte_to_Z b + 256 * le_value l
  end.

Fixpoint le_bytes (n : nat) (z : Z) : list byte :=
  match n with
  | O => []
  | S n => byte_of_Z z :: le_bytes n (z / 256)
  end.

Lemma le_value_range l : 0 <= le_value l < 2 ^ (8 * zlen l).
Proof.
  induction l as [|b l IH]; [done|]. cbn [le_value]. rewrite zlen_cons.
  pose proof (byte_to_Z_range b). pose proof (zlen_nonneg l).
  replace (8 * (1 + zlen l)) with (8 + 8 * zlen l) by lia.
  rewrite Z.pow_add_r by lia. change (2 ^ 8) with 256. lia.
Qed.

Lemma length_le_bytes n z : length (le_bytes n z) = n.
Proof. revert z. induction n as [|n IH]; intros z; cbn; [done|]. by rewrite IH. Qed.

Lemma le_value_bytes n z : 0 <= z -> le_value (le_bytes n z) = z mod 2 ^ (8 * Z.of_nat n).
Proof.
  revert z. induction n as [|n IH]; intros z Hz; cbn [le_bytes le_value].
  { by rewrite Z.mod_1_r. }
  rewrite IH by (apply Z.div_pos; lia). rewrite byte_to_of_Z.
  replace (8 * Z.of_nat (S n)) with (8 + 8 * Z.of_nat n) by lia.
  rewrite Z.pow_add_r by lia. change (2 ^ 8) with 256.
  rewrite (Z.rem_mul_r z 256) by lia. done.
Qed.

Lemma le_value_inj l l' : length l = length l' -> le_value l = le_value l' -> l = l'.
Proof.
  revert l'. induction l as [|b l IH]; intros [|b' l'] Hlen Hv; try done.
  cbn in Hlen, Hv. pose proof (byte_to_Z_range b). pose proof (byte_to_Z_range b').
  assert (byte_to_Z b = byte_to_Z b' /\ le_value l = le_value l') as [Hb Hl] by lia.
  f_equal; [by apply byte_to_Z_inj|]. apply IH; [lia|done].
Qed.

Lemma last_Some_split {A} (l : list A) x : last l = Some x -> l = take (length l - 1) l ++ [x].
Proof.
  intros [l' ->]%last_Some. rewrite length_app. cbn.
  by rewrite take_app_length' by lia.
Qed.
