(* ===== verification/Framing.v ===== *)
(** * Size-prefixed frames

    Every TCP protocol of the repository sends FlatBuffers buffers behind a
    32-bit length: memoryd ([memoryd/src/client_session.cpp]), its client
    ([memclient/src/client_api.cpp]), the GPU daemon and its client.  This file
    has the framing they share and the relation between a stream of bytes and
    the messages in it. *)

From S2P Require Import Prelude.

(** [common/types.h] *)
Definition MAX_MESSAGE_SIZE : Z := 64 * 1024 * 1024.

(** [FlatBufferBuilder::FinishSizePrefixed]: a 32-bit little-endian length
    before the buffer. *)
Definition size_prefixed (table : list byte) : list byte := le_bytes 4 (zlen table) ++ table.

(** [flatbuffers::GetPrefixedSize]. *)
Definition prefixed_size (b : list byte) : Z := le_value (take 4 b).

Section frames.
Context {A : Type} (verify : list byte -> option A).

(** [deframe_with b msgs rest]: [b] is the frames of the messages [msgs], each
    of which the verifier accepts, and then [rest], which is no whole frame. *)
Inductive deframe_with : list byte -> list A -> list byte -> Prop :=
| deframe_stop b :
    zlen b < 4 \/ (prefixed_size b <= MAX_MESSAGE_SIZE /\ zlen b - 4 < prefixed_size b) ->
    deframe_with b [] b
| deframe_step b msg msgs rest :
    4 <= zlen b -> prefixed_size b <= MAX_MESSAGE_SIZE -> prefixed_size b <= zlen b - 4 ->
    verify (slice 0 (prefixed_size b + 4) b) = Some msg ->
    deframe_with (drop (Z.to_nat (prefixed_size b + 4)) b) msgs rest ->
    deframe_with b (msg :: msgs) rest.

Lemma prefixed_size_app a c : 4 <= zlen a -> prefixed_size (a ++ c) = prefixed_size a.
Proof. intros H. unfold prefixed_size. rewrite take_app_le; [done|]. unfold zlen in H. lia. Qed.

Lemma prefixed_size_nonneg b : 0 <= prefixed_size b.
Proof. apply le_value_range. Qed.

Lemma slice_0 {B} n (l : list B) : slice 0 n l = take (Z.to_nat n) l.
Proof. unfold slice. by rewrite drop_0. Qed.

Lemma prefixed_size_prefixed table rest :
  zlen table < U32 -> prefixed_size (size_prefixed table ++ rest) = zlen table.
Proof.
  intros H. unfold prefixed_size, size_prefixed. rewrite <- app_assoc.
  rewrite take_app_length' by (by rewrite length_le_bytes).
  rewrite le_value_bytes by apply zlen_nonneg. apply Z.mod_small. pose proof (zlen_nonneg table). done.
Qed.

(** Cutting the stream anywhere cuts the list of messages. *)
Lemma deframe_prefix a c reqs rest :
  deframe_with (a ++ c) reqs rest ->
  exists r1 mid r2, deframe_with a r1 mid /\ deframe_with (mid ++ c) r2 rest /\ reqs = r1 ++ r2.
Proof.
  intros H. remember (a ++ c) as b eqn:Hb. revert a Hb.
  induction H as [b Hstop|b req reqs rest H4 Hmax Hfit Hv Hd IH]; intros a ->.
  - exists [], a, []. split; [|by split; [constructor|]]. constructor.
    destruct (decide (zlen a < 4)); [by left|]. right. pose proof (zlen_nonneg c).
    rewrite prefixed_size_app, zlen_app in Hstop by lia. lia.
  - destruct (decide (zlen a < 4)) as [|Ha].
    { exists [], a, (req :: reqs). split; [constructor; by left|]. split; [by constructor|done]. }
    rewrite prefixed_size_app in * by lia. pose proof (prefixed_size_nonneg a) as H0.
    destruct (decide (prefixed_size a <= zlen a - 4)) as [Hin|Hout].
    + destruct (IH (drop (Z.to_nat (prefixed_size a + 4)) a)) as (r1 & mid & r2 & H1 & H2 & ->).
      { rewrite drop_app_le; [done|]. unfold zlen in *. lia. }
      exists (req :: r1), mid, r2. split_and!; try done. apply deframe_step; try done; [lia|].
      revert Hv. rewrite !slice_0. rewrite take_app_le; [done|]. unfold zlen in *. lia.
    + exists [], a, (req :: reqs). split; [constructor; lia|]. split; [|done].
      apply deframe_step; rewrite ?prefixed_size_app by lia; try done.
Qed.

(** A rest is no whole frame. *)
Lemma deframe_rest b msgs rest : deframe_with b msgs rest -> deframe_with rest [] rest.
Proof. induction 1; [by constructor|done]. Qed.

(** Nothing is cut from what holds no whole frame. *)
Lemma deframe_quiet b r msgs rest : deframe_with b [] r -> deframe_with b msgs rest -> msgs = [] /\ rest = b.
Proof. intros Hq Hd. inversion Hq; subst. inversion Hd; subst; [done|]. lia. Qed.

(** The encoding of messages, and a partial frame, is a stream of them. *)
Lemma deframe_encode (enc : A -> list byte) msgs partial :
  (forall m, m ∈ msgs -> zlen (enc m) < MAX_MESSAGE_SIZE /\
     verify (size_prefixed (enc m)) = Some m) ->
  deframe_with partial [] partial ->
  deframe_with (concat ((fun m => size_prefixed (enc m)) <$> msgs) ++ partial) msgs partial.
Proof.
  intros Hm Hp. induction msgs as [|m msgs IH]; cbn [fmap list_fmap concat]; [done|].
  destruct (Hm m) as [Hlen Hv]; [left|].
  set (rest := concat ((fun m => size_prefixed (enc m)) <$> msgs) ++ partial).
  pose proof (zlen_nonneg (enc m)).
  assert (Hz : zlen (size_prefixed (enc m)) = zlen (enc m) + 4).
  { unfold size_prefixed. rewrite zlen_app. unfold zlen at 1. rewrite length_le_bytes. lia. }
  assert (Hsz : prefixed_size (size_prefixed (enc m) ++ rest) = zlen (enc m)).
  { apply prefixed_size_prefixed. unfold U32, MAX_MESSAGE_SIZE in *. lia. }
  rewrite <- app_assoc. fold rest. apply deframe_step; rewrite ?Hsz, ?zlen_app; pose proof (zlen_nonneg rest); try lia.
  - rewrite <- Hz, slice_0, take_app_length' by (unfold zlen; lia). done.
  - rewrite <- Hz, drop_app_length' by (unfold zlen; lia). apply IH. intros m' Hin. apply Hm. by right.
Qed.
End frames.
Arguments deframe_stop {A verify}.
Arguments deframe_step {A verify}.
Arguments deframe_prefix {A verify}.
Arguments deframe_rest {A verify}.
Arguments deframe_quiet {A verify}.
Arguments deframe_encode {A verify}.
