(* ===== verification/Slab.v ===== *)
(** * The slab allocator of memoryd

    [memoryd/src/slab_allocator.cpp]: a flat buffer cut into pages, a state per
    page and a stack of free page indices.  Every operation runs under the
    allocator's mutex (and a page's lock), so each is one atomic step here.

    [slab_abs] is what the allocator promises to its client: a finite map from
    the pages handed out to their bytes.  The refinement lemmas say what each
    operation does to that map; [slab_wf] is the representation invariant. *)

From S2P Require Import Prelude.

Inductive PageState := FREE | ALLOCATED.

#[export] Instance PageState_eq_dec : EqDecision PageState.
Proof. solve_decision. Defined.

Record SlabAllocator := mkSlab {
  page_size_ : Z;
  total_pages_ : Z;
  buffer_ : list byte;
  page_states_ : list PageState;
  free_list_ : list Z          (* a vector: [back] is the last element *)
}.

(** ** Operations *)

(** The indices the constructor pushes: [total - 1] down to [0]. *)
Definition descending (n : Z) : list Z := reverse (seqZ 0 n).

(** [new uint8_t[n]]: [operator_new n] is the block it yields (its bytes are not
    initialised), or nothing when it throws [bad_alloc]. *)
Definition SlabAllocator_new (operator_new : Z -> option (list byte))
    (total_size page_size : Z) : outcome SlabAllocator :=
  if page_size =? 0 then Throw (invalid_argument "Page size cannot be 0")
  else
    let total_pages := total_size / page_size in
    if total_pages =? 0 then
      Throw (invalid_argument "Total size must be at least one page size")
    else if SIZE_MAX / page_size <? total_pages then
      Throw (invalid_argument "Total size overflows addressable range")
    else
      match operator_new (u64 (total_pages * page_size)) with
      | None => Throw bad_alloc
      | Some buffer =>
          Ret {| page_size_ := page_size;
                 total_pages_ := total_pages;
                 buffer_ := buffer;
                 page_states_ := replicate (Z.to_nat total_pages) FREE;
                 free_list_ := descending total_pages |}
      end.

(** One turn of the loop of [allocate_pages]: pop a page, mark it, clear it. *)
Definition allocate_one (p : Z) (s : SlabAllocator) : SlabAllocator :=
  {| page_size_ := page_size_ s;
     total_pages_ := total_pages_ s;
     buffer_ := splice (u64 (p * page_size_ s))
                  (replicate (Z.to_nat (page_size_ s)) x00) (buffer_ s);
     page_states_ := zset (page_states_ s) p ALLOCATED;
     free_list_ := take (length (free_list_ s) - 1) (free_list_ s) |}.

Fixpoint allocate_loop (count : nat) (pages : list Z) : M SlabAllocator (list Z) :=
  match count with
  | O => ret pages
  | S count =>
      let! s := get in
      match last (free_list_ s) with
      | None => undef                             (* back() of an empty vector *)
      | Some p =>
          match znth (page_states_ s) p with
          | None => undef                         (* an index out of range *)
          | Some _ =>
              do! put (allocate_one p s) in
              allocate_loop count (pages ++ [p])
          end
      end
  end.

Definition allocate_pages (count : Z) : M SlabAllocator (list Z) :=
  let! s := get in
  if zlen (free_list_ s) <? count then throw bad_alloc
  else allocate_loop (Z.to_nat count) [].

Definition free_one (p : Z) (s : SlabAllocator) : SlabAllocator :=
  if p <? total_pages_ s then
    match znth (page_states_ s) p with
    | Some ALLOCATED =>
        {| page_size_ := page_size_ s;
           total_pages_ := total_pages_ s;
           buffer_ := buffer_ s;
           page_states_ := zset (page_states_ s) p FREE;
           free_list_ := free_list_ s ++ [p] |}
    | _ => s
    end
  else s.

Definition free_pages (pages : list Z) (s : SlabAllocator) : SlabAllocator :=
  foldl (fun s p => free_one p s) s pages.

Definition page_in_bounds (s : SlabAllocator) (page_idx page_offset size : Z) : bool :=
  negb ((total_pages_ s <=? page_idx) || (page_size_ s <? page_offset)
        || (page_size_ s - page_offset <? size)).

Definition write_page (page_idx page_offset : Z) (data : list byte) : M SlabAllocator unit :=
  let! s := get in
  if negb (page_in_bounds s page_idx page_offset (zlen data)) then
    throw (out_of_range "Write out of bounds")
  else
    if decide (znth (page_states_ s) page_idx = Some ALLOCATED) then
      put {| page_size_ := page_size_ s;
             total_pages_ := total_pages_ s;
             buffer_ := splice (u64 (page_idx * page_size_ s) + page_offset) data (buffer_ s);
             page_states_ := page_states_ s;
             free_list_ := free_list_ s |}
    else throw (runtime_error "Write to unallocated page").

Definition read_page (page_idx page_offset size : Z) : M SlabAllocator (list byte) :=
  let! s := get in
  if negb (page_in_bounds s page_idx page_offset size) then
    throw (out_of_range "Read out of bounds")
  else
    if decide (znth (page_states_ s) page_idx = Some ALLOCATED) then
      ret (slice (u64 (page_idx * page_size_ s) + page_offset) size (buffer_ s))
    else throw (runtime_error "Read from unallocated page").

Definition free_pages_count (s : SlabAllocator) : Z := zlen (free_list_ s).

(** ** Representation invariant and abstraction *)

Record slab_wf (s : SlabAllocator) : Prop := {
  wf_page_size : 0 < page_size_ s;
  wf_total : 0 < total_pages_ s;
  wf_bytes : total_pages_ s * page_size_ s < U64;
  wf_buffer : zlen (buffer_ s) = total_pages_ s * page_size_ s;
  wf_states : zlen (page_states_ s) = total_pages_ s;
  wf_nodup : NoDup (free_list_ s);
  wf_free : forall p, p ∈ free_list_ s <-> znth (page_states_ s) p = Some FREE
}.

Definition page_bytes (s : SlabAllocator) (p : Z) : list byte :=
  slice (p * page_size_ s) (page_size_ s) (buffer_ s).

Definition zero_page (s : SlabAllocator) : list byte :=
  replicate (Z.to_nat (page_size_ s)) x00.

Definition page_entry (s : SlabAllocator) (p : Z) : option (Z * list byte) :=
  if decide (znth (page_states_ s) p = Some ALLOCATED) then Some (p, page_bytes s p) else None.

(** The pages handed out, with their bytes. *)
Definition slab_abs (s : SlabAllocator) : gmap Z (list byte) :=
  list_to_map (omap (page_entry s) (seqZ 0 (total_pages_ s))).

Definition same_geometry (s s' : SlabAllocator) : Prop :=
  page_size_ s' = page_size_ s /\ total_pages_ s' = total_pages_ s.

Definition zeroed (s : SlabAllocator) (pages : list Z) : gmap Z (list byte) :=
  list_to_map ((fun p => (p, zero_page s)) <$> pages).

(** ** The abstraction map *)

Lemma slab_abs_lookup s p :
  zlen (page_states_ s) = total_pages_ s ->
  slab_abs s !! p =
    if decide (znth (page_states_ s) p = Some ALLOCATED) then Some (page_bytes s p) else None.
Proof.
  intros Hlen. unfold slab_abs.
  set (l := omap (page_entry s) (seqZ 0 (total_pages_ s))).
  assert (Hmem : forall k v, (k, v) ∈ l <->
            0 <= k < total_pages_ s /\ page_entry s k = Some (k, v)).
  { intros k v. unfold l. rewrite list_elem_of_omap. split.
    - intros (q & Hq%elem_of_seqZ & He). unfold page_entry in *.
      case_decide; simplify_eq. rewrite decide_True by done. split; [lia|done].
    - intros [Hk He]. exists k. split; [apply elem_of_seqZ; lia|done]. }
  assert (Hfst : l.*1 = filter (fun q => znth (page_states_ s) q = Some ALLOCATED)
                          (seqZ 0 (total_pages_ s))).
  { unfold l. generalize (seqZ 0 (total_pages_ s)). intros ks.
    induction ks as [|q ks IH]; [done|].
    rewrite filter_cons. cbn [omap list_omap]. unfold page_entry at 1.
    case_decide; cbn; by rewrite <- IH. }
  assert (HND : NoDup l.*1) by (rewrite Hfst; apply NoDup_filter, NoDup_seqZ).
  case_decide as Hst.
  - apply elem_of_list_to_map_1; [done|]. apply Hmem. unfold page_entry.
    rewrite decide_True by done. split; [|done]. rewrite <- Hlen. by eapply znth_Some.
  - apply not_elem_of_list_to_map_1. rewrite Hfst, list_elem_of_filter. naive_solver.
Qed.

Lemma slab_abs_Some s p c :
  slab_wf s -> slab_abs s !! p = Some c <->
    znth (page_states_ s) p = Some ALLOCATED /\ c = page_bytes s p.
Proof.
  intros Hwf. rewrite slab_abs_lookup by apply Hwf. case_decide; naive_solver.
Qed.

Lemma slab_abs_range s p : slab_wf s -> is_Some (slab_abs s !! p) -> 0 <= p < total_pages_ s.
Proof.
  intros Hwf [c [Hst _]%slab_abs_Some]; [|done].
  rewrite <- (wf_states _ Hwf). by eapply znth_Some.
Qed.

Lemma slab_abs_dom s p :
  slab_wf s -> 0 <= p < total_pages_ s -> p ∉ free_list_ s -> is_Some (slab_abs s !! p).
Proof.
  intros Hwf Hp Hf. rewrite slab_abs_lookup by apply Hwf.
  destruct (znth_is_Some (page_states_ s) p) as [[] Hst].
  - by rewrite (wf_states _ Hwf).
  - by apply (wf_free _ Hwf) in Hst.
  - rewrite decide_True; done.
Qed.

Lemma free_not_abs s p : slab_wf s -> p ∈ free_list_ s -> slab_abs s !! p = None.
Proof.
  intros Hwf Hp%(wf_free _ Hwf). rewrite slab_abs_lookup by apply Hwf.
  rewrite decide_False; [done|congruence].
Qed.

Lemma free_range s p : slab_wf s -> p ∈ free_list_ s -> 0 <= p < total_pages_ s.
Proof.
  intros Hwf Hp%(wf_free _ Hwf). rewrite <- (wf_states _ Hwf). by eapply znth_Some.
Qed.

(** ** Page offsets *)

Lemma page_end_bound s p :
  slab_wf s -> 0 <= p < total_pages_ s ->
  0 <= p * page_size_ s /\ p * page_size_ s + page_size_ s <= total_pages_ s * page_size_ s.
Proof. intros [] Hp. split; nia. Qed.

Lemma page_offset_u64 s p :
  slab_wf s -> 0 <= p < total_pages_ s -> u64 (p * page_size_ s) = p * page_size_ s.
Proof.
  intros Hwf Hp. pose proof (page_end_bound _ _ Hwf Hp). pose proof (wf_bytes _ Hwf).
  pose proof (wf_page_size _ Hwf). apply u64_small. lia.
Qed.

Lemma zlen_zero_page s : slab_wf s -> zlen (zero_page s) = page_size_ s.
Proof. intros []. apply zlen_replicate. lia. Qed.

Lemma zlen_page_bytes s p :
  slab_wf s -> 0 <= p < total_pages_ s -> zlen (page_bytes s p) = page_size_ s.
Proof.
  intros Hwf Hp. pose proof (page_end_bound _ _ Hwf Hp). destruct Hwf.
  apply zlen_slice; lia.
Qed.

(** Writing inside one page leaves every other page alone. *)
Lemma page_bytes_splice s s' p off data :
  slab_wf s -> 0 <= p < total_pages_ s -> 0 <= off -> off + zlen data <= page_size_ s ->
  buffer_ s' = splice (p * page_size_ s + off) data (buffer_ s) ->
  page_size_ s' = page_size_ s ->
  forall q, 0 <= q < total_pages_ s ->
  page_bytes s' q = if decide (q = p) then splice off data (page_bytes s p) else page_bytes s q.
Proof.
  intros Hwf Hp Ho Hd Hb Hps q Hq. unfold page_bytes. rewrite Hb, Hps.
  pose proof (page_end_bound _ _ Hwf Hp). pose proof (page_end_bound _ _ Hwf Hq).
  pose proof (wf_buffer _ Hwf). pose proof (wf_page_size _ Hwf). pose proof (zlen_nonneg data).
  case_decide as Heq.
  - subst. rewrite slice_splice_inner by lia. f_equal. lia.
  - apply slice_splice_disjoint; try lia.
    assert (q < p \/ p < q) as [] by lia; [left|right]; nia.
Qed.

(** ** One page taken, one page given back *)

Lemma allocate_one_states s p q :
  slab_wf s -> p ∈ free_list_ s ->
  znth (page_states_ (allocate_one p s)) q =
    if decide (q = p) then Some ALLOCATED else znth (page_states_ s) q.
Proof.
  intros Hwf Hp. pose proof (free_range _ _ Hwf Hp).
  cbn. case_decide as E.
  - subst. apply znth_zset_eq. by rewrite (wf_states _ Hwf).
  - apply znth_zset_ne; lia.
Qed.

Lemma allocate_one_wf s p :
  slab_wf s -> last (free_list_ s) = Some p -> slab_wf (allocate_one p s).
Proof.
  intros Hwf Hlast. pose proof (last_Some_split _ _ Hlast) as Hsplit.
  assert (Hin : p ∈ free_list_ s) by (rewrite Hsplit; set_solver).
  pose proof (free_range _ _ Hwf Hin) as Hr.
  pose proof (page_end_bound _ _ Hwf Hr) as Hb.
  pose proof (wf_nodup _ Hwf) as Hnd. rewrite Hsplit, NoDup_app in Hnd.
  destruct Hnd as (Hnd & Hdisj & _).
  split; try apply Hwf.
  - cbn. rewrite page_offset_u64 by done.
    rewrite zlen_splice; [apply Hwf|lia|].
    rewrite zlen_replicate, (wf_buffer _ Hwf) by (destruct Hwf; lia). lia.
  - cbn. rewrite zlen_zset. apply Hwf.
  - done.
  - intros q. rewrite allocate_one_states by done. cbn.
    assert (Hq : q ∈ free_list_ s <-> q ∈ take (length (free_list_ s) - 1) (free_list_ s) \/ q = p).
    { rewrite Hsplit at 1. by rewrite elem_of_app, list_elem_of_singleton. }
    case_decide as E.
    + subst. split; [|done]. intros Hin'. destruct (Hdisj p Hin'). set_solver.
    + rewrite <- (wf_free _ Hwf). naive_solver.
Qed.

Lemma allocate_one_abs s p :
  slab_wf s -> last (free_list_ s) = Some p ->
  slab_abs (allocate_one p s) = <[p := zero_page s]> (slab_abs s).
Proof.
  intros Hwf Hlast. pose proof (allocate_one_wf _ _ Hwf Hlast) as Hwf'.
  pose proof (last_Some_split _ _ Hlast) as Hsplit.
  assert (Hin : p ∈ free_list_ s) by (rewrite Hsplit; set_solver).
  pose proof (free_range _ _ Hwf Hin) as Hr.
  apply map_eq. intros q. rewrite lookup_insert, !slab_abs_lookup by (apply Hwf || apply Hwf').
  rewrite allocate_one_states by done.
  assert (Hz : zlen (zero_page s) = page_size_ s) by (by apply zlen_zero_page).
  assert (Hpb : forall q, 0 <= q < total_pages_ s -> page_bytes (allocate_one p s) q =
            if decide (q = p) then splice 0 (zero_page s) (page_bytes s p) else page_bytes s q).
  { apply page_bytes_splice; try done; [lia|]. cbn. by rewrite page_offset_u64, Z.add_0_r. }
  repeat case_decide; simplify_eq; try done.
  - rewrite Hpb, decide_True by done. rewrite splice_full; [done|].
    by rewrite zlen_page_bytes.
  - rewrite Hpb, decide_False; try done. rewrite <- (wf_states _ Hwf). by eapply znth_Some.
Qed.

Lemma free_one_abs s p :
  slab_wf s -> slab_wf (free_one p s) /\ slab_abs (free_one p s) = delete p (slab_abs s) /\
               same_geometry s (free_one p s).
Proof.
  intros Hwf. unfold free_one.
  assert (Hnone : znth (page_states_ s) p <> Some ALLOCATED ->
            slab_wf s /\ slab_abs s = delete p (slab_abs s) /\ same_geometry s s).
  { intros Hn. split; [done|]. split; [|done]. symmetry. apply delete_id.
    rewrite slab_abs_lookup by apply Hwf. by rewrite decide_False. }
  destruct (Z.ltb_spec p (total_pages_ s)) as [Hlt|Hge].
  2: { apply Hnone. intros Hp%znth_Some. rewrite (wf_states _ Hwf) in Hp. lia. }
  destruct (znth (page_states_ s) p) as [[]|] eqn:Hst; try (apply Hnone; congruence).
  pose proof (znth_Some _ _ _ Hst) as Hr. clear Hnone.
  set (s' := mkSlab _ _ _ _ _).
  assert (Hs : forall q, znth (page_states_ s') q =
            if decide (q = p) then Some FREE else znth (page_states_ s) q).
  { intros q. cbn. case_decide; [subst; by apply znth_zset_eq|apply znth_zset_ne; lia]. }
  assert (Hwf' : slab_wf s').
  { split; try apply Hwf.
    - cbn. rewrite zlen_zset. apply Hwf.
    - cbn. apply NoDup_app. split; [apply Hwf|]. split; [|apply NoDup_singleton].
      intros q Hq%(wf_free _ Hwf) ->%list_elem_of_singleton. congruence.
    - intros q. rewrite Hs. cbn. rewrite elem_of_app, list_elem_of_singleton, (wf_free _ Hwf).
      case_decide; naive_solver. }
  split; [done|]. split; [|done].
  apply map_eq. intros q. rewrite lookup_delete, !slab_abs_lookup by (apply Hwf || apply Hwf').
  rewrite Hs. repeat case_decide; simplify_eq; done.
Qed.

(** ** Whole operations *)

Lemma zeroed_lookup s pages p :
  zeroed s pages !! p = if decide (p ∈ pages) then Some (zero_page s) else None.
Proof.
  unfold zeroed. induction pages as [|q pages IH]; [done|].
  cbn. rewrite lookup_insert, IH. repeat case_decide; simplify_eq; set_solver.
Qed.

Lemma zeroed_cons s p pages : zeroed s (p :: pages) = <[p := zero_page s]> (zeroed s pages).
Proof. done. Qed.

(** What [allocate_loop] does when the free list is long enough: the pages it
    appends are the top of the stack. *)
Lemma allocate_loop_spec count acc s :
  slab_wf s -> (count <= length (free_list_ s))%nat ->
  exists pages s', allocate_loop count acc s = (Ret (acc ++ pages), s') /\
    slab_wf s' /\ same_geometry s s' /\ length pages = count /\
    free_list_ s = free_list_ s' ++ reverse pages /\
    slab_abs s' = zeroed s pages ∪ slab_abs s.
Proof.
  revert acc s. induction count as [|count IH]; intros acc s Hwf Hc.
  - exists [], s. cbn. rewrite !app_nil_r, (left_id_L ∅ (∪)). done.
  - destruct (last (free_list_ s)) as [p|] eqn:Hlast.
    2: { apply last_None in Hlast. rewrite Hlast in Hc. cbn in Hc. lia. }
    pose proof (last_Some_split _ _ Hlast) as Hsplit.
    assert (Hin : p ∈ free_list_ s) by (rewrite Hsplit; set_solver).
    destruct (IH (acc ++ [p]) (allocate_one p s)) as (pages & s' & Hrun & Hwf' & Hg & Hlen & Hfl & Habs).
    { by apply allocate_one_wf. }
    { cbn. rewrite length_take. lia. }
    exists (p :: pages), s'. cbn [allocate_loop]. munfold. rewrite Hlast.
    rewrite (proj1 (wf_free _ Hwf p) Hin), Hrun, <- app_assoc.
    split; [done|]. split; [done|]. split; [by destruct Hg|].
    split; [cbn; lia|]. split.
    + rewrite Hsplit. cbn [allocate_one free_list_] in Hfl. rewrite Hfl at 1.
      by rewrite reverse_cons, app_assoc.
    + rewrite Habs, allocate_one_abs, zeroed_cons by done.
      change (zeroed (allocate_one p s) pages) with (zeroed s pages).
      apply map_eq. intros q. rewrite !lookup_union, !lookup_insert, zeroed_lookup.
      case_decide as E1; case_decide as E2; subst; try done; by destruct (slab_abs s !! q).
Qed.

Lemma allocate_pages_spec count s :
  slab_wf s -> 0 <= count <= free_pages_count s ->
  exists pages s', allocate_pages count s = (Ret pages, s') /\
    slab_wf s' /\ same_geometry s s' /\ zlen pages = count /\ NoDup pages /\
    (forall p, p ∈ pages -> p ∈ free_list_ s) /\
    free_pages_count s' = free_pages_count s - count /\
    slab_abs s' = zeroed s pages ∪ slab_abs s.
Proof.
  intros Hwf Hc. unfold free_pages_count, zlen in *.
  destruct (allocate_loop_spec (Z.to_nat count) [] s Hwf) as (pages & s' & Hrun & Hwf' & Hg & Hl & Hf & Ha);
    [lia|].
  exists pages, s'. unfold allocate_pages. munfold. unfold zlen. zcase.
  pose proof (wf_nodup _ Hwf) as Hnd. rewrite Hf in Hnd. apply NoDup_app in Hnd as (_ & _ & Hnd).
  repeat split; try done; try apply Hwf'; try apply Hg; try lia.
  - by rewrite reverse_Permutation in Hnd.
  - intros p Hp. rewrite Hf. apply elem_of_app. right. by apply elem_of_reverse.
  - apply (f_equal length) in Hf. rewrite length_app, length_reverse in Hf. lia.
Qed.

Lemma allocate_pages_fail count s :
  free_pages_count s < count -> allocate_pages count s = (Throw bad_alloc, s).
Proof. intros. unfold allocate_pages, free_pages_count in *. munfold. by zcase. Qed.

Lemma free_pages_spec pages s :
  slab_wf s -> slab_wf (free_pages pages s) /\ same_geometry s (free_pages pages s) /\
  slab_abs (free_pages pages s) = filter (fun '(p, _) => p ∉ pages) (slab_abs s).
Proof.
  unfold free_pages. revert s. induction pages as [|p pages IH]; intros s Hwf; cbn.
  - split; [done|]. split; [done|]. symmetry. apply map_filter_id. set_solver.
  - destruct (free_one_abs s p Hwf) as (Hwf' & Ha & Hg).
    destruct (IH _ Hwf') as (Hwf'' & Hg' & Ha'). split; [done|]. split.
    + destruct Hg, Hg'. split; congruence.
    + rewrite Ha', Ha. apply map_eq. intros q. apply option_eq. intros c.
      rewrite !map_lookup_filter_Some, lookup_delete_Some. set_solver.
Qed.

Lemma page_in_bounds_iff s p off n :
  page_in_bounds s p off n = true <->
    p < total_pages_ s /\ off <= page_size_ s /\ off + n <= page_size_ s.
Proof.
  unfold page_in_bounds. rewrite negb_true_iff, !orb_false_iff, Z.leb_gt, !Z.ltb_ge. lia.
Qed.

Lemma write_page_spec s p off data c :
  slab_wf s -> slab_abs s !! p = Some c -> 0 <= off -> off + zlen data <= page_size_ s ->
  exists s', write_page p off data s = (Ret tt, s') /\ slab_wf s' /\ same_geometry s s' /\
    free_list_ s' = free_list_ s /\
    slab_abs s' = <[p := splice off data c]> (slab_abs s).
Proof.
  intros Hwf Hp Ho Hd. pose proof (slab_abs_range _ _ Hwf (mk_is_Some _ _ Hp)) as Hr.
  apply slab_abs_Some in Hp as [Hst ->]; [|done]. pose proof (zlen_nonneg data).
  unfold write_page. munfold. rewrite (proj2 (page_in_bounds_iff _ _ _ _)) by lia.
  cbn [negb]. rewrite decide_True by done. eexists. split; [done|].
  rewrite (page_offset_u64 _ _ Hwf Hr). set (s' := mkSlab _ _ _ _ _).
  pose proof (page_end_bound _ _ Hwf Hr).
  assert (Hwf' : slab_wf s').
  { split; try apply Hwf. cbn. rewrite zlen_splice; rewrite ?(wf_buffer _ Hwf); lia. }
  split; [done|]. split; [done|]. split; [done|].
  apply map_eq. intros q. rewrite lookup_insert, !slab_abs_lookup by (apply Hwf || apply Hwf').
  change (page_states_ s') with (page_states_ s).
  pose proof (page_bytes_splice s s' p off data Hwf Hr Ho Hd eq_refl eq_refl) as Hpb.
  case_decide as E1; case_decide as E2; subst; try done.
  - rewrite Hpb by done. by rewrite decide_True.
  - rewrite Hpb, decide_False; [done|congruence|].
    rewrite <- (wf_states _ Hwf). by eapply znth_Some.
Qed.

Lemma read_page_spec s p off n c :
  slab_wf s -> slab_abs s !! p = Some c -> 0 <= off -> 0 <= n -> off + n <= page_size_ s ->
  read_page p off n s = (Ret (slice off n c), s).
Proof.
  intros Hwf Hp Ho Hn Hd. pose proof (slab_abs_range _ _ Hwf (mk_is_Some _ _ Hp)) as Hr.
  apply slab_abs_Some in Hp as [Hst ->]; [|done].
  unfold read_page. munfold. rewrite (proj2 (page_in_bounds_iff _ _ _ _)) by lia.
  cbn [negb]. rewrite decide_True by done. rewrite (page_offset_u64 _ _ Hwf Hr).
  pose proof (page_end_bound _ _ Hwf Hr). unfold page_bytes. rewrite slice_slice by lia.
  by rewrite Z.add_comm.
Qed.

(** Every way an access can be refused: out of the page, or a page nobody holds. *)
Lemma write_page_refused s p off data :
  slab_wf s -> 0 <= p -> 0 <= off ->
  total_pages_ s <= p \/ page_size_ s < off + zlen data \/ slab_abs s !! p = None ->
  exists e, write_page p off data s = (Throw e, s).
Proof.
  intros Hwf Hp Ho Hbad. unfold write_page. munfold.
  destruct (page_in_bounds s p off (zlen data)) eqn:Hb; [|by eexists].
  apply page_in_bounds_iff in Hb. cbn [negb].
  rewrite slab_abs_lookup in Hbad by apply Hwf.
  case_decide; [|by eexists]. destruct Hbad as [|[|]]; [lia|lia|done].
Qed.

Lemma descending_elem n p : p ∈ descending n <-> 0 <= p < n.
Proof. unfold descending. rewrite elem_of_reverse, elem_of_seqZ. lia. Qed.

Lemma zlen_descending n : 0 <= n -> zlen (descending n) = n.
Proof. intros. unfold descending, zlen. rewrite length_reverse, length_seqZ. lia. Qed.

Lemma SlabAllocator_new_spec operator_new total_size page_size s :
  is_u64 total_size -> is_u64 page_size ->
  (forall n b, operator_new n = Some b -> zlen b = n) ->
  SlabAllocator_new operator_new total_size page_size = Ret s ->
  slab_wf s /\ slab_abs s = ∅ /\ page_size_ s = page_size /\
  total_pages_ s = total_size / page_size /\ free_pages_count s = total_pages_ s.
Proof.
  unfold is_u64. intros Ht Hp Hnew. unfold SlabAllocator_new.
  destruct (Z.eqb_spec page_size 0); [done|].
  assert (Hle : total_size / page_size * page_size <= total_size).
  { rewrite Z.mul_comm. apply Z.mul_div_le. lia. }
  assert (0 <= total_size / page_size) by (apply Z.div_pos; lia).
  destruct (Z.eqb_spec (total_size / page_size) 0); [done|].
  destruct (Z.ltb_spec (SIZE_MAX / page_size) (total_size / page_size)); [done|].
  rewrite u64_small by nia.
  destruct (operator_new _) as [b|] eqn:Hb; intros [= <-].
  assert (Hst : forall p, znth (replicate (Z.to_nat (total_size / page_size)) FREE) p = Some FREE <->
            0 <= p < total_size / page_size).
  { intros p. split.
    - intros Hp'%znth_Some. by rewrite zlen_replicate in Hp' by lia.
    - intros Hp'. rewrite znth_lookup by lia. apply lookup_replicate. split; [done|lia]. }
  assert (Hwf : slab_wf (mkSlab page_size (total_size / page_size) b
            (replicate (Z.to_nat (total_size / page_size)) FREE) (descending (total_size / page_size)))).
  { split; cbn; try lia.
    - by apply Hnew.
    - apply zlen_replicate. lia.
    - unfold descending. rewrite reverse_Permutation. apply NoDup_seqZ.
    - intros p. by rewrite descending_elem, Hst. }
  split; [done|]. split; [|split; [done|split; [done|]]].
  - apply map_empty. intros p. apply eq_None_not_Some. intros [c [Hc _]%slab_abs_Some]; [|done].
    pose proof (znth_Some _ _ _ Hc) as Hr. cbn in Hc, Hr. rewrite zlen_replicate in Hr by lia.
    rewrite (proj2 (Hst p)) in Hc by lia. done.
  - unfold free_pages_count. cbn. apply zlen_descending. lia.
Qed.

(** ** Reachable allocators *)

(** One call on the allocator, whatever its outcome. *)
Inductive slab_step : SlabAllocator -> SlabAllocator -> Prop :=
| slab_step_allocate count s o s' :
    is_u64 count -> allocate_pages count s = (o, s') -> slab_step s s'
| slab_step_free pages s : slab_step s (free_pages pages s)
| slab_step_write p off data s o s' :
    is_u64 p -> is_u64 off -> write_page p off data s = (o, s') -> slab_step s s'
| slab_step_read p off n s o s' :
    is_u64 p -> is_u64 off -> is_u64 n -> read_page p off n s = (o, s') -> slab_step s s'.

Inductive slab_reachable (operator_new : Z -> option (list byte)) : SlabAllocator -> Prop :=
| slab_reachable_new total_size page_size s :
    is_u64 total_size -> is_u64 page_size ->
    SlabAllocator_new operator_new total_size page_size = Ret s ->
    slab_reachable operator_new s
| slab_reachable_step s s' :
    slab_reachable operator_new s -> slab_step s s' -> slab_reachable operator_new s'.

Lemma write_page_inv s p off data o s' :
  slab_wf s -> is_u64 p -> is_u64 off -> write_page p off data s = (o, s') ->
  slab_wf s'.
Proof.
  intros Hwf Hp Ho Hrun.
  destruct (decide (off + zlen data <= page_size_ s)) as [Hle|Hgt].
  - destruct (slab_abs s !! p) as [c|] eqn:Hc.
    + destruct (write_page_spec s p off data c Hwf Hc) as (s1 & Hr & Hwf1 & _);
        [apply Ho|done|]. rewrite Hr in Hrun. by simplify_eq.
    + destruct (write_page_refused s p off data) as [e He]; try done;
        [apply Hp|apply Ho|auto|]. rewrite He in Hrun. by simplify_eq.
  - destruct (write_page_refused s p off data) as [e He]; try done;
      [apply Hp|apply Ho|right; left; lia|]. rewrite He in Hrun. by simplify_eq.
Qed.

Lemma read_page_state s p off n o s' : read_page p off n s = (o, s') -> s' = s.
Proof.
  unfold read_page. munfold. destruct (negb _); [naive_solver|]. case_decide; naive_solver.
Qed.

Lemma slab_step_wf s s' : slab_wf s -> slab_step s s' -> slab_wf s'.
Proof.
  intros Hwf Hstep.
  destruct Hstep as [count s o s' Hc Hr|pages s|p off data s o s' Hp Ho Hr|p off n s o s' _ _ _ Hr].
  - destruct (decide (count <= free_pages_count s)) as [Hle|Hgt].
    + destruct (allocate_pages_spec count s Hwf) as (pages & s1 & Hr1 & Hwf1 & _);
        [unfold is_u64 in *; lia|]. rewrite Hr1 in Hr. by simplify_eq.
    + rewrite allocate_pages_fail in Hr by lia. by simplify_eq.
  - by apply free_pages_spec.
  - exact (write_page_inv _ _ _ _ _ _ Hwf Hp Ho Hr).
  - by apply read_page_state in Hr as ->.
Qed.

Lemma slab_page_count s :
  slab_wf s -> Z.of_nat (size (slab_abs s)) + free_pages_count s = total_pages_ s.
Proof.
  intros Hwf. pose proof (wf_total _ Hwf).
  assert (Hsplit : list_to_set (C := gset Z) (seqZ 0 (total_pages_ s)) =
            dom (slab_abs s) ∪ list_to_set (free_list_ s)).
  { apply set_eq. intros p. rewrite elem_of_union, !elem_of_list_to_set, elem_of_seqZ, elem_of_dom.
    split.
    - intros Hp. destruct (decide (p ∈ free_list_ s)); [by right|left].
      apply slab_abs_dom; [done|lia|done].
    - intros [Hp|Hp]; [apply slab_abs_range in Hp|apply free_range in Hp]; try done; lia. }
  apply (f_equal size) in Hsplit.
  rewrite size_union, !size_list_to_set, length_seqZ, size_dom in Hsplit;
    [unfold free_pages_count, zlen; lia|apply Hwf|apply NoDup_seqZ|].
  intros p Hp Hf%elem_of_list_to_set. apply free_not_abs in Hf; [|done].
  apply elem_of_dom in Hp as [? Hp]. congruence.
Qed.

(** ** Properties *)

(** Whatever calls are made on an allocator after its construction, its
    representation stays sound (buffer and state vectors keep their sizes, the
    free list holds each free page exactly once) and no page is lost or counted
    twice: pages handed out plus pages free is always the total. *)
Theorem slab_invariant operator_new s :
  (forall n b, operator_new n = Some b -> zlen b = n) ->
  slab_reachable operator_new s ->
  slab_wf s /\ Z.of_nat (size (slab_abs s)) + free_pages_count s = total_pages_ s.
Proof.
  intros Hnew Hreach. assert (Hwf : slab_wf s); [|by auto using slab_page_count].
  induction Hreach as [t p s Ht Hp Hs|s s' _ IH Hstep].
  - by eapply SlabAllocator_new_spec in Hs as [? _].
  - by eapply slab_step_wf.
Qed.

(** [allocate_pages] either refuses with [bad_alloc] and changes nothing,
    exactly when fewer than [count] pages are free, or hands out [count]
    distinct pages that nobody held, all cleared, and leaves the contents of
    every page already handed out as they were. *)
Theorem allocate_pages_fresh s count o s' :
  slab_wf s -> is_u64 count -> allocate_pages count s = (o, s') ->
  (o = Throw bad_alloc /\ s' = s /\ free_pages_count s < count) \/
  exists pages, o = Ret pages /\ zlen pages = count /\ NoDup pages /\
    count <= free_pages_count s /\
    (forall p, p ∈ pages -> slab_abs s !! p = None /\ slab_abs s' !! p = Some (zero_page s)) /\
    (forall p, p ∉ pages -> slab_abs s' !! p = slab_abs s !! p).
Proof.
  intros Hwf Hc Hrun. unfold is_u64 in Hc.
  destruct (decide (count <= free_pages_count s)) as [Hle|Hgt]; [right|left].
  - destruct (allocate_pages_spec count s Hwf) as (pages & s1 & Hr & _ & _ & Hl & Hnd & Hfree & _ & Ha);
      [lia|]. rewrite Hr in Hrun. simplify_eq. exists pages. rewrite Ha.
    split_and!; try done; intros p Hp; rewrite lookup_union, zeroed_lookup.
    + rewrite decide_True by done. rewrite free_not_abs by auto. done.
    + rewrite decide_False by done. apply (left_id_L None (∪)).
  - rewrite allocate_pages_fail in Hrun by lia. simplify_eq. split_and!; try done; lia.
Qed.

(** Bytes written inside a page that is handed out are the bytes read back,
    and no other page changes. *)
Theorem write_read_page s p off data :
  slab_wf s -> is_Some (slab_abs s !! p) -> 0 <= off -> off + zlen data <= page_size_ s ->
  exists s', write_page p off data s = (Ret tt, s') /\
    read_page p off (zlen data) s' = (Ret data, s') /\
    (forall q, q <> p -> slab_abs s' !! q = slab_abs s !! q).
Proof.
  intros Hwf [c Hc] Ho Hd.
  destruct (write_page_spec s p off data c Hwf Hc Ho Hd) as (s' & Hr & Hwf' & [Hps _] & _ & Ha).
  pose proof (slab_abs_range _ _ Hwf (mk_is_Some _ _ Hc)) as Hp.
  apply slab_abs_Some in Hc as [_ ->]; [|done].
  exists s'. split; [done|]. split.
  - rewrite (read_page_spec s' p off (zlen data) (splice off data (page_bytes s p)));
      rewrite ?Hps; try done; [|by rewrite Ha, lookup_insert_eq|apply zlen_nonneg].
    rewrite slice_splice_same; [done|done|]. by rewrite zlen_page_bytes.
  - intros q Hq. by rewrite Ha, lookup_insert_ne.
Qed.

(** ** Concrete runs *)

Definition demo_new (n : Z) : option (list byte) :=
  if n <? 0 then None else Some (replicate (Z.to_nat n) xff).

Lemma demo_new_len n b : demo_new n = Some b -> zlen b = n.
Proof. unfold demo_new. zcase; [done|]. intros [= <-]. apply zlen_replicate. lia. Qed.

(** A pool of three 4-byte pages. *)
Definition demo_slab : SlabAllocator := mkSlab 4 3 (replicate 12 xff) [FREE; FREE; FREE] [2; 1; 0].

Lemma demo_slab_new : SlabAllocator_new demo_new 14 4 = Ret demo_slab.
Proof. reflexivity. Qed.

Lemma demo_slab_wf : slab_wf demo_slab.
Proof.
  apply (SlabAllocator_new_spec demo_new 14 4); try done; apply demo_new_len.
Qed.

Definition demo_slab1 : SlabAllocator := snd (allocate_pages 2 demo_slab).

Lemma demo_slab1_step : slab_step demo_slab demo_slab1.
Proof. by apply (slab_step_allocate 2 _ (Ret [0; 1])). Qed.

Lemma demo_slab1_wf : slab_wf demo_slab1.
Proof. exact (slab_step_wf _ _ demo_slab_wf demo_slab1_step). Qed.

Lemma slab_invariant_witness :
  slab_wf demo_slab1 /\ Z.of_nat (size (slab_abs demo_slab1)) + free_pages_count demo_slab1 = 3.
Proof.
  apply (slab_invariant demo_new demo_slab1 demo_new_len).
  apply (slab_reachable_step _ demo_slab _); [|exact demo_slab1_step].
  by apply (slab_reachable_new _ 14 4).
Defined.

Lemma allocate_pages_fresh_witness :
  exists pages, allocate_pages 2 demo_slab = (Ret pages, demo_slab1) /\ NoDup pages.
Proof.
  destruct (allocate_pages_fresh demo_slab 2 (Ret [0; 1]) demo_slab1) as [(? & _)|(pages & Ho & _ & Hnd & _)];
    [exact demo_slab_wf|done|done|done|].
  exists pages. split; [|done]. by rewrite <- Ho.
Defined.

Lemma write_read_page_witness :
  exists s', write_page 1 2 [x0a; x0b] demo_slab1 = (Ret tt, s') /\
    read_page 1 2 2 s' = (Ret [x0a; x0b], s').
Proof.
  destruct (write_read_page demo_slab1 1 2 [x0a; x0b]) as (s' & Hw & Hr & _);
    [exact demo_slab1_wf|by eexists|done|done|]. by exists s'.
Defined.
