(* ===== verification/PageTracker.v ===== *)
(** * Handles over pages: memoryd's page tracker

    [memoryd/src/page_tracker.cpp] names groups of slab pages by handles, keeps
    the size and the owner of each, and cuts reads and writes at page borders.
    The tracker's mutex makes each operation one step; the page loops of [read]
    and [write] run on the daemon's loop thread after the lock is released.

    [tracker_abs] is what a client of the tracker sees: a map from handles to an
    owner and a byte string of the requested size.  [Spec_*] are the operations
    on that map, written in the same outcome monad, and the [*_refines] lemmas
    say that the page-level code computes exactly them, errors included. *)

From S2P Require Import Prelude Slab.

Record Allocation := mkAllocation {
  total_size : Z;
  pages : list Z;
  owner_id : Z
}.

Record PageTracker := mkTracker {
  allocator_ : SlabAllocator;
  allocations_ : gmap Z Allocation;
  next_handle_ : Z
}.

(** ** Operations *)

Definition set_allocator (s : SlabAllocator) (t : PageTracker) : PageTracker :=
  mkTracker s (allocations_ t) (next_handle_ t).

Definition set_allocations (m : gmap Z Allocation) (t : PageTracker) : PageTracker :=
  mkTracker (allocator_ t) m (next_handle_ t).

(** A call on the allocator the tracker points to. *)
Definition on_allocator {A} (c : M SlabAllocator A) : M PageTracker A :=
  zoom allocator_ set_allocator c.

Definition PageTracker_new (allocator : option SlabAllocator) : outcome PageTracker :=
  match allocator with
  | None => Throw (invalid_argument "Allocator cannot be null")
  | Some s => Ret (mkTracker s ∅ 1)
  end.

Definition check_ownership (handle owner : Z) : M PageTracker unit :=
  let! t := get in
  match allocations_ t !! handle with
  | None => throw (invalid_argument "Invalid handle")
  | Some a =>
      throw_if (negb (owner_id a =? 0) && negb (owner_id a =? owner)) permission_denied_error
  end.

Definition tracker_allocate (size : Z) : M PageTracker Z :=
  if size =? 0 then ret 0
  else
    let! t := get in
    let page_size := page_size_ (allocator_ t) in
    if SIZE_MAX - (page_size - 1) <? size then throw bad_alloc
    else
      let pages_needed := u64 (size + page_size - 1) / page_size in
      let! allocated_pages := on_allocator (allocate_pages pages_needed) in
      let! t := get in
      let h := next_handle_ t in
      do! put (mkTracker (allocator_ t) (<[h := mkAllocation size allocated_pages 0]> (allocations_ t))
                 (u64 (h + 1))) in
      ret h.

Definition tracker_free (handle owner : Z) : M PageTracker unit :=
  do! check_ownership handle owner in
  let! t := get in
  match allocations_ t !! handle with
  | Some a =>
      put (mkTracker (free_pages (pages a) (allocator_ t)) (delete handle (allocations_ t))
             (next_handle_ t))
  | None => ret tt
  end.

(** The page loop of [write]; [fuel] bounds its turns, each moves a byte or more. *)
Fixpoint write_loop (fuel : nat) (page_size : Z) (pages : list Z) (offset : Z)
    (data : list byte) (data_idx : Z) : M SlabAllocator unit :=
  if data_idx <? zlen data then
    match fuel with
    | O => nofuel
    | S fuel =>
        let logical_pos := u64 (offset + data_idx) in
        let page_idx := logical_pos / page_size in
        let offset_in_page := logical_pos mod page_size in
        let bytes_to_write := Z.min (zlen data - data_idx) (page_size - offset_in_page) in
        match znth pages page_idx with
        | None => undef
        | Some p =>
            do! write_page p offset_in_page (slice data_idx bytes_to_write data) in
            write_loop fuel page_size pages offset data (data_idx + bytes_to_write)
        end
    end
  else ret tt.

Fixpoint read_loop (fuel : nat) (page_size : Z) (pages : list Z) (offset size data_idx : Z)
    (out_data : list byte) : M SlabAllocator (list byte) :=
  if data_idx <? size then
    match fuel with
    | O => nofuel
    | S fuel =>
        let logical_pos := u64 (offset + data_idx) in
        let page_idx := logical_pos / page_size in
        let offset_in_page := logical_pos mod page_size in
        let bytes_to_read := Z.min (size - data_idx) (page_size - offset_in_page) in
        match znth pages page_idx with
        | None => undef
        | Some p =>
            let! bytes := read_page p offset_in_page bytes_to_read in
            read_loop fuel page_size pages offset size (data_idx + bytes_to_read) (out_data ++ bytes)
        end
    end
  else ret out_data.

Arguments write_loop : simpl never.
Arguments read_loop : simpl never.

(** [offset > total_size || size > total_size - offset] *)
Definition exceeds (total offset size : Z) : bool := (total <? offset) || (total - offset <? size).

Definition tracker_write (handle offset : Z) (data : list byte) (owner : Z) : M PageTracker unit :=
  if zlen data =? 0 then ret tt
  else
    do! check_ownership handle owner in
    let! t := get in
    match allocations_ t !! handle with
    | None => undef                                     (* find() gave end() *)
    | Some a =>
        if exceeds (total_size a) offset (zlen data) then
          throw (out_of_range "Write exceeds allocation size")
        else
          on_allocator
            (write_loop (length data) (page_size_ (allocator_ t)) (pages a) offset data 0)
    end.

Definition tracker_read (handle offset size owner : Z) : M PageTracker (list byte) :=
  if size =? 0 then ret []
  else
    do! check_ownership handle owner in
    let! t := get in
    match allocations_ t !! handle with
    | None => undef
    | Some a =>
        if exceeds (total_size a) offset size then
          throw (out_of_range "Read exceeds allocation size")
        else
          on_allocator
            (read_loop (Z.to_nat size) (page_size_ (allocator_ t)) (pages a) offset size 0 [])
    end.

Definition assign_owner (handle owner : Z) (t : PageTracker) : PageTracker :=
  match allocations_ t !! handle with
  | Some a =>
      set_allocations (<[handle := mkAllocation (total_size a) (pages a) owner]> (allocations_ t)) t
  | None => t
  end.

(** One turn of the sweep of [free_all_for_owner]. *)
Definition free_owned (owner : Z) (t : PageTracker) (e : Z * Allocation) : PageTracker :=
  let '(h, a) := e in
  if owner_id a =? owner then
    mkTracker (free_pages (pages a) (allocator_ t)) (delete h (allocations_ t)) (next_handle_ t)
  else t.

Definition free_all_for_owner `{!MapIter Z Allocation} (owner : Z) (t : PageTracker) : PageTracker :=
  if owner =? 0 then t
  else foldl (free_owned owner) t (map_iter (allocations_ t)).

(** ** Abstraction and invariant *)

(** The pages of a handle as one byte string. *)
Definition page_list (m : gmap Z (list byte)) (ps : list Z) : list (list byte) :=
  (fun p => default [] (m !! p)) <$> ps.

Definition alloc_bytes (m : gmap Z (list byte)) (a : Allocation) : list byte :=
  slice 0 (total_size a) (concat (page_list m (pages a))).

(** A handle's owner and bytes. *)
Record Obj := mkObj { obj_owner : Z; obj_bytes : list byte }.

Definition tracker_abs (t : PageTracker) : gmap Z Obj :=
  (fun a => mkObj (owner_id a) (alloc_bytes (slab_abs (allocator_ t)) a)) <$> allocations_ t.

Record alloc_wf (s : SlabAllocator) (a : Allocation) : Prop := {
  alloc_size : 0 < total_size a;
  alloc_fits : total_size a <= zlen (pages a) * page_size_ s;
  alloc_tight : (zlen (pages a) - 1) * page_size_ s < total_size a;
  alloc_nodup : NoDup (pages a);
  alloc_held : forall p, p ∈ pages a -> is_Some (slab_abs s !! p)
}.

Record tracker_wf (t : PageTracker) : Prop := {
  tw_slab : slab_wf (allocator_ t);
  tw_next : 0 < next_handle_ t < U64;
  tw_handle : forall h a, allocations_ t !! h = Some a -> 0 < h < next_handle_ t;
  tw_alloc : forall h a, allocations_ t !! h = Some a -> alloc_wf (allocator_ t) a;
  tw_disjoint : forall h h' a a' p, allocations_ t !! h = Some a -> allocations_ t !! h' = Some a' ->
    p ∈ pages a -> p ∈ pages a' -> h = h';
  tw_owned : forall p, is_Some (slab_abs (allocator_ t) !! p) ->
    exists h a, allocations_ t !! h = Some a /\ p ∈ pages a
}.

(** ** The abstract object store *)

Definition Spec_check (handle owner : Z) : M (gmap Z Obj) unit :=
  let! m := get in
  match m !! handle with
  | None => throw (invalid_argument "Invalid handle")
  | Some o =>
      if decide (obj_owner o = 0 \/ obj_owner o = owner) then ret tt else throw permission_denied_error
  end.

Definition Spec_write (handle offset : Z) (data : list byte) (owner : Z) : M (gmap Z Obj) unit :=
  if decide (data = []) then ret tt
  else
    do! Spec_check handle owner in
    let! m := get in
    match m !! handle with
    | None => undef
    | Some o =>
        if decide (offset + zlen data <= zlen (obj_bytes o)) then
          put (<[handle := mkObj (obj_owner o) (splice offset data (obj_bytes o))]> m)
        else throw (out_of_range "Write exceeds allocation size")
    end.

Definition Spec_read (handle offset size owner : Z) : M (gmap Z Obj) (list byte) :=
  if decide (size = 0) then ret []
  else
    do! Spec_check handle owner in
    let! m := get in
    match m !! handle with
    | None => undef
    | Some o =>
        if decide (offset + size <= zlen (obj_bytes o)) then ret (slice offset size (obj_bytes o))
        else throw (out_of_range "Read exceeds allocation size")
    end.

Definition Spec_free (handle owner : Z) : M (gmap Z Obj) unit :=
  do! Spec_check handle owner in
  let! m := get in
  put (delete handle m).

(** Pages a request of [size] bytes takes. *)
Definition pages_for (size page_size : Z) : Z := (size + page_size - 1) / page_size.

(** ** Pages as one byte string *)

Lemma page_list_ext m m' ps :
  (forall p, p ∈ ps -> m !! p = m' !! p) -> page_list m ps = page_list m' ps.
Proof. intros H. apply list_fmap_ext. intros i p Hp. f_equal. apply H. by apply list_elem_of_lookup_2 in Hp. Qed.

Lemma zlen_page_list m ps : zlen (page_list m ps) = zlen ps.
Proof. unfold zlen, page_list. by rewrite length_fmap. Qed.

Lemma page_list_lookup m ps i p c :
  znth ps i = Some p -> m !! p = Some c -> znth (page_list m ps) i = Some c.
Proof.
  intros Hi Hc. destruct (znth_Some _ _ _ Hi).
  rewrite znth_lookup in Hi by lia. rewrite znth_lookup by lia.
  unfold page_list. rewrite list_lookup_fmap, Hi. cbn. by rewrite Hc.
Qed.

Lemma page_list_insert m ps i p c :
  NoDup ps -> znth ps i = Some p -> page_list (<[p := c]> m) ps = zset (page_list m ps) i c.
Proof.
  intros Hnd Hi. destruct (znth_Some _ _ _ Hi) as [Hi0 Hil].
  rewrite znth_lookup in Hi by lia.
  apply list_eq. intros k. unfold page_list, zset. rewrite list_lookup_fmap.
  destruct (decide (k = Z.to_nat i)) as [->|Hne].
  - rewrite list_lookup_insert_eq by (rewrite length_fmap; unfold zlen in Hil; lia).
    rewrite Hi. cbn. by rewrite lookup_insert_eq.
  - rewrite list_lookup_insert_ne, list_lookup_fmap by done.
    destruct (ps !! k) as [q|] eqn:Hq; [|done]. cbn.
    rewrite lookup_insert_ne; [done|]. intros <-. eapply Hne, NoDup_lookup; eauto.
Qed.

Lemma page_list_chunks s ps :
  slab_wf s -> (forall p, p ∈ ps -> is_Some (slab_abs s !! p)) ->
  chunks_of (page_size_ s) (page_list (slab_abs s) ps).
Proof.
  intros Hwf Hps. apply Forall_fmap, Forall_forall. intros p Hp. cbn.
  destruct (Hps p Hp) as [c Hc]. rewrite Hc. cbn.
  pose proof (slab_abs_range _ _ Hwf (mk_is_Some _ _ Hc)).
  apply slab_abs_Some in Hc as [_ ->]; [|done]. by apply zlen_page_bytes.
Qed.

(** Distinct held pages fit in the pool, so byte offsets into them never wrap. *)
Lemma held_pages_bound s ps :
  slab_wf s -> NoDup ps -> (forall p, p ∈ ps -> is_Some (slab_abs s !! p)) ->
  zlen ps * page_size_ s <= total_pages_ s * page_size_ s < U64.
Proof.
  intros Hwf Hnd Hps. split; [|apply Hwf].
  apply Z.mul_le_mono_nonneg_r; [destruct Hwf; lia|].
  assert (Hsub : ps ⊆ seqZ 0 (total_pages_ s)).
  { intros p Hp. apply elem_of_seqZ. destruct (slab_abs_range _ _ Hwf (Hps p Hp)). lia. }
  apply NoDup_submseteq, submseteq_length in Hsub; [|done].
  rewrite length_seqZ in Hsub. unfold zlen. destruct Hwf. lia.
Qed.

(** Where a byte position falls. *)
Lemma page_split pos ps n :
  0 < ps -> 0 <= pos -> pos < n * ps ->
  0 <= pos / ps < n /\ 0 <= pos mod ps < ps /\ pos = pos / ps * ps + pos mod ps.
Proof.
  intros Hps Hpos Hn. pose proof (Z.mod_pos_bound pos ps Hps).
  pose proof (Z.div_mod pos ps ltac:(lia)).
  split; [|lia]. split; [apply Z.div_pos; lia|]. apply Z.div_lt_upper_bound; lia.
Qed.

(** The page loop writes the data as one contiguous range of the handle's bytes
    and touches no page of another handle. *)
Lemma write_loop_spec ps offset data : forall fuel idx s,
  slab_wf s -> NoDup ps -> (forall p, p ∈ ps -> is_Some (slab_abs s !! p)) ->
  0 <= offset -> offset + zlen data <= zlen ps * page_size_ s ->
  0 <= idx <= zlen data -> zlen data - idx <= Z.of_nat fuel ->
  exists s', write_loop fuel (page_size_ s) ps offset data idx s = (Ret tt, s') /\
    slab_wf s' /\ same_geometry s s' /\ free_list_ s' = free_list_ s /\
    (forall p, p ∉ ps -> slab_abs s' !! p = slab_abs s !! p) /\
    (forall p, is_Some (slab_abs s' !! p) <-> is_Some (slab_abs s !! p)) /\
    concat (page_list (slab_abs s') ps) =
      splice (offset + idx) (drop (Z.to_nat idx) data) (concat (page_list (slab_abs s) ps)).
Proof.
  intros fuel. induction fuel as [|fuel IH]; intros idx s Hwf Hnd Hheld Hoff Hfit Hidx Hfuel;
    pose proof (page_list_chunks _ _ Hwf Hheld) as Hch;
    pose proof (zlen_concat _ _ Hch) as Hcl; rewrite zlen_page_list in Hcl;
    pose proof (held_pages_bound _ _ Hwf Hnd Hheld) as Hbound; unfold write_loop; fold write_loop.
  - zcase. assert (idx = zlen data) by lia. subst. exists s. munfold.
    rewrite drop_ge by (unfold zlen; lia). rewrite splice_nil by lia. by destruct Hwf.
  - zcase.
    2: { assert (idx = zlen data) by lia. subst. exists s. munfold.
         rewrite drop_ge by (unfold zlen; lia). rewrite splice_nil by lia. by destruct Hwf. }
    rewrite u64_small by lia.
    destruct (page_split (offset + idx) (page_size_ s) (zlen ps)) as (Hpi & Hoi & Hpos);
      [apply Hwf|lia|lia|].
    set (pi := (offset + idx) / page_size_ s) in *. set (oi := (offset + idx) mod page_size_ s) in *.
    destruct (znth_is_Some ps pi) as [p Hp]; [done|]. rewrite Hp.
    set (n := Z.min (zlen data - idx) (page_size_ s - oi)).
    assert (Hn : 0 < n /\ n <= zlen data - idx /\ oi + n <= page_size_ s) by lia.
    assert (Hdl : zlen (slice idx n data) = n) by (apply zlen_slice; lia).
    destruct (Hheld p) as [c Hc].
    { rewrite znth_lookup in Hp by lia. by apply list_elem_of_lookup_2 in Hp. }
    destruct (write_page_spec s p oi (slice idx n data) c Hwf Hc) as (s1 & Hr & Hwf1 & Hg1 & Hf1 & Ha1);
      [lia|lia|].
    assert (Hheld1 : forall q, is_Some (slab_abs s1 !! q) <-> is_Some (slab_abs s !! q)).
    { intros q. rewrite Ha1, lookup_insert. case_decide; [subst; rewrite Hc|]; naive_solver. }
    destruct Hg1 as [Hg1 Hg1'].
    destruct (IH (idx + n) s1) as (s' & Hr' & Hwf' & Hg' & Hf' & Hframe & Hdom & Hcat);
      rewrite ?Hg1; try done; try lia.
    { intros q Hq. by apply Hheld1, Hheld. }
    exists s'. munfold. rewrite Hr. rewrite Hg1 in Hr'. split; [exact Hr'|]. split; [done|].
    split; [destruct Hg'; split; congruence|]. split; [congruence|]. split; [|split].
    + intros q Hq. rewrite Hframe, Ha1 by done. apply lookup_insert_ne. intros <-. apply Hq.
      rewrite znth_lookup in Hp by lia. by apply list_elem_of_lookup_2 in Hp.
    + intros q. by rewrite Hdom.
    + rewrite Hcat, Ha1, (page_list_insert _ _ pi) by done.
      rewrite (splice_concat (page_size_ s) _ pi c) by
        (try done; try lia; by eapply page_list_lookup).
      rewrite <- Hpos. rewrite (Z.add_assoc offset idx n). rewrite <- Hdl at 1.
      rewrite splice_splice_adj; [|lia|].
      * f_equal. unfold slice. rewrite Z2Nat.inj_add, <- drop_drop by lia. apply take_drop.
      * rewrite Hdl. unfold zlen at 1. rewrite length_drop. unfold zlen in *. lia.
Qed.

Lemma read_loop_spec ps offset size : forall fuel idx out s,
  slab_wf s -> NoDup ps -> (forall p, p ∈ ps -> is_Some (slab_abs s !! p)) ->
  0 <= offset -> offset + size <= zlen ps * page_size_ s ->
  0 <= idx <= size -> size - idx <= Z.of_nat fuel ->
  read_loop fuel (page_size_ s) ps offset size idx out s =
    (Ret (out ++ slice (offset + idx) (size - idx) (concat (page_list (slab_abs s) ps))), s).
Proof.
  intros fuel. induction fuel as [|fuel IH]; intros idx out s Hwf Hnd Hheld Hoff Hfit Hidx Hfuel;
    pose proof (page_list_chunks _ _ Hwf Hheld) as Hch;
    pose proof (zlen_concat _ _ Hch) as Hcl; rewrite zlen_page_list in Hcl;
    pose proof (held_pages_bound _ _ Hwf Hnd Hheld) as Hbound; unfold read_loop; fold read_loop.
  - zcase. munfold. replace (size - idx) with 0 by lia. by rewrite slice_nil, app_nil_r.
  - zcase. 2: { munfold. replace (size - idx) with 0 by lia. by rewrite slice_nil, app_nil_r. }
    rewrite u64_small by lia.
    destruct (page_split (offset + idx) (page_size_ s) (zlen ps)) as (Hpi & Hoi & Hpos);
      [apply Hwf|lia|lia|].
    set (pi := (offset + idx) / page_size_ s) in *. set (oi := (offset + idx) mod page_size_ s) in *.
    destruct (znth_is_Some ps pi) as [p Hp]; [done|]. rewrite Hp.
    set (n := Z.min (size - idx) (page_size_ s - oi)).
    destruct (Hheld p) as [c Hc].
    { rewrite znth_lookup in Hp by lia. by apply list_elem_of_lookup_2 in Hp. }
    munfold. rewrite (read_page_spec s p oi n c) by (done || lia).
    rewrite IH by (done || lia). do 2 f_equal. rewrite <- app_assoc. f_equal.
    rewrite <- (slice_concat (page_size_ s) (page_list (slab_abs s) ps) pi c) by
      (try done; try lia; by eapply page_list_lookup).
    rewrite <- Hpos, Z.add_assoc, slice_app_adj by lia. f_equal. lia.
Qed.

(** ** From pages to handles *)

Lemma tracker_abs_lookup t h :
  tracker_abs t !! h =
    (fun a => mkObj (owner_id a) (alloc_bytes (slab_abs (allocator_ t)) a)) <$> allocations_ t !! h.
Proof. apply lookup_fmap. Qed.

Lemma alloc_concat_len s a :
  slab_wf s -> alloc_wf s a ->
  zlen (concat (page_list (slab_abs s) (pages a))) = zlen (pages a) * page_size_ s.
Proof.
  intros Hwf Ha. rewrite (zlen_concat (page_size_ s)), zlen_page_list; [done|].
  apply page_list_chunks; [done|]. apply Ha.
Qed.

Lemma zlen_alloc_bytes s a :
  slab_wf s -> alloc_wf s a -> zlen (alloc_bytes (slab_abs s) a) = total_size a.
Proof.
  intros Hwf Ha. pose proof (alloc_concat_len _ _ Hwf Ha). destruct Ha.
  apply zlen_slice; lia.
Qed.

Lemma alloc_bytes_ext m m' a :
  (forall p, p ∈ pages a -> m !! p = m' !! p) -> alloc_bytes m a = alloc_bytes m' a.
Proof. intros H. unfold alloc_bytes. by rewrite (page_list_ext m m'). Qed.

Lemma alloc_wf_dom s s' a :
  same_geometry s s' -> (forall p, p ∈ pages a -> is_Some (slab_abs s !! p) -> is_Some (slab_abs s' !! p)) ->
  alloc_wf s a -> alloc_wf s' a.
Proof. intros [Hp _] Hd []. split; rewrite ?Hp; auto. Qed.

(** Changing bytes of held pages keeps the tracker's invariant. *)
Lemma tracker_wf_set_allocator t s' :
  tracker_wf t -> slab_wf s' -> same_geometry (allocator_ t) s' ->
  (forall p, is_Some (slab_abs s' !! p) <-> is_Some (slab_abs (allocator_ t) !! p)) ->
  tracker_wf (set_allocator s' t).
Proof.
  intros Hwf Hs' Hg Hdom. split; cbn; try apply Hwf; [done| |].
  - intros h a Ha. eapply alloc_wf_dom; [done|naive_solver|]. by eapply (tw_alloc _ Hwf).
  - intros p Hp. apply (tw_owned _ Hwf), Hdom, Hp.
Qed.

Lemma check_ownership_refines t h owner :
  exists o, check_ownership h owner t = (o, t) /\
    Spec_check h owner (tracker_abs t) = (o, tracker_abs t) /\
    (o = Ret tt -> is_Some (allocations_ t !! h)).
Proof.
  unfold check_ownership, Spec_check. munfold. rewrite tracker_abs_lookup.
  destruct (allocations_ t !! h) as [a|]; cbn; [|by eexists].
  destruct (Z.eqb_spec (owner_id a) 0), (Z.eqb_spec (owner_id a) owner); cbn;
    (rewrite decide_True by tauto) || (rewrite decide_False by tauto); eauto.
Qed.

Lemma exceeds_spec total offset size :
  0 <= size -> exceeds total offset size = negb (bool_decide (offset + size <= total)).
Proof.
  intros. unfold exceeds. case_bool_decide; cbn.
  - rewrite orb_false_iff, !Z.ltb_ge. lia.
  - rewrite orb_true_iff, !Z.ltb_lt. lia.
Qed.

Lemma tracker_write_refines t h off data owner :
  tracker_wf t -> 0 <= off ->
  exists o t', tracker_write h off data owner t = (o, t') /\ tracker_wf t' /\
    next_handle_ t' = next_handle_ t /\ free_list_ (allocator_ t') = free_list_ (allocator_ t) /\
    same_geometry (allocator_ t) (allocator_ t') /\
    Spec_write h off data owner (tracker_abs t) = (o, tracker_abs t').
Proof.
  intros Hwf Hoff. unfold tracker_write, Spec_write. pose proof (zlen_nonneg data) as Hlen.
  destruct (Z.eqb_spec (zlen data) 0) as [Hz|Hz].
  { destruct data; [|unfold zlen in Hz; cbn in Hz; lia]. rewrite decide_True by done. munfold. by eexists _, _. }
  rewrite decide_False by (intros ->; done).
  destruct (check_ownership_refines t h owner) as (o & Hc & Hs & Hok).
  destruct o as [[]|e| |]; try (unfold bind at 1; rewrite Hc; unfold bind at 1; rewrite Hs; by eexists _, _).
  rewrite (bind_ret _ _ _ _ _ Hc), (bind_ret _ _ _ _ _ Hs).
  destruct (Hok eq_refl) as [a Ha]. munfold. rewrite Ha, tracker_abs_lookup, Ha. cbn.
  pose proof (tw_slab _ Hwf) as Hslab. pose proof (tw_alloc _ Hwf _ _ Ha) as Haw.
  rewrite zlen_alloc_bytes by done. rewrite exceeds_spec by done.
  case_bool_decide as Hb; cbn; [rewrite decide_True by done|rewrite decide_False by done; by eexists _, _].
  destruct (write_loop_spec (pages a) off data (length data) 0 (allocator_ t))
    as (s' & Hr & Hwf' & Hg & Hf & Hframe & Hdom & Hcat); try done; try (unfold zlen; lia).
  { apply Haw. } { apply Haw. } { pose proof (alloc_fits _ _ Haw). lia. }
  unfold on_allocator. rewrite (zoom_ret _ _ _ _ _ _ Hr). exists (Ret tt), (set_allocator s' t).
  split; [done|]. split; [by apply tracker_wf_set_allocator|]. split; [done|]. split; [done|].
  split; [done|]. f_equal.
  apply map_eq. intros h'. rewrite lookup_insert, !tracker_abs_lookup. cbn.
  case_decide as Eh.
  - subst h'. rewrite Ha. cbn. do 2 f_equal. unfold alloc_bytes. rewrite Hcat.
    pose proof (alloc_concat_len _ _ Hslab Haw). destruct Haw.
    change (drop (Z.to_nat 0) data) with data.
    rewrite Z.add_0_r, slice_splice_inner, Z.sub_0_r by lia. done.
  - destruct (allocations_ t !! h') as [a'|] eqn:Ha'; [|done]. cbn. do 2 f_equal.
    apply alloc_bytes_ext. intros p Hp. symmetry. apply Hframe. intros Hp'. apply Eh.
    by eapply (tw_disjoint _ Hwf).
Qed.

Lemma tracker_read_refines t h off n owner :
  tracker_wf t -> 0 <= off -> 0 <= n ->
  exists o, tracker_read h off n owner t = (o, t) /\
    Spec_read h off n owner (tracker_abs t) = (o, tracker_abs t).
Proof.
  intros Hwf Hoff Hn. unfold tracker_read, Spec_read.
  destruct (Z.eqb_spec n 0); [rewrite decide_True by done; munfold; by eexists|].
  rewrite decide_False by done.
  destruct (check_ownership_refines t h owner) as (o & Hc & Hs & Hok).
  destruct o as [[]|e| |]; try (unfold bind at 1; rewrite Hc; unfold bind at 1; rewrite Hs; by eexists).
  rewrite (bind_ret _ _ _ _ _ Hc), (bind_ret _ _ _ _ _ Hs).
  destruct (Hok eq_refl) as [a Ha]. munfold. rewrite Ha, tracker_abs_lookup, Ha. cbn.
  pose proof (tw_slab _ Hwf) as Hslab. pose proof (tw_alloc _ Hwf _ _ Ha) as Haw.
  rewrite zlen_alloc_bytes by done. rewrite exceeds_spec by done.
  case_bool_decide as Hb; cbn; [rewrite decide_True by done|rewrite decide_False by done; by eexists].
  unfold on_allocator, zoom.
  rewrite read_loop_spec by (try done; try apply Haw; destruct Haw; lia). cbn.
  destruct t as [s allocs nh]. cbn in *. eexists. split; [done|].
  rewrite Z.add_0_r, Z.sub_0_r. unfold alloc_bytes. rewrite slice_slice by lia.
  by rewrite Z.add_0_r.
Qed.

(** ** Allocation *)

Lemma pages_for_bounds size ps :
  0 < ps -> 0 < size ->
  0 < pages_for size ps /\ (pages_for size ps - 1) * ps < size <= pages_for size ps * ps.
Proof.
  intros Hps Hs. unfold pages_for.
  pose proof (Z.div_mod (size + ps - 1) ps ltac:(lia)).
  pose proof (Z.mod_pos_bound (size + ps - 1) ps Hps).
  split; [apply Z.div_str_pos; lia|]. nia.
Qed.

Lemma alloc_bytes_zeroed s m ps size :
  slab_wf s -> 0 <= size <= zlen ps * page_size_ s ->
  alloc_bytes (zeroed s ps ∪ m) (mkAllocation size ps 0) = replicate (Z.to_nat size) x00.
Proof.
  intros Hwf Hsize. unfold alloc_bytes. cbn [pages total_size].
  assert (Hpl : page_list (zeroed s ps ∪ m) ps = replicate (length ps) (zero_page s)).
  { symmetry. apply replicate_as_elem_of. unfold page_list. rewrite length_fmap. split; [done|].
    intros c (p & -> & Hp)%list_elem_of_fmap. rewrite lookup_union, zeroed_lookup, decide_True by done.
    by destruct (m !! p). }
  rewrite Hpl. symmetry. apply replicate_as_elem_of.
  assert (Hch : chunks_of (page_size_ s) (replicate (length ps) (zero_page s))).
  { apply Forall_replicate. by apply zlen_zero_page. }
  pose proof (zlen_concat _ _ Hch) as Hl. split.
  - pose proof (zlen_slice 0 size (concat (replicate (length ps) (zero_page s)))) as Hs.
    unfold zlen in Hs, Hl, Hsize. rewrite length_replicate in Hl. lia.
  - intros b Hb%elem_of_take. destruct Hb as (i & Hb & _). cbn in Hb.
    apply list_elem_of_lookup_2, list_elem_of_In, in_concat in Hb as (c & Hc & Hb).
    apply list_elem_of_In, elem_of_replicate in Hc as [-> _].
    apply list_elem_of_In, elem_of_replicate in Hb as [-> _]. done.
Qed.

Lemma tracker_allocate_spec t size :
  tracker_wf t -> 0 < size < U64 -> next_handle_ t + 1 < U64 ->
  size + page_size_ (allocator_ t) - 1 <= SIZE_MAX ->
  pages_for size (page_size_ (allocator_ t)) <= free_pages_count (allocator_ t) ->
  exists t', tracker_allocate size t = (Ret (next_handle_ t), t') /\ tracker_wf t' /\
    next_handle_ t' = next_handle_ t + 1 /\ same_geometry (allocator_ t) (allocator_ t') /\
    free_pages_count (allocator_ t') =
      free_pages_count (allocator_ t) - pages_for size (page_size_ (allocator_ t)) /\
    tracker_abs t' =
      <[next_handle_ t := mkObj 0 (replicate (Z.to_nat size) x00)]> (tracker_abs t).
Proof.
  intros Hwf Hsize Hnext Hover Hfree. pose proof (tw_slab _ Hwf) as Hslab.
  pose proof (wf_page_size _ Hslab) as Hps. pose proof (tw_next _ Hwf).
  destruct (pages_for_bounds size (page_size_ (allocator_ t))) as (Hpf & Htight & Hfit); [lia..|].
  unfold tracker_allocate. zcase. unfold SIZE_MAX in *.
  unfold bind at 1, get at 1. zcase. rewrite (u64_small (size + _ - 1)) by lia.
  fold (pages_for size (page_size_ (allocator_ t))).
  destruct (allocate_pages_spec (pages_for size (page_size_ (allocator_ t))) (allocator_ t))
    as (ps & s' & Hr & Hwf' & Hg & Hlen & Hnd & Hfr & Hcnt & Habs); [done|lia|].
  unfold on_allocator.
  rewrite (bind_ret _ _ _ ps (set_allocator s' t)) by (by apply zoom_ret).
  munfold. cbn. eexists. split; [done|]. rewrite u64_small by lia.
  assert (Hold : forall h a p, allocations_ t !! h = Some a -> p ∈ pages a -> p ∉ ps).
  { intros h a p Ha Hp Hin. apply Hfr, free_not_abs in Hin; [|done].
    destruct (alloc_held _ _ (tw_alloc _ Hwf _ _ Ha) p Hp). congruence. }
  assert (Hkeep : forall p, p ∉ ps -> slab_abs s' !! p = slab_abs (allocator_ t) !! p).
  { intros p Hp. rewrite Habs, lookup_union, zeroed_lookup, decide_False by done.
    apply (left_id_L None (∪)). }
  assert (Hnew : forall p, p ∈ ps -> is_Some (slab_abs s' !! p)).
  { intros p Hp. rewrite Habs, lookup_union, zeroed_lookup, decide_True by done.
    destruct (slab_abs _ !! p); eauto. }
  split; [|split; [done|split; [done|split; [done|]]]].
  - split; cbn; try done; try lia.
    + intros h a [[<- <-]|[Hne Ha]]%lookup_insert_Some; [lia|]. apply (tw_handle _ Hwf) in Ha. lia.
    + intros h a [[<- <-]|[Hne Ha]]%lookup_insert_Some.
      * destruct Hg as [Hg _]. split; cbn; rewrite ?Hg, ?Hlen; try done; lia.
      * eapply alloc_wf_dom; [done| |by eapply (tw_alloc _ Hwf)].
        intros p Hp. rewrite Hkeep by eauto. done.
    + intros h h' a a' p [[<- <-]|[Hne Ha]]%lookup_insert_Some [[<- <-]|[Hne' Ha']]%lookup_insert_Some;
        cbn; intros Hp Hp'; try done; try (exfalso; by eapply Hold).
      by eapply (tw_disjoint _ Hwf).
    + intros p Hp. destruct (decide (p ∈ ps)) as [Hin|Hin].
      * exists (next_handle_ t), (mkAllocation size ps 0). by rewrite lookup_insert_eq.
      * rewrite Hkeep in Hp by done. destruct (tw_owned _ Hwf _ Hp) as (h & a & Ha & Hpa).
        exists h, a. split; [|done]. rewrite lookup_insert_ne; [done|].
        apply (tw_handle _ Hwf) in Ha. lia.
  - apply map_eq. intros h. rewrite lookup_insert, !tracker_abs_lookup. cbn.
    rewrite lookup_insert. case_decide as E.
    + cbn. do 2 f_equal. rewrite Habs. apply alloc_bytes_zeroed; [done|lia].
    + destruct (allocations_ t !! h) as [a|] eqn:Ha; [|done]. cbn. do 2 f_equal.
      apply alloc_bytes_ext. intros p Hp. apply Hkeep. by eapply Hold.
Qed.

Lemma tracker_allocate_fail t size :
  tracker_wf t -> 0 < size < U64 ->
  SIZE_MAX < size + page_size_ (allocator_ t) - 1 \/
  free_pages_count (allocator_ t) < pages_for size (page_size_ (allocator_ t)) ->
  tracker_allocate size t = (Throw bad_alloc, t).
Proof.
  intros Hwf Hsize Hbad. pose proof (wf_page_size _ (tw_slab _ Hwf)).
  unfold tracker_allocate. zcase. unfold bind at 1, get at 1.
  destruct (Z.ltb_spec (SIZE_MAX - (page_size_ (allocator_ t) - 1)) size); [done|].
  unfold SIZE_MAX in *. rewrite (u64_small (size + _ - 1)) by lia.
  unfold bind at 1, on_allocator, zoom. fold (pages_for size (page_size_ (allocator_ t))).
  rewrite allocate_pages_fail by lia. by destruct t.
Qed.

(** ** Release *)

(** The tracker after a handle is dropped and its pages are returned. *)
Definition drop_handle (h : Z) (a : Allocation) (t : PageTracker) : PageTracker :=
  mkTracker (free_pages (pages a) (allocator_ t)) (delete h (allocations_ t)) (next_handle_ t).

Lemma drop_handle_spec t h a :
  tracker_wf t -> allocations_ t !! h = Some a ->
  tracker_wf (drop_handle h a t) /\ tracker_abs (drop_handle h a t) = delete h (tracker_abs t) /\
  same_geometry (allocator_ t) (allocator_ (drop_handle h a t)).
Proof.
  intros Hwf Ha.
  destruct (free_pages_spec (pages a) (allocator_ t) (tw_slab _ Hwf)) as (Hs & Hg & Habs).
  assert (Hkeep : forall p, p ∉ pages a ->
            slab_abs (free_pages (pages a) (allocator_ t)) !! p = slab_abs (allocator_ t) !! p).
  { intros p Hp. rewrite Habs. apply option_eq. intros c.
    rewrite map_lookup_filter_Some. naive_solver. }
  assert (Hother : forall h' a' p, h' <> h -> allocations_ t !! h' = Some a' -> p ∈ pages a' -> p ∉ pages a).
  { intros h' a' p Hne Ha' Hp Hp'. apply Hne. by eapply (tw_disjoint _ Hwf). }
  split; [|split; [|done]].
  - split; cbn; [done|apply Hwf|..].
    + intros h' a' [_ Ha']%lookup_delete_Some. by eapply (tw_handle _ Hwf).
    + intros h' a' [Hne Ha']%lookup_delete_Some.
      eapply alloc_wf_dom; [done| |by eapply (tw_alloc _ Hwf)].
      intros p Hp. rewrite Hkeep by eauto. done.
    + intros h1 h2 a1 a2 p [_ H1]%lookup_delete_Some [_ H2]%lookup_delete_Some.
      by eapply (tw_disjoint _ Hwf).
    + intros p Hp. rewrite Habs in Hp. destruct Hp as [c [Hc Hnot]%map_lookup_filter_Some].
      destruct (tw_owned _ Hwf p) as (h' & a' & Ha' & Hp'); [eauto|].
      exists h', a'. split; [|done]. apply lookup_delete_Some. split; [|done]. intros <-. naive_solver.
  - apply map_eq. intros h'. rewrite lookup_delete, !tracker_abs_lookup. cbn. rewrite lookup_delete.
    case_decide; [done|]. destruct (allocations_ t !! h') as [a'|] eqn:Ha'; [|done]. cbn.
    do 2 f_equal. apply alloc_bytes_ext. eauto.
Qed.

Lemma tracker_free_refines t h owner :
  tracker_wf t ->
  exists o t', tracker_free h owner t = (o, t') /\ tracker_wf t' /\
    next_handle_ t' = next_handle_ t /\ same_geometry (allocator_ t) (allocator_ t') /\
    Spec_free h owner (tracker_abs t) = (o, tracker_abs t').
Proof.
  intros Hwf. unfold tracker_free, Spec_free.
  destruct (check_ownership_refines t h owner) as (o & Hc & Hs & Hok).
  destruct o as [[]|e| |]; try (unfold bind at 1; rewrite Hc; unfold bind at 1; rewrite Hs; by eexists _, _).
  rewrite (bind_ret _ _ _ _ _ Hc), (bind_ret _ _ _ _ _ Hs).
  destruct (Hok eq_refl) as [a Ha]. munfold. rewrite Ha.
  destruct (drop_handle_spec t h a Hwf Ha) as (Hwf' & Habs & Hg).
  eexists (Ret tt), (drop_handle h a t). by rewrite Habs.
Qed.

Lemma assign_owner_spec t h owner :
  tracker_wf t ->
  tracker_wf (assign_owner h owner t) /\
  tracker_abs (assign_owner h owner t) =
    alter (fun o => mkObj owner (obj_bytes o)) h (tracker_abs t).
Proof.
  intros Hwf. unfold assign_owner. destruct (allocations_ t !! h) as [a|] eqn:Ha.
  - split.
    + split; cbn; try apply Hwf.
      * intros h' a' [[<- <-]|[_ Ha']]%lookup_insert_Some; by eapply (tw_handle _ Hwf).
      * intros h' a' [[<- <-]|[_ Ha']]%lookup_insert_Some; [|by eapply (tw_alloc _ Hwf)].
        by destruct (tw_alloc _ Hwf _ _ Ha).
      * intros h1 h2 a1 a2 p [[<- <-]|[_ H1]]%lookup_insert_Some [[<- <-]|[_ H2]]%lookup_insert_Some;
          cbn; try done; by eapply (tw_disjoint _ Hwf).
      * intros p Hp. destruct (tw_owned _ Hwf p Hp) as (h' & a' & Ha' & Hp').
        destruct (decide (h' = h)) as [->|Hne]; [|exists h', a'; by rewrite lookup_insert_ne].
        eexists _, _. rewrite lookup_insert_eq. split; [done|]. cbn. by simplify_eq.
    + apply map_eq. intros h'. rewrite lookup_alter, !tracker_abs_lookup. cbn. rewrite lookup_insert.
      case_decide; [subst; by rewrite Ha|done].
  - split; [done|]. apply map_eq. intros h'. rewrite lookup_alter.
    case_decide; [subst; by rewrite tracker_abs_lookup, Ha|done].
Qed.

Lemma free_owned_fold owner l t :
  tracker_wf t -> NoDup l.*1 -> (forall h a, (h, a) ∈ l -> allocations_ t !! h = Some a) ->
  tracker_wf (foldl (free_owned owner) t l) /\
  same_geometry (allocator_ t) (allocator_ (foldl (free_owned owner) t l)) /\
  next_handle_ (foldl (free_owned owner) t l) = next_handle_ t /\
  tracker_abs (foldl (free_owned owner) t l) =
    filter (fun '(h, o) => ~ (h ∈ l.*1 /\ obj_owner o = owner)) (tracker_abs t).
Proof.
  revert t. induction l as [|[h a] l IH]; intros t Hwf Hnd Hin; cbn.
  - split_and!; try done. symmetry. apply map_filter_id. intros h o _ [Hh _]. by apply not_elem_of_nil in Hh.
  - cbn in Hnd. apply NoDup_cons in Hnd as [Hh Hnd].
    assert (Ha : allocations_ t !! h = Some a) by (apply Hin; left).
    destruct (Z.eqb_spec (owner_id a) owner) as [Eo|Eo].
    + destruct (drop_handle_spec t h a Hwf Ha) as (Hwf' & Habs & [Hg Hg']).
      fold (drop_handle h a t).
      destruct (IH (drop_handle h a t)) as (Hwf'' & [Hg2 Hg2'] & Hn & Habs'); try done.
      { intros h' a' Hin'. cbn. rewrite lookup_delete_ne; [apply Hin; by right|].
        intros <-. apply Hh. by apply (list_elem_of_fmap_2 fst) in Hin'. }
      split; [done|]. split; [split; congruence|]. split; [done|]. rewrite Habs', Habs.
      apply map_eq. intros h'. apply option_eq. intros o.
      rewrite !map_lookup_filter_Some, lookup_delete_Some, elem_of_cons. split; [naive_solver|].
      intros [Ho Hnot]. split_and!; try done; [|naive_solver].
      intros <-. apply Hnot. split; [by left|]. rewrite tracker_abs_lookup, Ha in Ho. cbn in Ho. by simplify_eq.
    + destruct (IH t) as (Hwf'' & Hg & Hn & Habs'); try done.
      { intros h' a' Hin'. apply Hin. by right. }
      split_and!; try done. rewrite Habs'. apply map_eq. intros h'. apply option_eq. intros o.
      rewrite !map_lookup_filter_Some, elem_of_cons. split; [|naive_solver].
      intros [Ho Hnot]. split; [done|]. intros [[->|Hl] Hown]; [|naive_solver].
      rewrite tracker_abs_lookup, Ha in Ho. cbn in Ho. by simplify_eq.
Qed.

Lemma free_all_for_owner_spec `{!MapIter Z Allocation} t owner :
  tracker_wf t -> owner <> 0 ->
  tracker_wf (free_all_for_owner owner t) /\
  same_geometry (allocator_ t) (allocator_ (free_all_for_owner owner t)) /\
  next_handle_ (free_all_for_owner owner t) = next_handle_ t /\
  tracker_abs (free_all_for_owner owner t) = filter (fun '(h, o) => obj_owner o <> owner) (tracker_abs t).
Proof.
  intros Hwf Ho. unfold free_all_for_owner. zcase.
  destruct (free_owned_fold owner (map_iter (allocations_ t)) t Hwf) as (Hwf' & Hg & Hn & Habs).
  { apply NoDup_map_iter. }
  { intros h a Hin. by apply elem_of_map_iter. }
  split_and!; try done. rewrite Habs. apply map_eq. intros h. apply option_eq. intros o.
  rewrite !map_lookup_filter_Some. split; [|naive_solver]. intros [Hl Hnot]. split; [done|].
  intros Heq. apply Hnot. split; [|done]. rewrite tracker_abs_lookup in Hl.
  apply fmap_Some in Hl as (a & Ha & _). apply elem_of_map_iter in Ha.
  by apply (list_elem_of_fmap_2 fst) in Ha.
Qed.

(** ** Reachable trackers *)

Inductive tracker_op :=
| OpAllocate (size : Z)
| OpFree (handle owner : Z)
| OpWrite (handle offset : Z) (data : list byte) (owner : Z)
| OpRead (handle offset size owner : Z)
| OpAssign (handle owner : Z)
| OpFreeAll (owner : Z).

(** What a call returns. *)
Inductive tracker_value :=
| VUnit
| VHandle (h : Z)
| VBytes (d : list byte).

(** One call on the tracker. *)
Definition tracker_exec `{!MapIter Z Allocation} (op : tracker_op) : M PageTracker tracker_value :=
  match op with
  | OpAllocate size => let! h := tracker_allocate size in ret (VHandle h)
  | OpFree h owner => do! tracker_free h owner in ret VUnit
  | OpWrite h off data owner => do! tracker_write h off data owner in ret VUnit
  | OpRead h off n owner => let! d := tracker_read h off n owner in ret (VBytes d)
  | OpAssign h owner => fun t => (Ret VUnit, assign_owner h owner t)
  | OpFreeAll owner => fun t => (Ret VUnit, free_all_for_owner owner t)
  end.

(** Arguments are 64-bit values, and the handle counter has not run out. *)
Definition op_in_range (t : PageTracker) (op : tracker_op) : Prop :=
  match op with
  | OpAllocate size => is_u64 size /\ next_handle_ t + 1 < U64
  | OpFree h owner => is_u64 h
  | OpWrite h off data owner => is_u64 off
  | OpRead h off n owner => is_u64 off /\ is_u64 n
  | OpAssign h owner => is_u64 h
  | OpFreeAll owner => is_u64 owner
  end.

Lemma Spec_check_defined h owner m o m' :
  Spec_check h owner m = (o, m') -> m' = m /\ no_undefined o /\ (o = Ret tt -> is_Some (m !! h)).
Proof.
  unfold Spec_check. munfold. destruct (m !! h) as [x|].
  - case_decide; intros [= <- <-]; split_and!; try done; eauto.
  - by intros [= <- <-].
Qed.

Lemma Spec_write_defined h off data owner m o m' :
  Spec_write h off data owner m = (o, m') -> no_undefined o.
Proof.
  unfold Spec_write. case_decide; [munfold; by intros [= <- _]|]. unfold bind at 1.
  destruct (Spec_check h owner m) as [o1 m1] eqn:E.
  apply Spec_check_defined in E as (-> & Hd & Hok).
  destruct o1 as [[]|e| |]; try (destruct Hd; done); [|by intros [= <- _]].
  destruct (Hok eq_refl) as [x Hx]. munfold. rewrite Hx. case_decide; by intros [= <- _].
Qed.

Lemma Spec_read_defined h off n owner m o m' :
  Spec_read h off n owner m = (o, m') -> no_undefined o.
Proof.
  unfold Spec_read. case_decide; [munfold; by intros [= <- _]|]. unfold bind at 1.
  destruct (Spec_check h owner m) as [o1 m1] eqn:E.
  apply Spec_check_defined in E as (-> & Hd & Hok).
  destruct o1 as [[]|e| |]; try (destruct Hd; done); [|by intros [= <- _]].
  destruct (Hok eq_refl) as [x Hx]. munfold. rewrite Hx. case_decide; by intros [= <- _].
Qed.

Lemma Spec_free_defined h owner m o m' : Spec_free h owner m = (o, m') -> no_undefined o.
Proof.
  unfold Spec_free. unfold bind at 1. destruct (Spec_check h owner m) as [o1 m1] eqn:E.
  apply Spec_check_defined in E as (-> & Hd & _).
  destruct o1 as [[]|e| |]; try (destruct Hd; done); munfold; by intros [= <- _].
Qed.

Lemma tracker_allocate_cases t size :
  tracker_wf t -> is_u64 size -> next_handle_ t + 1 < U64 ->
  exists o t', tracker_allocate size t = (o, t') /\ tracker_wf t' /\ no_undefined o.
Proof.
  unfold is_u64. intros Hwf Hs Hn. destruct (decide (size = 0)) as [->|Hnz].
  { unfold tracker_allocate. cbn. by eexists _, _. }
  destruct (decide (size + page_size_ (allocator_ t) - 1 <= SIZE_MAX /\
                    pages_for size (page_size_ (allocator_ t)) <= free_pages_count (allocator_ t)))
    as [[H1 H2]|Hbad].
  - destruct (tracker_allocate_spec t size Hwf) as (t' & Hr & Hwf' & _); try done; [lia|].
    by exists (Ret (next_handle_ t)), t'.
  - exists (Throw bad_alloc), t. split; [|done]. apply tracker_allocate_fail; [done|lia|lia].
Qed.

Lemma bind_value {S A B} (c : M S A) (f : A -> B) s o s' :
  c s = (o, s') -> no_undefined o ->
  exists o', (let! a := c in ret (f a)) s = (o', s') /\ no_undefined o'.
Proof. intros Hc Hd. munfold. rewrite Hc. destruct o; try (destruct Hd; done); by eexists. Qed.

Lemma tracker_exec_wf `{!MapIter Z Allocation} t op :
  tracker_wf t -> op_in_range t op ->
  exists o t', tracker_exec op t = (o, t') /\ tracker_wf t' /\ no_undefined o.
Proof.
  intros Hwf Hop. destruct op as [size|h owner|h off data owner|h off n owner|h owner|owner]; cbn in Hop; cbn [tracker_exec].
  - destruct Hop as [Hs Hn]. destruct (tracker_allocate_cases t size) as (o & t' & Hr & Hwf' & Hd); try done.
    destruct (bind_value _ VHandle _ _ _ Hr Hd) as (o' & ? & ?). by exists o', t'.
  - destruct (tracker_free_refines t h owner Hwf) as (o & t' & Hr & Hwf' & _ & _ & Hs).
    destruct (bind_value _ (fun _ => VUnit) _ _ _ Hr (Spec_free_defined _ _ _ _ _ Hs)) as (o' & ? & ?). by exists o', t'.
  - destruct (tracker_write_refines t h off data owner Hwf) as (o & t' & Hr & Hwf' & _ & _ & _ & Hs); [apply Hop|].
    destruct (bind_value _ (fun _ => VUnit) _ _ _ Hr (Spec_write_defined _ _ _ _ _ _ _ Hs)) as (o' & ? & ?). by exists o', t'.
  - destruct (tracker_read_refines t h off n owner Hwf) as (o & Hr & Hs); [apply Hop..|].
    destruct (bind_value _ VBytes _ _ _ Hr (Spec_read_defined _ _ _ _ _ _ _ Hs)) as (o' & ? & ?). by exists o', t.
  - destruct (assign_owner_spec t h owner Hwf) as [Hwf' _]. by eexists _, _.
  - eexists _, _. split; [done|]. split; [|done]. destruct (decide (owner = 0)) as [->|E]; [done|].
    by destruct (free_all_for_owner_spec t owner Hwf E).
Qed.

Inductive tracker_reachable `{!MapIter Z Allocation} (s : SlabAllocator) : PageTracker -> Prop :=
| tracker_reachable_new t : PageTracker_new (Some s) = Ret t -> tracker_reachable s t
| tracker_reachable_step t op o t' :
    tracker_reachable s t -> op_in_range t op -> tracker_exec op t = (o, t') -> tracker_reachable s t'.

Lemma PageTracker_new_wf s t :
  slab_wf s -> slab_abs s = ∅ -> PageTracker_new (Some s) = Ret t -> tracker_wf t.
Proof.
  intros Hs He [= <-]. split; cbn; try done.
  - intros p Hp. rewrite He in Hp. destruct Hp as [? Hp]. by rewrite lookup_empty in Hp.
Qed.

(** ** Properties *)

(** An allocation of [size] bytes gets a handle no live allocation has, a
    byte string of that size that is all zero, and leaves every other handle as
    it was; it is refused with [bad_alloc], and nothing changes, exactly when
    the rounded size overflows or too few pages are free. *)
Theorem tracker_allocate_exact t size o t' :
  tracker_wf t -> 0 < size < U64 -> next_handle_ t + 1 < U64 ->
  tracker_allocate size t = (o, t') ->
  let ps := page_size_ (allocator_ t) in
  let fits := size + ps - 1 <= SIZE_MAX /\ pages_for size ps <= free_pages_count (allocator_ t) in
  (fits /\ o = Ret (next_handle_ t) /\ tracker_wf t' /\ tracker_abs t !! next_handle_ t = None /\
     free_pages_count (allocator_ t') = free_pages_count (allocator_ t) - pages_for size ps /\
     tracker_abs t' = <[next_handle_ t := mkObj 0 (replicate (Z.to_nat size) x00)]> (tracker_abs t))
  \/ (~ fits /\ o = Throw bad_alloc /\ t' = t).
Proof.
  intros Hwf Hs Hn Hr. cbv zeta.
  destruct (decide (size + page_size_ (allocator_ t) - 1 <= SIZE_MAX)) as [H1|H1];
    [destruct (decide (pages_for size (page_size_ (allocator_ t)) <= free_pages_count (allocator_ t)))
       as [H2|H2]|]; [left|right..].
  - destruct (tracker_allocate_spec t size) as (t1 & Hr1 & Hwf1 & _ & _ & Hc & Ha); try done.
    rewrite Hr1 in Hr. simplify_eq. split_and!; try done. rewrite tracker_abs_lookup.
    destruct (allocations_ t !! next_handle_ t) eqn:E; [|done].
    apply (tw_handle _ Hwf) in E. lia.
  - rewrite tracker_allocate_fail in Hr by (done || lia). simplify_eq. split_and!; try done. by intros [].
  - rewrite tracker_allocate_fail in Hr by (done || lia). simplify_eq. split_and!; try done. by intros [].
Qed.

(** Whatever calls are made on a tracker built over a fresh allocator, in
    any hash-map order, each live handle keeps exactly the pages its size
    needs, no page belongs to two handles and no page leaks: a page is handed
    out exactly when some live handle holds it. *)
Theorem tracker_invariant `{!MapIter Z Allocation} s t :
  slab_wf s -> slab_abs s = ∅ -> tracker_reachable s t ->
  tracker_wf t /\
  forall p, is_Some (slab_abs (allocator_ t) !! p) <->
            exists h a, allocations_ t !! h = Some a /\ p ∈ pages a.
Proof.
  intros Hs He Hr. assert (Hwf : tracker_wf t).
  { induction Hr as [t Hn|t op o t' _ IH Hop Hx]; [by eapply PageTracker_new_wf|].
    destruct (tracker_exec_wf t op IH Hop) as (o1 & t1 & Hx1 & Hwf & _).
    rewrite Hx1 in Hx. by simplify_eq. }
  split; [done|]. intros p. split; [apply (tw_owned _ Hwf)|].
  intros (h & a & Ha & Hp). by apply (alloc_held _ _ (tw_alloc _ Hwf _ _ Ha)).
Qed.

(** ** Concrete runs *)

Definition demo_tracker : PageTracker := mkTracker demo_slab ∅ 1.

Lemma demo_slab_empty : slab_abs demo_slab = ∅.
Proof. apply (SlabAllocator_new_spec demo_new 14 4); try done; apply demo_new_len. Qed.

Lemma demo_tracker_wf : tracker_wf demo_tracker.
Proof. by apply (PageTracker_new_wf demo_slab); [apply demo_slab_wf|apply demo_slab_empty|]. Qed.

(** Handle 1, six bytes on two pages, owned by session 7. *)
Definition demo_tracker1 : PageTracker := snd (tracker_allocate 6 demo_tracker).
Definition demo_tracker2 : PageTracker := assign_owner 1 7 demo_tracker1.

Lemma demo_tracker1_wf : tracker_wf demo_tracker1.
Proof.
  destruct (tracker_allocate_cases demo_tracker 6) as (o & t' & Hr & Hwf & _);
    [apply demo_tracker_wf|done|done|]. unfold demo_tracker1. by rewrite Hr.
Qed.

Lemma demo_tracker2_wf : tracker_wf demo_tracker2.
Proof. apply assign_owner_spec, demo_tracker1_wf. Qed.

Lemma tracker_allocate_exact_witness :
  exists h, tracker_allocate 6 demo_tracker = (Ret h, demo_tracker1) /\ tracker_wf demo_tracker1.
Proof.
  destruct (tracker_allocate_exact demo_tracker 6 (Ret 1) demo_tracker1) as [(_ & Ho & Hw & _)|(_ & ? & _)];
    [apply demo_tracker_wf|done|done|done| |done].
  by exists 1.
Defined.

Lemma tracker_invariant_witness :
  tracker_wf demo_tracker1 /\
  (is_Some (slab_abs (allocator_ demo_tracker1) !! 0) <->
   exists h a, allocations_ demo_tracker1 !! h = Some a /\ 0 ∈ pages a).
Proof.
  destruct (@tracker_invariant (map_iter_std Z Allocation) demo_slab demo_tracker1) as [Hwf Hp];
    [apply demo_slab_wf|apply demo_slab_empty| |split; [exact Hwf|exact (Hp 0)]].
  apply (tracker_reachable_step _ demo_tracker (OpAllocate 6) (Ret (VHandle 1))); try done.
  by apply tracker_reachable_new.
Defined.
