(* ===== verification/Crc32c.v ===== *)
(** * CRC32C

    [common/src/crc32c.cpp]: the checksum memoryd verifies on every WRITE and
    attaches to every READ.  The file has a table-driven loop and, under
    [__SSE4_2__], a loop over the processor's CRC instructions, eight bytes at
    a time; both are modelled.  The reference is the bit-by-bit division by the
    reflected Castagnoli polynomial.

    The main lemma, [crc_fold_bits], reads a whole message as one little-endian
    number divided bit by bit; equivalence of the two loops and the error
    detection guarantee both follow from it. *)

From S2P Require Import Prelude.

Definition POLY : Z := 0x82F63B78.

(** ** The code *)

(** The body of the inner loop of [generate_crc32c_table]. *)
Definition crc_bit (crc : Z) : Z :=
  if Z.land crc 1 =? 0 then Z.shiftr crc 1 else Z.lxor (Z.shiftr crc 1) POLY.

Definition table_entry (i : Z) : Z := Nat.iter 8 crc_bit i.

Definition generate_crc32c_table : list Z := table_entry <$> seqZ 0 256.

Definition crc32c_table : list Z := Eval vm_compute in generate_crc32c_table.

(** [~x] on [uint32_t]. *)
Definition not32 (x : Z) : Z := u32 (Z.lnot x).

(** One turn of the table loop:
    [crc = crc32c_table[(crc ^ ptr[i]) & 0xFF] ^ (crc >> 8)]. *)
Definition table_step (crc : Z) (b : byte) : Z :=
  Z.lxor (default 0 (znth crc32c_table (Z.land (Z.lxor crc (byte_to_Z b)) 0xFF)))
         (Z.shiftr crc 8).

Definition crc32c (data : list byte) (initial_crc : Z) : Z :=
  not32 (foldl table_step (not32 initial_crc) data).

(** The SSE 4.2 build: [_mm_crc32_u64] and [_mm_crc32_u8] are the processor's. *)
Section sse.
Context (mm_crc32_u64 mm_crc32_u8 : Z -> Z -> Z).

(** The loop over whole 8-byte blocks; a block is loaded little-endian. *)
Fixpoint sse_blocks (num_blocks : nat) (crc : Z) (data : list byte) : Z :=
  match num_blocks with
  | O => crc
  | S num_blocks =>
      sse_blocks num_blocks (u32 (mm_crc32_u64 crc (le_value (take 8 data)))) (drop 8 data)
  end.

Definition crc32c_sse (data : list byte) (initial_crc : Z) : Z :=
  let crc := not32 initial_crc in
  let num_blocks := zlen data / 8 in
  let crc := sse_blocks (Z.to_nat num_blocks) crc data in
  let rest := drop (Z.to_nat (num_blocks * 8)) data in
  not32 (foldl (fun crc b => mm_crc32_u8 crc (byte_to_Z b)) crc rest).
End sse.

(** ** The reference *)

(** Feed one byte, low bit first. *)
Definition crc_step (crc : Z) (b : byte) : Z := Nat.iter 8 crc_bit (Z.lxor crc (byte_to_Z b)).

Definition crc_ref (data : list byte) (initial_crc : Z) : Z :=
  not32 (foldl crc_step (not32 initial_crc) data).

Definition is_u32 (z : Z) : Prop := 0 <= z < U32.

(** ** Bit-by-bit division is linear *)

Lemma crc_bit_odd c : crc_bit c = Z.lxor (Z.shiftr c 1) (if Z.odd c then POLY else 0).
Proof.
  unfold crc_bit. change 1 with (Z.ones 1) at 1. rewrite Z.land_ones by lia.
  change (2 ^ 1) with 2. rewrite Zmod_odd. destruct (Z.odd c); [done|]. by rewrite Z.lxor_0_r.
Qed.

Lemma crc_bit_lxor a b : crc_bit (Z.lxor a b) = Z.lxor (crc_bit a) (crc_bit b).
Proof.
  rewrite !crc_bit_odd, Z.shiftr_lxor, <- !Z.bit0_odd, Z.lxor_spec.
  apply Z.bits_inj. intros n. rewrite !Z.lxor_spec.
  destruct (Z.testbit a 0), (Z.testbit b 0); cbn [xorb];
    rewrite ?Z.bits_0; repeat destruct (Z.testbit _ n); done.
Qed.

Lemma iter_crc_bit_lxor n a b :
  Nat.iter n crc_bit (Z.lxor a b) = Z.lxor (Nat.iter n crc_bit a) (Nat.iter n crc_bit b).
Proof. induction n as [|n IH]; [done|]. rewrite !Nat.iter_succ. by rewrite IH, crc_bit_lxor. Qed.

Lemma iter_crc_bit_add n m c :
  Nat.iter (n + m) crc_bit c = Nat.iter n crc_bit (Nat.iter m crc_bit c).
Proof. apply Nat.iter_add. Qed.

(** Bits above the ones consumed are only shifted down. *)
Lemma iter_crc_bit_shiftl n y : Nat.iter n crc_bit (y * 2 ^ Z.of_nat n) = y.
Proof.
  revert y. induction n as [|n IH]; intros y; [cbn; lia|].
  rewrite Nat.iter_succ_r. rewrite crc_bit_odd.
  assert (He : y * 2 ^ Z.of_nat (S n) = 2 * (y * 2 ^ Z.of_nat n)).
  { rewrite Nat2Z.inj_succ, Z.pow_succ_r by lia. lia. }
  rewrite He, Z.odd_mul. cbn [Z.odd andb]. rewrite Z.lxor_0_r, Z.shiftr_div_pow2 by lia.
  change (2 ^ 1) with 2. rewrite Z.mul_comm, Z.div_mul by lia. apply IH.
Qed.

Lemma lxor_add_high b y k : 0 <= k -> 0 <= b < 2 ^ k -> Z.lxor b (y * 2 ^ k) = b + y * 2 ^ k.
Proof.
  intros Hk Hb. symmetry. apply Z.add_nocarry_lxor. apply Z.bits_inj'. intros n Hn.
  rewrite Z.land_spec, Z.bits_0. destruct (Z.lt_ge_cases n k).
  - by rewrite Z.mul_pow2_bits_low, andb_false_r.
  - destruct (decide (b = 0)) as [->|]; [by rewrite Z.bits_0|].
    rewrite Z.bits_above_log2; [done|lia|]. apply Z.log2_lt_pow2; [lia|].
    eapply Z.lt_le_trans; [apply Hb|]. by apply Z.pow_le_mono_r.
Qed.

(** A whole message is one little-endian number divided bit by bit. *)
Lemma crc_fold_bits data c :
  foldl crc_step c data = Nat.iter (8 * length data) crc_bit (Z.lxor c (le_value data)).
Proof.
  revert c. induction data as [|b data IH]; intros c.
  { cbn. by rewrite Z.lxor_0_r. }
  cbn [foldl]. rewrite IH. cbn [length le_value].
  replace (8 * S (length data))%nat with (8 * length data + 8)%nat by lia.
  rewrite iter_crc_bit_add. f_equal. unfold crc_step.
  replace (byte_to_Z b + 256 * le_value data) with
    (Z.lxor (byte_to_Z b) (le_value data * 2 ^ Z.of_nat 8)).
  2: { rewrite lxor_add_high; [change (2 ^ Z.of_nat 8) with 256; lia|lia|apply byte_to_Z_range]. }
  rewrite <- Z.lxor_assoc, (iter_crc_bit_lxor 8 _ (le_value data * _)), iter_crc_bit_shiftl. done.
Qed.

(** ** Ranges *)

Lemma u32_lxor a b : is_u32 a -> is_u32 b -> is_u32 (Z.lxor a b).
Proof.
  unfold is_u32, U32. intros Ha Hb.
  assert (Hm : Z.lxor a b = Z.lxor a b mod 2 ^ 32).
  { rewrite <- (Z.mod_small a (2 ^ 32) Ha), <- (Z.mod_small b (2 ^ 32) Hb).
    apply Z.bits_inj'. intros n Hn. destruct (Z.lt_ge_cases n 32).
    - by rewrite Z.mod_pow2_bits_low.
    - by rewrite Z.lxor_spec, !Z.mod_pow2_bits_high by lia. }
  rewrite Hm. apply Z.mod_pos_bound. lia.
Qed.

Lemma crc_bit_u32 c : is_u32 c -> is_u32 (crc_bit c).
Proof.
  intros Hc. rewrite crc_bit_odd. apply u32_lxor.
  - unfold is_u32, U32 in *. rewrite Z.shiftr_div_pow2 by lia. change (2 ^ 1) with 2.
    split; [apply Z.div_pos; lia|]. apply Z.div_lt_upper_bound; lia.
  - by destruct (Z.odd c).
Qed.

Lemma iter_crc_bit_u32 n c : is_u32 c -> is_u32 (Nat.iter n crc_bit c).
Proof. intros Hc. induction n as [|n IH]; [done|]. rewrite Nat.iter_succ. by apply crc_bit_u32. Qed.

Lemma byte_u32 b : is_u32 (byte_to_Z b).
Proof. pose proof (byte_to_Z_range b). unfold is_u32, U32. lia. Qed.

Lemma crc_step_u32 c b : is_u32 c -> is_u32 (crc_step c b).
Proof. intros Hc. apply iter_crc_bit_u32, u32_lxor; [done|apply byte_u32]. Qed.

Lemma crc_fold_u32 data c : is_u32 c -> is_u32 (foldl crc_step c data).
Proof. revert c. induction data as [|b data IH]; intros c Hc; cbn; [done|]. by apply IH, crc_step_u32. Qed.

Lemma not32_u32 x : is_u32 (not32 x).
Proof. apply u32_range. Qed.

Lemma not32_eq x : is_u32 x -> not32 x = U32 - 1 - x.
Proof.
  unfold is_u32, U32. intros Hx. unfold not32, u32, U32, Z.lnot.
  rewrite <- (Z.mod_small (2 ^ 32 - 1 - x) (2 ^ 32)) by lia.
  replace (2 ^ 32 - 1 - x) with (Z.pred (- x) + 1 * 2 ^ 32) by lia. by rewrite Z.mod_add.
Qed.

Lemma not32_involutive x : is_u32 x -> not32 (not32 x) = x.
Proof. intros Hx. rewrite (not32_eq (not32 x)) by apply not32_u32. rewrite not32_eq by done. lia. Qed.

Lemma not32_inj x y : is_u32 x -> is_u32 y -> not32 x = not32 y -> x = y.
Proof. intros Hx Hy H. rewrite <- (not32_involutive x), H by done. by apply not32_involutive. Qed.

(** ** The table *)

Lemma crc32c_table_eq : crc32c_table = generate_crc32c_table.
Proof. vm_compute. reflexivity. Qed.

Lemma table_lookup i : 0 <= i < 256 -> znth crc32c_table i = Some (table_entry i).
Proof.
  intros Hi. rewrite crc32c_table_eq. rewrite znth_lookup by lia.
  unfold generate_crc32c_table. rewrite list_lookup_fmap, lookup_seqZ_lt by lia.
  cbn [fmap option_fmap option_map]. by rewrite Z.add_0_l, Z2Nat.id by lia.
Qed.

Lemma table_step_ref c b : is_u32 c -> table_step c b = crc_step c b.
Proof.
  intros Hc. unfold table_step, crc_step. set (x := Z.lxor c (byte_to_Z b)).
  change 0xFF with (Z.ones 8). rewrite Z.land_ones by lia. change (2 ^ 8) with 256.
  rewrite table_lookup by (apply Z.mod_pos_bound; lia). cbn [default]. unfold table_entry.
  assert (Hx : x = Z.lxor (x mod 256) (Z.shiftr c 8 * 2 ^ Z.of_nat 8)).
  { assert (Hs : Z.shiftr c 8 = Z.shiftr x 8).
    { unfold x. rewrite Z.shiftr_lxor.
      replace (Z.shiftr (byte_to_Z b) 8) with 0; [by rewrite Z.lxor_0_r|].
      rewrite Z.shiftr_div_pow2, Z.div_small by (try apply byte_to_Z_range; lia). done. }
    rewrite Hs, lxor_add_high; [|lia|apply Z.mod_pos_bound; lia].
    rewrite Z.shiftr_div_pow2 by lia. change (2 ^ 8) with 256. change (2 ^ Z.of_nat 8) with 256.
    pose proof (Z.div_mod x 256 ltac:(lia)). lia. }
  rewrite Hx at 2. by rewrite iter_crc_bit_lxor, iter_crc_bit_shiftl.
Qed.

Lemma table_fold_ref data c : is_u32 c -> foldl table_step c data = foldl crc_step c data.
Proof.
  revert c. induction data as [|b data IH]; intros c Hc; cbn; [done|].
  rewrite table_step_ref by done. by apply IH, crc_step_u32.
Qed.

Lemma crc32c_ref data init : crc32c data init = crc_ref data init.
Proof. unfold crc32c, crc_ref. by rewrite table_fold_ref by apply not32_u32. Qed.

(** ** Injectivity: the polynomial has its top bit set *)

Lemma crc_bit_0 c : is_u32 c -> crc_bit c = 0 -> c = 0.
Proof.
  intros Hc. rewrite crc_bit_odd. destruct (Z.odd c) eqn:Ho; intros H.
  - apply Z.lxor_eq in H. exfalso. unfold is_u32, U32, POLY in *.
    rewrite Z.shiftr_div_pow2 in H by lia. change (2 ^ 1) with 2 in H.
    pose proof (Z.div_lt_upper_bound c 2 (2 ^ 31)). lia.
  - rewrite Z.lxor_0_r, Z.shiftr_div_pow2 in H by lia. change (2 ^ 1) with 2 in H.
    pose proof (Z.div_mod c 2). rewrite Zmod_odd, Ho in *. lia.
Qed.

Lemma iter_crc_bit_0 n c : is_u32 c -> Nat.iter n crc_bit c = 0 -> c = 0.
Proof.
  revert c. induction n as [|n IH]; intros c Hc; [done|].
  rewrite Nat.iter_succ_r. intros H. apply crc_bit_0; [done|].
  apply IH; [by apply crc_bit_u32|done].
Qed.

Lemma crc_fold_inj data c c' :
  is_u32 c -> is_u32 c' -> foldl crc_step c data = foldl crc_step c' data -> c = c'.
Proof.
  intros Hc Hc'. rewrite !crc_fold_bits. intros H. apply Z.lxor_eq.
  apply (iter_crc_bit_0 (8 * length data)); [by apply u32_lxor|].
  replace (Z.lxor c c') with (Z.lxor (Z.lxor c (le_value data)) (Z.lxor c' (le_value data))).
  2: { apply Z.bits_inj. intros n. rewrite !Z.lxor_spec.
       by destruct (Z.testbit c n), (Z.testbit c' n), (Z.testbit (le_value data) n). }
  rewrite iter_crc_bit_lxor, H. apply Z.lxor_nilpotent.
Qed.

(** A window of at most four bytes is recovered from the register after it. *)
Lemma crc_window_inj w w' c :
  is_u32 c -> length w = length w' -> (length w <= 4)%nat ->
  foldl crc_step c w = foldl crc_step c w' -> w = w'.
Proof.
  intros Hc Hlen H4 H. apply le_value_inj; [done|].
  assert (Hw : forall l : list byte, (length l <= 4)%nat -> is_u32 (le_value l)).
  { intros l Hl. pose proof (le_value_range l) as Hr. unfold is_u32, U32.
    split; [lia|]. eapply Z.lt_le_trans; [apply Hr|]. apply Z.pow_le_mono_r; unfold zlen; lia. }
  rewrite !crc_fold_bits, <- Hlen in H. apply Z.lxor_eq.
  apply (iter_crc_bit_0 (8 * length w)); [apply u32_lxor; apply Hw; lia|].
  replace (Z.lxor (le_value w) (le_value w')) with
    (Z.lxor (Z.lxor c (le_value w)) (Z.lxor c (le_value w'))).
  2: { apply Z.bits_inj. intros n. rewrite !Z.lxor_spec.
       by destruct (Z.testbit c n), (Z.testbit (le_value w) n), (Z.testbit (le_value w') n). }
  rewrite iter_crc_bit_lxor, H. apply Z.lxor_nilpotent.
Qed.

Lemma crc_ref_detects pre w w' post init :
  length w = length w' -> (length w <= 4)%nat -> w <> w' ->
  crc_ref (pre ++ w ++ post) init <> crc_ref (pre ++ w' ++ post) init.
Proof.
  intros Hlen H4 Hne. unfold crc_ref. rewrite !foldl_app. intros H.
  apply not32_inj in H; [|repeat apply crc_fold_u32; apply not32_u32..].
  apply crc_fold_inj in H; [|repeat apply crc_fold_u32; apply not32_u32..].
  apply Hne. apply crc_window_inj in H; [done| |done..]. apply crc_fold_u32, not32_u32.
Qed.

Lemma crc_ref_u32 data init : is_u32 (crc_ref data init).
Proof. apply not32_u32. Qed.

(** ** The processor's instructions *)

(** What the instruction set reference says of CRC32: an operand is divided
    into the register bit by bit, low bit first. *)
Class CrcInstructions (u64_op u8_op : Z -> Z -> Z) : Prop := {
  crc_u8_spec : forall c b, is_u32 c -> 0 <= b < 256 ->
    u8_op c b = Nat.iter 8 crc_bit (Z.lxor c b);
  crc_u64_spec : forall c v, is_u32 c -> 0 <= v < U64 ->
    u64_op c v = Nat.iter 64 crc_bit (Z.lxor c v)
}.

Section sse_facts.
Context {u64_op u8_op : Z -> Z -> Z} `{!CrcInstructions u64_op u8_op}.

Lemma sse_blocks_ref n c data :
  is_u32 c -> (8 * n <= length data)%nat ->
  sse_blocks u64_op n c data = foldl crc_step c (take (8 * n) data).
Proof.
  revert c data. induction n as [|n IH]; intros c data Hc Hlen; [done|].
  cbn [sse_blocks].
  assert (H8 : length (take 8 data) = 8%nat) by (rewrite length_take; lia).
  assert (Hb : u64_op c (le_value (take 8 data)) = foldl crc_step c (take 8 data)).
  { rewrite crc_u64_spec, crc_fold_bits, H8; [done|done|].
    pose proof (le_value_range (take 8 data)) as Hr. unfold zlen in Hr. rewrite H8 in Hr. apply Hr. }
  rewrite Hb, u32_small by (by apply crc_fold_u32).
  rewrite IH; [|by apply crc_fold_u32|rewrite length_drop; lia].
  rewrite <- foldl_app. f_equal.
  replace (8 * S n)%nat with (8 + 8 * n)%nat by lia. by rewrite take_take_drop.
Qed.

Lemma sse_bytes_ref data c :
  is_u32 c ->
  foldl (fun crc b => u8_op crc (byte_to_Z b)) c data = foldl crc_step c data.
Proof.
  revert c. induction data as [|b data IH]; intros c Hc; cbn; [done|].
  rewrite crc_u8_spec by (done || apply byte_to_Z_range). apply IH. by apply crc_step_u32.
Qed.

Lemma crc32c_sse_ref data init : crc32c_sse u64_op u8_op data init = crc_ref data init.
Proof.
  unfold crc32c_sse, crc_ref. f_equal. set (n := Z.to_nat (zlen data / 8)).
  pose proof (Z.mul_div_le (zlen data) 8 ltac:(lia)) as Hle.
  pose proof (Z.div_pos (zlen data) 8 (zlen_nonneg data) ltac:(lia)).
  assert (Hn : Z.to_nat (zlen data / 8 * 8) = (8 * n)%nat) by lia.
  rewrite Hn, sse_blocks_ref by (try apply not32_u32; unfold zlen in *; lia).
  rewrite sse_bytes_ref by (apply crc_fold_u32, not32_u32).
  by rewrite <- foldl_app, take_drop.
Qed.
End sse_facts.

(** An implementation of the two instructions. *)
Definition crc_u8_bits (c b : Z) : Z := Nat.iter 8 crc_bit (Z.lxor c b).
Definition crc_u64_bits (c v : Z) : Z := Nat.iter 64 crc_bit (Z.lxor c v).

#[export] Instance crc_bits_instructions : CrcInstructions crc_u64_bits crc_u8_bits.
Proof. split; done. Qed.

Definition check_string : list byte := [x31; x32; x33; x34; x35; x36; x37; x38; x39].

Example crc32c_check_value : crc32c check_string 0 = 0xE3069283.
Proof. vm_compute. reflexivity. Qed.

(** ** Properties *)

(** C34: on every message and every initial value the table-driven loop, and
    the SSE 4.2 loop on instructions that behave as documented, compute the
    bit-by-bit Castagnoli CRC. *)
Theorem crc32c_correct u64_op u8_op (HI : CrcInstructions u64_op u8_op) data init :
  crc32c data init = crc_ref data init /\
  crc32c_sse u64_op u8_op data init = crc32c data init.
Proof. split; [apply crc32c_ref|]. by rewrite crc32c_sse_ref, crc32c_ref. Qed.

Lemma crc32c_correct_witness :
  crc_ref check_string 0 = 0xE3069283 /\
  crc32c_sse crc_u64_bits crc_u8_bits check_string 0 = 0xE3069283.
Proof.
  destruct (crc32c_correct _ _ crc_bits_instructions check_string 0) as [H1 H2].
  split; [rewrite <- H1|rewrite H2]; vm_compute; reflexivity.
Defined.

(** a checksum continued over a second buffer is the checksum of the two
    buffers joined. *)
Theorem crc32c_incremental data1 data2 init :
  crc32c (data1 ++ data2) init = crc32c data2 (crc32c data1 init).
Proof.
  rewrite !crc32c_ref. unfold crc_ref. rewrite foldl_app, not32_involutive; [done|].
  apply crc_fold_u32, not32_u32.
Qed.

(** a corruption confined to four consecutive bytes always changes the
    checksum: messages of one length that differ only inside a window of at
    most four bytes have different CRCs. *)
Theorem crc32c_detects pre w w' post init :
  length w = length w' -> (length w <= 4)%nat -> w <> w' ->
  crc32c (pre ++ w ++ post) init <> crc32c (pre ++ w' ++ post) init.
Proof. rewrite !crc32c_ref. apply crc_ref_detects. Qed.

Lemma crc32c_detects_witness : crc32c [x01; x02; x03; x04; x05; x06] 0 <> crc32c [x01; xff; x03; x04; x07; x06] 0.
Proof.
  apply (crc32c_detects [x01] [x02; x03; x04; x05] [xff; x03; x04; x07] [x06] 0); [done|cbn; lia|done].
Defined.
