(* ===== verification/Pool.v ===== *)
(** * The pool a memoryd daemon serves

    [PageTracker.v] shows that reads, writes and frees are steps of a plain
    object store.  Here the store also knows the pool's geometry, so that
    allocation is a function of it as well: a request is granted exactly when
    the pages the live objects need leave enough of the pool over.  This is the
    state the request protocol, the sessions and the clients of memoryd are
    specified against. *)

From S2P Require Import Prelude Slab PageTracker.

Record Pool := mkPool {
  pool_objs : gmap Z Obj;
  pool_next : Z;
  pool_pages : Z;
  pool_page_size : Z
}.

Definition pool_of (t : PageTracker) : Pool :=
  mkPool (tracker_abs t) (next_handle_ t) (total_pages_ (allocator_ t)) (page_size_ (allocator_ t)).

Definition set_objs (m : gmap Z Obj) (p : Pool) : Pool :=
  mkPool m (pool_next p) (pool_pages p) (pool_page_size p).

Definition on_objs {A} (c : M (gmap Z Obj) A) : M Pool A := zoom pool_objs set_objs c.

Definition used_pages (page_size : Z) (m : gmap Z Obj) : Z :=
  map_fold (fun _ o n => n + pages_for (zlen (obj_bytes o)) page_size) 0 m.

Definition pool_free_pages (p : Pool) : Z := pool_pages p - used_pages (pool_page_size p) (pool_objs p).

(** Whether the pool can hold [size] more bytes. *)
Definition pool_fits (p : Pool) (size : Z) : Prop :=
  size + pool_page_size p - 1 <= SIZE_MAX /\ pages_for size (pool_page_size p) <= pool_free_pages p.

#[export] Instance pool_fits_dec p size : Decision (pool_fits p size).
Proof. unfold pool_fits. apply _. Defined.

Definition Pool_allocate (size : Z) : M Pool Z :=
  if decide (size = 0) then ret 0
  else
    let! p := get in
    if decide (pool_fits p size) then
      let h := pool_next p in
      do! put (mkPool (<[h := mkObj 0 (replicate (Z.to_nat size) x00)]> (pool_objs p)) (h + 1)
                 (pool_pages p) (pool_page_size p)) in
      ret h
    else throw bad_alloc.

Definition Pool_assign_owner (handle owner : Z) (p : Pool) : Pool :=
  set_objs (alter (fun o => mkObj owner (obj_bytes o)) handle (pool_objs p)) p.

(** The end of a session. *)
Definition Pool_drop_owner (owner : Z) (p : Pool) : Pool :=
  set_objs (filter (fun '(h, o) => obj_owner o <> owner) (pool_objs p)) p.

(** ** Counting pages *)

Lemma pages_for_exact s a :
  slab_wf s -> alloc_wf s a -> pages_for (total_size a) (page_size_ s) = zlen (pages a).
Proof.
  intros Hs Ha. pose proof (wf_page_size _ Hs). destruct Ha. unfold pages_for.
  symmetry. apply Z.div_unique with (total_size a + page_size_ s - 1 - page_size_ s * zlen (pages a)); lia.
Qed.

Lemma held_card {V} (pgs : V -> list Z) (cost : V -> Z) (m : gmap Z V) (X : gset Z) :
  (forall p, p ∈ X <-> exists h a, m !! h = Some a /\ p ∈ pgs a) ->
  (forall h h' a a' p, m !! h = Some a -> m !! h' = Some a' -> p ∈ pgs a -> p ∈ pgs a' -> h = h') ->
  (forall h a, m !! h = Some a -> NoDup (pgs a) /\ cost a = zlen (pgs a)) ->
  Z.of_nat (size X) = map_fold (fun _ a n => n + cost a) 0 m.
Proof.
  revert X. induction m as [|h a m Hh IH] using map_ind; intros X HX Hdis Hnd.
  - rewrite map_fold_empty. cut (X = ∅); [intros ->; by rewrite size_empty|].
    apply set_eq. intros p. rewrite HX. set_solver.
  - rewrite map_fold_insert_L by (done || intros; lia).
    destruct (Hnd h a) as [Hnda Hcost]; [by rewrite lookup_insert_eq|].
    rewrite <- (IH (X ∖ list_to_set (pgs a))).
    + rewrite Hcost. unfold zlen. rewrite <- (size_list_to_set (C := gset Z)) by done.
      rewrite <- Nat2Z.inj_add, <- size_union by set_solver. do 2 f_equal.
      rewrite difference_union_L. apply set_eq. intros p. rewrite elem_of_union, elem_of_list_to_set.
      split; [by left|]. intros [?|Hp]; [done|]. apply HX. exists h, a. by rewrite lookup_insert_eq.
    + intros p. rewrite elem_of_difference, HX, elem_of_list_to_set. split.
      * intros [(h' & a' & [[<- <-]|[Hne Ha']]%lookup_insert_Some & Hp) Hnot]; [done|]. eauto.
      * intros (h' & a' & Ha' & Hp). assert (h <> h') by congruence. split.
        -- exists h', a'. by rewrite lookup_insert_ne.
        -- intros Hp'. apply H. eapply (Hdis h h' a a' p); try done; [by rewrite lookup_insert_eq|by rewrite lookup_insert_ne].
    + intros h1 h2 a1 a2 p H1 H2. assert (h <> h1 /\ h <> h2) as [] by (split; congruence).
      apply (Hdis h1 h2 a1 a2 p); by rewrite lookup_insert_ne.
    + intros h' a' Ha'. apply (Hnd h'). rewrite lookup_insert_ne by congruence. done.
Qed.

(** No page leaks: the free list is what the live objects leave of the pool. *)
Lemma tracker_accounting t :
  tracker_wf t -> free_pages_count (allocator_ t) = pool_free_pages (pool_of t).
Proof.
  intros Hwf. pose proof (tw_slab _ Hwf) as Hs. unfold pool_free_pages, used_pages. cbn.
  rewrite <- (slab_page_count _ Hs). unfold tracker_abs. rewrite map_fold_fmap.
  rewrite <- size_dom.
  rewrite (held_card pages (fun a => pages_for (zlen (alloc_bytes (slab_abs (allocator_ t)) a)) (page_size_ (allocator_ t)))
             (allocations_ t)).
  - unfold compose. cbn. lia.
  - intros p. rewrite elem_of_dom. split; [apply (tw_owned _ Hwf)|].
    intros (h & a & Ha & Hp). by apply (alloc_held _ _ (tw_alloc _ Hwf _ _ Ha)).
  - apply (tw_disjoint _ Hwf).
  - intros h a Ha. pose proof (tw_alloc _ Hwf _ _ Ha) as Haw. split; [apply Haw|].
    rewrite zlen_alloc_bytes by done. by apply pages_for_exact.
Qed.

(** ** The tracker's operations as operations of the pool *)

Abbreviation pool_refines := (refines_at tracker_wf pool_of).

Lemma pool_of_eq t t' m :
  tracker_abs t' = m -> next_handle_ t' = next_handle_ t ->
  same_geometry (allocator_ t) (allocator_ t') -> pool_of t' = set_objs m (pool_of t).
Proof. intros <- Hn [Hp Ht]. unfold pool_of, set_objs. cbn. by rewrite Hn, Hp, Ht. Qed.

Lemma pool_allocate_refines t size :
  tracker_wf t -> is_u64 size -> next_handle_ t + 1 < U64 ->
  pool_refines (tracker_allocate size) (Pool_allocate size) t.
Proof.
  unfold is_u64. intros Hwf Hs Hn. unfold Pool_allocate. case_decide as Hz.
  { subst. unfold refines_at, tracker_allocate. cbn. by eexists _, _. }
  unfold refines_at, bind at 1, get.
  assert (Hfits : pool_fits (pool_of t) size <->
    size + page_size_ (allocator_ t) - 1 <= SIZE_MAX /\
    pages_for size (page_size_ (allocator_ t)) <= free_pages_count (allocator_ t))
    by (by rewrite tracker_accounting).
  case_decide as Hf.
  - apply Hfits in Hf as [H1 H2].
    destruct (tracker_allocate_spec t size) as (t' & Hr & Hwf' & Hn' & [Hp Ht] & _ & Ha); try done; [lia|].
    exists (Ret (next_handle_ t)), t'. split_and!; try done. cbn. unfold pool_of.
    by rewrite Ha, Hn', Hp, Ht.
  - exists (Throw bad_alloc), t. split_and!; try done.
    apply tracker_allocate_fail; [done|lia|].
    destruct (decide (size + page_size_ (allocator_ t) - 1 <= SIZE_MAX)); [|lia].
    right. apply Z.nle_gt. intros Hle. by apply Hf, Hfits.
Qed.

Lemma pool_write_refines t h off data owner :
  tracker_wf t -> is_u64 off ->
  pool_refines (tracker_write h off data owner) (on_objs (Spec_write h off data owner)) t.
Proof.
  intros Hwf [Ho _].
  destruct (tracker_write_refines t h off data owner Hwf Ho) as (o & t' & Hr & Hwf' & Hn & _ & Hg & Hs).
  exists o, t'. split_and!; try done; [by eapply Spec_write_defined|].
  unfold on_objs, zoom. cbn. rewrite Hs. f_equal. by rewrite <- (pool_of_eq t t').
Qed.

Lemma pool_read_refines t h off n owner :
  tracker_wf t -> is_u64 off -> is_u64 n ->
  pool_refines (tracker_read h off n owner) (on_objs (Spec_read h off n owner)) t.
Proof.
  intros Hwf [Ho _] [Hn _]. destruct (tracker_read_refines t h off n owner Hwf Ho Hn) as (o & Hr & Hs).
  exists o, t. split_and!; try done; [by eapply Spec_read_defined|].
  unfold on_objs, zoom. cbn. by rewrite Hs.
Qed.

Lemma pool_free_refines t h owner :
  tracker_wf t -> pool_refines (tracker_free h owner) (on_objs (Spec_free h owner)) t.
Proof.
  intros Hwf. destruct (tracker_free_refines t h owner Hwf) as (o & t' & Hr & Hwf' & Hn & Hg & Hs).
  exists o, t'. split_and!; try done; [by eapply Spec_free_defined|].
  unfold on_objs, zoom. cbn. rewrite Hs. f_equal. by rewrite <- (pool_of_eq t t').
Qed.

Lemma pool_assign_refines t h owner :
  tracker_wf t ->
  tracker_wf (assign_owner h owner t) /\ pool_of (assign_owner h owner t) = Pool_assign_owner h owner (pool_of t).
Proof.
  intros Hwf. destruct (assign_owner_spec t h owner Hwf) as [Hwf' Ha]. split; [done|].
  unfold Pool_assign_owner. apply pool_of_eq; [done|..]; unfold assign_owner; by destruct (_ !! _).
Qed.

Lemma pool_drop_refines `{!MapIter Z Allocation} t owner :
  tracker_wf t -> owner <> 0 ->
  tracker_wf (free_all_for_owner owner t) /\
  pool_of (free_all_for_owner owner t) = Pool_drop_owner owner (pool_of t).
Proof.
  intros Hwf Ho. destruct (free_all_for_owner_spec t owner Hwf Ho) as (Hwf' & Hg & Hn & Ha).
  split; [done|]. by apply pool_of_eq.
Qed.

(** A call on the pool. *)
Definition Pool_exec (op : tracker_op) : M Pool tracker_value :=
  match op with
  | OpAllocate size => let! h := Pool_allocate size in ret (VHandle h)
  | OpFree h owner => do! on_objs (Spec_free h owner) in ret VUnit
  | OpWrite h off data owner => do! on_objs (Spec_write h off data owner) in ret VUnit
  | OpRead h off n owner => let! d := on_objs (Spec_read h off n owner) in ret (VBytes d)
  | OpAssign h owner => fun p => (Ret VUnit, Pool_assign_owner h owner p)
  | OpFreeAll owner => fun p => (Ret VUnit, if decide (owner = 0) then p else Pool_drop_owner owner p)
  end.

Lemma refines_value {A B} (c : M PageTracker A) (s : M Pool A) (f : A -> B) t :
  pool_refines c s t -> pool_refines (let! a := c in ret (f a)) (let! a := s in ret (f a)) t.
Proof.
  intros H. eapply refines_bind; [exact H|]. intros a t' _ Hwf. by apply refines_ret.
Qed.

Lemma tracker_exec_refines `{!MapIter Z Allocation} t op :
  tracker_wf t -> op_in_range t op -> pool_refines (tracker_exec op) (Pool_exec op) t.
Proof.
  intros Hwf Hop. destruct op as [size|h owner|h off data owner|h off n owner|h owner|owner]; cbn in Hop; cbn [tracker_exec Pool_exec].
  - destruct Hop. by apply refines_value, pool_allocate_refines.
  - by apply (refines_value _ _ (fun _ => VUnit)), pool_free_refines.
  - by apply (refines_value _ _ (fun _ => VUnit)), pool_write_refines.
  - destruct Hop. by apply refines_value, pool_read_refines.
  - destruct (pool_assign_refines t h owner Hwf) as [Hwf' Hp]. eexists _, _. split_and!; try done. by rewrite Hp.
  - eexists _, _. split; [done|]. case_decide as E; [by subst|].
    destruct (pool_drop_refines t owner Hwf E) as [Hwf' Hp]. split_and!; try done. by rewrite Hp.
Qed.

(** A run of code that refines pool code keeps the geometry when that does. *)
Definition keeps_geometry (p p' : Pool) : Prop :=
  pool_pages p' = pool_pages p /\ pool_page_size p' = pool_page_size p.

Lemma on_objs_geometry {A} (c : M (gmap Z Obj) A) p o p' : on_objs c p = (o, p') -> keeps_geometry p p'.
Proof. unfold on_objs, zoom. destruct (c (pool_objs p)). by intros [= _ <-]. Qed.

Lemma Pool_allocate_geometry size p o p' : Pool_allocate size p = (o, p') -> keeps_geometry p p'.
Proof.
  unfold Pool_allocate. case_decide; munfold; [by intros [= _ <-]|].
  case_decide; by intros [= _ <-].
Qed.

Lemma bind_state {S A B} (c : M S A) (f : A -> B) s o s' :
  (let! a := c in ret (f a)) s = (o, s') -> exists o1, c s = (o1, s').
Proof. munfold. destruct (c s) as [[]]; intros [= _ <-]; by eexists. Qed.

Lemma Pool_exec_geometry op p o p' : Pool_exec op p = (o, p') -> keeps_geometry p p'.
Proof.
  destruct op as [size|h owner|h off data owner|h off n owner|h owner|owner]; cbn [Pool_exec]; intros Hx.
  1: apply bind_state in Hx as [o1 Hx]; by eapply Pool_allocate_geometry.
  1,2,3: apply bind_state in Hx as [o1 Hx]; by eapply on_objs_geometry.
  - by injection Hx as _ <-.
  - injection Hx as _ <-. by case_decide.
Qed.

Lemma tracker_exec_geometry `{!MapIter Z Allocation} t op o t' :
  tracker_wf t -> op_in_range t op -> tracker_exec op t = (o, t') ->
  same_geometry (allocator_ t) (allocator_ t').
Proof.
  intros Hwf Hop Hx. cut (keeps_geometry (pool_of t) (pool_of t')); [by intros [? ?]|].
  destruct (tracker_exec_refines t op Hwf Hop) as (o1 & t1 & Hr & _ & _ & Hs). rewrite Hr in Hx. simplify_eq.
  by eapply Pool_exec_geometry.
Qed.

(** ** Properties *)

(** C10: Every call on the page tracker is one step of a plain pool of objects: the
    objects are byte strings with an owner under their handles, and beside them the
    pool knows only the next handle and how many pages it has.  An allocation is
    granted exactly when the pages of the objects there are leave enough over, and
    then makes a string of zeros under the next handle, owned by nobody; writes
    splice, reads slice, frees delete, the sweep of a session filters.  A refused
    call fails with the pool's error and changes nothing.  No call has undefined
    behaviour, the page loops end, and the tracker stays well-formed.  Arguments are
    64-bit values, and the handle counter has not run out. *)
Theorem tracker_refines_pool `{!MapIter Z Allocation} t op o t' :
  tracker_wf t -> op_in_range t op -> tracker_exec op t = (o, t') ->
  tracker_wf t' /\ no_undefined o /\ Pool_exec op (pool_of t) = (o, pool_of t').
Proof.
  intros Hwf Hop Hr. destruct (tracker_exec_refines t op Hwf Hop) as (o1 & t1 & Hr1 & H).
  rewrite Hr1 in Hr. by simplify_eq.
Qed.

(** memoryd's capacity is accounted exactly: after any calls on a tracker
    built over a fresh allocator, the free pages are the pool less the pages
    the live allocations' sizes round up to, so nothing leaks and nothing is
    counted twice. *)
Theorem tracker_capacity `{!MapIter Z Allocation} s t :
  slab_wf s -> slab_abs s = ∅ -> tracker_reachable s t ->
  free_pages_count (allocator_ t) =
    total_pages_ s - used_pages (page_size_ s) (tracker_abs t).
Proof.
  intros Hs He Hr.
  assert (tracker_wf t /\ same_geometry s (allocator_ t)) as [Hwf [Hp Ht]].
  { induction Hr as [t Hn|t op o t' _ IH Hop Hx].
    - split; [by eapply PageTracker_new_wf|]. unfold PageTracker_new in Hn. by simplify_eq.
    - destruct IH as [Hwf [Hp Ht]]. destruct (tracker_exec_wf t op Hwf Hop) as (o1 & t1 & Hx1 & Hwf1 & _).
      rewrite Hx1 in Hx. simplify_eq. split; [done|].
      assert (same_geometry (allocator_ t) (allocator_ t')) as [Hp' Ht']; [|split; congruence].
      by eapply tracker_exec_geometry. }
  rewrite tracker_accounting by done. unfold pool_free_pages. cbn. by rewrite Hp, Ht.
Qed.

Lemma tracker_refines_pool_witness :
  let t' := snd (@tracker_exec (map_iter_std Z Allocation) (OpAllocate 6) demo_tracker) in
  tracker_wf t' /\ no_undefined (Ret (VHandle 1)) /\
  Pool_exec (OpAllocate 6) (pool_of demo_tracker) = (Ret (VHandle 1), pool_of t').
Proof.
  by apply (@tracker_refines_pool (map_iter_std Z Allocation) demo_tracker (OpAllocate 6));
    [apply demo_tracker_wf|..].
Defined.

Lemma tracker_capacity_witness :
  free_pages_count (allocator_ demo_tracker1) = 3 - used_pages 4 (tracker_abs demo_tracker1).
Proof.
  apply (@tracker_capacity (map_iter_std Z Allocation) demo_slab demo_tracker1);
    [apply demo_slab_wf|apply demo_slab_empty|].
  apply (tracker_reachable_step _ demo_tracker (OpAllocate 6) (Ret (VHandle 1))); try done.
  by apply tracker_reachable_new.
Defined.
