(* ===== verification/MemoryProtocol.v ===== *)
(** * memoryd's request protocol

    [memoryd/src/memory_protocol.cpp]: one verified FlatBuffers request in, one
    response out, every exception of the page tracker turned into a status.
    The FlatBuffers runtime and the code generated from [schema/memory.fbs] are
    not part of the repository; [MemoryWire] states what the code relies on.

    [reply_spec] says what memoryd answers and what becomes of its pool, as a
    function of the pool alone; [handle_refines_reply] shows that the handler
    computes it through pages, exceptions and ownership checks. *)

From S2P Require Import Prelude Framing Slab PageTracker Crc32c Pool.

(** ** Messages ([schema/memory.fbs]) *)

Inductive OpCode :=
| OpCode_ALLOC | OpCode_WRITE | OpCode_READ | OpCode_FREE | OpCode_PING
| OpCode_unknown (code : Z).

Inductive StatusCode :=
| StatusCode_OK | StatusCode_ERROR_GENERIC | StatusCode_BUSY | StatusCode_CHECKSUM_MISMATCH
| StatusCode_INVALID_HANDLE | StatusCode_OUT_OF_MEMORY | StatusCode_VERSION_MISMATCH
| StatusCode_PERMISSION_DENIED.

#[export] Instance OpCode_eq_dec : EqDecision OpCode.
Proof. solve_decision. Defined.
#[export] Instance StatusCode_eq_dec : EqDecision StatusCode.
Proof. solve_decision. Defined.

Record MemoryRequest := mkRequest {
  req_protocol_version : Z;
  req_request_id : Z;
  req_op : OpCode;
  req_handle : Z;
  req_size : Z;
  req_offset : Z;
  req_data : option (list byte);
  req_checksum : Z
}.

Record MemoryResponse := mkResponse {
  resp_request_id : Z;
  resp_status : StatusCode;
  resp_handle : Z;
  resp_data : option (list byte);
  resp_checksum : Z;
  resp_message : string
}.

(** The fields hold values of their schema types. *)
Definition request_ok (r : MemoryRequest) : Prop :=
  0 <= req_protocol_version r < 2 ^ 16 /\ is_u64 (req_request_id r) /\ is_u64 (req_handle r) /\
  is_u64 (req_size r) /\ is_u64 (req_offset r) /\ 0 <= req_checksum r < U32 /\
  match req_op r with OpCode_unknown c => 5 <= c < 256 | _ => True end.

Definition response_ok (r : MemoryResponse) : Prop :=
  is_u64 (resp_request_id r) /\ is_u64 (resp_handle r) /\ 0 <= resp_checksum r < U32.

#[export] Instance is_u64_dec z : Decision (is_u64 z).
Proof. unfold is_u64. apply _. Defined.
#[export] Instance request_ok_dec r : Decision (request_ok r).
Proof. unfold request_ok. destruct (req_op r); apply _. Defined.
#[export] Instance response_ok_dec r : Decision (response_ok r).
Proof. unfold response_ok. apply _. Defined.

(** The generated accessors and the FlatBuffers runtime: a verifier accepts
    what a builder made and yields the table's fields, whatever it accepts has
    fields of the schema's types, and a finished buffer is never empty. *)
Class MemoryWire := {
  request_table : MemoryRequest -> list byte;
  response_table : MemoryResponse -> list byte;
  verify_request : list byte -> option MemoryRequest;
  verify_response : list byte -> option MemoryResponse;
  wire_request_ok : forall b r, verify_request b = Some r -> request_ok r;
  wire_request_roundtrip : forall r, request_ok r -> zlen (request_table r) < U32 ->
    verify_request (size_prefixed (request_table r)) = Some r;
  wire_response_roundtrip : forall r, response_ok r -> zlen (response_table r) < U32 ->
    verify_response (size_prefixed (response_table r)) = Some r
}.

(** ** The code *)

Definition MEMINFO_PROTOCOL_VERSION : Z := 1.
Definition check_protocol_version (received : Z) : bool := received =? MEMINFO_PROTOCOL_VERSION.

(** The table [build_response] fills; a field that is not added reads as its
    default. *)
Definition response_fields (req : MemoryRequest) (status : StatusCode) (message : string)
    (handle : Z) (data : list byte) (checksum : Z) : MemoryResponse :=
  mkResponse (req_request_id req) status
    (if handle =? 0 then 0 else handle)
    (if 0 <? zlen data then Some data else None)
    (if 0 <? zlen data then checksum else 0)
    message.

(** The [catch] clauses of [process_request], in their order. *)
Definition exception_status (e : exn) : StatusCode * string :=
  match e with
  | permission_denied_error => (StatusCode_PERMISSION_DENIED, what e)
  | invalid_argument _ => (StatusCode_INVALID_HANDLE, what e)
  | bad_alloc => (StatusCode_OUT_OF_MEMORY, "Not enough contiguous free pages"%string)
  | _ => (StatusCode_ERROR_GENERIC, what e)
  end.

(** [process_request] after the verifier: the fields of the response. *)
Definition handle_verified (session_id : Z) (req : MemoryRequest) : M PageTracker MemoryResponse :=
  let reply st msg := response_fields req st msg 0 [] 0 in
  if negb (check_protocol_version (req_protocol_version req)) then
    ret (reply StatusCode_VERSION_MISMATCH "Protocol version mismatch"%string)
  else
    catch
      (match req_op req with
       | OpCode_ALLOC =>
           let! h := tracker_allocate (req_size req) in
           do! (fun t => (Ret tt, assign_owner h session_id t)) in
           ret (response_fields req StatusCode_OK "OK"%string h [] 0)
       | OpCode_FREE =>
           do! tracker_free (req_handle req) session_id in
           ret (reply StatusCode_OK "OK"%string)
       | OpCode_WRITE =>
           match req_data req with
           | None => ret (reply StatusCode_ERROR_GENERIC "Missing data payload"%string)
           | Some payload =>
               let computed_crc := crc32c payload 0 in
               if negb (computed_crc =? req_checksum req) then
                 ret (reply StatusCode_CHECKSUM_MISMATCH "CRC32C mismatch"%string)
               else
                 do! tracker_write (req_handle req) (req_offset req) payload session_id in
                 ret (reply StatusCode_OK "OK"%string)
           end
       | OpCode_READ =>
           if MAX_MESSAGE_SIZE <? req_size req then
             ret (reply StatusCode_ERROR_GENERIC
                    "Requested read size exceeds maximum message size"%string)
           else
             let! read_data := tracker_read (req_handle req) (req_offset req) (req_size req) session_id in
             ret (response_fields req StatusCode_OK "OK"%string 0 read_data (crc32c read_data 0))
       | OpCode_PING => ret (reply StatusCode_OK "PONG"%string)
       | OpCode_unknown _ => ret (reply StatusCode_ERROR_GENERIC "Unsupported operation"%string)
       end)
      (fun e => let '(st, msg) := exception_status e in ret (reply st msg)).

Definition process_request {W : MemoryWire} (session_id : Z) (data : list byte) :
    M PageTracker (list byte) :=
  match verify_request data with
  | None => ret []
  | Some req =>
      let! resp := handle_verified session_id req in
      ret (size_prefixed (response_table resp))
  end.

(** ** What memoryd answers *)

(** Whether a session may use a handle. *)
Inductive access :=
| Granted (o : Obj)
| Refused (st : StatusCode) (msg : string).

Definition access_of (p : Pool) (h session : Z) : access :=
  match pool_objs p !! h with
  | None => Refused StatusCode_INVALID_HANDLE "Invalid handle"
  | Some o =>
      if decide (obj_owner o = 0 \/ obj_owner o = session) then Granted o
      else Refused StatusCode_PERMISSION_DENIED (what permission_denied_error)
  end.

Definition plain_reply (req : MemoryRequest) (st : StatusCode) (msg : string) : MemoryResponse :=
  mkResponse (req_request_id req) st 0 None 0 msg.

Definition reply_spec (session : Z) (req : MemoryRequest) (p : Pool) : MemoryResponse * Pool :=
  let fail st msg := (plain_reply req st msg, p) in
  if decide (req_protocol_version req <> 1) then fail StatusCode_VERSION_MISMATCH "Protocol version mismatch"%string
  else
    match req_op req with
    | OpCode_PING => fail StatusCode_OK "PONG"%string
    | OpCode_unknown _ => fail StatusCode_ERROR_GENERIC "Unsupported operation"%string
    | OpCode_ALLOC =>
        if decide (req_size req = 0) then fail StatusCode_OK "OK"%string
        else if decide (pool_fits p (req_size req)) then
          (mkResponse (req_request_id req) StatusCode_OK (pool_next p) None 0 "OK",
           mkPool (<[pool_next p := mkObj session (replicate (Z.to_nat (req_size req)) x00)]> (pool_objs p))
             (pool_next p + 1) (pool_pages p) (pool_page_size p))
        else fail StatusCode_OUT_OF_MEMORY "Not enough contiguous free pages"%string
    | OpCode_FREE =>
        match access_of p (req_handle req) session with
        | Refused st msg => fail st msg
        | Granted o => (plain_reply req StatusCode_OK "OK", set_objs (delete (req_handle req) (pool_objs p)) p)
        end
    | OpCode_WRITE =>
        match req_data req with
        | None => fail StatusCode_ERROR_GENERIC "Missing data payload"%string
        | Some payload =>
            if decide (crc_ref payload 0 <> req_checksum req) then
              fail StatusCode_CHECKSUM_MISMATCH "CRC32C mismatch"%string
            else if decide (payload = []) then fail StatusCode_OK "OK"%string
            else
              match access_of p (req_handle req) session with
              | Refused st msg => fail st msg
              | Granted o =>
                  if decide (req_offset req + zlen payload <= zlen (obj_bytes o)) then
                    (plain_reply req StatusCode_OK "OK",
                     set_objs (<[req_handle req := mkObj (obj_owner o) (splice (req_offset req) payload (obj_bytes o))]>
                                 (pool_objs p)) p)
                  else fail StatusCode_ERROR_GENERIC "Write exceeds allocation size"%string
              end
        end
    | OpCode_READ =>
        if decide (MAX_MESSAGE_SIZE < req_size req) then
          fail StatusCode_ERROR_GENERIC "Requested read size exceeds maximum message size"%string
        else if decide (req_size req = 0) then fail StatusCode_OK "OK"%string
        else
          match access_of p (req_handle req) session with
          | Refused st msg => fail st msg
          | Granted o =>
              if decide (req_offset req + req_size req <= zlen (obj_bytes o)) then
                let bytes := slice (req_offset req) (req_size req) (obj_bytes o) in
                (mkResponse (req_request_id req) StatusCode_OK 0 (Some bytes) (crc_ref bytes 0) "OK", p)
              else fail StatusCode_ERROR_GENERIC "Read exceeds allocation size"%string
          end
    end.

(** ** The handler computes the specification *)

Definition reply_code (session : Z) (req : MemoryRequest) : M Pool MemoryResponse :=
  fun p => let '(r, p') := reply_spec session req p in (Ret r, p').

(** What the handler does with the outcome of one tracker call. *)
Definition outcome_reply {A} (req : MemoryRequest) (k : A -> MemoryResponse) (o : outcome A) : outcome MemoryResponse :=
  match o with
  | Ret a => Ret (k a)
  | Throw e => Ret (plain_reply req (exception_status e).1 (exception_status e).2)
  | Undef => Undef
  | NoFuel => NoFuel
  end.

Lemma response_fields_plain req st msg : response_fields req st msg 0 [] 0 = plain_reply req st msg.
Proof. done. Qed.

(** A handler arm that makes one tracker call and answers from its result. *)
Lemma handler_arm {A} (c : M PageTracker A) (k : A -> MemoryResponse) req t :
  catch (let! a := c in ret (k a))
    (fun e => let '(st, msg) := exception_status e in ret (response_fields req st msg 0 [] 0)) t =
  (outcome_reply req k (fst (c t)), snd (c t)).
Proof.
  munfold. destruct (c t) as [[a|e| |] t']; cbn; try done. by destruct (exception_status e).
Qed.

Lemma arm_refines {A} (c : M PageTracker A) (d : M Pool A) (k : A -> MemoryResponse) req t r :
  pool_refines c d t ->
  (let '(o, p) := d (pool_of t) in (outcome_reply req k o, p)) = (Ret (fst r), snd r) ->
  exists t', catch (let! a := c in ret (k a))
    (fun e => let '(st, msg) := exception_status e in ret (response_fields req st msg 0 [] 0)) t =
    (Ret (fst r), t') /\ tracker_wf t' /\ snd r = pool_of t'.
Proof.
  intros (o & t' & Hc & Hwf & Hd & Hs) Hr. rewrite Hs in Hr. exists t'. rewrite handler_arm, Hc. cbn.
  injection Hr as Ho Hp. by rewrite Ho.
Qed.

Lemma free_arm p h s req :
  (let '(o, p') := on_objs (Spec_free h s) p in
   (outcome_reply req (fun _ => plain_reply req StatusCode_OK "OK") o, p')) =
  match access_of p h s with
  | Refused st msg => (Ret (plain_reply req st msg), p)
  | Granted o => (Ret (plain_reply req StatusCode_OK "OK"), set_objs (delete h (pool_objs p)) p)
  end.
Proof.
  destruct p as [m n pp ps]. unfold on_objs, access_of, Spec_free, Spec_check. munfold. cbn.
  destruct (m !! h) as [o|] eqn:E; [case_decide|]; done.
Qed.

Lemma write_arm p h off payload s req :
  payload <> [] ->
  (let '(o, p') := on_objs (Spec_write h off payload s) p in
   (outcome_reply req (fun _ => plain_reply req StatusCode_OK "OK") o, p')) =
  match access_of p h s with
  | Refused st msg => (Ret (plain_reply req st msg), p)
  | Granted o =>
      if decide (off + zlen payload <= zlen (obj_bytes o)) then
        (Ret (plain_reply req StatusCode_OK "OK"),
         set_objs (<[h := mkObj (obj_owner o) (splice off payload (obj_bytes o))]> (pool_objs p)) p)
      else (Ret (plain_reply req StatusCode_ERROR_GENERIC "Write exceeds allocation size"), p)
  end.
Proof.
  intros Hne. destruct p as [m n pp ps]. unfold on_objs, access_of, Spec_write, Spec_check.
  rewrite decide_False by done. munfold. cbn.
  destruct (m !! h) as [o|] eqn:E; [case_decide|]; [|done..]. rewrite E. by case_decide.
Qed.

Lemma read_arm p h off n s req k :
  n <> 0 ->
  (let '(o, p') := on_objs (Spec_read h off n s) p in (outcome_reply req k o, p')) =
  match access_of p h s with
  | Refused st msg => (Ret (plain_reply req st msg), p)
  | Granted o =>
      if decide (off + n <= zlen (obj_bytes o)) then (Ret (k (slice off n (obj_bytes o))), p)
      else (Ret (plain_reply req StatusCode_ERROR_GENERIC "Read exceeds allocation size"), p)
  end.
Proof.
  intros Hne. destruct p as [m nn pp ps]. unfold on_objs, access_of, Spec_read, Spec_check.
  rewrite decide_False by done. munfold. cbn.
  destruct (m !! h) as [o|] eqn:E; [case_decide|]; [|done..]. rewrite E. by case_decide.
Qed.

Lemma alloc_arm session req t :
  tracker_wf t -> is_u64 (req_size req) -> next_handle_ t + 1 < U64 ->
  req_op req = OpCode_ALLOC -> req_protocol_version req = 1 ->
  exists t', handle_verified session req t = (Ret (fst (reply_spec session req (pool_of t))), t') /\
    tracker_wf t' /\ snd (reply_spec session req (pool_of t)) = pool_of t'.
Proof.
  intros Hwf Hsz Hn Hop Hv. unfold handle_verified, reply_spec. rewrite Hv, Hop. change (check_protocol_version 1) with true; cbn [negb].
  rewrite (decide_False (P := 1 <> 1)) by tauto.
  destruct (pool_allocate_refines t (req_size req)) as (o & t' & Hr & Hwf' & Hd & Hs); try done.
  unfold Pool_allocate in Hs. unfold catch, bind at 1. rewrite Hr.
  assert (H0 : allocations_ t' !! 0 = None).
  { destruct (allocations_ t' !! 0) eqn:E; [|done]. apply (tw_handle _ Hwf') in E. lia. }
  case_decide as Hz.
  { munfold_in Hs. apply pair_eq in Hs as [<- Ht]. exists t'. munfold. unfold assign_owner. by rewrite H0. }
  unfold bind at 1, get at 1 in Hs. case_decide as Hf.
  - munfold_in Hs. apply pair_eq in Hs as [<- Ht]. munfold.
    destruct (pool_assign_refines t' (next_handle_ t) session Hwf') as [Hwf2 Hp].
    eexists. split; [|split; [exact Hwf2|]].
    + unfold response_fields. cbn. do 3 f_equal. pose proof (tw_next _ Hwf). by zcase.
    + rewrite Hp, <- Ht. unfold Pool_assign_owner, set_objs. cbn. f_equal. symmetry.
      apply map_eq. intros h. rewrite lookup_alter, !lookup_insert. cbn. by repeat case_decide.
  - munfold_in Hs. apply pair_eq in Hs as [<- Ht]. exists t'. by munfold.
Qed.

(** A request that is within the width of its fields, and a handle counter that
    has not run out, get exactly the specified reply. *)
Lemma handle_refines_reply session req t :
  tracker_wf t -> request_ok req -> next_handle_ t + 1 < U64 ->
  exists t', handle_verified session req t = (Ret (fst (reply_spec session req (pool_of t))), t') /\
    tracker_wf t' /\ snd (reply_spec session req (pool_of t)) = pool_of t'.
Proof.
  intros Hwf (_ & _ & _ & Hsz & Hoff & _ & _) Hn.
  destruct (Z.eq_dec (req_protocol_version req) 1) as [Hv|Hv].
  2: { exists t. unfold handle_verified, reply_spec, check_protocol_version, MEMINFO_PROTOCOL_VERSION.
       rewrite decide_True by done. by destruct (Z.eqb_spec (req_protocol_version req) 1). }
  destruct (req_op req) eqn:Hop; [by apply alloc_arm|..]; unfold handle_verified, reply_spec;
    rewrite Hv, Hop; change (check_protocol_version 1) with true; cbn [negb];
    rewrite (decide_False (P := 1 <> 1)) by tauto.
  - destruct (req_data req) as [payload|]; [|by exists t].
    rewrite crc32c_ref. destruct (Z.eqb_spec (crc_ref payload 0) (req_checksum req)) as [Hc|Hc]; cbn [negb];
      [rewrite decide_False by tauto|rewrite decide_True by done; by exists t].
    case_decide as Hp; [subst; by exists t|].
    eapply arm_refines; [by apply pool_write_refines|]. rewrite write_arm by done.
    destruct (access_of _ _ _); [case_decide|]; done.
  - destruct (Z.ltb_spec MAX_MESSAGE_SIZE (req_size req)); [rewrite decide_True by done; by exists t|].
    rewrite decide_False by lia. case_decide as Hz; [rewrite Hz; by exists t|].
    eapply arm_refines; [by apply pool_read_refines|]. rewrite read_arm by done.
    destruct (access_of _ _ _) as [o|]; [case_decide as Hin|]; try done. cbn.
    unfold response_fields. rewrite crc32c_ref, zlen_slice; [|unfold is_u64 in *; lia..].
    by destruct (Z.ltb_spec 0 (req_size req)); [|unfold is_u64 in *; lia].
  - eapply arm_refines; [by apply pool_free_refines|]. rewrite free_arm.
    by destruct (access_of _ _ _).
  - by exists t.
  - by exists t.
Qed.

Lemma process_request_spec `{!MemoryWire} session bytes t :
  tracker_wf t -> next_handle_ t + 1 < U64 ->
  exists t', tracker_wf t' /\
    match verify_request bytes with
    | None => process_request session bytes t = (Ret [], t') /\ t' = t
    | Some req =>
        process_request session bytes t =
          (Ret (size_prefixed (response_table (fst (reply_spec session req (pool_of t))))), t') /\
        pool_of t' = snd (reply_spec session req (pool_of t))
    end.
Proof.
  intros Hwf Hn. unfold process_request. destruct (verify_request bytes) as [req|] eqn:Hv; [|by exists t].
  destruct (handle_refines_reply session req t Hwf) as (t' & Hr & Hwf' & Hp);
    [by eapply wire_request_ok|done|]. exists t'. split; [done|].
  by rewrite (bind_ret _ _ _ _ _ Hr), Hp.
Qed.

(** ** What one session can learn *)

(** Two pools a session cannot tell apart: the same handles, owners, sizes and
    geometry, and the same bytes in every object the session may use. *)
Definition obj_sim (session : Z) (o o' : Obj) : Prop :=
  obj_owner o = obj_owner o' /\ zlen (obj_bytes o) = zlen (obj_bytes o') /\
  (obj_owner o = 0 \/ obj_owner o = session -> obj_bytes o = obj_bytes o').

Definition pool_sim (session : Z) (p p' : Pool) : Prop :=
  pool_next p = pool_next p' /\ pool_pages p = pool_pages p' /\ pool_page_size p = pool_page_size p' /\
  forall h, option_Forall2 (obj_sim session) (pool_objs p !! h) (pool_objs p' !! h).

#[export] Instance obj_sim_equiv session : Equivalence (obj_sim session).
Proof.
  split; unfold obj_sim.
  - done.
  - intros x y (Ho & Hl & H). split_and!; [done..|]. rewrite <- Ho. intros. symmetry. auto.
  - intros x y z (Ho & Hl & H) (Ho' & Hl' & H'). split_and!; [congruence..|].
    intros Hx. rewrite H by done. apply H'. by rewrite <- Ho.
Qed.

#[export] Instance pool_sim_equiv session : Equivalence (pool_sim session).
Proof.
  split.
  - intros p. by split_and!.
  - intros p q (? & ? & ? & H). split_and!; done.
  - intros p q r (? & ? & ? & H) (? & ? & ? & H'). split_and!; [congruence..|].
    intros h. by transitivity (pool_objs q !! h).
Qed.

Lemma used_pages_insert ps h o m :
  m !! h = None ->
  used_pages ps (<[h := o]> m) = used_pages ps m + pages_for (zlen (obj_bytes o)) ps.
Proof. intros Hh. unfold used_pages. by rewrite map_fold_insert_L by (done || intros; lia). Qed.

Lemma used_pages_sim session ps m m' :
  (forall h, option_Forall2 (obj_sim session) (m !! h) (m' !! h)) -> used_pages ps m = used_pages ps m'.
Proof.
  revert m'. induction m as [|h o m Hh IH] using map_ind; intros m' Hm.
  - cut (m' = ∅); [by intros ->|]. apply map_eq. intros h. specialize (Hm h).
    rewrite lookup_empty in Hm. rewrite lookup_empty. by inv Hm.
  - pose proof (Hm h) as Ho. rewrite lookup_insert_eq in Ho.
    inversion Ho as [? o' (_ & Hlen & _) Heq Ho'|]; subst. symmetry in Ho'.
    rewrite <- (insert_delete_id m' h o') by done.
    rewrite !used_pages_insert by (done || apply lookup_delete_eq). rewrite Hlen. f_equal. apply IH.
    intros h'. specialize (Hm h'). destruct (decide (h = h')) as [<-|Hne].
    + rewrite Hh, lookup_delete_eq. constructor.
    + by rewrite lookup_insert_ne, lookup_delete_ne in * by done.
Qed.

Lemma pool_fits_sim session p p' n : pool_sim session p p' -> pool_fits p n <-> pool_fits p' n.
Proof.
  intros (Hn & Hp & Hs & Hm). unfold pool_fits, pool_free_pages.
  by rewrite (used_pages_sim session _ _ _ Hm), Hp, Hs.
Qed.

Lemma access_sim session p p' h :
  pool_sim session p p' ->
  (exists o, access_of p h session = Granted o /\ access_of p' h session = Granted o) \/
  (exists st msg, access_of p h session = Refused st msg /\ access_of p' h session = Refused st msg).
Proof.
  intros (_ & _ & _ & Hm). specialize (Hm h). unfold access_of.
  destruct Hm as [o o' (Ho & Hl & Hb)|]; [|right; by eexists _, _].
  rewrite <- Ho. case_decide as Hd; [|right; by eexists _, _]. left. exists o. split; [done|].
  destruct o as [w b], o' as [w' b']; cbn in *. by rewrite Ho, Hb.
Qed.

Lemma pool_sim_objs session p p' m m' :
  pool_sim session p p' -> (forall h, option_Forall2 (obj_sim session) (m !! h) (m' !! h)) ->
  pool_sim session (set_objs m p) (set_objs m' p').
Proof. by intros (? & ? & ? & _) Hm. Qed.

Lemma insert_sim session (m m' : gmap Z Obj) (h : Z) (o : Obj) :
  (forall h, option_Forall2 (obj_sim session) (m !! h) (m' !! h)) ->
  forall h', option_Forall2 (obj_sim session) (<[h := o]> m !! h') (<[h := o]> m' !! h').
Proof. intros Hm h'. rewrite !lookup_insert. case_decide; [by constructor|done]. Qed.

(** One request gets the same reply from pools the session cannot tell apart,
    and leaves pools it cannot tell apart. *)
Lemma reply_sim session req p p' :
  pool_sim session p p' ->
  fst (reply_spec session req p) = fst (reply_spec session req p') /\
  pool_sim session (snd (reply_spec session req p)) (snd (reply_spec session req p')).
Proof.
  intros Hs. pose proof Hs as (Hnx & Hpp & Hps & Hm). unfold reply_spec.
  case_decide; [done|]. destruct (req_op req).
  - case_decide; [done|]. pose proof (pool_fits_sim session p p' (req_size req) Hs) as Hf.
    rewrite (decide_ext _ _ _ _ Hf) by apply _. case_decide; [|done]. cbn. rewrite Hnx, Hpp, Hps.
    split; [done|]. unfold pool_sim. cbn. split_and!; try done. by apply insert_sim.
  - destruct (req_data req) as [payload|]; [|done]. repeat (case_decide; [done|]).
    destruct (access_sim session p p' (req_handle req) Hs) as [(o & -> & ->)|(st & msg & -> & ->)]; [|done].
    case_decide; [|done]. cbn. split; [done|]. apply pool_sim_objs; [done|]. by apply insert_sim.
  - repeat (case_decide; [done|]).
    destruct (access_sim session p p' (req_handle req) Hs) as [(o & -> & ->)|(st & msg & -> & ->)]; [|done].
    case_decide; done.
  - destruct (access_sim session p p' (req_handle req) Hs) as [(o & -> & ->)|(st & msg & -> & ->)]; [|done].
    cbn. split; [done|]. apply pool_sim_objs; [done|]. intros h'. rewrite !lookup_delete.
    case_decide; [constructor|done].
  - done.
  - done.
Qed.

(** ** A codec that satisfies the laws

    Any injective encoding will do to show that the laws can hold together. *)

Definition opcode_num (o : OpCode) : Z :=
  match o with
  | OpCode_ALLOC => 0 | OpCode_WRITE => 1 | OpCode_READ => 2 | OpCode_FREE => 3 | OpCode_PING => 4
  | OpCode_unknown c => c
  end.

Definition opcode_of (z : Z) : OpCode :=
  if z =? 0 then OpCode_ALLOC else if z =? 1 then OpCode_WRITE else if z =? 2 then OpCode_READ
  else if z =? 3 then OpCode_FREE else if z =? 4 then OpCode_PING else OpCode_unknown z.

Definition status_num (s : StatusCode) : Z :=
  match s with
  | StatusCode_OK => 0 | StatusCode_ERROR_GENERIC => 1 | StatusCode_BUSY => 2
  | StatusCode_CHECKSUM_MISMATCH => 3 | StatusCode_INVALID_HANDLE => 4 | StatusCode_OUT_OF_MEMORY => 5
  | StatusCode_VERSION_MISMATCH => 6 | StatusCode_PERMISSION_DENIED => 7
  end.

Definition status_of (z : Z) : StatusCode :=
  default StatusCode_OK
    (znth [StatusCode_OK; StatusCode_ERROR_GENERIC; StatusCode_BUSY; StatusCode_CHECKSUM_MISMATCH;
           StatusCode_INVALID_HANDLE; StatusCode_OUT_OF_MEMORY; StatusCode_VERSION_MISMATCH;
           StatusCode_PERMISSION_DENIED] z).

Definition code_table {A} `{Countable A} (a : A) : list byte :=
  let p := encode a in le_bytes (Pos.to_nat (Pos.size p)) (Z.pos p).

Definition decode_table {A} `{Countable A} (b : list byte) : option A :=
  match le_value (drop 4 b) with
  | Z.pos p => decode p
  | _ => None
  end.

Lemma decode_code_table {A} `{Countable A} (a : A) : decode_table (size_prefixed (code_table a)) = Some a.
Proof.
  unfold decode_table, size_prefixed, code_table.
  rewrite drop_app_length' by (by rewrite length_le_bytes). rewrite le_value_bytes by lia.
  rewrite Z.mod_small; [apply decode_encode|]. split; [lia|].
  apply Z.lt_le_trans with (2 ^ Z.pos (Pos.size (encode a))).
  - rewrite <- Pos2Z.inj_pow. apply Pos2Z.pos_lt_pos, Pos.size_gt.
  - apply Z.pow_le_mono_r; lia.
Qed.

Definition request_tuple (r : MemoryRequest) :=
  (req_protocol_version r, req_request_id r, opcode_num (req_op r), req_handle r,
   (req_size r, req_offset r, req_data r, req_checksum r)).

Definition request_of_tuple '(v, i, o, h, (n, off, d, c)) : MemoryRequest :=
  mkRequest v i (opcode_of o) h n off d c.

Definition response_tuple (r : MemoryResponse) :=
  (resp_request_id r, status_num (resp_status r), resp_handle r, resp_data r,
   (resp_checksum r, resp_message r)).

Definition response_of_tuple '(i, st, h, d, (c, m)) : MemoryResponse :=
  mkResponse i (status_of st) h d c m.

Definition guard_ok {A} (P : A -> Prop) `{forall a, Decision (P a)} (x : option A) : option A :=
  match x with
  | Some a => if decide (P a) then Some a else None
  | None => None
  end.

Lemma request_tuple_inv r : request_ok r -> request_of_tuple (request_tuple r) = r.
Proof.
  intros (_ & _ & _ & _ & _ & _ & Ho). destruct r as [v i o h n off d c]. unfold request_tuple. cbn in *.
  f_equal. destruct o as [| | | | |code]; cbn; try done. unfold opcode_of. by zcase.
Qed.

Lemma response_tuple_inv r : response_of_tuple (response_tuple r) = r.
Proof. destruct r as [i st h d c m]. unfold response_tuple. cbn. f_equal. by destruct st. Qed.

Definition table_verify_request (b : list byte) : option MemoryRequest :=
  guard_ok request_ok (request_of_tuple <$> decode_table b).

Definition table_verify_response (b : list byte) : option MemoryResponse :=
  guard_ok response_ok (response_of_tuple <$> decode_table b).

Lemma table_request_ok b r : table_verify_request b = Some r -> request_ok r.
Proof.
  unfold table_verify_request, guard_ok. destruct (request_of_tuple <$> _); [|done].
  case_decide; naive_solver.
Qed.

Lemma table_request_roundtrip r :
  request_ok r -> zlen (code_table (request_tuple r)) < U32 ->
  table_verify_request (size_prefixed (code_table (request_tuple r))) = Some r.
Proof.
  intros Hok _. unfold table_verify_request. rewrite decode_code_table.
  cbn [fmap option_fmap option_map guard_ok]. rewrite request_tuple_inv by done. by rewrite decide_True.
Qed.

Lemma table_response_roundtrip r :
  response_ok r -> zlen (code_table (response_tuple r)) < U32 ->
  table_verify_response (size_prefixed (code_table (response_tuple r))) = Some r.
Proof.
  intros Hok _. unfold table_verify_response. rewrite decode_code_table.
  cbn [fmap option_fmap option_map guard_ok]. rewrite response_tuple_inv by done. by rewrite decide_True.
Qed.

Definition table_wire : MemoryWire := {|
  request_table r := code_table (request_tuple r);
  response_table r := code_table (response_tuple r);
  verify_request := table_verify_request;
  verify_response := table_verify_response;
  wire_request_ok := table_request_ok;
  wire_request_roundtrip := table_request_roundtrip;
  wire_response_roundtrip := table_response_roundtrip
|}.

(** ** Properties *)

(** C7: Whatever bytes a session sends, memoryd's answer and its pool after
    it are those of [reply_spec]: bytes the verifier rejects change nothing and
    get the empty answer, and a request gets exactly the status, handle and
    data the pool determines, with no undefined behaviour on the way. *)
Theorem process_request_refines (W : MemoryWire) session bytes t o t' :
  tracker_wf t -> next_handle_ t + 1 < U64 ->
  process_request session bytes t = (o, t') ->
  tracker_wf t' /\
  match verify_request bytes with
  | None => o = Ret [] /\ t' = t
  | Some req =>
      o = Ret (size_prefixed (response_table (fst (reply_spec session req (pool_of t))))) /\
      pool_of t' = snd (reply_spec session req (pool_of t))
  end.
Proof.
  intros Hwf Hn Hp. destruct (process_request_spec session bytes t Hwf Hn) as (t1 & Hwf1 & H).
  destruct (verify_request bytes); destruct H as [Hp1 ?]; rewrite Hp1 in Hp; by simplify_eq.
Qed.

(** C8: No request lets a session learn another session's bytes: run against
    two trackers that differ only in the contents of allocations the session
    does not own, the same bytes get the same answer and leave trackers that
    again differ only there. *)
Theorem process_request_noninterference (W : MemoryWire) session bytes t1 t2 o1 o2 t1' t2' :
  tracker_wf t1 -> tracker_wf t2 -> next_handle_ t1 + 1 < U64 ->
  pool_sim session (pool_of t1) (pool_of t2) ->
  process_request session bytes t1 = (o1, t1') -> process_request session bytes t2 = (o2, t2') ->
  o1 = o2 /\ pool_sim session (pool_of t1') (pool_of t2').
Proof.
  intros Hwf1 Hwf2 Hn1 Hsim Hr1 Hr2. assert (Hn2 : next_handle_ t2 + 1 < U64) by (destruct Hsim; cbn in *; lia).
  destruct (process_request_spec session bytes t1 Hwf1 Hn1) as (s1 & _ & H1).
  destruct (process_request_spec session bytes t2 Hwf2 Hn2) as (s2 & _ & H2).
  destruct (verify_request bytes) as [req|]; destruct H1 as [Hp1 Hq1], H2 as [Hp2 Hq2];
    rewrite Hp1 in Hr1; rewrite Hp2 in Hr2; simplify_eq; [|done].
  destruct (reply_sim session req _ _ Hsim) as [Hf Hs]. rewrite Hf, Hq1, Hq2. done.
Qed.

(** A WRITE whose payload was damaged inside four consecutive bytes after
    its checksum was taken is answered with CHECKSUM_MISMATCH and changes
    nothing. *)
Theorem damaged_write_rejected session req pre w w' post t o t' :
  tracker_wf t -> request_ok req -> next_handle_ t + 1 < U64 ->
  req_protocol_version req = 1 -> req_op req = OpCode_WRITE ->
  length w = length w' -> (length w <= 4)%nat -> w <> w' ->
  req_checksum req = crc32c (pre ++ w ++ post) 0 -> req_data req = Some (pre ++ w' ++ post) ->
  handle_verified session req t = (o, t') ->
  o = Ret (plain_reply req StatusCode_CHECKSUM_MISMATCH "CRC32C mismatch") /\ pool_of t' = pool_of t.
Proof.
  intros Hwf Hok Hn Hv Hop Hlen H4 Hne Hcrc Hdata Hr.
  destruct (handle_refines_reply session req t Hwf Hok Hn) as (t1 & Hr1 & _ & Hp).
  rewrite Hr1 in Hr. simplify_eq. rewrite <- Hp. unfold reply_spec.
  rewrite Hv, Hop, Hdata, Hcrc, crc32c_ref. rewrite (decide_False (P := 1 <> 1)) by tauto.
  rewrite decide_True; [done|]. by apply not_eq_sym, crc_ref_detects.
Qed.

Definition write_request (h off : Z) (payload : list byte) : MemoryRequest :=
  mkRequest 1 5 OpCode_WRITE h 0 off (Some payload) (crc32c payload 0).

Definition read_request (h off n : Z) : MemoryRequest :=
  mkRequest 1 6 OpCode_READ h n off None 0.

(** After a WRITE that memoryd acknowledged, a READ of the same range by
    the same session returns the written bytes with their CRC32C. *)
Theorem write_then_read session h off payload t r t' r' t'' :
  tracker_wf t -> next_handle_ t + 1 < U64 -> is_u64 h -> is_u64 off ->
  0 < zlen payload <= MAX_MESSAGE_SIZE ->
  handle_verified session (write_request h off payload) t = (Ret r, t') ->
  resp_status r = StatusCode_OK ->
  handle_verified session (read_request h off (zlen payload)) t' = (Ret r', t'') ->
  resp_status r' = StatusCode_OK /\ resp_data r' = Some payload /\ resp_checksum r' = crc32c payload 0.
Proof.
  intros Hwf Hn Hh Hoff Hlen Hw Hst Hr.
  assert (Hne : payload <> []) by (intros ->; destruct Hlen as [Hlen _]; done).
  assert (Hokw : request_ok (write_request h off payload)).
  { destruct (crc_ref_u32 payload 0). unfold request_ok. cbn -[crc32c]. rewrite crc32c_ref. split_and!; try done; apply Hh || apply Hoff. }
  assert (Hokr : request_ok (read_request h off (zlen payload))).
  { unfold request_ok, is_u64, U64, U32, MAX_MESSAGE_SIZE in *. cbn. lia. }
  destruct (handle_refines_reply session _ _ Hwf Hokw Hn) as (t1 & Hw1 & Hwf1 & Hp1).
  rewrite Hw1 in Hw. simplify_eq. revert Hst Hp1. unfold reply_spec at 1 2. cbn -[access_of].
  rewrite (decide_False (P := 1 <> 1)) by tauto.
  rewrite crc32c_ref, (decide_False (P := crc_ref payload 0 <> _)) by tauto.
  rewrite (decide_False (P := payload = [])) by done.
  unfold access_of. destruct (pool_objs (pool_of t) !! h) as [ob|] eqn:Eo; [|done].
  destruct (decide (obj_owner ob = 0 \/ obj_owner ob = session)) as [Hown|]; [|done].
  destruct (decide (off + zlen payload <= zlen (obj_bytes ob))) as [Hfit|]; [|done].
  cbn. intros _ Hp1.
  assert (Hn1 : next_handle_ t' + 1 < U64) by (injection Hp1 as _ <- _ _; done).
  destruct (handle_refines_reply session _ _ Hwf1 Hokr Hn1) as (t2 & Hr1 & _).
  rewrite Hr1 in Hr. injection Hr as <- <-. rewrite <- Hp1. unfold reply_spec. cbn -[access_of MAX_MESSAGE_SIZE].
  rewrite (decide_False (P := 1 <> 1)) by tauto.
  rewrite (decide_False (P := MAX_MESSAGE_SIZE < _)) by lia.
  rewrite (decide_False (P := zlen payload = 0)) by lia.
  unfold access_of. cbn -[zlen splice slice crc_ref]. rewrite lookup_insert_eq.
  cbn -[zlen splice slice crc_ref]. rewrite decide_True by done. unfold is_u64 in *.
  cbn -[zlen splice slice crc_ref]. rewrite zlen_splice by lia. rewrite decide_True by done. cbn -[zlen splice slice crc_ref].
  by rewrite slice_splice_same by lia.
Qed.

(** ** Concrete runs: session 7 of [demo_tracker2] owns handle 1, six bytes. *)

Definition demo_write : list byte := size_prefixed (code_table (request_tuple (write_request 1 3 [x01; x02]))).

Lemma process_request_refines_witness :
  exists t', process_request (W := table_wire) 7 demo_write demo_tracker2 =
      (Ret (size_prefixed (code_table (response_tuple (mkResponse 5 StatusCode_OK 0 None 0 "OK")))), t') /\
    pool_objs (pool_of t') !! 1 = Some (mkObj 7 [x00; x00; x00; x01; x02; x00]).
Proof.
  destruct (process_request (W := table_wire) 7 demo_write demo_tracker2) as [o t'] eqn:E.
  destruct (process_request_refines table_wire 7 demo_write demo_tracker2 o t') as [_ H];
    [apply demo_tracker2_wf|done|exact E|].
  assert (Hv : @verify_request table_wire demo_write = Some (write_request 1 3 [x01; x02]))
    by (vm_compute; reflexivity).
  rewrite Hv in H. destruct H as [-> Hp]. exists t'. split; [|rewrite Hp]; vm_compute; reflexivity.
Defined.

(** The same pool with another session's bytes changed: handle 1 seen by session 8. *)
Definition demo_tracker3 : PageTracker := snd (tracker_write 1 3 [x01; x02] 7 demo_tracker2).

Lemma demo_tracker3_wf : tracker_wf demo_tracker3.
Proof.
  destruct (tracker_write_refines demo_tracker2 1 3 [x01; x02] 7) as (o & t' & Hr & Hwf & _);
    [apply demo_tracker2_wf|lia|]. unfold demo_tracker3. by rewrite Hr.
Qed.

Lemma demo_pool_sim : pool_sim 8 (pool_of demo_tracker2) (pool_of demo_tracker3).
Proof.
  assert (H2 : pool_objs (pool_of demo_tracker2) = {[1 := mkObj 7 (replicate 6 x00)]})
    by (vm_compute; reflexivity).
  assert (H3 : pool_objs (pool_of demo_tracker3) = {[1 := mkObj 7 [x00; x00; x00; x01; x02; x00]]})
    by (vm_compute; reflexivity).
  split_and!; [vm_compute; reflexivity..|]. intros h. rewrite H2, H3. clear H2 H3.
  destruct (decide (h = 1)) as [->|Hne].
  - rewrite !lookup_singleton_eq. constructor. split; [done|]. split; [done|].
    cbn. intros [?|?]; lia.
  - rewrite !lookup_singleton_ne by done. constructor.
Qed.

Definition demo_read : list byte := size_prefixed (code_table (request_tuple (read_request 1 0 6))).

Lemma process_request_noninterference_witness :
  fst (process_request (W := table_wire) 8 demo_read demo_tracker2) =
  fst (process_request (W := table_wire) 8 demo_read demo_tracker3).
Proof.
  destruct (process_request (W := table_wire) 8 demo_read demo_tracker2) as [o1 t1] eqn:E1.
  destruct (process_request (W := table_wire) 8 demo_read demo_tracker3) as [o2 t2] eqn:E2.
  apply (process_request_noninterference table_wire 8 demo_read demo_tracker2 demo_tracker3 o1 o2 t1 t2);
    [apply demo_tracker2_wf|apply demo_tracker3_wf|done|apply demo_pool_sim|done|done].
Defined.

Definition damaged_request : MemoryRequest :=
  mkRequest 1 5 OpCode_WRITE 1 0 0 (Some [x01; x07; x03]) (crc32c [x01; x02; x03] 0).

Lemma damaged_write_rejected_witness :
  fst (handle_verified 7 damaged_request demo_tracker2) =
  Ret (plain_reply damaged_request StatusCode_CHECKSUM_MISMATCH "CRC32C mismatch").
Proof.
  destruct (handle_verified 7 damaged_request demo_tracker2) as [o t'] eqn:E.
  destruct (damaged_write_rejected 7 damaged_request [x01] [x02] [x07] [x03] demo_tracker2 o t') as [Ho _];
    [apply demo_tracker2_wf|apply (bool_decide_eq_true_1 (request_ok damaged_request)); vm_compute; reflexivity|vm_compute; reflexivity|reflexivity|reflexivity|reflexivity|cbn; lia|discriminate|vm_compute; reflexivity|reflexivity|exact E|exact Ho].
Defined.

Lemma write_then_read_witness :
  exists r', fst (handle_verified 7 (read_request 1 3 2)
                    (snd (handle_verified 7 (write_request 1 3 [x01; x02]) demo_tracker2))) = Ret r' /\
    resp_data r' = Some [x01; x02].
Proof.
  destruct (handle_verified 7 (write_request 1 3 [x01; x02]) demo_tracker2) as [o t'] eqn:E.
  assert (Ho : o = Ret (mkResponse 5 StatusCode_OK 0 None 0 "OK")).
  { change o with (fst (o, t')). rewrite <- E. vm_compute. reflexivity. }
  subst o. cbn [snd].
  destruct (handle_verified 7 (read_request 1 3 2) t') as [o2 t2] eqn:E2.
  assert (Hr : exists r', o2 = Ret r').
  { eexists. change o2 with (fst (o2, t2)). rewrite <- E2.
    replace t' with (snd (handle_verified 7 (write_request 1 3 [x01; x02]) demo_tracker2)) by (by rewrite E).
    vm_compute. reflexivity. }
  destruct Hr as [r' ->]. exists r'. split; [done|].
  destruct (write_then_read 7 1 3 [x01; x02] demo_tracker2 (mkResponse 5 StatusCode_OK 0 None 0 "OK") t' r' t2)
    as (_ & Hd & _);
    [apply demo_tracker2_wf|vm_compute; reflexivity|unfold is_u64, U64; lia|unfold is_u64, U64; lia|
     unfold zlen, MAX_MESSAGE_SIZE; cbn; lia|exact E|reflexivity|exact E2|exact Hd].
Defined.
