(* ===== verification/ClientSession.v ===== *)
(** * One connection of memoryd

    [memoryd/src/client_session.cpp]: bytes arrive in chunks TCP chooses, the
    session cuts them into size-prefixed requests, answers each in order and
    closes the connection on a frame it cannot accept.

    libuv is not part of the repository.  The session uses three facts about
    it: a read callback is delivered only while the handle is open, a written
    buffer goes out in the order of the [uv_write] calls, and [uv_close] must
    not be called on a handle that is already closing (it asserts this), which
    the model makes [Undef]. *)

From S2P Require Import Prelude Framing Slab PageTracker Crc32c Pool MemoryProtocol.

Record ClientSession := mkSession {
  session_id_ : Z;
  read_buffer_ : list byte;
  closing : bool;              (* uv_is_closing(&socket_) *)
  sent : list (list byte)      (* the buffers passed to uv_write, in order *)
}.

(** What a session's callbacks act on. *)
Record SessionEnv := mkEnv {
  env_tracker : PageTracker;
  env_session : ClientSession
}.

Definition set_session (s : ClientSession) (e : SessionEnv) : SessionEnv := mkEnv (env_tracker e) s.
Definition set_tracker (t : PageTracker) (e : SessionEnv) : SessionEnv := mkEnv t (env_session e).

Definition set_buffer (b : list byte) (s : ClientSession) : ClientSession :=
  mkSession (session_id_ s) b (closing s) (sent s).
Definition set_closing (s : ClientSession) : ClientSession :=
  mkSession (session_id_ s) (read_buffer_ s) true (sent s).
Definition add_sent (b : list byte) (s : ClientSession) : ClientSession :=
  mkSession (session_id_ s) (read_buffer_ s) (closing s) (sent s ++ [b]).

(** The frames of requests the verifier accepts, and then no whole frame. *)
Abbreviation deframe := (deframe_with verify_request).

(** ** The code *)

Section session.
Context {W : MemoryWire} `{!MapIter Z Allocation}.

Definition uv_close_session : M SessionEnv unit :=
  let! e := get in
  if closing (env_session e) then undef
  else put (set_session (set_closing (env_session e)) e).

Definition send_response (data : list byte) : M SessionEnv unit :=
  let! e := get in
  if closing (env_session e) then ret tt
  else put (set_session (add_sent data (env_session e)) e).

Definition session_handle_request (data : list byte) : M SessionEnv unit :=
  let! e := get in
  let! response := zoom env_tracker set_tracker
                     (process_request (session_id_ (env_session e)) data) in
  if zlen response =? 0 then uv_close_session else send_response response.

(** Each turn that goes on removes at least the four bytes of a prefix. *)
Fixpoint process_buffer (fuel : nat) : M SessionEnv unit :=
  let! e := get in
  let buf := read_buffer_ (env_session e) in
  if 4 <=? zlen buf then
    match fuel with
    | O => nofuel
    | S fuel =>
        let size := prefixed_size buf in
        if MAX_MESSAGE_SIZE <? size then uv_close_session
        else if size <=? zlen buf - 4 then
          do! session_handle_request (slice 0 (size + 4) buf) in
          let! e := get in
          do! put (set_session
                (set_buffer (drop (Z.to_nat (size + 4)) (read_buffer_ (env_session e)))
                   (env_session e)) e) in
          process_buffer fuel
        else ret tt
    end
  else ret tt.

(** What libuv hands to the read callback. *)
Inductive read_result :=
| ReadBytes (data : list byte)   (* nread >= 0 *)
| ReadError.                     (* nread < 0: end of file or an error *)

Definition session_on_read (r : read_result) : M SessionEnv unit :=
  match r with
  | ReadBytes data =>
      if 0 <? zlen data then
        let! e := get in
        do! put (set_session (set_buffer (read_buffer_ (env_session e) ++ data) (env_session e)) e) in
        let! e := get in
        process_buffer (length (read_buffer_ (env_session e)))
      else ret tt
  | ReadError => uv_close_session
  end.

(** [delete self]: the destructor returns the session's allocations. *)
Definition on_close_handle (s : ClientSession) (t : PageTracker) : PageTracker :=
  free_all_for_owner (session_id_ s) t.

(** The constructor; [accepted] is the result of [uv_accept]. *)
Definition ClientSession_new (session_id : Z) (accepted : bool) : ClientSession :=
  let s := mkSession session_id [] false [] in
  if accepted then s else set_closing s.

(** Chunks delivered one after the other. *)
Fixpoint deliver (chunks : list (list byte)) : M SessionEnv unit :=
  match chunks with
  | [] => ret tt
  | c :: chunks => do! session_on_read (ReadBytes c) in deliver chunks
  end.

(** ** The stream a client sends *)

(** The replies to a list of requests, in order, and the pool after them. *)
Fixpoint replies (session : Z) (reqs : list MemoryRequest) (p : Pool) : list (list byte) * Pool :=
  match reqs with
  | [] => ([], p)
  | req :: reqs =>
      let '(r, p1) := reply_spec session req p in
      let '(rs, p2) := replies session reqs p1 in
      (size_prefixed (response_table r) :: rs, p2)
  end.

(** ** Serving a stream *)

Lemma reply_next session req p :
  pool_next p <= pool_next (snd (reply_spec session req p)) <= pool_next p + 1.
Proof. unfold reply_spec. repeat (case_decide || case_match); cbn; lia. Qed.

Lemma size_prefixed_nonempty b : (zlen (size_prefixed b) =? 0) = false.
Proof.
  apply Z.eqb_neq. unfold size_prefixed. rewrite zlen_app. unfold zlen at 1.
  rewrite length_le_bytes. pose proof (zlen_nonneg b). lia.
Qed.

(** One accepted frame. *)
Lemma session_request_spec frame req e :
  tracker_wf (env_tracker e) -> next_handle_ (env_tracker e) + 1 < U64 ->
  closing (env_session e) = false -> verify_request frame = Some req ->
  exists t', session_handle_request frame e =
      (Ret tt, mkEnv t' (add_sent (size_prefixed (response_table
         (fst (reply_spec (session_id_ (env_session e)) req (pool_of (env_tracker e))))))
         (env_session e))) /\
    tracker_wf t' /\
    pool_of t' = snd (reply_spec (session_id_ (env_session e)) req (pool_of (env_tracker e))).
Proof.
  intros Hwf Hn Hcl Hv. destruct e as [t s]. cbn [env_tracker env_session] in *.
  destruct (process_request_spec (session_id_ s) frame t Hwf Hn) as (t' & Hwf' & H).
  rewrite Hv in H. destruct H as [Hr Hp]. exists t'. split; [|done].
  unfold session_handle_request. rewrite bind_get. cbn [env_session].
  rewrite (bind_ret _ _ _ _ _ (zoom_ret env_tracker set_tracker _ (mkEnv t s) _ _ Hr)), size_prefixed_nonempty.
  unfold send_response. munfold. cbn. by rewrite Hcl.
Qed.

Lemma process_buffer_spec b reqs rest :
  deframe b reqs rest -> forall fuel t s,
  (length b <= fuel)%nat -> tracker_wf t -> next_handle_ t + Z.of_nat (length reqs) < U64 ->
  read_buffer_ s = b -> closing s = false ->
  exists t', process_buffer fuel (mkEnv t s) =
      (Ret tt, mkEnv t' (mkSession (session_id_ s) rest false
         (sent s ++ fst (replies (session_id_ s) reqs (pool_of t))))) /\
    tracker_wf t' /\ pool_of t' = snd (replies (session_id_ s) reqs (pool_of t)).
Proof.
  induction 1 as [b Hstop|b req reqs rest H4 Hmax Hfit Hv Hd IH]; intros fuel t s Hfuel Hwf Hn Hb Hcl.
  - exists t. split; [|done].
    assert (Hs : s = mkSession (session_id_ s) b false (sent s)) by (destruct s; cbn in *; by subst).
    destruct fuel as [|fuel]; cbn [process_buffer]; munfold; cbn [env_session]; rewrite Hb;
      cbn [replies fst]; rewrite app_nil_r, <- Hs.
    + destruct (Z.leb_spec 4 (zlen b)); [|done]. unfold zlen in *. lia.
    + destruct (Z.leb_spec 4 (zlen b)); [|done]. destruct Hstop as [|[Hm Hlt]]; [lia|]. by zcase.
  - destruct fuel as [|fuel]; [unfold zlen in *; lia|]. cbn [length] in Hn.
    destruct (session_request_spec (slice 0 (prefixed_size b + 4) b) req (mkEnv t s)) as (t1 & Hr & Hwf1 & Hp1);
      [done|cbn; lia|done..|]. cbn [env_session env_tracker] in Hr, Hp1.
    pose proof (prefixed_size_nonneg b). pose proof (reply_next (session_id_ s) req (pool_of t)) as Hnx.
    destruct (IH fuel t1 (mkSession (session_id_ s) (drop (Z.to_nat (prefixed_size b + 4)) b) false
                (sent s ++ [size_prefixed (response_table (fst (reply_spec (session_id_ s) req (pool_of t))))])))
      as (t2 & Hr2 & Hwf2 & Hp2); try done.
    { rewrite length_drop. unfold zlen in *. lia. }
    { rewrite <- Hp1 in Hnx. cbn in Hnx. lia. }
    exists t2. split; [|split; [done|]].
    + cbn [process_buffer]. rewrite bind_get. cbn [env_session]. rewrite Hb.
      destruct (Z.leb_spec 4 (zlen b)); [|lia].
      destruct (Z.ltb_spec MAX_MESSAGE_SIZE (prefixed_size b)); [lia|].
      destruct (Z.leb_spec (prefixed_size b) (zlen b - 4)); [|lia].
      rewrite (bind_ret _ _ _ _ _ Hr). rewrite bind_get, bind_put.
      unfold set_session, set_buffer, add_sent. cbn [env_session env_tracker read_buffer_ session_id_ closing sent].
      rewrite Hb, Hcl, Hr2. cbn [session_id_ sent replies]. rewrite Hp1.
      destruct (reply_spec _ _ _) as [r p1]. cbn [fst snd].
      destruct (replies (session_id_ s) reqs p1) as [rs p2]. cbn [fst]. by rewrite <- app_assoc.
    + rewrite Hp2, Hp1. cbn [replies session_id_]. destruct (reply_spec _ _ _) as [r p1]. cbn [snd].
      by destruct (replies (session_id_ s) reqs p1).
Qed.

Lemma replies_app session r1 r2 p :
  replies session (r1 ++ r2) p =
    (fst (replies session r1 p) ++ fst (replies session r2 (snd (replies session r1 p))),
     snd (replies session r2 (snd (replies session r1 p)))).
Proof.
  revert p. induction r1 as [|req r1 IH]; intros p; cbn.
  { by destruct (replies session r2 p). }
  destruct (reply_spec session req p) as [r p1]. rewrite IH.
  destruct (replies session r1 p1) as [rs p2]. cbn. by destruct (replies session r2 p2).
Qed.

Lemma replies_next session reqs p :
  pool_next (snd (replies session reqs p)) <= pool_next p + Z.of_nat (length reqs).
Proof.
  revert p. induction reqs as [|req reqs IH]; intros p; cbn; [lia|].
  pose proof (reply_next session req p) as Hn. destruct (reply_spec session req p) as [r p1]. cbn in Hn.
  specialize (IH p1). destruct (replies session reqs p1). cbn in *. lia.
Qed.

Lemma deliver_spec chunks : forall reqs rest t s,
  deframe (read_buffer_ s ++ concat chunks) reqs rest ->
  (exists r, deframe (read_buffer_ s) [] r) ->
  tracker_wf t -> next_handle_ t + Z.of_nat (length reqs) < U64 -> closing s = false ->
  exists t', deliver chunks (mkEnv t s) =
      (Ret tt, mkEnv t' (mkSession (session_id_ s) rest false
         (sent s ++ fst (replies (session_id_ s) reqs (pool_of t))))) /\
    tracker_wf t' /\ pool_of t' = snd (replies (session_id_ s) reqs (pool_of t)).
Proof.
  induction chunks as [|c chunks IH]; intros reqs rest t s Hd Hq Hwf Hn Hcl.
  - cbn in Hd. rewrite app_nil_r in Hd. destruct Hq as [r Hq].
    assert (reqs = [] /\ rest = read_buffer_ s) as [-> ->].
    { inversion Hq; subst. inversion Hd; subst; [done|]. lia. }
    exists t. cbn. rewrite app_nil_r. split; [|done]. destruct s; cbn in *. by subst.
  - cbn [concat] in Hd. rewrite app_assoc in Hd.
    destruct (deframe_prefix _ _ _ _ Hd) as (r1 & mid & r2 & H1 & H2 & ->).
    rewrite length_app in Hn. cbn [deliver session_on_read].
    assert (Hstep : exists t1, session_on_read (ReadBytes c) (mkEnv t s) =
       (Ret tt, mkEnv t1 (mkSession (session_id_ s) mid false
         (sent s ++ fst (replies (session_id_ s) r1 (pool_of t))))) /\
       tracker_wf t1 /\ pool_of t1 = snd (replies (session_id_ s) r1 (pool_of t))).
    { cbn [session_on_read]. destruct (Z.ltb_spec 0 (zlen c)) as [Hc|Hc].
      - destruct (process_buffer_spec _ _ _ H1 (length (read_buffer_ s ++ c)) t
                    (set_buffer (read_buffer_ s ++ c) s)) as (t1 & Hr & H); try done; [lia|].
        exists t1. split; [exact Hr|exact H].
      - assert (c = []) as -> by (destruct c; [done|unfold zlen in Hc; cbn in Hc; lia]).
        rewrite app_nil_r in H1. destruct Hq as [r Hq].
        assert (r1 = [] /\ mid = read_buffer_ s) as [-> ->].
        { inversion Hq; subst. inversion H1; subst; [done|]. lia. }
        exists t. cbn. rewrite app_nil_r. split; [|done]. destruct s; cbn in *. by subst. }
    destruct Hstep as (t1 & Hr & Hwf1 & Hp1). rewrite (bind_ret _ _ _ _ _ Hr).
    pose proof (replies_next (session_id_ s) r1 (pool_of t)) as Hnx. rewrite <- Hp1 in Hnx. cbn in Hnx.
    destruct (IH r2 rest t1 (mkSession (session_id_ s) mid false
                (sent s ++ fst (replies (session_id_ s) r1 (pool_of t))))) as (t2 & Hr2 & Hwf2 & Hp2); try done.
    { clear -H1. induction H1; [|done]. exists b. by constructor. }
    { lia. }
    exists t2. rewrite Hr2, replies_app. cbn. rewrite Hp1, app_assoc. split_and!; try done. by rewrite Hp2, Hp1.
Qed.
(** ** Any bytes at all *)

(** One request of a session, on the pool. *)
Definition session_step (session : Z) (p p' : Pool) : Prop :=
  exists req, request_ok req /\ p' = snd (reply_spec session req p).

(** A session only touches objects it may use, and what it adds it owns. *)
Lemma session_step_objs session p p' h o :
  session_step session p p' -> pool_objs p' !! h = Some o ->
  obj_owner o = session \/ exists o0, pool_objs p !! h = Some o0 /\ obj_owner o0 = obj_owner o.
Proof.
  intros (req & _ & ->). unfold reply_spec, access_of.
  repeat (case_decide || case_match); cbn; simplify_eq; eauto; intros Hl.
  all: rewrite ?lookup_insert, ?lookup_delete in Hl; case_decide; simplify_eq; cbn; eauto.
Qed.

Lemma session_step_keeps session p p' h o :
  session_step session p p' -> pool_objs p !! h = Some o -> h < pool_next p ->
  obj_owner o <> 0 -> obj_owner o <> session -> pool_objs p' !! h = Some o.
Proof.
  intros (req & _ & ->) Ho Hlt H0 Hs. unfold reply_spec, access_of.
  repeat (case_decide || case_match); cbn; simplify_eq; try done.
  all: try (rewrite lookup_insert_ne; [done|]; intros <-; simplify_eq; first [lia|naive_solver]).
  all: rewrite lookup_delete_ne; [done|]; intros <-; simplify_eq; naive_solver.
Qed.

Definition close_only (o : outcome unit) : Prop := o = Ret tt \/ o = Undef.

(** What holds of a session's callback whatever arrives: no request makes the
    tracker fail, and the only undefined step is closing a closing socket. *)
Record session_safe (e : SessionEnv) (o : outcome unit) (e' : SessionEnv) : Prop := {
  ss_outcome : close_only o;
  ss_tracker : tracker_wf (env_tracker e');
  ss_pool : rtc (session_step (session_id_ (env_session e))) (pool_of (env_tracker e)) (pool_of (env_tracker e'));
  ss_id : session_id_ (env_session e') = session_id_ (env_session e);
  ss_closing : closing (env_session e) = true -> closing (env_session e') = true
}.

Lemma uv_close_safe e :
  tracker_wf (env_tracker e) ->
  exists o e', uv_close_session e = (o, e') /\ session_safe e o e' /\
    env_tracker e' = env_tracker e /\ read_buffer_ (env_session e') = read_buffer_ (env_session e).
Proof.
  intros Hwf. unfold uv_close_session. rewrite bind_get. destruct (closing (env_session e)) eqn:Hc.
  - exists Undef, e. split; [done|]. split; [|done]. by split; [right|..].
  - eexists _, _. split; [done|]. split; [|done]. by split; [left|..].
Qed.

Lemma session_request_safe frame e :
  tracker_wf (env_tracker e) -> next_handle_ (env_tracker e) + 1 < U64 ->
  exists o e', session_handle_request frame e = (o, e') /\ session_safe e o e' /\
    next_handle_ (env_tracker e') <= next_handle_ (env_tracker e) + 1 /\
    read_buffer_ (env_session e') = read_buffer_ (env_session e).
Proof.
  intros Hwf Hn. destruct e as [t s]. cbn [env_tracker env_session] in *.
  destruct (process_request_spec (session_id_ s) frame t Hwf Hn) as (t' & Hwf' & H).
  unfold session_handle_request. rewrite bind_get. cbn [env_session].
  destruct (verify_request frame) as [req|] eqn:Hv; destruct H as [Hr Hp];
    rewrite (bind_ret _ _ _ _ _ (zoom_ret env_tracker set_tracker _ (mkEnv t s) _ _ Hr)).
  - rewrite size_prefixed_nonempty. unfold send_response. rewrite bind_get. unfold set_tracker. cbn [env_session].
    pose proof (reply_next (session_id_ s) req (pool_of t)) as Hnx. rewrite <- Hp in Hnx. cbn in Hnx.
    assert (Hst : rtc (session_step (session_id_ s)) (pool_of t) (pool_of t')).
    { apply rtc_once. exists req. split; [by eapply wire_request_ok|done]. }
    destruct (closing s) eqn:Hc; eexists (Ret tt), _; (split; [done|]);
      (split; [by split; [left|..]|]); cbn; split; (done || lia).
  - subst t'. unfold set_tracker. cbn [env_session env_tracker zlen length Z.of_nat Z.eqb].
    destruct (uv_close_safe (mkEnv t s) Hwf) as (o & e' & Hr2 & Hs & Ht & Hb).
    exists o, e'. rewrite Ht. cbn. split_and!; [exact Hr2|done|lia|done].
Qed.

Lemma session_safe_trans e e1 o e' :
  session_safe e (Ret tt) e1 -> session_safe e1 o e' -> session_safe e o e'.
Proof.
  intros [_ _ Hp1 Hi1 Hc1] [Ho Ht Hp2 Hi2 Hc2]. split; try done.
  - rewrite Hi1 in Hp2. by etransitivity.
  - congruence.
  - auto.
Qed.

Lemma process_buffer_safe fuel : forall e,
  (length (read_buffer_ (env_session e)) <= fuel)%nat -> tracker_wf (env_tracker e) ->
  next_handle_ (env_tracker e) + zlen (read_buffer_ (env_session e)) < U64 ->
  exists o e', process_buffer fuel e = (o, e') /\ session_safe e o e'.
Proof.
  induction fuel as [|fuel IH]; intros e Hfuel Hwf Hn; cbn [process_buffer]; rewrite bind_get;
    set (b := read_buffer_ (env_session e)) in *.
  - destruct (Z.leb_spec 4 (zlen b)); [unfold zlen in *; lia|].
    exists (Ret tt), e. split; [done|]. by split; [left|..].
  - assert (Hskip : exists o e', ret tt e = (o, e') /\ session_safe e o e').
    { exists (Ret tt), e. split; [done|]. by split; [left|..]. }
    destruct (Z.leb_spec 4 (zlen b)); [|done].
    destruct (Z.ltb_spec MAX_MESSAGE_SIZE (prefixed_size b)).
    { destruct (uv_close_safe e Hwf) as (o & e' & Hr & Hs & _). by exists o, e'. }
    destruct (Z.leb_spec (prefixed_size b) (zlen b - 4)); [|done].
    destruct (session_request_safe (slice 0 (prefixed_size b + 4) b) e Hwf) as (o & e1 & Hr & Hs & Hn1 & Hb); [lia|].
    unfold bind at 1. rewrite Hr. pose proof (ss_outcome _ _ _ Hs) as [->| ->].
    2: { by exists Undef, e1. }
    rewrite bind_get, bind_put, Hb. fold b. pose proof (prefixed_size_nonneg b).
    set (e2 := set_session (set_buffer (drop (Z.to_nat (prefixed_size b + 4)) b) (env_session e1)) e1).
    destruct (IH e2) as (o & e' & Hr2 & Hs2).
    { cbn. rewrite length_drop. unfold zlen in *. lia. }
    { apply Hs. }
    { cbn. unfold zlen in *. rewrite length_drop. lia. }
    exists o, e'. split; [done|]. apply session_safe_trans with e2; [|done].
    destruct Hs. by split; [left|..].
Qed.

Lemma session_on_read_safe r e :
  tracker_wf (env_tracker e) ->
  next_handle_ (env_tracker e) + zlen (read_buffer_ (env_session e)) +
    match r with ReadBytes data => zlen data | ReadError => 0 end < U64 ->
  exists o e', session_on_read r e = (o, e') /\ session_safe e o e'.
Proof.
  intros Hwf Hn. destruct r as [data|]; cbn [session_on_read].
  - destruct (Z.ltb_spec 0 (zlen data)).
    + rewrite bind_get, bind_put, bind_get.
      set (e1 := set_session (set_buffer (read_buffer_ (env_session e) ++ data) (env_session e)) e).
      destruct (process_buffer_safe (length (read_buffer_ (env_session e1))) e1) as (o & e' & Hr & Hs); [done|done| |].
      { cbn. rewrite zlen_app. lia. }
      exists o, e'. split; [done|]. apply session_safe_trans with e1; [|done]. by split; [left|..].
    + exists (Ret tt), e. split; [done|]. by split; [left|..].
  - destruct (uv_close_safe e Hwf) as (o & e' & Hr & Hs & _). by exists o, e'.
Qed.

Lemma process_buffer_reject fuel t sid b cl out :
  4 <= zlen b -> prefixed_size b <= MAX_MESSAGE_SIZE -> prefixed_size b <= zlen b - 4 ->
  verify_request (slice 0 (prefixed_size b + 4) b) = None ->
  process_buffer (S fuel) (mkEnv t (mkSession sid b cl out)) =
    if cl then (Undef, mkEnv t (mkSession sid b cl out))
    else process_buffer fuel (mkEnv t (mkSession sid (drop (Z.to_nat (prefixed_size b + 4)) b) true out)).
Proof.
  intros H4 Hmax Hfit Hv. cbn [process_buffer]. rewrite bind_get. cbn [env_session read_buffer_].
  destruct (Z.leb_spec 4 (zlen b)); [|lia].
  destruct (Z.ltb_spec MAX_MESSAGE_SIZE (prefixed_size b)); [lia|].
  destruct (Z.leb_spec (prefixed_size b) (zlen b - 4)); [|lia].
  unfold session_handle_request, process_request, uv_close_session. munfold. cbn [env_session env_tracker session_id_].
  rewrite Hv. by destruct cl.
Qed.

(** ** Streams of encoded requests *)

Definition encode_request (r : MemoryRequest) : list byte := size_prefixed (request_table r).

Definition sendable (r : MemoryRequest) : Prop :=
  request_ok r /\ zlen (request_table r) <= MAX_MESSAGE_SIZE.

Lemma deframe_encoded reqs partial :
  Forall sendable reqs -> deframe partial [] partial ->
  deframe (concat (encode_request <$> reqs) ++ partial) reqs partial.
Proof.
  intros Hreqs Hp. induction Hreqs as [|r reqs [Hok Hlen] _ IH]; [done|].
  cbn [fmap list_fmap concat]. rewrite <- app_assoc. set (rest := concat _ ++ partial) in *.
  assert (H32 : zlen (request_table r) < U32) by (unfold U32, MAX_MESSAGE_SIZE in *; lia).
  pose proof (zlen_nonneg (request_table r)). pose proof (zlen_nonneg rest).
  assert (Hz : zlen (encode_request r) = zlen (request_table r) + 4).
  { unfold encode_request, size_prefixed. rewrite zlen_app. unfold zlen at 1. rewrite length_le_bytes. lia. }
  assert (Hsz : prefixed_size (encode_request r ++ rest) = zlen (request_table r))
    by (by apply prefixed_size_prefixed).
  apply deframe_step; rewrite ?Hsz, ?zlen_app; try lia; rewrite <- Hz.
  - rewrite slice_0, take_app_length' by (unfold zlen; lia). by apply wire_request_roundtrip.
  - rewrite drop_app_length' by (unfold zlen; lia). apply IH.
Qed.
End session.

(** ** Properties *)

(** C1: A connection serves its request stream exactly: however TCP cuts the
    bytes of a list of requests into chunks, the session sends the specified
    reply to each request, once and in order, leaves the pool the requests
    determine and keeps only the bytes of the unfinished frame. *)
Theorem session_serves_stream (W : MemoryWire) sid reqs partial chunks t o e' :
  tracker_wf t -> next_handle_ t + Z.of_nat (length reqs) < U64 ->
  Forall sendable reqs -> deframe partial [] partial ->
  concat chunks = concat (encode_request <$> reqs) ++ partial ->
  deliver chunks (mkEnv t (ClientSession_new sid true)) = (o, e') ->
  o = Ret tt /\ sent (env_session e') = fst (replies sid reqs (pool_of t)) /\
  pool_of (env_tracker e') = snd (replies sid reqs (pool_of t)) /\
  read_buffer_ (env_session e') = partial /\ closing (env_session e') = false.
Proof.
  intros Hwf Hn Hreqs Hp Hc Hr.
  destruct (deliver_spec chunks reqs partial t (ClientSession_new sid true)) as (t' & Hr' & Hwf' & Hpool); try done.
  { cbn. rewrite Hc. by apply deframe_encoded. }
  { exists []. constructor. by left. }
  rewrite Hr' in Hr. by simplify_eq.
Qed.

(** Two frames the verifier rejects that arrive in one chunk make the
    session close its socket twice, which libuv does not allow: after the first
    [uv_close] the loop of [process_buffer] goes on. *)
Theorem session_double_close (W : MemoryWire) sid t :
  verify_request (le_bytes 4 0) = None ->
  fst (session_on_read (ReadBytes (le_bytes 4 0 ++ le_bytes 4 0)) (mkEnv t (ClientSession_new sid true))) = Undef.
Proof.
  intros Hv. change (fst (process_buffer 8 (mkEnv t (mkSession sid (le_bytes 8 0) false []))) = Undef).
  rewrite process_buffer_reject; [|done..]. cbv iota.
  change (drop _ (le_bytes 8 0)) with (le_bytes 4 0). by rewrite process_buffer_reject.
Qed.

(** ** Concrete runs *)

Definition demo_chunks : list (list byte) :=
  let s := concat (encode_request (W := table_wire) <$> [write_request 1 3 [x01; x02]; read_request 1 2 3]) in
  [take 3 s; drop 3 s].

Lemma session_serves_stream_witness :
  exists e', deliver (W := table_wire) demo_chunks (mkEnv demo_tracker2 (ClientSession_new 7 true)) = (Ret tt, e') /\
    sent (env_session e') =
      [size_prefixed (code_table (response_tuple (mkResponse 5 StatusCode_OK 0 None 0 "OK")));
       size_prefixed (code_table (response_tuple
         (mkResponse 6 StatusCode_OK 0 (Some [x00; x01; x02]) (crc32c [x00; x01; x02] 0) "OK")))].
Proof.
  destruct (deliver (W := table_wire) demo_chunks (mkEnv demo_tracker2 (ClientSession_new 7 true))) as [o e'] eqn:E.
  assert (Hs : Forall (sendable (W := table_wire)) [write_request 1 3 [x01; x02]; read_request 1 2 3]).
  { repeat constructor; vm_compute; discriminate. }
  assert (Hc : concat demo_chunks =
    concat (encode_request (W := table_wire) <$> [write_request 1 3 [x01; x02]; read_request 1 2 3]) ++ [])
    by (vm_compute; reflexivity).
  assert (Hp : deframe_with (verify_request (MemoryWire := table_wire)) [] [] []) by (constructor; by left).
  assert (Hn : next_handle_ demo_tracker2 + 2 < U64) by (vm_compute; reflexivity).
  destruct (session_serves_stream table_wire 7 [write_request 1 3 [x01; x02]; read_request 1 2 3] []
              demo_chunks demo_tracker2 o e' demo_tracker2_wf Hn Hs Hp Hc E) as (-> & Hsent & _).
  exists e'. split; [done|]. rewrite Hsent. vm_compute. reflexivity.
Defined.

Lemma session_double_close_witness :
  fst (session_on_read (W := table_wire) (ReadBytes (le_bytes 4 0 ++ le_bytes 4 0))
         (mkEnv demo_tracker2 (ClientSession_new 7 true))) = Undef.
Proof. apply (session_double_close table_wire). vm_compute. reflexivity. Defined.
