(* ===== verification/MemoryDaemon.v ===== *)
(** * The memoryd daemon

    [memoryd/src/memory_daemon.cpp]: the daemon owns the slab, the page tracker
    and the listening socket; every accepted connection is a [ClientSession]
    that deletes itself in its close callback.  All callbacks run on one loop
    thread, so an execution is a sequence of them; [daemon_event] lists them and
    [enabled] says when libuv may deliver each.

    [memoryd/src/memory_control.cpp]: the control socket answers how much of the
    pool is in use. *)

From S2P Require Import Prelude Framing Slab PageTracker Crc32c Pool MemoryProtocol ClientSession.

Record MemoryDaemon := mkDaemon {
  page_tracker_ : PageTracker;
  sessions : gmap Z ClientSession;     (* accepted sockets not yet deleted, by session id *)
  next_session_id_ : Z;
  server_closing : bool;               (* the listening socket is closing *)
  is_running_ : bool
}.

Section daemon.
Context {W : MemoryWire} `{!MapIter Z Allocation}.

(** ** The code *)

(** The constructor; the arguments are [memory.total_reserved_bytes] and
    [memory.page_size_bytes] of the configuration, when present. *)
Definition MemoryDaemon_new (operator_new : Z -> option (list byte))
    (total_reserved_bytes page_size_bytes : option Z) : outcome MemoryDaemon :=
  let total_size := default (1024 * 1024 * 256) total_reserved_bytes in
  let page_size := default 4096 page_size_bytes in
  match SlabAllocator_new operator_new total_size page_size with
  | Ret s =>
      match PageTracker_new (Some s) with
      | Ret t => Ret (mkDaemon t ∅ 1 false false)
      | Throw e => Throw e
      | Undef => Undef
      | NoFuel => NoFuel
      end
  | Throw e => Throw e
  | Undef => Undef
  | NoFuel => NoFuel
  end.

(** [on_connection]: [status] as libuv reports it, [accepted] what [uv_accept]
    says in the session's constructor. *)
Definition on_connection (status : Z) (accepted : bool) (d : MemoryDaemon) : MemoryDaemon :=
  if status <? 0 then d
  else
    let sid := next_session_id_ d in
    mkDaemon (page_tracker_ d) (<[sid := ClientSession_new sid accepted]> (sessions d))
      (u64 (sid + 1)) (server_closing d) (is_running_ d).

(** [close_sockets]: every TCP handle that is not closing yet. *)
Definition close_sockets (d : MemoryDaemon) : MemoryDaemon :=
  mkDaemon (page_tracker_ d)
    ((fun s => if closing s then s else set_closing s) <$> sessions d)
    (next_session_id_ d) true (is_running_ d).

(** The [stop_async_] callback: [close_sockets], [uv_stop], [is_running_ = false]. *)
Definition on_stop (d : MemoryDaemon) : MemoryDaemon :=
  let d := close_sockets d in
  mkDaemon (page_tracker_ d) (sessions d) (next_session_id_ d) (server_closing d) false.

(** A read callback of session [sid]. *)
Definition daemon_read (sid : Z) (r : read_result) : M MemoryDaemon unit :=
  let! d := get in
  match sessions d !! sid with
  | None => undef
  | Some s =>
      let '(o, e) := session_on_read r (mkEnv (page_tracker_ d) s) in
      do! put (mkDaemon (env_tracker e) (<[sid := env_session e]> (sessions d))
                 (next_session_id_ d) (server_closing d) (is_running_ d)) in
      fun d => (o, d)
  end.

(** The close callback of session [sid] deletes the session. *)
Definition daemon_closed (sid : Z) (d : MemoryDaemon) : MemoryDaemon :=
  match sessions d !! sid with
  | None => d
  | Some s =>
      mkDaemon (on_close_handle s (page_tracker_ d)) (delete sid (sessions d))
        (next_session_id_ d) (server_closing d) (is_running_ d)
  end.

(** The destructor: close everything, then let the loop run the close
    callbacks, in any order. *)
Definition MemoryDaemon_delete (order : list Z) (d : MemoryDaemon) : MemoryDaemon :=
  let d := close_sockets d in
  let d := mkDaemon (page_tracker_ d) (sessions d) (next_session_id_ d) (server_closing d) false in
  foldl (fun d sid => daemon_closed sid d) d order.

(** ** Executions *)

Inductive daemon_event :=
| EvConnection (status : Z) (accepted : bool)
| EvRead (sid : Z) (r : read_result)
| EvClosed (sid : Z)
| EvStop.

Definition daemon_exec (ev : daemon_event) : M MemoryDaemon unit :=
  match ev with
  | EvConnection status accepted => fun d => (Ret tt, on_connection status accepted d)
  | EvRead sid r => daemon_read sid r
  | EvClosed sid => fun d => (Ret tt, daemon_closed sid d)
  | EvStop => fun d => (Ret tt, on_stop d)
  end.

(** When libuv delivers a callback: connections while the listening socket is
    open, reads while the session's socket is open, the close callback after
    [uv_close].  The last clauses say that the 64-bit counters have not run
    out. *)
Definition enabled (d : MemoryDaemon) (ev : daemon_event) : Prop :=
  match ev with
  | EvConnection status accepted => server_closing d = false /\ next_session_id_ d + 1 < U64
  | EvRead sid r =>
      exists s, sessions d !! sid = Some s /\ closing s = false /\
        next_handle_ (page_tracker_ d) + zlen (read_buffer_ s) +
          match r with ReadBytes data => zlen data | ReadError => 0 end < U64
  | EvClosed sid => exists s, sessions d !! sid = Some s /\ closing s = true
  | EvStop => True
  end.

Inductive daemon_reachable (d0 : MemoryDaemon) : MemoryDaemon -> Prop :=
| daemon_reachable_init : daemon_reachable d0 d0
| daemon_reachable_step d ev d' :
    daemon_reachable d0 d -> enabled d ev -> daemon_exec ev d = (Ret tt, d') -> daemon_reachable d0 d'.

(** ** The invariant *)

Record daemon_wf (d : MemoryDaemon) : Prop := {
  dw_tracker : tracker_wf (page_tracker_ d);
  dw_next : 0 < next_session_id_ d < U64;
  dw_ids : forall sid s, sessions d !! sid = Some s ->
    session_id_ s = sid /\ 0 < sid < next_session_id_ d;
  dw_owners : forall h o, tracker_abs (page_tracker_ d) !! h = Some o ->
    is_Some (sessions d !! obj_owner o)
}.

Lemma MemoryDaemon_new_wf operator_new total page d :
  (forall n b, operator_new n = Some b -> zlen b = n) ->
  (forall n, total = Some n -> is_u64 n) -> (forall n, page = Some n -> is_u64 n) ->
  MemoryDaemon_new operator_new total page = Ret d -> daemon_wf d.
Proof.
  intros Hnew Ht Hp. unfold MemoryDaemon_new.
  destruct (SlabAllocator_new _ _ _) as [s| | |] eqn:Es; try done. intros [= <-].
  assert (is_u64 (default (1024 * 1024 * 256) total) /\ is_u64 (default 4096 page)) as [Hu1 Hu2].
  { split; [destruct total; [by apply Ht|done]|destruct page; [by apply Hp|done]]. }
  destruct (SlabAllocator_new_spec _ _ _ _ Hu1 Hu2 Hnew Es) as (Hwf & He & _).
  assert (Hw : tracker_wf (mkTracker s ∅ 1)) by (by apply (PageTracker_new_wf s)).
  split; [done|done|done|]. intros h o. cbn [page_tracker_]. rewrite tracker_abs_lookup.
  cbn [allocations_]. by rewrite lookup_empty.
Qed.

Lemma session_steps_objs sid p p' h o :
  rtc (session_step sid) p p' -> pool_objs p' !! h = Some o ->
  obj_owner o = sid \/ exists o0, pool_objs p !! h = Some o0 /\ obj_owner o0 = obj_owner o.
Proof.
  intros Hr. revert o. induction Hr as [p|p q p' Hs _ IH]; intros o Ho; [eauto|].
  destruct (IH o Ho) as [?|(o1 & Ho1 & Hw)]; [by left|].
  destruct (session_step_objs _ _ _ _ _ Hs Ho1) as [?|(o0 & Ho0 & ?)]; [left; congruence|].
  right. exists o0. split; [done|congruence].
Qed.

Lemma session_steps_keeps sid p p' h o :
  rtc (session_step sid) p p' -> pool_objs p !! h = Some o -> h < pool_next p ->
  obj_owner o <> 0 -> obj_owner o <> sid -> pool_objs p' !! h = Some o.
Proof.
  intros Hr. induction Hr as [p|p q p' Hs _ IH]; intros Ho Hlt H0 Hne; [done|].
  apply IH; try done; [by eapply session_step_keeps|].
  destruct Hs as (req & _ & ->). pose proof (reply_next sid req p). lia.
Qed.

Lemma session_steps_geometry sid p p' : rtc (session_step sid) p p' -> keeps_geometry p p'.
Proof.
  intros Hr. induction Hr as [p|p q p' (req & _ & ->) _ [IH1 IH2]]; [done|].
  assert (keeps_geometry p (snd (reply_spec sid req p))) as [H1 H2].
  { unfold reply_spec. repeat (case_decide || case_match); done. }
  split; congruence.
Qed.

(** A read callback either returns or closes a closing socket. *)
Lemma daemon_read_spec d sid r :
  daemon_wf d -> enabled d (EvRead sid r) ->
  exists o d', daemon_read sid r d = (o, d') /\ close_only o /\ daemon_wf d' /\
    rtc (session_step sid) (pool_of (page_tracker_ d)) (pool_of (page_tracker_ d')) /\
    dom (sessions d') = dom (sessions d).
Proof.
  intros Hwf (s & Hs & Hcl & Hn). destruct (dw_ids _ Hwf _ _ Hs) as [Hid Hpos].
  destruct (session_on_read_safe r (mkEnv (page_tracker_ d) s) (dw_tracker _ Hwf) Hn) as (o & e & Hr & Hsafe).
  destruct Hsafe as [Ho Ht Hp Hi _]. cbn [env_session env_tracker] in *. rewrite Hid in Hp.
  unfold daemon_read. rewrite bind_get, Hs, Hr, bind_put. eexists o, _. split; [done|]. split; [done|].
  cbn [page_tracker_ sessions]. split; [|split; [done|]].
  - split; cbn; [done|apply Hwf|..].
    + intros sid' s' [[<- <-]|[_ Hs']]%lookup_insert_Some; [|by apply Hwf]. split; [congruence|done].
    + intros h ob Hob. rewrite lookup_insert_is_Some'.
      destruct (session_steps_objs _ _ _ h ob Hp Hob) as [->|(o0 & Ho0 & <-)]; [by left|right].
      by apply (dw_owners _ Hwf h).
  - rewrite dom_insert_L. apply elem_of_dom_2 in Hs. set_solver.
Qed.

Lemma daemon_closed_spec d sid :
  daemon_wf d -> daemon_wf (daemon_closed sid d) /\
  (is_Some (sessions d !! sid) ->
   pool_of (page_tracker_ (daemon_closed sid d)) = Pool_drop_owner sid (pool_of (page_tracker_ d))) /\
  sessions (daemon_closed sid d) = delete sid (sessions d) /\
  keeps_geometry (pool_of (page_tracker_ d)) (pool_of (page_tracker_ (daemon_closed sid d))).
Proof.
  intros Hwf. unfold daemon_closed. destruct (sessions d !! sid) as [s|] eqn:Hs.
  - destruct (dw_ids _ Hwf _ _ Hs) as [Hid Hpos]. unfold on_close_handle. rewrite Hid.
    destruct (pool_drop_refines (page_tracker_ d) sid) as [Ht Hp]; [apply Hwf|lia|].
    split; [|split; [done|split; [done|]]].
    + split; cbn; [done|apply Hwf|..].
      * intros sid' s' [_ Hs']%lookup_delete_Some. by apply Hwf.
      * intros h o Ho. assert (Hf : pool_objs (Pool_drop_owner sid (pool_of (page_tracker_ d))) !! h = Some o)
          by (by rewrite <- Hp). cbn in Hf. apply map_lookup_filter_Some in Hf as [Ho0 Hne].
        rewrite lookup_delete_ne by done. by apply (dw_owners _ Hwf h).
    + cbn. by rewrite Hp.
  - split; [done|]. split; [intros [? [=]]|]. split; [by rewrite delete_id|done].
Qed.

Lemma close_sockets_wf d : daemon_wf d -> daemon_wf (close_sockets d).
Proof.
  intros Hwf. split; cbn; try apply Hwf.
  - intros sid s. rewrite lookup_fmap. intros (s0 & Hs0 & ->)%fmap_Some.
    destruct (dw_ids _ Hwf _ _ Hs0). by destruct (closing s0).
  - intros h o Ho. rewrite lookup_fmap, fmap_is_Some. by apply (dw_owners _ Hwf h).
Qed.

Lemma on_connection_wf d status accepted :
  daemon_wf d -> next_session_id_ d + 1 < U64 -> daemon_wf (on_connection status accepted d).
Proof.
  intros Hwf Hn. unfold on_connection. destruct (Z.ltb_spec status 0); [done|].
  pose proof (dw_next _ Hwf). rewrite u64_small by lia. split; cbn; [apply Hwf|lia|..].
  - intros sid s [[<- <-]|[_ Hs]]%lookup_insert_Some; [by destruct accepted; cbn; lia|].
    destruct (dw_ids _ Hwf _ _ Hs). split; [done|lia].
  - intros h o Ho. rewrite lookup_insert_is_Some'. right. by apply (dw_owners _ Hwf h).
Qed.

Lemma daemon_step_wf d ev d' :
  daemon_wf d -> enabled d ev -> daemon_exec ev d = (Ret tt, d') ->
  daemon_wf d' /\ keeps_geometry (pool_of (page_tracker_ d)) (pool_of (page_tracker_ d')).
Proof.
  intros Hwf Hen Hx. destruct ev as [status accepted|sid r|sid|]; cbn [daemon_exec] in Hx.
  - simplify_eq. split; [by apply on_connection_wf; [|apply Hen]|].
    unfold on_connection. by destruct (status <? 0).
  - destruct (daemon_read_spec d sid r Hwf Hen) as (o & d1 & Hr & _ & Hwf1 & Hp & _).
    rewrite Hr in Hx. simplify_eq. split; [done|]. by apply session_steps_geometry in Hp.
  - simplify_eq. destruct (daemon_closed_spec d sid Hwf) as (Hwf' & _ & _ & Hg). done.
  - simplify_eq. split; [|done]. destruct (close_sockets_wf d Hwf). done.
Qed.

Lemma daemon_reachable_wf d0 d :
  daemon_wf d0 -> daemon_reachable d0 d ->
  daemon_wf d /\ keeps_geometry (pool_of (page_tracker_ d0)) (pool_of (page_tracker_ d)).
Proof.
  intros Hwf Hr. induction Hr as [|d ev d' _ [IH [G1 G2]] Hen Hx]; [done|].
  destruct (daemon_step_wf _ _ _ IH Hen Hx) as [Hw [G3 G4]]. split; [done|]. split; congruence.
Qed.

(** A daemon without sessions holds no allocation. *)
Lemma no_sessions_empty d :
  daemon_wf d -> sessions d = ∅ ->
  tracker_abs (page_tracker_ d) = ∅ /\
  free_pages_count (allocator_ (page_tracker_ d)) = total_pages_ (allocator_ (page_tracker_ d)).
Proof.
  intros Hwf He. assert (Ha : tracker_abs (page_tracker_ d) = ∅).
  { apply map_eq. intros h. rewrite lookup_empty. destruct (_ !! h) as [o|] eqn:Ho; [|done].
    apply (dw_owners _ Hwf) in Ho. rewrite He, lookup_empty in Ho. by destruct Ho. }
  split; [done|]. rewrite tracker_accounting by apply Hwf.
  unfold pool_free_pages. cbn. rewrite Ha. unfold used_pages. rewrite map_fold_empty. lia.
Qed.

Lemma closed_fold order d :
  daemon_wf d -> 
  daemon_wf (foldl (fun d sid => daemon_closed sid d) d order) /\
  (forall sid, sessions (foldl (fun d sid => daemon_closed sid d) d order) !! sid =
     if decide (sid ∈ order) then None else sessions d !! sid).
Proof.
  revert d. induction order as [|x order IH]; intros d Hwf; cbn.
  - split; [done|]. intros sid. by rewrite decide_False by apply not_elem_of_nil.
  - destruct (daemon_closed_spec d x Hwf) as (Hwf1 & _ & Hs & _). destruct (IH _ Hwf1) as [Hwf2 Hl].
    split; [done|]. intros sid. rewrite Hl, Hs. destruct (decide (sid ∈ order)) as [Hin|Hin].
    + by rewrite decide_True by set_solver.
    + destruct (decide (x = sid)) as [->|Hne].
      * rewrite lookup_delete_eq, decide_True; [done|left].
      * rewrite lookup_delete_ne by done. rewrite decide_False by set_solver. done.
Qed.

(** The destructor, in whatever order libuv runs the close callbacks. *)
Theorem daemon_shutdown_frees d order :
  daemon_wf d -> (forall sid, is_Some (sessions d !! sid) -> sid ∈ order) ->
  let d' := MemoryDaemon_delete order d in
  sessions d' = ∅ /\ tracker_abs (page_tracker_ d') = ∅ /\
  free_pages_count (allocator_ (page_tracker_ d')) = total_pages_ (allocator_ (page_tracker_ d')).
Proof.
  intros Hwf Hall. cbv zeta. unfold MemoryDaemon_delete.
  set (d1 := mkDaemon _ _ _ _ false).
  assert (Hwf1 : daemon_wf d1) by (destruct (close_sockets_wf d Hwf); done).
  destruct (closed_fold order d1 Hwf1) as [Hwf2 Hl].
  assert (He : sessions (foldl (fun d sid => daemon_closed sid d) d1 order) = ∅).
  { apply map_eq. intros sid. rewrite Hl, lookup_empty. case_decide as Hin; [done|]. cbn.
    rewrite lookup_fmap. destruct (sessions d !! sid) eqn:Es; [|done]. destruct Hin. apply Hall. by rewrite Es. }
  split; [done|]. by apply no_sessions_empty.
Qed.

(** ** The control socket *)

(** [schema/control.fbs], as far as memoryd uses it. *)
Record ControlRequest := mkControlRequest { command : Z; control_request_id : Z }.

Definition GET_MEMORY_STATS : Z := 4.

Record MemoryStats := mkStats {
  stats_request_id : Z;
  success : bool;
  stats_message : string;
  pool_total_bytes : Z;
  pool_free_bytes : Z;
  pool_used_bytes : Z
}.

(** [MemoryControlSocket::handle_request] after the verifier; [allocator] is
    null when the socket has none. *)
Definition control_reply (allocator : option SlabAllocator) (req : ControlRequest) : MemoryStats :=
  match allocator with
  | Some a =>
      if command req =? GET_MEMORY_STATS then
        let page_size := page_size_ a in
        let total_bytes := u64 (total_pages_ a * page_size) in
        let free_bytes := u64 (free_pages_count a * page_size) in
        mkStats (control_request_id req) true "OK" total_bytes free_bytes (u64 (total_bytes - free_bytes))
      else mkStats (control_request_id req) false "Unsupported command" 0 0 0
  | None => mkStats (control_request_id req) false "Unsupported command" 0 0 0
  end.

(** The whole handler; [None]: the response is left empty. *)
Definition control_handle_request (verify : list byte -> option ControlRequest)
    (allocator : option SlabAllocator) (data : list byte) : option MemoryStats :=
  if zlen data <? 4 then None
  else control_reply allocator <$> verify data.

Lemma used_pages_bound t :
  tracker_wf t -> 0 <= used_pages (page_size_ (allocator_ t)) (tracker_abs t) <= total_pages_ (allocator_ t).
Proof.
  intros Hwf. pose proof (tracker_accounting t Hwf) as Ha. unfold pool_free_pages in Ha. cbn in Ha.
  pose proof (slab_page_count _ (tw_slab _ Hwf)). unfold free_pages_count in *.
  pose proof (zlen_nonneg (free_list_ (allocator_ t))). lia.
Qed.
End daemon.

(** ** Properties *)

(** C9: No allocation outlives its session: in every state the daemon can
    reach from its construction, by any order of connections, reads of any
    bytes, close callbacks and stop requests, the page tracker's invariant
    holds and every allocation belongs to a session that is still there; when
    no session is left every page is free. *)
Theorem daemon_no_orphans (W : MemoryWire) `{!MapIter Z Allocation} operator_new total page d0 d :
  (forall n b, operator_new n = Some b -> zlen b = n) ->
  (forall n, total = Some n -> is_u64 n) -> (forall n, page = Some n -> is_u64 n) ->
  MemoryDaemon_new operator_new total page = Ret d0 -> daemon_reachable d0 d ->
  tracker_wf (page_tracker_ d) /\
  (forall h o, tracker_abs (page_tracker_ d) !! h = Some o -> is_Some (sessions d !! obj_owner o)) /\
  (sessions d = ∅ ->
   free_pages_count (allocator_ (page_tracker_ d)) = total_pages_ (allocator_ (page_tracker_ d))).
Proof.
  intros Hnew Ht Hp Hd Hr. apply MemoryDaemon_new_wf in Hd; try done.
  destruct (daemon_reachable_wf _ _ Hd Hr) as [Hwf _]. split_and!; [apply Hwf|apply Hwf|].
  intros He. by apply no_sessions_empty.
Qed.

(** One connection cannot affect another: a read callback of session
    [sid], on any bytes, leaves every allocation of every other session as it
    was, and the end of a session removes its own allocations and no others. *)
Theorem daemon_isolation (W : MemoryWire) `{!MapIter Z Allocation} d sid r o d' h ob :
  daemon_wf d -> enabled d (EvRead sid r) -> daemon_read sid r d = (o, d') ->
  tracker_abs (page_tracker_ d) !! h = Some ob -> obj_owner ob <> sid ->
  tracker_abs (page_tracker_ d') !! h = Some ob /\
  tracker_abs (page_tracker_ (daemon_closed sid d')) =
    filter (fun '(h, o) => obj_owner o <> sid) (tracker_abs (page_tracker_ d')).
Proof.
  intros Hwf Hen Hx Hob Hne.
  destruct (daemon_read_spec d sid r Hwf Hen) as (o1 & d1 & Hx1 & _ & Hwf1 & Hp & Hdom).
  rewrite Hx1 in Hx. injection Hx as -> ->. split.
  - apply (session_steps_keeps sid _ _ h ob Hp Hob); [| |done].
    + cbn. rewrite tracker_abs_lookup in Hob. apply fmap_Some in Hob as (a & Ha & _).
      by apply (tw_handle _ (dw_tracker _ Hwf)) in Ha as [_ ?].
    + destruct (dw_owners _ Hwf _ _ Hob) as [s Hs]. apply (dw_ids _ Hwf) in Hs. lia.
  - destruct (daemon_closed_spec d' sid Hwf1) as (_ & Hdrop & _).
    assert (Hsome : is_Some (sessions d' !! sid)).
    { destruct Hen as (s & Hs & _). apply elem_of_dom. rewrite Hdom. by eapply elem_of_dom_2. }
    specialize (Hdrop Hsome). apply (f_equal pool_objs) in Hdrop. exact Hdrop.
Qed.

(** The statistics the control socket reports are exact: the used bytes
    are the pages the live allocations take, used and free bytes add up to the
    total, and no sum wraps. *)
Theorem control_stats_exact t req :
  tracker_wf t -> command req = GET_MEMORY_STATS ->
  let r := control_reply (Some (allocator_ t)) req in
  success r = true /\
  pool_total_bytes r = total_pages_ (allocator_ t) * page_size_ (allocator_ t) /\
  pool_used_bytes r =
    used_pages (page_size_ (allocator_ t)) (tracker_abs t) * page_size_ (allocator_ t) /\
  pool_used_bytes r + pool_free_bytes r = pool_total_bytes r.
Proof.
  intros Hwf Hc. cbv zeta. unfold control_reply. rewrite Hc. cbn -[used_pages tracker_abs u64 free_pages_count].
  pose proof (tracker_accounting t Hwf) as Ha. unfold pool_free_pages in Ha. cbn -[used_pages tracker_abs free_pages_count] in Ha.
  pose proof (used_pages_bound t Hwf). pose proof (wf_bytes _ (tw_slab _ Hwf)).
  pose proof (wf_page_size _ (tw_slab _ Hwf)). rewrite Ha.
  rewrite !(u64_small (_ * _)) by nia. rewrite u64_small by nia. split_and!; [done|nia..].
Qed.

(** ** Concrete runs: two sessions connect and the first allocates six bytes. *)

#[local] Existing Instance map_iter_std.

Definition demo_daemon : MemoryDaemon := mkDaemon demo_tracker ∅ 1 false false.

Lemma demo_daemon_new : MemoryDaemon_new demo_new (Some 14) (Some 4) = Ret demo_daemon.
Proof. vm_compute. reflexivity. Qed.

Definition demo_daemon2 : MemoryDaemon := on_connection 0 true (on_connection 0 true demo_daemon).

Definition alloc_request (n : Z) : MemoryRequest := mkRequest 1 4 OpCode_ALLOC 0 n 0 None 0.

Definition demo_alloc : read_result := ReadBytes (encode_request (W := table_wire) (alloc_request 6)).

Definition demo_daemon3 : MemoryDaemon := snd (daemon_read (W := table_wire) 1 demo_alloc demo_daemon2).

Lemma demo_new_u64 : forall n : Z, Some 14 = Some n \/ Some 4 = Some n -> is_u64 n.
Proof. intros n [[= <-]|[= <-]]; unfold is_u64, U64; lia. Qed.

Lemma demo_daemon_wf : daemon_wf demo_daemon.
Proof.
  apply (MemoryDaemon_new_wf demo_new (Some 14) (Some 4));
    [apply demo_new_len|auto using demo_new_u64..|apply demo_daemon_new].
Qed.

Lemma demo_daemon2_wf : daemon_wf demo_daemon2.
Proof. repeat apply on_connection_wf; [apply demo_daemon_wf|vm_compute; reflexivity..]. Qed.

Lemma demo_daemon3_read : daemon_read (W := table_wire) 1 demo_alloc demo_daemon2 = (Ret tt, demo_daemon3).
Proof. vm_compute. reflexivity. Qed.

Lemma demo_read_enabled : enabled demo_daemon2 (EvRead 1 demo_alloc).
Proof. eexists. split; [vm_compute; reflexivity|]. split; [reflexivity|]. vm_compute. reflexivity. Qed.

Lemma demo_daemon3_wf : daemon_wf demo_daemon3.
Proof.
  destruct (daemon_read_spec (W := table_wire) demo_daemon2 1 demo_alloc demo_daemon2_wf demo_read_enabled)
    as (o & d & Hr & _ & Hwf & _).
  rewrite demo_daemon3_read in Hr. by injection Hr as _ <-.
Qed.

Lemma demo_daemon3_reachable : daemon_reachable (W := table_wire) demo_daemon demo_daemon3.
Proof.
  assert (Hc : forall d, server_closing d = false -> next_session_id_ d + 1 < U64 ->
    daemon_reachable (W := table_wire) demo_daemon d ->
    daemon_reachable (W := table_wire) demo_daemon (on_connection 0 true d)).
  { intros d H1 H2 H. by eapply (daemon_reachable_step _ d (EvConnection 0 true)). }
  eapply (daemon_reachable_step _ demo_daemon2 (EvRead 1 demo_alloc)); [|apply demo_read_enabled|apply demo_daemon3_read].
  apply Hc; [reflexivity|vm_compute; reflexivity|]. apply Hc; [reflexivity|vm_compute; reflexivity|].
  constructor.
Qed.

Lemma daemon_no_orphans_witness :
  tracker_wf (page_tracker_ demo_daemon3) /\
  (forall o, tracker_abs (page_tracker_ demo_daemon3) !! 1 = Some o -> is_Some (sessions demo_daemon3 !! obj_owner o)) /\
  tracker_abs (page_tracker_ demo_daemon3) !! 1 = Some (mkObj 1 (replicate 6 x00)).
Proof.
  destruct (daemon_no_orphans table_wire demo_new (Some 14) (Some 4) demo_daemon demo_daemon3)
    as (Hwf & Ho & _);
    [apply demo_new_len|auto using demo_new_u64..|apply demo_daemon_new|apply demo_daemon3_reachable|].
  split; [exact Hwf|]. split; [exact (Ho 1)|]. vm_compute. reflexivity.
Defined.

(** Session 2 asks to free handle 1, which session 1 owns. *)
Definition demo_free : read_result :=
  ReadBytes (encode_request (W := table_wire) (mkRequest 1 9 OpCode_FREE 1 0 0 None 0)).

Lemma daemon_isolation_witness :
  tracker_abs (page_tracker_ (snd (daemon_read (W := table_wire) 2 demo_free demo_daemon3))) !! 1 =
  Some (mkObj 1 (replicate 6 x00)).
Proof.
  destruct (daemon_read (W := table_wire) 2 demo_free demo_daemon3) as [o d'] eqn:E.
  destruct (daemon_isolation table_wire demo_daemon3 2 demo_free o d' 1 (mkObj 1 (replicate 6 x00)))
    as [H _]; [apply demo_daemon3_wf| |exact E|vm_compute; reflexivity|discriminate|exact H].
  eexists. split; [vm_compute; reflexivity|]. split; [reflexivity|]. vm_compute. reflexivity.
Defined.

Lemma daemon_shutdown_frees_witness :
  tracker_abs (page_tracker_ (MemoryDaemon_delete [2; 1] demo_daemon3)) = ∅.
Proof.
  destruct (daemon_shutdown_frees demo_daemon3 [2; 1]) as (_ & H & _);
    [apply demo_daemon3_wf| |exact H].
  intros sid Hs. assert (Hd : dom (sessions demo_daemon3) = {[1; 2]}) by (vm_compute; reflexivity).
  apply elem_of_dom in Hs. rewrite Hd in Hs. set_solver.
Defined.

Lemma control_stats_exact_witness :
  let r := control_reply (Some (allocator_ (page_tracker_ demo_daemon3))) (mkControlRequest 4 1) in
  pool_used_bytes r + pool_free_bytes r = pool_total_bytes r /\ pool_used_bytes r = 8.
Proof.
  split; [|vm_compute; reflexivity].
  apply (control_stats_exact (page_tracker_ demo_daemon3) (mkControlRequest 4 1));
    [apply demo_daemon3_wf|reflexivity].
Defined.
