(* ===== verification/HeapArena.v ===== *)
(** * A first-fit heap over a byte range

    [memclient/src/heap_arena.cpp]: carves a range of addresses into blocks.
    Both [std::map]s are keyed by the offset from the base.  The free list is
    iterated in key order, so it is an ordered association list; the live
    blocks are only looked up, so they are a finite map.  The class's mutex
    makes each operation one step.

    The invariant [arena_wf] says that free and live blocks tile the range, and
    that free blocks never touch: freeing always coalesces. *)

From Stdlib Require Import Sorting.Sorted.
From S2P Require Import Prelude.

Record HeapArena := mkArena {
  base_ : Z;
  size_ : Z;
  free_blocks_ : list (Z * Z);       (* offset, length; in key order *)
  live_blocks_ : gmap Z Z;
  in_use_bytes_ : Z
}.

(** ** [std::map] by key order *)

Fixpoint map_emplace (k v : Z) (l : list (Z * Z)) : list (Z * Z) :=
  match l with
  | [] => [(k, v)]
  | (k', v') :: l' =>
      if k <? k' then (k, v) :: l
      else if k =? k' then l
      else (k', v') :: map_emplace k v l'
  end.

Definition map_erase (k : Z) (l : list (Z * Z)) : list (Z * Z) := filter (fun e => e.1 <> k) l.

Fixpoint map_find (k : Z) (l : list (Z * Z)) : option Z :=
  match l with
  | [] => None
  | (k', v) :: l => if k =? k' then Some v else map_find k l
  end.

(** The entry before [lower_bound(k)], if there is one. *)
Definition map_prev (k : Z) (l : list (Z * Z)) : option (Z * Z) := last (filter (fun e => e.1 < k) l).

(** ** The code *)

Definition align_up (value alignment : Z) : Z :=
  let mask := u64 (alignment - 1) in
  Z.land (u64 (value + mask)) (u64 (Z.lnot mask)).

Definition HeapArena_new (base size : Z) : HeapArena :=
  mkArena base size (if negb (base =? 0) && negb (size =? 0) then [(0, size)] else []) ∅ 0.

(** The scan of [allocate]: the block taken and the aligned offset in it. *)
Fixpoint first_fit (base bytes alignment : Z) (l : list (Z * Z)) : option (Z * Z * Z) :=
  match l with
  | [] => None
  | (block_start, block_len) :: l =>
      let aligned := u64 (align_up (u64 (base + block_start)) alignment - base) in
      let lead := u64 (aligned - block_start) in
      if (block_len <? lead) || (block_len - lead <? bytes) then first_fit base bytes alignment l
      else Some (block_start, block_len, aligned)
  end.

(** 0 is the null pointer. *)
Definition arena_allocate (bytes alignment : Z) (a : HeapArena) : Z * HeapArena :=
  if (bytes =? 0) || (base_ a =? 0) then (0, a)
  else if (alignment =? 0) || negb (Z.land alignment (alignment - 1) =? 0) then (0, a)
  else
    match first_fit (base_ a) bytes alignment (free_blocks_ a) with
    | None => (0, a)
    | Some (block_start, block_len, aligned) =>
        let lead := u64 (aligned - block_start) in
        let trail := block_len - lead - bytes in
        let f := map_erase block_start (free_blocks_ a) in
        let f := if 0 <? lead then map_emplace block_start lead f else f in
        let f := if 0 <? trail then map_emplace (u64 (aligned + bytes)) trail f else f in
        (u64 (base_ a + aligned),
         mkArena (base_ a) (size_ a) f (<[aligned := bytes]> (live_blocks_ a))
           (u64 (in_use_bytes_ a + bytes)))
    end.

Definition owns (ptr : Z) (a : HeapArena) : bool :=
  (base_ a <=? ptr) && (ptr <? u64 (base_ a + size_ a)).

Definition insert_free (offset length : Z) (l : list (Z * Z)) : list (Z * Z) :=
  let '(length, l) :=
    match map_find (u64 (offset + length)) l with
    | Some n => (u64 (length + n), map_erase (u64 (offset + length)) l)
    | None => (length, l)
    end in
  match map_prev offset l with
  | Some (s, n) =>
      if u64 (s + n) =? offset then map_emplace s (u64 (length + n)) (map_erase s l)
      else map_emplace offset length l
  | None => map_emplace offset length l
  end.

Definition arena_deallocate (ptr : Z) (a : HeapArena) : HeapArena :=
  if (ptr =? 0) || negb (owns ptr a) then a
  else
    let offset := u64 (ptr - base_ a) in
    match live_blocks_ a !! offset with
    | None => a
    | Some length =>
        mkArena (base_ a) (size_ a) (insert_free offset length (free_blocks_ a))
          (delete offset (live_blocks_ a)) (u64 (in_use_bytes_ a - length))
    end.

Definition block_size (ptr : Z) (a : HeapArena) : Z :=
  if (ptr =? 0) || negb (owns ptr a) then 0
  else default 0 (live_blocks_ a !! u64 (ptr - base_ a)).

Record arena_stats := mkArenaStats {
  st_in_use_bytes : Z;
  st_free_bytes : Z;
  st_live_blocks : Z;
  st_largest_free_block : Z
}.

Definition stats (a : HeapArena) : arena_stats :=
  mkArenaStats (in_use_bytes_ a)
    (foldl (fun n e => u64 (n + e.2)) 0 (free_blocks_ a))
    (Z.of_nat (size (live_blocks_ a)))
    (foldl (fun n e => Z.max n e.2) 0 (free_blocks_ a)).

(** ** Ordered lists of blocks *)

(** [e] ends strictly before [e'] starts: two blocks that do not even touch. *)
Definition before (e e' : Z * Z) : Prop := e.1 + e.2 < e'.1.

Definition gapped (l : list (Z * Z)) : Prop := StronglySorted before l /\ Forall (fun e => 0 < e.2) l.

Definition total (l : list (Z * Z)) : Z := foldr (fun e n => e.2 + n) 0 l.

Lemma gapped_pair l e e' : gapped l -> e ∈ l -> e' ∈ l -> e = e' \/ before e e' \/ before e' e.
Proof.
  intros [Hs _]. induction Hs as [|x l _ IH Hx]; [by intros ?%not_elem_of_nil|].
  rewrite Forall_forall in Hx. rewrite !elem_of_cons. naive_solver.
Qed.

Lemma gapped_key l s n n' : gapped l -> (s, n) ∈ l -> (s, n') ∈ l -> n = n'.
Proof.
  intros Hg H1 H2. destruct Hg as [Hs Hp]. rewrite Forall_forall in Hp.
  pose proof (Hp _ H1). pose proof (Hp _ H2).
  destruct (gapped_pair l (s, n) (s, n')) as [?|[Hb|Hb]]; try done;
    [by rewrite <- Forall_forall in Hp|congruence|unfold before in Hb; cbn in *; lia..].
Qed.

Lemma map_find_spec l k n : gapped l -> map_find k l = Some n <-> (k, n) ∈ l.
Proof.
  intros Hg. split.
  - clear Hg. induction l as [|[k' v] l IH]; cbn; [done|].
    destruct (Z.eqb_spec k k'); [intros [= <-]; subst; left|]. intros H. right. auto.
  - intros Hin. assert (exists n', map_find k l = Some n' /\ (k, n') ∈ l) as (n' & Hf & Hin').
    { clear Hg. induction l as [|[k' v] l IH]; [by apply not_elem_of_nil in Hin|]. cbn.
      destruct (Z.eqb_spec k k') as [->|Hne]; [exists v; split; [done|left]|].
      apply elem_of_cons in Hin as [[= -> ->]|Hin]; [done|]. destruct (IH Hin) as (n' & ? & ?).
      exists n'. split; [done|by right]. }
    by rewrite (gapped_key l k n n').
Qed.

Lemma elem_of_emplace l k v e :
  (forall x, x ∈ l -> x.1 <> k) -> e ∈ map_emplace k v l <-> e = (k, v) \/ e ∈ l.
Proof.
  induction l as [|[k' v'] l IH]; intros Hk; cbn; [set_solver|].
  destruct (Z.ltb_spec k k'); [set_solver|].
  destruct (Z.eqb_spec k k') as [->|]; [by destruct (Hk (k', v')); [left|]|].
  rewrite !elem_of_cons, IH; [naive_solver|]. intros x Hx. apply Hk. by right.
Qed.

Lemma gapped_emplace l k v :
  gapped l -> 0 < v -> (forall x, x ∈ l -> before x (k, v) \/ before (k, v) x) ->
  gapped (map_emplace k v l).
Proof.
  intros [Hs Hp] Hv. induction Hs as [|[k' v'] l Hs IH Hx]; intros Hb; cbn.
  { split; repeat constructor. done. }
  apply Forall_cons in Hp as [Hp0 Hp]. cbn in Hp0.
  assert (Hk : before (k', v') (k, v) \/ before (k, v) (k', v')) by (apply Hb; left).
  rewrite Forall_forall in Hx.
  assert (Hb' : forall x, x ∈ l -> before x (k, v) \/ before (k, v) x) by (intros; apply Hb; by right).
  unfold before in Hk. cbn in Hk. destruct (Z.ltb_spec k k').
  - assert (Hk1 : before (k, v) (k', v')) by (unfold before; cbn; lia).
    split; [|by repeat constructor]. constructor; [by constructor; [|apply Forall_forall]|].
    constructor; [done|]. apply Forall_forall. intros x Hin. specialize (Hx x Hin).
    unfold before in *. cbn in *. lia.
  - destruct (Z.eqb_spec k k'); [lia|]. destruct (IH Hp Hb') as [IHs IHp].
    split; [|by constructor]. constructor; [done|]. apply Forall_forall. intros x Hin.
    apply elem_of_emplace in Hin as [->|Hin]; [unfold before; cbn; lia|auto|].
    intros y Hy E. specialize (Hx y Hy). destruct (Hb' y Hy) as [Hy'|Hy']; unfold before in *; cbn in *; [|lia].
    rewrite Forall_forall in Hp. specialize (Hp y Hy). cbn in Hp. lia.
Qed.

Lemma sorted_filter P `{forall e, Decision (P e)} l :
  StronglySorted before l -> StronglySorted before (filter P l).
Proof.
  intros Hs. induction Hs as [|x l _ IH Hx]; [constructor|].
  rewrite filter_cons. case_decide; [|done]. constructor; [done|].
  rewrite Forall_forall in *. intros y [_ Hy]%list_elem_of_filter. auto.
Qed.

Lemma gapped_erase l k : gapped l -> gapped (map_erase k l).
Proof.
  intros [Hs Hp]. split; [by apply sorted_filter|].
  rewrite Forall_forall in *. intros y [_ Hy]%list_elem_of_filter. auto.
Qed.

Lemma sorted_last l x y : StronglySorted before l -> last l = Some x -> y ∈ l -> y = x \/ before y x.
Proof.
  intros Hs. induction Hs as [|z l _ IH Hz]; [by intros ? ?%not_elem_of_nil|].
  rewrite elem_of_cons, last_cons. rewrite Forall_forall in Hz. destruct (last l) as [x'|] eqn:E.
  - intros [= <-] [->|Hy]; [right|by apply IH]. apply Hz. by apply last_Some_elem_of.
  - apply last_None in E as ->. intros [= <-] [->|Hy]; [by left|by apply not_elem_of_nil in Hy].
Qed.

Lemma total_emplace l k v : (forall x, x ∈ l -> x.1 <> k) -> total (map_emplace k v l) = total l + v.
Proof.
  induction l as [|[k' v'] l IH]; intros Hk; cbn; [lia|].
  destruct (Z.ltb_spec k k'); [cbn; lia|].
  destruct (Z.eqb_spec k k') as [->|]; [by destruct (Hk (k', v')); [left|]|].
  cbn. unfold total in IH. rewrite IH; [lia|]. intros x Hx. apply Hk. by right.
Qed.

Lemma total_erase l k n : gapped l -> (k, n) ∈ l -> total (map_erase k l) = total l - n.
Proof.
  intros [Hs Hp] Hin. induction Hs as [|[k' v] l Hs IH Hx]; [by apply not_elem_of_nil in Hin|].
  apply Forall_cons in Hp as [Hp0 Hp]. cbn in Hp0. rewrite Forall_forall in Hx.
  unfold map_erase. rewrite filter_cons. apply elem_of_cons in Hin as [[= -> ->]|Hin].
  - cbn [fst]. rewrite decide_False by tauto. cbn.
    assert (filter (fun e : Z * Z => e.1 <> k') l = l) as ->; [|unfold total; lia].
    clear -Hx Hp0. induction l as [|y l IH]; [done|]. rewrite filter_cons, decide_True.
    + f_equal. apply IH. intros z Hz. apply Hx. by right.
    + specialize (Hx y ltac:(left)). unfold before in Hx. cbn in Hx. lia.
  - specialize (Hx _ Hin) as Hb. unfold before in Hb. cbn in Hb.
    cbn [fst]. rewrite decide_True by lia. cbn. fold (map_erase k l). unfold total in IH. rewrite IH by done. lia.
Qed.

Lemma map_prev_spec l k s n : map_prev k l = Some (s, n) -> (s, n) ∈ l /\ s < k.
Proof.
  unfold map_prev. intros H. apply last_Some_elem_of in H. by apply list_elem_of_filter in H as [? ?].
Qed.

(** The block that ends at [k] is the one before [k]. *)
Lemma map_prev_ends l k s n : gapped l -> (s, n) ∈ l -> s + n = k -> map_prev k l = Some (s, n).
Proof.
  intros Hg Hin Hk. assert (Hs : s < k).
  { destruct Hg as [_ Hp]. rewrite Forall_forall in Hp. specialize (Hp _ Hin). cbn in Hp. lia. }
  destruct (map_prev k l) as [[s' n']|] eqn:E.
  - destruct (map_prev_spec _ _ _ _ E) as [Hin' Hlt].
    unfold map_prev in E. eapply (sorted_last _ _ (s, n)) in E as [->|Hb]; [done|..].
    + unfold before in Hb. cbn in Hb. lia.
    + apply sorted_filter, Hg.
    + by apply list_elem_of_filter.
  - unfold map_prev in E. apply last_None in E.
    assert (Hf : (s, n) ∈ filter (fun e => e.1 < k) l) by (by apply list_elem_of_filter).
    rewrite E in Hf. by apply not_elem_of_nil in Hf.
Qed.

(** ** Alignment *)

(** [align_up] is the next multiple, or 0 when that is past the address space. *)
Lemma align_up_spec v k :
  0 <= v < U64 -> 0 <= k < 64 ->
  (v + 2 ^ k - 1 < U64 /\ v <= align_up v (2 ^ k) < v + 2 ^ k /\ align_up v (2 ^ k) mod 2 ^ k = 0) \/
  (U64 <= v + 2 ^ k - 1 /\ align_up v (2 ^ k) = 0).
Proof.
  intros Hv Hk. assert (Hp : 0 < 2 ^ k) by (apply Z.pow_pos_nonneg; lia).
  assert (Hle : 2 ^ k <= 2 ^ 63) by (apply Z.pow_le_mono_r; lia).
  unfold align_up. rewrite (u64_small (2 ^ k - 1)) by (unfold U64; lia).
  rewrite land_lnot_mask by (done || apply u64_range).
  destruct (Z.lt_ge_cases (v + 2 ^ k - 1) U64) as [Hlt|Hge]; [left|right].
  - rewrite u64_small by lia. pose proof (Z.mod_pos_bound (v + (2 ^ k - 1)) (2 ^ k) Hp).
    split; [lia|]. split; [lia|]. rewrite Zminus_mod_idemp_r. by rewrite Z.sub_diag.
  - split; [done|]. assert (Hu : u64 (v + (2 ^ k - 1)) = v + 2 ^ k - 1 - U64).
    { unfold u64. symmetry. apply Z.mod_unique_pos with 1; unfold U64 in *; lia. }
    rewrite Hu, Z.mod_small by lia. lia.
Qed.

(** A multiple of the alignment at or above [v] is at or above [align_up v]. *)
Lemma multiple_above v y x p : 0 < p -> v <= y < v + p -> y mod p = 0 -> v <= x -> x mod p = 0 -> y <= x.
Proof.
  intros Hp Hy Hym Hx Hxm. apply Z.mod_divide in Hym as [a ->]; [|lia].
  apply Z.mod_divide in Hxm as [b ->]; [|lia]. destruct (Z.le_gt_cases a b); nia.
Qed.

Section fit.
Context (base bytes alignment k : Z).
Context (Hb : 0 < base < U64) (Hn : 0 < bytes < U64) (Hk : 0 <= k < 64) (Ha : alignment = 2 ^ k).

(** One block of the scan. *)
Lemma fit_block s n :
  0 <= s -> 0 < n -> base + s + n <= U64 ->
  let aligned := u64 (align_up (u64 (base + s)) alignment - base) in
  let lead := u64 (aligned - s) in
  if (n <? lead) || (n - lead <? bytes)
  then forall x, s <= x -> x + bytes <= s + n -> (base + x) mod alignment <> 0
  else aligned = s + lead /\ 0 <= lead /\ lead + bytes <= n /\ (base + aligned) mod alignment = 0.
Proof.
  intros Hs Hpos Hend. cbv zeta. subst alignment. assert (Hp : 0 < 2 ^ k) by (apply Z.pow_pos_nonneg; lia).
  rewrite (u64_small (base + s)) by lia.
  destruct (align_up_spec (base + s) k) as [(Hlt & Hr & Hm)|[Hge H0]]; [lia|done|..].
  - set (y := align_up (base + s) (2 ^ k)) in *. rewrite (u64_small (y - base)) by lia.
    rewrite (u64_small (y - base - s)) by lia.
    destruct (Z.ltb_spec n (y - base - s)); [|destruct (Z.ltb_spec (n - (y - base - s)) bytes)]; cbn [orb].
    1, 2: intros x Hx Hxe Hxm; pose proof (multiple_above (base + s) y (base + x) (2 ^ k)); lia.
    split_and!; try lia. by replace (base + (y - base)) with y by lia.
  - rewrite H0. assert (Hu : u64 (0 - base) = U64 - base).
    { unfold u64. symmetry. apply Z.mod_unique_pos with (-1); lia. }
    rewrite Hu, (u64_small (U64 - base - s)) by lia.
    assert (Hif : (n <? U64 - base - s) || (n - (U64 - base - s) <? bytes) = true).
    { apply orb_true_iff. rewrite !Z.ltb_lt. lia. }
    rewrite Hif. intros x Hx Hxe Hxm. apply Z.mod_divide in Hxm as [q Hq]; [|lia].
    assert (HU : U64 = 2 ^ (64 - k) * 2 ^ k) by (rewrite <- Z.pow_add_r by lia; unfold U64; f_equal; lia).
    assert (base + x < U64) by lia. assert (q < 2 ^ (64 - k)) by nia. nia.
Qed.

Lemma first_fit_Some l s n al :
  (forall e, e ∈ l -> 0 <= e.1 /\ 0 < e.2 /\ base + e.1 + e.2 <= U64) ->
  first_fit base bytes alignment l = Some (s, n, al) ->
  (s, n) ∈ l /\ exists lead, u64 (al - s) = lead /\ al = s + lead /\ 0 <= lead /\ lead + bytes <= n /\
    (base + al) mod alignment = 0.
Proof.
  induction l as [|[s' n'] l IH]; intros Hl; cbn [first_fit]; [done|].
  destruct (Hl (s', n')) as (H1 & H2 & H3); [left|]. cbn in H1, H2, H3.
  pose proof (fit_block s' n' H1 H2 H3) as Hf. cbv zeta in Hf.
  destruct (_ || _).
  - intros H. destruct IH as [Hin H']; [intros e He; apply Hl; by right|done|]. split; [by right|done].
  - intros [= <- <- <-]. split; [left|]. eauto.
Qed.

Lemma first_fit_None l :
  (forall e, e ∈ l -> 0 <= e.1 /\ 0 < e.2 /\ base + e.1 + e.2 <= U64) ->
  first_fit base bytes alignment l = None ->
  forall s n x, (s, n) ∈ l -> s <= x -> x + bytes <= s + n -> (base + x) mod alignment <> 0.
Proof.
  induction l as [|[s' n'] l IH]; intros Hl; cbn [first_fit]; [by intros _ ? ? ? ?%not_elem_of_nil|].
  destruct (Hl (s', n')) as (H1 & H2 & H3); [left|]. cbn in H1, H2, H3.
  pose proof (fit_block s' n' H1 H2 H3) as Hf. cbv zeta in Hf. destruct (_ || _); [|done].
  intros H s n x [[= -> ->]|Hin]%elem_of_cons; [apply Hf|].
  apply IH; [intros e He; apply Hl; by right|done|done].
Qed.
End fit.

(** ** The invariant *)

Definition live_total (m : gmap Z Z) : Z := map_fold (fun _ n t => t + n) 0 m.

(** Two blocks share no byte. *)
Definition disjoint_blocks (s n s' n' : Z) : Prop := s + n <= s' \/ s' + n' <= s.

Record arena_wf (a : HeapArena) : Prop := {
  aw_range : 0 < base_ a /\ 0 < size_ a /\ base_ a + size_ a < U64;
  aw_gapped : gapped (free_blocks_ a);
  aw_free : forall s n, (s, n) ∈ free_blocks_ a -> 0 <= s /\ s + n <= size_ a;
  aw_live : forall s n, live_blocks_ a !! s = Some n -> 0 <= s /\ 0 < n /\ s + n <= size_ a;
  aw_apart : forall s n s' n', (s, n) ∈ free_blocks_ a -> live_blocks_ a !! s' = Some n' ->
    disjoint_blocks s n s' n';
  aw_live_apart : forall s n s' n', live_blocks_ a !! s = Some n -> live_blocks_ a !! s' = Some n' ->
    s <> s' -> disjoint_blocks s n s' n';
  aw_cover : forall x, 0 <= x < size_ a ->
    (exists s n, (s, n) ∈ free_blocks_ a /\ s <= x < s + n) \/
    (exists s n, live_blocks_ a !! s = Some n /\ s <= x < s + n);
  aw_in_use : in_use_bytes_ a = live_total (live_blocks_ a);
  aw_total : total (free_blocks_ a) + in_use_bytes_ a = size_ a
}.

Lemma gapped_pos l s n : gapped l -> (s, n) ∈ l -> 0 < n.
Proof. intros [_ Hp] Hin. rewrite Forall_forall in Hp. by apply (Hp (s, n)). Qed.

Lemma elem_of_erase l k e : e ∈ map_erase k l <-> e ∈ l /\ e.1 <> k.
Proof. unfold map_erase. rewrite list_elem_of_filter. naive_solver. Qed.

Lemma live_total_insert m k v : m !! k = None -> live_total (<[k := v]> m) = live_total m + v.
Proof. intros Hk. unfold live_total. by rewrite map_fold_insert_L by (done || intros; lia). Qed.

Lemma live_total_delete m k v : m !! k = Some v -> live_total (delete k m) = live_total m - v.
Proof.
  intros Hk. rewrite <- (insert_delete_id m k v) at 2 by done.
  rewrite live_total_insert by apply lookup_delete_eq. lia.
Qed.

Lemma total_nonneg l : gapped l -> 0 <= total l.
Proof.
  intros [_ Hp]. induction Hp as [|e l He _ IH]; cbn; [done|]. unfold total in IH. lia.
Qed.

(** Taking [aligned, aligned+bytes) out of the free block [(s, n)]. *)
Definition carve (s n al bytes : Z) (l : list (Z * Z)) : list (Z * Z) :=
  let f := map_erase s l in
  let f := if 0 <? al - s then map_emplace s (al - s) f else f in
  if 0 <? n - (al - s) - bytes then map_emplace (al + bytes) (n - (al - s) - bytes) f else f.

Lemma carve_spec s n al bytes l :
  gapped l -> (s, n) ∈ l -> s <= al -> 0 < bytes -> al + bytes <= s + n ->
  gapped (carve s n al bytes l) /\ total (carve s n al bytes l) = total l - bytes /\
  forall e, e ∈ carve s n al bytes l <->
    (e ∈ l /\ e.1 <> s) \/ (e = (s, al - s) /\ s < al) \/
    (e = (al + bytes, s + n - (al + bytes)) /\ al + bytes < s + n).
Proof.
  intros Hg Hin Hal Hby Hend. pose proof (gapped_pos _ _ _ Hg Hin) as Hn.
  assert (Hfar : forall e, e ∈ l -> e.1 <> s -> before e (s, n) \/ before (s, n) e).
  { intros e He Hne. destruct (gapped_pair l e (s, n) Hg He Hin) as [->|?]; [done|tauto]. }
  set (f := map_erase s l). assert (Hf : gapped f) by (by apply gapped_erase).
  assert (Hft : total f = total l - n) by (by apply total_erase).
  set (f2 := if 0 <? al - s then map_emplace s (al - s) f else f).
  assert (H2 : gapped f2 /\ total f2 = total l - n + (al - s) /\
    forall e, e ∈ f2 <-> (e ∈ l /\ e.1 <> s) \/ (e = (s, al - s) /\ s < al)).
  { unfold f2. destruct (Z.ltb_spec 0 (al - s)).
    - assert (Hk : forall x, x ∈ f -> x.1 <> s) by (intros x Hx; by apply elem_of_erase in Hx as [_ ?]).
      split_and!.
      + apply gapped_emplace; [done|lia|]. intros x [Hx Hne]%elem_of_erase.
        destruct (Hfar x Hx Hne); [left|right]; unfold before in *; cbn in *; lia.
      + rewrite total_emplace by done. lia.
      + intros e. rewrite elem_of_emplace by done. unfold f. rewrite elem_of_erase. naive_solver lia.
    - split_and!; [done|lia|]. intros e. unfold f. rewrite elem_of_erase. naive_solver lia. }
  destruct H2 as (Hg2 & Ht2 & He2). unfold carve. fold f. fold f2.
  destruct (Z.ltb_spec 0 (n - (al - s) - bytes)).
  - replace (n - (al - s) - bytes) with (s + n - (al + bytes)) in * by lia.
    assert (Hnew : forall x, x ∈ f2 -> before x (al + bytes, s + n - (al + bytes)) \/ before (al + bytes, s + n - (al + bytes)) x).
    { intros x [[Hx Hne]|[-> ?]]%He2.
      - destruct (Hfar x Hx Hne); [left|right]; unfold before in *; cbn in *; lia.
      - left. unfold before. cbn. lia. }
    assert (Hk : forall x, x ∈ f2 -> x.1 <> al + bytes).
    { intros [x1 x2] Hx. pose proof (gapped_pos _ _ _ Hg2 Hx). destruct (Hnew _ Hx); unfold before in *; cbn in *; lia. }
    split_and!; [by apply gapped_emplace; [|lia|]|rewrite total_emplace by done; lia|].
    intros e. rewrite elem_of_emplace, He2 by done. naive_solver lia.
  - split_and!; [done|lia|]. intros e. rewrite He2. naive_solver lia.
Qed.

Lemma arena_carve_wf a s n al bytes :
  arena_wf a -> (s, n) ∈ free_blocks_ a -> s <= al -> 0 < bytes -> al + bytes <= s + n ->
  arena_wf (mkArena (base_ a) (size_ a) (carve s n al bytes (free_blocks_ a))
    (<[al := bytes]> (live_blocks_ a)) (in_use_bytes_ a + bytes)) /\ live_blocks_ a !! al = None.
Proof.
  intros Hwf Hin Hal Hby Hend. pose proof (aw_gapped _ Hwf) as Hg.
  destruct (aw_free _ Hwf _ _ Hin) as [Hs0 Hsn].
  destruct (carve_spec s n al bytes _ Hg Hin Hal Hby Hend) as (Hg' & Ht & He).
  assert (Hfresh : live_blocks_ a !! al = None).
  { destruct (live_blocks_ a !! al) as [m|] eqn:E; [|done].
    destruct (aw_live _ Hwf _ _ E). destruct (aw_apart _ Hwf _ _ _ _ Hin E); lia. }
  assert (Hfar : forall e, e ∈ free_blocks_ a -> e.1 <> s -> before e (s, n) \/ before (s, n) e).
  { intros e Hx Hne. destruct (gapped_pair _ e (s, n) Hg Hx Hin) as [->|?]; [done|tauto]. }
  split; [|done]. split; cbn [base_ size_ free_blocks_ live_blocks_ in_use_bytes_].
  - apply Hwf.
  - done.
  - intros s1 n1 [[H1 _]|[[[= -> ->] ?]|[[= -> ->] ?]]]%He; [by apply (aw_free _ Hwf)|lia..].
  - intros s1 n1 [[<- <-]|[_ H1]]%lookup_insert_Some; [lia|by apply (aw_live _ Hwf)].
  - intros s1 n1 s2 n2 H1 H2. apply He in H1. apply lookup_insert_Some in H2 as [[<- <-]|[Hne H2]].
    + unfold disjoint_blocks. destruct H1 as [[H1 Hne]|[[[= -> ->] ?]|[[= -> ->] ?]]]; [|lia..].
      destruct (Hfar _ H1 Hne); unfold before in *; cbn in *; lia.
    + destruct H1 as [[H1 _]|[[[= -> ->] ?]|[[= -> ->] ?]]]; [by apply (aw_apart _ Hwf)|..];
        destruct (aw_apart _ Hwf _ _ _ _ Hin H2); unfold disjoint_blocks; destruct (aw_live _ Hwf _ _ H2); lia.
  - intros s1 n1 s2 n2 [[<- <-]|[Hne1 H1]]%lookup_insert_Some [[<- <-]|[Hne2 H2]]%lookup_insert_Some Hd; [done|..].
    + destruct (aw_apart _ Hwf _ _ _ _ Hin H2); unfold disjoint_blocks; destruct (aw_live _ Hwf _ _ H2); lia.
    + destruct (aw_apart _ Hwf _ _ _ _ Hin H1); unfold disjoint_blocks; destruct (aw_live _ Hwf _ _ H1); lia.
    + by apply (aw_live_apart _ Hwf).
  - intros x Hx. destruct (decide (al <= x < al + bytes)) as [Hin'|Hout].
    { right. exists al, bytes. by rewrite lookup_insert_eq. }
    destruct (aw_cover _ Hwf x Hx) as [(s1 & n1 & H1 & Hx1)|(s1 & n1 & H1 & Hx1)].
    + left. destruct (decide (s1 = s)) as [->|Hne]; [|exists s1, n1; rewrite He; split; [by left|done]].
      assert (n1 = n) as -> by (by apply (gapped_key (free_blocks_ a) s)).
      destruct (decide (x < al)).
      * exists s, (al - s). rewrite He. split; [right; left|]; split; (done || lia).
      * exists (al + bytes), (s + n - (al + bytes)). rewrite He. split; [right; right|]; split; (done || lia).
    + right. exists s1, n1. split; [|done]. rewrite lookup_insert_ne; [done|]. congruence.
  - rewrite live_total_insert by done. by rewrite (aw_in_use _ Hwf).
  - rewrite Ht. pose proof (aw_total _ Hwf). lia.
Qed.

(** ** Freeing *)

(** The bytes a list of blocks holds. *)
Definition covered (l : list (Z * Z)) (x : Z) : Prop := exists s n, (s, n) ∈ l /\ s <= x < s + n.

(** A block on its way into the list: apart from every block there. *)
Record incoming (o len : Z) (l : list (Z * Z)) : Prop := {
  inc_gapped : gapped l;
  inc_pos : 0 <= o /\ 0 < len /\ o + len < U64;
  inc_apart : forall s n, (s, n) ∈ l -> 0 <= s /\ s + n < U64 /\ disjoint_blocks s n o len
}.

(** Joining the incoming block with a neighbour taken out of the list. *)
Lemma absorb o len l s n lo :
  incoming o len l -> (s, n) ∈ l -> (s = o + len /\ lo = o) \/ (s + n = o /\ lo = s) ->
  incoming lo (len + n) (map_erase s l) /\
  total (map_erase s l) + (len + n) = total l + len /\
  (forall x, covered (map_erase s l) x \/ lo <= x < lo + (len + n) <-> covered l x \/ o <= x < o + len).
Proof.
  intros [Hg Hp Ha] Hin Hadj. pose proof (gapped_pos _ _ _ Hg Hin) as Hn.
  destruct (Ha _ _ Hin) as (Hs0 & Hsn & _). split_and!.
  - split; [by apply gapped_erase|lia|]. intros s1 n1 [H1 Hne]%elem_of_erase.
    destruct (Ha _ _ H1) as (? & ? & Hd). split_and!; [done..|]. unfold disjoint_blocks in *.
    destruct (gapped_pair l (s1, n1) (s, n) Hg H1 Hin) as [[= -> ->]|[Hb|Hb]]; [done|..];
      unfold before in Hb; cbn in Hb; pose proof (gapped_pos _ _ _ Hg H1); lia.
  - rewrite (total_erase l s n) by done. lia.
  - intros x. split.
    + intros [(s1 & n1 & [H1 _]%elem_of_erase & Hx)|Hx]; [left; by exists s1, n1|].
      destruct (decide (s <= x < s + n)); [left; by exists s, n|right; lia].
    + intros [(s1 & n1 & H1 & Hx)|Hx]; [|right; lia].
      destruct (decide (s1 = s)) as [->|Hne].
      * assert (n1 = n) as -> by (by apply (gapped_key l s)). right. lia.
      * left. exists s1, n1. by rewrite elem_of_erase.
Qed.

Lemma map_find_None l k : gapped l -> map_find k l = None -> forall n, (k, n) ∉ l.
Proof. intros Hg H n Hin. apply (map_find_spec l k n Hg) in Hin. congruence. Qed.

(** The last step: nothing touches the block any more. *)
Lemma settle o len l :
  incoming o len l -> (forall n, (o + len, n) ∉ l) -> (forall s n, (s, n) ∈ l -> s + n <> o) ->
  gapped (map_emplace o len l) /\ total (map_emplace o len l) = total l + len /\
  (forall x, covered (map_emplace o len l) x <-> covered l x \/ o <= x < o + len).
Proof.
  intros [Hg Hp Ha] Hnext Hprev.
  assert (Hb : forall x, x ∈ l -> before x (o, len) \/ before (o, len) x).
  { intros [s n] Hin. destruct (Ha _ _ Hin) as (_ & _ & [Hd|Hd]); unfold before; cbn.
    - specialize (Hprev _ _ Hin). lia.
    - destruct (decide (s = o + len)) as [->|]; [by destruct (Hnext n)|lia]. }
  assert (Hk : forall x, x ∈ l -> x.1 <> o).
  { intros [s n] Hin. pose proof (gapped_pos _ _ _ Hg Hin). destruct (Hb _ Hin); unfold before in *; cbn in *; lia. }
  split_and!; [apply gapped_emplace; [done|lia|done]|by apply total_emplace|].
  intros x. unfold covered. setoid_rewrite elem_of_emplace; [|done]. split.
  - intros (s & n & [[= -> ->]|Hin] & Hx); [by right|left; eauto].
  - intros [(s & n & Hin & Hx)|Hx]; [exists s, n; auto|exists o, len; auto].
Qed.

Lemma insert_free_spec o len l :
  incoming o len l ->
  gapped (insert_free o len l) /\ total (insert_free o len l) = total l + len /\
  (forall x, covered (insert_free o len l) x <-> covered l x \/ o <= x < o + len).
Proof.
  intros Hi. pose proof (inc_pos _ _ _ Hi) as Hp. unfold insert_free. rewrite (u64_small (o + len)) by lia.
  set (p := match map_find (o + len) l with Some n => _ | None => _ end).
  assert (Hstage : exists len1 l1, p = (len1, l1) /\ incoming o len1 l1 /\
    (forall n, (o + len1, n) ∉ l1) /\ total l1 + len1 = total l + len /\
    (forall x, covered l1 x \/ o <= x < o + len1 <-> covered l x \/ o <= x < o + len)).
  { unfold p. destruct (map_find (o + len) l) as [n|] eqn:Ef.
    - apply (map_find_spec l _ _ (inc_gapped _ _ _ Hi)) in Ef.
      destruct (absorb o len l (o + len) n o Hi Ef) as (Hi1 & Ht & Hc); [by left|].
      pose proof (inc_pos _ _ _ Hi1). rewrite u64_small by (pose proof (gapped_pos _ _ _ (inc_gapped _ _ _ Hi) Ef); lia).
      eexists _, _. split; [done|]. split_and!; try done.
      intros n1 [H1 Hne]%elem_of_erase.
      destruct (gapped_pair l (o + (len + n), n1) (o + len, n) (inc_gapped _ _ _ Hi) H1 Ef) as [[=]|[Hb|Hb]];
        [cbn in Hne; lia|unfold before in Hb; cbn in Hb; pose proof (gapped_pos _ _ _ (inc_gapped _ _ _ Hi) H1);
         pose proof (gapped_pos _ _ _ (inc_gapped _ _ _ Hi) Ef); lia..].
    - exists len, l. split_and!; try done. by apply map_find_None; [apply Hi|]. }
  destruct Hstage as (len1 & l1 & -> & Hi1 & Hnext & Ht1 & Hc1).
  pose proof (inc_gapped _ _ _ Hi1) as Hg1. pose proof (inc_pos _ _ _ Hi1) as Hp1.
  destruct (map_prev o l1) as [[s n]|] eqn:Epr.
  - destruct (map_prev_spec _ _ _ _ Epr) as [Hin Hlt]. destruct (inc_apart _ _ _ Hi1 _ _ Hin) as (Hs0 & Hsn & Hd).
    pose proof (gapped_pos _ _ _ Hg1 Hin) as Hn. rewrite (u64_small (s + n)) by lia.
    destruct (Z.eqb_spec (s + n) o) as [Hadj|Hnadj].
    + destruct (absorb o len1 l1 s n s Hi1 Hin) as (Hi2 & Ht2 & Hc2); [by right|].
      pose proof (inc_pos _ _ _ Hi2). rewrite (u64_small (len1 + n)) by lia.
      destruct (settle s (len1 + n) (map_erase s l1) Hi2) as (Hg3 & Ht3 & Hc3).
      { intros n1 [H1 _]%elem_of_erase. apply (Hnext n1). by replace (o + len1) with (s + (len1 + n)) by lia. }
      { intros s1 n1 [H1 Hne]%elem_of_erase. destruct (gapped_pair l1 (s1, n1) (s, n) Hg1 H1 Hin) as [[= -> ->]|[Hb|Hb]];
          [done|..]; unfold before in Hb; cbn in Hb; pose proof (gapped_pos _ _ _ Hg1 H1); lia. }
      split_and!; [done|lia|]. intros x. by rewrite Hc3, Hc2.
    + destruct (settle o len1 l1 Hi1 Hnext) as (Hg3 & Ht3 & Hc3).
      { intros s1 n1 H1 He. pose proof (map_prev_ends _ _ _ _ Hg1 H1 He) as He'. rewrite Epr in He'. by simplify_eq. }
      split_and!; [done|lia|]. intros x. by rewrite Hc3.
  - destruct (settle o len1 l1 Hi1 Hnext) as (Hg3 & Ht3 & Hc3).
    { intros s1 n1 H1 He. apply (map_prev_ends _ _ _ _ Hg1 H1) in He. congruence. }
    split_and!; [done|lia|]. intros x. by rewrite Hc3.
Qed.

(** ** The operations keep the invariant *)

Lemma HeapArena_new_wf base size :
  0 < base -> 0 < size -> base + size < U64 -> arena_wf (HeapArena_new base size).
Proof.
  intros Hb Hs Hu. unfold HeapArena_new. destruct (Z.eqb_spec base 0) as [|_], (Z.eqb_spec size 0) as [|_]; try lia. cbn.
  split; cbn; try done.
  - split; repeat constructor. cbn. lia.
  - intros s n [[= -> ->]|?%not_elem_of_nil]%elem_of_cons; [lia|done].
  - intros x Hx. left. exists 0, size. split; [left|lia].
  - lia.
Qed.

Lemma live_total_nonneg m : (forall s n, m !! s = Some n -> 0 < n) -> 0 <= live_total m.
Proof.
  induction m as [|k v m Hk IH] using map_ind; intros Hl; [done|]. rewrite live_total_insert by done.
  assert (0 < v) by (apply (Hl k); by rewrite lookup_insert_eq).
  assert (0 <= live_total m); [|lia]. apply IH.
  intros s n Hm. apply (Hl s). rewrite lookup_insert_ne by congruence. done.
Qed.

Lemma arena_in_use_bound a : arena_wf a -> 0 <= in_use_bytes_ a <= size_ a.
Proof.
  intros Hwf. pose proof (total_nonneg _ (aw_gapped _ Hwf)). pose proof (aw_total _ Hwf).
  rewrite (aw_in_use _ Hwf) in *. split; [|lia].
  apply live_total_nonneg. intros s n Hl. by apply (aw_live _ Hwf) in Hl as (_ & ? & _).
Qed.

(** Whether a request asks for something the arena can place at all. *)
Definition valid_request (bytes alignment : Z) : Prop :=
  0 < bytes < U64 /\ exists k, 0 <= k < 64 /\ alignment = 2 ^ k.

Lemma arena_allocate_spec a bytes alignment :
  arena_wf a -> valid_request bytes alignment ->
  (exists s n al, (s, n) ∈ free_blocks_ a /\ s <= al /\ al + bytes <= s + n /\
     (base_ a + al) mod alignment = 0 /\
     arena_allocate bytes alignment a =
       (base_ a + al, mkArena (base_ a) (size_ a) (carve s n al bytes (free_blocks_ a))
          (<[al := bytes]> (live_blocks_ a)) (in_use_bytes_ a + bytes))) \/
  (arena_allocate bytes alignment a = (0, a) /\
     forall s n x, (s, n) ∈ free_blocks_ a -> s <= x -> x + bytes <= s + n ->
       (base_ a + x) mod alignment <> 0).
Proof.
  intros Hwf (Hby & k & Hk & Hal). destruct (aw_range _ Hwf) as (Hb & Hsz & Hend).
  assert (Hp2 : Z.land alignment (alignment - 1) = 0).
  { subst. replace (2 ^ k - 1) with (Z.ones k) by (rewrite Z.ones_equiv; lia).
    rewrite Z.land_ones by lia. apply Z_mod_same_full. }
  assert (0 < alignment) by (subst; apply Z.pow_pos_nonneg; lia).
  unfold arena_allocate. destruct (Z.eqb_spec bytes 0) as [|_], (Z.eqb_spec (base_ a) 0) as [|_]; try lia. cbn [orb].
  destruct (Z.eqb_spec alignment 0) as [|_]; [lia|]. rewrite Hp2. cbn [orb negb Z.eqb].
  assert (Hl : forall e, e ∈ free_blocks_ a -> 0 <= e.1 /\ 0 < e.2 /\ base_ a + e.1 + e.2 <= U64).
  { intros [s n] Hin. destruct (aw_free _ Hwf _ _ Hin). pose proof (gapped_pos _ _ _ (aw_gapped _ Hwf) Hin).
    cbn. lia. }
  destruct (first_fit _ _ _ _) as [[[s n] al]|] eqn:Ef; [left|right].
  - apply (first_fit_Some (base_ a) bytes alignment k) in Ef; [|lia|done|done|done|done].
    destruct Ef as (Hin & lead & Hlead & Hal' & Hl0 & Hfit & Hmod). destruct (aw_free _ Hwf _ _ Hin).
    exists s, n, al. split_and!; try done; try lia. unfold carve. rewrite Hlead. replace lead with (al - s) by lia.
    pose proof (arena_in_use_bound a Hwf). pose proof (aw_total _ Hwf).
    rewrite (u64_small (al + bytes)) by lia. rewrite (u64_small (base_ a + al)) by lia.
    rewrite (u64_small (in_use_bytes_ a + bytes)); [done|].
    pose proof (gapped_pos _ _ _ (aw_gapped _ Hwf) Hin).
    pose proof (total_erase _ _ _ (aw_gapped _ Hwf) Hin).
    pose proof (total_nonneg _ (gapped_erase _ s (aw_gapped _ Hwf))). lia.
  - split; [done|]. apply (first_fit_None (base_ a) bytes alignment k); [lia|done..].
Qed.

Lemma owns_iff a p : arena_wf a -> 0 <= p -> owns p a = true <-> base_ a <= p < base_ a + size_ a.
Proof.
  intros Hwf Hp. destruct (aw_range _ Hwf). unfold owns. rewrite u64_small by lia.
  rewrite andb_true_iff, Z.leb_le, Z.ltb_lt. done.
Qed.

Lemma covered_apart l s n s' n' :
  (s, n) ∈ l -> 0 < n -> 0 < n' -> (forall x, covered l x -> ~ s' <= x < s' + n') -> disjoint_blocks s n s' n'.
Proof.
  intros Hin Hn Hn' Hc. unfold disjoint_blocks.
  destruct (decide (s + n <= s' \/ s' + n' <= s)) as [|Hno]; [done|]. exfalso.
  apply (Hc (Z.max s s')); [exists s, n|]; lia || (split; [done|lia]).
Qed.

Lemma arena_deallocate_spec a p :
  arena_wf a -> is_u64 p ->
  let a' := arena_deallocate p a in
  arena_wf a' /\ live_blocks_ a' = delete (p - base_ a) (live_blocks_ a) /\
  base_ a' = base_ a /\ size_ a' = size_ a /\
  (live_blocks_ a !! (p - base_ a) = None -> a' = a).
Proof.
  unfold is_u64. intros Hwf Hu. cbv zeta. destruct (aw_range _ Hwf) as (Hb & Hsz & Hend).
  assert (Hout : ~ (base_ a <= p < base_ a + size_ a) -> live_blocks_ a !! (p - base_ a) = None).
  { intros Hno. destruct (live_blocks_ a !! (p - base_ a)) as [n|] eqn:E; [|done].
    destruct (aw_live _ Hwf _ _ E). lia. }
  unfold arena_deallocate. destruct (owns p a) eqn:Eo.
  2: { assert (Hn : live_blocks_ a !! (p - base_ a) = None).
       { apply Hout. intros Hin. apply (owns_iff a p Hwf) in Hin; [congruence|lia]. }
       rewrite orb_true_r. by rewrite delete_id. }
  apply (owns_iff a p Hwf) in Eo; [|lia]. destruct (Z.eqb_spec p 0) as [|_]; [lia|]. cbn [orb negb].
  rewrite (u64_small (p - base_ a)) by lia.
  destruct (live_blocks_ a !! (p - base_ a)) as [len|] eqn:El; [|by rewrite delete_id].
  split; [|done]. destruct (aw_live _ Hwf _ _ El) as (Ho0 & Hlen & Hoe). set (o := p - base_ a) in *.
  assert (Hi : incoming o len (free_blocks_ a)).
  { split; [apply Hwf|lia|]. intros s n Hin. destruct (aw_free _ Hwf _ _ Hin).
    split_and!; [done|lia|]. by eapply (aw_apart _ Hwf). }
  destruct (insert_free_spec o len _ Hi) as (Hg & Ht & Hc).
  pose proof (arena_in_use_bound a Hwf) as Hin_use.
  assert (Hlt : live_total (delete o (live_blocks_ a)) = live_total (live_blocks_ a) - len)
    by (by apply live_total_delete).
  pose proof (aw_total _ Hwf) as Htot. pose proof (aw_in_use _ Hwf) as Hiu.
  assert (Hln : 0 <= live_total (delete o (live_blocks_ a))).
  { apply live_total_nonneg. intros s n [_ H]%lookup_delete_Some. by apply (aw_live _ Hwf) in H as (_ & ? & _). }
  assert (Hcr : forall x, covered (insert_free o len (free_blocks_ a)) x -> 0 <= x < size_ a).
  { intros x [(s & n & Hin & Hx)|Hx]%Hc; [destruct (aw_free _ Hwf _ _ Hin)|]; lia. }
  split; cbn [base_ size_ free_blocks_ live_blocks_ in_use_bytes_].
  - done.
  - done.
  - intros s n Hin. pose proof (gapped_pos _ _ _ Hg Hin).
    assert (0 <= s < size_ a) by (apply Hcr; exists s, n; split; [done|lia]).
    assert (0 <= s + n - 1 < size_ a) by (apply Hcr; exists s, n; split; [done|lia]). lia.
  - intros s n [_ H]%lookup_delete_Some. by apply (aw_live _ Hwf).
  - intros s n s' n' Hin [Hne H]%lookup_delete_Some. destruct (aw_live _ Hwf _ _ H) as (? & ? & ?).
    eapply covered_apart; [done|by apply (gapped_pos _ _ _ Hg Hin)|done|]. intros x [(s1 & n1 & Hin1 & Hx)|Hx]%Hc Hx'.
    + destruct (aw_apart _ Hwf _ _ _ _ Hin1 H); lia.
    + destruct (aw_live_apart _ Hwf _ _ _ _ El H Hne); lia.
  - intros s n s' n' [_ H1]%lookup_delete_Some [_ H2]%lookup_delete_Some. by apply (aw_live_apart _ Hwf).
  - intros x Hx. destruct (aw_cover _ Hwf x Hx) as [Hf|(s & n & H1 & Hxs)].
    + left. apply Hc. left. exact Hf.
    + destruct (decide (s = o)) as [->|Hne].
      * left. apply Hc. right. assert (n = len) as <- by congruence. lia.
      * right. exists s, n. by rewrite lookup_delete_ne.
  - rewrite Hlt, u64_small by lia. lia.
  - rewrite Ht, u64_small by lia. lia.
Qed.

(** ** Executions *)

Inductive arena_op :=
| ArenaAllocate (bytes alignment : Z)
| ArenaDeallocate (ptr : Z).

Definition arena_exec (op : arena_op) (a : HeapArena) : HeapArena :=
  match op with
  | ArenaAllocate bytes alignment => snd (arena_allocate bytes alignment a)
  | ArenaDeallocate ptr => arena_deallocate ptr a
  end.

(** Arguments are 64-bit values. *)
Definition arena_op_ok (op : arena_op) : Prop :=
  match op with
  | ArenaAllocate bytes alignment => is_u64 bytes /\ is_u64 alignment
  | ArenaDeallocate ptr => is_u64 ptr
  end.

Lemma arena_allocate_invalid a bytes alignment :
  is_u64 bytes -> is_u64 alignment -> ~ valid_request bytes alignment ->
  arena_allocate bytes alignment a = (0, a).
Proof.
  unfold is_u64. intros Hb Ha Hno. unfold arena_allocate.
  destruct (Z.eqb_spec bytes 0) as [|Hb0]; [done|]. destruct (Z.eqb_spec (base_ a) 0) as [|_]; [done|]. cbn [orb].
  destruct (Z.eqb_spec alignment 0) as [|Ha0]; [done|].
  destruct (Z.eqb_spec (Z.land alignment (alignment - 1)) 0) as [Hl|_]; [|done].
  exfalso. apply Hno. split; [lia|]. apply pow2_of_land; [lia|done].
Qed.

Lemma arena_exec_wf a op :
  arena_wf a -> arena_op_ok op ->
  arena_wf (arena_exec op a) /\ base_ (arena_exec op a) = base_ a /\ size_ (arena_exec op a) = size_ a.
Proof.
  intros Hwf Hop. destruct op as [bytes alignment|ptr]; cbn [arena_exec].
  - destruct (decide (bytes = 0)) as [->|Hb]; [done|].
    destruct (decide (alignment = 0 \/ Z.land alignment (alignment - 1) <> 0)) as [Hbad|Hgood].
    + rewrite arena_allocate_invalid; [done|apply Hop..|]. intros (_ & k & Hk & ->).
      destruct Hbad as [Hz|Hz]; [pose proof (Z.pow_pos_nonneg 2 k); lia|]. apply Hz.
      replace (2 ^ k - 1) with (Z.ones k) by (rewrite Z.ones_equiv; lia).
      rewrite Z.land_ones by lia. apply Z_mod_same_full.
    + destruct Hop as [Hu1 Hu2]. unfold is_u64 in *.
      assert (Hv : valid_request bytes alignment).
      { split; [lia|]. apply pow2_of_land; [lia|]. destruct (decide (Z.land alignment (alignment - 1) = 0)); tauto. }
      destruct (arena_allocate_spec a bytes alignment Hwf Hv) as [(s & n & al & Hin & H1 & H2 & _ & ->)|[-> _]]; [|done].
      split; [|done]. by apply arena_carve_wf; [..|lia|].
  - destruct (arena_deallocate_spec a ptr Hwf Hop) as (Hwf' & _ & Hb & Hs & _). done.
Qed.

Inductive arena_reachable (base size : Z) : HeapArena -> Prop :=
| arena_reachable_new : arena_reachable base size (HeapArena_new base size)
| arena_reachable_step a op : arena_reachable base size a -> arena_op_ok op ->
    arena_reachable base size (arena_exec op a).

Lemma arena_reachable_wf base size a :
  0 < base -> 0 < size -> base + size < U64 -> arena_reachable base size a ->
  arena_wf a /\ base_ a = base /\ size_ a = size.
Proof.
  intros Hb Hs Hu Hr. induction Hr as [|a op _ (IH & IHb & IHs) Hop].
  - split; [by apply HeapArena_new_wf|done].
  - destruct (arena_exec_wf a op IH Hop) as (Hwf & H1 & H2). split; [done|]. split; congruence.
Qed.

(** With nothing live the free list is one block. *)
Lemma arena_empty_coalesced a :
  arena_wf a -> live_blocks_ a = ∅ -> free_blocks_ a = [(0, size_ a)].
Proof.
  intros Hwf He. destruct (aw_range _ Hwf) as (Hb & Hs & _). pose proof (aw_gapped _ Hwf) as Hg.
  assert (Hc : forall x, 0 <= x < size_ a -> covered (free_blocks_ a) x).
  { intros x Hx. destruct (aw_cover _ Hwf x Hx) as [Hf|(s & n & Hl & _)]; [exact Hf|].
    by rewrite He, lookup_empty in Hl. }
  destruct (Hc 0) as (s & n & Hin & Hx); [lia|]. destruct (aw_free _ Hwf _ _ Hin) as [Hs0 Hsn].
  assert (s = 0) as -> by lia.
  assert (n = size_ a) as ->.
  { destruct (decide (n = size_ a)) as [|Hne]; [done|]. exfalso.
    destruct (Hc n) as (s' & n' & Hin' & Hx'); [lia|].
    destruct (gapped_pair _ (0, n) (s', n') Hg Hin Hin') as [[= <- <-]|[Hbf|Hbf]];
      [|unfold before in Hbf; cbn in Hbf..]; lia. }
  assert (Hall : forall e, e ∈ free_blocks_ a -> e = (0, size_ a)).
  { intros [s' n'] Hin'. destruct (gapped_pair _ (0, size_ a) (s', n') Hg Hin Hin') as [?|[Hbf|Hbf]]; [done|..];
      unfold before in Hbf; cbn in Hbf; destruct (aw_free _ Hwf _ _ Hin');
      pose proof (gapped_pos _ _ _ Hg Hin'); lia. }
  destruct Hg as [Hso _]. destruct (free_blocks_ a) as [|x [|y l]].
  - by apply not_elem_of_nil in Hin.
  - by rewrite (Hall x) by left.
  - exfalso. apply StronglySorted_inv in Hso as [_ Hx0]. apply Forall_cons in Hx0 as [Hxy _].
    rewrite (Hall x), (Hall y) in Hxy by set_solver. unfold before in Hxy. cbn in Hxy. lia.
Qed.

(** A run of bytes no live block uses lies in one free block. *)
Lemma free_run_in_block a x bytes :
  arena_wf a -> 0 <= x -> 0 < bytes -> x + bytes <= size_ a ->
  (forall s n, live_blocks_ a !! s = Some n -> disjoint_blocks s n x bytes) ->
  exists s n, (s, n) ∈ free_blocks_ a /\ s <= x /\ x + bytes <= s + n.
Proof.
  intros Hwf Hx Hb Hend Hd.
  assert (Hc : forall y, x <= y < x + bytes -> covered (free_blocks_ a) y).
  { intros y Hy. destruct (aw_cover _ Hwf y) as [Hf|(s & n & Hl & Hy')]; [lia|exact Hf|].
    destruct (Hd _ _ Hl); lia. }
  destruct (Hc x) as (s & n & Hin & Hxs); [lia|]. exists s, n. split_and!; [done|lia|].
  destruct (decide (x + bytes <= s + n)) as [|Hno]; [done|]. exfalso.
  destruct (Hc (s + n)) as (s' & n' & Hin' & Hx'); [lia|].
  destruct (gapped_pair _ (s, n) (s', n') (aw_gapped _ Hwf) Hin Hin') as [[= <- <-]|[Hbf|Hbf]];
    [|unfold before in Hbf; cbn in Hbf..]; lia.
Qed.

Lemma foldl_total_acc l n0 : gapped l -> 0 <= n0 -> n0 + total l < U64 -> foldl (fun n e => u64 (n + e.2)) n0 l = n0 + total l.
Proof.
  intros [_ Hp]. revert n0. induction Hp as [|e l He Hl IH]; intros n0 H0 Hb; cbn; [lia|]. cbn in Hb.
  assert (Ht : 0 <= total l).
  { clear -Hl. induction Hl as [|e l He _ IH]; cbn; [done|]. unfold total in IH. lia. }
  unfold total in *. rewrite u64_small by lia. rewrite IH by lia. lia.
Qed.

(** What a caller needs to know of an allocation that succeeds, and of one that does not. *)
Lemma arena_allocate_block a bytes alignment p a' :
  arena_wf a -> valid_request bytes alignment -> arena_allocate bytes alignment a = (p, a') ->
  (p = 0 /\ a' = a) \/
  (p <> 0 /\ arena_wf a' /\ base_ a' = base_ a /\ size_ a' = size_ a /\ base_ a <= p /\ p + bytes <= base_ a + size_ a /\
     live_blocks_ a !! (p - base_ a) = None /\ live_blocks_ a' = <[p - base_ a := bytes]> (live_blocks_ a) /\
     forall s n, live_blocks_ a !! s = Some n -> disjoint_blocks s n (p - base_ a) bytes).
Proof.
  intros Hwf Hv Hr. destruct (aw_range _ Hwf) as (Hb & Hsz & Hend).
  destruct (arena_allocate_spec a bytes alignment Hwf Hv) as [(s & n & al & Hin & H1 & H2 & Hm & Hr')|[Hr' Hno]];
    rewrite Hr' in Hr; simplify_eq; [right|by left]. destruct Hv as [Hby _]. destruct (aw_free _ Hwf _ _ Hin) as [Hs0 Hsn].
  destruct (arena_carve_wf a s n al bytes Hwf Hin H1) as [Hwf' Hfresh]; [lia..|].
  replace (base_ a + al - base_ a) with al by lia. split_and!; try done; try lia.
  intros s' n' Hl. destruct (aw_apart _ Hwf _ _ _ _ Hin Hl); unfold disjoint_blocks; lia.
Qed.

(** ** Properties *)

(** C18: [allocate] is correct and complete: a non-null result is aligned, lies
    inside the managed range, overlaps no live block and becomes live with the
    requested size; null is returned, and nothing changes, only when no aligned
    run of that many unused bytes exists anywhere in the range. *)
Theorem arena_allocate_correct a bytes alignment p a' :
  arena_wf a -> valid_request bytes alignment -> arena_allocate bytes alignment a = (p, a') ->
  arena_wf a' /\
  ((p <> 0 /\ p mod alignment = 0 /\ base_ a <= p /\ p + bytes <= base_ a + size_ a /\
      (forall s n, live_blocks_ a !! s = Some n -> disjoint_blocks s n (p - base_ a) bytes) /\
      live_blocks_ a' = <[p - base_ a := bytes]> (live_blocks_ a) /\ block_size p a' = bytes)
   \/ (p = 0 /\ a' = a /\
      forall x, 0 <= x -> x + bytes <= size_ a -> (base_ a + x) mod alignment = 0 ->
        ~ (forall s n, live_blocks_ a !! s = Some n -> disjoint_blocks s n x bytes))).
Proof.
  intros Hwf Hv Hr. destruct (aw_range _ Hwf) as (Hb & Hsz & Hend).
  destruct (arena_allocate_spec a bytes alignment Hwf Hv) as [(s & n & al & Hin & H1 & H2 & Hm & Hr')|[Hr' Hno]];
    rewrite Hr' in Hr; simplify_eq; destruct Hv as [Hby _].
  - destruct (aw_free _ Hwf _ _ Hin) as [Hs0 Hsn].
    destruct (arena_carve_wf a s n al bytes Hwf Hin H1) as [Hwf' Hfresh]; [lia..|]. split; [done|]. left.
    replace (base_ a + al - base_ a) with al by lia. split_and!; try done; try lia.
    + intros s' n' Hl. destruct (aw_apart _ Hwf _ _ _ _ Hin Hl); unfold disjoint_blocks; lia.
    + unfold block_size. destruct (Z.eqb_spec (base_ a + al) 0) as [|_]; [lia|].
      assert (Ho : owns (base_ a + al) (mkArena (base_ a) (size_ a) (carve s n al bytes (free_blocks_ a))
                (<[al:=bytes]> (live_blocks_ a)) (in_use_bytes_ a + bytes)) = true)
        by (apply owns_iff; [done|lia|cbn; lia]).
      rewrite Ho. cbn. rewrite u64_small by lia. replace (base_ a + al - base_ a) with al by lia.
      by rewrite lookup_insert_eq.
  - split; [done|]. right. split_and!; try done. intros x Hx Hxe Hxm Hd.
    destruct (free_run_in_block _ x bytes Hwf Hx) as (s & n & Hin & ? & ?); [lia|done|done|].
    by eapply Hno.
Qed.

(** [deallocate] releases exactly the block that starts at the pointer;
    null, foreign and interior pointers and double frees change nothing. *)
Theorem arena_deallocate_exact a p :
  arena_wf a -> is_u64 p ->
  let a' := arena_deallocate p a in
  arena_wf a' /\ live_blocks_ a' = delete (p - base_ a) (live_blocks_ a) /\
  (live_blocks_ a !! (p - base_ a) = None -> a' = a) /\ arena_deallocate p a' = a'.
Proof.
  intros Hwf Hu. destruct (arena_deallocate_spec a p Hwf Hu) as (Hwf' & Hl & Hb & _ & Hsame).
  cbv zeta. split_and!; try done.
  destruct (arena_deallocate_spec _ p Hwf' Hu) as (_ & _ & _ & _ & Hsame'). apply Hsame'.
  rewrite Hl, Hb. apply lookup_delete_eq.
Qed.

(** However blocks are allocated and freed, nothing is lost to
    fragmentation or bookkeeping: used and free bytes always add up to the
    range, and once every block is freed the range is one free block again. *)
Theorem arena_conserves base size a :
  0 < base -> 0 < size -> base + size < U64 -> arena_reachable base size a ->
  st_in_use_bytes (stats a) + st_free_bytes (stats a) = size /\
  (live_blocks_ a = ∅ -> free_blocks_ a = [(0, size)] /\ st_largest_free_block (stats a) = size).
Proof.
  intros Hb Hs Hu Hr. destruct (arena_reachable_wf _ _ _ Hb Hs Hu Hr) as (Hwf & Hbe & Hse). split.
  - cbn. pose proof (aw_total _ Hwf). pose proof (arena_in_use_bound _ Hwf).
    pose proof (total_nonneg _ (aw_gapped _ Hwf)).
    rewrite foldl_total_acc; [lia|apply Hwf|lia|lia].
  - intros He. pose proof (arena_empty_coalesced a Hwf He) as Hf. rewrite Hse in Hf. split; [done|].
    cbn. rewrite Hf. cbn. lia.
Qed.

(** ** Concrete runs *)

Definition demo_arena : HeapArena := HeapArena_new 1000 256.
Definition demo_arena1 : HeapArena := snd (arena_allocate 40 16 demo_arena).

Lemma demo_arena_wf : arena_wf demo_arena.
Proof. apply HeapArena_new_wf; unfold U64; lia. Qed.

Lemma demo_valid : valid_request 40 16.
Proof. split; [unfold U64; lia|]. exists 4. lia. Qed.

Lemma arena_allocate_correct_witness :
  arena_allocate 40 16 demo_arena = (1008, demo_arena1) /\ arena_wf demo_arena1.
Proof.
  split; [vm_compute; reflexivity|].
  by destruct (arena_allocate_correct demo_arena 40 16 1008 demo_arena1 demo_arena_wf demo_valid).
Defined.

Lemma arena_deallocate_exact_witness :
  live_blocks_ (arena_deallocate 1008 demo_arena) = delete 8 (live_blocks_ demo_arena) /\
  arena_deallocate 1010 demo_arena = demo_arena.
Proof.
  destruct (arena_deallocate_exact demo_arena 1008) as (_ & H & _); [apply demo_arena_wf|unfold is_u64, U64; lia|].
  destruct (arena_deallocate_exact demo_arena 1010) as (_ & _ & H' & _); [apply demo_arena_wf|unfold is_u64, U64; lia|].
  split; [exact H|]. by apply H'.
Defined.

Lemma arena_conserves_witness :
  st_in_use_bytes (stats demo_arena1) + st_free_bytes (stats demo_arena1) = 256.
Proof.
  destruct (arena_conserves 1000 256 demo_arena1) as [H _]; [lia|lia|unfold U64; lia| |exact H].
  apply (arena_reachable_step 1000 256 demo_arena (ArenaAllocate 40 16)); [constructor|split; unfold is_u64, U64; lia].
Defined.
