(* ===== verification/LruCache.v ===== *)
(** * The client's LRU cache

    [memclient/src/lru_cache.cpp]: a doubly linked list of blocks, most recently
    used first, and a hash map from handles to list iterators.  A list node has
    an identity, which an iterator names; using an iterator whose node is not
    in the list is [Undef].

    [cache_abs] forgets the nodes and the map.  The [spec_*] functions are the
    cache as its users see it: a list of blocks in order of use, cut from the
    back when it would exceed its budget. *)

From S2P Require Import Prelude.

Record CacheBlock := mkBlock {
  blk_handle : Z;
  blk_data : list byte;
  blk_dirty : bool
}.

Record LRUCache := mkCache {
  max_bytes_ : Z;
  current_bytes_ : Z;
  list_ : list (Z * CacheBlock);   (* node, block; front first *)
  map_ : gmap Z Z;                 (* handle -> node *)
  next_node : Z                    (* identity of the next node allocated *)
}.

(** ** The code *)

Definition LRUCache_new (max_bytes : Z) : LRUCache := mkCache max_bytes 0 [] ∅ 0.

(** The block an iterator points to. *)
Fixpoint deref (node : Z) (l : list (Z * CacheBlock)) : option CacheBlock :=
  match l with
  | [] => None
  | (n, b) :: l => if n =? node then Some b else deref node l
  end.

Definition list_erase (node : Z) (l : list (Z * CacheBlock)) : list (Z * CacheBlock) :=
  filter (fun e => e.1 <> node) l.

(** Erase the block of a map entry: the bytes, the node and the entry. *)
Definition drop_entry (handle node : Z) : M LRUCache unit :=
  let! c := get in
  match deref node (list_ c) with
  | None => undef
  | Some b =>
      put (mkCache (max_bytes_ c) (u64 (current_bytes_ c - zlen (blk_data b)))
             (list_erase node (list_ c)) (delete handle (map_ c)) (next_node c))
  end.

(** Pop the last block of a list that is not empty. *)
Definition pop_last : M LRUCache (option CacheBlock) :=
  let! c := get in
  match last (list_ c) with
  | None => ret None
  | Some (_, b) =>
      do! put (mkCache (max_bytes_ c) (u64 (current_bytes_ c - zlen (blk_data b)))
                 (take (length (list_ c) - 1) (list_ c)) (delete (blk_handle b) (map_ c)) (next_node c)) in
      ret (Some b)
  end.

(** The eviction loop of [put]; each turn removes a block. *)
Fixpoint make_room (fuel : nat) (bytes : Z) : M LRUCache unit :=
  let! c := get in
  if (max_bytes_ c <? u64 (current_bytes_ c + bytes)) && negb (bool_decide (list_ c = [])) then
    match fuel with
    | O => nofuel
    | S fuel => do! pop_last in make_room fuel bytes
    end
  else ret tt.

Definition cache_put (handle : Z) (data : list byte) (dirty : bool) : M LRUCache bool :=
  let! c := get in
  if max_bytes_ c <? zlen data then ret false
  else
    do! (match map_ c !! handle with Some node => drop_entry handle node | None => ret tt end) in
    let! c := get in
    do! make_room (length (list_ c)) (zlen data) in
    let! c := get in
    do! put (mkCache (max_bytes_ c) (u64 (current_bytes_ c + zlen data))
               ((next_node c, mkBlock handle data dirty) :: list_ c)
               (<[handle := next_node c]> (map_ c)) (next_node c + 1)) in
    ret true.

Definition cache_get (handle : Z) : M LRUCache (option (list byte)) :=
  let! c := get in
  match map_ c !! handle with
  | None => ret None
  | Some node =>
      match deref node (list_ c) with
      | None => undef
      | Some b =>
          do! put (mkCache (max_bytes_ c) (current_bytes_ c) ((node, b) :: list_erase node (list_ c))
                     (map_ c) (next_node c)) in
          ret (Some (blk_data b))
      end
  end.

Definition cache_remove (handle : Z) : M LRUCache bool :=
  let! c := get in
  match map_ c !! handle with
  | None => ret false
  | Some node => do! drop_entry handle node in ret true
  end.

Definition evict_one : M LRUCache (option CacheBlock) := pop_last.

Definition current_size (c : LRUCache) : Z := current_bytes_ c.
Definition max_size (c : LRUCache) : Z := max_bytes_ c.
Definition count (c : LRUCache) : Z := zlen (list_ c).
Definition needs_eviction (additional_bytes : Z) (c : LRUCache) : bool :=
  max_bytes_ c <? u64 (current_bytes_ c + additional_bytes).

(** ** The cache its users see *)

Definition cache_abs (c : LRUCache) : list CacheBlock := snd <$> list_ c.

Definition bytes_of (l : list CacheBlock) : Z := foldr (fun b n => zlen (blk_data b) + n) 0 l.

Definition without (h : Z) (l : list CacheBlock) : list CacheBlock := filter (fun b => blk_handle b <> h) l.

Definition find_block (h : Z) (l : list CacheBlock) : option CacheBlock :=
  head (filter (fun b => blk_handle b = h) l).

(** The longest prefix that fits in a budget. *)
Fixpoint fit (budget : Z) (l : list CacheBlock) : list CacheBlock :=
  match l with
  | [] => []
  | b :: l =>
      if decide (zlen (blk_data b) <= budget) then b :: fit (budget - zlen (blk_data b)) l else []
  end.

Definition spec_put (max h : Z) (d : list byte) (dirty : bool) (l : list CacheBlock) : bool * list CacheBlock :=
  if decide (max < zlen d) then (false, l)
  else (true, mkBlock h d dirty :: fit (max - zlen d) (without h l)).

Definition spec_get (h : Z) (l : list CacheBlock) : option (list byte) * list CacheBlock :=
  match find_block h l with
  | None => (None, l)
  | Some b => (Some (blk_data b), b :: without h l)
  end.

Definition spec_remove (h : Z) (l : list CacheBlock) : bool * list CacheBlock :=
  (match find_block h l with Some _ => true | None => false end, without h l).

Definition spec_evict (l : list CacheBlock) : option CacheBlock * list CacheBlock :=
  (last l, take (length l - 1) l).

Record cache_wf (c : LRUCache) : Prop := {
  cw_nodes : NoDup (list_ c).*1;
  cw_fresh : forall n b, (n, b) ∈ list_ c -> n < next_node c;
  cw_handles : NoDup (blk_handle <$> cache_abs c);
  cw_map : forall h n, map_ c !! h = Some n <-> exists b, (n, b) ∈ list_ c /\ blk_handle b = h;
  cw_bytes : current_bytes_ c = bytes_of (cache_abs c);
  cw_max : current_bytes_ c <= max_bytes_ c /\ 2 * max_bytes_ c < U64
}.

(** ** Lemmas *)

Arguments bytes_of : simpl never.

Lemma bytes_of_cons b l : bytes_of (b :: l) = zlen (blk_data b) + bytes_of l.
Proof. done. Qed.

Lemma bytes_of_nonneg l : 0 <= bytes_of l.
Proof. induction l as [|b l IH]; [done|]. rewrite bytes_of_cons. pose proof (zlen_nonneg (blk_data b)). lia. Qed.

Lemma bytes_of_app l l' : bytes_of (l ++ l') = bytes_of l + bytes_of l'.
Proof. induction l as [|b l IH]; [done|]. cbn [app]. rewrite !bytes_of_cons, IH. lia. Qed.

Lemma fit_all budget l : bytes_of l <= budget -> fit budget l = l.
Proof.
  revert budget. induction l as [|b l IH]; intros budget H; cbn; [done|]. rewrite bytes_of_cons in H.
  pose proof (bytes_of_nonneg l). rewrite decide_True by lia. f_equal. apply IH. lia.
Qed.

Lemma fit_drop_last budget l b : budget < bytes_of (l ++ [b]) -> fit budget (l ++ [b]) = fit budget l.
Proof.
  revert budget. induction l as [|x l IH]; intros budget H; cbn [app fit]; cbn [app] in H; rewrite bytes_of_cons in H.
  - rewrite decide_False; [done|]. change (bytes_of []) with 0 in H. lia.
  - case_decide; [|done]. f_equal. apply IH. lia.
Qed.

Lemma fit_bytes budget l : 0 <= budget -> bytes_of (fit budget l) <= budget.
Proof.
  revert budget. induction l as [|b l IH]; intros budget H; cbn; [done|].
  case_decide; [|done]. rewrite bytes_of_cons. specialize (IH (budget - zlen (blk_data b))). lia.
Qed.

Lemma deref_spec n b l : NoDup l.*1 -> (n, b) ∈ l -> deref n l = Some b.
Proof.
  induction l as [|[n' b'] l IH]; intros Hnd Hin; [by apply not_elem_of_nil in Hin|].
  cbn in *. apply NoDup_cons in Hnd as [Hn Hnd]. apply elem_of_cons in Hin as [[= -> ->]|Hin].
  - by rewrite Z.eqb_refl.
  - destruct (Z.eqb_spec n' n) as [->|]; [|by apply IH].
    destruct Hn. by apply (list_elem_of_fmap_2 fst) in Hin.
Qed.

Lemma node_handle_inj c n b n' b' :
  cache_wf c -> (n, b) ∈ list_ c -> (n', b') ∈ list_ c -> (n = n' <-> blk_handle b = blk_handle b').
Proof.
  intros Hwf H1 H2. split.
  - intros <-. pose proof (deref_spec _ _ _ (cw_nodes _ Hwf) H1) as E1.
    rewrite (deref_spec _ _ _ (cw_nodes _ Hwf) H2) in E1. by simplify_eq.
  - intros Hh. assert (Hm : map_ c !! blk_handle b = Some n) by (apply (cw_map _ Hwf); eauto).
    assert (Hm' : map_ c !! blk_handle b = Some n') by (apply (cw_map _ Hwf); eauto). congruence.
Qed.

Lemma without_erase c n b :
  cache_wf c -> (n, b) ∈ list_ c ->
  snd <$> list_erase n (list_ c) = without (blk_handle b) (cache_abs c).
Proof.
  intros Hwf Hin. unfold cache_abs.
  assert (Hall : forall n' b', (n', b') ∈ list_ c -> n' = n <-> blk_handle b' = blk_handle b)
    by (intros; by apply (node_handle_inj c)).
  revert Hall. generalize (list_ c) as l. intros l Hall.
  induction l as [|[n' b'] l IH]; [done|]. unfold list_erase, without in *. cbn [fmap list_fmap snd].
  rewrite !filter_cons. cbn [fst].
  assert (Hx : n' = n <-> blk_handle b' = blk_handle b) by (apply Hall; left).
  rewrite (decide_ext (n' <> n) (blk_handle b' <> blk_handle b)) by naive_solver.
  case_decide; cbn; [f_equal|]; apply IH; intros; apply Hall; by right.
Qed.

Lemma list_erase_absent n l : n ∉ l.*1 -> list_erase n l = l.
Proof.
  induction l as [|[n' b'] l IH]; intros Hn; [done|]. unfold list_erase. rewrite filter_cons. cbn in *.
  apply not_elem_of_cons in Hn as [Hne Hn]. rewrite decide_True by done. f_equal. by apply IH.
Qed.

Lemma take_last_erase n b l :
  NoDup l.*1 -> last l = Some (n, b) -> take (length l - 1) l = list_erase n l.
Proof.
  intros Hnd Hl. rewrite (last_Some_split _ _ Hl) at 3. unfold list_erase. rewrite filter_app.
  rewrite filter_cons, decide_False by (cbn; tauto). rewrite app_nil_r. symmetry. apply list_erase_absent.
  rewrite (last_Some_split _ _ Hl), fmap_app in Hnd. apply NoDup_app in Hnd as (_ & Hd & _).
  intros Hin. apply (Hd n Hin). cbn. left.
Qed.

Lemma without_bytes n b l :
  NoDup l.*1 -> (n, b) ∈ l -> bytes_of (snd <$> list_erase n l) = bytes_of (snd <$> l) - zlen (blk_data b).
Proof.
  induction l as [|[n' b'] l IH]; intros Hnd Hin; [by apply not_elem_of_nil in Hin|].
  cbn in Hnd. apply NoDup_cons in Hnd as [Hn Hnd]. unfold list_erase. rewrite filter_cons. cbn [fst].
  apply elem_of_cons in Hin as [[= -> ->]|Hin].
  - rewrite decide_False by tauto. rewrite fmap_cons, bytes_of_cons. cbn [snd].
    fold (list_erase n' l). rewrite (list_erase_absent n' l) by done. lia.
  - rewrite decide_True by (intros ->; apply Hn; by apply (list_elem_of_fmap_2 fst) in Hin).
    rewrite !fmap_cons, !bytes_of_cons. cbn [snd]. fold (list_erase n l).
    specialize (IH Hnd Hin). lia.
Qed.

Lemma erase_wf c n b :
  cache_wf c -> (n, b) ∈ list_ c ->
  cache_wf (mkCache (max_bytes_ c) (u64 (current_bytes_ c - zlen (blk_data b)))
              (list_erase n (list_ c)) (delete (blk_handle b) (map_ c)) (next_node c)).
Proof.
  intros Hwf Hin. pose proof (zlen_nonneg (blk_data b)) as Hb.
  assert (Hel : forall e, e ∈ list_erase n (list_ c) <-> e ∈ list_ c /\ e.1 <> n)
    by (intros e; unfold list_erase; rewrite list_elem_of_filter; tauto).
  pose proof (without_bytes n b _ (cw_nodes _ Hwf) Hin) as Hby. fold (cache_abs c) in Hby.
  pose proof (bytes_of_nonneg (snd <$> list_erase n (list_ c))).
  pose proof (cw_bytes _ Hwf) as Hcb. pose proof (cw_max _ Hwf).
  rewrite u64_small by lia. split; cbn [list_ map_ current_bytes_ max_bytes_ next_node].
  - eapply sublist_NoDup; [apply (cw_nodes _ Hwf)|]. apply fmap_sublist, sublist_filter.
  - intros n' b' [H1 _]%Hel. by eapply (cw_fresh _ Hwf).
  - unfold cache_abs. cbn [list_]. rewrite (without_erase c n b) by done.
    eapply sublist_NoDup; [apply (cw_handles _ Hwf)|]. apply fmap_sublist, sublist_filter.
  - intros h n'. rewrite lookup_delete_Some, (cw_map _ Hwf). split.
    + intros [Hne (b' & H1 & <-)]. exists b'. split; [|done]. apply Hel. split; [done|]. cbn.
      intros ->. apply Hne. by apply (node_handle_inj c n b n b').
    + intros (b' & [H1 Hne]%Hel & <-). split; [|eauto]. intros Heq. apply Hne. cbn. symmetry.
      by apply (node_handle_inj c n b n' b').
  - unfold cache_abs. cbn [list_]. lia.
  - lia.
Qed.

Lemma drop_entry_spec c h n :
  cache_wf c -> map_ c !! h = Some n ->
  exists c', drop_entry h n c = (Ret tt, c') /\ cache_wf c' /\
    cache_abs c' = without h (cache_abs c) /\ max_bytes_ c' = max_bytes_ c.
Proof.
  intros Hwf Hm. apply (cw_map _ Hwf) in Hm as (b & Hin & <-).
  unfold drop_entry. rewrite bind_get, (deref_spec n b) by (done || apply Hwf).
  eexists. split; [done|]. split; [by apply erase_wf|]. split; [|done]. by apply without_erase.
Qed.

Lemma pop_last_spec c :
  cache_wf c ->
  exists c', pop_last c = (Ret (last (cache_abs c)), c') /\ cache_wf c' /\
    cache_abs c' = take (length (cache_abs c) - 1) (cache_abs c) /\ max_bytes_ c' = max_bytes_ c.
Proof.
  intros Hwf. unfold pop_last. rewrite bind_get. unfold cache_abs at 1. rewrite fmap_last.
  destruct (last (list_ c)) as [[n b]|] eqn:El; cbn [fmap option_fmap option_map].
  - rewrite (take_last_erase n b) by (done || apply Hwf). eexists. split; [done|].
    pose proof (last_Some_elem_of _ _ El) as Hin. split; [by apply erase_wf|]. split; [|done].
    unfold cache_abs. cbn [list_]. rewrite length_fmap, <- fmap_take.
    by rewrite (take_last_erase n b) by (done || apply Hwf).
  - exists c. split; [done|]. split; [done|]. apply last_None in El. unfold cache_abs. by rewrite El.
Qed.

Lemma last_split_abs c b :
  last (cache_abs c) = Some b -> cache_abs c = take (length (cache_abs c) - 1) (cache_abs c) ++ [b].
Proof. apply last_Some_split. Qed.

Lemma make_room_spec fuel bytes : forall c,
  cache_wf c -> (length (list_ c) <= fuel)%nat -> 0 <= bytes <= max_bytes_ c ->
  exists c', make_room fuel bytes c = (Ret tt, c') /\ cache_wf c' /\
    cache_abs c' = fit (max_bytes_ c - bytes) (cache_abs c) /\ max_bytes_ c' = max_bytes_ c.
Proof.
  induction fuel as [|fuel IH]; intros c Hwf Hfuel Hb; cbn [make_room]; rewrite bind_get;
    pose proof (cw_max _ Hwf) as [Hm1 Hm2]; pose proof (cw_bytes _ Hwf) as Hcb;
    pose proof (bytes_of_nonneg (cache_abs c)); rewrite u64_small by lia.
  - assert (He : list_ c = []) by (destruct (list_ c); [done|cbn in Hfuel; lia]).
    rewrite bool_decide_true, andb_false_r by done. exists c. split_and!; try done.
    unfold cache_abs. by rewrite He.
  - destruct (Z.ltb_spec (max_bytes_ c) (current_bytes_ c + bytes)) as [Hover|Hok]; cbn [andb].
    2: { exists c. split_and!; try done. symmetry. apply fit_all. lia. }
    case_bool_decide as He; cbn [negb].
    + exists c. split_and!; try done. unfold cache_abs. by rewrite He.
    + destruct (pop_last_spec c Hwf) as (c1 & Hr & Hwf1 & Habs & Hmax). rewrite (bind_ret _ _ _ _ _ Hr).
      assert (Hlen : length (list_ c1) = (length (list_ c) - 1)%nat).
      { apply (f_equal length) in Habs. unfold cache_abs in Habs. rewrite length_take, !length_fmap in Habs. lia. }
      destruct (IH c1) as (c' & Hr' & Hwf' & Habs' & Hmax'); [done|lia|lia|].
      exists c'. split_and!; try done; [|lia]. rewrite Habs', Hmax. clear Habs'.
      destruct (last (cache_abs c)) as [b|] eqn:El.
      * rewrite Habs. symmetry. rewrite (last_split_abs _ _ El) at 1. apply fit_drop_last.
        rewrite <- (last_split_abs _ _ El). lia.
      * apply last_None in El. unfold cache_abs in El. by apply fmap_nil_inv in El.
Qed.

Lemma find_block_spec c h n :
  cache_wf c -> map_ c !! h = Some n -> exists b, (n, b) ∈ list_ c /\ blk_handle b = h /\
    find_block h (cache_abs c) = Some b.
Proof.
  intros Hwf (b & Hin & Hh)%(cw_map _ Hwf). exists b. split_and!; [done..|].
  unfold find_block. assert (Hb : b ∈ filter (fun b => blk_handle b = h) (cache_abs c)).
  { apply list_elem_of_filter. split; [done|]. by apply (list_elem_of_fmap_2 snd) in Hin. }
  destruct (filter _ _) as [|b' l] eqn:Ef; [by apply not_elem_of_nil in Hb|]. cbn. f_equal.
  assert (Hb' : b' ∈ filter (fun b => blk_handle b = h) (cache_abs c)) by (rewrite Ef; left).
  apply list_elem_of_filter in Hb' as [Hh' ((n' & b0) & -> & Hin')%list_elem_of_fmap]. cbn in *.
  assert (n = n') as <- by (apply (node_handle_inj c n b n' b0); congruence).
  pose proof (deref_spec _ _ _ (cw_nodes _ Hwf) Hin) as E1.
  rewrite (deref_spec _ _ _ (cw_nodes _ Hwf) Hin') in E1. congruence.
Qed.

Lemma find_block_None c h : cache_wf c -> map_ c !! h = None -> find_block h (cache_abs c) = None /\ without h (cache_abs c) = cache_abs c.
Proof.
  intros Hwf Hm. assert (Hno : forall b, b ∈ cache_abs c -> blk_handle b <> h).
  { intros b ((n & b0) & -> & Hin)%list_elem_of_fmap Hh. cbn in Hh.
    assert (map_ c !! h = Some n) by (apply (cw_map _ Hwf); eauto). congruence. }
  unfold find_block, without. revert Hno. generalize (cache_abs c) as l. clear.
  induction l as [|b l IH]; intros Hno; [done|]. rewrite !filter_cons.
  rewrite decide_False by (apply Hno; left). rewrite decide_True by (apply Hno; left).
  destruct IH as [IH1 IH2]; [intros; apply Hno; by right|]. by rewrite IH1, IH2.
Qed.

Lemma without_not_in h l : h ∉ blk_handle <$> without h l.
Proof. intros (b & -> & [Hne _]%list_elem_of_filter)%list_elem_of_fmap. by apply Hne. Qed.

Lemma fit_prefix budget l : fit budget l `prefix_of` l.
Proof.
  revert budget. induction l as [|b l IH]; intros budget; cbn; [done|].
  case_decide; [by apply prefix_cons|apply prefix_nil].
Qed.

(** A fresh block at the front. *)
Lemma push_front_wf c h d dirty :
  cache_wf c -> h ∉ blk_handle <$> cache_abs c -> current_bytes_ c + zlen d <= max_bytes_ c ->
  cache_wf (mkCache (max_bytes_ c) (u64 (current_bytes_ c + zlen d))
              ((next_node c, mkBlock h d dirty) :: list_ c) (<[h := next_node c]> (map_ c)) (next_node c + 1)).
Proof.
  intros Hwf Hh Hfit. pose proof (cw_max _ Hwf). pose proof (zlen_nonneg d).
  pose proof (cw_bytes _ Hwf) as Hcb. pose proof (bytes_of_nonneg (cache_abs c)).
  rewrite u64_small by lia. split; cbn [list_ map_ current_bytes_ max_bytes_ next_node].
  - cbn. constructor; [|apply Hwf]. intros ((n & b) & Heq & Hin)%list_elem_of_fmap. cbn in Heq. subst.
    apply (cw_fresh _ Hwf) in Hin. lia.
  - intros n b [[= -> ->]|Hin]%elem_of_cons; [lia|]. apply (cw_fresh _ Hwf) in Hin. lia.
  - unfold cache_abs. cbn. constructor; [done|apply Hwf].
  - intros h' n. rewrite lookup_insert_Some, (cw_map _ Hwf). setoid_rewrite elem_of_cons. split.
    + intros [[<- <-]|[Hne (b & Hin & <-)]]; [eexists; split; [by left|done]|eauto].
    + intros (b & [[= -> ->]|Hin] & <-); [by left|]. right. split; [|eauto].
      intros ->. apply Hh. apply list_elem_of_fmap. exists b. split; [done|].
      by apply (list_elem_of_fmap_2 snd) in Hin.
  - unfold cache_abs. cbn [list_]. rewrite fmap_cons, bytes_of_cons. cbn. fold (cache_abs c). lia.
  - lia.
Qed.

Lemma cache_put_spec c h d dirty :
  cache_wf c ->
  exists c', cache_put h d dirty c = (Ret (fst (spec_put (max_bytes_ c) h d dirty (cache_abs c))), c') /\
    cache_wf c' /\ max_bytes_ c' = max_bytes_ c /\
    cache_abs c' = snd (spec_put (max_bytes_ c) h d dirty (cache_abs c)).
Proof.
  intros Hwf. unfold cache_put, spec_put. rewrite bind_get. pose proof (zlen_nonneg d).
  destruct (Z.ltb_spec (max_bytes_ c) (zlen d)) as [Hbig|Hfit].
  { rewrite decide_True by done. by exists c. }
  rewrite decide_False by lia. cbn [fst snd].
  assert (Hdrop : exists c1, match map_ c !! h with Some node => drop_entry h node | None => ret tt end c = (Ret tt, c1) /\
    cache_wf c1 /\ cache_abs c1 = without h (cache_abs c) /\ max_bytes_ c1 = max_bytes_ c).
  { destruct (map_ c !! h) as [n|] eqn:Em; [by apply drop_entry_spec|].
    exists c. split_and!; try done. symmetry. by apply find_block_None. }
  destruct Hdrop as (c1 & Hr1 & Hwf1 & Habs1 & Hmax1). rewrite (bind_ret _ _ _ _ _ Hr1), bind_get.
  destruct (make_room_spec (length (list_ c1)) (zlen d) c1 Hwf1) as (c2 & Hr2 & Hwf2 & Habs2 & Hmax2); [done|lia|].
  rewrite (bind_ret _ _ _ _ _ Hr2), bind_get, bind_put.
  assert (Hbytes : current_bytes_ c2 + zlen d <= max_bytes_ c2).
  { rewrite (cw_bytes _ Hwf2), Habs2. pose proof (fit_bytes (max_bytes_ c1 - zlen d) (cache_abs c1)). lia. }
  assert (Hnot : h ∉ blk_handle <$> cache_abs c2).
  { rewrite Habs2, Habs1. destruct (fit_prefix (max_bytes_ c1 - zlen d) (without h (cache_abs c))) as [r Hr].
    intros Hin. apply (without_not_in h (cache_abs c)). rewrite Hr, fmap_app. set_solver. }
  eexists. split; [done|]. split; [by apply push_front_wf|]. split; [cbn; congruence|].
  unfold cache_abs at 1. cbn [list_]. rewrite fmap_cons. fold (cache_abs c2). cbn [snd].
  by rewrite Habs2, Habs1, Hmax1.
Qed.

Lemma cache_remove_spec c h :
  cache_wf c ->
  exists c', cache_remove h c = (Ret (fst (spec_remove h (cache_abs c))), c') /\ cache_wf c' /\
    max_bytes_ c' = max_bytes_ c /\ cache_abs c' = snd (spec_remove h (cache_abs c)).
Proof.
  intros Hwf. unfold cache_remove, spec_remove. rewrite bind_get. cbn [fst snd].
  destruct (map_ c !! h) as [n|] eqn:Em.
  - destruct (find_block_spec c h n Hwf Em) as (b & _ & _ & ->).
    destruct (drop_entry_spec c h n Hwf Em) as (c' & Hr & Hwf' & Habs & Hmax).
    exists c'. by rewrite (bind_ret _ _ _ _ _ Hr).
  - destruct (find_block_None c h Hwf Em) as [-> ->]. by exists c.
Qed.

Lemma cache_get_spec c h :
  cache_wf c ->
  exists c', cache_get h c = (Ret (fst (spec_get h (cache_abs c))), c') /\ cache_wf c' /\
    max_bytes_ c' = max_bytes_ c /\ cache_abs c' = snd (spec_get h (cache_abs c)).
Proof.
  intros Hwf. unfold cache_get, spec_get. rewrite bind_get. destruct (map_ c !! h) as [n|] eqn:Em.
  2: { destruct (find_block_None c h Hwf Em) as [-> _]. by exists c. }
  destruct (find_block_spec c h n Hwf Em) as (b & Hin & Hh & ->).
  rewrite (deref_spec n b) by (done || apply Hwf). rewrite bind_put. eexists. split; [done|].
  pose proof (without_erase c n b Hwf Hin) as Hwe. rewrite Hh in Hwe.
  assert (Habs : cache_abs (mkCache (max_bytes_ c) (current_bytes_ c) ((n, b) :: list_erase n (list_ c)) (map_ c) (next_node c))
                 = b :: without h (cache_abs c)).
  { unfold cache_abs at 1. cbn [list_]. rewrite fmap_cons. cbn [snd]. by rewrite Hwe. }
  split; [|split; [done|exact Habs]].
  assert (Hel : forall e, e ∈ list_erase n (list_ c) <-> e ∈ list_ c /\ e.1 <> n)
    by (intros e; unfold list_erase; rewrite list_elem_of_filter; tauto).
  split; rewrite ?Habs; cbn [list_ map_ current_bytes_ max_bytes_ next_node].
  - cbn. constructor.
    + intros ((n' & b') & Heq & [_ Hne]%Hel)%list_elem_of_fmap. cbn in *. congruence.
    + eapply sublist_NoDup; [apply (cw_nodes _ Hwf)|]. apply fmap_sublist, sublist_filter.
  - intros n' b' [[= -> ->]|[H1 _]%Hel]%elem_of_cons; by eapply (cw_fresh _ Hwf).
  - cbn. constructor; [rewrite Hh; apply without_not_in|].
    eapply sublist_NoDup; [apply (cw_handles _ Hwf)|]. apply fmap_sublist, sublist_filter.
  - intros h' n'. rewrite (cw_map _ Hwf). setoid_rewrite elem_of_cons. split.
    + intros (b' & H1 & <-). destruct (decide (n' = n)) as [->|Hne].
      * exists b. split; [by left|]. by apply (node_handle_inj c n b n b').
      * exists b'. split; [right; by apply Hel|done].
    + intros (b' & [[= -> ->]|[H1 _]%Hel] & <-); eauto.
  - rewrite bytes_of_cons, <- Hwe, (without_bytes n b) by (done || apply Hwf).
    rewrite (cw_bytes _ Hwf). unfold cache_abs. lia.
  - apply Hwf.
Qed.

(** The first block cut off did not fit. *)
Lemma fit_maximal budget l dropped b :
  l = fit budget l ++ dropped -> head dropped = Some b -> budget < bytes_of (fit budget l ++ [b]).
Proof.
  revert budget. induction l as [|x l IH]; intros budget Hl Hb.
  { cbn in Hl. symmetry in Hl. cbn in Hl. by subst. }
  cbn [fit] in *. case_decide as Hx.
  - cbn [app] in *. rewrite bytes_of_cons. injection Hl as Hl. specialize (IH _ Hl Hb). lia.
  - cbn [app] in *. subst dropped. injection Hb as <-. rewrite bytes_of_cons. change (bytes_of []) with 0. lia.
Qed.

(** ** Executions *)

Inductive cache_op :=
| CachePut (h : Z) (d : list byte) (dirty : bool)
| CacheGet (h : Z)
| CacheRemove (h : Z)
| CacheEvict.

Inductive cache_result :=
| RBool (b : bool)
| RData (d : option (list byte))
| RBlock (b : option CacheBlock).

Definition cache_exec (op : cache_op) : M LRUCache cache_result :=
  match op with
  | CachePut h d dirty => let! b := cache_put h d dirty in ret (RBool b)
  | CacheGet h => let! d := cache_get h in ret (RData d)
  | CacheRemove h => let! b := cache_remove h in ret (RBool b)
  | CacheEvict => let! b := evict_one in ret (RBlock b)
  end.

Definition spec_exec (max : Z) (op : cache_op) (l : list CacheBlock) : cache_result * list CacheBlock :=
  match op with
  | CachePut h d dirty => let '(b, l') := spec_put max h d dirty l in (RBool b, l')
  | CacheGet h => let '(d, l') := spec_get h l in (RData d, l')
  | CacheRemove h => let '(b, l') := spec_remove h l in (RBool b, l')
  | CacheEvict => let '(b, l') := spec_evict l in (RBlock b, l')
  end.

Lemma cache_exec_spec c op :
  cache_wf c ->
  exists c', cache_exec op c = (Ret (fst (spec_exec (max_bytes_ c) op (cache_abs c))), c') /\ cache_wf c' /\
    max_bytes_ c' = max_bytes_ c /\ cache_abs c' = snd (spec_exec (max_bytes_ c) op (cache_abs c)).
Proof.
  intros Hwf. destruct op as [h d dirty|h|h|]; cbn [cache_exec spec_exec].
  - destruct (cache_put_spec c h d dirty Hwf) as (c' & Hr & H). exists c'.
    rewrite (bind_ret _ _ _ _ _ Hr). by destruct (spec_put _ _ _ _ _).
  - destruct (cache_get_spec c h Hwf) as (c' & Hr & H). exists c'.
    rewrite (bind_ret _ _ _ _ _ Hr). by destruct (spec_get _ _).
  - destruct (cache_remove_spec c h Hwf) as (c' & Hr & H). exists c'.
    rewrite (bind_ret _ _ _ _ _ Hr). by destruct (spec_remove _ _).
  - destruct (pop_last_spec c Hwf) as (c' & Hr & Hwf' & Ha & Hm). exists c'.
    unfold evict_one. rewrite (bind_ret _ _ _ _ _ Hr). done.
Qed.

Lemma LRUCache_new_wf max : 0 <= max -> 2 * max < U64 -> cache_wf (LRUCache_new max).
Proof.
  intros H0 H. split; cbn; [constructor| |constructor| |done|done].
  - by intros n b ?%not_elem_of_nil.
  - intros h n. split; [by rewrite lookup_empty|]. by intros (b & ?%not_elem_of_nil & _).
Qed.

Fixpoint run_ops (ops : list cache_op) : M LRUCache (list cache_result) :=
  match ops with
  | [] => ret []
  | op :: ops => let! r := cache_exec op in let! rs := run_ops ops in ret (r :: rs)
  end.

Fixpoint run_spec (max : Z) (ops : list cache_op) (l : list CacheBlock) : list cache_result * list CacheBlock :=
  match ops with
  | [] => ([], l)
  | op :: ops =>
      let '(r, l1) := spec_exec max op l in
      let '(rs, l2) := run_spec max ops l1 in (r :: rs, l2)
  end.

Lemma run_ops_spec ops : forall c, cache_wf c ->
  exists c', run_ops ops c = (Ret (fst (run_spec (max_bytes_ c) ops (cache_abs c))), c') /\ cache_wf c' /\
    max_bytes_ c' = max_bytes_ c /\ cache_abs c' = snd (run_spec (max_bytes_ c) ops (cache_abs c)).
Proof.
  induction ops as [|op ops IH]; intros c Hwf; cbn [run_ops run_spec]; [by exists c|].
  destruct (cache_exec_spec c op Hwf) as (c1 & Hr & Hwf1 & Hm & Ha). rewrite (bind_ret _ _ _ _ _ Hr).
  destruct (IH c1 Hwf1) as (c2 & Hr2 & Hwf2 & Hm2 & Ha2). rewrite (bind_ret _ _ _ _ _ Hr2).
  exists c2. rewrite Ha, Hm in *. destruct (spec_exec _ op _) as [r l1]. cbn [fst snd] in *.
  destruct (run_spec _ ops l1) as [rs l2]. split_and!; try done.
Qed.

(** ** Finding blocks *)

Lemma find_block_cons h b l :
  find_block h (b :: l) = if decide (blk_handle b = h) then Some b else find_block h l.
Proof. unfold find_block. rewrite filter_cons. by case_decide. Qed.

Lemma find_block_handle h l b : find_block h l = Some b -> blk_handle b = h.
Proof.
  induction l as [|x l IH]; [done|]. rewrite find_block_cons. case_decide; [congruence|done].
Qed.

Lemma find_block_None_iff h l : find_block h l = None <-> h ∉ blk_handle <$> l.
Proof.
  induction l as [|b l IH]; [split; [intros _; apply not_elem_of_nil|done]|].
  rewrite find_block_cons, fmap_cons, not_elem_of_cons. case_decide; naive_solver.
Qed.

Lemma find_block_without h h' l :
  find_block h (without h' l) = if decide (h = h') then None else find_block h l.
Proof.
  induction l as [|b l IH]; [by case_decide|]. unfold without. rewrite filter_cons. fold (without h' l).
  destruct (decide (blk_handle b <> h')); rewrite ?find_block_cons, IH; repeat case_decide; naive_solver congruence.
Qed.

Lemma find_block_snoc h b l :
  NoDup (blk_handle <$> (l ++ [b])) ->
  find_block h (l ++ [b]) = if decide (h = blk_handle b) then Some b else find_block h l.
Proof.
  rewrite fmap_app. intros (_ & Hd & _)%NoDup_app. induction l as [|x l IH]; cbn [app].
  - rewrite find_block_cons. repeat case_decide; congruence.
  - rewrite !find_block_cons, IH by (intros y Hy; apply Hd; cbn; by right). repeat case_decide; try done.
    exfalso. apply (Hd (blk_handle x)); [cbn; left|]. subst h. cbn. rewrite list_elem_of_singleton. congruence.
Qed.

Lemma bytes_of_without h l : bytes_of (without h l) <= bytes_of l.
Proof.
  induction l as [|b l IH]; [done|]. unfold without. rewrite filter_cons. fold (without h l).
  pose proof (zlen_nonneg (blk_data b)). case_decide; rewrite !bytes_of_cons; lia.
Qed.

Lemma find_bytes h l b : find_block h l = Some b -> bytes_of (without h l) + zlen (blk_data b) <= bytes_of l.
Proof.
  induction l as [|x l IH]; [done|]. rewrite find_block_cons. unfold without. rewrite filter_cons.
  fold (without h l). pose proof (bytes_of_without h l). case_decide.
  - intros [= ->]. rewrite decide_False by tauto. rewrite bytes_of_cons. lia.
  - rewrite decide_True by done. rewrite !bytes_of_cons. intros Hb. specialize (IH Hb). lia.
Qed.

Lemma length_cache_abs c : length (cache_abs c) = length (list_ c).
Proof. apply length_fmap. Qed.

Lemma needs_eviction_spec c n :
  cache_wf c -> 0 <= n <= max_bytes_ c ->
  needs_eviction n c = false <-> bytes_of (cache_abs c) + n <= max_bytes_ c.
Proof.
  intros Hwf Hn. destruct (cw_max _ Hwf) as [H1 H2]. pose proof (bytes_of_nonneg (cache_abs c)).
  unfold needs_eviction. rewrite (cw_bytes _ Hwf) in *. rewrite u64_small by lia. apply Z.ltb_ge.
Qed.

(** A put that fits drops nothing. *)
Lemma cache_put_room c h d dirty :
  cache_wf c -> bytes_of (without h (cache_abs c)) + zlen d <= max_bytes_ c ->
  exists c', cache_put h d dirty c = (Ret true, c') /\ cache_wf c' /\ max_bytes_ c' = max_bytes_ c /\
    cache_abs c' = mkBlock h d dirty :: without h (cache_abs c).
Proof.
  intros Hwf Hfit. destruct (cache_put_spec c h d dirty Hwf) as (c' & Hr & Hwf' & Hm & Ha).
  pose proof (bytes_of_nonneg (without h (cache_abs c))). unfold spec_put in *.
  rewrite decide_False in * by lia. exists c'. cbn in Hr, Ha. by rewrite Ha, fit_all by lia.
Qed.

(** ** Properties *)

(** C19: Any sequence of cache calls behaves like a plain list of blocks in
    order of use: every result is the list's, no stale iterator is ever used,
    and afterwards the handles are distinct, the byte count is exact and within
    the budget. *)
Theorem cache_refines_lru max ops o c' :
  0 <= max -> 2 * max < U64 -> run_ops ops (LRUCache_new max) = (o, c') ->
  o = Ret (fst (run_spec max ops [])) /\ cache_abs c' = snd (run_spec max ops []) /\
  NoDup (blk_handle <$> cache_abs c') /\ current_size c' = bytes_of (cache_abs c') /\ current_size c' <= max.
Proof.
  intros H0 H Hr. destruct (run_ops_spec ops _ (LRUCache_new_wf max H0 H)) as (c1 & Hr1 & Hwf & Hm & Ha).
  rewrite Hr1 in Hr. injection Hr as <- <-. split_and!; [done|done|apply Hwf|apply Hwf|].
  destruct (cw_max _ Hwf) as [Hle _]. unfold current_size. rewrite Hm in Hle. done.
Qed.

(** A block that was put is found with its data, blocks that are dropped
    to make room are the least recently used ones, and nothing is dropped that
    would have fitted. *)
Theorem cache_put_keeps c h d dirty :
  cache_wf c -> zlen d <= max_bytes_ c ->
  exists c' dropped, cache_put h d dirty c = (Ret true, c') /\
    fst (cache_get h c') = Ret (Some d) /\
    without h (cache_abs c) = without h (cache_abs c') ++ dropped /\
    (forall b, head dropped = Some b -> max_bytes_ c < bytes_of (cache_abs c' ++ [b])).
Proof.
  intros Hwf Hd. destruct (cache_put_spec c h d dirty Hwf) as (c' & Hr & Hwf' & Hm & Ha).
  unfold spec_put in *. rewrite decide_False in * by lia. cbn [fst snd] in *.
  destruct (cache_get_spec c' h Hwf') as (c2 & Hg & _).
  assert (Hw : without h (cache_abs c') = fit (max_bytes_ c - zlen d) (without h (cache_abs c))).
  { rewrite Ha. unfold without at 1. rewrite filter_cons, decide_False by (cbn; tauto).
    fold (without h (fit (max_bytes_ c - zlen d) (without h (cache_abs c)))).
    assert (Hf : Forall (fun b => blk_handle b <> h) (fit (max_bytes_ c - zlen d) (without h (cache_abs c)))).
    { destruct (fit_prefix (max_bytes_ c - zlen d) (without h (cache_abs c))) as [r Hr'].
      assert (Hall : Forall (fun b => blk_handle b <> h) (without h (cache_abs c))).
      { apply Forall_forall. intros b [? _]%list_elem_of_filter. done. }
      rewrite Hr' in Hall. by apply Forall_app in Hall as [? _]. }
    unfold without at 1. clear -Hf. induction Hf as [|b l Hb _ IH]; [done|]. by rewrite filter_cons, decide_True, IH. }
  destruct (fit_prefix (max_bytes_ c - zlen d) (without h (cache_abs c))) as [dropped Hdrop].
  exists c', dropped. split; [done|]. split; [|split].
  - rewrite Hg, Ha. unfold spec_get, find_block. rewrite filter_cons, decide_True by done. done.
  - by rewrite Hw.
  - intros b Hb. rewrite Ha. cbn [app]. rewrite bytes_of_cons. cbn [blk_data].
    pose proof (fit_maximal (max_bytes_ c - zlen d) (without h (cache_abs c)) dropped b Hdrop Hb). lia.
Qed.

(** ** Concrete runs: a budget of four bytes *)

Definition demo_ops : list cache_op :=
  [CachePut 1 [x01; x02] true; CachePut 2 [x03; x04] false; CacheGet 1; CachePut 3 [x05] true; CacheGet 2; CacheEvict].

Lemma cache_refines_lru_witness :
  fst (run_ops demo_ops (LRUCache_new 4)) =
  Ret [RBool true; RBool true; RData (Some [x01; x02]); RBool true; RData None;
       RBlock (Some (mkBlock 1 [x01; x02] true))].
Proof.
  destruct (run_ops demo_ops (LRUCache_new 4)) as [o c'] eqn:E.
  destruct (cache_refines_lru 4 demo_ops o c') as (Ho & _); [lia|unfold U64; lia|exact E|].
  rewrite Ho. reflexivity.
Defined.

Lemma cache_put_keeps_witness :
  exists c', cache_put 7 [x01; x02; x03] true (LRUCache_new 4) = (Ret true, c') /\
    fst (cache_get 7 c') = Ret (Some [x01; x02; x03]).
Proof.
  destruct (cache_put_keeps (LRUCache_new 4) 7 [x01; x02; x03] true) as (c' & dropped & H1 & H2 & _).
  - apply LRUCache_new_wf; unfold U64; lia.
  - unfold zlen. cbn. lia.
  - by exists c'.
Defined.
