(* ===== verification/RemoteStore.v ===== *)
(** * What the client asks of its peers

    The interface between [memclient] and the memoryd daemons it talks to.
    [PeerNet] is what [MemoryClient] calls: the peers it knows, the wait for a
    first connection, the memory monitor and [sync_remote_call].  [RemoteStore]
    is what a client may rely on while the network does its part: no connection
    that is up is lost, and every request is answered within the ten seconds of
    [sync_remote_call].  Each peer then keeps the client's objects, and ALLOC,
    FREE, WRITE and READ act on them.  A request or a reply that does not fit in
    a frame of [MAX_MESSAGE_SIZE] makes its receiver close the connection
    ([client_session.cpp:68], [client_api.cpp:968]), so nothing is promised of a
    WRITE or a READ of more than [MAX_PAYLOAD] bytes.  A peer that is lost, with
    the blocks it held, is outside of the class; so is a call that times out and
    may or may not have been carried out.

    The client's theorems are proved against [RemoteStore];
    [pools_remote_store] discharges it for peers that answer as [reply_spec]
    says, which [MemoryProtocol.v] proves of the daemon. *)

From S2P Require Import Prelude Framing Slab PageTracker Crc32c Pool MemoryProtocol.

(** [MemoryClient::RemotePeer]; a [RemotePeer*] is the peer's position in the
    vector [peers_], from which nothing is ever erased. *)
Record RemotePeer := mkPeer {
  ip : string;
  port : Z;
  connected : bool;
  free_ram_bytes : Z;
  free_vram_bytes : Z;
  capacity_known : bool
}.

Definition may_fit (size : Z) (p : RemotePeer) : bool :=
  negb (capacity_known p) || (size <=? free_ram_bytes p).

(** The comparator [allocate_remote] sorts with. *)
Definition peer_before (a b : RemotePeer) : bool :=
  if eqb (capacity_known a) (capacity_known b) then free_ram_bytes b <? free_ram_bytes a
  else capacity_known a.

(** [std::sort] leaves the order of equal elements open. *)
Class PeerSort := {
  peer_sort : list (Z * RemotePeer) -> list (Z * RemotePeer);
  peer_sort_perm : forall l, peer_sort l ≡ₚ l
}.

(** The process's surroundings, as the client sees them. *)
Class PeerNet (World : Type) := {
  peers_ : World -> list RemotePeer;             (* under peers_mutex_ *)
  wait_for_connected_peer : World -> World;
  available_bytes : World -> Z;                  (* memory_monitor_->get_stats() *)
  (* [sync_remote_call]: [None] is the empty buffer; a buffer that is not empty
     has passed the verifier in [on_peer_read]. *)
  sync_remote_call : Z -> MemoryRequest -> M World (option MemoryResponse)
}.

Definition peer_at {World} `{!PeerNet World} (w : World) (i : Z) : option RemotePeer := znth (peers_ w) i.

Definition is_connected {World} `{!PeerNet World} (w : World) (i : Z) : bool :=
  match peer_at w i with
  | Some p => connected p
  | None => false
  end.

(** The largest payload taken to fit in one message; the rest of a frame is far
    below the 1024 bytes left for it. *)
Definition MAX_PAYLOAD : Z := MAX_MESSAGE_SIZE - 1024.

(** ** The store a client's peers are *)

Class RemoteStore (World : Type) `{!PeerNet World} := {
  world_ok : World -> Prop;
  objects : World -> Z -> gmap Z (list byte);    (* this client's objects on a peer *)

  (* The figure is a [uint64_t]. *)
  store_ram : forall w i p, world_ok w -> peer_at w i = Some p -> 0 <= free_ram_bytes p;

  (* A request that fits in a frame, and whose reply does, is answered: a reply
     arrives, the connection stays up, other peers are not touched. *)
  store_call : forall w i req, world_ok w -> is_connected w i = true ->
    zlen (default [] (req_data req)) <= MAX_PAYLOAD -> (req_op req = OpCode_READ -> req_size req <= MAX_PAYLOAD) ->
    exists r w', sync_remote_call i req w = (Ret (Some r), w') /\ world_ok w' /\
      (forall j, is_connected w j = true -> is_connected w' j = true) /\
      (forall j, j <> i -> objects w' j = objects w j);

  store_alloc : forall w i id n r w', world_ok w -> is_connected w i = true -> 0 < n ->
    sync_remote_call i (mkRequest MEMINFO_PROTOCOL_VERSION id OpCode_ALLOC 0 n 0 None 0) w = (Ret (Some r), w') ->
    (resp_status r = StatusCode_OK /\ objects w i !! resp_handle r = None /\
       objects w' i = <[resp_handle r := replicate (Z.to_nat n) x00]> (objects w i)) \/
    (resp_status r <> StatusCode_OK /\ objects w' i = objects w i);

  store_alloc_zero : forall w i id r w', world_ok w -> is_connected w i = true ->
    sync_remote_call i (mkRequest MEMINFO_PROTOCOL_VERSION id OpCode_ALLOC 0 0 0 None 0) w = (Ret (Some r), w') ->
    resp_handle r = 0 /\ objects w' i = objects w i;

  (* No object has the handle of an empty block. *)
  store_zero : forall w i, world_ok w -> objects w i !! 0 = None;

  store_free : forall w i id h r w', world_ok w -> is_connected w i = true ->
    sync_remote_call i (mkRequest MEMINFO_PROTOCOL_VERSION id OpCode_FREE h 0 0 None 0) w = (Ret (Some r), w') ->
    objects w' i = delete h (objects w i);

  store_write : forall w i id h off d r w' b, world_ok w -> is_connected w i = true ->
    sync_remote_call i (mkRequest MEMINFO_PROTOCOL_VERSION id OpCode_WRITE h 0 off (Some d) (crc32c d 0)) w
      = (Ret (Some r), w') ->
    zlen d <= MAX_PAYLOAD -> objects w i !! h = Some b -> 0 <= off -> off + zlen d <= zlen b ->
    objects w' i = <[h := splice off d b]> (objects w i);

  store_write_empty : forall w i id h off r w', world_ok w -> is_connected w i = true ->
    sync_remote_call i (mkRequest MEMINFO_PROTOCOL_VERSION id OpCode_WRITE h 0 off (Some []) (crc32c [] 0)) w
      = (Ret (Some r), w') ->
    objects w' i = objects w i;

  store_read : forall w i id h off n r w' b, world_ok w -> is_connected w i = true ->
    sync_remote_call i (mkRequest MEMINFO_PROTOCOL_VERSION id OpCode_READ h n off None 0) w = (Ret (Some r), w') ->
    objects w i !! h = Some b -> 0 <= off -> 0 <= n -> off + n <= zlen b ->
    objects w' i = objects w i /\
    (resp_status r = StatusCode_OK -> forall d, resp_data r = Some d -> d = slice off n b) /\
    (0 < n <= MAX_PAYLOAD -> resp_status r = StatusCode_OK /\ resp_data r = Some (slice off n b));

  store_read_objects : forall w i id h off n r w', world_ok w -> is_connected w i = true ->
    sync_remote_call i (mkRequest MEMINFO_PROTOCOL_VERSION id OpCode_READ h n off None 0) w = (Ret (Some r), w') ->
    objects w' i = objects w i;

  store_read_empty : forall w i id h off r w', world_ok w -> is_connected w i = true ->
    sync_remote_call i (mkRequest MEMINFO_PROTOCOL_VERSION id OpCode_READ h 0 off None 0) w = (Ret (Some r), w') ->
    resp_data r = None;

  store_wait : forall w, world_ok w -> world_ok (wait_for_connected_peer w) /\
    (forall j, is_connected w j = true -> is_connected (wait_for_connected_peer w) j = true) /\
    (forall j, objects (wait_for_connected_peer w) j = objects w j)
}.

(** ** Peers that answer as memoryd does *)

(** Peers and their pools; this client's session on each has the same id. *)
Record PoolWorld := mkWorld {
  pw_peers : list RemotePeer;
  pw_pools : Z -> Pool;
  pw_available : Z
}.

Section pools.
Context (sid : Z) (Hsid : sid <> 0).

Definition pools_call (i : Z) (req : MemoryRequest) : M PoolWorld (option MemoryResponse) :=
  fun w =>
    match znth (pw_peers w) i with
    | Some p =>
        if connected p then
          let '(r, p') := reply_spec sid req (pw_pools w i) in
          (Ret (Some r), mkWorld (pw_peers w) (fun j => if decide (j = i) then p' else pw_pools w j) (pw_available w))
        else (Throw (runtime_error "Remote call timed out"), w)
    | None => (Undef, w)
    end.

Instance pools_net : PeerNet PoolWorld := {|
  peers_ := pw_peers;
  wait_for_connected_peer w := w;
  available_bytes := pw_available;
  sync_remote_call := pools_call
|}.

Definition pool_ok (p : Pool) : Prop :=
  0 < pool_next p /\ forall h o, pool_objs p !! h = Some o -> 0 < h < pool_next p.

Definition own_bytes (o : Obj) : option (list byte) :=
  if decide (obj_owner o = sid) then Some (obj_bytes o) else None.

Definition pool_objects (w : PoolWorld) (i : Z) : gmap Z (list byte) := omap own_bytes (pool_objs (pw_pools w i)).

Definition pools_ok (w : PoolWorld) : Prop :=
  (forall i, pool_ok (pw_pools w i)) /\ forall i p, znth (pw_peers w) i = Some p -> 0 <= free_ram_bytes p.

Lemma pool_ok_reply req p : pool_ok p -> pool_ok (snd (reply_spec sid req p)).
Proof.
  intros [Hn Hp]. unfold reply_spec, access_of.
  repeat (case_decide || case_match); cbn; simplify_eq; try done; (split; cbn; [lia|]).
  all: intros h0 o0 Ho; rewrite ?lookup_insert_Some, ?lookup_delete_Some in Ho.
  all: destruct_or?; destruct_and?; simplify_eq; try (eapply Hp; eassumption); try lia.
  all: specialize (Hp _ _ ltac:(eassumption)); lia.
Qed.

Lemma own_lookup (m : gmap Z Obj) (h : Z) b : omap own_bytes m !! h = Some b <-> m !! h = Some (mkObj sid b).
Proof.
  rewrite lookup_omap. unfold own_bytes. destruct (m !! h) as [[w c]|]; cbn; [|done].
  case_decide; naive_solver.
Qed.

Lemma own_insert (m : gmap Z Obj) (h : Z) b : omap own_bytes (<[h := mkObj sid b]> m) = <[h := b]> (omap own_bytes m).
Proof.
  apply map_eq. intros h'. rewrite lookup_omap, !lookup_insert, lookup_omap. case_decide; [|done]. cbn.
  unfold own_bytes. by rewrite decide_True.
Qed.

Lemma own_delete (m : gmap Z Obj) (h : Z) : omap own_bytes (delete h m) = delete h (omap own_bytes m).
Proof. apply map_eq. intros h'. rewrite lookup_omap, !lookup_delete, lookup_omap. by case_decide. Qed.

Lemma own_insert_foreign (m : gmap Z Obj) (h : Z) ob b :
  m !! h = Some ob -> obj_owner ob <> sid -> omap own_bytes (<[h := mkObj (obj_owner ob) b]> m) = omap own_bytes m.
Proof.
  intros Hm Ho. apply map_eq. intros h'. rewrite !lookup_omap, lookup_insert. case_decide; [subst|done].
  rewrite Hm. cbn. unfold own_bytes. cbn. by rewrite !decide_False.
Qed.

Lemma own_delete_foreign (m : gmap Z Obj) (h : Z) ob :
  m !! h = Some ob -> obj_owner ob <> sid -> delete h (omap own_bytes m) = omap own_bytes m.
Proof.
  intros Hm Ho. apply delete_id. rewrite lookup_omap, Hm. cbn. unfold own_bytes. by rewrite decide_False.
Qed.

Lemma own_granted p h b :
  omap own_bytes (pool_objs p) !! h = Some b -> access_of p h sid = Granted (mkObj sid b).
Proof. intros Hb%own_lookup. unfold access_of. rewrite Hb. cbn. rewrite decide_True; [done|by right]. Qed.

Lemma pools_call_eq w i req :
  is_connected w i = true ->
  pools_call i req w =
    (Ret (Some (fst (reply_spec sid req (pw_pools w i)))),
     mkWorld (pw_peers w) (fun j => if decide (j = i) then snd (reply_spec sid req (pw_pools w i)) else pw_pools w j)
       (pw_available w)).
Proof.
  unfold is_connected, peer_at, pools_call. cbn [peers_ pools_net].
  destruct (znth (pw_peers w) i) as [p|]; [|done]. intros ->. by destruct (reply_spec _ _ _).
Qed.

(** One call: its reply, and the objects of the peer after it. *)
Lemma pools_call_inv w i req r w' :
  is_connected w i = true -> pools_call i req w = (Ret (Some r), w') ->
  r = fst (reply_spec sid req (pw_pools w i)) /\
  pool_objects w' i = omap own_bytes (pool_objs (snd (reply_spec sid req (pw_pools w i)))).
Proof.
  intros Hc. rewrite pools_call_eq by done. intros H. simplify_eq. split; [done|].
  unfold pool_objects. cbn. by rewrite decide_True.
Qed.

Lemma reply_alloc p id n :
  0 < n -> pool_ok p ->
  let req := mkRequest MEMINFO_PROTOCOL_VERSION id OpCode_ALLOC 0 n 0 None 0 in
  let r := fst (reply_spec sid req p) in
  let objs := omap own_bytes (pool_objs p) in
  let objs' := omap own_bytes (pool_objs (snd (reply_spec sid req p))) in
  (resp_status r = StatusCode_OK /\ objs !! resp_handle r = None /\
     objs' = <[resp_handle r := replicate (Z.to_nat n) x00]> objs) \/
  (resp_status r <> StatusCode_OK /\ objs' = objs).
Proof.
  intros Hn [_ Hp]. cbv zeta. unfold reply_spec. cbn [req_protocol_version req_op req_size req_request_id].
  rewrite (decide_False (P := MEMINFO_PROTOCOL_VERSION <> 1)) by tauto.
  rewrite (decide_False (P := n = 0)) by lia. case_decide; [left|by right]. cbn.
  split; [done|]. split; [|apply own_insert].
  rewrite lookup_omap. destruct (pool_objs p !! pool_next p) eqn:E; [|done]. specialize (Hp _ _ E). lia.
Qed.

Lemma reply_free p id h :
  let req := mkRequest MEMINFO_PROTOCOL_VERSION id OpCode_FREE h 0 0 None 0 in
  omap own_bytes (pool_objs (snd (reply_spec sid req p))) = delete h (omap own_bytes (pool_objs p)).
Proof.
  cbv zeta. unfold reply_spec. cbn [req_protocol_version req_op req_handle].
  rewrite (decide_False (P := MEMINFO_PROTOCOL_VERSION <> 1)) by tauto. unfold access_of.
  destruct (pool_objs p !! h) as [ob|] eqn:E; [case_decide as Ho|]; cbn.
  - apply own_delete.
  - symmetry. eapply own_delete_foreign; [done|]. tauto.
  - symmetry. apply delete_id. by rewrite lookup_omap, E.
Qed.

Lemma reply_write p id h off d b :
  omap own_bytes (pool_objs p) !! h = Some b -> 0 <= off -> off + zlen d <= zlen b ->
  let req := mkRequest MEMINFO_PROTOCOL_VERSION id OpCode_WRITE h 0 off (Some d) (crc32c d 0) in
  omap own_bytes (pool_objs (snd (reply_spec sid req p))) = <[h := splice off d b]> (omap own_bytes (pool_objs p)).
Proof.
  intros Hb Ho Hfit. cbv zeta. pose proof (zlen_nonneg d). unfold reply_spec.
  cbn [req_protocol_version req_op req_handle req_data req_checksum req_offset].
  rewrite (decide_False (P := MEMINFO_PROTOCOL_VERSION <> 1)) by tauto.
  rewrite (decide_False (P := crc_ref d 0 <> crc32c d 0)) by (rewrite crc32c_ref; tauto).
  case_decide as Hd.
  - subst. cbn. rewrite splice_nil by (rewrite zlen_nil in *; lia). by rewrite insert_id.
  - rewrite (own_granted _ _ _ Hb). cbn [obj_bytes obj_owner]. rewrite decide_True by done. cbn. apply own_insert.
Qed.

Lemma reply_write_empty p id h off :
  let req := mkRequest MEMINFO_PROTOCOL_VERSION id OpCode_WRITE h 0 off (Some []) (crc32c [] 0) in
  snd (reply_spec sid req p) = p.
Proof.
  cbv zeta. unfold reply_spec. cbn [req_protocol_version req_op req_handle req_data req_checksum req_offset].
  rewrite (decide_False (P := MEMINFO_PROTOCOL_VERSION <> 1)) by tauto.
  case_decide; [done|]. by rewrite decide_True.
Qed.

Lemma reply_read_pool p id h off n :
  let req := mkRequest MEMINFO_PROTOCOL_VERSION id OpCode_READ h n off None 0 in
  snd (reply_spec sid req p) = p.
Proof.
  cbv zeta. unfold reply_spec. cbn [req_protocol_version req_op req_handle req_size req_offset].
  rewrite (decide_False (P := MEMINFO_PROTOCOL_VERSION <> 1)) by tauto.
  repeat (case_decide; [done|]). destruct (access_of _ _ _); [case_decide|]; done.
Qed.

Lemma reply_read p id h off n b :
  omap own_bytes (pool_objs p) !! h = Some b -> 0 <= off -> 0 <= n -> off + n <= zlen b ->
  let req := mkRequest MEMINFO_PROTOCOL_VERSION id OpCode_READ h n off None 0 in
  let r := fst (reply_spec sid req p) in
  (resp_status r = StatusCode_OK -> forall d, resp_data r = Some d -> d = slice off n b) /\
  (0 < n <= MAX_MESSAGE_SIZE -> resp_status r = StatusCode_OK /\ resp_data r = Some (slice off n b)).
Proof.
  intros Hb Ho Hn Hfit. cbv zeta. unfold reply_spec.
  cbn [req_protocol_version req_op req_handle req_size req_offset req_request_id].
  rewrite (decide_False (P := MEMINFO_PROTOCOL_VERSION <> 1)) by tauto.
  case_decide; [split; [done|lia]|]. case_decide; [split; [done|lia]|].
  rewrite (own_granted _ _ _ Hb). cbn [obj_bytes]. rewrite decide_True by done. cbn [fst resp_status resp_data].
  split; [by intros _ d [= <-]|done].
Qed.

Lemma reply_read_empty p id h off :
  let req := mkRequest MEMINFO_PROTOCOL_VERSION id OpCode_READ h 0 off None 0 in
  resp_data (fst (reply_spec sid req p)) = None.
Proof.
  cbv zeta. unfold reply_spec. cbn [req_protocol_version req_op req_handle req_size req_offset].
  rewrite (decide_False (P := MEMINFO_PROTOCOL_VERSION <> 1)) by tauto.
  case_decide; [done|]. by rewrite decide_True.
Qed.

#[refine] Instance pools_remote_store : RemoteStore PoolWorld := {|
  world_ok := pools_ok;
  objects := pool_objects
|}.
Proof.
  - intros w i p [_ Hram]. apply Hram.
  - intros w i req [Hok Hram] Hc _ _. eexists _, _. split; [by apply pools_call_eq|]. split; [|split; [done|]].
    + split; [|done]. intros j. cbn. case_decide; [subst; apply pool_ok_reply|]; apply Hok.
    + intros j Hj. unfold pool_objects. cbn. by rewrite decide_False.
  - intros w i id n r w' Hok Hc Hn Hr. apply pools_call_inv in Hr as [-> Ho]; [|done].
    rewrite Ho. apply reply_alloc; [done|]. apply Hok.
  - intros w i id r w' Hok Hc Hr. apply pools_call_inv in Hr as [-> Ho]; [|done].
    rewrite Ho. unfold reply_spec. cbn [req_protocol_version req_op req_size].
    rewrite (decide_False (P := MEMINFO_PROTOCOL_VERSION <> 1)) by tauto. by rewrite decide_True.
  - intros w i Hok. unfold pool_objects. rewrite lookup_omap.
    destruct (pool_objs (pw_pools w i) !! 0) eqn:E; [|done]. apply Hok in E. lia.
  - intros w i id h r w' Hok Hc Hr. apply pools_call_inv in Hr as [-> Ho]; [|done]. rewrite Ho. apply reply_free.
  - intros w i id h off d r w' b Hok Hc Hr Hd Hb Hoff Hfit. apply pools_call_inv in Hr as [-> Ho]; [|done].
    rewrite Ho. by apply reply_write.
  - intros w i id h off r w' Hok Hc Hr. apply pools_call_inv in Hr as [-> Ho]; [|done].
    rewrite Ho. by rewrite reply_write_empty.
  - intros w i id h off n r w' b Hok Hc Hr Hb Hoff Hn Hfit. apply pools_call_inv in Hr as [-> Ho]; [|done].
    split; [by rewrite Ho, reply_read_pool|]. destruct (reply_read (pw_pools w i) id h off n b Hb Hoff Hn Hfit) as [H1 H2].
    split; [exact H1|]. intros Hmax. apply H2. unfold MAX_PAYLOAD in Hmax. lia.
  - intros w i id h off n r w' Hok Hc Hr. apply pools_call_inv in Hr as [-> Ho]; [|done].
    by rewrite Ho, reply_read_pool.
  - intros w i id h off r w' Hok Hc Hr. apply pools_call_inv in Hr as [-> Ho]; [|done]. apply reply_read_empty.
  - done.
Defined.
End pools.
