(* ===== verification/MemoryClient.v ===== *)
(** * The memory client

    [memclient/src/client_api.cpp], the calls an application makes: [allocate],
    [free], [read] and [write] over a local LRU cache, with blocks evicted to
    peers, striped over several peers when none can take them whole, and loaded
    back on the next touch.  Peers, their capacities and [sync_remote_call] are
    the class [PeerNet]; the threads that keep them up to date are in
    [ClientNet.v].

    Exceptions are the monad's: [catch] is [catch (const std::exception&)], and
    the state a throwing call leaves is kept. *)

From S2P Require Import Prelude Framing Slab PageTracker Crc32c Pool MemoryProtocol LruCache RemoteStore.

(** ** State *)

Record Stripe := mkStripe {
  stripe_remote_handle : Z;
  stripe_offset : Z;
  stripe_length : Z;
  stripe_peer : Z
}.

Record RemoteAllocation := mkRemote {
  ra_remote_handle : Z;
  ra_size : Z;
  ra_peer : option Z;
  ra_stripes : list Stripe;
  ra_is_striped : bool
}.

Section client.
Context {World : Type} `{!PeerNet World} `{!PeerSort}.

Record MemoryClient := mkClient {
  cache_ : LRUCache;
  remote_handles_ : gmap Z RemoteAllocation;
  next_request_id_ : Z;
  next_local_handle_ : Z;
  world : World
}.

(** A client before its first call. *)
Definition MemoryClient_new (max_local_bytes : Z) (w : World) : MemoryClient :=
  mkClient (LRUCache_new max_local_bytes) ∅ 1 1 w.

Definition set_cache (c : LRUCache) (m : MemoryClient) : MemoryClient :=
  mkClient c (remote_handles_ m) (next_request_id_ m) (next_local_handle_ m) (world m).
Definition set_remote (r : gmap Z RemoteAllocation) (m : MemoryClient) : MemoryClient :=
  mkClient (cache_ m) r (next_request_id_ m) (next_local_handle_ m) (world m).
Definition set_world (w : World) (m : MemoryClient) : MemoryClient :=
  mkClient (cache_ m) (remote_handles_ m) (next_request_id_ m) (next_local_handle_ m) w.

Definition on_cache {A} (c : M LRUCache A) : M MemoryClient A := zoom cache_ set_cache c.
Definition on_world {A} (c : M World A) : M MemoryClient A := zoom world set_world c.

(** [next_request_id_++] *)
Definition new_request_id : M MemoryClient Z :=
  let! m := get in
  do! put (mkClient (cache_ m) (remote_handles_ m) (u64 (next_request_id_ m + 1))
             (next_local_handle_ m) (world m)) in
  ret (next_request_id_ m).

Definition get_world : M MemoryClient World := let! m := get in ret (world m).

(** Build a request with a new id, send it, wait for the reply. *)
Definition remote_call (peer : Z) (op : OpCode) (handle size offset : Z) (data : option (list byte))
    (checksum : Z) : M MemoryClient (option MemoryResponse) :=
  let! id := new_request_id in
  on_world (sync_remote_call peer
    (mkRequest MEMINFO_PROTOCOL_VERSION id op handle size offset data checksum)).

(** ** Placing a block on peers *)

(** Ask one peer; [None]: it said no, did not answer, or the call failed. *)
Definition alloc_on_peer (peer size : Z) : M MemoryClient (option Z) :=
  catch
    (let! resp := remote_call peer OpCode_ALLOC 0 size 0 None 0 in
     match resp with
     | Some r => if decide (resp_status r = StatusCode_OK) then ret (Some (resp_handle r)) else ret None
     | None => ret None
     end)
    (fun _ => ret None).

(** First try: the whole block on one peer. *)
Fixpoint try_single (candidates : list Z) (size : Z) : M MemoryClient (option (Z * Z)) :=
  match candidates with
  | [] => ret None
  | peer :: candidates =>
      let! w := get_world in
      let fits := match peer_at w peer with Some p => may_fit size p | None => false end in
      if fits then
        let! h := alloc_on_peer peer size in
        match h with
        | Some h => ret (Some (peer, h))
        | None => try_single candidates size
        end
      else try_single candidates size
  end.

(** Second try: one stripe per peer until nothing remains. *)
Fixpoint try_stripes (candidates : list Z) (remaining current_offset : Z) (stripes : list Stripe) :
    M MemoryClient (list Stripe * Z) :=
  match candidates with
  | [] => ret (stripes, remaining)
  | peer :: candidates =>
      if remaining =? 0 then ret (stripes, remaining)
      else
        let! w := get_world in
        let chunk_size :=
          match peer_at w peer with
          | Some p => if capacity_known p then Z.min remaining (free_ram_bytes p) else remaining
          | None => 0
          end in
        if chunk_size =? 0 then try_stripes candidates remaining current_offset stripes
        else
          let! h := alloc_on_peer peer chunk_size in
          match h with
          | Some h =>
              try_stripes candidates (remaining - chunk_size) (current_offset + chunk_size)
                (stripes ++ [mkStripe h current_offset chunk_size peer])
          | None => try_stripes candidates remaining current_offset stripes
          end
  end.

(** One FREE; a failed call is only logged. *)
Definition free_on_peer (peer handle : Z) : M MemoryClient unit :=
  catch (do! remote_call peer OpCode_FREE handle 0 0 None 0 in ret tt) (fun _ => ret tt).

Fixpoint free_stripes (stripes : list Stripe) : M MemoryClient unit :=
  match stripes with
  | [] => ret tt
  | s :: stripes =>
      let! w := get_world in
      do! (if is_connected w (stripe_peer s) then free_on_peer (stripe_peer s) (stripe_remote_handle s)
           else ret tt) in
      free_stripes stripes
  end.

Definition free_remote (alloc : RemoteAllocation) : M MemoryClient unit :=
  if ra_is_striped alloc then free_stripes (ra_stripes alloc)
  else
    let! w := get_world in
    match ra_peer alloc with
    | Some p => if is_connected w p then free_on_peer p (ra_remote_handle alloc) else ret tt
    | None => ret tt
    end.

Definition indexed (l : list RemotePeer) : list (Z * RemotePeer) :=
  imap (fun i p => (Z.of_nat i, p)) l.

Definition connected_peers (w : World) : list Z :=
  (filter (fun e => connected e.2 = true) (indexed (peers_ w))).*1.

Definition candidates_of (w : World) : list Z :=
  (peer_sort (filter (fun e => connected e.2 = true) (indexed (peers_ w)))).*1.

Definition set_remote_handle (handle : Z) (alloc : RemoteAllocation) : M MemoryClient unit :=
  let! m := get in put (set_remote (<[handle := alloc]> (remote_handles_ m)) m).

Definition allocate_remote (handle size : Z) : M MemoryClient unit :=
  let! w := get_world in
  do! (if bool_decide (connected_peers w = []) then
         on_world (fun w => (Ret tt, wait_for_connected_peer w))
       else ret tt) in
  let! w := get_world in
  let candidates := candidates_of w in
  let! single := try_single candidates size in
  match single with
  | Some (peer, h) => set_remote_handle handle (mkRemote h size (Some peer) [] false)
  | None =>
      if 1 <? zlen candidates then
        let! r := try_stripes candidates size 0 [] in
        let '(stripes, remaining) := r in
        if (remaining =? 0) && negb (bool_decide (stripes = [])) then
          set_remote_handle handle (mkRemote 0 size None stripes true)
        else
          do! (if bool_decide (stripes = []) then ret tt
               else free_remote (mkRemote 0 0 None stripes true)) in
          throw (runtime_error "Failed to allocate on any peer: out of memory on all peers")
      else throw (runtime_error "Failed to allocate on any peer: out of memory on all peers")
  end.

(** ** Moving bytes *)

Definition covers (s : Stripe) (pos : Z) : bool :=
  negb ((pos <? stripe_offset s) || (stripe_offset s + stripe_length s <=? pos)).

(** One pass over the stripes; [data_offset] bytes are already written. *)
Fixpoint write_pass (stripes : list Stripe) (offset : Z) (data : list byte) (data_offset : Z) :
    M MemoryClient Z :=
  match stripes with
  | [] => ret data_offset
  | s :: stripes =>
      if zlen data <=? data_offset then ret data_offset
      else if covers s (offset + data_offset) then
        let stripe_write_offset := offset + data_offset - stripe_offset s in
        let stripe_write_size := Z.min (zlen data - data_offset) (stripe_length s - stripe_write_offset) in
        let part := slice data_offset stripe_write_size data in
        do! catch
              (do! remote_call (stripe_peer s) OpCode_WRITE (stripe_remote_handle s) 0 stripe_write_offset
                     (Some part) (crc32c part 0) in ret tt)
              (fun e => throw (runtime_error (String.append "Failed to write stripe: " (what e)))) in
        write_pass stripes offset data (data_offset + stripe_write_size)
      else write_pass stripes offset data data_offset
  end.

(** The outer loop: [fuel] passes at most. *)
Fixpoint write_stripes (fuel : nat) (stripes : list Stripe) (offset : Z) (data : list byte) (data_offset : Z) :
    M MemoryClient unit :=
  if data_offset <? zlen data then
    match fuel with
    | O => nofuel
    | S fuel =>
        let! data_offset := write_pass stripes offset data data_offset in
        write_stripes fuel stripes offset data data_offset
    end
  else ret tt.

Definition write_remote (alloc : RemoteAllocation) (offset : Z) (data : list byte) : M MemoryClient unit :=
  if ra_is_striped alloc then write_stripes (length data) (ra_stripes alloc) offset data 0
  else
    let! w := get_world in
    match ra_peer alloc with
    | Some p =>
        if is_connected w p then
          do! remote_call p OpCode_WRITE (ra_remote_handle alloc) 0 offset (Some data) (crc32c data 0) in
          ret tt
        else throw (runtime_error "Peer not connected")
    | None => throw (runtime_error "Peer not connected")
    end.

(** READ a range and, when asked, FREE the object. *)
Definition read_on_peer (peer handle offset size : Z) : M MemoryClient (list byte) :=
  let! resp := remote_call peer OpCode_READ handle size offset None 0 in
  match resp with
  | None => throw (runtime_error "Empty response")
  | Some r =>
      match resp_data r with
      | Some d =>
          if decide (resp_status r = StatusCode_OK) then ret d
          else throw (runtime_error "Failed to read from remote peer")
      | None => throw (runtime_error "Failed to read from remote peer")
      end
  end.

Definition release_on_peer (release : bool) (peer handle : Z) : M MemoryClient unit :=
  if release then do! remote_call peer OpCode_FREE handle 0 0 None 0 in ret tt else ret tt.

(** One pass of a striped read; [std::copy] past the end of [result] is undefined. *)
Fixpoint read_pass (stripes : list Stripe) (offset size : Z) (release : bool) (result : list byte)
    (result_offset : Z) : M MemoryClient (list byte * Z) :=
  match stripes with
  | [] => ret (result, result_offset)
  | s :: stripes =>
      if size <=? result_offset then ret (result, result_offset)
      else if covers s (offset + result_offset) then
        let stripe_read_offset := offset + result_offset - stripe_offset s in
        let stripe_read_size := Z.min (size - result_offset) (stripe_length s - stripe_read_offset) in
        let! result :=
          catch
            (let! d := read_on_peer (stripe_peer s) (stripe_remote_handle s) stripe_read_offset stripe_read_size in
             if size <? result_offset + zlen d then undef
             else
               do! release_on_peer release (stripe_peer s) (stripe_remote_handle s) in
               ret (splice result_offset d result))
            (fun e => throw (runtime_error (String.append "Failed to read stripe: " (what e)))) in
        read_pass stripes offset size release result (result_offset + stripe_read_size)
      else read_pass stripes offset size release result result_offset
  end.

Fixpoint read_stripes (fuel : nat) (stripes : list Stripe) (offset size : Z) (release : bool)
    (result : list byte) (result_offset : Z) : M MemoryClient (list byte) :=
  if result_offset <? size then
    match fuel with
    | O => nofuel
    | S fuel =>
        let! r := read_pass stripes offset size release result result_offset in
        read_stripes fuel stripes offset size release (fst r) (snd r)
    end
  else ret result.

Definition read_remote (alloc : RemoteAllocation) (offset size : Z) (release : bool) :
    M MemoryClient (list byte) :=
  if ra_is_striped alloc then
    read_stripes (Z.to_nat size) (ra_stripes alloc) offset size release (replicate (Z.to_nat size) x00) 0
  else
    let! w := get_world in
    match ra_peer alloc with
    | Some p =>
        if is_connected w p then
          let! d := read_on_peer p (ra_remote_handle alloc) offset size in
          do! release_on_peer release p (ra_remote_handle alloc) in
          ret d
        else throw (runtime_error "Peer not connected")
    | None => throw (runtime_error "Peer not connected")
    end.

(** ** Cache and peers together *)

Definition lookup_remote (handle : Z) : M MemoryClient (option RemoteAllocation) :=
  let! m := get in ret (remote_handles_ m !! handle).

Definition erase_remote (handle : Z) : M MemoryClient unit :=
  let! m := get in put (set_remote (delete handle (remote_handles_ m)) m).

(** The [catch (...)] of [evict_if_needed]. *)
Definition roll_back (b : CacheBlock) (e : exn) : M MemoryClient unit :=
  let! orphan := lookup_remote (blk_handle b) in
  do! (match orphan with
       | Some alloc => do! erase_remote (blk_handle b) in catch (free_remote alloc) (fun _ => ret tt)
       | None => ret tt
       end) in
  do! on_cache (cache_put (blk_handle b) (blk_data b) (blk_dirty b)) in
  throw e.

Definition push_block (b : CacheBlock) : M MemoryClient unit :=
  catch
    (do! allocate_remote (blk_handle b) (zlen (blk_data b)) in
     let! alloc := lookup_remote (blk_handle b) in
     match alloc with
     | None => throw (runtime_error "Remote allocation vanished after allocate")
     | Some alloc => write_remote alloc 0 (blk_data b)
     end)
    (roll_back b).

(** The eviction loop; each turn that goes on removes a block. *)
Fixpoint evict_loop (fuel : nat) (pressure : bool) (size_needed : Z) : M MemoryClient unit :=
  let! m := get in
  if needs_eviction size_needed (cache_ m) || pressure then
    match fuel with
    | O => nofuel
    | S fuel =>
        let! evicted := on_cache evict_one in
        match evicted with
        | None => ret tt
        | Some b => do! push_block b in evict_loop fuel pressure size_needed
        end
    end
  else ret tt.

Definition under_pressure (w : World) : bool :=
  (0 <? available_bytes w) && (available_bytes w <? 100 * 1024 * 1024).

Definition evict_if_needed (size_needed : Z) : M MemoryClient unit :=
  let! m := get in
  evict_loop (S (length (list_ (cache_ m)))) (under_pressure (world m)) size_needed.

Definition oversized_remote_alloc (handle : Z) : M MemoryClient (option RemoteAllocation) :=
  let! m := get in
  match remote_handles_ m !! handle with
  | Some alloc => if ra_size alloc <=? max_size (cache_ m) then ret None else ret (Some alloc)
  | None => ret None
  end.

Definition load_to_local (handle : Z) : M MemoryClient unit :=
  let! found := lookup_remote handle in
  match found with
  | None => throw (invalid_argument "Invalid handle or block not found")
  | Some alloc =>
      do! evict_if_needed (ra_size alloc) in
      let! data := read_remote alloc 0 (ra_size alloc) true in
      do! erase_remote handle in
      do! on_cache (cache_put handle data false) in
      ret tt
  end.

(** ** The API *)

(** [next_local_handle_++] *)
Definition new_local_handle : M MemoryClient Z :=
  let! m := get in
  do! put (mkClient (cache_ m) (remote_handles_ m) (next_request_id_ m)
             (u64 (next_local_handle_ m + 1)) (world m)) in
  ret (next_local_handle_ m).

Definition client_allocate (size : Z) : M MemoryClient Z :=
  let! handle := new_local_handle in
  let! m := get in
  if max_size (cache_ m) <? size then
    do! allocate_remote handle size in ret handle
  else
    do! evict_if_needed size in
    let! ok := on_cache (cache_put handle (replicate (Z.to_nat size) x00) false) in
    if negb ok then throw (runtime_error "Failed to cache allocation locally") else ret handle.

Definition client_free (handle : Z) : M MemoryClient unit :=
  let! removed := on_cache (cache_remove handle) in
  if removed then ret tt
  else
    let! alloc := lookup_remote handle in
    match alloc with
    | None => ret tt
    | Some alloc => do! free_remote alloc in erase_remote handle
    end.

(** [offset > size() || n > size() - offset] *)
Definition out_of_bounds (total offset n : Z) : bool := (total <? offset) || (total - offset <? n).

Definition client_read (handle offset size : Z) : M MemoryClient (list byte) :=
  let! local := on_cache (cache_get handle) in
  match local with
  | Some d =>
      if out_of_bounds (zlen d) offset size then throw (out_of_range "Read out of bounds")
      else ret (slice offset size d)
  | None =>
      let! remote := oversized_remote_alloc handle in
      match remote with
      | Some alloc =>
          if out_of_bounds (ra_size alloc) offset size then throw (out_of_range "Read out of bounds")
          else read_remote alloc offset size false
      | None =>
          do! load_to_local handle in
          let! local := on_cache (cache_get handle) in
          match local with
          | None => throw (runtime_error "Failed to load block from remote")
          | Some d =>
              if out_of_bounds (zlen d) offset size then throw (out_of_range "Read out of bounds")
              else ret (slice offset size d)
          end
      end
  end.

Definition client_write (handle offset : Z) (data : list byte) : M MemoryClient unit :=
  let! local := on_cache (cache_get handle) in
  match local with
  | Some d =>
      if out_of_bounds (zlen d) offset (zlen data) then throw (out_of_range "Write out of bounds")
      else do! on_cache (cache_put handle (splice offset data d) true) in ret tt
  | None =>
      let! remote := oversized_remote_alloc handle in
      match remote with
      | Some alloc =>
          if out_of_bounds (ra_size alloc) offset (zlen data) then throw (out_of_range "Write out of bounds")
          else write_remote alloc offset data
      | None =>
          do! load_to_local handle in
          let! local := on_cache (cache_get handle) in
          match local with
          | None => throw (runtime_error "Failed to load block from remote")
          | Some d =>
              if out_of_bounds (zlen d) offset (zlen data) then throw (out_of_range "Write out of bounds")
              else do! on_cache (cache_put handle (splice offset data d) true) in ret tt
          end
      end
  end.

(** ** Properties *)

(** [write_remote] takes any answer for success: whatever the peer
    replies to the WRITE, an error status or nothing usable included, the call
    returns normally. *)
Theorem write_ignores_reply m a p off d :
  ra_is_striped a = false -> ra_peer a = Some p -> is_connected (world m) p = true ->
  (forall req, exists r w', sync_remote_call p req (world m) = (Ret r, w')) ->
  exists m', write_remote a off d m = (Ret tt, m').
Proof.
  intros Hs Hp Hc Hreply. unfold write_remote, remote_call, new_request_id, on_world, get_world. rewrite Hs, Hp.
  munfold. cbn [world]. rewrite Hc.
  edestruct Hreply as (r & w' & Hr). cbn [world]. rewrite Hr. by eexists.
Qed.
End client.
Arguments MemoryClient World : clear implicits.

(** A peer that refuses every request. *)
#[local] Instance refusing_net : PeerNet unit := {|
  peers_ _ := [mkPeer "10.0.0.1" 9090 true 0 0 true];
  wait_for_connected_peer w := w;
  available_bytes _ := 0;
  sync_remote_call _ req := ret (Some (mkResponse (req_request_id req) StatusCode_ERROR_GENERIC 0 None 0 "Invalid handle"))
|}.

Lemma write_ignores_reply_witness :
  exists m', write_remote (mkRemote 9 4 (Some 0) [] false) 0 [x01] (MemoryClient_new 4 tt) = (Ret tt, m').
Proof.
  apply (write_ignores_reply (MemoryClient_new 4 tt) (mkRemote 9 4 (Some 0) [] false) 0 0 [x01]).
  - reflexivity.
  - reflexivity.
  - vm_compute. reflexivity.
  - intros req. by eexists _, _.
Defined.

