(* ===== verification/MemoryClientSpec.v ===== *)
(** * The memory client is transparent memory

    The proofs about [MemoryClient.v].  An application sees blocks of bytes
    named by handles ([value]); where a block lives, in the local cache, on one
    peer or striped over several, does not show.  [client_wf] is the invariant
    that ties the cache, the table of remote blocks and the peers' objects
    together.  Everything is proved against the interface [RemoteStore]. *)

From S2P Require Import Prelude Framing Slab PageTracker Crc32c Pool MemoryProtocol LruCache RemoteStore MemoryClient.

Section spec.
Context {World : Type} `{!PeerNet World} {PSort : PeerSort} `{!RemoteStore World}.
Abbreviation Client := (MemoryClient World).
Implicit Types (m : Client) (w : World).

(** ** Objects on peers *)

(** A peer and a handle there. *)
Abbreviation key := (Z * Z)%type.

Definition obj (w : World) (k : key) : option (list byte) := objects w k.1 !! k.2.

(** What a step that only talks to peers leaves alone. *)
Record net_step (m m' : Client) : Prop := {
  ns_cache : cache_ m' = cache_ m;
  ns_remote : remote_handles_ m' = remote_handles_ m;
  ns_next : next_local_handle_ m' = next_local_handle_ m;
  ns_ok : world_ok (world m) -> world_ok (world m');
  ns_connected : forall i, is_connected (world m) i = true -> is_connected (world m') i = true
}.

#[local] Instance net_step_preorder : PreOrder net_step.
Proof.
  split.
  - by split.
  - intros m1 m2 m3 [] []. split; try congruence; auto.
Qed.

Lemma remote_call_spec peer op h n off d crc m :
  world_ok (world m) -> is_connected (world m) peer = true -> zlen (default [] d) <= MAX_PAYLOAD ->
  (op = OpCode_READ -> n <= MAX_PAYLOAD) ->
  exists id r m', remote_call peer op h n off d crc m = (Ret (Some r), m') /\
    sync_remote_call peer (mkRequest MEMINFO_PROTOCOL_VERSION id op h n off d crc) (world m) = (Ret (Some r), world m') /\
    net_step m m' /\ (forall k, k.1 <> peer -> obj (world m') k = obj (world m) k).
Proof.
  intros Hok Hc Hd Hrd. set (id := next_request_id_ m).
  destruct (store_call (world m) peer (mkRequest MEMINFO_PROTOCOL_VERSION id op h n off d crc) Hok Hc Hd Hrd)
    as (r & w' & Hr & Hok' & Hconn & Hoth).
  exists id, r, (mkClient (cache_ m) (remote_handles_ m) (u64 (id + 1)) (next_local_handle_ m) w').
  split; [|split; [exact Hr|split]].
  - unfold remote_call, new_request_id, on_world. munfold. cbn. fold id. by rewrite Hr.
  - by split; cbn.
  - intros k Hk. unfold obj. cbn. by rewrite Hoth.
Qed.

(** A call seen only through [k.1 = peer] and the rest. *)
Lemma obj_split peer w w' (f : gmap Z (list byte) -> gmap Z (list byte)) k :
  objects w' peer = f (objects w peer) -> (forall k, k.1 <> peer -> obj w' k = obj w k) ->
  obj w' k = if decide (k.1 = peer) then f (objects w peer) !! k.2 else obj w k.
Proof. intros Hf Ho. case_decide as Hk; [|by apply Ho]. unfold obj. by rewrite Hk, Hf. Qed.

Definition zeros (n : Z) : list byte := replicate (Z.to_nat n) x00.

Lemma alloc_on_peer_spec peer n m :
  world_ok (world m) -> is_connected (world m) peer = true -> 0 <= n ->
  wp (alloc_on_peer peer n)
    (fun r m' => net_step m m' /\
       match r with
       | Some h =>
           if decide (n = 0) then h = 0 /\ forall k, obj (world m') k = obj (world m) k
           else obj (world m) (peer, h) = None /\
                forall k, obj (world m') k = if decide (k = (peer, h)) then Some (zeros n) else obj (world m) k
       | None => forall k, obj (world m') k = obj (world m) k
       end)
    (fun _ _ => False) m.
Proof.
  intros Hok Hc Hn. unfold alloc_on_peer. apply wp_catch, wp_bind.
  destruct (remote_call_spec peer OpCode_ALLOC 0 n 0 None 0 m Hok Hc) as (id & r & m' & Hr & Hs & Hns & Hoth); [|done|].
  { cbn. unfold MAX_PAYLOAD, MAX_MESSAGE_SIZE. rewrite zlen_nil. lia. }
  eapply wp_run; [exact Hr|]. cbn beta iota.
  destruct (decide (n = 0)) as [->|Hnz].
  - destruct (store_alloc_zero _ _ _ _ _ Hok Hc Hs) as [H0 Ho].
    assert (Hsame : forall k, obj (world m') k = obj (world m) k).
    { intros k. rewrite (obj_split peer (world m) (world m') (fun o => o) k) by done. case_decide as Hk; [|done].
      unfold obj. by rewrite Hk. }
    destruct (decide (resp_status r = StatusCode_OK)); unfold wp; cbn; done.
  - assert (Hpos : 0 < n) by lia.
    destruct (store_alloc _ _ _ _ _ _ Hok Hc Hpos Hs) as [(Hst & Hfr & Ho)|(Hst & Ho)].
    + rewrite decide_True by done. unfold wp. cbn. split; [done|]. split; [done|]. intros k.
      rewrite (obj_split peer (world m) (world m') (fun o => <[resp_handle r := zeros n]> o) k) by done.
      destruct k as [p h]. cbn. destruct (decide (p = peer)) as [->|Hp].
      * rewrite lookup_insert. destruct (decide (resp_handle r = h)) as [->|Hh].
        -- by rewrite decide_True.
        -- rewrite decide_False by congruence. done.
      * by rewrite decide_False by congruence.
    + rewrite decide_False by done. unfold wp. cbn. split; [done|]. intros k.
      rewrite (obj_split peer (world m) (world m') (fun o => o) k) by done. case_decide as Hk; [|done].
      unfold obj. by rewrite Hk.
Qed.

Lemma free_call_spec peer h m :
  world_ok (world m) -> is_connected (world m) peer = true ->
  exists r m', remote_call peer OpCode_FREE h 0 0 None 0 m = (Ret (Some r), m') /\ net_step m m' /\
    forall k, obj (world m') k = if decide (k = (peer, h)) then None else obj (world m) k.
Proof.
  intros Hok Hc.
  destruct (remote_call_spec peer OpCode_FREE h 0 0 None 0 m Hok Hc) as (id & r & m' & Hr & Hs & Hns & Hoth); [|done|].
  { cbn. unfold MAX_PAYLOAD, MAX_MESSAGE_SIZE. rewrite zlen_nil. lia. }
  exists r, m'. split; [done|]. split; [done|]. intros k.
  pose proof (store_free _ _ _ _ _ _ Hok Hc Hs) as Ho.
  rewrite (obj_split peer (world m) (world m') (delete h) k) by done. destruct k as [p h']. cbn.
  destruct (decide (p = peer)) as [->|Hp].
  - rewrite lookup_delete. destruct (decide (h = h')) as [->|Hh]; [by rewrite decide_True|].
    rewrite decide_False by congruence. done.
  - by rewrite decide_False by congruence.
Qed.

Lemma free_on_peer_spec peer h m :
  world_ok (world m) -> is_connected (world m) peer = true ->
  wp (free_on_peer peer h)
    (fun _ m' => net_step m m' /\
       forall k, obj (world m') k = if decide (k = (peer, h)) then None else obj (world m) k)
    (fun _ _ => False) m.
Proof.
  intros Hok Hc. destruct (free_call_spec peer h m Hok Hc) as (r & m' & Hr & Hns & Ho).
  unfold free_on_peer. apply wp_catch, wp_bind. eapply wp_run; [exact Hr|]. unfold wp. by cbn.
Qed.

(** ** Stripes *)

Definition stripe_key (s : Stripe) : key := (stripe_peer s, stripe_remote_handle s).

(** Stripes that follow one another from [off] to [stop]. *)
Fixpoint chain (off : Z) (l : list Stripe) (stop : Z) : Prop :=
  match l with
  | [] => off = stop
  | s :: l => stripe_offset s = off /\ 0 < stripe_length s /\ chain (off + stripe_length s) l stop
  end.

Lemma chain_app off l1 mid l2 stop : chain off l1 mid -> chain mid l2 stop -> chain off (l1 ++ l2) stop.
Proof.
  revert off. induction l1 as [|s l1 IH]; intros off H1 H2; cbn in *; [by subst|].
  destruct H1 as (? & ? & H1). auto.
Qed.

Lemma chain_le off l stop : chain off l stop -> off <= stop.
Proof.
  revert off. induction l as [|s l IH]; intros off H; cbn in H; [lia|].
  destruct H as (? & ? & H). apply IH in H. lia.
Qed.

(** The object of each stripe has the stripe's length. *)
Definition stripe_held (w : World) (s : Stripe) (b : list byte) : Prop :=
  obj w (stripe_key s) = Some b /\ zlen b = stripe_length s /\ is_connected w (stripe_peer s) = true.

Lemma free_stripes_spec l : forall m,
  world_ok (world m) -> (forall s, s ∈ l -> is_connected (world m) (stripe_peer s) = true) ->
  wp (free_stripes l)
    (fun _ m' => net_step m m' /\
       forall k, obj (world m') k = if decide (k ∈ stripe_key <$> l) then None else obj (world m) k)
    (fun _ _ => False) m.
Proof.
  induction l as [|s l IH]; intros m Hok Hl; cbn [free_stripes].
  - unfold wp. cbn. split; [done|]. intros k. by rewrite decide_False by apply not_elem_of_nil.
  - unfold get_world. do 2 apply wp_bind. unfold wp at 1. cbn. rewrite (Hl s) by left.
    unfold wp at 1. cbn. apply wp_bind.
    eapply wp_mono; [apply free_on_peer_spec; [done|apply Hl; left]| |done]. cbn. intros _ m1 [Hns Ho].
    eapply wp_mono; [apply IH| |done].
    + by apply Hns.
    + intros s' Hs'. apply Hns, Hl. by right.
    + cbn. intros _ m2 [Hns2 Ho2]. split; [by etransitivity|]. intros k. rewrite Ho2, Ho.
      destruct (decide (k ∈ stripe_key <$> l)) as [Hin|Hin].
      * by rewrite decide_True by (by right).
      * destruct (decide (k = (stripe_peer s, stripe_remote_handle s))) as [->|Hk].
        -- by rewrite decide_True by left.
        -- rewrite decide_False; [done|]. by intros [?|?]%elem_of_cons.
Qed.

(** ** Placing a block *)

Lemma get_world_wp (Q : World -> Client -> Prop) E m : Q (world m) m -> wp get_world Q E m.
Proof. done. Qed.

(** A new object at a key that had none; nothing for an empty block. *)
Definition placed (n : Z) (k0 : key) (w w' : World) : Prop :=
  if decide (n = 0) then k0.2 = 0 /\ forall k, obj w' k = obj w k
  else obj w k0 = None /\ forall k, obj w' k = if decide (k = k0) then Some (zeros n) else obj w k.

Lemma placed_ext n k0 w1 w w' : (forall k, obj w1 k = obj w k) -> placed n k0 w1 w' -> placed n k0 w w'.
Proof.
  unfold placed. intros Hw. case_decide; intros [H1 H2]; (split; [congruence|]); intros k; rewrite H2, ?Hw; done.
Qed.

Lemma try_single_spec l n : forall m,
  world_ok (world m) -> 0 <= n -> (forall p, p ∈ l -> is_connected (world m) p = true) ->
  wp (try_single l n)
    (fun r m' => net_step m m' /\
       match r with
       | Some k => is_connected (world m') k.1 = true /\ placed n k (world m) (world m')
       | None => forall k, obj (world m') k = obj (world m) k
       end)
    (fun _ _ => False) m.
Proof.
  induction l as [|p l IH]; intros m Hok Hn Hl; cbn [try_single]; [done|].
  apply wp_bind, get_world_wp.
  assert (Hl' : forall q, q ∈ l -> is_connected (world m) q = true) by (intros; apply Hl; by right).
  assert (Hp : is_connected (world m) p = true) by (apply Hl; left).
  destruct (match peer_at (world m) p with Some _ => _ | None => _ end); [|by apply IH]. apply wp_bind.
  eapply wp_mono; [by apply alloc_on_peer_spec| |done]. cbn. intros [h|] m1 [Hns Ho].
  - unfold wp, placed. cbn. split; [done|]. split; [by apply Hns|done].
  - eapply wp_mono; [apply IH| |done].
    + by apply Hns.
    + done.
    + intros q Hq. by apply Hns, Hl'.
    + cbn. intros [k|] m2 [Hns2 Ho2]; (split; [by etransitivity|]).
      * destruct Ho2 as [Hq Ho2]. split; [done|]. by eapply placed_ext.
      * intros k. by rewrite Ho2, Ho.
Qed.

(** Stripes [new] made from an unchanged world: distinct fresh objects of the
    stripes' lengths, all zero. *)
Record stripes_made (new : list Stripe) (w w' : World) : Prop := {
  sm_nodup : NoDup (stripe_key <$> new);
  sm_fresh : forall k, k ∈ stripe_key <$> new -> obj w k = None;
  sm_held : forall s, s ∈ new -> stripe_held w' s (zeros (stripe_length s));
  sm_rest : forall k, k ∉ stripe_key <$> new -> obj w' k = obj w k
}.

Lemma zlen_zeros n : 0 <= n -> zlen (zeros n) = n.
Proof. apply zlen_replicate. Qed.

Lemma stripes_made_nil w w' : (forall k, obj w' k = obj w k) -> stripes_made [] w w'.
Proof. intros H. split; [constructor|..]; [by intros k ?%not_elem_of_nil..|auto]. Qed.

Lemma stripes_made_cons s new w w1 w' :
  0 < stripe_length s -> placed (stripe_length s) (stripe_key s) w w1 ->
  is_connected w' (stripe_peer s) = true -> stripes_made new w1 w' -> stripes_made (s :: new) w w'.
Proof.
  intros Hpos Hpl Hc [Hnd Hfr Hh Hrest]. unfold placed in Hpl. rewrite decide_False in Hpl by lia.
  destruct Hpl as [Hnone Hw1].
  assert (Hnot : stripe_key s ∉ stripe_key <$> new).
  { intros Hin. apply Hfr in Hin. rewrite Hw1, decide_True in Hin by done. done. }
  split.
  - cbn. by constructor.
  - intros k [->|Hin]%elem_of_cons; [done|]. pose proof (Hfr k Hin) as Hk. rewrite Hw1 in Hk.
    by case_decide.
  - intros s' [->|Hin]%elem_of_cons; [|by apply Hh]. split; [|split; [by apply zlen_zeros; lia|done]].
    rewrite Hrest, Hw1 by done. by rewrite decide_True.
  - intros k Hk. cbn in Hk. apply not_elem_of_cons in Hk as [Hk1 Hk2]. rewrite Hrest, Hw1 by done.
    by rewrite decide_False.
Qed.

Lemma stripes_made_ext new w1 w w' :
  (forall k, obj w1 k = obj w k) -> stripes_made new w1 w' -> stripes_made new w w'.
Proof.
  intros Hw [Hnd Hfr Hh Hrest]. split; [done|..|done|].
  - intros k Hk. rewrite <- Hw. auto.
  - intros k Hk. rewrite <- Hw. auto.
Qed.

Lemma try_stripes_spec l : forall m remaining cur acc,
  world_ok (world m) -> 0 <= remaining -> (forall p, p ∈ l -> is_connected (world m) p = true) ->
  wp (try_stripes l remaining cur acc)
    (fun r m' => net_step m m' /\ exists new, fst r = acc ++ new /\ 0 <= snd r /\
       chain cur new (cur + (remaining - snd r)) /\ stripes_made new (world m) (world m'))
    (fun _ _ => False) m.
Proof.
  induction l as [|p l IH]; intros m remaining cur acc Hok Hr Hl; cbn [try_stripes].
  { unfold wp. cbn. split; [done|]. exists []. rewrite app_nil_r. split_and!; try done; [cbn; lia|by apply stripes_made_nil]. }
  destruct (Z.eqb_spec remaining 0) as [->|Hrem].
  { unfold wp. cbn. split; [done|]. exists []. rewrite app_nil_r. split_and!; try done; [cbn; lia|by apply stripes_made_nil]. }
  apply wp_bind, get_world_wp.
  assert (Hl' : forall q, q ∈ l -> is_connected (world m) q = true) by (intros; apply Hl; by right).
  assert (Hp : is_connected (world m) p = true) by (apply Hl; left).
  cbv zeta. set (chunk := match peer_at (world m) p with Some _ => _ | None => _ end).
  assert (Hch : 0 <= chunk <= remaining).
  { unfold chunk. destruct (peer_at (world m) p) as [q|] eqn:Eq; [|lia].
    pose proof (store_ram _ _ _ Hok Eq). destruct (capacity_known q); lia. }
  clearbody chunk.
  destruct (Z.eqb_spec chunk 0) as [Hc0|Hc0]; [by apply IH|]. apply wp_bind.
  eapply wp_mono; [by apply alloc_on_peer_spec; [..|lia]| |done]. cbn. intros [h|] m1 [Hns Ho].
  - eapply wp_mono; [apply IH; [by apply Hns|lia|intros; by apply Hns, Hl']| |done]. cbn.
    intros [sts rem] m2 (Hns2 & new & Hnew & Hr0 & Hch2 & Hmade). cbn in *.
    split; [by etransitivity|]. exists (mkStripe h cur chunk p :: new). split_and!; try done.
    + by rewrite Hnew, <- app_assoc.
    + cbn. split; [done|]. split; [lia|].
      by replace (cur + (remaining - rem)) with (cur + chunk + (remaining - chunk - rem)) by lia.
    + eapply stripes_made_cons; [cbn; lia| | |done].
      * cbn. unfold placed. rewrite !decide_False in * by lia. exact Ho.
      * cbn. by apply Hns2, Hns.
  - eapply wp_mono; [apply IH; [by apply Hns|lia|intros; by apply Hns, Hl']| |done]. cbn.
    intros [sts rem] m2 (Hns2 & new & Hnew & Hr0 & Hch2 & Hmade). cbn in *.
    split; [by etransitivity|]. exists new. split_and!; try done. by eapply stripes_made_ext.
Qed.
(** ** Blocks on peers

    Seen as stripes: a block on one peer is one stripe, an empty one none. *)

Definition stripes_of (a : RemoteAllocation) : list Stripe :=
  if ra_is_striped a then ra_stripes a
  else
    match ra_peer a with
    | Some p => if 0 <? ra_size a then [mkStripe (ra_remote_handle a) 0 (ra_size a) p] else []
    | None => []
    end.

Definition keys (l : list Stripe) : list key := stripe_key <$> l.

Definition content (w : World) (l : list Stripe) : list byte :=
  concat ((fun s => default [] (obj w (stripe_key s))) <$> l).

Definition held (w : World) (l : list Stripe) : Prop := forall s, s ∈ l -> exists b, stripe_held w s b.

Record alloc_ok (w : World) (a : RemoteAllocation) : Prop := {
  ao_chain : chain 0 (stripes_of a) (ra_size a);
  ao_keys : NoDup (keys (stripes_of a));
  ao_held : held w (stripes_of a);
  ao_single : ra_is_striped a = false -> exists p, ra_peer a = Some p /\ is_connected w p = true /\
    (ra_size a = 0 -> ra_remote_handle a = 0)
}.

Lemma content_cons w s l : content w (s :: l) = default [] (obj w (stripe_key s)) ++ content w l.
Proof. done. Qed.

Lemma content_ext w w' l : (forall k, k ∈ keys l -> obj w' k = obj w k) -> content w' l = content w l.
Proof.
  intros H. unfold content. f_equal. apply list_fmap_ext. intros i s Hs.
  rewrite H; [done|]. apply list_elem_of_fmap. exists s. split; [done|]. by eapply list_elem_of_lookup_2.
Qed.

Lemma held_cons w s l : held w (s :: l) <-> (exists b, stripe_held w s b) /\ held w l.
Proof.
  split.
  - intros H. split; [apply H; left|]. intros s' Hs'. apply H. by right.
  - intros [Hs Hl] s' [->|?]%elem_of_cons; auto.
Qed.

Lemma held_ext w w' l :
  (forall k, k ∈ keys l -> obj w' k = obj w k) ->
  (forall i, is_connected w i = true -> is_connected w' i = true) -> held w l -> held w' l.
Proof.
  intros Ho Hc Hh s Hs. destruct (Hh s Hs) as (b & Hb & Hn & Hp). exists b. split; [|auto].
  rewrite Ho; [done|]. by apply list_elem_of_fmap_2.
Qed.

Lemma zlen_content w l : forall off stop, chain off l stop -> held w l -> zlen (content w l) = stop - off.
Proof.
  induction l as [|s l IH]; intros off stop Hch Hh; cbn in Hch; [subst; unfold zlen; cbn; lia|].
  destruct Hch as (_ & _ & Hch). apply held_cons in Hh as [(b & Hb & Hn & _) Hh].
  rewrite content_cons, Hb, zlen_app. cbn. rewrite (IH _ _ Hch Hh). lia.
Qed.

Lemma indexed_lookup (l : list RemotePeer) i p : (i, p) ∈ indexed l -> znth l i = Some p.
Proof.
  unfold indexed. intros (j & Hj)%list_elem_of_lookup. rewrite list_lookup_imap in Hj.
  destruct (l !! j) as [q|] eqn:E; cbn in Hj; [|done]. simplify_eq.
  rewrite znth_lookup by lia. by rewrite Nat2Z.id.
Qed.

Lemma candidates_connected w p : p ∈ candidates_of w -> is_connected w p = true.
Proof.
  unfold candidates_of. intros ([i q] & -> & Hin)%list_elem_of_fmap. rewrite peer_sort_perm in Hin.
  apply list_elem_of_filter in Hin as [Hc Hin%indexed_lookup]. cbn in *.
  unfold is_connected, peer_at. by rewrite Hin.
Qed.

(** A block just placed: new objects, all zero, the others as they were. *)
Record fresh_alloc (n : Z) (a : RemoteAllocation) (w w' : World) : Prop := {
  fa_ok : alloc_ok w' a;
  fa_size : ra_size a = n;
  fa_zero : content w' (stripes_of a) = zeros n;
  fa_fresh : forall k, k ∈ keys (stripes_of a) -> obj w k = None;
  fa_rest : forall k, k ∉ keys (stripes_of a) -> obj w' k = obj w k
}.

Lemma fresh_alloc_ext n a w1 w w' :
  (forall k, obj w1 k = obj w k) -> fresh_alloc n a w1 w' -> fresh_alloc n a w w'.
Proof.
  intros Hw []. split; try done.
  - intros k Hk. rewrite <- Hw. auto.
  - intros k Hk. rewrite <- Hw. auto.
Qed.

Lemma fresh_single n p h w w' :
  0 <= n -> is_connected w' p = true -> placed n (p, h) w w' ->
  fresh_alloc n (mkRemote h n (Some p) [] false) w w'.
Proof.
  intros Hn Hc Hpl. unfold placed in Hpl. case_decide as Hz.
  - destruct Hpl as [Hh Ho]. subst. cbn in *. subst. split; try done.
    + split; try done; [constructor|by intros s ?%not_elem_of_nil|]. intros _. by exists p.
    + by intros k ?%not_elem_of_nil.
  - destruct Hpl as [Hnone Ho].
    assert (Hst : stripes_of (mkRemote h n (Some p) [] false) = [mkStripe h 0 n p]).
    { unfold stripes_of. cbn. by rewrite (proj2 (Z.ltb_lt 0 n)) by lia. }
    assert (Hp : obj w' (p, h) = Some (zeros n)) by (rewrite Ho; by rewrite decide_True).
    split; rewrite ?Hst; try done.
    + split; rewrite ?Hst; cbn.
      * split; [done|]. lia.
      * apply NoDup_singleton.
      * intros s ->%list_elem_of_singleton. exists (zeros n). split; [done|]. split; [by apply zlen_zeros|done].
      * intros _. exists p. split; [done|]. split; [done|]. lia.
    + rewrite content_cons. unfold stripe_key. cbn [stripe_peer stripe_remote_handle]. rewrite Hp.
      by cbn [default]; rewrite app_nil_r.
    + by intros k ->%list_elem_of_singleton.
    + intros k Hk. rewrite Ho, decide_False; [done|]. intros ->. apply Hk. left.
Qed.

Lemma content_zeros w l : forall off stop, chain off l stop ->
  (forall s, s ∈ l -> stripe_held w s (zeros (stripe_length s))) -> content w l = zeros (stop - off).
Proof.
  induction l as [|s l IH]; intros off stop Hch Hh; cbn in Hch.
  { subst. by replace (stop - stop) with 0 by lia. }
  destruct Hch as (_ & Hpos & Hch). pose proof (chain_le _ _ _ Hch).
  destruct (Hh s) as [Hs _]; [left|].
  rewrite content_cons, Hs, (IH _ _ Hch) by (intros; apply Hh; by right). cbn. unfold zeros.
  rewrite <- replicate_add. f_equal. lia.
Qed.

Lemma fresh_striped n l w w' :
  chain 0 l n -> stripes_made l w w' -> fresh_alloc n (mkRemote 0 n None l true) w w'.
Proof.
  intros Hch [Hnd Hfr Hh Hrest]. split; cbn; try done.
  - split; cbn; try done. intros s Hs. exists (zeros (stripe_length s)). by apply Hh.
  - change (content w' l = zeros n). rewrite (content_zeros w' l 0 n) by done. f_equal. lia.
Qed.

Definition same_objects (m m' : Client) : Prop := forall k, obj (world m') k = obj (world m) k.

Lemma free_made_stripes l w m :
  world_ok (world m) -> stripes_made l w (world m) ->
  wp (free_remote (mkRemote 0 0 None l true))
    (fun _ m' => net_step m m' /\ forall k, obj (world m') k = obj w k) (fun _ _ => False) m.
Proof.
  intros Hok [Hnd Hfr Hh Hrest]. unfold free_remote. cbn [ra_is_striped ra_stripes].
  eapply wp_mono; [apply free_stripes_spec; [done|]| |done].
  - intros s Hs. by apply (Hh s Hs).
  - cbn. intros _ m' [Hns Ho]. split; [done|]. intros k. rewrite Ho.
    case_decide as Hk; [by rewrite Hfr|]. by apply Hrest.
Qed.

Lemma wait_wp m :
  world_ok (world m) ->
  wp (on_world (fun w => (Ret tt, wait_for_connected_peer w)))
    (fun _ m' => net_step m m' /\ same_objects m m') (fun _ _ => False) m.
Proof.
  intros Hok. destruct (store_wait _ Hok) as (Hok' & Hc & Ho). unfold wp, on_world. cbn.
  split; [by split; cbn|]. intros k. unfold obj. cbn. by rewrite Ho.
Qed.

Lemma allocate_remote_spec h n m :
  world_ok (world m) -> 0 <= n ->
  wp (allocate_remote h n)
    (fun _ m' => exists a m1, net_step m m1 /\ m' = set_remote (<[h := a]> (remote_handles_ m)) m1 /\
       fresh_alloc n a (world m) (world m1))
    (fun _ m' => net_step m m' /\ same_objects m m') m.
Proof.
  intros Hok Hn. unfold allocate_remote. apply wp_bind, get_world_wp, wp_bind.
  eapply wp_mono with (E := fun _ _ => False) (Q := fun _ m' => net_step m m' /\ same_objects m m'); [|cbn|done].
  { case_bool_decide; [by apply wait_wp|]. unfold wp. by cbn. }
  intros _ m1 [Hns1 Ho1]. apply wp_bind, get_world_wp. cbv zeta.
  assert (Hok1 : world_ok (world m1)) by (by apply Hns1).
  assert (Hcand : forall p, p ∈ candidates_of (world m1) -> is_connected (world m1) p = true) by apply candidates_connected.
  clear Hok. apply wp_bind. eapply wp_mono; [by apply try_single_spec| |done]. cbn.
  intros [[p rh]|] m2 [Hns2 Hpost].
  { destruct Hpost as [Hc Hpl]. unfold set_remote_handle, wp. cbn. eexists _, m2. split; [by etransitivity|].
    split; [by rewrite (ns_remote _ _ Hns2), (ns_remote _ _ Hns1)|].
    eapply fresh_alloc_ext; [exact Ho1|]. by apply fresh_single. }
  assert (Ho2 : same_objects m m2) by (intros k; by rewrite Hpost, Ho1).
  assert (Hns02 : net_step m m2) by (by etransitivity).
  case_match; [|unfold wp; by cbn].
  assert (Hok2 : world_ok (world m2)) by (by apply Hns2). apply wp_bind.
  eapply wp_mono; [apply try_stripes_spec; [done|done|intros; by apply Hns2, Hcand]| |done]. cbn.
  intros [new rem] m3 (Hns3 & new' & Hnew & Hr0 & Hch & Hmade). cbn in Hnew, Hr0, Hch. subst new'.
  assert (Hns03 : net_step m m3) by (by etransitivity).
  apply (stripes_made_ext _ _ (world m)) in Hmade; [|done].
  destruct (Z.eqb_spec rem 0) as [->|Hrem]; cbn [andb]; [case_bool_decide as Hnil; cbn [negb]|case_bool_decide as Hnil].
  - apply wp_bind. subst. unfold wp. cbn. split; [done|]. intros k. by apply Hmade, not_elem_of_nil.
  - unfold set_remote_handle, wp. cbn. eexists _, m3. split; [done|].
    split; [by rewrite (ns_remote _ _ Hns03)|]. apply fresh_striped; [|done].
    by replace n with (0 + (n - 0)) by lia.
  - apply wp_bind. subst. unfold wp. cbn. split; [done|]. intros k. by apply Hmade, not_elem_of_nil.
  - apply wp_bind. eapply wp_mono; [apply (free_made_stripes new (world m)); [by apply Hns3|done]| |done].
    cbn. intros _ m4 [Hns4 Ho4]. unfold wp. cbn. split; [by etransitivity|done].
Qed.

(** ** Writing to a block on peers *)

Lemma remote_call_wp peer op h n off d crc m Q E :
  world_ok (world m) -> is_connected (world m) peer = true -> zlen (default [] d) <= MAX_PAYLOAD ->
  (op = OpCode_READ -> n <= MAX_PAYLOAD) ->
  (forall id r m',
     sync_remote_call peer (mkRequest MEMINFO_PROTOCOL_VERSION id op h n off d crc) (world m) = (Ret (Some r), world m') ->
     net_step m m' -> (forall k, k.1 <> peer -> obj (world m') k = obj (world m) k) -> Q (Some r) m') ->
  wp (remote_call peer op h n off d crc) Q E m.
Proof.
  intros Hok Hc Hd Hrd HQ. destruct (remote_call_spec peer op h n off d crc m Hok Hc Hd Hrd) as (id & r & m' & Hr & Hs & Hns & Ho).
  eapply wp_run; [exact Hr|]. by eapply HQ.
Qed.

Lemma write_call_wp peer h off d b m (Q : option MemoryResponse -> Client -> Prop) E :
  world_ok (world m) -> is_connected (world m) peer = true -> zlen d <= MAX_PAYLOAD ->
  obj (world m) (peer, h) = Some b -> 0 <= off -> off + zlen d <= zlen b ->
  (forall r m', net_step m m' ->
     (forall k, obj (world m') k = if decide (k = (peer, h)) then Some (splice off d b) else obj (world m) k) ->
     Q (Some r) m') ->
  wp (remote_call peer OpCode_WRITE h 0 off (Some d) (crc32c d 0)) Q E m.
Proof.
  intros Hok Hc Hd Hb Hoff Hfit HQ. apply remote_call_wp; [done..|]. intros id r m' Hs Hns Ho.
  apply HQ; [done|]. intros k.
  pose proof (store_write _ _ _ _ _ _ _ _ _ Hok Hc Hs Hd Hb Hoff Hfit) as Hw.
  rewrite (obj_split peer (world m) (world m') (fun o => <[h := splice off d b]> o) k) by done.
  destruct k as [p h']. cbn. destruct (decide (p = peer)) as [->|Hp].
  - rewrite lookup_insert. destruct (decide (h = h')) as [->|Hh]; [by rewrite decide_True|].
    rewrite decide_False by congruence. done.
  - by rewrite decide_False by congruence.
Qed.

Lemma splice_app_skip {A} o (src b rest : list A) :
  zlen b <= o -> splice o src (b ++ rest) = b ++ splice (o - zlen b) src rest.
Proof.
  unfold splice, zlen. intros H. rewrite take_app_ge, drop_app_ge, <- app_assoc by lia.
  f_equal. f_equal; [f_equal; lia|]. f_equal. f_equal. lia.
Qed.

Lemma splice_app_in {A} o (src b rest : list A) :
  0 <= o -> o + zlen src <= zlen b -> splice o src (b ++ rest) = splice o src b ++ rest.
Proof.
  unfold splice, zlen. intros Ho H. rewrite take_app_le, drop_app_le, <- !app_assoc by lia. done.
Qed.

Lemma splice_app_over {A} o (s1 s2 b rest : list A) :
  0 <= o -> o + zlen s1 = zlen b -> splice o (s1 ++ s2) (b ++ rest) = splice o s1 b ++ splice 0 s2 rest.
Proof.
  unfold splice, zlen. intros Ho H. rewrite length_app, take_app_le, drop_app_ge by lia.
  rewrite (drop_ge b) by lia. cbn. rewrite app_nil_r, <- !app_assoc.
  by replace (Z.to_nat o + (length s1 + length s2) - length b)%nat with (length s2) by lia.
Qed.

(** The part of [data] still to write at [o] of the stripes that follow. *)
Definition spliced (o done_ : Z) (data b : list byte) : list byte :=
  if done_ <? zlen data then splice o (slice done_ (zlen data - done_) data) b else b.

Lemma spliced_skip o done_ data b rest :
  done_ < zlen data -> zlen b <= o -> spliced o done_ data (b ++ rest) = b ++ spliced (o - zlen b) done_ data rest.
Proof. intros Hd Hb. unfold spliced. zcase. by apply splice_app_skip. Qed.

Lemma spliced_chunk o done_ data b rest n :
  0 <= done_ -> done_ < zlen data -> 0 <= o < zlen b -> n = Z.min (zlen data - done_) (zlen b - o) ->
  spliced o done_ data (b ++ rest) =
    splice o (slice done_ n data) b ++ spliced (o + n - zlen b) (done_ + n) data rest.
Proof.
  intros H0 Hd Ho Hn. unfold spliced. zcase.
  - replace (zlen data - done_) with (n + (zlen data - done_ - n)) by lia.
    rewrite <- slice_app_adj by lia.
    rewrite splice_app_over by (rewrite ?zlen_slice; lia).
    f_equal. f_equal; [lia|]. f_equal. lia.
  - assert (Hn' : n = zlen data - done_) by lia. rewrite Hn'. apply splice_app_in; [lia|].
    rewrite zlen_slice by lia. lia.
Qed.

Lemma covers_spec s pos : covers s pos = true <-> (stripe_offset s <= pos < stripe_offset s + stripe_length s).
Proof. unfold covers. rewrite negb_true_iff, orb_false_iff, Z.ltb_ge, Z.leb_gt. done. Qed.

(** A world in which one object changed. *)
Definition set_obj (k0 : key) (ob : option (list byte)) (w w' : World) : Prop :=
  forall k, obj w' k = if decide (k = k0) then ob else obj w k.

Lemma set_obj_rest k0 ob w w' l :
  set_obj k0 ob w w' -> k0 ∉ keys l -> forall k, k ∈ keys l -> obj w' k = obj w k.
Proof. intros Hs Hn k Hk. rewrite Hs, decide_False; [done|]. by intros ->. Qed.

Lemma NoDup_keys_cons s l : NoDup (keys (s :: l)) <-> (stripe_key s ∉ keys l) /\ NoDup (keys l).
Proof. unfold keys. rewrite fmap_cons. apply NoDup_cons. Qed.

(** After a pass: the stripes hold the new bytes and everything is written. *)
Record pass_written (l : list Stripe) (o done_ : Z) (data : list byte) (m m' : Client) : Prop := {
  pw_step : net_step m m';
  pw_content : content (world m') l = spliced o done_ data (content (world m) l);
  pw_held : held (world m') l;
  pw_rest : forall k, k ∉ keys l -> obj (world m') k = obj (world m) k
}.

Lemma pass_written_refl l o done_ data m :
  zlen data <= done_ -> held (world m) l -> pass_written l o done_ data m m.
Proof. intros Hd Hh. split; try done. unfold spliced. by zcase. Qed.

Lemma pass_written_skip s l b o done_ data m m' :
  stripe_held (world m) s b -> stripe_key s ∉ keys l -> done_ < zlen data -> zlen b <= o ->
  pass_written l (o - zlen b) done_ data m m' -> pass_written (s :: l) o done_ data m m'.
Proof.
  intros (Hb & Hn & Hp) Hk Hd Ho [Hns Hc Hh Hr].
  assert (Hb' : obj (world m') (stripe_key s) = Some b) by (by rewrite Hr).
  split; [done|..].
  - rewrite !content_cons, Hb, Hb', Hc. cbn [default]. by rewrite spliced_skip.
  - apply held_cons. split; [|done]. exists b. split; [done|]. split; [done|]. by apply Hns.
  - intros k [_ Hk']%not_elem_of_cons. by apply Hr.
Qed.

Lemma pass_written_chunk s l b o done_ n data m m1 m' :
  stripe_held (world m) s b -> stripe_key s ∉ keys l -> 0 <= done_ -> done_ < zlen data -> 0 <= o < zlen b ->
  n = Z.min (zlen data - done_) (zlen b - o) -> net_step m m1 ->
  set_obj (stripe_key s) (Some (splice o (slice done_ n data) b)) (world m) (world m1) ->
  pass_written l (o + n - zlen b) (done_ + n) data m1 m' -> pass_written (s :: l) o done_ data m m'.
Proof.
  intros (Hb & Hn & Hp) Hk H0 Hd Ho Hmin Hns1 Hs1 [Hns Hc Hh Hr].
  assert (Hb' : obj (world m') (stripe_key s) = Some (splice o (slice done_ n data) b)).
  { rewrite Hr by done. by rewrite Hs1, decide_True. }
  split; [by etransitivity|..].
  - rewrite !content_cons, Hb, Hb', Hc. cbn [default].
    rewrite (content_ext (world m) (world m1)) by (by eapply set_obj_rest).
    symmetry. by apply spliced_chunk.
  - apply held_cons. split; [|done]. eexists. split; [done|]. split; [|by apply Hns, Hns1].
    rewrite zlen_splice; [done|lia|]. rewrite zlen_slice by lia. lia.
  - intros k [Hk1 Hk2]%not_elem_of_cons. rewrite Hr by done. by rewrite Hs1, decide_False.
Qed.

Lemma write_pass_spec l offset data : forall cur stop done_ m,
  chain cur l stop -> NoDup (keys l) -> world_ok (world m) -> held (world m) l -> zlen data <= MAX_PAYLOAD ->
  0 <= done_ -> (done_ < zlen data -> cur <= offset + done_) -> offset + zlen data <= stop ->
  wp (write_pass l offset data done_)
    (fun r m' => zlen data <= r /\ pass_written l (offset + done_ - cur) done_ data m m')
    (fun _ _ => False) m.
Proof.
  induction l as [|s l IH]; intros cur stop done_ m Hch Hnd Hok Hh Hmax H0 Hcur Hstop; cbn [write_pass].
  { cbn in Hch. subst. unfold wp. cbn. assert (zlen data <= done_) by lia. split; [done|].
    by apply pass_written_refl. }
  destruct (Z.leb_spec (zlen data) done_) as [Hdone|Hdone].
  { unfold wp. cbn. split; [done|]. by apply pass_written_refl. }
  destruct Hch as (Hso & Hpos & Hch). apply NoDup_keys_cons in Hnd as [Hk Hnd].
  apply held_cons in Hh as [(b & Hb) Hh]. pose proof Hb as (Hob & Hlen & Hp). specialize (Hcur Hdone).
  destruct (covers s (offset + done_)) eqn:Ecov.
  - apply covers_spec in Ecov. rewrite Hso in *.
    set (n := Z.min (zlen data - done_) (stripe_length s - (offset + done_ - cur))) in *.
    assert (Hn : n = Z.min (zlen data - done_) (stripe_length s - (offset + done_ - cur))) by done. clearbody n.
    apply wp_bind, wp_catch, wp_bind.
    eapply write_call_wp; [done..| |exact Hob| | |]; rewrite ?zlen_slice by lia; [lia..|].
    intros r m1 Hns Ho. unfold wp at 1. cbn.
    pose proof (set_obj_rest _ _ _ _ l Ho Hk) as Hrest.
    eapply wp_mono; [apply (IH (cur + stripe_length s) stop (done_ + n)); try done| |done].
    + by apply Hns.
    + eapply held_ext; [exact Hrest| |done]. apply Hns.
    + lia.
    + lia.
    + cbn. intros r' m' [Hr' Hpw]. split; [done|].
      eapply (pass_written_chunk s l b _ _ n); try done; [lia|lia|].
      by replace (offset + done_ - cur + n - zlen b) with (offset + (done_ + n) - (cur + stripe_length s)) by lia.
  - assert (Hge : cur + stripe_length s <= offset + done_).
    { apply not_true_iff_false in Ecov. rewrite covers_spec in Ecov. lia. }
    eapply wp_mono; [apply (IH (cur + stripe_length s) stop done_); try done| |done].
    cbn. intros r' m' [Hr' Hpw]. split; [done|]. apply (pass_written_skip s l b); try done; [lia|].
    by replace (offset + done_ - cur - zlen b) with (offset + done_ - (cur + stripe_length s)) by lia.
Qed.

Lemma write_stripes_spec l offset data stop m :
  chain 0 l stop -> NoDup (keys l) -> world_ok (world m) -> held (world m) l -> zlen data <= MAX_PAYLOAD ->
  0 <= offset -> offset + zlen data <= stop ->
  wp (write_stripes (length data) l offset data 0)
    (fun _ m' => pass_written l offset 0 data m m') (fun _ _ => False) m.
Proof.
  intros Hch Hnd Hok Hh Hmax Ho Hstop. destruct data as [|b data].
  { unfold wp. cbn. by apply pass_written_refl. }
  set (d := b :: data) in *. assert (Hpos : 0 < zlen d) by (unfold d; rewrite zlen_cons; pose proof (zlen_nonneg data); lia).
  change (length d) with (S (length data)). cbn [write_stripes]. destruct (Z.ltb_spec 0 (zlen d)); [|lia].
  apply wp_bind. eapply wp_mono; [apply (write_pass_spec l offset d 0 stop 0 m); (done || lia)| |done]. cbn beta.
  intros r m' [Hr Hpw]. destruct (length data) as [|k]; cbn [write_stripes];
    (destruct (Z.ltb_spec r (zlen d)); [lia|]); unfold wp; cbn; by replace (offset + 0 - 0) with offset in Hpw by lia.
Qed.

Lemma alloc_ok_step w w' a :
  alloc_ok w a -> held w' (stripes_of a) -> (forall i, is_connected w i = true -> is_connected w' i = true) ->
  alloc_ok w' a.
Proof.
  intros [Hch Hnd Hh Hs] Hh' Hc. split; try done.
  intros Hst. destruct (Hs Hst) as (p & ? & ? & ?). eauto 6.
Qed.

(** What a write to a block on peers does. *)
Record block_written (a : RemoteAllocation) (off : Z) (d : list byte) (m m' : Client) : Prop := {
  bw_step : net_step m m';
  bw_ok : alloc_ok (world m') a;
  bw_content : content (world m') (stripes_of a) = splice off d (content (world m) (stripes_of a));
  bw_rest : forall k, k ∉ keys (stripes_of a) -> obj (world m') k = obj (world m) k
}.

Lemma zlen_alloc w a : alloc_ok w a -> zlen (content w (stripes_of a)) = ra_size a.
Proof. intros [Hch _ Hh _]. rewrite (zlen_content w _ 0 (ra_size a)) by done. lia. Qed.

Lemma alloc_size_nonneg w a : alloc_ok w a -> 0 <= ra_size a.
Proof. intros [Hch _ _ _]. by apply chain_le in Hch. Qed.

Lemma stripes_of_single a p :
  ra_is_striped a = false -> ra_peer a = Some p -> 0 < ra_size a ->
  stripes_of a = [mkStripe (ra_remote_handle a) 0 (ra_size a) p].
Proof. intros H1 H2 H3. unfold stripes_of. rewrite H1, H2. destruct (Z.ltb_spec 0 (ra_size a)); [done|lia]. Qed.

Lemma stripes_of_empty a p :
  ra_is_striped a = false -> ra_peer a = Some p -> ra_size a = 0 -> stripes_of a = [].
Proof. intros H1 H2 H3. unfold stripes_of. by rewrite H1, H2, H3. Qed.

Lemma write_remote_spec a off d m :
  world_ok (world m) -> alloc_ok (world m) a -> 0 <= off -> off + zlen d <= ra_size a -> zlen d <= MAX_PAYLOAD ->
  wp (write_remote a off d) (fun _ m' => block_written a off d m m') (fun _ _ => False) m.
Proof.
  intros Hok Ha Hoff Hfit Hmax. pose proof (zlen_nonneg d). pose proof (zlen_alloc _ _ Ha) as Hlen.
  unfold write_remote. destruct (ra_is_striped a) eqn:Est.
  - assert (Hso : stripes_of a = ra_stripes a) by (unfold stripes_of; by rewrite Est).
    pose proof (ao_chain _ _ Ha) as Hch. pose proof (ao_keys _ _ Ha). pose proof (ao_held _ _ Ha). rewrite Hso in *.
    eapply wp_mono; [by eapply write_stripes_spec| |done].
    cbn. intros _ m' [Hns Hc Hh Hr]. split; try done.
    + eapply alloc_ok_step; [done|by rewrite Hso|apply Hns].
    + rewrite Hso, Hc. unfold spliced. destruct (Z.ltb_spec 0 (zlen d)).
      * by rewrite Z.sub_0_r, slice_full.
      * destruct d; [|cbn in *; rewrite zlen_cons in *; pose proof (zlen_nonneg d); lia].
        symmetry. apply splice_nil. rewrite zlen_nil in *. rewrite Hlen. lia.
    + by rewrite Hso.
  - destruct (ao_single _ _ Ha Est) as (p & Hp & Hc & Hz).
    apply wp_bind, get_world_wp. rewrite Hp, Hc. apply wp_bind.
    destruct (decide (ra_size a = 0)) as [H0|H0].
    + assert (Hd : zlen d = 0) by lia. destruct d; [|rewrite zlen_cons in Hd; pose proof (zlen_nonneg d); lia].
      apply remote_call_wp; [done..|]. intros id r m' Hs Hns Ho. unfold wp. cbn.
      pose proof (store_write_empty _ _ _ _ _ _ _ Hok Hc Hs) as Hw.
      assert (Hsame : forall k, obj (world m') k = obj (world m) k).
      { intros k. rewrite (obj_split p (world m) (world m') (fun o => o) k) by done. case_decide as Hk; [|done].
        unfold obj. by rewrite Hk. }
      rewrite zlen_nil in *. split; [done|..|done].
      * eapply alloc_ok_step; [done| |apply Hns]. eapply held_ext; [|apply Hns|apply Ha]. done.
      * rewrite (content_ext (world m) (world m')) by done. symmetry. apply splice_nil. lia.
    + pose proof (alloc_size_nonneg _ _ Ha). pose proof (stripes_of_single a p Est Hp ltac:(lia)) as Hso.
      pose proof (ao_held _ _ Ha) as Hh. rewrite Hso in Hh. apply held_cons in Hh as [(b & Hb & Hbl & _) _].
      cbn in Hbl. change (obj (world m) (p, ra_remote_handle a) = Some b) in Hb.
      eapply write_call_wp; [done..|exact Hb|done|lia|]. intros r m' Hns Ho. unfold wp. cbn.
      assert (Hb' : obj (world m') (p, ra_remote_handle a) = Some (splice off d b)) by (by rewrite Ho, decide_True).
      split; [done|..].
      * eapply alloc_ok_step; [done| |apply Hns]. rewrite Hso. intros s ->%list_elem_of_singleton.
        exists (splice off d b). split; [done|]. cbn. split; [rewrite zlen_splice; lia|by apply Hns].
      * rewrite Hso, !content_cons. unfold stripe_key. cbn [stripe_peer stripe_remote_handle].
        rewrite Hb, Hb'. cbn. by rewrite !app_nil_r.
      * rewrite Hso. intros k Hk. rewrite Ho, decide_False; [done|]. intros ->. apply Hk. left.
Qed.

(** ** Reading a block on peers *)

Definition readable (n : Z) : Prop := 0 < n <= MAX_PAYLOAD.

Lemma read_on_peer_spec peer h off n b m :
  world_ok (world m) -> is_connected (world m) peer = true -> obj (world m) (peer, h) = Some b ->
  0 <= off -> 0 <= n <= MAX_PAYLOAD -> off + n <= zlen b ->
  wp (read_on_peer peer h off n)
    (fun d m' => net_step m m' /\ same_objects m m' /\ d = slice off n b)
    (fun _ m' => net_step m m' /\ same_objects m m' /\ ~ readable n) m.
Proof.
  intros Hok Hc Hb Hoff [Hn Hmax] Hfit. unfold read_on_peer. apply wp_bind, remote_call_wp; [done..|].
  intros id r m' Hs Hns Ho.
  destruct (store_read _ _ _ _ _ _ _ _ _ Hok Hc Hs Hb Hoff Hn Hfit) as (Hw & Hd & Hbig).
  assert (Hsame : same_objects m m').
  { intros k. rewrite (obj_split peer (world m) (world m') (fun o => o) k) by done. case_decide as Hk; [|done].
    unfold obj. by rewrite Hk. }
  destruct (resp_data r) as [d|] eqn:Ed; [case_decide as Hst|]; unfold wp; cbn.
  - split_and!; [done|done|]. by apply Hd.
  - split_and!; [done|done|]. intros Hr. by destruct (Hbig Hr).
  - split_and!; [done|done|]. intros Hr. by destruct (Hbig Hr).
Qed.

Lemma release_on_peer_spec release peer h m :
  world_ok (world m) -> is_connected (world m) peer = true ->
  wp (release_on_peer release peer h)
    (fun _ m' => net_step m m' /\
       forall k, obj (world m') k = if decide (release = true /\ k = (peer, h)) then None else obj (world m) k)
    (fun _ _ => False) m.
Proof.
  intros Hok Hc. unfold release_on_peer. destruct release; [|unfold wp; cbn].
  - destruct (free_call_spec peer h m Hok Hc) as (r & m' & Hr & Hns & Ho).
    apply wp_bind. eapply wp_run; [exact Hr|]. unfold wp. cbn. split; [done|]. intros k. rewrite Ho.
    repeat case_decide; naive_solver.
  - split; [done|]. intros k. rewrite decide_False; [done|]. by intros [? _].
Qed.

(** The bytes from [done_] on of a buffer of [size], taken from [o] on of [b]. *)
Definition filled (o done_ size : Z) (b result : list byte) : list byte :=
  if done_ <? size then splice done_ (slice o (size - done_) b) result else result.

Lemma slice_app_skip {A} o n (b rest : list A) :
  zlen b <= o -> slice o n (b ++ rest) = slice (o - zlen b) n rest.
Proof. unfold slice, zlen. intros H. rewrite drop_app_ge by lia. do 2 f_equal. lia. Qed.

Lemma slice_app_in {A} o n (b rest : list A) :
  0 <= o -> 0 <= n -> o + n <= zlen b -> slice o n (b ++ rest) = slice o n b.
Proof.
  unfold slice, zlen. intros Ho Hn H. rewrite drop_app_le by lia. rewrite take_app_le; [done|].
  rewrite length_drop. lia.
Qed.

Lemma slice_app_over {A} o n (b rest : list A) :
  0 <= o <= zlen b -> zlen b - o <= n ->
  slice o n (b ++ rest) = slice o (zlen b - o) b ++ slice 0 (n - (zlen b - o)) rest.
Proof.
  unfold slice, zlen. intros Ho Hn. rewrite drop_app_le by lia.
  rewrite take_app_ge by (rewrite length_drop; lia). rewrite length_drop. f_equal.
  - symmetry. apply take_ge. rewrite length_drop. lia.
  - change (Z.to_nat 0) with 0%nat. rewrite drop_0. f_equal. lia.
Qed.

Lemma filled_skip o done_ size b rest result :
  done_ < size -> zlen b <= o -> filled o done_ size (b ++ rest) result = filled (o - zlen b) done_ size rest result.
Proof. intros Hd Hb. unfold filled. by rewrite slice_app_skip. Qed.

Lemma filled_chunk o done_ size b rest result n :
  0 <= done_ < size -> 0 <= o < zlen b -> n = Z.min (size - done_) (zlen b - o) ->
  zlen result = size -> size - done_ <= zlen (b ++ rest) - o ->
  filled o done_ size (b ++ rest) result =
    filled (o + n - zlen b) (done_ + n) size rest (splice done_ (slice o n b) result).
Proof.
  intros Hd Ho Hn Hr Hfit. rewrite zlen_app in Hfit. unfold filled.
  destruct (Z.ltb_spec done_ size); [|lia]. destruct (Z.ltb_spec (done_ + n) size).
  - assert (Hn' : n = zlen b - o) by lia. rewrite slice_app_over by lia. rewrite <- Hn'.
    assert (Hs : zlen (slice o n b) = n) by (apply zlen_slice; lia).
    pose proof (splice_splice_adj done_ (slice o n b) (slice 0 (size - done_ - n) rest) result) as E.
    rewrite Hs in E. rewrite <- E; [|lia|rewrite zlen_slice by lia; lia].
    replace (o + n - zlen b) with 0 by lia. by replace (size - (done_ + n)) with (size - done_ - n) by lia.
  - assert (Hn' : n = size - done_) by lia. rewrite <- Hn'. by rewrite slice_app_in by lia.
Qed.

(** A range was read; with [release] the objects at [ks] are gone. *)
Definition released (release : bool) (ks : list key) (m m' : Client) : Prop :=
  net_step m m' /\
  forall k, obj (world m') k = if decide (release = true /\ k ∈ ks) then None else obj (world m) k.

Lemma released_none release m m' : net_step m m' -> same_objects m m' -> released release [] m m'.
Proof. intros Hns Ho. split; [done|]. intros k. rewrite decide_False; [done|]. by intros [_ ?%not_elem_of_nil]. Qed.

Lemma released_app release ks ks' m m1 m' :
  released release ks m m1 -> released release ks' m1 m' -> released release (ks ++ ks') m m'.
Proof.
  intros [Hns Ho] [Hns' Ho']. split; [by etransitivity|]. intros k. rewrite Ho', Ho.
  pose proof (elem_of_app ks ks' k). repeat case_decide; tauto.
Qed.

Lemma released_false ks m m' : released false ks m m' <-> net_step m m' /\ same_objects m m'.
Proof.
  unfold released, same_objects. split; intros [H1 H2]; (split; [done|]); intros k; rewrite H2, ?decide_False; try done; by intros [? _].
Qed.

Lemma released_rest release ks m m' l :
  released release ks m m' -> (forall k, k ∈ keys l -> k ∉ ks) -> forall k, k ∈ keys l -> obj (world m') k = obj (world m) k.
Proof. intros [_ Ho] Hl k Hk. rewrite Ho, decide_False; [done|]. intros [_ Hin]. by eapply Hl. Qed.

Definition read_failed (release : bool) (size : Z) (m m' : Client) : Prop :=
  release = false /\ ~ readable size /\ net_step m m' /\ same_objects m m'.

(** One stripe: READ, copy, and FREE when asked. *)
Lemma read_stripe_spec release s b o n size result done_ m :
  world_ok (world m) -> stripe_held (world m) s b -> 0 <= o -> 0 < n -> o + n <= zlen b -> 0 <= done_ -> done_ + n <= size ->
  n <= MAX_PAYLOAD ->
  wp (let! d := read_on_peer (stripe_peer s) (stripe_remote_handle s) o n in
      if size <? done_ + zlen d then undef
      else do! release_on_peer release (stripe_peer s) (stripe_remote_handle s) in ret (splice done_ d result))
    (fun r m' => released release [stripe_key s] m m' /\ r = splice done_ (slice o n b) result)
    (fun _ m' => read_failed release size m m') m.
Proof.
  intros Hok (Hb & Hlen & Hc) Ho Hn Hfit H0 Hsz Hmax. apply wp_bind.
  eapply wp_mono; [apply (read_on_peer_spec _ _ _ _ b); (done || lia)| |].
  - cbn. intros d m1 (Hns & Hsame & ->). rewrite zlen_slice by lia.
    destruct (Z.ltb_spec size (done_ + n)); [lia|]. apply wp_bind.
    eapply wp_mono; [apply release_on_peer_spec; by apply Hns| |done].
    cbn. intros _ m2 [Hns2 Ho2]. unfold wp. cbn. split; [|done]. split; [by etransitivity|].
    intros k. rewrite Ho2, Hsame. pose proof (list_elem_of_singleton k (stripe_key s)).
    unfold stripe_key in *. repeat case_decide; tauto.
  - cbn. intros e m1 (Hns & Hsame & Hnr). unfold read_failed, readable in *.
    by destruct Hnr.
Qed.

Lemma read_pass_spec l offset size release : forall cur stop result done_ m,
  chain cur l stop -> NoDup (keys l) -> world_ok (world m) -> held (world m) l ->
  0 <= done_ -> (done_ < size -> cur <= offset + done_) -> offset + size <= stop -> zlen result = size ->
  size <= MAX_PAYLOAD -> (release = true -> offset = 0 /\ size = stop /\ done_ = cur) ->
  wp (read_pass l offset size release result done_)
    (fun r m' => size <= r.2 /\ released release (keys l) m m' /\
       r.1 = filled (offset + done_ - cur) done_ size (content (world m) l) result)
    (fun _ m' => read_failed release size m m') m.
Proof.
  induction l as [|s l IH]; intros cur stop result done_ m Hch Hnd Hok Hh H0 Hcur Hstop Hres Hmax Hrel; cbn [read_pass].
  { cbn in Hch. subst stop. unfold wp. cbn. assert (size <= done_) by lia. split; [done|].
    split; [by apply released_none|]. unfold filled. by zcase. }
  destruct Hch as (Hso & Hpos & Hch). pose proof (chain_le _ _ _ Hch) as Hle.
  destruct (Z.leb_spec size done_) as [Hdone|Hdone].
  { unfold wp. cbn. split; [done|]. destruct release; [lia|]. split; [by apply released_false|].
    unfold filled. by zcase. }
  apply NoDup_keys_cons in Hnd as [Hk Hnd].
  apply held_cons in Hh as [(b & Hb) Hh]. pose proof Hb as (Hob & Hlen & Hp). specialize (Hcur Hdone).
  pose proof (zlen_content _ _ _ _ Hch Hh) as Hrest.
  rewrite content_cons, Hob. cbn [default].
  destruct (covers s (offset + done_)) eqn:Ecov.
  - apply covers_spec in Ecov. rewrite Hso in *.
    set (n := Z.min (size - done_) (stripe_length s - (offset + done_ - cur))) in *.
    assert (Hn : n = Z.min (size - done_) (stripe_length s - (offset + done_ - cur))) by done. clearbody n.
    apply wp_bind, wp_catch. eapply wp_mono; [apply (read_stripe_spec release s b); try (done || lia)| |].
    + cbn beta. intros r m1 [Hrl ->].
      assert (Hdis : forall k, k ∈ keys l -> k ∉ [stripe_key s]) by (by intros k Hk' ->%list_elem_of_singleton).
      pose proof (released_rest _ _ _ _ l Hrl Hdis) as Hsame.
      assert (Hl : zlen (splice done_ (slice (offset + done_ - cur) n b) result) = size).
      { rewrite zlen_splice; [done|lia|]. rewrite zlen_slice by lia. lia. }
      eapply wp_mono; [apply (IH (cur + stripe_length s) stop _ (done_ + n)); try done| |].
      * by apply Hrl.
      * eapply held_ext; [exact Hsame| |done]. apply Hrl.
      * lia.
      * lia.
      * intros Hr. destruct (Hrel Hr) as (-> & -> & ->). split_and!; lia.
      * cbn. intros r m' (Hr2 & Hrl2 & ->). split; [done|]. split; [by apply (released_app _ [stripe_key s] (keys l) m m1)|].
        rewrite (content_ext (world m) (world m1)) by done.
        rewrite (filled_chunk (offset + done_ - cur) done_ size b _ result n); try lia.
        -- by replace (offset + done_ - cur + n - zlen b) with (offset + (done_ + n) - (cur + stripe_length s)) by lia.
        -- rewrite zlen_app. lia.
      * cbn. intros e m' (Hf & Hnr & Hns & Hs). rewrite Hf in Hrl. destruct (proj1 (released_false _ _ _) Hrl) as [Hns1 Hs1].
        split; [done|]. split; [done|]. split; [by etransitivity|]. intros k. by rewrite Hs, Hs1.
    + done.
  - assert (Hge : cur + stripe_length s <= offset + done_).
    { apply not_true_iff_false in Ecov. rewrite covers_spec in Ecov. lia. }
    destruct release; [destruct (Hrel eq_refl); lia|].
    eapply wp_mono; [by apply (IH (cur + stripe_length s) stop result done_)| |done].
    cbn. intros r m' (Hr & Hrl & ->). split; [done|]. split; [by apply released_false, (released_false (keys l))|].
    rewrite filled_skip by lia. f_equal. lia.
Qed.

Lemma read_stripes_spec l offset size release stop m :
  chain 0 l stop -> NoDup (keys l) -> world_ok (world m) -> held (world m) l ->
  0 <= offset -> 0 <= size -> offset + size <= stop ->
  size <= MAX_PAYLOAD -> (release = true -> offset = 0 /\ size = stop) ->
  wp (read_stripes (Z.to_nat size) l offset size release (zeros size) 0)
    (fun d m' => released release (keys l) m m' /\ d = slice offset size (content (world m) l))
    (fun _ m' => read_failed release size m m') m.
Proof.
  intros Hch Hnd Hok Hh Ho Hs Hstop Hmax Hrel. pose proof (zlen_content _ _ _ _ Hch Hh) as Hlen.
  destruct (Z.to_nat size) as [|k] eqn:Ek; cbn [read_stripes]; (destruct (Z.ltb_spec 0 size); [|try lia]); try lia.
  - unfold wp. cbn. assert (size = 0) by lia. subst size. split; [|done]. destruct release.
    + destruct (Hrel eq_refl) as (_ & <-). destruct l as [|s l]; [by apply released_none|].
      cbn in Hch. destruct Hch as (_ & ? & Hch%chain_le). lia.
    + by apply released_false.
  - apply wp_bind. eapply wp_mono; [apply (read_pass_spec l offset size release 0 stop); try (done || lia)| |done].
    + by apply zlen_zeros.
    + intros Hr. destruct (Hrel Hr) as (? & ?). split_and!; lia.
    + cbn beta. intros [d r] m' (Hr & Hrl & Hd). cbn [fst snd] in *.
      assert (Hd' : d = slice offset size (content (world m) l)).
      { rewrite Hd. unfold filled. destruct (Z.ltb_spec 0 size); [|lia].
        rewrite splice_full; [f_equal; lia|]. rewrite zlen_zeros, zlen_slice by lia. lia. }
      destruct k as [|k]; cbn [read_stripes]; (destruct (Z.ltb_spec r size); [lia|]); unfold wp; cbn; done.
Qed.

Lemma read_remote_spec a off n release m :
  world_ok (world m) -> alloc_ok (world m) a -> 0 <= off -> 0 <= n -> off + n <= ra_size a ->
  n <= MAX_PAYLOAD -> (release = true -> off = 0 /\ n = ra_size a) ->
  wp (read_remote a off n release)
    (fun d m' => released release (keys (stripes_of a)) m m' /\ d = slice off n (content (world m) (stripes_of a)))
    (fun _ m' => net_step m m' /\ same_objects m m' /\ ~ readable n) m.
Proof.
  intros Hok Ha Hoff Hn Hfit Hmax Hrel. unfold read_remote. destruct (ra_is_striped a) eqn:Est.
  - assert (Hso : stripes_of a = ra_stripes a) by (unfold stripes_of; by rewrite Est).
    pose proof (ao_chain _ _ Ha) as Hch. pose proof (ao_keys _ _ Ha). pose proof (ao_held _ _ Ha). rewrite Hso in *.
    eapply wp_mono; [by eapply read_stripes_spec|done|]. cbn. intros e m' (_ & ? & ? & ?). done.
  - destruct (ao_single _ _ Ha Est) as (p & Hp & Hc & Hz).
    apply wp_bind, get_world_wp. rewrite Hp, Hc. apply wp_bind.
    destruct (decide (ra_size a = 0)) as [H0|H0].
    + assert (n = 0) as -> by lia. unfold read_on_peer. apply wp_bind, remote_call_wp; [done..|].
      intros id r m' Hs Hns Ho. rewrite (store_read_empty _ _ _ _ _ _ _ Hok Hc Hs). unfold wp. cbn.
      pose proof (store_read_objects _ _ _ _ _ _ _ _ Hok Hc Hs) as Hw.
      split; [done|]. split; [|unfold readable; lia]. intros k.
      rewrite (obj_split p (world m) (world m') (fun o => o) k) by done. case_decide as Hk; [|done].
      unfold obj. by rewrite Hk.
    + pose proof (alloc_size_nonneg _ _ Ha). pose proof (stripes_of_single a p Est Hp ltac:(lia)) as Hso.
      pose proof (ao_held _ _ Ha) as Hh. rewrite Hso in Hh. apply held_cons in Hh as [(b & Hb & Hbl & _) _].
      cbn in Hbl. change (obj (world m) (p, ra_remote_handle a) = Some b) in Hb.
      rewrite Hso, content_cons. unfold keys, stripe_key. cbn [fmap list_fmap stripe_peer stripe_remote_handle].
      rewrite Hb. cbn [default]. rewrite app_nil_r.
      eapply wp_mono; [apply (read_on_peer_spec _ _ _ _ b); (done || lia)| |done].
      cbn. intros d m1 (Hns & Hsame & ->). apply wp_bind.
      eapply wp_mono; [apply release_on_peer_spec; by apply Hns| |done].
      cbn. intros _ m2 [Hns2 Ho2]. unfold wp. cbn. split; [|done]. split; [by etransitivity|].
      intros k. rewrite Ho2, Hsame. pose proof (list_elem_of_singleton k (p, ra_remote_handle a)).
      repeat case_decide; tauto.
Qed.

Lemma free_remote_spec a m :
  world_ok (world m) -> alloc_ok (world m) a ->
  wp (free_remote a) (fun _ m' => released true (keys (stripes_of a)) m m') (fun _ _ => False) m.
Proof.
  intros Hok Ha. unfold free_remote. destruct (ra_is_striped a) eqn:Est.
  - assert (Hso : stripes_of a = ra_stripes a) by (unfold stripes_of; by rewrite Est).
    pose proof (ao_held _ _ Ha) as Hh. rewrite Hso in *.
    eapply wp_mono; [apply free_stripes_spec; [done|]| |done].
    + intros s (b & _ & _ & Hc)%Hh. done.
    + cbn. intros _ m' [Hns Ho]. split; [done|]. intros k. rewrite Ho. unfold keys. repeat case_decide; tauto.
  - destruct (ao_single _ _ Ha Est) as (p & Hp & Hc & Hz).
    apply wp_bind, get_world_wp. rewrite Hp, Hc.
    eapply wp_mono; [by apply free_on_peer_spec| |done]. cbn. intros _ m' [Hns Ho]. split; [done|]. intros k. rewrite Ho.
    destruct (decide (ra_size a = 0)) as [H0|H0].
    + rewrite (stripes_of_empty a p) by done. rewrite (decide_False (P := true = true /\ _)) by (by intros [_ ?%not_elem_of_nil]).
      case_decide as Hk; [|done]. subst k. unfold obj. cbn. rewrite Hz by done. by rewrite store_zero.
    + pose proof (alloc_size_nonneg _ _ Ha). rewrite (stripes_of_single a p) by (done || lia).
      pose proof (list_elem_of_singleton k (p, ra_remote_handle a)).
      unfold keys, stripe_key. cbn [fmap list_fmap stripe_peer stripe_remote_handle]. repeat case_decide; tauto.
Qed.
End spec.
