(* ===== verification/Transparency.v ===== *)
(** * The memory client is transparent memory

    An application that calls [MemoryClient] sees blocks of bytes named by
    handles ([value]); whether a block lies in the local cache, on one peer or
    striped over several does not show.  [client_wf] ties the cache, the table
    of remote blocks and the peers' objects together, and [client_keeps] is what
    every internal move of blocks between them preserves.  The calls of the API
    are then runs of a plain map from handles to bytes, up to exceptions that
    leave the map as it was. *)

From S2P Require Import Prelude Framing Slab PageTracker Crc32c Pool MemoryProtocol LruCache RemoteStore MemoryClient MemoryClientSpec.

Section client.
Context {World : Type} `{!PeerNet World} {PSort : PeerSort} `{!RemoteStore World}.
Abbreviation Client := (MemoryClient World).
Abbreviation key := (Z * Z)%type.
Implicit Types (m : Client) (w : World).

(** ** The application's view *)

Definition cached (m : Client) (h : Z) : option CacheBlock := find_block h (cache_abs (cache_ m)).

Definition remote_value (m : Client) (h : Z) : option (list byte) :=
  (fun a => content (world m) (stripes_of a)) <$> (remote_handles_ m !! h).

Definition value (m : Client) (h : Z) : option (list byte) :=
  match cached m h with
  | Some b => Some (blk_data b)
  | None => remote_value m h
  end.

Record client_wf (m : Client) : Prop := {
  cl_cache : cache_wf (cache_ m);
  cl_world : world_ok (world m);
  cl_small : forall h v, value m h = Some v -> zlen v <= max_bytes_ (cache_ m) -> zlen v <= MAX_PAYLOAD;
  cl_allocs : forall h a, remote_handles_ m !! h = Some a -> alloc_ok (world m) a;
  cl_disjoint : forall h h' a a' k, remote_handles_ m !! h = Some a -> remote_handles_ m !! h' = Some a' ->
    k ∈ keys (stripes_of a) -> k ∈ keys (stripes_of a') -> h = h';
  cl_excl : forall h a, remote_handles_ m !! h = Some a -> cached m h = None;
  cl_next : forall h v, value m h = Some v -> h < next_local_handle_ m
}.

(** Blocks may have moved, but every handle has the value it had. *)
Record client_keeps (m m' : Client) : Prop := {
  ck_wf : client_wf m';
  ck_value : forall h, value m' h = value m h;
  ck_max : max_bytes_ (cache_ m') = max_bytes_ (cache_ m);
  ck_next : next_local_handle_ m' = next_local_handle_ m
}.

Lemma client_keeps_refl m : client_wf m -> client_keeps m m.
Proof. by split. Qed.

Lemma client_keeps_trans m1 m2 m3 : client_keeps m1 m2 -> client_keeps m2 m3 -> client_keeps m1 m3.
Proof. intros [] []. split; [done|..]; congruence. Qed.

Lemma value_cached m h b : cached m h = Some b -> value m h = Some (blk_data b).
Proof. unfold value. by intros ->. Qed.

Lemma value_remote m h a :
  client_wf m -> remote_handles_ m !! h = Some a -> value m h = Some (content (world m) (stripes_of a)).
Proof. intros Hwf Ha. unfold value, remote_value. by rewrite (cl_excl _ Hwf _ _ Ha), Ha. Qed.

Lemma value_None m h : value m h = None <-> cached m h = None /\ remote_handles_ m !! h = None.
Proof.
  unfold value, remote_value. destruct (cached m h), (remote_handles_ m !! h); cbn; naive_solver.
Qed.

(** ** Moves that keep the table and change only one of its parts *)

(** Peers were called, and no object of the table changed. *)
Definition table_objects (m m' : Client) : Prop :=
  forall h a k, remote_handles_ m !! h = Some a -> k ∈ keys (stripes_of a) -> obj (world m') k = obj (world m) k.

Lemma alloc_moved m m' h a :
  client_wf m -> net_step m m' -> remote_handles_ m !! h = Some a ->
  (forall k, k ∈ keys (stripes_of a) -> obj (world m') k = obj (world m) k) ->
  alloc_ok (world m') a /\ content (world m') (stripes_of a) = content (world m) (stripes_of a).
Proof.
  intros Hwf Hns Ha Ho. pose proof (cl_allocs _ Hwf _ _ Ha) as Hok. split; [|by apply content_ext].
  eapply alloc_ok_step; [done| |apply Hns]. eapply held_ext; [done|apply Hns|apply Hok].
Qed.

Lemma net_keeps m m' : client_wf m -> net_step m m' -> table_objects m m' -> client_keeps m m'.
Proof.
  intros Hwf Hns Ho. pose proof Hns as [Hc Hr Hn Hw _].
  assert (Hcd : forall h, cached m' h = cached m h) by (intros h; unfold cached; by rewrite Hc).
  assert (Hv : forall h, value m' h = value m h).
  { intros h. unfold value, remote_value. rewrite Hcd, Hr. destruct (cached m h); [done|].
    destruct (remote_handles_ m !! h) as [a|] eqn:Ea; [|done]. cbn. f_equal.
    eapply alloc_moved; eauto. }
  split; [|done|by rewrite Hc|done]. split.
  - rewrite Hc. apply Hwf.
  - apply Hw, Hwf.
  - intros h v. rewrite Hv, Hc. apply Hwf.
  - intros h a Ha. rewrite Hr in Ha. eapply alloc_moved; eauto.
  - rewrite Hr. apply Hwf.
  - intros h a Ha. rewrite Hcd. rewrite Hr in Ha. by eapply Hwf.
  - intros h v. rewrite Hv, Hn. apply Hwf.
Qed.

Lemma same_objects_keeps m m' : client_wf m -> net_step m m' -> same_objects m m' -> client_keeps m m'.
Proof. intros Hwf Hns Ho. apply net_keeps; [done..|]. intros h a k _ _. apply Ho. Qed.

(** The cache was put in another order. *)
Lemma cache_keeps m c' :
  client_wf m -> cache_wf c' -> max_bytes_ c' = max_bytes_ (cache_ m) ->
  (forall h, find_block h (cache_abs c') = cached m h) -> client_keeps m (set_cache c' m).
Proof.
  intros Hwf Hc Hm Hf.
  assert (Hv : forall h, value (set_cache c' m) h = value m h).
  { intros h. unfold value, cached at 1. cbn. by rewrite Hf. }
  split; [|done|done|done]. split; try (by apply Hwf); cbn.
  - done.
  - intros h v. rewrite Hv, Hm. apply Hwf.
  - intros h a Ha. unfold cached. cbn. rewrite Hf. by eapply Hwf.
  - intros h v. rewrite Hv. apply Hwf.
Qed.

(** ** One handle changes *)

(** From [m] to [m'] the value of [h] alone changed, to [v]. *)
Record client_sets (h : Z) (v : option (list byte)) (m m' : Client) : Prop := {
  cs_wf : client_wf m';
  cs_value : forall k, value m' k = if decide (k = h) then v else value m k;
  cs_max : max_bytes_ (cache_ m') = max_bytes_ (cache_ m);
  cs_next : next_local_handle_ m' = next_local_handle_ m
}.

Lemma client_sets_keeps h m m' : client_sets h (value m h) m m' -> client_keeps m m'.
Proof. intros []. split; try done. intros k. rewrite cs_value0. by case_decide; subst. Qed.

Lemma client_keeps_sets h m m' : client_keeps m m' -> client_sets h (value m h) m m'.
Proof. intros []. split; try done. intros k. rewrite ck_value0. by case_decide; subst. Qed.

Lemma client_sets_trans h v v' m1 m2 m3 :
  client_sets h v m1 m2 -> client_sets h v' m2 m3 -> client_sets h v' m1 m3.
Proof.
  intros [] []. split; [done| |congruence..]. intros k. rewrite cs_value1, cs_value0. by case_decide.
Qed.

Lemma client_sets_keeps_r h v m1 m2 m3 : client_sets h v m1 m2 -> client_keeps m2 m3 -> client_sets h v m1 m3.
Proof. intros [] []. split; [done| |congruence..]. intros k. by rewrite ck_value0. Qed.

Lemma client_sets_keeps_l h v m1 m2 m3 : client_keeps m1 m2 -> client_sets h v m2 m3 -> client_sets h v m1 m3.
Proof. intros [] []. split; [done| |congruence..]. intros k. by rewrite cs_value0, ck_value0. Qed.

(** A block enters, leaves or changes in the cache. *)
Lemma cache_sets m c' h ob :
  client_wf m -> remote_handles_ m !! h = None -> h < next_local_handle_ m -> cache_wf c' ->
  max_bytes_ c' = max_bytes_ (cache_ m) -> from_option (fun b => zlen (blk_data b) <= MAX_PAYLOAD) True ob ->
  (forall k, find_block k (cache_abs c') = if decide (k = h) then ob else cached m k) ->
  client_sets h (blk_data <$> ob) m (set_cache c' m).
Proof.
  intros Hwf Hr Hh Hc Hm Hsm Hf.
  assert (Hv : forall k, value (set_cache c' m) k = if decide (k = h) then blk_data <$> ob else value m k).
  { intros k. unfold value, cached at 1, remote_value. cbn. rewrite Hf. case_decide; [|done]. subst.
    destruct ob; [done|]. by rewrite Hr. }
  split; [|done|done|done]. split; try (by apply Hwf); cbn.
  - done.
  - intros k v. rewrite Hv, Hm. case_decide; [|apply Hwf]. destruct ob; [|done]. by intros [= <-].
  - intros k a Ha. unfold cached. cbn. rewrite Hf, decide_False by congruence. by eapply Hwf.
  - intros k v. rewrite Hv. case_decide; [by subst|]. apply Hwf.
Qed.

(** A block enters the table, with new objects. *)
Lemma table_insert m m1 h n a :
  client_wf m -> value m h = None -> h < next_local_handle_ m -> net_step m m1 ->
  (n <= max_bytes_ (cache_ m) -> n <= MAX_PAYLOAD) -> fresh_alloc n a (world m) (world m1) ->
  client_sets h (Some (zeros n)) m (set_remote (<[h := a]> (remote_handles_ m)) m1).
Proof.
  intros Hwf [Hcn Hrn]%value_None Hh Hns Hsm [Hok Hsz Hz Hfr Hrest].
  assert (Ht : table_objects m m1).
  { intros h' a' k Ha' Hk. apply Hrest. intros Hin%Hfr.
    apply list_elem_of_fmap in Hk as (s & -> & Hs).
    destruct (ao_held _ _ (cl_allocs _ Hwf _ _ Ha') s Hs) as (b & Hb & _). congruence. }
  destruct (net_keeps _ _ Hwf Hns Ht) as [Hwf1 Hv1 Hm1 Hn1].
  set (m2 := set_remote _ m1).
  assert (Hcd : forall k, cached m2 k = cached m k) by (intros k; unfold cached; cbn; by rewrite (ns_cache _ _ Hns)).
  assert (Hv : forall k, value m2 k = if decide (k = h) then Some (zeros n) else value m k).
  { intros k. rewrite <- Hv1. unfold value, remote_value. rewrite Hcd. cbn. rewrite lookup_insert.
    repeat case_decide; try congruence.
    - subst k. rewrite Hcn. cbn. by rewrite Hz.
    - unfold cached. by rewrite (ns_cache _ _ Hns), (ns_remote _ _ Hns). }
  split; [|done|done|done]. split; cbn; try (by apply Hwf1).
  - intros k v. rewrite Hv, Hm1. case_decide; [|apply Hwf]. intros [= <-].
    destruct (Z.le_gt_cases 0 n); [by rewrite zlen_zeros by done|]. unfold zeros, zlen. rewrite length_replicate. unfold MAX_PAYLOAD, MAX_MESSAGE_SIZE. lia.
  - intros k a' [[-> ->]|[_ Ha']]%lookup_insert_Some; [done|].
    apply (cl_allocs _ Hwf1 k). by rewrite (ns_remote _ _ Hns).
  - assert (Hdis : forall k h' a', k ∈ keys (stripes_of a) -> remote_handles_ m !! h' = Some a' -> k ∉ keys (stripes_of a')).
    { intros k h' a' Hk Ha' Hin. apply Hfr in Hk. apply list_elem_of_fmap in Hin as (s & -> & Hs).
      destruct (ao_held _ _ (cl_allocs _ Hwf _ _ Ha') s Hs) as (b & Hb & _). congruence. }
    intros k1 k2 a1 a2 k [[-> ->]|[_ H1]]%lookup_insert_Some [[-> ->]|[_ H2]]%lookup_insert_Some Hk1 Hk2; try done.
    + by destruct (Hdis k k2 a2).
    + by destruct (Hdis k k1 a1).
    + by apply (cl_disjoint _ Hwf k1 k2 a1 a2 k).
  - intros k a' [[-> ->]|[_ Ha']]%lookup_insert_Some; rewrite Hcd; [done|]. by eapply Hwf.
  - intros k v. rewrite Hv, Hn1. case_decide; [by subst|]. apply Hwf.
Qed.

(** Other handles' objects do not change when only [h]'s do. *)
Lemma other_objects m m1 h a :
  client_wf m -> remote_handles_ m !! h = Some a ->
  (forall k, k ∉ keys (stripes_of a) -> obj (world m1) k = obj (world m) k) ->
  forall h' a' k, h' <> h -> remote_handles_ m !! h' = Some a' -> k ∈ keys (stripes_of a') ->
    obj (world m1) k = obj (world m) k.
Proof.
  intros Hwf Ha Ho h' a' k Hne Ha' Hk. apply Ho. intros Hin. apply Hne.
  by apply (cl_disjoint _ Hwf h' h a' a k).
Qed.

(** A block on peers was written. *)
Lemma table_write m m1 h a off d :
  client_wf m -> remote_handles_ m !! h = Some a -> block_written a off d m m1 ->
  client_sets h (splice off d <$> value m h) m m1.
Proof.
  intros Hwf Ha [Hns Hok Hc Hrest]. pose proof Hns as [Hca Hr Hn Hw _].
  pose proof (other_objects _ _ _ _ Hwf Ha Hrest) as Hoth.
  assert (Hcd : forall k, cached m1 k = cached m k) by (intros k; unfold cached; by rewrite Hca).
  assert (Hv : forall k, value m1 k = if decide (k = h) then splice off d <$> value m h else value m k).
  { intros k. rewrite (value_remote m h a) by done. unfold value, remote_value. rewrite Hcd, Hr.
    case_decide as Hk; [subst; rewrite (cl_excl _ Hwf _ _ Ha), Ha; cbn; by rewrite Hc|].
    destruct (cached m k); [done|]. destruct (remote_handles_ m !! k) as [a'|] eqn:Ea; [|done]. cbn.
    f_equal. eapply alloc_moved; eauto. }
  split; [|done|by rewrite Hca|done]. split.
  - rewrite Hca. apply Hwf.
  - apply Hw, Hwf.
  - intros k v. rewrite Hv, Hca. case_decide; [|apply Hwf]. rewrite (value_remote m h a) by done. cbn. rewrite <- Hc. intros [= <-].
    rewrite (zlen_alloc _ _ Hok), <- (zlen_alloc _ _ (cl_allocs _ Hwf _ _ Ha)).
    apply (cl_small _ Hwf h). by apply value_remote.
  - intros k a' Ha'. rewrite Hr in Ha'. destruct (decide (k = h)) as [->|Hk].
    + congruence.
    + eapply alloc_moved; eauto.
  - rewrite Hr. apply Hwf.
  - intros k a' Ha'. rewrite Hcd. rewrite Hr in Ha'. by eapply Hwf.
  - intros k v. rewrite Hv, Hn. case_decide as Hk; [|apply Hwf]. subst.
    rewrite (value_remote m h a) by done. intros _. eapply (cl_next _ Hwf). by eapply value_remote.
Qed.

(** A block leaves the table after its objects are gone. *)
Lemma table_delete m m1 h a :
  client_wf m -> remote_handles_ m !! h = Some a -> released true (keys (stripes_of a)) m m1 ->
  client_sets h None m (set_remote (delete h (remote_handles_ m1)) m1).
Proof.
  intros Hwf Ha [Hns Hrel]. pose proof Hns as [Hca Hr Hn Hw _].
  assert (Hrest : forall k, k ∉ keys (stripes_of a) -> obj (world m1) k = obj (world m) k).
  { intros k Hk. rewrite Hrel. rewrite decide_False by tauto. done. }
  clear Hrel. pose proof (other_objects _ _ _ _ Hwf Ha Hrest) as Hoth.
  set (m2 := set_remote _ m1).
  assert (Hcd : forall k, cached m2 k = cached m k) by (intros k; unfold cached; cbn; by rewrite Hca).
  assert (Hv : forall k, value m2 k = if decide (k = h) then None else value m k).
  { intros k. unfold value, remote_value. rewrite Hcd. cbn. rewrite Hr, lookup_delete.
    repeat case_decide; try congruence; [subst; by rewrite (cl_excl _ Hwf _ _ Ha)|].
    destruct (cached m k); [done|]. destruct (remote_handles_ m !! k) as [a'|] eqn:Ea; [|done]. cbn.
    f_equal. eapply alloc_moved; eauto. }
  split; [|done|cbn; by rewrite Hca|done]. split; cbn; rewrite ?Hca; try (by apply Hwf).
  - apply Hw, Hwf.
  - intros k v. rewrite Hv. case_decide; [done|]. apply Hwf.
  - rewrite Hr. intros k a' [Hk Ha']%lookup_delete_Some. eapply alloc_moved; eauto.
  - rewrite Hr. intros k1 k2 a1 a2 k [_ H1]%lookup_delete_Some [_ H2]%lookup_delete_Some. by eapply Hwf.
  - rewrite Hr. intros k a' [_ Ha']%lookup_delete_Some. rewrite Hcd. by eapply Hwf.
  - intros k v. rewrite Hv, Hn. case_decide; [done|]. apply Hwf.
Qed.

(** ** Eviction *)

Definition room (m : Client) (n : Z) : Prop :=
  bytes_of (cache_abs (cache_ m)) + n <= max_bytes_ (cache_ m).

(** The table only grows during an eviction. *)
Definition table_grows (m m' : Client) : Prop :=
  forall h a, remote_handles_ m !! h = Some a -> remote_handles_ m' !! h = Some a.

Lemma find_without_absent h l : find_block h l = None -> without h l = l.
Proof.
  induction l as [|b l IH]; [done|]. rewrite find_block_cons. case_decide; [done|]. intros Hl.
  unfold without. rewrite filter_cons, decide_True by done. f_equal. by apply IH.
Qed.

(** Putting an absent block into a cache that has room for it. *)
Lemma put_sets m h d dirty :
  client_wf m -> value m h = None -> h < next_local_handle_ m -> room m (zlen d) -> zlen d <= MAX_PAYLOAD ->
  exists c', cache_put h d dirty (cache_ m) = (Ret true, c') /\ client_sets h (Some d) m (set_cache c' m).
Proof.
  intros Hwf [Hc Hr]%value_None Hh Hroom Hsm. pose proof (find_without_absent _ _ Hc) as Hwo. unfold room in Hroom.
  destruct (cache_put_room (cache_ m) h d dirty (cl_cache _ Hwf)) as (c' & Hp & Hwf' & Hm & Ha); [by rewrite Hwo|].
  exists c'. split; [done|]. rewrite Hwo in Ha.
  change (Some d) with (blk_data <$> Some (mkBlock h d dirty)). apply cache_sets; try done.
  intros k. rewrite Ha, find_block_cons. cbn. repeat case_decide; (done || congruence).
Qed.

(** Taking out the least recently used block. *)
Lemma pop_sets m :
  client_wf m ->
  exists c', evict_one (cache_ m) = (Ret (last (cache_abs (cache_ m))), c') /\
    match last (cache_abs (cache_ m)) with
    | Some b =>
        client_sets (blk_handle b) None m (set_cache c' m) /\ value m (blk_handle b) = Some (blk_data b) /\
        room (set_cache c' m) (zlen (blk_data b)) /\ length (list_ (cache_ m)) = S (length (list_ c')) /\
        remote_handles_ m !! blk_handle b = None
    | None => c' = cache_ m
    end.
Proof.
  intros Hwf. pose proof (cl_cache _ Hwf) as Hc.
  destruct (pop_last_spec (cache_ m) Hc) as (c' & Hp & Hwf' & Ha & Hm). exists c'. split; [done|].
  destruct (last (cache_abs (cache_ m))) as [b|] eqn:El.
  - pose proof (last_Some_split _ _ El) as Hs. rewrite <- Ha in Hs.
    pose proof (cw_handles _ Hc) as Hnd.
    assert (Hf : forall k, cached m k = if decide (k = blk_handle b) then Some b else find_block k (cache_abs c')).
    { intros k. unfold cached. rewrite Hs. apply find_block_snoc. by rewrite <- Hs. }
    assert (Hb : cached m (blk_handle b) = Some b) by (by rewrite Hf, decide_True).
    assert (Hn : remote_handles_ m !! blk_handle b = None).
    { destruct (remote_handles_ m !! blk_handle b) as [a|] eqn:Ea; [|done].
      pose proof (cl_excl _ Hwf _ _ Ea). congruence. }
    pose proof (value_cached _ _ _ Hb) as Hv.
    split_and!; try done.
    + change None with (blk_data <$> @None CacheBlock). apply cache_sets; try done; [by eapply Hwf|].
      intros k. rewrite Hf. case_decide; [subst|done].
      apply find_block_None_iff. rewrite Hs, fmap_app in Hnd. apply NoDup_app in Hnd as (_ & Hd & _).
      intros Hin. eapply Hd; [exact Hin|]. cbn. left.
    + destruct (cw_max _ Hc) as [Hle _]. rewrite (cw_bytes _ Hc), Hs, bytes_of_app in Hle.
      unfold room. cbn. rewrite Hm. rewrite bytes_of_cons in Hle. change (bytes_of []) with 0 in Hle. lia.
    + rewrite <- !length_cache_abs, Hs, length_app. cbn. lia.
  - unfold evict_one, pop_last in Hp. rewrite bind_get in Hp.
    destruct (last (list_ (cache_ m))) as [[n b]|] eqn:E; [|by injection Hp].
    unfold cache_abs in El. rewrite fmap_last, E in El. done.
Qed.

Lemma on_cache_run {A} (c : M LRUCache A) a c' m : c (cache_ m) = (Ret a, c') -> on_cache c m = (Ret a, set_cache c' m).
Proof. intros H. unfold on_cache. by apply zoom_ret. Qed.

(** What there is room for fits in one message. *)
Lemma room_small m m1 h d :
  client_wf m -> value m h = Some d -> room m1 (zlen d) -> max_bytes_ (cache_ m1) = max_bytes_ (cache_ m) -> zlen d <= MAX_PAYLOAD.
Proof.
  intros Hwf Hv Hr Hm. apply (cl_small _ Hwf h _ Hv). unfold room in Hr. pose proof (bytes_of_nonneg (cache_abs (cache_ m1))). lia.
Qed.

Lemma room_keeps m m' n : cache_ m' = cache_ m -> room m n -> room m' n.
Proof. unfold room. by intros ->. Qed.

Lemma roll_back_spec b e m :
  client_wf m -> value m (blk_handle b) = None -> blk_handle b < next_local_handle_ m -> room m (zlen (blk_data b)) ->
  zlen (blk_data b) <= MAX_PAYLOAD ->
  wp (roll_back b e) (fun _ _ => False)
    (fun _ m' => client_sets (blk_handle b) (Some (blk_data b)) m m' /\ remote_handles_ m' = remote_handles_ m) m.
Proof.
  intros Hwf Hv Hh Hroom Hmax. pose proof (proj2 (proj1 (value_None _ _) Hv)) as Hr.
  destruct (put_sets m _ _ (blk_dirty b) Hwf Hv Hh Hroom Hmax) as (c' & Hp & Hs).
  unfold roll_back. apply wp_bind. unfold lookup_remote, wp at 1. cbn. rewrite Hr.
  apply wp_bind. unfold wp at 1. cbn. apply wp_bind. eapply wp_run; [by apply on_cache_run|]. unfold wp. by cbn.
Qed.

Lemma push_block_spec b m :
  client_wf m -> value m (blk_handle b) = None -> blk_handle b < next_local_handle_ m -> room m (zlen (blk_data b)) ->
  zlen (blk_data b) <= MAX_PAYLOAD ->
  wp (push_block b)
    (fun _ m' => client_sets (blk_handle b) (Some (blk_data b)) m m' /\ cache_ m' = cache_ m /\ table_grows m m')
    (fun _ m' => client_sets (blk_handle b) (Some (blk_data b)) m m' /\ table_grows m m') m.
Proof.
  intros Hwf Hv Hh Hroom Hmax. pose proof (zlen_nonneg (blk_data b)).
  unfold push_block. apply wp_catch, wp_bind.
  eapply wp_mono; [apply allocate_remote_spec; [apply Hwf|done]| |]; cbn beta.
  - intros _ m2 (a & m1 & Hns & -> & Hfr). set (m2 := set_remote _ m1).
    pose proof (table_insert _ _ _ _ _ Hwf Hv Hh Hns (fun _ => Hmax) Hfr) as Hs. fold m2 in Hs.
    assert (Ha : remote_handles_ m2 !! blk_handle b = Some a) by (cbn; by rewrite lookup_insert_eq).
    apply wp_bind. unfold lookup_remote, wp at 1. cbn -[m2]. rewrite Ha.
    eapply wp_mono; [apply write_remote_spec; [apply Hs|apply Hfr|done|rewrite (fa_size _ _ _ _ Hfr); lia|done]| |done].
    cbn beta. intros _ m3 Hbw. pose proof (table_write _ _ _ _ _ _ (cs_wf _ _ _ _ Hs) Ha Hbw) as Hs3.
    rewrite (cs_value _ _ _ _ Hs), decide_True in Hs3 by done. cbn in Hs3.
    rewrite splice_full in Hs3 by (by rewrite zlen_zeros).
    pose proof (bw_step _ _ _ _ _ Hbw) as Hns3. split; [by eapply client_sets_trans|]. split.
    + rewrite (ns_cache _ _ Hns3). cbn. by rewrite (ns_cache _ _ Hns).
    + intros k a' Ha'. rewrite (ns_remote _ _ Hns3). cbn. rewrite lookup_insert. case_decide; [|done].
      subst. by rewrite (proj2 (proj1 (value_None _ _) Hv)) in Ha'.
  - intros e m1 [Hns Hsame]. pose proof (same_objects_keeps _ _ Hwf Hns Hsame) as Hk.
    eapply wp_mono; [apply roll_back_spec| |].
    + apply Hk.
    + by rewrite (ck_value _ _ Hk).
    + by rewrite (ck_next _ _ Hk).
    + eapply room_keeps; [|done]. apply Hns.
    + done.
    + done.
    + cbn. intros _ m' [Hs Hr]. split; [by eapply client_sets_keeps_l|]. intros k a Ha.
      by rewrite Hr, (ns_remote _ _ Hns).
Qed.

(** A popped block pushed to peers: the application sees nothing. *)
Lemma pop_push_keeps m c' m' b :
  client_sets (blk_handle b) None m (set_cache c' m) -> value m (blk_handle b) = Some (blk_data b) ->
  client_sets (blk_handle b) (Some (blk_data b)) (set_cache c' m) m' -> client_keeps m m'.
Proof.
  intros H1 Hv H2. apply (client_sets_keeps (blk_handle b)). rewrite Hv. by eapply client_sets_trans.
Qed.

(** Whatever is asked for, no block is lost; the loop ends when there is room or
    nothing is left. *)
Lemma evict_loop_keeps pressure n : forall fuel m,
  client_wf m -> (length (list_ (cache_ m)) < fuel)%nat ->
  wp (evict_loop fuel pressure n)
    (fun _ m' => client_keeps m m' /\ table_grows m m' /\ (cache_abs (cache_ m') = [] \/ needs_eviction n (cache_ m') = false))
    (fun _ m' => client_keeps m m' /\ table_grows m m') m.
Proof.
  induction fuel as [|fuel IH]; intros m Hwf Hfuel; [lia|]. cbn [evict_loop]. apply wp_bind, wp_get.
  destruct (needs_eviction n (cache_ m) || pressure) eqn:E.
  - destruct (pop_sets m Hwf) as (c' & Hp & Hpost). apply wp_bind. eapply wp_run; [by apply on_cache_run|].
    destruct (last (cache_abs (cache_ m))) as [b|] eqn:El.
    + destruct Hpost as (Hs & Hv & Hroom & Hlen & Hr). apply wp_bind.
      assert (Hh : blk_handle b < next_local_handle_ m) by (by eapply Hwf).
      eapply wp_mono; [apply push_block_spec; [apply Hs| |done|done|]| |]; cbn beta.
      2: { eapply room_small; [exact Hwf|exact Hv|exact Hroom|apply Hs]. }
      * rewrite (cs_value _ _ _ _ Hs). by rewrite decide_True.
      * intros _ m' (Hs' & Hca & Hg). pose proof (pop_push_keeps _ _ _ _ Hs Hv Hs') as Hk.
        eapply wp_mono; [apply IH; [apply Hk|rewrite Hca; cbn; lia]| |]; cbn beta.
        -- intros _ m2 (Hk2 & Hg2 & Hro). split; [by eapply client_keeps_trans|]. split; [|done].
           intros k a Ha. by apply Hg2, Hg.
        -- intros _ m2 (Hk2 & Hg2). split; [by eapply client_keeps_trans|]. intros k a Ha. by apply Hg2, Hg.
      * intros _ m' [Hs' Hg]. split; [by eapply pop_push_keeps|done].
    + subst c'. unfold wp. cbn. apply last_None in El.
      replace (set_cache (cache_ m) m) with m by (by destruct m).
      split; [by apply client_keeps_refl|]. split; [by intros h a|]. by left.
  - apply orb_false_iff in E as [E _]. unfold wp. cbn. split; [by apply client_keeps_refl|]. split; [by intros h a|]. by right.
Qed.

Lemma evict_if_needed_keeps n m :
  client_wf m ->
  wp (evict_if_needed n)
    (fun _ m' => client_keeps m m' /\ table_grows m m' /\ (cache_abs (cache_ m') = [] \/ needs_eviction n (cache_ m') = false))
    (fun _ m' => client_keeps m m' /\ table_grows m m') m.
Proof. intros Hwf. apply wp_bind, wp_get, evict_loop_keeps; [done|lia]. Qed.

Lemma evict_if_needed_spec n m :
  client_wf m -> 0 <= n <= max_bytes_ (cache_ m) ->
  wp (evict_if_needed n)
    (fun _ m' => client_keeps m m' /\ table_grows m m' /\ room m' n)
    (fun _ m' => client_keeps m m' /\ table_grows m m') m.
Proof.
  intros Hwf Hn. eapply wp_mono; [by apply evict_if_needed_keeps| |done]. cbn beta. intros _ m' (Hk & Hg & Hend).
  split; [done|]. split; [done|]. rewrite <- (ck_max _ _ Hk) in Hn. destruct Hend as [He|He].
  - unfold room. rewrite He. change (bytes_of []) with 0. lia.
  - pose proof (cl_cache _ (ck_wf _ _ Hk)). by apply needs_eviction_spec in He.
Qed.

(** ** Loading a block back *)

Lemma get_keeps m h :
  client_wf m ->
  exists c', cache_get h (cache_ m) = (Ret (blk_data <$> cached m h), c') /\ client_keeps m (set_cache c' m) /\
    (forall k, cached (set_cache c' m) k = cached m k).
Proof.
  intros Hwf. destruct (cache_get_spec (cache_ m) h (cl_cache _ Hwf)) as (c' & Hg & Hwf' & Hm & Ha).
  assert (Hf : forall k, find_block k (cache_abs c') = cached m k).
  { intros k. rewrite Ha. unfold spec_get, cached.
    destruct (find_block h (cache_abs (cache_ m))) as [b|] eqn:E; [|done]. cbn [snd].
    pose proof (find_block_handle _ _ _ E) as Hb. rewrite find_block_cons, find_block_without.
    repeat case_decide; congruence. }
  exists c'. split; [|split; [by apply cache_keeps|done]].
  rewrite Hg. unfold spec_get, cached. by destruct (find_block h (cache_abs (cache_ m))).
Qed.

Lemma load_to_local_spec h m :
  client_wf m -> cached m h = None ->
  (forall a, remote_handles_ m !! h = Some a -> ra_size a <= max_bytes_ (cache_ m)) ->
  wp (load_to_local h)
    (fun _ m' => client_keeps m m' /\ is_Some (cached m' h))
    (fun e m' => client_keeps m m' /\
       (remote_handles_ m !! h = None -> e = invalid_argument "Invalid handle or block not found")) m.
Proof.
  intros Hwf Hc Hsize. unfold load_to_local, lookup_remote. apply wp_bind, wp_bind, wp_get.
  destruct (remote_handles_ m !! h) as [a|] eqn:Ea; unfold wp at 1; cbn.
  2: { split; [by apply client_keeps_refl|done]. }
  pose proof (alloc_size_nonneg _ _ (cl_allocs _ Hwf _ _ Ea)) as Hpos. specialize (Hsize _ eq_refl).
  apply wp_bind. eapply wp_mono; [by apply evict_if_needed_spec| |]; cbn beta; [|by intros e m1 [? _]].
  intros _ m1 (Hk & Hg & Hroom). pose proof (ck_wf _ _ Hk) as Hwf1. apply Hg in Ea.
  pose proof (cl_allocs _ Hwf1 _ _ Ea) as Hok. assert (Hmax : ra_size a <= MAX_PAYLOAD).
  { rewrite <- (zlen_alloc _ _ Hok) in Hroom |- *. eapply room_small; [exact Hwf1|by apply value_remote|exact Hroom|done]. }
  apply wp_bind.
  eapply wp_mono; [apply read_remote_spec; [apply Hwf1|done..|] | |]; cbn beta.
  - by rewrite (zlen_alloc _ _ Hok) in Hmax || lia.
  - intros d m2 [Hrel ->]. rewrite <- (zlen_alloc _ _ Hok), slice_full.
    pose proof (table_delete _ _ _ _ Hwf1 Ea Hrel) as Hs.
    unfold erase_remote. apply wp_bind, wp_bind, wp_get. unfold wp at 1. cbn [put].
    set (m3 := set_remote _ m2) in *.
    assert (Hcache : cache_ m3 = cache_ m1) by apply Hrel.
    destruct (put_sets m3 h (content (world m1) (stripes_of a)) false) as (c' & Hp & Hs').
    + apply Hs.
    + by rewrite (cs_value _ _ _ _ Hs), decide_True.
    + rewrite (cs_next _ _ _ _ Hs). eapply (cl_next _ Hwf1). by eapply value_remote.
    + eapply room_keeps; [done|]. by rewrite (zlen_alloc _ _ Hok).
    + by rewrite (zlen_alloc _ _ Hok).
    + apply wp_bind. eapply wp_run; [by apply on_cache_run|]. unfold wp. cbn. split.
      * eapply client_keeps_trans; [done|]. apply (client_sets_keeps h). rewrite (value_remote m1 h a) by done.
        by eapply client_sets_trans.
      * destruct (cache_put_room (cache_ m3) h (content (world m1) (stripes_of a)) false) as (c2 & Hp2 & _ & _ & Ha2).
        -- apply Hs.
        -- pose proof (bytes_of_without h (cache_abs (cache_ m3))). rewrite (zlen_alloc _ _ Hok).
           rewrite Hcache in *. unfold room in Hroom. lia.
        -- rewrite Hp in Hp2. injection Hp2 as <-. exists (mkBlock h (content (world m1) (stripes_of a)) false).
           unfold cached. cbn. rewrite Ha2, find_block_cons. by rewrite decide_True.
  - intros e m2 (Hns & Hsame & _). split; [|done]. eapply client_keeps_trans; [done|]. by apply same_objects_keeps.
Qed.

(** ** The API *)

Inductive client_op :=
| OpAllocate (size : Z)
| OpFree (handle : Z)
| OpRead (handle offset size : Z)
| OpWrite (handle offset : Z) (data : list byte).

Inductive client_result :=
| RHandle (h : Z)
| RUnit
| RBytes (d : list byte).

Definition client_exec (op : client_op) : M Client client_result :=
  match op with
  | OpAllocate n => let! h := client_allocate n in ret (RHandle h)
  | OpFree h => do! client_free h in ret RUnit
  | OpRead h off n => let! d := client_read h off n in ret (RBytes d)
  | OpWrite h off d => do! client_write h off d in ret RUnit
  end.

(** The arguments are [size_t]s, and what has to cross the network at once fits in
    one message: the bytes a call reads or writes, and a block that fits in a cache of
    [max] bytes, for it is evicted and loaded back as a whole. *)
Definition op_ok (max : Z) (op : client_op) : Prop :=
  match op with
  | OpAllocate n => 0 <= n /\ (n <= max -> n <= MAX_PAYLOAD)
  | OpFree h => True
  | OpRead h off n => 0 <= off /\ 0 <= n <= MAX_PAYLOAD
  | OpWrite h off d => 0 <= off /\ zlen d <= MAX_PAYLOAD
  end.

(** *** Plain memory *)

Record Memory := mkMemory {
  mem_blocks : gmap Z (list byte);
  mem_next : Z
}.

Definition mem_access (s : Memory) (h off n : Z) (msg : string) : outcome (list byte) :=
  match mem_blocks s !! h with
  | None => Throw (invalid_argument "Invalid handle or block not found")
  | Some b => if out_of_bounds (zlen b) off n then Throw (out_of_range msg) else Ret b
  end.

Definition mem_step (op : client_op) (s : Memory) : outcome client_result * Memory :=
  match op with
  | OpAllocate n =>
      (Ret (RHandle (mem_next s)), mkMemory (<[mem_next s := zeros n]> (mem_blocks s)) (mem_next s + 1))
  | OpFree h => (Ret RUnit, mkMemory (delete h (mem_blocks s)) (mem_next s))
  | OpRead h off n =>
      (match mem_access s h off n "Read out of bounds" with
       | Ret b => Ret (RBytes (slice off n b))
       | Throw e => Throw e
       | _ => Undef
       end, s)
  | OpWrite h off d =>
      match mem_access s h off (zlen d) "Write out of bounds" with
      | Ret b => (Ret RUnit, mkMemory (<[h := splice off d b]> (mem_blocks s)) (mem_next s))
      | Throw e => (Throw e, s)
      | _ => (Undef, s)
      end
  end.

(** Memory after a call that failed for want of memory: a handle may be used up. *)
Definition mem_failed (op : client_op) (s : Memory) : Memory :=
  match op with
  | OpAllocate _ => mkMemory (mem_blocks s) (mem_next s + 1)
  | _ => s
  end.

Record represents (m : Client) (s : Memory) : Prop := {
  rp_wf : client_wf m;
  rp_blocks : forall h, value m h = mem_blocks s !! h;
  rp_next : next_local_handle_ m = mem_next s
}.

Lemma represents_keeps m m' s : represents m s -> client_keeps m m' -> represents m' s.
Proof. intros [] []. split; [done| |congruence]. intros h. by rewrite ck_value0. Qed.

Lemma represents_sets m m' s h b :
  represents m s -> client_sets h (Some b) m m' -> represents m' (mkMemory (<[h := b]> (mem_blocks s)) (mem_next s)).
Proof.
  intros [] []. split; [done| |cbn; congruence]. intros k. rewrite cs_value0. cbn. rewrite lookup_insert, rp_blocks0.
  repeat case_decide; congruence.
Qed.

Lemma represents_deletes m m' s h :
  represents m s -> client_sets h None m m' -> represents m' (mkMemory (delete h (mem_blocks s)) (mem_next s)).
Proof.
  intros [] []. split; [done| |cbn; congruence]. intros k. rewrite cs_value0. cbn. rewrite lookup_delete, rp_blocks0.
  repeat case_decide; congruence.
Qed.

Definition same_budget (m m' : Client) : Prop := max_bytes_ (cache_ m') = max_bytes_ (cache_ m).

(** A call is a step of plain memory, or failed and changed nothing. *)
Definition mem_outcome {A} (f : A -> client_result) (op : client_op) (s : Memory) (c : M Client A) (m : Client) : Prop :=
  wp c (fun a m' => (exists s', represents m' s' /\ mem_step op s = (Ret (f a), s')) /\ same_budget m m')
    (fun e m' => represents m' (mem_failed op s) /\ same_budget m m') m.

Lemma mem_outcome_budget {A} (f : A -> client_result) op s (c : M Client A) m0 m :
  same_budget m0 m -> mem_outcome f op s c m ->
  wp c (fun a m' => (exists s', represents m' s' /\ mem_step op s = (Ret (f a), s')) /\ same_budget m0 m')
    (fun e m' => represents m' (mem_failed op s) /\ same_budget m0 m') m.
Proof.
  unfold same_budget. intros H0 H. eapply wp_mono; [exact H| |]; cbn beta.
  - intros a m' [? Hm]. split; [done|congruence].
  - intros e m' [? Hm]. split; [done|congruence].
Qed.

Lemma out_of_bounds_spec total off n :
  0 <= off -> 0 <= n -> out_of_bounds total off n = false <-> off + n <= total.
Proof. intros Ho Hn. unfold out_of_bounds. rewrite orb_false_iff, !Z.ltb_ge. lia. Qed.

Lemma mem_read_step s h off n b :
  mem_blocks s !! h = Some b -> out_of_bounds (zlen b) off n = false ->
  mem_step (OpRead h off n) s = (Ret (RBytes (slice off n b)), s).
Proof. intros Hb Ho. cbn. unfold mem_access. by rewrite Hb, Ho. Qed.

Lemma mem_write_step s h off d b :
  mem_blocks s !! h = Some b -> out_of_bounds (zlen b) off (zlen d) = false ->
  mem_step (OpWrite h off d) s = (Ret RUnit, mkMemory (<[h := splice off d b]> (mem_blocks s)) (mem_next s)).
Proof. intros Hb Ho. cbn. unfold mem_access. by rewrite Hb, Ho. Qed.

(** Bytes in the cache. *)
Lemma read_cached s m h off n b :
  represents m s -> cached m h = Some b ->
  mem_outcome RBytes (OpRead h off n) s
    (if out_of_bounds (zlen (blk_data b)) off n then throw (out_of_range "Read out of bounds")
     else ret (slice off n (blk_data b))) m.
Proof.
  intros Hr Hb. unfold mem_outcome. destruct (out_of_bounds _ _ _) eqn:E; unfold wp; cbn -[mem_step]; [done|].
  split; [|done]. exists s. split; [done|]. apply mem_read_step; [|done].
  rewrite <- (rp_blocks _ _ Hr). by apply value_cached.
Qed.

Lemma write_cached s m h off d b :
  0 <= off -> represents m s -> cached m h = Some b ->
  mem_outcome (fun _ => RUnit) (OpWrite h off d) s
    (if out_of_bounds (zlen (blk_data b)) off (zlen d) then throw (out_of_range "Write out of bounds")
     else do! on_cache (cache_put h (splice off d (blk_data b)) true) in ret tt) m.
Proof.
  intros Ho Hr Hb. pose proof (value_cached _ _ _ Hb) as Hv. pose proof (rp_wf _ _ Hr) as Hwf.
  unfold mem_outcome. destruct (out_of_bounds _ _ _) eqn:E; [by unfold wp; cbn|].
  pose proof E as E'. apply out_of_bounds_spec in E'; [|done|apply zlen_nonneg].
  pose proof (cl_cache _ Hwf) as Hc.
  assert (Hfit : bytes_of (without h (cache_abs (cache_ m))) + zlen (blk_data b) <= max_bytes_ (cache_ m)).
  { destruct (cw_max _ Hc) as [Hle _]. rewrite (cw_bytes _ Hc) in Hle.
    pose proof (find_bytes h (cache_abs (cache_ m)) b Hb). lia. }
  destruct (cache_put_room (cache_ m) h (splice off d (blk_data b)) true Hc) as (c' & Hp & Hwf' & Hm & Ha).
  { by rewrite zlen_splice by lia. }
  apply wp_bind. eapply wp_run; [by apply on_cache_run|]. unfold wp. cbn -[mem_step].
  split; [|exact Hm]. eexists. split; [|apply mem_write_step; [by rewrite <- (rp_blocks _ _ Hr)|done]].
  apply (represents_sets m); [done|].
  change (Some (splice off d (blk_data b))) with (blk_data <$> Some (mkBlock h (splice off d (blk_data b)) true)).
  apply cache_sets; [done| |by eapply Hwf|done|done| |].
  - destruct (remote_handles_ m !! h) as [a|] eqn:Ea; [|done]. pose proof (cl_excl _ Hwf _ _ Ea). congruence.
  - cbn. rewrite zlen_splice by lia. apply (cl_small _ Hwf _ _ Hv). pose proof (bytes_of_nonneg (without h (cache_abs (cache_ m)))). lia.
  - intros k. rewrite Ha, find_block_cons, find_block_without. cbn. unfold cached. repeat case_decide; congruence.
Qed.

Lemma oversized_spec m h :
  exists r, oversized_remote_alloc h m = (Ret r, m) /\
    match r with
    | Some a => remote_handles_ m !! h = Some a
    | None => forall a, remote_handles_ m !! h = Some a -> ra_size a <= max_bytes_ (cache_ m)
    end.
Proof.
  unfold oversized_remote_alloc. rewrite bind_get. destruct (remote_handles_ m !! h) as [a|] eqn:E.
  - unfold max_size. destruct (Z.leb_spec (ra_size a) (max_bytes_ (cache_ m))).
    + exists None. split; [done|]. by intros ? [= <-].
    + by exists (Some a).
  - exists None. by split.
Qed.

(** The shape [read] and [write] share: the cache, then a block too big for the
    cache on its peers, then a load. *)
Lemma access_outcome {A} (f : A -> client_result) op s m h (hit : list byte -> M Client A)
    (direct : RemoteAllocation -> M Client A) :
  mem_failed op s = s -> represents m s ->
  (forall m' b, represents m' s -> cached m' h = Some b -> mem_outcome f op s (hit (blk_data b)) m') ->
  (forall m' a, represents m' s -> remote_handles_ m' !! h = Some a -> mem_outcome f op s (direct a) m') ->
  mem_outcome f op s
    (let! local := on_cache (cache_get h) in
     match local with
     | Some d => hit d
     | None =>
         let! remote := oversized_remote_alloc h in
         match remote with
         | Some alloc => direct alloc
         | None =>
             do! load_to_local h in
             let! local := on_cache (cache_get h) in
             match local with
             | None => throw (runtime_error "Failed to load block from remote")
             | Some d => hit d
             end
         end
     end) m.
Proof.
  intros Hf Hr Hhit Hdir. destruct (get_keeps m h (rp_wf _ _ Hr)) as (c' & Hg & Hk & Hc).
  apply wp_bind. eapply wp_run; [by apply on_cache_run|]. set (m1 := set_cache c' m) in *.
  assert (Hr1 : represents m1 s) by (by eapply represents_keeps).
  assert (Hb1 : same_budget m m1) by (by apply Hk).
  destruct (cached m h) as [b|] eqn:Eb; cbn [fmap option_fmap option_map].
  { apply (mem_outcome_budget f op s _ m m1 Hb1), Hhit; [done|by rewrite Hc]. }
  destruct (oversized_spec m1 h) as ([a|] & Ho & Hpost); apply wp_bind; (eapply wp_run; [exact Ho|]).
  { by apply (mem_outcome_budget f op s _ m m1 Hb1), Hdir. }
  apply wp_bind. eapply wp_mono; [apply load_to_local_spec; [by eapply rp_wf|by rewrite Hc|done]| |]; cbn beta.
  - intros _ m2 (Hk2 & b & Hb). assert (Hr2 : represents m2 s) by (by eapply represents_keeps).
    destruct (get_keeps m2 h (rp_wf _ _ Hr2)) as (c3 & Hg3 & Hk3 & Hc3). rewrite Hb in Hg3.
    apply wp_bind. eapply wp_run; [by apply on_cache_run|].
    apply (mem_outcome_budget f op s _ m (set_cache c3 m2)); [|apply Hhit; [by eapply represents_keeps|by rewrite Hc3]].
    unfold same_budget in *. by rewrite (ck_max _ _ Hk3), (ck_max _ _ Hk2).
  - intros e m2 [Hk2 _]. rewrite Hf. split; [by eapply represents_keeps|]. unfold same_budget in *. by rewrite (ck_max _ _ Hk2).
Qed.

Lemma client_read_outcome s m h off n :
  0 <= off -> 0 <= n -> (forall v, value m h = Some v -> off + n <= zlen v -> n <= MAX_PAYLOAD) -> represents m s ->
  mem_outcome RBytes (OpRead h off n) s (client_read h off n) m.
Proof.
  intros Ho Hn Hmax Hr. apply (access_outcome RBytes (OpRead h off n) s m h
    (fun d => if out_of_bounds (zlen d) off n then throw (out_of_range "Read out of bounds") else ret (slice off n d))
    (fun a => if out_of_bounds (ra_size a) off n then throw (out_of_range "Read out of bounds")
              else read_remote a off n false)); [done|done| |].
  - intros m' b Hr' Hb. by apply read_cached.
  - intros m' a Hr' Ha. pose proof (rp_wf _ _ Hr') as Hwf. pose proof (cl_allocs _ Hwf _ _ Ha) as Hok.
    unfold mem_outcome. destruct (out_of_bounds _ _ _) eqn:E; [by unfold wp; cbn|].
    pose proof E as E'. apply out_of_bounds_spec in E'; [|done..].
    assert (n <= MAX_PAYLOAD).
    { pose proof (value_remote _ _ _ Hwf Ha) as Hv. eapply Hmax; [|by rewrite (zlen_alloc _ _ Hok)].
      by rewrite (rp_blocks _ _ Hr), <- (rp_blocks _ _ Hr'). }
    eapply wp_mono; [apply read_remote_spec; [apply Hwf|done..]| |]; cbn beta.
    + intros d m2 [Hrel ->]. destruct (proj1 (released_false _ _ _) Hrel) as [Hns Hs].
      pose proof (same_objects_keeps _ _ Hwf Hns Hs) as Hk. split; [|apply Hk]. exists s. split; [by eapply represents_keeps|].
      apply mem_read_step; [|by rewrite (zlen_alloc _ _ Hok)]. rewrite <- (rp_blocks _ _ Hr'). by apply value_remote.
    + intros e m2 (Hns & Hs & _). pose proof (same_objects_keeps _ _ Hwf Hns Hs) as Hk. split; [by eapply represents_keeps|apply Hk].
Qed.

Lemma client_write_outcome s m h off d :
  0 <= off -> zlen d <= MAX_PAYLOAD -> represents m s ->
  mem_outcome (fun _ => RUnit) (OpWrite h off d) s (client_write h off d) m.
Proof.
  intros Ho Hd Hr. apply (access_outcome (fun _ => RUnit) (OpWrite h off d) s m h
    (fun b => if out_of_bounds (zlen b) off (zlen d) then throw (out_of_range "Write out of bounds")
              else do! on_cache (cache_put h (splice off d b) true) in ret tt)
    (fun a => if out_of_bounds (ra_size a) off (zlen d) then throw (out_of_range "Write out of bounds")
              else write_remote a off d)); [done|done| |].
  - intros m' b Hr' Hb. by apply write_cached.
  - intros m' a Hr' Ha. pose proof (rp_wf _ _ Hr') as Hwf. pose proof (cl_allocs _ Hwf _ _ Ha) as Hok.
    unfold mem_outcome. destruct (out_of_bounds _ _ _) eqn:E; [by unfold wp; cbn|].
    pose proof E as E'. apply out_of_bounds_spec in E'; [|done|apply zlen_nonneg].
    eapply wp_mono; [apply write_remote_spec; [apply Hwf|done..]| |done]; cbn beta.
    intros _ m2 Hbw. pose proof (table_write _ _ _ _ _ _ Hwf Ha Hbw) as Hs. rewrite (value_remote m' h a) in Hs by done.
    split; [|apply Hs]. eexists. split; [by eapply represents_sets|].
    apply mem_write_step; [|by rewrite (zlen_alloc _ _ Hok)]. rewrite <- (rp_blocks _ _ Hr'). by apply value_remote.
Qed.

Lemma client_free_outcome s m h :
  represents m s -> mem_outcome (fun _ => RUnit) (OpFree h) s (client_free h) m.
Proof.
  intros Hr. pose proof (rp_wf _ _ Hr) as Hwf. unfold mem_outcome, client_free.
  destruct (cache_remove_spec (cache_ m) h (cl_cache _ Hwf)) as (c' & Hrm & Hwf' & Hm & Ha).
  apply wp_bind. eapply wp_run; [by apply on_cache_run|]. set (m1 := set_cache c' m).
  unfold spec_remove. cbn [fst]. change (find_block h (cache_abs (cache_ m))) with (cached m h).
  assert (Hf : forall k, find_block k (cache_abs c') = if decide (k = h) then None else cached m k).
  { intros k. rewrite Ha. apply find_block_without. }
  destruct (cached m h) as [b|] eqn:Eb.
  - unfold wp. cbn -[mem_step]. split; [|exact Hm]. eexists. split; [|done]. apply (represents_deletes m); [done|].
    change None with (blk_data <$> @None CacheBlock). apply cache_sets; try done.
    + destruct (remote_handles_ m !! h) as [a|] eqn:Ea; [|done]. pose proof (cl_excl _ Hwf _ _ Ea). congruence.
    + eapply (cl_next _ Hwf). by eapply value_cached.
  - assert (Hk : client_keeps m m1).
    { apply cache_keeps; try done. intros k. rewrite Hf. case_decide; congruence. }
    assert (Hr1 : represents m1 s) by (by eapply represents_keeps).
    unfold lookup_remote. apply wp_bind, wp_bind, wp_get. unfold wp at 1. cbn [ret].
    destruct (remote_handles_ m1 !! h) as [a|] eqn:Ea.
    + apply wp_bind. eapply wp_mono; [apply free_remote_spec; [apply Hk|by eapply (cl_allocs _ (ck_wf _ _ Hk))]| |done].
      cbn beta. intros _ m2 Hrel. pose proof (table_delete _ _ _ _ (ck_wf _ _ Hk) Ea Hrel) as Hs.
      unfold erase_remote. apply wp_bind, wp_get. unfold wp. cbn -[mem_step].
      split; [|unfold same_budget; rewrite <- (ck_max _ _ Hk); apply Hs]. eexists. split; [|done].
      by apply (represents_deletes m1).
    + unfold wp. cbn -[mem_step]. split; [|exact Hm]. eexists. split; [|done].
      apply (represents_deletes m1); [done|].
      assert (Hv : value m1 h = None) by (apply value_None; split; [by rewrite <- Eb; unfold cached; cbn; rewrite Hf, decide_True|done]).
      rewrite <- Hv. by apply client_keeps_sets, client_keeps_refl, Hk.
Qed.

Lemma new_handle_spec m s :
  represents m s -> 0 <= mem_next s -> mem_next s + 1 < U64 ->
  exists m', new_local_handle m = (Ret (mem_next s), m') /\ represents m' (mkMemory (mem_blocks s) (mem_next s + 1)) /\
    cache_ m' = cache_ m /\ value m' (mem_next s) = None.
Proof.
  intros [Hwf Hv Hn] H0 Hlt. eexists. split; [unfold new_local_handle; rewrite bind_get, bind_put, Hn; done|].
  rewrite u64_small by lia. set (m' := mkClient _ _ _ _ _).
  assert (Hv' : forall h, value m' h = value m h) by done.
  split; [|split; [done|]].
  - split; [|done|done]. destruct Hwf. split; try done. intros h v Hh. cbn. rewrite Hv' in Hh.
    pose proof (cl_next0 _ _ Hh). lia.
  - rewrite Hv'. destruct (value m (mem_next s)) as [v|] eqn:E; [|done]. pose proof (cl_next _ Hwf _ _ E). lia.
Qed.

Lemma client_allocate_outcome s m n :
  0 <= n -> (n <= max_bytes_ (cache_ m) -> n <= MAX_PAYLOAD) -> represents m s -> 0 <= mem_next s -> mem_next s + 1 < U64 ->
  mem_outcome RHandle (OpAllocate n) s (client_allocate n) m.
Proof.
  intros Hn Hsm Hr H0 Hlt. unfold mem_outcome, client_allocate.
  destruct (new_handle_spec m s Hr H0 Hlt) as (m1 & Hnew & Hr1 & Hc1 & Hv1).
  pose proof (rp_wf _ _ Hr1) as Hwf1. pose proof (rp_next _ _ Hr1) as Hn1. cbn [mem_next] in Hn1.
  apply wp_bind. eapply wp_run; [exact Hnew|]. apply wp_bind, wp_get.
  rewrite <- Hc1 in Hsm.
  assert (Hdone : forall m2, client_sets (mem_next s) (Some (zeros n)) m1 m2 ->
    (exists s', represents m2 s' /\ mem_step (OpAllocate n) s = (Ret (RHandle (mem_next s)), s')) /\ same_budget m m2).
  { intros m2 Hs. split; [|unfold same_budget; rewrite <- Hc1; apply Hs].
    eexists. split; [|done]. by apply (represents_sets m1 m2 _ _ _ Hr1). }
  assert (Hfail : forall m2, client_keeps m1 m2 -> represents m2 (mem_failed (OpAllocate n) s) /\ same_budget m m2).
  { intros m2 Hk. split; [by eapply represents_keeps|]. unfold same_budget. rewrite <- Hc1. apply Hk. }
  unfold max_size. destruct (Z.ltb_spec (max_bytes_ (cache_ m1)) n).
  - apply wp_bind. eapply wp_mono; [apply allocate_remote_spec; [apply Hwf1|done]| |]; cbn beta.
    + intros _ m3 (a & m2 & Hns & -> & Hfr). unfold wp. cbn -[mem_step]. apply Hdone.
      eapply table_insert; try done. lia.
    + intros e m2 [Hns Hs]. by apply Hfail, same_objects_keeps.
  - apply wp_bind. eapply wp_mono; [by apply evict_if_needed_spec| |]; cbn beta.
    + intros _ m2 (Hk & _ & Hroom).
      destruct (put_sets m2 (mem_next s) (zeros n) false) as (c' & Hp & Hs).
      * apply Hk.
      * by rewrite (ck_value _ _ Hk).
      * rewrite (ck_next _ _ Hk). lia.
      * by rewrite zlen_zeros.
      * rewrite zlen_zeros by done. by apply Hsm.
      * apply wp_bind. eapply wp_run; [by apply on_cache_run|]. unfold wp. cbn -[mem_step]. apply Hdone.
        by eapply client_sets_keeps_l.
    + intros e m2 [Hk _]. by apply Hfail.
Qed.

Lemma mem_outcome_exec {A} (f : A -> client_result) op s (c : M Client A) m :
  mem_outcome f op s c m -> mem_outcome (fun r => r) op s (let! a := c in ret (f a)) m.
Proof. intros H. apply wp_bind. eapply wp_mono; [exact H| |done]. intros a m' Ha. exact Ha. Qed.

Lemma client_exec_outcome s m op :
  op_ok (max_bytes_ (cache_ m)) op -> represents m s -> 0 <= mem_next s -> mem_next s + 1 < U64 ->
  mem_outcome (fun r => r) op s (client_exec op) m.
Proof.
  intros Hop Hr H0 Hlt. destruct op as [n|h|h off n|h off d]; cbn [op_ok client_exec] in *.
  - destruct Hop. by apply (mem_outcome_exec RHandle), client_allocate_outcome.
  - by apply (mem_outcome_exec (fun _ => RUnit)), client_free_outcome.
  - destruct Hop as [? []]. by apply (mem_outcome_exec RBytes), client_read_outcome.
  - destruct Hop. by apply (mem_outcome_exec (fun _ => RUnit)), client_write_outcome.
Qed.

(** *** Sequences of calls: an application that survives exceptions *)

Fixpoint client_run (ops : list client_op) (m : Client) : list (outcome client_result) * Client :=
  match ops with
  | [] => ([], m)
  | op :: ops =>
      let '(o, m) := client_exec op m in
      let '(os, m) := client_run ops m in
      (o :: os, m)
  end.

(** What plain memory allows: each call succeeds as specified or fails and
    changes nothing. *)
Inductive mem_trace : list client_op -> list (outcome client_result) -> Memory -> Memory -> Prop :=
| trace_nil s : mem_trace [] [] s s
| trace_done op ops r os s s1 s2 :
    mem_step op s = (Ret r, s1) -> mem_trace ops os s1 s2 -> mem_trace (op :: ops) (Ret r :: os) s s2
| trace_fail op ops e os s s2 :
    mem_trace ops os (mem_failed op s) s2 -> mem_trace (op :: ops) (Throw e :: os) s s2.

Lemma mem_step_next op s o s' : mem_step op s = (o, s') -> mem_next s <= mem_next s' <= mem_next s + 1.
Proof.
  destruct op; cbn; unfold mem_access; intros H; repeat case_match; simplify_eq; cbn; lia.
Qed.

Lemma mem_failed_next op s : mem_next s <= mem_next (mem_failed op s) <= mem_next s + 1.
Proof. destruct op; cbn; lia. Qed.

Lemma client_run_trace ops : forall s m,
  Forall (op_ok (max_bytes_ (cache_ m))) ops -> represents m s -> 0 <= mem_next s -> mem_next s + zlen ops < U64 ->
  exists s', mem_trace ops (client_run ops m).1 s s' /\ represents (client_run ops m).2 s'.
Proof.
  induction ops as [|op ops IH]; intros s m Hops Hr H0 Hlt; cbn [client_run].
  { exists s. split; [constructor|done]. }
  apply Forall_cons in Hops as [Hop Hops]. rewrite zlen_cons in Hlt. pose proof (zlen_nonneg ops).
  pose proof (client_exec_outcome s m op Hop Hr H0 ltac:(lia)) as Ho. unfold mem_outcome in Ho.
  destruct (client_exec op m) as [o m1] eqn:E. pose proof (wp_elim _ _ _ _ _ _ Ho E) as Hpost.
  destruct o as [r|e| |]; try done.
  - destruct Hpost as [(s1 & Hr1 & Hs1) Hb]. pose proof (mem_step_next _ _ _ _ Hs1). rewrite <- Hb in Hops.
    destruct (IH s1 m1) as (s' & Ht & Hr'); [done|done|lia|lia|].
    destruct (client_run ops m1) as [os m2]. exists s'. split; [|done]. by eapply trace_done.
  - destruct Hpost as [Hpost Hb]. rewrite <- Hb in Hops. pose proof (mem_failed_next op s).
    destruct (IH (mem_failed op s) m1) as (s' & Ht & Hr'); [done|done|lia|lia|].
    destruct (client_run ops m1) as [os m2]. exists s'. split; [|done]. by apply trace_fail.
Qed.

Lemma represents_new max w :
  0 <= max -> 2 * max < U64 -> world_ok w -> represents (MemoryClient_new max w) (mkMemory ∅ 1).
Proof. intros H0 Hmax Hw. split; [|done|done]. split; cbn; try done. by apply LRUCache_new_wf. Qed.

(** ** Properties *)

(** C2: Transparency of the memory client, with a cache of any size.  An
    application that allocates, reads, writes and frees, and goes on after
    exceptions, cannot tell the cache, eviction, striping and loading back from
    plain memory: each call has the result of a map from handles to bytes, or throws
    and leaves every block as it was; no loop runs for ever and nothing undefined
    happens.  Conditions: connections that are up stay up and every call to a peer is
    answered in time ([RemoteStore]); a call reads or writes no more than fits in one
    message, 64 MB less a kilobyte; and a block that fits in the cache fits in one
    message too ([op_ok]), for it is written back and loaded as a whole.  The last is
    needed: with the README's cache of 1 GB, a block of 100 MB is lost when it is
    evicted, since [write_remote] does not look at the reply. *)
Theorem client_transparent max w ops :
  0 <= max -> 2 * max < U64 -> world_ok w -> Forall (op_ok max) ops -> 1 + zlen ops < U64 ->
  exists s', mem_trace ops (client_run ops (MemoryClient_new max w)).1 (mkMemory ∅ 1) s'.
Proof.
  intros H0 Hmax Hw Hops Hlt.
  destruct (client_run_trace ops (mkMemory ∅ 1) (MemoryClient_new max w)) as (s' & Ht & _);
    [done|by apply represents_new|done..|]. by exists s'.
Qed.

(** *** A block too big for the cache, in place on its peers *)

Lemma oversized_lookup m h a :
  client_wf m -> remote_handles_ m !! h = Some a -> max_bytes_ (cache_ m) < ra_size a ->
  exists c', let m1 := set_cache c' m in
    on_cache (cache_get h) m = (Ret None, m1) /\ oversized_remote_alloc h m1 = (Ret (Some a), m1) /\
    client_keeps m m1 /\ alloc_ok (world m1) a.
Proof.
  intros Hwf Ha Hbig. destruct (get_keeps m h Hwf) as (c' & Hg & Hk & Hc). exists c'. cbv zeta.
  rewrite (cl_excl _ Hwf _ _ Ha) in Hg. cbn in Hg. split; [by apply on_cache_run|]. split; [|split; [done|]].
  - unfold oversized_remote_alloc. rewrite bind_get. cbn [remote_handles_ set_cache]. rewrite Ha. unfold max_size.
    destruct (Z.leb_spec (ra_size a) (max_bytes_ (cache_ (set_cache c' m)))) as [H|H]; [|done].
    rewrite (ck_max _ _ Hk) in H. lia.
  - by apply (cl_allocs _ (ck_wf _ _ Hk) h a).
Qed.

Lemma oversized_read_spec m h a off n :
  client_wf m -> remote_handles_ m !! h = Some a -> max_bytes_ (cache_ m) < ra_size a ->
  0 <= off -> 0 <= n <= MAX_PAYLOAD -> off + n <= ra_size a ->
  wp (client_read h off n)
    (fun d m' => client_keeps m m' /\ d = slice off n (content (world m) (stripes_of a)))
    (fun _ m' => client_keeps m m' /\ ~ readable n) m.
Proof.
  intros Hwf Ha Hbig Ho [Hn Hmax] Hfit.
  destruct (oversized_lookup m h a Hwf Ha Hbig) as (c' & Hrun & Hov & Hk & Hok). set (m1 := set_cache c' m) in *.
  unfold client_read. apply wp_bind. eapply wp_run; [exact Hrun|]. apply wp_bind. eapply wp_run; [exact Hov|].
  cbn beta iota. rewrite (proj2 (out_of_bounds_spec _ off n Ho Hn)) by done.
  eapply wp_mono; [apply (read_remote_spec a off n false m1); try done; apply Hk| |]; cbn beta.
  - intros d m2 [Hrel ->]. destruct (proj1 (released_false _ _ _) Hrel) as [Hns Hs]. split; [|done]. eapply client_keeps_trans; [done|].
    apply same_objects_keeps; [apply Hk|done..].
  - intros e m2 (Hns & Hs & Hr). split; [|done]. eapply client_keeps_trans; [done|].
    apply same_objects_keeps; [apply Hk|done..].
Qed.

Lemma oversized_write_spec m h a off d :
  client_wf m -> remote_handles_ m !! h = Some a -> max_bytes_ (cache_ m) < ra_size a ->
  0 <= off -> zlen d <= MAX_PAYLOAD -> off + zlen d <= ra_size a ->
  wp (client_write h off d)
    (fun _ m' => client_sets h (Some (splice off d (content (world m) (stripes_of a)))) m m') (fun _ _ => False) m.
Proof.
  intros Hwf Ha Hbig Ho Hmax Hfit.
  destruct (oversized_lookup m h a Hwf Ha Hbig) as (c' & Hrun & Hov & Hk & Hok). set (m1 := set_cache c' m) in *.
  unfold client_write. apply wp_bind. eapply wp_run; [exact Hrun|]. apply wp_bind. eapply wp_run; [exact Hov|].
  cbn beta iota. rewrite (proj2 (out_of_bounds_spec _ off _ Ho (zlen_nonneg d))) by done.
  eapply wp_mono; [apply (write_remote_spec a off d m1); try done; apply Hk| |done]; cbn beta.
  intros _ m2 Hbw. eapply client_sets_keeps_l; [done|]. change (world m) with (world m1).
  assert (Ha1 : remote_handles_ m1 !! h = Some a) by done.
  pose proof (table_write _ _ _ _ _ _ (ck_wf _ _ Hk) Ha1 Hbw) as Hs. by rewrite (value_remote m1 h a) in Hs by (done || apply Hk).
Qed.

(** What is in the local cache is always served: a read in bounds returns
    the bytes, a write in bounds succeeds, without asking any peer. *)
Theorem client_hit m s h b off n d :
  represents m s -> cached m h = Some b -> 0 <= off -> 0 <= n -> off + n <= zlen (blk_data b) ->
  off + zlen d <= zlen (blk_data b) ->
  (exists m', client_read h off n m = (Ret (slice off n (blk_data b)), m') /\ world m' = world m) /\
  (exists m', client_write h off d m = (Ret tt, m') /\ world m' = world m /\
     value m' h = Some (splice off d (blk_data b))).
Proof.
  intros Hr Hb Ho Hn Hrd Hwr. pose proof (rp_wf _ _ Hr) as Hwf. destruct (get_keeps m h Hwf) as (c' & Hg & Hk & Hc).
  rewrite Hb in Hg. cbn in Hg.
  assert (Hrun : on_cache (cache_get h) m = (Ret (Some (blk_data b)), set_cache c' m)) by (by apply on_cache_run).
  unfold client_read, client_write. rewrite !(bind_ret _ _ _ _ _ Hrun).
  rewrite (proj2 (out_of_bounds_spec _ _ _ Ho Hn)) by done.
  rewrite (proj2 (out_of_bounds_spec _ _ _ Ho (zlen_nonneg d))) by done.
  split; [by eexists|]. set (m1 := set_cache c' m) in *.
  assert (Hfit : bytes_of (without h (cache_abs c')) + zlen (blk_data b) <= max_bytes_ c').
  { pose proof (cl_cache _ (ck_wf _ _ Hk)) as Hwf'. destruct (cw_max _ Hwf') as [Hle _]. rewrite (cw_bytes _ Hwf') in Hle.
    assert (Hb' : cached m1 h = Some b) by (by rewrite Hc). pose proof (find_bytes h _ b Hb'). cbn in *. lia. }
  destruct (cache_put_room c' h (splice off d (blk_data b)) true) as (c2 & Hp & _ & _ & Ha).
  { apply (cl_cache _ (ck_wf _ _ Hk)). }
  { by rewrite zlen_splice by lia. }
  assert (Hrun2 : on_cache (cache_put h (splice off d (blk_data b)) true) m1 = (Ret true, set_cache c2 m1))
    by (by apply on_cache_run).
  rewrite (bind_ret _ _ _ _ _ Hrun2). eexists. split; [done|]. split; [done|].
  unfold value, cached. cbn. rewrite Ha, find_block_cons. by rewrite decide_True.
Qed.

(** A block too big for the cache lives on its peers and is always
    reachable: a read of at most one message returns the bytes, and a write of
    at most one message lands. *)
Theorem client_oversized m s h a off n d :
  represents m s -> remote_handles_ m !! h = Some a -> max_bytes_ (cache_ m) < ra_size a ->
  0 <= off -> readable n -> off + n <= ra_size a -> zlen d <= MAX_PAYLOAD -> off + zlen d <= ra_size a ->
  exists b, value m h = Some b /\
  (exists m', client_read h off n m = (Ret (slice off n b), m')) /\
  (exists m', client_write h off d m = (Ret tt, m') /\ value m' h = Some (splice off d b)).
Proof.
  intros Hr Ha Hbig Ho Hn Hrd Hmax Hwr. pose proof (rp_wf _ _ Hr) as Hwf. unfold readable in Hn.
  eexists. split; [by apply value_remote|]. split.
  - pose proof (oversized_read_spec m h a off n Hwf Ha Hbig Ho ltac:(lia) Hrd) as Hw.
    destruct (client_read h off n m) as [o m2] eqn:E. pose proof (wp_elim _ _ _ _ _ _ Hw E) as Hpost.
    destruct o as [r|e| |]; [|by destruct Hpost as [_ ?]|done..]. destruct Hpost as [_ ->]. by exists m2.
  - pose proof (oversized_write_spec m h a off d Hwf Ha Hbig Ho Hmax Hwr) as Hw.
    destruct (client_write h off d m) as [o m2] eqn:E. pose proof (wp_elim _ _ _ _ _ _ Hw E) as Hpost.
    destruct o as [[]|e| |]; try done. exists m2. split; [done|]. by rewrite (cs_value _ _ _ _ Hpost), decide_True.
Qed.
End client.

(** ** A concrete run: a cache of 4 bytes, two peers with 12 bytes each *)

#[local] Instance sort_id : PeerSort := {| peer_sort l := l; peer_sort_perm := fun l => Permutation_refl l |}.

Section demo.
#[local] Existing Instance pools_net.

Definition demo_peer (addr : string) : RemotePeer := mkPeer addr 9090 true 8 0 true.

Definition demo_world : PoolWorld :=
  mkWorld [demo_peer "10.0.0.1"; demo_peer "10.0.0.2"] (fun _ => mkPool ∅ 1 3 4) 0.

Definition demo_net : PeerNet PoolWorld := pools_net 7.
#[local] Existing Instance demo_net.

Definition demo_store : RemoteStore PoolWorld := pools_remote_store 7 ltac:(done).
#[local] Existing Instance demo_store.

(** The second block evicts the first, the next read loads it back, and the
    third block is striped over both peers and written across the boundary. *)
Definition demo_calls : list client_op :=
  [OpAllocate 3; OpWrite 1 0 [x01; x02]; OpAllocate 4; OpRead 1 0 3; OpAllocate 12; OpWrite 3 6 [x05; x06; x07; x08];
   OpRead 3 5 6; OpRead 2 2 9; OpFree 1; OpRead 1 0 1].

Lemma demo_world_ok : world_ok demo_world.
Proof.
  split.
  - intros i. split; [done|]. intros h o. cbn. by rewrite lookup_empty.
  - intros i p. cbn. unfold znth. destruct (i <? 0); [done|]. destruct (Z.to_nat i) as [|[|n]]; cbn; [by intros [= <-]..|].
    by destruct n.
Qed.

Lemma demo_client_calls_ok : Forall (op_ok 4) demo_calls.
Proof. repeat constructor; cbn; unfold MAX_PAYLOAD, MAX_MESSAGE_SIZE, zlen; cbn; lia. Qed.

Lemma client_transparent_witness :
  (exists s', mem_trace demo_calls (client_run demo_calls (MemoryClient_new 4 demo_world)).1 (mkMemory ∅ 1) s') /\
  (client_run demo_calls (MemoryClient_new 4 demo_world)).1 =
    [Ret (RHandle 1); Ret RUnit; Ret (RHandle 2); Ret (RBytes [x01; x02; x00]); Ret (RHandle 3); Ret RUnit;
     Ret (RBytes [x00; x05; x06; x07; x08; x00]); Throw (out_of_range "Read out of bounds"); Ret RUnit;
     Throw (invalid_argument "Invalid handle or block not found")].
Proof.
  split.
  - apply (client_transparent 4 demo_world demo_calls).
    + lia.
    + unfold U64. lia.
    + exact demo_world_ok.
    + exact demo_client_calls_ok.
    + unfold U64, zlen. cbn. lia.
  - vm_compute. reflexivity.
Defined.

(** The demo client after its first [n] calls. *)
Definition demo_client (n : nat) : MemoryClient PoolWorld :=
  (client_run (take n demo_calls) (MemoryClient_new 4 demo_world)).2.

Lemma demo_represents n : (n <= 10)%nat -> exists s, represents (demo_client n) s.
Proof.
  intros Hn.
  destruct (client_run_trace (take n demo_calls) (mkMemory ∅ 1) (MemoryClient_new 4 demo_world)) as (s & _ & Hs).
  - apply Forall_take, demo_client_calls_ok.
  - apply represents_new; [lia|unfold U64; lia|exact demo_world_ok].
  - done.
  - cbn [mem_next]. unfold zlen, U64. rewrite length_take. lia.
  - by exists s.
Qed.

Lemma client_hit_witness :
  exists m', client_read 1 1 2 (demo_client 2) = (Ret [x02; x00], m') /\ world m' = world (demo_client 2).
Proof.
  destruct (demo_represents 2) as [s Hs]; [lia|].
  destruct (client_hit (demo_client 2) s 1 (mkBlock 1 [x01; x02; x00] true) 1 2 [x09] Hs) as [H _].
  - vm_compute. reflexivity.
  - lia.
  - lia.
  - unfold zlen. cbn. lia.
  - unfold zlen. cbn. lia.
  - exact H.
Defined.

Lemma client_oversized_witness :
  exists m', client_read 3 5 6 (demo_client 6) = (Ret [x00; x05; x06; x07; x08; x00], m').
Proof.
  destruct (demo_represents 6) as [s Hs]; [lia|].
  destruct (remote_handles_ (demo_client 6) !! 3) as [a|] eqn:Ea; [|vm_compute in Ea; discriminate].
  assert (Hsz : ra_size a = 12) by (vm_compute in Ea; by injection Ea as <-).
  destruct (client_oversized (demo_client 6) s 3 a 5 6 [] Hs Ea) as (b & Hb & [m' Hr] & _).
  - rewrite Hsz. vm_compute. reflexivity.
  - lia.
  - unfold readable, MAX_PAYLOAD, MAX_MESSAGE_SIZE. lia.
  - lia.
  - rewrite zlen_nil. unfold MAX_PAYLOAD, MAX_MESSAGE_SIZE. lia.
  - rewrite zlen_nil. lia.
  - exists m'. rewrite Hr. vm_compute in Hb. injection Hb as <-. reflexivity.
Defined.
End demo.
