(* ===== verification/ClientNet.v ===== *)
(** * The memory client's connections

    [memclient/src/client_api.cpp], the part on the libuv thread and the
    discovery thread: peers learned from discoveryd ([query_discovery],
    [connect_to_peers], [ensure_peer]), their sockets ([start_connect],
    [drain_pending_connects], the connect callback, [on_peer_read]) and the
    matching of replies to calls ([sync_remote_call], [fail_pending_requests]).
    [MemoryClient.v] sees all of it as the class [PeerNet].

    libuv delivers the callbacks as events ([net_event]); [enabled] is what it
    promises about them.  Closing a handle that is closing, using a handle that
    was deleted and setting a promise twice are undefined. *)

From S2P Require Import Prelude Framing Slab PageTracker Crc32c Pool MemoryProtocol RemoteStore.

(** ** State *)

(** A libuv handle.  [SkClosing true] is deleted by its close callback;
    [SkClosing false] was closed with a null callback and leaks as [SkClosed]. *)
Inductive SockState :=
| SkIdle
| SkConnecting
| SkReading
| SkClosing (deletes : bool)
| SkClosed.

#[export] Instance SockState_eq_dec : EqDecision SockState.
Proof. solve_decision. Defined.

Record Sock := mkSock {
  sk_peer : Z;
  sk_state : SockState
}.

(** [RemotePeer] with the fields the network thread owns. *)
Record NetPeer := mkNetPeer {
  np_peer : RemotePeer;
  np_socket : option Z;
  np_buffer : list byte;
  np_updated : Z               (* last_capacity_update *)
}.

Record ClientNet := mkNet {
  net_peers : list NetPeer;
  net_connects : list Z;       (* pending_connects_ *)
  net_pending : gset Z;        (* pending_requests_ *)
  net_resolved : gmap Z (list byte);   (* the promises that were set *)
  net_outbound : list (Z * list byte); (* outbound_queue_ *)
  net_written : list (Z * list byte);  (* what uv_write accepted, by socket *)
  net_sockets : gmap Z Sock;
  net_next_socket : Z
}.

Definition set_peers l n := mkNet l (net_connects n) (net_pending n) (net_resolved n) (net_outbound n) (net_written n) (net_sockets n) (net_next_socket n).
Definition set_connects l n := mkNet (net_peers n) l (net_pending n) (net_resolved n) (net_outbound n) (net_written n) (net_sockets n) (net_next_socket n).
Definition set_requests p r n := mkNet (net_peers n) (net_connects n) p r (net_outbound n) (net_written n) (net_sockets n) (net_next_socket n).
Definition set_outbound l n := mkNet (net_peers n) (net_connects n) (net_pending n) (net_resolved n) l (net_written n) (net_sockets n) (net_next_socket n).
Definition set_written l n := mkNet (net_peers n) (net_connects n) (net_pending n) (net_resolved n) (net_outbound n) l (net_sockets n) (net_next_socket n).
Definition set_sockets s n := mkNet (net_peers n) (net_connects n) (net_pending n) (net_resolved n) (net_outbound n) (net_written n) s (net_next_socket n).

Definition set_np_socket s p := mkNetPeer (np_peer p) s (np_buffer p) (np_updated p).
Definition set_np_buffer b p := mkNetPeer (np_peer p) (np_socket p) b (np_updated p).
Definition set_np_connected c p :=
  let q := np_peer p in
  mkNetPeer (mkPeer (ip q) (port q) c (free_ram_bytes q) (free_vram_bytes q) (capacity_known q))
    (np_socket p) (np_buffer p) (np_updated p).

Definition update_peer (i : Z) (f : NetPeer -> NetPeer) : M ClientNet unit :=
  let! n := get in put (set_peers (alter f (Z.to_nat i) (net_peers n)) n).

(** [*peer] for a pointer into [peers_]. *)
Definition get_peer (i : Z) : M ClientNet NetPeer :=
  let! n := get in
  match znth (net_peers n) i with
  | Some p => ret p
  | None => undef
  end.

Definition set_state (sk : Z) (st : SockState) : M ClientNet unit :=
  let! n := get in
  match net_sockets n !! sk with
  | Some s => put (set_sockets (<[sk := mkSock (sk_peer s) st]> (net_sockets n)) n)
  | None => undef
  end.

Definition is_closing (st : SockState) : bool :=
  match st with SkClosing _ | SkClosed => true | _ => false end.

Definition uv_is_closing (sk : Z) : M ClientNet bool :=
  let! n := get in
  match net_sockets n !! sk with
  | Some s => ret (is_closing (sk_state s))
  | None => undef
  end.

(** [uv_close(socket, cb)]; [deletes]: the callback deletes the handle. *)
Definition uv_close (sk : Z) (deletes : bool) : M ClientNet unit :=
  let! c := uv_is_closing sk in
  if c then undef else set_state sk (SkClosing deletes).

(** ** Peers from discovery *)

Record PeerInfo := mkPeerInfo {
  pi_address : option string;
  pi_memory_port : Z;
  pi_free_ram : Z;
  pi_free_vram : Z
}.

Record PeerEndpoint := mkEndpoint {
  ep_ip : string;
  ep_port : Z;
  ep_free_ram : Z;
  ep_free_vram : Z
}.

(** The verifier of [ControlResponse] and its [peers] field. *)
Class ControlWire := {
  verify_peers : list byte -> option (option (list PeerInfo))
}.

Definition endpoint_of (p : PeerInfo) : option PeerEndpoint :=
  if pi_memory_port p =? 0 then None
  else
    match pi_address p with
    | Some a => Some (mkEndpoint a (pi_memory_port p) (pi_free_ram p) (pi_free_vram p))
    | None => None
    end.

(** [reply] is what [ipc->send_request] returned; [None]: it threw. *)
Definition query_discovery `{!ControlWire} (reply : option (list byte)) : list PeerEndpoint :=
  match reply with
  | None => []
  | Some b =>
      if zlen b <? 4 then []
      else
        match verify_peers b with
        | Some (Some ps) => omap endpoint_of ps
        | _ => []
        end
  end.

Definition same_endpoint (addr : string) (prt : Z) (p : NetPeer) : Prop := ip (np_peer p) = addr /\ port (np_peer p) = prt.

#[export] Instance same_endpoint_dec addr prt p : Decision (same_endpoint addr prt p).
Proof. unfold same_endpoint. apply _. Defined.

Definition ensure_peer (addr : string) (prt : Z) : M ClientNet (Z * bool) :=
  let! n := get in
  match list_find (same_endpoint addr prt) (net_peers n) with
  | Some (i, _) => ret (Z.of_nat i, false)
  | None =>
      do! put (set_peers (net_peers n ++ [mkNetPeer (mkPeer addr prt false 0 0 false) None [] 0]) n) in
      ret (zlen (net_peers n), true)
  end.

(** The body of the loop of [connect_to_peers]; the result is [queued]. *)
Definition discovered_peer (now : Z) (ep : PeerEndpoint) : M ClientNet bool :=
  let! r := ensure_peer (ep_ip ep) (ep_port ep) in
  let i := fst r in
  do! update_peer i (fun p =>
        let q := np_peer p in
        mkNetPeer (mkPeer (ip q) (port q) (connected q) (ep_free_ram ep) (ep_free_vram ep) true)
          (np_socket p) (np_buffer p) now) in
  let! p := get_peer i in
  if connected (np_peer p) then ret false
  else
    let! n := get in
    do! put (set_connects (net_connects n ++ [i]) n) in
    ret true.

Fixpoint connect_to_peers (now : Z) (discovered : list PeerEndpoint) : M ClientNet bool :=
  match discovered with
  | [] => ret false
  | ep :: discovered =>
      let! q := discovered_peer now ep in
      let! qs := connect_to_peers now discovered in
      ret (q || qs)
  end.

(** ** Connecting *)

(** How far one attempt gets: [uv_tcp_init], [uv_ip4_addr], [uv_tcp_connect]. *)
Inductive ConnectAttempt := InitFails | BadAddress | ConnectFails | ConnectStarts.

Definition new_socket (peer : Z) : M ClientNet Z :=
  let! n := get in
  let sk := net_next_socket n in
  do! put (mkNet (net_peers n) (net_connects n) (net_pending n) (net_resolved n) (net_outbound n) (net_written n)
             (<[sk := mkSock peer SkIdle]> (net_sockets n)) (sk + 1)) in
  ret sk.

Definition start_connect (attempt : ConnectAttempt) (peer : Z) : M ClientNet unit :=
  let! p := get_peer peer in
  match np_socket p, attempt with
  | Some _, _ => ret tt
  | None, InitFails => ret tt
  | None, BadAddress | None, ConnectFails =>
      let! sk := new_socket peer in
      do! update_peer peer (set_np_socket (Some sk)) in
      do! update_peer peer (set_np_socket None) in
      uv_close sk true
  | None, ConnectStarts =>
      let! sk := new_socket peer in
      do! update_peer peer (set_np_socket (Some sk)) in
      set_state sk SkConnecting
  end.

Fixpoint start_connects (attempt : Z -> ConnectAttempt) (batch : list Z) : M ClientNet unit :=
  match batch with
  | [] => ret tt
  | i :: batch => do! start_connect (attempt i) i in start_connects attempt batch
  end.

Definition drain_pending_connects (attempt : Z -> ConnectAttempt) : M ClientNet unit :=
  let! n := get in
  do! put (set_connects [] n) in
  start_connects attempt (net_connects n).

(** The connect callback; [req->data] is the peer. *)
Definition on_connect (peer : Z) (ok : bool) : M ClientNet unit :=
  if ok then
    do! update_peer peer (set_np_connected true) in
    let! p := get_peer peer in
    match np_socket p with
    | Some sk => set_state sk SkReading
    | None => undef
    end
  else
    let! p := get_peer peer in
    do! update_peer peer (set_np_socket None) in
    match np_socket p with
    | Some sk => let! c := uv_is_closing sk in if c then ret tt else uv_close sk true
    | None => ret tt
    end.

(** ** Calls and replies *)

(** [sync_remote_call] up to the wait. *)
Definition send_request (peer id : Z) (payload : list byte) : M ClientNet unit :=
  let! n := get in
  put (set_outbound (net_outbound n ++ [(peer, payload)])
         (set_requests ({[id]} ∪ net_pending n) (net_resolved n) n)).

(** The wait: [None] is still waiting (a time-out throws). *)
Definition call_result (id : Z) (n : ClientNet) : option (list byte) := net_resolved n !! id.

Definition send_one (peer : Z) (payload : list byte) : M ClientNet unit :=
  let! p := get_peer peer in
  if connected (np_peer p) then
    match np_socket p with
    | None => undef
    | Some sk =>
        let! c := uv_is_closing sk in
        if c then ret tt    (* uv_write fails, the buffer is dropped *)
        else let! n := get in put (set_written (net_written n ++ [(sk, payload)]) n)
    end
  else ret tt.

Fixpoint send_batch (batch : list (Z * list byte)) : M ClientNet unit :=
  match batch with
  | [] => ret tt
  | (i, payload) :: batch => do! send_one i payload in send_batch batch
  end.

(** The callback of [wakeup_async_]. *)
Definition on_wakeup : M ClientNet unit :=
  let! n := get in
  do! put (set_outbound [] n) in
  send_batch (net_outbound n).

Section client_read.
Context {W : MemoryWire}.

(** [promise.set_value] throws in a callback when it was called before. *)
Definition fulfil (id : Z) (v : list byte) : M ClientNet unit :=
  let! n := get in
  if decide (is_Some (net_resolved n !! id)) then undef
  else put (set_requests (net_pending n) (<[id := v]> (net_resolved n)) n).

Definition answer (id : Z) (frame : list byte) : M ClientNet unit :=
  let! n := get in
  if decide (id ∈ net_pending n) then
    do! put (set_requests (net_pending n ∖ {[id]}) (net_resolved n) n) in
    fulfil id frame
  else ret tt.

Fixpoint fulfil_all (ids : list Z) : M ClientNet unit :=
  match ids with
  | [] => ret tt
  | id :: ids => do! fulfil id [] in fulfil_all ids
  end.

Definition fail_pending_requests : M ClientNet unit :=
  let! n := get in
  do! put (set_requests ∅ (net_resolved n) n) in
  fulfil_all (elements (net_pending n)).

(** The loop of [on_peer_read] over the buffer of a peer. *)
Fixpoint read_frames (fuel : nat) (peer sk : Z) : M ClientNet unit :=
  let! p := get_peer peer in
  let buf := np_buffer p in
  if 4 <=? zlen buf then
    match fuel with
    | O => nofuel
    | S fuel =>
        let msg_size := prefixed_size buf in
        if MAX_MESSAGE_SIZE <? msg_size then uv_close sk false
        else if msg_size <=? zlen buf - 4 then
          match verify_response (slice 0 (msg_size + 4) buf) with
          | None => uv_close sk false
          | Some resp =>
              do! answer (resp_request_id resp) (slice 0 (msg_size + 4) buf) in
              do! update_peer peer (set_np_buffer (drop (Z.to_nat (msg_size + 4)) buf)) in
              read_frames fuel peer sk
          end
        else ret tt
    end
  else ret tt.

(** [ReadError]: nread < 0. *)
Inductive peer_read :=
| PeerBytes (data : list byte)
| PeerError.

Definition on_peer_read (peer sk : Z) (r : peer_read) : M ClientNet unit :=
  match r with
  | PeerBytes data =>
      if 0 <? zlen data then
        do! update_peer peer (fun p => set_np_buffer (np_buffer p ++ data) p) in
        let! p := get_peer peer in
        read_frames (length (np_buffer p)) peer sk
      else ret tt
  | PeerError =>
      do! update_peer peer (set_np_connected false) in
      do! fail_pending_requests in
      let! c := uv_is_closing sk in
      if c then ret tt
      else
        do! update_peer peer (set_np_socket None) in
        uv_close sk true
  end.

(** The close callback of a handle. *)
Definition on_closed (sk : Z) : M ClientNet unit :=
  let! n := get in
  match net_sockets n !! sk with
  | Some (mkSock _ (SkClosing true)) => put (set_sockets (delete sk (net_sockets n)) n)
  | Some (mkSock _ (SkClosing false)) => set_state sk SkClosed
  | _ => undef
  end.
End client_read.

(** [select_best_peer] after its refresh, on the peers of [peers_]. *)
Fixpoint scan_best (i size_needed : Z) (l : list NetPeer) (best : option Z) (best_free : Z) (unknown : option Z) :
    option Z :=
  match l with
  | [] => match best with Some b => Some b | None => unknown end
  | p :: l =>
      let q := np_peer p in
      if negb (connected q) then scan_best (i + 1) size_needed l best best_free unknown
      else if negb (capacity_known q) then
        scan_best (i + 1) size_needed l best best_free (match unknown with Some u => Some u | None => Some i end)
      else if (size_needed <=? free_ram_bytes q) && (best_free <? free_ram_bytes q) then
        scan_best (i + 1) size_needed l (Some i) (free_ram_bytes q) unknown
      else scan_best (i + 1) size_needed l best best_free unknown
  end.

Definition select_best_peer (size_needed : Z) (n : ClientNet) : option Z :=
  scan_best 0 size_needed (net_peers n) None 0 None.

(** ** What libuv and the threads deliver *)

Section events.
Context {W : MemoryWire} {CW : ControlWire}.

Inductive net_event :=
| EvCall (peer id : Z) (payload : list byte)
| EvWakeup
| EvDiscover (now : Z) (reply : option (list byte))
| EvDrain (attempt : Z -> ConnectAttempt)
| EvConnect (peer sk : Z) (ok : bool)
| EvRead (peer sk : Z) (r : peer_read)
| EvClosed (sk : Z).

Definition net_exec (ev : net_event) : M ClientNet unit :=
  match ev with
  | EvCall i id payload => send_request i id payload
  | EvWakeup => on_wakeup
  | EvDiscover now reply => do! connect_to_peers now (query_discovery reply) in ret tt
  | EvDrain attempt => drain_pending_connects attempt
  | EvConnect i _ ok => on_connect i ok
  | EvRead i sk r => on_peer_read i sk r
  | EvClosed sk => on_closed sk
  end.

(** A request id is used once; a handle gets the callbacks of its state. *)
Definition enabled (ev : net_event) (n : ClientNet) : Prop :=
  match ev with
  | EvCall i id _ => is_Some (znth (net_peers n) i) /\ net_resolved n !! id = None
  | EvConnect i sk _ => net_sockets n !! sk = Some (mkSock i SkConnecting)
  | EvRead i sk _ => net_sockets n !! sk = Some (mkSock i SkReading)
  | EvClosed sk => exists i d, net_sockets n !! sk = Some (mkSock i (SkClosing d))
  | _ => True
  end.

(** ** Invariant *)

(** The states a peer's own socket can be in. *)
Definition link_ok (c : bool) (st : SockState) : Prop :=
  match st with
  | SkConnecting => c = false
  | SkReading | SkClosing false | SkClosed => c = true
  | _ => False
  end.

Definition linked (st : SockState) : Prop :=
  match st with
  | SkConnecting | SkReading | SkClosing false | SkClosed => True
  | _ => False
  end.

Definition peer_link (socks : gmap Z Sock) (i : Z) (p : NetPeer) : Prop :=
  match np_socket p with
  | None => connected (np_peer p) = false
  | Some sk => exists st, socks !! sk = Some (mkSock i st) /\ link_ok (connected (np_peer p)) st
  end.

Definition endpoint (p : NetPeer) : string * Z := (ip (np_peer p), port (np_peer p)).

(** Peers and sockets point at each other. *)
Record topo_wf (peers : list NetPeer) (socks : gmap Z Sock) (next : Z) : Prop := {
  tw_peers : forall i p, znth peers i = Some p -> peer_link socks i p;
  tw_socks : forall sk i st, socks !! sk = Some (mkSock i st) -> linked st ->
    exists p, znth peers i = Some p /\ np_socket p = Some sk;
  tw_fresh : forall sk s, socks !! sk = Some s -> sk < next;
  tw_keys : NoDup (endpoint <$> peers)
}.

Record net_wf (n : ClientNet) : Prop := {
  nw_topo : topo_wf (net_peers n) (net_sockets n) (net_next_socket n);
  nw_reqs : forall id, id ∈ net_pending n -> net_resolved n !! id = None;
  nw_connects : forall i, i ∈ net_connects n -> is_Some (znth (net_peers n) i);
  nw_outbound : forall i b, (i, b) ∈ net_outbound n -> is_Some (znth (net_peers n) i)
}.

Lemma znth_alter {A} (f : A -> A) (l : list A) i j :
  0 <= i -> znth (alter f (Z.to_nat i) l) j = if decide (j = i) then f <$> znth l j else znth l j.
Proof.
  intros Hi. unfold znth. destruct (Z.ltb_spec j 0); [by case_decide|]. case_decide as Hj.
  - subst. by rewrite list_lookup_alter_eq.
  - apply list_lookup_alter_ne. lia.
Qed.

Lemma endpoint_alter f (l : list NetPeer) k :
  (forall p, endpoint (f p) = endpoint p) -> endpoint <$> alter f k l = endpoint <$> l.
Proof.
  intros Hf. apply list_eq. intros j. rewrite !list_lookup_fmap. destruct (decide (k = j)) as [->|Hk].
  - rewrite list_lookup_alter_eq. destruct (l !! j); cbn; [by rewrite Hf|done].
  - by rewrite list_lookup_alter_ne.
Qed.

(** A change of one peer that keeps its socket, its state and its address. *)
Lemma topo_peer peers socks next i f :
  topo_wf peers socks next -> 0 <= i ->
  (forall p, np_socket (f p) = np_socket p /\ connected (np_peer (f p)) = connected (np_peer p) /\ endpoint (f p) = endpoint p) ->
  topo_wf (alter f (Z.to_nat i) peers) socks next.
Proof.
  intros [Hp Hs Hf Hk] Hi Hsame. split; [| |done|].
  - intros j p. rewrite znth_alter by done. case_decide; [|by apply Hp].
    destruct (znth peers j) as [q|] eqn:E; [|done]. intros [= <-].
    destruct (Hsame q) as (H1 & H2 & _). specialize (Hp _ _ E). unfold peer_link in *. by rewrite H1, H2.
  - intros sk j st Hsk Hl. destruct (Hs _ _ _ Hsk Hl) as (p & Hj & Hps).
    rewrite znth_alter by done. rewrite Hj. case_decide; [|by exists p]. exists (f p). split; [done|].
    by rewrite (proj1 (Hsame p)).
  - rewrite endpoint_alter; [done|]. apply Hsame.
Qed.

(** A peer's socket changes its state, or is made, or is given up. *)
Lemma topo_socket peers socks next next' i p p' sk st f :
  topo_wf peers socks next -> znth peers i = Some p -> f p = p' -> (forall q, endpoint (f q) = endpoint q) ->
  (np_socket p = Some sk \/ np_socket p = None /\ socks !! sk = None) -> sk < next' -> next <= next' ->
  (np_socket p' = Some sk /\ link_ok (connected (np_peer p')) st \/
   np_socket p' = None /\ connected (np_peer p') = false /\ ~ linked st) ->
  topo_wf (alter f (Z.to_nat i) peers) (<[sk := mkSock i st]> socks) next'.
Proof.
  intros [Hp Hs Hf Hk] Hi Hfp Hkey Hold Hsk Hn Hnew. pose proof (znth_Some _ _ _ Hi) as [Hi0 _].
  assert (Hown : forall j q, znth peers j = Some q -> np_socket q = Some sk -> j = i).
  { intros j q Hj Hq. pose proof (Hp _ _ Hj) as Hlj. pose proof (Hp _ _ Hi) as Hli. unfold peer_link in *.
    rewrite Hq in Hlj. destruct Hlj as (s1 & H1 & _). destruct Hold as [Ho|[_ Ho]]; [|congruence].
    rewrite Ho in Hli. destruct Hli as (s2 & H2 & _). congruence. }
  split.
  - intros j q. rewrite znth_alter by done. unfold peer_link. case_decide as Hj.
    + subst j. rewrite Hi. intros [= <-]. rewrite Hfp. destruct Hnew as [[-> Hl]|(-> & Hc & _)]; [|done].
      exists st. by rewrite lookup_insert_eq.
    + intros Hq. pose proof (Hp _ _ Hq) as Hl. unfold peer_link in Hl.
      destruct (np_socket q) as [sk'|] eqn:Eq; [|done]. destruct (decide (sk' = sk)) as [->|Hne].
      * by destruct (Hown _ _ Hq Eq).
      * by rewrite lookup_insert_ne.
  - intros sk' j st' [[<- [= <- <-]]|[Hne Hsk']]%lookup_insert_Some Hl.
    + exists p'. rewrite znth_alter, Hi, decide_True by done. cbn. rewrite Hfp. split; [done|].
      destruct Hnew as [[? _]|(_ & _ & ?)]; done.
    + destruct (Hs _ _ _ Hsk' Hl) as (q & Hj & Hq). rewrite znth_alter by done. case_decide as Hji; [|by exists q].
      subst j. rewrite Hi in Hj. injection Hj as <-. rewrite Hi. cbn. rewrite Hfp.
      destruct Hold as [Ho|[Ho _]]; congruence.
  - intros sk' s [[<- _]|[_ Hs']]%lookup_insert_Some; [done|]. specialize (Hf _ _ Hs'). lia.
  - by rewrite endpoint_alter.
Qed.

Lemma alter_same {A} (l : list A) k : alter (fun x => x) k l = l.
Proof. apply list_eq. intros j. destruct (decide (k = j)) as [->|]; [rewrite list_lookup_alter_eq; by destruct (l !! j)|by rewrite list_lookup_alter_ne]. Qed.

(** ** Every callback keeps the invariant *)

(** Pointers into [peers_] stay good, and keep naming the same endpoint. *)
Definition peers_kept (n n' : ClientNet) : Prop :=
  forall i p, znth (net_peers n) i = Some p -> exists p', znth (net_peers n') i = Some p' /\ endpoint p' = endpoint p.

(** A handle closed with a null callback stays closed. *)
Definition stuck (st : SockState) : Prop :=
  match st with SkClosing false | SkClosed => True | _ => False end.

Definition stuck_kept (n n' : ClientNet) : Prop :=
  forall sk i st, net_sockets n !! sk = Some (mkSock i st) -> stuck st ->
    exists st', net_sockets n' !! sk = Some (mkSock i st') /\ stuck st'.

Record net_moves (n n' : ClientNet) : Prop := {
  nm_wf : net_wf n';
  nm_kept : peers_kept n n';
  nm_stuck : stuck_kept n n'
}.

#[local] Instance peers_kept_preorder : PreOrder peers_kept.
Proof.
  split; [intros n i p Hi; eauto|]. intros n1 n2 n3 H12 H23 i p Hi.
  destruct (H12 _ _ Hi) as (p2 & Hi2 & He2). destruct (H23 _ _ Hi2) as (p3 & Hi3 & He3). exists p3. split; [done|congruence].
Qed.

#[local] Instance stuck_kept_preorder : PreOrder stuck_kept.
Proof.
  split; [intros n sk i st Hs Hst; eauto|]. intros n1 n2 n3 H12 H23 sk i st Hs Hst.
  destruct (H12 _ _ _ Hs Hst) as (st2 & Hs2 & Hst2). by eapply H23.
Qed.

Lemma stuck_kept_same n n' : net_sockets n' = net_sockets n -> stuck_kept n n'.
Proof. intros H sk i st Hs Hst. rewrite H. eauto. Qed.

Lemma stuck_kept_insert n n' sk s :
  net_sockets n' = <[sk := s]> (net_sockets n) ->
  (forall i st, net_sockets n !! sk = Some (mkSock i st) -> ~ stuck st \/ sk_peer s = i /\ stuck (sk_state s)) ->
  stuck_kept n n'.
Proof.
  intros Hn Hsk sk' i st Hs Hst. rewrite Hn, lookup_insert. case_decide as Heq; [subst sk'|eauto].
  destruct (Hsk _ _ Hs) as [?|[<- ?]]; [done|]. exists (sk_state s). by destruct s.
Qed.

Lemma net_moves_refl n : net_wf n -> net_moves n n.
Proof. by split. Qed.

Lemma net_moves_trans n1 n2 n3 : net_moves n1 n2 -> net_moves n2 n3 -> net_moves n1 n3.
Proof. intros [] []. split; [done|by etransitivity..]. Qed.

Lemma kept_some n n' i : peers_kept n n' -> is_Some (znth (net_peers n) i) -> is_Some (znth (net_peers n') i).
Proof. intros Hk [p Hi]. destruct (Hk _ _ Hi) as (p' & Hi' & _). by exists p'. Qed.

Lemma kept_alter n n' f i :
  0 <= i -> (forall p, endpoint (f p) = endpoint p) -> net_peers n' = alter f (Z.to_nat i) (net_peers n) -> peers_kept n n'.
Proof.
  intros Hi Hf Hp j p Hj. rewrite Hp, znth_alter, Hj by done. case_decide; cbn; eauto.
Qed.

(** A move that leaves the queues and the requests alone. *)
Lemma moves_topo n n' :
  net_wf n -> topo_wf (net_peers n') (net_sockets n') (net_next_socket n') -> peers_kept n n' -> stuck_kept n n' ->
  net_connects n' = net_connects n -> net_pending n' = net_pending n -> net_resolved n' = net_resolved n ->
  net_outbound n' = net_outbound n -> net_moves n n'.
Proof.
  intros Hwf Ht Hk Hst Hc Hp Hr Ho. split; [|done..]. split; [done|..].
  - rewrite Hp, Hr. apply (nw_reqs _ Hwf).
  - rewrite Hc. intros i Hi. eapply kept_some; [done|]. by apply (nw_connects _ Hwf).
  - rewrite Ho. intros i b Hi. eapply kept_some; [done|]. by eapply (nw_outbound _ Hwf).
Qed.

(** A move that leaves peers and sockets alone. *)
Lemma moves_queues n n' :
  net_wf n -> net_peers n' = net_peers n -> net_sockets n' = net_sockets n -> net_next_socket n' = net_next_socket n ->
  (forall id, id ∈ net_pending n' -> net_resolved n' !! id = None) ->
  (forall i, i ∈ net_connects n' -> is_Some (znth (net_peers n) i)) ->
  (forall i b, (i, b) ∈ net_outbound n' -> is_Some (znth (net_peers n) i)) -> net_moves n n'.
Proof.
  intros Hwf Hp Hs Hn Hq Hc Ho. split; [|by intros i p Hi; rewrite Hp; eauto|by apply stuck_kept_same].
  split; rewrite ?Hp, ?Hs, ?Hn; try done. apply Hwf.
Qed.

Lemma get_peer_wp n i p Q E : znth (net_peers n) i = Some p -> Q p n -> wp (get_peer i) Q E n.
Proof. intros Hi HQ. unfold wp, get_peer. rewrite bind_get. by rewrite Hi. Qed.

Lemma update_peer_wp n i f (Q : unit -> ClientNet -> Prop) E :
  Q tt (set_peers (alter f (Z.to_nat i) (net_peers n)) n) -> wp (update_peer i f) Q E n.
Proof. done. Qed.

Lemma uv_is_closing_wp n sk i st (Q : bool -> ClientNet -> Prop) E :
  net_sockets n !! sk = Some (mkSock i st) -> Q (is_closing st) n -> wp (uv_is_closing sk) Q E n.
Proof. intros Hs HQ. unfold wp, uv_is_closing. rewrite bind_get. by rewrite Hs. Qed.

Lemma set_state_wp n sk i st st' (Q : unit -> ClientNet -> Prop) E :
  net_sockets n !! sk = Some (mkSock i st) -> Q tt (set_sockets (<[sk := mkSock i st']> (net_sockets n)) n) ->
  wp (set_state sk st') Q E n.
Proof. intros Hs HQ. unfold wp, set_state. rewrite bind_get. by rewrite Hs. Qed.

Lemma uv_close_wp n sk i st d (Q : unit -> ClientNet -> Prop) E :
  net_sockets n !! sk = Some (mkSock i st) -> is_closing st = false ->
  Q tt (set_sockets (<[sk := mkSock i (SkClosing d)]> (net_sockets n)) n) -> wp (uv_close sk d) Q E n.
Proof.
  intros Hs Hc HQ. apply wp_bind. eapply uv_is_closing_wp; [done|]. rewrite Hc. by eapply set_state_wp.
Qed.

Lemma start_connect_wp n i a :
  net_wf n -> is_Some (znth (net_peers n) i) -> wp (start_connect a i) (fun _ n' => net_moves n n') (fun _ _ => False) n.
Proof.
  intros Hwf [p Hi]. pose proof (znth_Some _ _ _ Hi) as [Hi0 _]. apply wp_bind. eapply get_peer_wp; [done|].
  destruct (np_socket p) as [sk|] eqn:Es; [by apply net_moves_refl|].
  pose proof (nw_topo _ Hwf) as Ht. set (sk := net_next_socket n).
  assert (Hfresh : net_sockets n !! sk = None).
  { destruct (net_sockets n !! sk) eqn:E; [|done]. pose proof (tw_fresh _ _ _ Ht _ _ E). unfold sk in *. lia. }
  assert (Hcl : connected (np_peer p) = false).
  { pose proof (tw_peers _ _ _ Ht _ _ Hi) as Hl. unfold peer_link in Hl. by rewrite Es in Hl. }
  assert (Hfail : wp (let! sk := new_socket i in do! update_peer i (set_np_socket (Some sk)) in
      do! update_peer i (set_np_socket None) in uv_close sk true) (fun _ n' => net_moves n n') (fun _ _ => False) n).
  { apply wp_bind. unfold wp at 1, new_socket. cbn. fold sk.
    do 2 (apply wp_bind, update_peer_wp). cbn.
    eapply uv_close_wp; [cbn; by rewrite lookup_insert_eq|done|]. cbn. rewrite insert_insert_eq.
    rewrite list_alter_alter_eq. apply moves_topo; cbn; try done.
    - eapply (topo_socket _ _ (net_next_socket n) _ i p _ sk); [done|done|done|done|by right|unfold sk; lia|lia|].
      right. split_and!; [done|done|by intros []].
    - by eapply kept_alter; [done| |reflexivity].
    - eapply stuck_kept_insert; [reflexivity|]. intros j st. unfold sk in *. by rewrite Hfresh. }
  destruct a; [by apply net_moves_refl|exact Hfail..|].
  apply wp_bind. unfold wp at 1, new_socket. cbn. fold sk. apply wp_bind, update_peer_wp. cbn.
  eapply set_state_wp; [cbn; by rewrite lookup_insert_eq|]. cbn. rewrite insert_insert_eq.
  apply moves_topo; cbn; try done.
  - eapply (topo_socket _ _ (net_next_socket n) _ i p _ sk); [done|done|done|done|by right|unfold sk; lia|lia|].
    by left.
  - by eapply kept_alter; [done| |reflexivity].
  - eapply stuck_kept_insert; [reflexivity|]. intros j st. unfold sk in *. by rewrite Hfresh.
Qed.

Lemma start_connects_wp a batch : forall n,
  net_wf n -> (forall i, i ∈ batch -> is_Some (znth (net_peers n) i)) ->
  wp (start_connects a batch) (fun _ n' => net_moves n n') (fun _ _ => False) n.
Proof.
  induction batch as [|i batch IH]; intros n Hwf Hb; cbn [start_connects]; [by apply net_moves_refl|].
  apply wp_bind. eapply wp_mono; [apply start_connect_wp; [done|apply Hb; left]| |done]. cbn. intros _ n1 Hm.
  eapply wp_mono; [apply IH; [apply Hm|]| |done].
  - intros j Hj. eapply kept_some; [apply Hm|]. apply Hb. by right.
  - cbn. intros _ n2 Hm2. by eapply net_moves_trans.
Qed.

Lemma drain_wp a n : net_wf n -> wp (drain_pending_connects a) (fun _ n' => net_moves n n') (fun _ _ => False) n.
Proof.
  intros Hwf. apply wp_bind, wp_get, wp_bind. unfold wp at 1. cbn [put].
  assert (Hm : net_moves n (set_connects [] n)).
  { apply moves_queues; cbn; try done; try apply Hwf. by intros i ?%not_elem_of_nil. }
  eapply wp_mono; [apply start_connects_wp; [apply Hm|apply (nw_connects _ Hwf)]| |done].
  cbn. intros _ n2 Hm2. by eapply net_moves_trans.
Qed.

(** The peer a live socket belongs to. *)
Lemma live_peer n sk i st :
  net_wf n -> net_sockets n !! sk = Some (mkSock i st) -> linked st ->
  exists p, znth (net_peers n) i = Some p /\ np_socket p = Some sk /\ link_ok (connected (np_peer p)) st.
Proof.
  intros Hwf Hs Hl. pose proof (nw_topo _ Hwf) as Ht.
  destruct (tw_socks _ _ _ Ht _ _ _ Hs Hl) as (p & Hi & Hp). exists p. split_and!; try done.
  pose proof (tw_peers _ _ _ Ht _ _ Hi) as Hpl. unfold peer_link in Hpl. rewrite Hp in Hpl.
  destruct Hpl as (st' & Hs' & Hok). rewrite Hs in Hs'. by injection Hs' as <-.
Qed.

(** A peer and its socket change together. *)
Lemma moves_socket n n' i p sk st st' f :
  net_wf n -> net_sockets n !! sk = Some (mkSock i st) -> znth (net_peers n) i = Some p -> np_socket p = Some sk ->
  (forall q, endpoint (f q) = endpoint q) ->
  n' = set_sockets (<[sk := mkSock i st']> (net_sockets n)) (set_peers (alter f (Z.to_nat i) (net_peers n)) n) ->
  (np_socket (f p) = Some sk /\ link_ok (connected (np_peer (f p))) st' \/
   np_socket (f p) = None /\ connected (np_peer (f p)) = false /\ ~ linked st') ->
  ~ stuck st \/ stuck st' -> net_moves n n'.
Proof.
  intros Hwf Hs Hi Hp Hf -> Hnew Hst. pose proof (znth_Some _ _ _ Hi) as [Hi0 _].
  pose proof (nw_topo _ Hwf) as Ht. apply moves_topo; cbn; try done.
  - eapply (topo_socket _ _ (net_next_socket n) _ i p _ sk); [done|done|done|done|by left| |lia|done].
    eapply (tw_fresh _ _ _ Ht). done.
  - by eapply kept_alter; [done| |reflexivity].
  - eapply stuck_kept_insert; [reflexivity|]. intros j st2. rewrite Hs. intros [= <- <-]. cbn. tauto.
Qed.

Lemma on_connect_wp n i sk ok :
  net_wf n -> net_sockets n !! sk = Some (mkSock i SkConnecting) ->
  wp (on_connect i ok) (fun _ n' => net_moves n n') (fun _ _ => False) n.
Proof.
  intros Hwf Hs. destruct (live_peer _ _ _ _ Hwf Hs I) as (p & Hi & Hp & Hc). cbn in Hc.
  pose proof (znth_Some _ _ _ Hi) as [Hi0 _]. unfold on_connect. destruct ok.
  - apply wp_bind, update_peer_wp, wp_bind. eapply get_peer_wp.
    { cbn. by rewrite znth_alter, Hi, decide_True. }
    cbn [set_np_connected np_socket]. rewrite Hp. eapply set_state_wp; [done|].
    apply (moves_socket n _ i p sk SkConnecting SkReading (set_np_connected true)); try done; by left; try intros [].
  - apply wp_bind. eapply get_peer_wp; [done|]. apply wp_bind, update_peer_wp. rewrite Hp.
    apply wp_bind. eapply uv_is_closing_wp; [done|]. cbn [is_closing]. eapply uv_close_wp; [done|done|].
    apply (moves_socket n _ i p sk SkConnecting (SkClosing true) (set_np_socket None)); try done; [|by left; intros []].
    right. split_and!; [done|done|by intros []].
Qed.

Lemma send_request_moves n i id b :
  net_wf n -> is_Some (znth (net_peers n) i) -> net_resolved n !! id = None ->
  wp (send_request i id b) (fun _ n' => net_moves n n') (fun _ _ => False) n.
Proof.
  intros Hwf Hi Hid. unfold send_request, wp. rewrite bind_get. cbn. apply moves_queues; cbn; try done; try apply Hwf.
  - intros k [->%elem_of_singleton|Hk]%elem_of_union; [done|]. by apply (nw_reqs _ Hwf).
  - intros j c [Hj|[= -> ->]%list_elem_of_singleton]%elem_of_app; [by eapply (nw_outbound _ Hwf)|done].
Qed.

Lemma send_one_wp n i b :
  net_wf n -> is_Some (znth (net_peers n) i) -> wp (send_one i b) (fun _ n' => net_moves n n') (fun _ _ => False) n.
Proof.
  intros Hwf [p Hi]. apply wp_bind. eapply get_peer_wp; [done|].
  destruct (connected (np_peer p)) eqn:Ec; [|by apply net_moves_refl].
  pose proof (tw_peers _ _ _ (nw_topo _ Hwf) _ _ Hi) as Hl. unfold peer_link in Hl.
  destruct (np_socket p) as [sk|]; [|congruence]. destruct Hl as (st & Hs & _).
  apply wp_bind. eapply uv_is_closing_wp; [done|]. destruct (is_closing st); [by apply net_moves_refl|].
  unfold wp. rewrite bind_get. cbn. apply moves_queues; cbn; try done; apply Hwf.
Qed.

Lemma send_batch_wp batch : forall n,
  net_wf n -> (forall i b, (i, b) ∈ batch -> is_Some (znth (net_peers n) i)) ->
  wp (send_batch batch) (fun _ n' => net_moves n n') (fun _ _ => False) n.
Proof.
  induction batch as [|[i b] batch IH]; intros n Hwf Hb; cbn [send_batch]; [by apply net_moves_refl|].
  apply wp_bind. eapply wp_mono; [apply send_one_wp; [done|eapply Hb; left]| |done]. cbn. intros _ n1 Hm.
  eapply wp_mono; [apply IH; [apply Hm|]| |done].
  - intros j c Hj. eapply kept_some; [apply Hm|]. eapply Hb. by right.
  - cbn. intros _ n2 Hm2. by eapply net_moves_trans.
Qed.

Lemma on_wakeup_wp n : net_wf n -> wp on_wakeup (fun _ n' => net_moves n n') (fun _ _ => False) n.
Proof.
  intros Hwf. apply wp_bind, wp_get, wp_bind. unfold wp at 1. cbn [put].
  assert (Hm : net_moves n (set_outbound [] n)).
  { apply moves_queues; cbn; try done; try apply Hwf. by intros i b ?%not_elem_of_nil. }
  eapply wp_mono; [apply send_batch_wp; [apply Hm|apply (nw_outbound _ Hwf)]| |done].
  cbn. intros _ n2 Hm2. by eapply net_moves_trans.
Qed.

(** Fields of one peer that no socket depends on. *)
Lemma moves_peer n i f :
  net_wf n -> 0 <= i ->
  (forall p, np_socket (f p) = np_socket p /\ connected (np_peer (f p)) = connected (np_peer p) /\ endpoint (f p) = endpoint p) ->
  net_moves n (set_peers (alter f (Z.to_nat i) (net_peers n)) n).
Proof.
  intros Hwf Hi Hf. apply moves_topo; cbn; try done.
  - apply topo_peer; [apply Hwf|done..].
  - eapply kept_alter; [done| |reflexivity]. apply Hf.
  - by apply stuck_kept_same.
Qed.

Lemma znth_app_last {A} (l : list A) x i : znth (l ++ [x]) i = if decide (i = zlen l) then Some x else znth l i.
Proof.
  unfold znth, zlen. destruct (Z.ltb_spec i 0); [by rewrite decide_False by lia|]. case_decide.
  - subst. rewrite Nat2Z.id. rewrite lookup_app_r by lia. by rewrite Nat.sub_diag.
  - destruct (decide (Z.to_nat i < length l)%nat); [by rewrite lookup_app_l|].
    rewrite !lookup_ge_None_2; [done|lia|rewrite length_app; cbn; lia].
Qed.

(** A peer is found when its endpoint is known and made otherwise. *)
Lemma ensure_peer_wp n addr prt :
  net_wf n ->
  wp (ensure_peer addr prt)
    (fun r n' => net_moves n n' /\ exists p, znth (net_peers n') (fst r) = Some p /\ endpoint p = (addr, prt) /\
       (snd r = false -> n' = n) /\ (snd r = true -> (addr, prt) ∉ endpoint <$> net_peers n))
    (fun _ _ => False) n.
Proof.
  intros Hwf. unfold wp, ensure_peer. rewrite bind_get.
  destruct (list_find (same_endpoint addr prt) (net_peers n)) as [[i p]|] eqn:E.
  - apply list_find_Some in E as (Hi & [Ha Hp] & _). split; [by apply net_moves_refl|]. exists p. cbn.
    rewrite znth_lookup, Nat2Z.id by lia. split_and!; try done. unfold endpoint. by rewrite Ha, Hp.
  - apply list_find_None in E. cbn. set (q := mkNetPeer _ _ _ _).
    assert (Hnew : (addr, prt) ∉ endpoint <$> net_peers n).
    { intros (p & Heq & Hin)%list_elem_of_fmap. rewrite Forall_forall in E. apply (E p Hin).
      unfold endpoint in Heq. injection Heq as -> ->. done. }
    split; [|exists q; cbn; rewrite znth_app_last, decide_True by done; by split_and!].
    pose proof (nw_topo _ Hwf) as [Hp Hs Hf Hk]. apply moves_topo; cbn; try done.
    + split; [| |done|].
      * intros i p. rewrite znth_app_last. case_decide; [intros [= <-]; done|apply Hp].
      * intros sk i st Hsk Hl. destruct (Hs _ _ _ Hsk Hl) as (p & Hi & Hps). exists p. split; [|done].
        rewrite znth_app_last. case_decide; [|done]. subst. apply znth_Some in Hi. lia.
      * rewrite fmap_app. apply NoDup_app. split_and!; [done| |apply NoDup_singleton].
        intros x Hx Hin. apply list_elem_of_singleton in Hin. subst. done.
    + intros i p Hi. exists p. split; [|done]. cbn. rewrite znth_app_last. case_decide; [|done].
      subst. apply znth_Some in Hi. lia.
    + by apply stuck_kept_same.
Qed.

Lemma discovered_peer_wp n now ep :
  net_wf n -> wp (discovered_peer now ep) (fun _ n' => net_moves n n') (fun _ _ => False) n.
Proof.
  intros Hwf. apply wp_bind. eapply wp_mono; [by apply ensure_peer_wp| |done]. cbn.
  intros [i b] n1 (Hm & p & Hi & _). cbn in *. pose proof (znth_Some _ _ _ Hi) as [Hi0 _].
  set (f := fun p : NetPeer => _). apply wp_bind, update_peer_wp, wp_bind.
  set (n2 := set_peers (alter f (Z.to_nat i) (net_peers n1)) n1).
  assert (Hm2 : net_moves n n2) by (eapply net_moves_trans; [done|]; apply moves_peer; [apply Hm|done|done]).
  assert (Hi2 : znth (net_peers n2) i = Some (f p)) by (cbn; by rewrite znth_alter, Hi, decide_True).
  eapply get_peer_wp; [exact Hi2|]. destruct (connected _); [done|].
  apply wp_bind, wp_get, wp_bind. unfold wp at 1. cbn [put]. unfold wp. cbn [ret].
  eapply net_moves_trans; [exact Hm2|]. pose proof (nm_wf _ _ Hm2) as Hwf2.
  apply moves_queues; try done; [apply (nw_reqs _ Hwf2)| |apply (nw_outbound _ Hwf2)].
  intros j [Hj| ->%list_elem_of_singleton]%elem_of_app; [by apply (nw_connects _ Hwf2)|]. by exists (f p).
Qed.

Lemma connect_to_peers_wp now eps : forall n,
  net_wf n -> wp (connect_to_peers now eps) (fun _ n' => net_moves n n') (fun _ _ => False) n.
Proof.
  induction eps as [|ep eps IH]; intros n Hwf; cbn [connect_to_peers]; [by apply net_moves_refl|].
  apply wp_bind. eapply wp_mono; [by apply discovered_peer_wp| |done]. cbn. intros q n1 Hm.
  apply wp_bind. eapply wp_mono; [apply IH; apply Hm| |done]. cbn. intros qs n2 Hm2. unfold wp. cbn.
  by eapply net_moves_trans.
Qed.

(** ** Matching replies to calls *)

(** A reply with its frame: a call pending under its id gets the frame. *)
Definition match_reply (m : list byte * MemoryResponse) (q : gset Z * gmap Z (list byte)) : gset Z * gmap Z (list byte) :=
  let id := resp_request_id (snd m) in
  if decide (id ∈ fst q) then (fst q ∖ {[id]}, <[id := fst m]> (snd q)) else q.

Definition match_replies (ms : list (list byte * MemoryResponse)) (q : gset Z * gmap Z (list byte)) :=
  foldl (fun q m => match_reply m q) q ms.

Definition requests (n : ClientNet) : gset Z * gmap Z (list byte) := (net_pending n, net_resolved n).

Definition with_requests (q : gset Z * gmap Z (list byte)) (n : ClientNet) : ClientNet := set_requests (fst q) (snd q) n.

Definition reqs_ok (q : gset Z * gmap Z (list byte)) : Prop := forall id, id ∈ fst q -> snd q !! id = None.

Lemma match_reply_ok m q : reqs_ok q -> reqs_ok (match_reply m q).
Proof.
  intros Hq id. unfold match_reply. case_decide as Hin; [|apply Hq]. cbn.
  intros [Hid Hne%not_elem_of_singleton]%elem_of_difference. rewrite lookup_insert_ne by done. by apply Hq.
Qed.

Lemma answer_run n frame resp :
  reqs_ok (requests n) ->
  answer (resp_request_id resp) frame n = (Ret tt, with_requests (match_reply (frame, resp) (requests n)) n).
Proof.
  intros Hq. unfold answer, match_reply. rewrite bind_get. cbn [fst snd requests].
  destruct (decide (resp_request_id resp ∈ net_pending n)) as [Hin|Hin]; cbn [fst snd].
  - rewrite bind_put. unfold fulfil. rewrite bind_get. cbn [net_resolved set_requests].
    pose proof (Hq _ Hin) as Hn. cbn in Hn. rewrite decide_False; [done|]. rewrite Hn. by intros [? ?].
  - by destruct n.
Qed.

Lemma fulfil_all_run ids : forall n,
  NoDup ids -> (forall id, id ∈ ids -> net_resolved n !! id = None) ->
  fulfil_all ids n = (Ret tt, set_requests (net_pending n) (foldr (fun id r => <[id := []]> r) (net_resolved n) (rev ids)) n).
Proof.
  induction ids as [|id ids IH]; intros n Hnd Hf; cbn [fulfil_all]; [by destruct n|].
  apply NoDup_cons in Hnd as [Hid Hnd]. unfold fulfil. unfold bind at 1. rewrite bind_get.
  rewrite decide_False by (rewrite Hf by left; by intros [? ?]). cbn [put].
  rewrite IH; [|done|].
  - cbn. by rewrite foldr_app.
  - intros k Hk. cbn. rewrite lookup_insert_ne by congruence. apply Hf. by right.
Qed.

Lemma fail_pending_run n :
  reqs_ok (requests n) ->
  exists r, fail_pending_requests n = (Ret tt, set_requests ∅ r n) /\
    forall id, r !! id = if decide (id ∈ net_pending n) then Some [] else net_resolved n !! id.
Proof.
  intros Hq. unfold fail_pending_requests. rewrite bind_get, bind_put. eexists. split.
  - rewrite fulfil_all_run; [done|apply NoDup_elements|]. intros id Hid%elem_of_elements. by apply Hq.
  - intros id. cbn. assert (Hr : forall ids, foldr (fun id r => <[id := []]> r) (net_resolved n) ids !! id =
      if decide (id ∈ ids) then Some [] else net_resolved n !! id).
    { induction ids as [|k ids IH]; cbn [foldr]; [by rewrite decide_False by apply not_elem_of_nil|].
      rewrite lookup_insert, IH. pose proof (elem_of_cons ids id k). repeat case_decide; naive_solver. }
    rewrite Hr.
    assert (Hrev : id ∈ rev (elements (net_pending n)) <-> id ∈ net_pending n).
    { rewrite <- elem_of_elements. rewrite !list_elem_of_In, <- in_rev. done. }
    repeat case_decide; tauto.
Qed.

(** [verify_response], keeping the frame. *)
Definition verify_frame (b : list byte) : option (list byte * MemoryResponse) := (fun r => (b, r)) <$> verify_response b.

Abbreviation with_buffer i b q n := (with_requests q (set_peers (alter (set_np_buffer b) (Z.to_nat i) (net_peers n)) n)).

Lemma with_buffer_same i n p : znth (net_peers n) i = Some p -> with_buffer i (np_buffer p) (requests n) n = n.
Proof.
  intros Hi. pose proof (znth_Some _ _ _ Hi) as [Hi0 _]. destruct n. unfold with_requests, set_requests, set_peers. cbn.
  f_equal. apply list_eq. intros j. cbn in Hi. rewrite znth_lookup in Hi by done.
  destruct (decide (Z.to_nat i = j)) as [<-|]; [|by rewrite list_lookup_alter_ne].
  rewrite list_lookup_alter_eq, Hi. cbn. by destruct p.
Qed.

Lemma read_frames_run b ms rest :
  deframe_with verify_frame b ms rest -> forall fuel n i sk p,
  (length b <= fuel)%nat -> reqs_ok (requests n) -> znth (net_peers n) i = Some p -> np_buffer p = b ->
  read_frames fuel i sk n = (Ret tt, with_buffer i rest (match_replies ms (requests n)) n).
Proof.
  induction 1 as [b Hstop|b m ms rest H4 Hmax Hfit Hv Hd IH]; intros fuel n i sk p Hfuel Hq Hi Hb.
  - cbn [match_replies foldl]. subst b. rewrite (with_buffer_same i n p Hi). unfold get_peer.
    destruct fuel as [|fuel]; cbn [read_frames]; unfold get_peer, bind at 1; rewrite bind_get, Hi; cbn [ret].
    + destruct (Z.leb_spec 4 (zlen (np_buffer p))); [unfold zlen in *; lia|done].
    + destruct (Z.leb_spec 4 (zlen (np_buffer p))); [|done]. destruct Hstop as [|[? ?]]; [lia|]. by zcase.
  - pose proof (znth_Some _ _ _ Hi) as [Hi0 _].
    destruct fuel as [|fuel]; [unfold zlen in *; lia|]. cbn [read_frames].
    unfold get_peer. unfold bind at 1. rewrite bind_get, Hi. cbn [ret]. rewrite Hb.
    destruct (Z.leb_spec 4 (zlen b)); [|lia]. destruct (Z.ltb_spec MAX_MESSAGE_SIZE (prefixed_size b)); [lia|].
    destruct (Z.leb_spec (prefixed_size b) (zlen b - 4)); [|lia].
    unfold verify_frame in Hv. destruct (verify_response _) as [resp|]; [|done]. injection Hv as <-.
    rewrite (bind_ret _ _ _ _ _ (answer_run _ _ _ Hq)).
    pose proof (match_reply_ok (slice 0 (prefixed_size b + 4) b, resp) _ Hq) as Hq1.
    cbn [match_replies foldl]. fold (match_replies ms).
    destruct (match_reply _ (requests n)) as [pe re]. set (b1 := drop _ b) in *.
    unfold bind, update_peer. rewrite bind_get. cbn [put].
    rewrite (IH fuel _ i sk (set_np_buffer b1 p)).
    + unfold with_requests, set_requests, set_peers, requests. cbn. rewrite list_alter_alter_eq. done.
    + unfold b1. rewrite length_drop. unfold zlen in *. pose proof (prefixed_size_nonneg b). lia.
    + exact Hq1.
    + cbn. by rewrite znth_alter, Hi, decide_True.
    + done.
Qed.

Lemma requests_ok n : net_wf n -> reqs_ok (requests n).
Proof. intros Hwf id. apply (nw_reqs _ Hwf). Qed.

Lemma moves_requests n q : net_wf n -> reqs_ok q -> net_moves n (with_requests q n).
Proof. intros Hwf Hq. apply moves_queues; try done; apply Hwf. Qed.

Lemma close_leaks_moves n i sk p :
  net_wf n -> net_sockets n !! sk = Some (mkSock i SkReading) -> znth (net_peers n) i = Some p -> np_socket p = Some sk ->
  connected (np_peer p) = true ->
  wp (uv_close sk false) (fun _ n' => net_moves n n') (fun _ _ => False) n.
Proof.
  intros Hwf Hs Hi Hp Hc. eapply uv_close_wp; [done|done|].
  apply (moves_socket n _ i p sk SkReading (SkClosing false) (fun q => q)); try done; [|by left|by right].
  rewrite alter_same. by destruct n.
Qed.

Lemma read_frames_wp fuel : forall n i sk p,
  net_wf n -> net_sockets n !! sk = Some (mkSock i SkReading) -> znth (net_peers n) i = Some p ->
  (length (np_buffer p) <= fuel)%nat ->
  wp (read_frames fuel i sk) (fun _ n' => net_moves n n') (fun _ _ => False) n.
Proof.
  induction fuel as [|fuel IH]; intros n i sk p Hwf Hs Hi Hfuel; cbn [read_frames];
    apply wp_bind; (eapply get_peer_wp; [done|]); destruct (Z.leb_spec 4 (zlen (np_buffer p)));
    try (by apply net_moves_refl).
  { unfold zlen in *. lia. }
  pose proof (znth_Some _ _ _ Hi) as [Hi0 _].
  destruct (live_peer _ _ _ _ Hwf Hs I) as (p' & Hi' & Hp & Hc). rewrite Hi in Hi'. injection Hi' as <-.
  destruct (Z.ltb_spec MAX_MESSAGE_SIZE (prefixed_size (np_buffer p))); [by eapply close_leaks_moves|].
  destruct (Z.leb_spec (prefixed_size (np_buffer p)) (zlen (np_buffer p) - 4)); [|by apply net_moves_refl].
  destruct (verify_response _) as [resp|]; [|by eapply close_leaks_moves].
  set (frame := slice _ _ _). pose proof (requests_ok _ Hwf) as Hq.
  apply wp_bind. eapply wp_run; [by apply answer_run|].
  pose proof (moves_requests n _ Hwf (match_reply_ok (frame, resp) _ Hq)) as Hm1.
  set (n1 := with_requests _ n) in *. apply wp_bind, update_peer_wp. set (f := set_np_buffer _).
  pose proof (moves_peer n1 i f (nm_wf _ _ Hm1) Hi0 ltac:(done)) as Hm2.
  eapply wp_mono; [apply (IH _ i sk (f p)); [apply Hm2|exact Hs| |]| |done].
  - cbn. by rewrite znth_alter, Hi, decide_True.
  - unfold f. cbn. rewrite length_drop. unfold zlen in *. pose proof (prefixed_size_nonneg (np_buffer p)). lia.
  - cbn. intros _ n3 Hm3. eapply net_moves_trans; [done|]. by eapply net_moves_trans.
Qed.

Lemma on_peer_read_wp n i sk r :
  net_wf n -> net_sockets n !! sk = Some (mkSock i SkReading) ->
  wp (on_peer_read i sk r) (fun _ n' => net_moves n n') (fun _ _ => False) n.
Proof.
  intros Hwf Hs. destruct (live_peer _ _ _ _ Hwf Hs I) as (p & Hi & Hp & Hc). pose proof (znth_Some _ _ _ Hi) as [Hi0 _].
  destruct r as [data|]; cbn [on_peer_read].
  - destruct (0 <? zlen data); [|by apply net_moves_refl]. apply wp_bind, update_peer_wp, wp_bind.
    set (f := fun p => set_np_buffer (np_buffer p ++ data) p).
    pose proof (moves_peer n i f Hwf Hi0 ltac:(done)) as Hm.
    assert (Hi1 : znth (alter f (Z.to_nat i) (net_peers n)) i = Some (f p)) by (by rewrite znth_alter, Hi, decide_True).
    eapply get_peer_wp; [exact Hi1|]. eapply wp_mono; [eapply read_frames_wp; [apply Hm|exact Hs|exact Hi1|done]| |done].
    cbn. intros _ n2 Hm2. by eapply net_moves_trans.
  - apply wp_bind, update_peer_wp. set (n1 := set_peers _ n).
    destruct (fail_pending_run n1 (requests_ok _ Hwf)) as (r & Hr & Hrs).
    apply wp_bind. eapply wp_run; [exact Hr|]. apply wp_bind. eapply uv_is_closing_wp; [exact Hs|]. cbn [is_closing].
    apply wp_bind, update_peer_wp. eapply uv_close_wp; [exact Hs|done|].
    assert (Hm : net_moves n (set_requests ∅ r n)).
    { by apply moves_queues; try done; apply Hwf. }
    eapply net_moves_trans; [exact Hm|].
    apply (moves_socket _ _ i p sk SkReading (SkClosing true) (set_np_socket None ∘ set_np_connected false)); try done.
    + apply Hm.
    + cbn. by rewrite list_alter_alter_eq.
    + right. split_and!; [done|done|by intros []].
    + left. by intros [].
Qed.

Lemma on_closed_wp n sk i d :
  net_wf n -> net_sockets n !! sk = Some (mkSock i (SkClosing d)) ->
  wp (on_closed sk) (fun _ n' => net_moves n n') (fun _ _ => False) n.
Proof.
  intros Hwf Hs. apply wp_bind, wp_get. rewrite Hs. pose proof (nw_topo _ Hwf) as [Hp Hk Hf Hkeys]. destruct d.
  - unfold wp. cbn. apply moves_topo; cbn; try done; [|by intros j p Hj; eauto|].
    2:{ intros sk' j st Hsk Hst. exists st. split; [|done]. cbn. rewrite lookup_delete_ne; [done|].
        intros ->. rewrite Hs in Hsk. by injection Hsk as _ <-. }
    split; try done.
    + intros j p Hj. specialize (Hp _ _ Hj). unfold peer_link in *. destruct (np_socket p) as [sk'|]; [|done].
      destruct Hp as (st & Hst & Hl). exists st. split; [|done]. rewrite lookup_delete_ne; [done|].
      intros ->. rewrite Hs in Hst. injection Hst as _ <-. done.
    + intros sk' j st [_ Hsk]%lookup_delete_Some. by apply Hk.
    + intros sk' s [_ Hsk]%lookup_delete_Some. by eapply Hf.
  - destruct (live_peer _ _ _ _ Hwf Hs I) as (p & Hi & Hps & Hc). eapply set_state_wp; [done|].
    apply (moves_socket n _ i p sk (SkClosing false) SkClosed (fun q => q)); try done; [|by left|by right].
    rewrite alter_same. by destruct n.
Qed.

Lemma net_exec_wp ev n :
  net_wf n -> enabled ev n -> wp (net_exec ev) (fun _ n' => net_moves n n') (fun _ _ => False) n.
Proof.
  intros Hwf He. destruct ev; cbn [net_exec enabled] in *.
  - destruct He. by apply send_request_moves.
  - by apply on_wakeup_wp.
  - apply wp_bind. eapply wp_mono; [by apply connect_to_peers_wp|done|done].
  - by apply drain_wp.
  - by eapply on_connect_wp.
  - by apply on_peer_read_wp.
  - destruct He as (i & d & Hs). by eapply on_closed_wp.
Qed.

Definition ClientNet_new : ClientNet := mkNet [] [] ∅ ∅ [] [] ∅ 0.

Lemma ClientNet_new_wf : net_wf ClientNet_new.
Proof.
  split; cbn; [split| | |].
  - intros i p. unfold znth. by destruct (i <? 0).
  - intros sk i st. by rewrite lookup_empty.
  - intros sk s. by rewrite lookup_empty.
  - constructor.
  - intros id. set_solver.
  - by intros i ?%not_elem_of_nil.
  - by intros i b ?%not_elem_of_nil.
Qed.

(** Runs of enabled events. *)
Inductive net_reach : ClientNet -> ClientNet -> Prop :=
| net_reach_refl n : net_reach n n
| net_reach_step n ev n1 n2 :
    enabled ev n -> net_exec ev n = (Ret tt, n1) -> net_reach n1 n2 -> net_reach n n2.

Lemma net_reach_moves n n' : net_reach n n' -> net_wf n -> net_moves n n'.
Proof.
  induction 1 as [n|n ev n1 n2 He Hr _ IH]; intros Hwf; [by apply net_moves_refl|].
  pose proof (wp_elim _ _ _ _ _ _ (net_exec_wp ev n Hwf He) Hr) as Hm. cbn in Hm.
  eapply net_moves_trans; [done|]. apply IH, Hm.
Qed.
(** ** Streams of replies *)

(** Chunks read from one socket. *)
Fixpoint read_chunks (i sk : Z) (chunks : list (list byte)) : M ClientNet unit :=
  match chunks with
  | [] => ret tt
  | c :: chunks => do! on_peer_read i sk (PeerBytes c) in read_chunks i sk chunks
  end.

(** The first reply with an id. *)
Definition first_reply (id : Z) (ms : list (list byte * MemoryResponse)) : option (list byte) :=
  fst <$> head (filter (fun m => resp_request_id (snd m) = id) ms).

Lemma match_replies_lookup id ms : forall q,
  snd (match_replies ms q) !! id =
    if decide (id ∈ fst q) then
      match first_reply id ms with Some f => Some f | None => snd q !! id end
    else snd q !! id.
Proof.
  induction ms as [|m ms IH]; intros q; cbn [match_replies foldl]; [by case_decide|].
  fold (match_replies ms (match_reply m q)). rewrite IH. unfold match_reply, first_reply. rewrite filter_cons.
  destruct (decide (resp_request_id (snd m) ∈ fst q)) as [Hin|Hin]; cbn [fst snd].
  - destruct (decide (resp_request_id (snd m) = id)) as [<-|Hne]; cbn.
    + rewrite lookup_insert_eq. rewrite decide_False by set_solver. by rewrite decide_True.
    + rewrite lookup_insert_ne by done. repeat case_decide; try done; exfalso; set_solver.
  - destruct (decide (resp_request_id (snd m) = id)) as [<-|Hne]; cbn; [by rewrite !decide_False by done|done].
Qed.

Lemma match_replies_ok ms : forall q, reqs_ok q -> reqs_ok (match_replies ms q).
Proof. induction ms as [|m ms IH]; intros q Hq; [done|]. by apply IH, match_reply_ok. Qed.

Lemma match_replies_app ms ms' q : match_replies (ms ++ ms') q = match_replies ms' (match_replies ms q).
Proof. apply foldl_app. Qed.

Lemma read_chunks_run i sk chunks : forall n p ms rest,
  reqs_ok (requests n) -> znth (net_peers n) i = Some p -> deframe_with verify_frame (np_buffer p) [] (np_buffer p) ->
  deframe_with verify_frame (np_buffer p ++ concat chunks) ms rest ->
  read_chunks i sk chunks n = (Ret tt, with_buffer i rest (match_replies ms (requests n)) n).
Proof.
  induction chunks as [|c chunks IH]; intros n p ms rest Hq Hi Hquiet Hd; pose proof (znth_Some _ _ _ Hi) as [Hi0 _].
  - cbn in Hd. rewrite app_nil_r in Hd. destruct (deframe_quiet _ _ _ _ Hquiet Hd) as [-> ->].
    cbn [read_chunks match_replies foldl]. by rewrite (with_buffer_same i n p Hi).
  - cbn [concat] in Hd. rewrite app_assoc in Hd.
    destruct (deframe_prefix _ _ _ _ Hd) as (m1 & mid & m2 & H1 & H2 & ->). cbn [read_chunks].
    assert (Hstep : on_peer_read i sk (PeerBytes c) n = (Ret tt, with_buffer i mid (match_replies m1 (requests n)) n)).
    { cbn [on_peer_read]. destruct (Z.ltb_spec 0 (zlen c)) as [Hc|Hc].
      - set (f := fun p => set_np_buffer (np_buffer p ++ c) p).
        assert (Hi1 : znth (alter f (Z.to_nat i) (net_peers n)) i = Some (f p)) by (by rewrite znth_alter, Hi, decide_True).
        unfold bind at 1, update_peer. rewrite bind_get. cbn [put].
        unfold bind at 1, get_peer. rewrite bind_get. cbn [net_peers set_peers]. rewrite Hi1. cbn [ret].
        rewrite (read_frames_run _ _ _ H1 _ _ i sk (f p)); [|done|done|exact Hi1|done].
        unfold with_requests, set_requests, set_peers, requests. cbn. by rewrite list_alter_alter_eq.
      - assert (c = []) as -> by (destruct c; [done|rewrite zlen_cons in Hc; pose proof (zlen_nonneg c); lia]).
        rewrite app_nil_r in H1. destruct (deframe_quiet _ _ _ _ Hquiet H1) as [-> ->].
        cbn [match_replies foldl]. by rewrite (with_buffer_same i n p Hi). }
    rewrite (bind_ret _ _ _ _ _ Hstep).
    rewrite (IH _ (set_np_buffer mid p) m2 rest).
    + rewrite match_replies_app. destruct (match_replies m1 (requests n)) as [pe re].
      unfold with_requests, set_requests, set_peers, requests. cbn. by rewrite list_alter_alter_eq.
    + destruct (match_replies m1 (requests n)) eqn:E. rewrite <- E. unfold with_requests, requests at 1. cbn.
      pose proof (match_replies_ok m1 _ Hq) as Hm. intros id Hid. by apply Hm.
    + cbn. by rewrite znth_alter, Hi, decide_True.
    + exact (deframe_rest _ _ _ H1).
    + exact H2.
Qed.

(** ** Properties *)

(** C12: Whatever the threads and libuv deliver, no callback of the client does
    anything undefined: no handle is closed twice or used after it is deleted,
    no promise is set twice, and each peer has one live socket at most.  Peer
    pointers stay valid, no endpoint gets two peers, and every callback returns. *)
Theorem net_safe n ev :
  net_reach ClientNet_new n -> enabled ev n ->
  exists n', net_exec ev n = (Ret tt, n') /\ net_wf n' /\ NoDup (endpoint <$> net_peers n') /\
    (forall i p, znth (net_peers n) i = Some p -> exists p', znth (net_peers n') i = Some p' /\ endpoint p' = endpoint p).
Proof.
  intros Hr He. pose proof (nm_wf _ _ (net_reach_moves _ _ Hr ClientNet_new_wf)) as Hwf.
  pose proof (net_exec_wp ev n Hwf He) as Hw. destruct (net_exec ev n) as [o n'] eqn:E.
  pose proof (wp_elim _ _ _ _ _ _ Hw E) as Hm. destruct o as [[]|e| |]; try done.
  destruct Hm as [Hwf' Hk Hs]. exists n'. split; [done|]. split; [done|]. split; [apply (nw_topo _ Hwf')|exact Hk].
Qed.

(** C15: However TCP cuts a peer's stream of replies, each pending call gets
    exactly the first reply with its id, whole, a reply nobody waits for is
    dropped, and what is left in the buffer is the partial frame at the end. *)
Theorem replies_matched i sk chunks n p ms rest :
  net_wf n -> znth (net_peers n) i = Some p -> deframe_with verify_frame (np_buffer p) [] (np_buffer p) ->
  deframe_with verify_frame (np_buffer p ++ concat chunks) ms rest ->
  exists n', read_chunks i sk chunks n = (Ret tt, n') /\
    (np_buffer <$> znth (net_peers n') i) = Some rest /\
    (forall id, call_result id n' =
       if decide (id ∈ net_pending n) then
         match first_reply id ms with Some f => Some f | None => call_result id n end
       else call_result id n) /\
    (forall j, j <> i -> znth (net_peers n') j = znth (net_peers n) j) /\ net_sockets n' = net_sockets n.
Proof.
  intros Hwf Hi Hquiet Hd. pose proof (znth_Some _ _ _ Hi) as [Hi0 _]. eexists.
  split; [eapply read_chunks_run; [by apply requests_ok|done..]|]. split_and!; cbn.
  - by rewrite znth_alter, Hi, decide_True.
  - intros id. apply (match_replies_lookup id ms (requests n)).
  - intros j Hj. rewrite znth_alter by done. by rewrite decide_False.
  - done.
Qed.

(** A reply that is too long or that the verifier rejects strands its
    peer: [on_peer_read] closes the socket but leaves it and [connected] set, so
    from then on, whatever happens, every message to the peer is dropped and no
    reconnection is ever attempted. *)
Theorem bad_reply_strands_peer n n' i sk p :
  net_wf n -> net_sockets n !! sk = Some (mkSock i SkReading) -> znth (net_peers n) i = Some p ->
  4 <= zlen (np_buffer p) ->
  (MAX_MESSAGE_SIZE < prefixed_size (np_buffer p) \/
   prefixed_size (np_buffer p) <= zlen (np_buffer p) - 4 /\
   verify_response (slice 0 (prefixed_size (np_buffer p) + 4) (np_buffer p)) = None) ->
  exists n1, read_frames (length (np_buffer p)) i sk n = (Ret tt, n1) /\
    (net_reach n1 n' ->
     exists p', znth (net_peers n') i = Some p' /\ connected (np_peer p') = true /\
       (forall b, send_one i b n' = (Ret tt, n')) /\ (forall a, start_connect a i n' = (Ret tt, n'))).
Proof.
  intros Hwf Hs Hi H4 Hbad. destruct (live_peer _ _ _ _ Hwf Hs I) as (p0 & Hi' & Hp & Hc).
  rewrite Hi in Hi'. injection Hi' as <-.
  set (n1 := set_sockets (<[sk := mkSock i (SkClosing false)]> (net_sockets n)) n). exists n1.
  assert (Hrun : read_frames (length (np_buffer p)) i sk n = (Ret tt, n1)).
  { destruct (length (np_buffer p)) as [|k] eqn:El; [unfold zlen in H4; lia|]. cbn [read_frames].
    unfold get_peer. unfold bind at 1. rewrite bind_get, Hi. cbn [ret]. destruct (Z.leb_spec 4 (zlen (np_buffer p))); [|lia].
    assert (Hcl : uv_close sk false n = (Ret tt, n1)).
    { unfold uv_close, uv_is_closing, set_state, n1. munfold. rewrite Hs. cbn. by rewrite Hs. }
    destruct (Z.ltb_spec MAX_MESSAGE_SIZE (prefixed_size (np_buffer p))); [done|].
    destruct Hbad as [?|[Hfit Hv]]; [lia|]. destruct (Z.leb_spec (prefixed_size (np_buffer p)) (zlen (np_buffer p) - 4)); [|lia].
    by rewrite Hv. }
  split; [done|]. intros Hreach.
  pose proof (wp_elim _ _ _ _ _ _ (read_frames_wp _ n i sk p Hwf Hs Hi ltac:(done)) Hrun) as Hm1. cbn in Hm1.
  pose proof (net_reach_moves _ _ Hreach (nm_wf _ _ Hm1)) as Hm.
  destruct (nm_stuck _ _ Hm sk i (SkClosing false)) as (st & Hst & Hstuck); [cbn; by rewrite lookup_insert_eq|done|].
  assert (Hlinked : linked st) by (by destruct st as [| | |[]|]).
  destruct (live_peer _ _ _ _ (nm_wf _ _ Hm) Hst Hlinked) as (p' & Hi1 & Hp' & Hok).
  assert (Hc' : connected (np_peer p') = true) by (by destruct st as [| | |[]|]).
  exists p'. split_and!; [done|done|..].
  - intros b. unfold send_one, get_peer, uv_is_closing. munfold. rewrite Hi1, Hc', Hp', Hst. cbn.
    by destruct st as [| | |[]|].
  - intros a. unfold start_connect, get_peer. munfold. by rewrite Hi1, Hp'.
Qed.
End events.

(** ** Choosing a peer *)

(** A connected peer of known capacity that can take [size] bytes. *)
Definition offers (size : Z) (p : NetPeer) : Prop :=
  connected (np_peer p) = true /\ capacity_known (np_peer p) = true /\ size <= free_ram_bytes (np_peer p) /\
  0 < free_ram_bytes (np_peer p).

Definition unknown_capacity (p : NetPeer) : Prop := connected (np_peer p) = true /\ capacity_known (np_peer p) = false.

(** What a scan has found among the peers [done_]. *)
Record scanned (size : Z) (done_ : list NetPeer) (best : option Z) (best_free : Z) (unknown : option Z) : Prop := {
  sc_best : match best with
            | Some b => exists p, znth done_ b = Some p /\ offers size p /\ free_ram_bytes (np_peer p) = best_free
            | None => best_free = 0
            end;
  sc_max : forall p, p ∈ done_ -> offers size p -> free_ram_bytes (np_peer p) <= best_free;
  sc_unknown : match unknown with
               | Some u => exists p, znth done_ u = Some p /\ unknown_capacity p
               | None => forall p, p ∈ done_ -> ~ unknown_capacity p
               end
}.

Lemma scanned_pos size done_ best f u : scanned size done_ best f u -> 0 <= f.
Proof. intros [Hb _ _]. destruct best; [|lia]. destruct Hb as (p & _ & (_ & _ & _ & ?) & <-). lia. Qed.

Lemma znth_snoc_old {A} (l : list A) x i y : znth l i = Some y -> znth (l ++ [x]) i = Some y.
Proof. intros Hi. rewrite znth_app_last, decide_False; [done|]. apply znth_Some in Hi. lia. Qed.

Lemma scanned_snoc size done_ p best f u best' f' u' :
  scanned size done_ best f u -> f <= f' ->
  (best' = best /\ f' = f \/ best' = Some (zlen done_) /\ offers size p /\ free_ram_bytes (np_peer p) = f') ->
  (offers size p -> free_ram_bytes (np_peer p) <= f') ->
  (u' = u /\ (u = None -> ~ unknown_capacity p) \/ u = None /\ u' = Some (zlen done_) /\ unknown_capacity p) ->
  scanned size (done_ ++ [p]) best' f' u'.
Proof.
  intros [Hb Hm Hu] Hf Hbest Hp Hun.
  assert (Hlast : znth (done_ ++ [p]) (zlen done_) = Some p) by (by rewrite znth_app_last, decide_True).
  split.
  - destruct Hbest as [[-> ->]|(-> & Ho & Hfr)]; [|by exists p]. destruct best as [b|]; [|done].
    destruct Hb as (q & Hq & Ho & Hfr). exists q. split_and!; try done. by apply znth_snoc_old.
  - intros q [Hq|Hq]%elem_of_app Ho; [specialize (Hm q Hq Ho); lia|]. apply list_elem_of_singleton in Hq as ->. by apply Hp.
  - destruct Hun as [[-> Hnone]|(-> & -> & Hup)]; [|by exists p]. destruct u as [k|].
    + destruct Hu as (q & Hq & Huq). exists q. split; [by apply znth_snoc_old|done].
    + intros q [Hq|Hq]%elem_of_app; [by apply Hu|]. apply list_elem_of_singleton in Hq as ->. by apply Hnone.
Qed.

Lemma scan_best_spec size l : forall done_ best f u,
  scanned size done_ best f u ->
  exists best' f' u', scan_best (zlen done_) size l best f u = match best' with Some b => Some b | None => u' end /\
    scanned size (done_ ++ l) best' f' u'.
Proof.
  induction l as [|p l IH]; intros done_ best f u Hsc; cbn [scan_best].
  { exists best, f, u. rewrite app_nil_r. split; [by destruct best|done]. }
  assert (Hcons : done_ ++ p :: l = (done_ ++ [p]) ++ l) by (by rewrite <- app_assoc).
  assert (Hlen : zlen done_ + 1 = zlen (done_ ++ [p])) by (rewrite zlen_app; done).
  rewrite Hcons, Hlen. pose proof (scanned_pos _ _ _ _ _ Hsc).
  destruct (connected (np_peer p)) eqn:Ec; cbn [negb].
  2: { apply IH. eapply scanned_snoc; [done|lia|by left| |]; unfold offers, unknown_capacity; rewrite Ec; [by intros [? _]|].
       left. split; [done|]. by intros _ [? _]. }
  destruct (capacity_known (np_peer p)) eqn:Ek; cbn [negb].
  2: { apply IH. eapply scanned_snoc; [done|lia|by left| |]; unfold offers, unknown_capacity; rewrite Ec, Ek; [by intros (_ & ? & _)|].
       destruct u as [k|]; [by left|]. right. done. }
  destruct (Z.leb_spec size (free_ram_bytes (np_peer p))); cbn [andb]; [destruct (Z.ltb_spec f (free_ram_bytes (np_peer p)))|].
  - apply IH. eapply scanned_snoc; [done|lia| |lia|].
    + right. split; [done|]. split; [|done]. by split_and!; try lia.
    + left. split; [done|]. unfold unknown_capacity. rewrite Ek. by intros _ [_ ?].
  - apply IH. eapply scanned_snoc; [done|lia|by left|lia|]. left. split; [done|]. unfold unknown_capacity. rewrite Ek. by intros _ [_ ?].
  - apply IH. eapply scanned_snoc; [done|lia|by left| |].
    + intros (_ & _ & ? & _). lia.
    + left. split; [done|]. unfold unknown_capacity. rewrite Ek. by intros _ [_ ?].
Qed.

(** [select_best_peer] picks the connected peer with the most free RAM
    among those known to have room; failing that one of unknown capacity; and
    none only when there is neither. *)
Theorem select_best_peer_best size n :
  match select_best_peer size n with
  | Some i => exists p, znth (net_peers n) i = Some p /\
      (offers size p /\ (forall q, q ∈ net_peers n -> offers size q ->
         free_ram_bytes (np_peer q) <= free_ram_bytes (np_peer p)) \/
       unknown_capacity p /\ forall q, q ∈ net_peers n -> ~ offers size q)
  | None => forall q, q ∈ net_peers n -> ~ offers size q /\ ~ unknown_capacity q
  end.
Proof.
  assert (H0 : scanned size [] None 0 None) by (by split; try done; intros p ?%not_elem_of_nil).
  destruct (scan_best_spec size (net_peers n) [] None 0 None H0) as (best & f & u & Hr & [Hb Hm Hu]).
  unfold select_best_peer. change (zlen (@nil NetPeer)) with 0 in Hr. rewrite Hr. cbn [app] in *.
  destruct best as [b|].
  - destruct Hb as (p & Hp & Ho & Hf). exists p. split; [done|]. left. split; [done|]. intros q Hq Hoq. rewrite Hf. auto.
  - subst f. assert (Hno : forall q, q ∈ net_peers n -> ~ offers size q).
    { intros q Hq Ho. specialize (Hm q Hq Ho). destruct Ho as (_ & _ & _ & ?). lia. }
    destruct u as [k|]; [|by auto]. destruct Hu as (p & Hp & Hup). exists p. split; [done|]. by right.
Qed.

(** ** A concrete run *)

Section demo.
#[local] Existing Instance table_wire.

(** discoveryd lists three peers, one of them without a memory daemon. *)
#[local] Instance demo_control : ControlWire := {|
  verify_peers b :=
    Some (Some [mkPeerInfo (Some "10.0.0.1") 9090 100 0; mkPeerInfo (Some "10.0.0.3") 0 0 0;
                mkPeerInfo (Some "10.0.0.2") 9090 200 0])
|}.

Definition demo_events : list net_event :=
  [EvDiscover 0 (Some [x00; x00; x00; x00]);
   EvDrain (fun i => if i =? 0 then ConnectStarts else ConnectFails); EvConnect 0 0 true;
   EvCall 0 1 [x01]; EvCall 0 2 [x02]; EvWakeup].

Fixpoint run_events (evs : list net_event) (n : ClientNet) : ClientNet :=
  match evs with
  | [] => n
  | ev :: evs => run_events evs (snd (net_exec ev n))
  end.

(** The first peer is connected with two calls in flight. *)
Definition demo_state : ClientNet := run_events demo_events ClientNet_new.

Lemma run_events_reach evs : forall n,
  (fix ok evs n := match evs with
                   | [] => True
                   | ev :: evs => enabled ev n /\ fst (net_exec ev n) = Ret tt /\ ok evs (snd (net_exec ev n))
                   end) evs n -> net_reach n (run_events evs n).
Proof.
  induction evs as [|ev evs IH]; intros n; [intros _; apply net_reach_refl|]. intros (He & Hr & Hok).
  apply (net_reach_step n ev (snd (net_exec ev n))); [done| |by apply IH].
  rewrite <- Hr. by destruct (net_exec ev n).
Qed.

Lemma demo_reach : net_reach ClientNet_new demo_state.
Proof.
  apply run_events_reach. cbn [demo_events]. repeat (split; [|split; [vm_compute; reflexivity|]]); try exact I.
  - vm_compute. reflexivity.
  - split; [by eexists|vm_compute; reflexivity].
  - split; [by eexists|vm_compute; reflexivity].
Qed.

Lemma net_safe_witness : exists n', net_exec (EvRead 0 0 PeerError) demo_state = (Ret tt, n') /\ net_wf n'.
Proof.
  destruct (net_safe demo_state (EvRead 0 0 PeerError)) as (n' & Hr & Hwf & _).
  - exact demo_reach.
  - vm_compute. reflexivity.
  - by exists n'.
Defined.

Definition demo_reply (id : Z) (d : list byte) : list byte :=
  size_prefixed (response_table (mkResponse id StatusCode_OK 0 (Some d) 0 "OK")).

(** The replies to calls 2 and 1, with the cut inside the first prefix. *)
Definition demo_chunks : list (list byte) :=
  let s := demo_reply 2 [x0a] ++ demo_reply 1 [x0b] in [take 3 s; drop 3 s].

Lemma demo_wf : net_wf demo_state.
Proof. apply (nm_wf _ _ (net_reach_moves _ _ demo_reach ClientNet_new_wf)). Qed.

Lemma demo_deframe :
  deframe_with verify_frame (concat demo_chunks)
    [(demo_reply 2 [x0a], mkResponse 2 StatusCode_OK 0 (Some [x0a]) 0 "OK");
     (demo_reply 1 [x0b], mkResponse 1 StatusCode_OK 0 (Some [x0b]) 0 "OK")] [].
Proof.
  apply deframe_step; [vm_compute; discriminate..|vm_compute; reflexivity|].
  apply deframe_step; [vm_compute; discriminate..|vm_compute; reflexivity|].
  apply deframe_stop. left. vm_compute. reflexivity.
Qed.

Lemma replies_matched_witness :
  exists n', read_chunks 0 0 demo_chunks demo_state = (Ret tt, n') /\ call_result 1 n' = Some (demo_reply 1 [x0b]) /\
    call_result 2 n' = Some (demo_reply 2 [x0a]).
Proof.
  destruct (znth (net_peers demo_state) 0) as [p|] eqn:Ep; [|vm_compute in Ep; discriminate].
  assert (Hb : np_buffer p = []) by (vm_compute in Ep; by injection Ep as <-).
  destruct (replies_matched 0 0 demo_chunks demo_state p
    [(demo_reply 2 [x0a], mkResponse 2 StatusCode_OK 0 (Some [x0a]) 0 "OK");
     (demo_reply 1 [x0b], mkResponse 1 StatusCode_OK 0 (Some [x0b]) 0 "OK")] []) as (n' & Hr & _ & Hres & _).
  - exact demo_wf.
  - exact Ep.
  - rewrite Hb. apply deframe_stop. left. vm_compute. reflexivity.
  - rewrite Hb. exact demo_deframe.
  - exists n'. split; [exact Hr|]. split; rewrite Hres; vm_compute; reflexivity.
Defined.

(** A frame that announces more than the limit. *)
Definition demo_stranded : ClientNet :=
  snd (update_peer 0 (set_np_buffer [xff; xff; xff; xff]) demo_state).

Lemma bad_reply_strands_peer_witness :
  exists n1, read_frames 4 0 0 demo_stranded = (Ret tt, n1) /\
    exists p', znth (net_peers n1) 0 = Some p' /\ connected (np_peer p') = true /\
      (forall a, start_connect a 0 n1 = (Ret tt, n1)).
Proof.
  destruct (znth (net_peers demo_stranded) 0) as [p|] eqn:Ep; [|vm_compute in Ep; discriminate].
  assert (Hb : np_buffer p = [xff; xff; xff; xff]) by (vm_compute in Ep; by injection Ep as <-).
  assert (Hwf : net_wf demo_stranded).
  { apply (nm_wf demo_state). apply moves_peer; [apply demo_wf|lia|done]. }
  destruct (bad_reply_strands_peer demo_stranded (snd (read_frames 4 0 0 demo_stranded)) 0 0 p) as (n1 & Hr & Hst).
  - exact Hwf.
  - vm_compute. reflexivity.
  - exact Ep.
  - rewrite Hb. vm_compute. discriminate.
  - left. rewrite Hb. vm_compute. reflexivity.
  - rewrite Hb in Hr. cbn [length] in Hr. exists n1. split; [exact Hr|].
    destruct Hst as (p' & Hp' & Hc & _ & Hs); [rewrite Hr; apply net_reach_refl|]. rewrite Hr in *. by exists p'.
Defined.
End demo.
