(* ===== verification/PageRegions.v ===== *)
(** * Tables of reserved regions

    What the three page-fault backends of [platform/src] share: a map from the
    base address of each reserved region to its size and the state of each of
    its pages, the number of resident pages, and the walks over the pages of an
    address range.  A backend supplies the type [A] of page states and which of
    them count as resident.

    [state_of t p] is the state of the page at [p]; the lemmas below say what
    each walk does to it and that the counter stays the number of resident
    pages.  The code is that of page_fault_win.cpp; page_fault_mac.cpp and
    page_fault_linux.cpp repeat it. *)

From S2P Require Import Prelude.

(** ** Addresses and pages *)

(** [((value + multiple - 1) / multiple) * multiple] *)
Definition round_up (value multiple : Z) : Z := u64 (value + multiple - 1) / multiple * multiple.

Definition page_base (ps addr : Z) : Z := Z.land addr (u64 (Z.lnot (ps - 1))).

Definition offset_in_page (ps addr : Z) : Z := Z.land addr (ps - 1).

(** The offsets [off = 0; off < len; off += page_size_] of a walk. *)
Definition page_offsets (ps len : Z) : list Z := (fun i => i * ps) <$> seqZ 0 ((len + ps - 1) / ps).

(** ** The table *)

Record Region {A : Type} := mkRegion {
  region_size : Z;
  states : list A
}.
Arguments Region : clear implicits.
Arguments mkRegion {A}.

Record Table {A : Type} := mkTable {
  regions_ : gmap Z (Region A);
  resident_pages_ : Z
}.
Arguments Table : clear implicits.
Arguments mkTable {A}.

Section table.
Context {A : Type} (ps : Z).
Implicit Types (t : Table A) (r : Region A) (m : gmap Z (Region A)).

(** [--regions_.upper_bound(addr)]: the entry with the greatest key up to [addr]. *)
Definition floor_entry (addr : Z) m : option (Z * Region A) :=
  map_fold (fun k r best =>
    if addr <? k then best
    else match best with
         | Some (k', _) => if k' <? k then Some (k, r) else best
         | None => Some (k, r)
         end) None m.

(** The region that contains [addr] (its base and the region) and the index of the page. *)
Definition region_for (addr : Z) m : option (Z * Region A * Z) :=
  match floor_entry addr m with
  | None => None
  | Some (base, r) =>
      if (addr <? base) || (u64 (base + region_size r) <=? addr) then None
      else Some (base, r, (addr - base) / ps)
  end.

(** [fn(region->states[index])]; [fn] may also move the counter of resident pages. *)
Definition on_page (fn : A -> Z -> A * Z) (addr : Z) t : Table A :=
  match region_for addr (regions_ t) with
  | None => t
  | Some (base, r, index) =>
      match znth (states r) index with
      | None => t
      | Some s =>
          let '(s', n) := fn s (resident_pages_ t) in
          mkTable (<[base := mkRegion (region_size r) (zset (states r) index s')]> (regions_ t)) n
      end
  end.

Definition for_each_page (fn : A -> Z -> A * Z) (addr len : Z) t : Table A :=
  foldl (fun t off => on_page fn (u64 (addr + off)) t) t (page_offsets ps len).

Definition state_at (addr : Z) t : option A :=
  match region_for addr (regions_ t) with
  | None => None
  | Some (_, r, index) => znth (states r) index
  end.

Definition for_each_page_const (fn : A -> bool) (addr len : Z) t : bool :=
  let page := page_base ps addr in
  let total := round_up (u64 (offset_in_page ps addr + len)) ps in
  existsb (fun off => match state_at (u64 (page + off)) t with
                      | Some s => fn s
                      | None => false
                      end) (page_offsets ps total).

(** [regions_.emplace(addr, region)]: an entry that is already there stays. *)
Definition emplace_region (addr : Z) r t : Table A :=
  match regions_ t !! addr with
  | Some _ => t
  | None => mkTable (<[addr := r]> (regions_ t)) (resident_pages_ t)
  end.

Definition count_resident (present : A -> bool) r : Z := zlen (filter (fun s => present s = true) (states r)).

(** [resident_pages_ -= count_resident(it->second); regions_.erase(it);] *)
Definition erase_region (present : A -> bool) (addr : Z) r t : Table A :=
  mkTable (delete addr (regions_ t)) (u64 (resident_pages_ t - count_resident present r)).

End table.

(** ** Facts *)

(** The invariant of the table: regions are page-aligned, whole numbers of
    pages, inside the address space, apart from one another, with a state per
    page; and the counter counts the resident pages. *)
Section facts.
Context {A : Type} (ps : Z) (present : A -> bool).
Hypothesis Hps : exists k, 0 <= k < 64 /\ ps = 2 ^ k.
Implicit Types (t : Table A) (r : Region A) (m : gmap Z (Region A)).

Record region_ok (b : Z) r : Prop := {
  ro_base : 0 < b;
  ro_size : 0 < region_size r;
  ro_end : b + region_size r < U64;
  ro_aligned : b mod ps = 0;
  ro_whole : region_size r mod ps = 0;
  ro_states : zlen (states r) = region_size r / ps
}.

Definition total_resident m : Z := map_fold (fun _ r n => count_resident present r + n) 0 m.

Record table_wf t : Prop := {
  tw_region : forall b r, regions_ t !! b = Some r -> region_ok b r;
  tw_disjoint : forall b b' r r', regions_ t !! b = Some r -> regions_ t !! b' = Some r' -> b < b' ->
    b + region_size r <= b';
  tw_count : resident_pages_ t = u64 (total_resident (regions_ t))
}.

Lemma ps_pos : 0 < ps < U64.
Proof.
  destruct Hps as (k & Hk & ->). split; [apply Z.pow_pos_nonneg; lia|]. apply Z.pow_lt_mono_r; lia.
Qed.

(** Two multiples less than one apart are equal. *)
Lemma multiple_eq p x y : 0 < p -> x mod p = 0 -> y mod p = 0 -> x <= y < x + p -> x = y.
Proof.
  intros Hp Hx Hy Hb. apply Z.mod_divide in Hx as [a ->]; [|lia]. apply Z.mod_divide in Hy as [b ->]; [|lia].
  assert (a <= b) by (apply (Z.mul_le_mono_pos_r _ _ p); lia).
  assert (b < a + 1) by (apply (Z.mul_lt_mono_pos_r p); lia). f_equal. lia.
Qed.

Lemma range_multiple a lo len : lo mod ps = 0 -> len mod ps = 0 ->
  lo <= a - a mod ps < lo + len <-> lo <= a < lo + len.
Proof.
  intros Hlo Hlen. pose proof ps_pos. apply Z.mod_divide in Hlo as [x ->]; [|lia]. apply Z.mod_divide in Hlen as [y ->]; [|lia].
  pose proof (Z.div_mod a ps ltac:(lia)) as Hd. pose proof (Z.mod_pos_bound a ps ltac:(lia)).
  replace (a - a mod ps) with (a / ps * ps) by lia. rewrite <- Z.mul_add_distr_r. split; intros [H1 H2].
  - apply (Z.mul_lt_mono_pos_r ps) in H2; [|lia].
    pose proof (Z.mul_le_mono_nonneg_r (a / ps + 1) (x + y) ps ltac:(lia) ltac:(lia)). lia.
  - split; [apply Z.mul_le_mono_nonneg_r; [lia|]; apply Z.div_le_lower_bound; lia|].
    apply (proj1 (Z.mul_lt_mono_pos_r ps _ _ ltac:(lia))). apply Z.div_lt_upper_bound; lia.
Qed.

(** A page that starts in a range of whole pages ends in it. *)
Lemma page_fits p lo len : lo mod ps = 0 -> len mod ps = 0 -> p mod ps = 0 -> lo <= p < lo + len -> p + ps <= lo + len.
Proof.
  intros Hlo Hlen Hp Hin. pose proof ps_pos. apply (range_multiple (p + ps - 1) lo len) in Hlo; [|done].
  assert (Hm : (p + ps - 1) mod ps = ps - 1).
  { replace (p + ps - 1) with (p + (ps - 1)) by lia. rewrite Z.add_mod, Hp, Z.add_0_l, Zmod_mod by lia. apply Z.mod_small. lia. }
  rewrite Hm in Hlo. lia.
Qed.

Lemma page_of_aligned a : (a - a mod ps) mod ps = 0.
Proof. pose proof ps_pos. rewrite Zminus_mod, Zmod_mod, Z.sub_diag. apply Z.mod_0_l. lia. Qed.

Lemma page_base_spec a : 0 <= a < U64 -> page_base ps a = a - a mod ps.
Proof. destruct Hps as (k & Hk & ->). intros Ha. by apply land_lnot_mask. Qed.

Lemma offset_in_page_spec a : 0 <= a -> offset_in_page ps a = a mod ps.
Proof.
  destruct Hps as (k & Hk & ->). intros Ha. unfold offset_in_page.
  replace (2 ^ k - 1) with (Z.ones k) by (rewrite Z.ones_equiv; lia). rewrite Z.land_ones by lia. done.
Qed.

Lemma page_base_aligned a : 0 <= a < U64 -> a mod ps = 0 -> page_base ps a = a /\ offset_in_page ps a = 0.
Proof. intros Ha Hm. rewrite page_base_spec, offset_in_page_spec by lia. lia. Qed.

Lemma round_up_bounds q v : 0 < q -> 0 <= v -> v + q - 1 < U64 ->
  v <= round_up v q < v + q /\ round_up v q mod q = 0.
Proof.
  intros Hm Hv Hlt. unfold round_up. rewrite u64_small by lia.
  pose proof (Z.div_mod (v + q - 1) q ltac:(lia)). pose proof (Z.mod_pos_bound (v + q - 1) q ltac:(lia)).
  split; [rewrite (Z.mul_comm _ q); lia|]. apply Z.mod_mul. lia.
Qed.

Lemma round_up_spec v : 0 <= v -> v + ps - 1 < U64 ->
  v <= round_up v ps < v + ps /\ round_up v ps mod ps = 0.
Proof.
  intros. pose proof ps_pos. by apply round_up_bounds; [lia|..].
Qed.

Lemma round_up_whole v : 0 <= v -> v + ps - 1 < U64 -> v mod ps = 0 -> round_up v ps = v.
Proof.
  intros Hv Hlt Hm. destruct (round_up_spec v Hv Hlt) as [Hb Ha]. pose proof ps_pos.
  symmetry. apply (multiple_eq ps); (done || lia).
Qed.

Lemma floor_entry_spec a m :
  match floor_entry a m with
  | Some (k, r) => m !! k = Some r /\ k <= a /\ forall k' r', m !! k' = Some r' -> k' <= a -> k' <= k
  | None => forall k r, m !! k = Some r -> a < k
  end.
Proof.
  unfold floor_entry.
  apply (map_fold_weak_ind (fun (best : option (Z * Region A)) (m : gmap Z (Region A)) =>
    match best with
    | Some (k, r) => m !! k = Some r /\ k <= a /\ forall k' r', m !! k' = Some r' -> k' <= a -> k' <= k
    | None => forall k r, m !! k = Some r -> a < k
    end)).
  { intros k r. by rewrite lookup_empty. }
  intros i r m0 best Hi IH. destruct (Z.ltb_spec a i) as [Hai|Hai].
  - destruct best as [[k s]|].
    + destruct IH as (Hk & Hle & Hmax). split; [|split; [done|]].
      * rewrite lookup_insert_ne by congruence. done.
      * intros k' r'. rewrite lookup_insert. case_decide; [lia|]. intros. by eapply Hmax.
    + intros k r'. rewrite lookup_insert. case_decide; [lia|]. apply IH.
  - destruct best as [[k s]|].
    + destruct IH as (Hk & Hle & Hmax). destruct (Z.ltb_spec k i).
      * rewrite lookup_insert_eq. split; [done|]. split; [lia|]. intros k' r'.
        rewrite lookup_insert. case_decide; [lia|]. intros Hk' Ha. pose proof (Hmax _ _ Hk' Ha). lia.
      * rewrite lookup_insert_ne by congruence. split; [done|]. split; [done|]. intros k' r'.
        rewrite lookup_insert. case_decide; [lia|]. apply Hmax.
    + rewrite lookup_insert_eq. split; [done|]. split; [lia|]. intros k' r'.
      rewrite lookup_insert. case_decide; [lia|]. intros Hk'. pose proof (IH _ _ Hk'). lia.
Qed.

Lemma region_for_spec t a b r i : table_wf t -> 
  region_for ps a (regions_ t) = Some (b, r, i) <->
  regions_ t !! b = Some r /\ b <= a < b + region_size r /\ i = (a - b) / ps.
Proof.
  intros Hwf. unfold region_for. pose proof (floor_entry_spec a (regions_ t)) as Hf.
  destruct (floor_entry a (regions_ t)) as [[k s]|].
  - destruct Hf as (Hk & Hle & Hmax). pose proof (tw_region _ Hwf _ _ Hk) as Hok.
    rewrite u64_small by (destruct Hok; lia). split.
    + destruct (Z.ltb_spec a k); [lia|]. destruct (Z.leb_spec (k + region_size s) a); [done|].
      cbn. intros [= <- <- <-]. split; [done|]. lia.
    + intros (Hb & Hin & ->). pose proof (Hmax _ _ Hb ltac:(lia)) as Hkb.
      destruct (Z.eq_dec b k) as [->|Hne].
      * assert (r = s) by congruence. subst s.
        rewrite (proj2 (Z.ltb_ge a k)), (proj2 (Z.leb_gt _ _)) by lia. done.
      * pose proof (tw_disjoint _ Hwf b k _ _ Hb Hk ltac:(lia)). lia.
  - split; [done|]. intros (Hb & Hin & _). pose proof (Hf _ _ Hb). lia.
Qed.

(** Two addresses of one region with the same index are on the same page. *)
Lemma page_index_inj b a p : b mod ps = 0 -> a mod ps = 0 -> p mod ps = 0 ->
  (a - b) / ps = (p - b) / ps -> a = p.
Proof.
  intros Hb Ha Hp He. pose proof ps_pos.
  apply Z.mod_divide in Hb as [x ->], Ha as [y ->], Hp as [z ->]; try lia.
  rewrite <- !Z.mul_sub_distr_r, !Z.div_mul in He by lia. nia.
Qed.

Lemma region_index t a b r i : table_wf t -> region_for ps a (regions_ t) = Some (b, r, i) ->
  0 <= i < zlen (states r).
Proof.
  intros Hwf H. apply region_for_spec in H as (Hb & Hin & ->); [|done].
  pose proof (tw_region _ Hwf _ _ Hb) as []. pose proof ps_pos. rewrite ro_states0.
  split; [apply Z.div_pos; lia|]. apply Z.div_lt_upper_bound; [lia|].
  apply Z.mod_divide in ro_whole0 as [q Hq]; [|lia]. rewrite Hq, Z.div_mul by lia. lia.
Qed.

Lemma count_zset l i (s s' : A) : znth l i = Some s ->
  zlen (filter (fun s => present s = true) (zset l i s')) =
  zlen (filter (fun s => present s = true) l) - (if present s then 1 else 0) + (if present s' then 1 else 0).
Proof.
  intros Hs. destruct (znth_Some _ _ _ Hs) as [Hi _]. rewrite znth_lookup in Hs by lia. unfold zset.
  revert Hs. generalize (Z.to_nat i) as n. clear Hi. induction l as [|x l IH]; intros [|n] Hs; try done.
  - cbn in Hs. injection Hs as ->. cbn [insert list_insert]. rewrite !filter_cons.
    destruct (present s), (present s'); repeat case_decide; try done; rewrite ?zlen_cons; lia.
  - cbn in Hs. specialize (IH n Hs). change (<[S n := s']> (x :: l)) with (x :: <[n := s']> l).
    rewrite !filter_cons. case_decide; rewrite ?zlen_cons; lia.
Qed.

Lemma total_delete m b r : m !! b = Some r ->
  total_resident m = count_resident present r + total_resident (delete b m).
Proof.
  intros H. unfold total_resident.
  apply (map_fold_delete_L (fun _ r n => count_resident present r + n)); [lia|done].
Qed.

Lemma total_insert m b r : m !! b = None -> total_resident (<[b := r]> m) = count_resident present r + total_resident m.
Proof.
  intros H. rewrite (total_delete _ b r) by apply lookup_insert_eq. by rewrite delete_insert_id.
Qed.

Lemma total_replace m b r r' : m !! b = Some r ->
  total_resident (<[b := r']> m) = total_resident m - count_resident present r + count_resident present r'.
Proof.
  intros H. rewrite (total_delete _ b r'), (total_delete m b r) by (done || apply lookup_insert_eq).
  rewrite delete_insert_eq. lia.
Qed.

(** A page function that keeps the counter in step with what it does to the page. *)
Definition page_fn (fn : A -> Z -> A * Z) (f : A -> A) : Prop :=
  forall s n, fn s (u64 n) = (f s, u64 (n - (if present s then 1 else 0) + (if present (f s) then 1 else 0))).

Lemma on_page_spec fn f a t : page_fn fn f -> table_wf t -> a mod ps = 0 ->
  table_wf (on_page ps fn a t) /\
  (forall p, p mod ps = 0 -> state_at ps p (on_page ps fn a t) = (if decide (p = a) then f <$> state_at ps p t else state_at ps p t)) /\
  (forall b, region_size <$> (regions_ (on_page ps fn a t) !! b) = region_size <$> (regions_ t !! b)).
Proof.
  intros Hfn Hwf Ha. destruct (region_for ps a (regions_ t)) as [[[b r] i]|] eqn:E.
  2:{ assert (He : on_page ps fn a t = t) by (unfold on_page; by rewrite E). rewrite He. split; [done|]. split; [|done].
      intros p Hp. case_decide; [|done]. subst p. unfold state_at. by rewrite E. }
  pose proof (region_index _ _ _ _ _ Hwf E) as Hi. apply znth_is_Some in Hi as Hs. destruct Hs as [s Hs].
  pose proof E as E'. apply region_for_spec in E' as (Hb & Hin & Hidx); [|done].
  pose proof (tw_region _ Hwf _ _ Hb) as Hok.
  set (t' := mkTable (<[b := mkRegion (region_size r) (zset (states r) i (f s))]> (regions_ t))
    (u64 (total_resident (regions_ t) - (if present s then 1 else 0) + (if present (f s) then 1 else 0)))).
  assert (He : on_page ps fn a t = t') by (unfold on_page; rewrite E, Hs, (tw_count _ Hwf), Hfn; done).
  rewrite He. clear He.
  assert (Hlk : forall b', regions_ t' !! b' =
    if decide (b = b') then Some (mkRegion (region_size r) (zset (states r) i (f s))) else regions_ t !! b').
  { intros b'. cbn. by rewrite lookup_insert. }
  assert (Hsz : forall b', region_size <$> (regions_ t' !! b') = region_size <$> (regions_ t !! b')).
  { intros b'. rewrite Hlk. case_decide; [|done]. subst b'. by rewrite Hb. }
  assert (Hwf' : table_wf t').
  { split.
    - intros b' r'. rewrite Hlk. case_decide; [|apply (tw_region _ Hwf)]. intros [= <-]. subst b'.
      destruct Hok. split; cbn; try done. by rewrite zlen_zset.
    - intros b1 b2 r1 r2 H1 H2. pose proof (Hsz b1) as S1. pose proof (Hsz b2) as S2. rewrite H1 in S1. rewrite H2 in S2.
      destruct (regions_ t !! b1) as [q1|] eqn:E1; [|done]. destruct (regions_ t !! b2) as [q2|] eqn:E2; [|done].
      cbn in S1, S2. intros Hlt. injection S1 as ->. by eapply (tw_disjoint _ Hwf).
    - cbn. rewrite (total_replace _ _ _ _ Hb). f_equal. unfold count_resident. cbn.
      rewrite (count_zset _ _ s (f s) Hs). lia. }
  split; [done|]. split; [|done]. intros p Hp. unfold state_at.
  destruct (region_for ps p (regions_ t)) as [[[b' r'] i']|] eqn:Ep.
  - pose proof Ep as Ep'. apply region_for_spec in Ep' as (Hb' & Hin' & Hidx'); [|done].
    destruct (decide (b = b')) as [<-|Hne].
    + assert (r' = r) by congruence. subst r'.
      assert (Hr' : region_for ps p (regions_ t') = Some (b, mkRegion (region_size r) (zset (states r) i (f s)), i')).
      { apply region_for_spec; [done|]. rewrite Hlk, decide_True by done. done. }
      rewrite Hr'. cbn [states]. case_decide as Hpa.
      * subst p. assert (i' = i) as -> by congruence. rewrite Hs. cbn [fmap option_fmap option_map].
        by apply znth_zset_eq.
      * apply znth_zset_ne; [lia|]. intros He. apply Hpa. symmetry. apply (page_index_inj b); [apply Hok|done|done|].
        congruence.
    + assert (Hr' : region_for ps p (regions_ t') = Some (b', r', i')).
      { apply region_for_spec; [done|]. rewrite Hlk, decide_False by done. done. }
      rewrite Hr'. destruct (decide (p = a)) as [->|]; [congruence|done].
  - case_decide; [subst p; congruence|].
    destruct (region_for ps p (regions_ t')) as [[[b' r'] i']|] eqn:Er; [|done].
    apply region_for_spec in Er as (Hb' & Hin' & Hidx'); [|done]. exfalso.
    pose proof (Hsz b') as S. rewrite Hb' in S. destruct (regions_ t !! b') as [q|] eqn:Eq; [|done]. cbn in S.
    injection S as S. assert (region_for ps p (regions_ t) = Some (b', q, i')); [|congruence].
    apply region_for_spec; [done|]. split; [done|]. split; [lia|done].
Qed.

Lemma elem_of_page_offsets len off : 0 <= len ->
  off ∈ page_offsets ps len <-> 0 <= off < len /\ off mod ps = 0.
Proof.
  intros Hl. pose proof ps_pos. unfold page_offsets. rewrite list_elem_of_fmap. split.
  - intros (i & -> & Hi%elem_of_seqZ). pose proof (Z.mul_div_le (len + ps - 1) ps ltac:(lia)).
    split; [nia|]. apply Z.mod_mul. lia.
  - intros [Hb Hm]. exists (off / ps). pose proof (Z.div_mod off ps ltac:(lia)). split; [lia|].
    apply elem_of_seqZ. split; [apply Z.div_pos; lia|]. rewrite Z.add_0_l. 
    apply Z.div_lt_upper_bound; [lia|]. pose proof (Z.mul_succ_div_gt (len + ps - 1) ps ltac:(lia)). lia.
Qed.

Lemma NoDup_page_offsets len : NoDup (page_offsets ps len).
Proof. pose proof ps_pos. apply NoDup_fmap_2; [intros i j ?; nia|]. apply NoDup_seqZ. Qed.

Lemma walk_spec fn f addr l : forall t, page_fn fn f -> table_wf t -> addr mod ps = 0 ->
  (forall off, off ∈ l -> off mod ps = 0 /\ 0 <= addr + off < U64) -> NoDup l ->
  let t' := foldl (fun t off => on_page ps fn (u64 (addr + off)) t) t l in
  table_wf t' /\
  (forall p, p mod ps = 0 -> state_at ps p t' = (if decide (p - addr ∈ l) then f <$> state_at ps p t else state_at ps p t)) /\
  (forall b, region_size <$> (regions_ t' !! b) = region_size <$> (regions_ t !! b)).
Proof.
  pose proof ps_pos as Hp. induction l as [|off l IH]; intros t Hfn Hwf Ha Hl Hnd t'; subst t'; cbn [foldl].
  - split; [done|]. split; [|done]. intros p _. case_decide as H; [by apply not_elem_of_nil in H|done].
  - apply NoDup_cons in Hnd as [Hnin Hnd]. destruct (Hl off) as [Ho Hr]; [left|]. rewrite u64_small by lia.
    assert (Hao : (addr + off) mod ps = 0).
    { rewrite Z.add_mod, Ha, Ho by lia. apply Z.mod_0_l. lia. }
    destruct (on_page_spec fn f (addr + off) t Hfn Hwf Hao) as (Hwf1 & Hst1 & Hsz1).
    destruct (IH (on_page ps fn (addr + off) t)) as (Hwf2 & Hst2 & Hsz2); try done.
    { intros o Hin. apply Hl. by right. }
    split; [done|]. split; [|intros b; by rewrite Hsz2].
    intros p Hpm. rewrite Hst2, Hst1 by done.
    destruct (decide (p = addr + off)) as [->|Hne].
    + rewrite decide_False by (by replace (addr + off - addr) with off by lia).
      rewrite decide_True; [done|]. replace (addr + off - addr) with off by lia. left.
    + destruct (decide (p - addr ∈ l)); [rewrite decide_True by (by right); done|].
      rewrite decide_False; [done|]. intros [He|]%elem_of_cons; [lia|done].
Qed.

(** A walk over whole pages applies the function to every page of the range. *)
Lemma for_each_page_spec fn f addr len t : page_fn fn f -> table_wf t ->
  addr mod ps = 0 -> 0 <= addr -> 0 <= len -> addr + len <= U64 ->
  table_wf (for_each_page ps fn addr len t) /\
  (forall p, p mod ps = 0 -> state_at ps p (for_each_page ps fn addr len t) =
    (if decide (addr <= p < addr + len) then f <$> state_at ps p t else state_at ps p t)) /\
  (forall b, region_size <$> (regions_ (for_each_page ps fn addr len t) !! b) = region_size <$> (regions_ t !! b)).
Proof.
  intros Hfn Hwf Ha H0 Hl Hend. pose proof ps_pos.
  destruct (walk_spec fn f addr (page_offsets ps len) t Hfn Hwf Ha) as (Hwf' & Hst & Hsz).
  { intros off Hoff. apply elem_of_page_offsets in Hoff as [Hb Hm]; [|done]. split; [done|lia]. }
  { apply NoDup_page_offsets. }
  unfold for_each_page. split; [done|]. split; [|done]. intros p Hp. rewrite (Hst p Hp).
  destruct (decide (addr <= p < addr + len)) as [Hin|Hout].
  - rewrite decide_True; [done|]. apply elem_of_page_offsets; [done|]. split; [lia|].
    rewrite Zminus_mod, Hp, Ha. apply Z.mod_0_l. lia.
  - rewrite decide_False; [done|]. intros Hin. apply elem_of_page_offsets in Hin as [Hb _]; [lia|done].
Qed.

(** The query walk finds a page of the range that satisfies the predicate, if there is one. *)
Lemma for_each_page_const_spec fn addr len t : table_wf t ->
  addr mod ps = 0 -> 0 <= addr -> 0 <= len -> len mod ps = 0 -> addr + len < U64 -> len + ps < U64 ->
  for_each_page_const ps fn addr len t = true <->
  exists p s, p mod ps = 0 /\ addr <= p < addr + len /\ state_at ps p t = Some s /\ fn s = true.
Proof.
  intros Hwf Ha H0 Hl Hlm Hend Hroom. pose proof ps_pos. unfold for_each_page_const.
  destruct (page_base_aligned addr) as [-> ->]; [lia|done|]. rewrite Z.add_0_l, u64_small by lia.
  rewrite round_up_whole by (done || lia). rewrite existsb_exists. split.
  - intros (off & Hin%list_elem_of_In & Hs). apply elem_of_page_offsets in Hin as [Hb Hm]; [|done].
    rewrite u64_small in Hs by lia. destruct (state_at ps (addr + off) t) as [s|] eqn:E; [|done].
    exists (addr + off), s. split; [rewrite Z.add_mod, Ha, Hm by lia; apply Z.mod_0_l; lia|]. split; [lia|done].
  - intros (p & s & Hp & Hin & Hs & Hf). exists (p - addr). split.
    + apply list_elem_of_In, elem_of_page_offsets; [done|]. split; [lia|].
      rewrite Zminus_mod, Hp, Ha. apply Z.mod_0_l. lia.
    + rewrite u64_small by lia. replace (addr + (p - addr)) with p by lia. by rewrite Hs.
Qed.

Lemma state_at_region t b r p : table_wf t -> regions_ t !! b = Some r -> b <= p < b + region_size r ->
  state_at ps p t = znth (states r) ((p - b) / ps) /\ is_Some (state_at ps p t).
Proof.
  intros Hwf Hb Hin. assert (E : region_for ps p (regions_ t) = Some (b, r, (p - b) / ps)).
  { by apply region_for_spec. }
  unfold state_at. rewrite E. split; [done|]. apply znth_is_Some. by eapply region_index.
Qed.

Lemma state_at_inv t p : table_wf t -> is_Some (state_at ps p t) ->
  exists b r, regions_ t !! b = Some r /\ b <= p < b + region_size r.
Proof.
  intros Hwf. unfold state_at. destruct (region_for ps p (regions_ t)) as [[[b r] i]|] eqn:E; [|by intros []].
  intros _. apply region_for_spec in E as (Hb & Hin & _); [|done]. by exists b, r.
Qed.

(** Every address of a page has the state of the page. *)
Lemma state_at_page t a : table_wf t -> 0 <= a -> state_at ps a t = state_at ps (a - a mod ps) t.
Proof.
  intros Hwf Ha. pose proof ps_pos. unfold state_at.
  assert (Hidx : forall b, b mod ps = 0 -> (a - a mod ps - b) / ps = (a - b) / ps).
  { intros b Hb. apply Z.mod_divide in Hb as [q ->]; [|lia].
    replace (a - a mod ps - q * ps) with ((a / ps - q) * ps) by (pose proof (Z.div_mod a ps ltac:(lia)); lia).
    replace (a - q * ps) with (a + (- q) * ps) by lia. rewrite Z.div_mul, Z.div_add by lia. lia. }
  assert (Heq : region_for ps a (regions_ t) = region_for ps (a - a mod ps) (regions_ t)); [|by rewrite Heq].
  destruct (region_for ps a (regions_ t)) as [[[b r] i]|] eqn:E.
  - apply region_for_spec in E as (Hb & Hin & ->); [|done]. pose proof (tw_region _ Hwf _ _ Hb) as [].
    symmetry. apply region_for_spec; [done|]. split; [done|]. split; [by apply range_multiple|]. symmetry. by apply Hidx.
  - destruct (region_for ps (a - a mod ps) (regions_ t)) as [[[b r] i]|] eqn:E'; [|done].
    apply region_for_spec in E' as (Hb & Hin & ->); [|done]. pose proof (tw_region _ Hwf _ _ Hb) as [].
    assert (Ho : region_for ps a (regions_ t) = Some (b, r, (a - b) / ps)); [|congruence].
    apply region_for_spec; [done|]. split; [done|]. split; [by apply range_multiple|done].
Qed.

(** An empty table, and a fresh region all of whose pages are in one absent state. *)
Lemma table_wf_new : table_wf (mkTable ∅ 0).
Proof. split; cbn; [intros b r; by rewrite lookup_empty|intros b b' r r'; by rewrite lookup_empty|done]. Qed.

Lemma filter_replicate_none (s : A) n : present s = false -> filter (fun s => present s = true) (replicate n s) = [].
Proof. intros Hs. induction n; [done|]. cbn [replicate]. rewrite filter_cons_False by congruence. done. Qed.

Definition fresh_region (b size : Z) t : Prop :=
  forall b' r, regions_ t !! b' = Some r -> b + size <= b' \/ b' + region_size r <= b.

Lemma emplace_fresh b size s t : table_wf t -> present s = false ->
  0 < b -> 0 < size -> b + size < U64 -> b mod ps = 0 -> size mod ps = 0 -> fresh_region b size t ->
  let t' := emplace_region b (mkRegion size (replicate (Z.to_nat (size / ps)) s)) t in
  table_wf t' /\
  (forall p, state_at ps p t' = (if decide (b <= p < b + size) then Some s else state_at ps p t)) /\
  (forall p, b <= p < b + size -> state_at ps p t = None) /\
  (forall b', region_size <$> (regions_ t' !! b') = if decide (b' = b) then Some size else region_size <$> (regions_ t !! b')).
Proof.
  intros Hwf Hs H0 Hsz Hend Hb Hm Hfr t'. pose proof ps_pos.
  assert (Hnone : regions_ t !! b = None).
  { destruct (regions_ t !! b) as [r|] eqn:E; [|done]. pose proof (Hfr _ _ E); pose proof (tw_region _ Hwf _ _ E) as []; lia. }
  subst t'. unfold emplace_region. rewrite Hnone. set (r := mkRegion _ _). set (t' := mkTable _ _).
  assert (Hzl : zlen (states r) = size / ps). { apply zlen_replicate. apply Z.div_pos; lia. }
  assert (Hlk : forall b', regions_ t' !! b' = if decide (b = b') then Some r else regions_ t !! b').
  { intros b'. cbn. by rewrite lookup_insert. }
  assert (Hwf' : table_wf t').
  { split.
    - intros b' r'. rewrite Hlk. case_decide; [|apply (tw_region _ Hwf)]. intros [= <-]. subst b'. by split.
    - intros b1 b2 r1 r2. rewrite !Hlk. repeat case_decide; subst; intros E1 E2 Hlt; try lia.
      + injection E1 as <-. cbn. pose proof (Hfr _ _ E2); pose proof (tw_region _ Hwf _ _ E2) as []; lia.
      + injection E2 as <-. destruct (Hfr _ _ E1); [lia|done].
      + by eapply (tw_disjoint _ Hwf).
    - cbn. rewrite total_insert by done. unfold count_resident. cbn. rewrite filter_replicate_none by done.
      apply (tw_count _ Hwf). }
  split; [done|]. split; [|split].
  - intros p. case_decide as Hin.
    + destruct (state_at_region t' b r p Hwf') as [-> [s' Hs']]; [rewrite Hlk, decide_True; done|done|].
      rewrite Hs'. f_equal. pose proof (znth_Some _ _ _ Hs') as Hi. rewrite znth_lookup in Hs' by lia. cbn in Hs'.
      apply lookup_replicate in Hs' as [-> _]. done.
    + destruct (state_at ps p t) as [s1|] eqn:E.
      * destruct (state_at_inv t p Hwf ltac:(by rewrite E)) as (b1 & r1 & Hb1 & Hin1).
        destruct (state_at_region t b1 r1 p Hwf Hb1 Hin1) as [Ha _]. rewrite <- E, Ha.
        assert (b <> b1) by congruence.
        apply (state_at_region t' b1 r1 p Hwf'); [rewrite Hlk, decide_False; done|done].
      * destruct (state_at ps p t') as [s1|] eqn:E'; [|done].
        destruct (state_at_inv t' p Hwf' ltac:(by rewrite E')) as (b1 & r1 & Hb1 & Hin1).
        rewrite Hlk in Hb1. case_decide; [injection Hb1 as <-; cbn in *; lia|].
        destruct (state_at_region t b1 r1 p Hwf Hb1 Hin1) as [_ [? Hx]]. congruence.
  - intros p Hin. destruct (state_at ps p t) as [s1|] eqn:E; [|done].
    destruct (state_at_inv t p Hwf ltac:(by rewrite E)) as (b1 & r1 & Hb1 & Hin1). destruct (Hfr _ _ Hb1); lia.
  - intros b'. rewrite Hlk. repeat case_decide; try congruence; done.
Qed.

(** Erasing a region leaves the others, and takes its resident pages off the counter. *)
Lemma erase_region_spec b r t : table_wf t -> regions_ t !! b = Some r ->
  table_wf (erase_region present b r t) /\
  (forall p, state_at ps p (erase_region present b r t) =
    if decide (b <= p < b + region_size r) then None else state_at ps p t).
Proof.
  intros Hwf Hb. set (t' := erase_region present b r t).
  assert (Hlk : forall b', regions_ t' !! b' = if decide (b = b') then None else regions_ t !! b').
  { intros b'. cbn. by rewrite lookup_delete. }
  assert (Hwf' : table_wf t').
  { split.
    - intros b' r'. rewrite Hlk. case_decide; [done|]. apply (tw_region _ Hwf).
    - intros b1 b2 r1 r2. rewrite !Hlk. repeat case_decide; try done. apply (tw_disjoint _ Hwf).
    - cbn. rewrite (tw_count _ Hwf), (total_delete _ _ _ Hb). unfold u64. rewrite Zminus_mod_idemp_l. f_equal. lia. }
  split; [done|]. intros p. case_decide as Hin.
  - destruct (state_at ps p t') as [s|] eqn:E; [|done].
    destruct (state_at_inv t' p Hwf' ltac:(by rewrite E)) as (b1 & r1 & Hb1 & Hin1).
    rewrite Hlk in Hb1. case_decide as Hne; [done|]. exfalso.
    destruct (Z.lt_trichotomy b b1) as [Hlt|[He|Hlt]]; [|done|].
    + pose proof (tw_disjoint _ Hwf _ _ _ _ Hb Hb1 Hlt). lia.
    + pose proof (tw_disjoint _ Hwf _ _ _ _ Hb1 Hb Hlt). lia.
  - destruct (state_at ps p t) as [s|] eqn:E.
    + destruct (state_at_inv t p Hwf ltac:(by rewrite E)) as (b1 & r1 & Hb1 & Hin1).
      destruct (state_at_region t b1 r1 p Hwf Hb1 Hin1) as [Ha _]. rewrite <- E, Ha.
      assert (b <> b1) by (intros ->; assert (r1 = r) by congruence; subst; lia).
      apply (state_at_region t' b1 r1 p Hwf'); [rewrite Hlk, decide_False; done|done].
    + destruct (state_at ps p t') as [s1|] eqn:E'; [|done].
      destruct (state_at_inv t' p Hwf' ltac:(by rewrite E')) as (b1 & r1 & Hb1 & Hin1).
      rewrite Hlk in Hb1. case_decide; [done|].
      destruct (state_at_region t b1 r1 p Hwf Hb1 Hin1) as [_ [? Hx]]. congruence.
Qed.

End facts.
