(* ===== verification/FaultBackend.v ===== *)
(** * The page-fault backend seen by its clients

    [PagedMemory] is the memory of the process as the operating system and the
    processor present it: what each page allows, and the byte at each address.
    [IPageFaultBackend] has the operations of the C++ interface (plus [dispatch],
    what happens on a fault, and what a plain load or store does), and
    [FaultBackendLaws] what the heap is entitled to: a resolved page has the
    bytes it was given, a page that can be stored to is reported dirty, and a
    fault that nothing resolves is not resumed.

    [PageFaultWin.v] proves these laws of the Windows backend, and [PageFaultMac.v]
    relates the macOS one to it.  The Linux backend does not have the last of them:
    it maps a page of zeros for a fault nobody resolves and resumes the program
    ([page_fault_linux.cpp:333]).  It is modelled on its own in [PageFaultLinux.v],
    and the theorems on the heap that rest on this class are not about it. *)

From S2P Require Import Prelude PageRegions.

Inductive Access := NoPage | ReadOnly | ReadWrite.

#[export] Instance access_eq_dec : EqDecision Access.
Proof. solve_decision. Defined.

(** The two windows on the memory of the process, and a store to it. *)
Class PagedMemory (K : Type) := {
  os_page : Z;
  access_of : K -> Z -> Access;
  byte_at : K -> Z -> byte;
  store_bytes : Z -> list byte -> K -> K;
  os_page_pow2 : exists k, 0 <= k < 64 /\ os_page = 2 ^ k;
  store_access : forall a d k p, access_of (store_bytes a d k) p = access_of k p;
  store_byte : forall a d k x, byte_at (store_bytes a d k) x = default (byte_at k x) (znth d (x - a))
}.

(** [len] bytes from [addr] on. *)
Definition bytes_at {K} `{!PagedMemory K} (k : K) (addr len : Z) : list byte :=
  (fun i => byte_at k (addr + i)) <$> seqZ 0 len.

(** An access by the processor to a page with this protection. *)
Definition allowed (a : Access) (is_write : bool) : bool :=
  match a with
  | NoPage => false
  | ReadOnly => negb is_write
  | ReadWrite => true
  end.

Class IPageFaultBackend (B : Type) := {
  page_size : Z;
  is_supported : B -> bool;
  reserve_region : Z -> M B (Z * Z);
  release_region : Z -> M B unit;
  on_fault : bool -> M B unit;
  resolve_fault : Z -> option (list byte) -> Z -> M B unit;
  is_dirty : Z -> Z -> B -> bool;
  clear_dirty : Z -> Z -> M B unit;
  evict_pages : Z -> Z -> M B bool;
  (* the operating system hands a fault to the backend: the result is [true] when the instruction resumes *)
  dispatch : forall {S : Type} (proj : S -> B) (upd : B -> S -> S) (cb : Z -> bool -> M S unit), Z -> bool -> M S bool;
  (* the processor's view *)
  permits : B -> Z -> bool -> bool;
  mem_byte : B -> Z -> byte;
  mem_store : Z -> byte -> B -> B
}.

Definition mem_bytes {B} `{!IPageFaultBackend B} (b : B) (addr len : Z) : list byte :=
  (fun i => mem_byte b (addr + i)) <$> seqZ 0 len.

(** The rounded-down address of the page that holds [x]. *)
Definition page_of {B} `{!IPageFaultBackend B} (x : Z) : Z := x - x mod page_size.

(** *** What the operations promise

    [fb_page b p]: [None] when the page at [p] has no contents (or is not the
    backend's), [Some d] when it has, with [d] whether it is reported dirty. *)
Class FaultBackendView (B : Type) := {
  fb_ok : B -> Prop;
  fb_region : B -> Z -> Z -> Prop;
  fb_page : B -> Z -> option bool;
  fb_armed : B -> bool;
  fb_resolved : B -> bool
}.

Section view.
Context {B : Type} `{!IPageFaultBackend B} `{!FaultBackendView B}.

(** [addr, addr + len) is a range of whole pages of one region. *)
Record in_region (b : B) (addr len : Z) : Prop := {
  ir_region : exists base n, fb_region b base n /\ base <= addr /\ addr + len <= base + n;
  ir_aligned : addr mod page_size = 0;
  ir_whole : len mod page_size = 0;
  ir_len : 0 < len
}.

(** Only the pages of [lo, lo + len) may have changed. *)
Record fb_frame (lo len : Z) (b b' : B) : Prop := {
  ff_ok : fb_ok b';
  ff_region : forall base n, fb_region b' base n <-> fb_region b base n;
  ff_page : forall p, p mod page_size = 0 -> ~ lo <= p < lo + len -> fb_page b' p = fb_page b p;
  ff_byte : forall x, ~ lo <= page_of x < lo + len -> fb_page b (page_of x) <> None -> mem_byte b' x = mem_byte b x;
  ff_armed : fb_armed b' = fb_armed b
}.

Definition range_pages (lo len : Z) (b : B) (P : option bool -> Prop) : Prop :=
  forall p, p mod page_size = 0 -> lo <= p < lo + len -> P (fb_page b p).

End view.

(** The laws of a backend that leaves a fault unresumed when nothing resolves it:
    Windows and macOS, not Linux. *)
Class FaultBackendLaws (B : Type) `{!IPageFaultBackend B} `{!FaultBackendView B} := {
  page_size_pow2 : exists k, 0 <= k < 64 /\ page_size = 2 ^ k;
  fb_region_bounds : forall b base n, fb_ok b -> fb_region b base n ->
    0 < base /\ 0 < n /\ base + n < U64 /\ base mod page_size = 0 /\ n mod page_size = 0;
  reserve_law : forall b n, fb_ok b -> 0 < n -> n + page_size < U64 ->
    exists base size b', reserve_region n b = (Ret (base, size), b') /\ fb_ok b' /\ fb_armed b' = fb_armed b /\
      ((base = 0 /\ b' = b) \/
       (base <> 0 /\ size = round_up n page_size /\ fb_region b' base size /\ range_pages base size b' (fun d => d = None)));
  release_law : forall b base n, fb_ok b -> fb_region b base n ->
    exists b', release_region base b = (Ret tt, b') /\ fb_ok b' /\ fb_armed b' = fb_armed b /\
      range_pages base n b' (fun d => d = None);
  on_fault_law : forall b cb, fb_ok b -> exists b', on_fault cb b = (Ret tt, b') /\ fb_ok b' /\ fb_armed b' = cb /\
    (forall base n, fb_region b' base n <-> fb_region b base n) /\
    (forall p, fb_page b' p = fb_page b p) /\ (forall x, mem_byte b' x = mem_byte b x);
  resolve_law : forall b addr d, fb_ok b -> in_region b addr (zlen d) -> range_pages addr (zlen d) b (fun d => d = None) ->
    exists b', resolve_fault addr (Some d) (zlen d) b = (Ret tt, b') /\ fb_frame addr (zlen d) b b' /\
      ((fb_resolved b' = true /\ range_pages addr (zlen d) b' (fun d => d <> None) /\ mem_bytes b' addr (zlen d) = d) \/
       (fb_resolved b' = fb_resolved b /\ range_pages addr (zlen d) b' (fun d => d = None)));
  dirty_law : forall b addr n, fb_ok b -> in_region b addr n ->
    is_dirty addr n b = false <-> range_pages addr n b (fun d => d <> Some true);
  clear_law : forall b addr n, fb_ok b -> in_region b addr n -> range_pages addr n b (fun d => d <> None) ->
    exists b', clear_dirty addr n b = (Ret tt, b') /\ fb_frame addr n b b' /\ range_pages addr n b' (fun d => d <> None) /\
      mem_bytes b' addr n = mem_bytes b addr n /\ fb_resolved b' = fb_resolved b;
  evict_law : forall b addr n, fb_ok b -> in_region b addr n ->
    exists ok b', evict_pages addr n b = (Ret ok, b') /\ fb_resolved b' = fb_resolved b /\
      if ok : bool then fb_frame addr n b b' /\ range_pages addr n b' (fun d => d = None)
      else b' = b;
  permits_law : forall b base n x w, fb_ok b -> fb_region b base n -> base <= x < base + n ->
    permits b x w = match fb_page b (page_of x) with
                    | None => false
                    | Some d => negb w || d
                    end;
  store_law : forall b base n x v, fb_ok b -> fb_region b base n -> base <= x < base + n ->
    fb_page b (page_of x) = Some true ->
    fb_ok (mem_store x v b) /\ (forall base n, fb_region (mem_store x v b) base n <-> fb_region b base n) /\
    (forall p, fb_page (mem_store x v b) p = fb_page b p) /\ fb_armed (mem_store x v b) = fb_armed b /\
    (forall y, mem_byte (mem_store x v b) y = if decide (y = x) then v else mem_byte b y);
  promote_law : forall (S : Type) (proj : S -> B) (upd : B -> S -> S) cb base n x s,
    lens proj upd ->
    fb_ok (proj s) -> fb_region (proj s) base n -> base <= x < base + n -> fb_page (proj s) (page_of x) = Some false ->
    exists ok b', dispatch proj upd cb x true s = (Ret ok, if ok : bool then upd b' s else s) /\
      (ok = true -> fb_frame (page_of x) page_size (proj s) b' /\ fb_page b' (page_of x) = Some true /\
        forall y, page_of y = page_of x -> mem_byte b' y = mem_byte (proj s) y);
  fetch_law : forall (S : Type) (N : Prop) (proj : S -> B) (upd : B -> S -> S) cb base n x w s (Q : bool -> S -> Prop) E,
    lens proj upd ->
    fb_ok (proj s) -> fb_region (proj s) base n -> base <= x < base + n -> fb_page (proj s) (page_of x) = None ->
    fb_armed (proj s) = true ->
    (forall w' b1, fb_frame 0 0 (proj s) b1 -> fb_resolved b1 = false ->
      wpx N (cb x w') (fun _ s' => fb_ok (proj s') /\
        forall b2, fb_frame 0 0 (proj s') b2 -> Q (fb_resolved (proj s')) (upd b2 s')) E (upd b1 s)) ->
    wpx N (dispatch proj upd cb x w) Q E s
}.
