(* ===== verification/PageFaultWin.v ===== *)
(** * The Windows page-fault backend (platform/src/windows/page_fault_win.cpp)

    A reserved region starts with no page committed.  Touching it raises an
    access violation, which [VectoredHandler] answers on the faulting thread: it
    calls the client's handler, which calls [resolve_fault].  A load leaves the
    page read-only, so that the next store faults again and marks it dirty.

    [WinVM] is the part of the Windows memory manager the code calls, with its
    documented behaviour.  A call that fails changes nothing. *)

From S2P Require Import Prelude PageRegions FaultBackend.

(** Per-page residency and dirty state. *)
Inductive PageState := ABSENT | RESIDENT | DIRTY.

#[export] Instance page_state_eq_dec : EqDecision PageState.
Proof. solve_decision. Defined.

Definition present (s : PageState) : bool := match s with ABSENT => false | _ => true end.

(** What the handler returns to Windows. *)
Inductive Disposition := EXCEPTION_CONTINUE_SEARCH | EXCEPTION_CONTINUE_EXECUTION.

(** Memory of [k] outside [lo, lo + n) is that of [k'], and reservations are the same. *)
Class WinVM (K : Type) `{!PagedMemory K} := {
  reservation : K -> Z -> option Z;         (* the size of the reservation with this base *)
  vm_reserve : Z -> K -> Z * K;             (* VirtualAlloc(nullptr, n, MEM_RESERVE, PAGE_NOACCESS) *)
  vm_commit : Z -> Z -> K -> bool * K;      (* VirtualAlloc(a, n, MEM_COMMIT, PAGE_READWRITE) *)
  vm_protect : Z -> Z -> Access -> K -> bool * K;   (* VirtualProtect(a, n, ..., &old) *)
  vm_decommit : Z -> Z -> K -> bool * K;    (* VirtualFree(a, n, MEM_DECOMMIT) *)
  vm_release : Z -> K -> K;                 (* VirtualFree(a, 0, MEM_RELEASE) *)
  store_reservation : forall a d k p, reservation (store_bytes a d k) p = reservation k p;
  vm_reserve_ok : forall n k b k', vm_reserve n k = (b, k') -> b <> 0 ->
    0 < n /\ 0 < b /\ b + n < U64 /\ b mod os_page = 0 /\
    (forall b' n', reservation k b' = Some n' -> b + n <= b' \/ b' + n' <= b) /\
    (forall p, p mod os_page = 0 -> access_of k' p = (if decide (b <= p < b + n) then NoPage else access_of k p)) /\
    (forall x, ~ b <= x < b + n -> byte_at k' x = byte_at k x) /\
    (forall p, reservation k' p = if decide (p = b) then Some n else reservation k p);
  vm_reserve_fails : forall n k k', vm_reserve n k = (0, k') -> k' = k;
  vm_commit_ok : forall a n k k', vm_commit a n k = (true, k') ->
    (forall p, p mod os_page = 0 -> access_of k' p = (if decide (a <= p < a + n) then ReadWrite else access_of k p)) /\
    (forall x, ~ a <= x < a + n -> byte_at k' x = byte_at k x) /\
    (forall p x, p mod os_page = 0 -> a <= p < a + n -> access_of k p <> NoPage -> p <= x < p + os_page ->
      byte_at k' x = byte_at k x) /\
    (forall p, reservation k' p = reservation k p);
  vm_commit_fails : forall a n k k', vm_commit a n k = (false, k') -> k' = k;
  vm_protect_ok : forall a n pr k k', vm_protect a n pr k = (true, k') ->
    (forall p, p mod os_page = 0 -> access_of k' p = (if decide (a <= p < a + n) then pr else access_of k p)) /\
    (forall x, byte_at k' x = byte_at k x) /\
    (forall p, reservation k' p = reservation k p);
  vm_protect_fails : forall a n pr k k', vm_protect a n pr k = (false, k') -> k' = k;
  vm_decommit_ok : forall a n k k', vm_decommit a n k = (true, k') ->
    (forall p, p mod os_page = 0 -> access_of k' p = (if decide (a <= p < a + n) then NoPage else access_of k p)) /\
    (forall x, ~ a <= x < a + n -> byte_at k' x = byte_at k x) /\
    (forall p, reservation k' p = reservation k p);
  vm_decommit_fails : forall a n k k', vm_decommit a n k = (false, k') -> k' = k;
  vm_release_ok : forall a n k, reservation k a = Some n ->
    (forall p, p mod os_page = 0 -> ~ a <= p < a + n -> access_of (vm_release a k) p = access_of k p) /\
    (forall x, ~ a <= x < a + n -> byte_at (vm_release a k) x = byte_at k x) /\
    (forall p, reservation (vm_release a k) p = if decide (p = a) then None else reservation k p)
}.

Section backend.
Context {K : Type} `{!PagedMemory K} `{!WinVM K}.

(** The object, with the thread-local flags of the faulting thread and the memory. *)
Record PageFaultBackendWin := mkWin {
  veh_handle_ : bool;
  table_ : Table PageState;
  fault_handler_ : bool;
  in_write_fault_ : bool;
  resolved_ : bool;
  vm : K
}.

Definition set_vm (k : K) (b : PageFaultBackendWin) : PageFaultBackendWin :=
  mkWin (veh_handle_ b) (table_ b) (fault_handler_ b) (in_write_fault_ b) (resolved_ b) k.
Definition set_table (t : Table PageState) (b : PageFaultBackendWin) : PageFaultBackendWin :=
  mkWin (veh_handle_ b) t (fault_handler_ b) (in_write_fault_ b) (resolved_ b) (vm b).
Definition set_flags (w r : bool) (b : PageFaultBackendWin) : PageFaultBackendWin :=
  mkWin (veh_handle_ b) (table_ b) (fault_handler_ b) w r (vm b).

Definition on_vm {A} (f : K -> A * K) : M PageFaultBackendWin A :=
  fun b => let '(a, k) := f (vm b) in (Ret a, set_vm k b).
Definition on_table (f : Table PageState -> Table PageState) : M PageFaultBackendWin unit :=
  fun b => (Ret tt, set_table (f (table_ b)) b).

(** The constructor: [installed] is whether [AddVectoredExceptionHandler] gave a handle. *)
Definition PageFaultBackendWin_new (installed : bool) (k : K) : PageFaultBackendWin :=
  mkWin installed (mkTable ∅ 0) false false false k.

Definition win_reserve_region (bytes : Z) : M PageFaultBackendWin (Z * Z) :=
  if bytes =? 0 then ret (0, 0)
  else
    let rounded := round_up bytes os_page in
    let! addr := on_vm (vm_reserve rounded) in
    if addr =? 0 then ret (0, 0)
    else
      do! on_table (emplace_region addr (mkRegion rounded (replicate (Z.to_nat (rounded / os_page)) ABSENT))) in
      ret (addr, rounded).

Definition win_release_region (addr : Z) : M PageFaultBackendWin unit :=
  let! b := get in
  match regions_ (table_ b) !! addr with
  | None => ret tt
  | Some r =>
      do! on_table (erase_region present addr r) in
      on_vm (fun k => (tt, vm_release addr k))
  end.

(** The destructor releases every region that is left. *)
Fixpoint release_all (bases : list Z) : M PageFaultBackendWin unit :=
  match bases with
  | [] => ret tt
  | base :: bases => do! win_release_region base in release_all bases
  end.

Definition PageFaultBackendWin_delete : M PageFaultBackendWin unit :=
  let! b := get in
  do! put (mkWin false (table_ b) (fault_handler_ b) (in_write_fault_ b) (resolved_ b) (vm b)) in
  release_all (map_to_list (regions_ (table_ b))).*1.

Definition win_on_fault (cb : bool) : M PageFaultBackendWin unit :=
  let! b := get in
  put (mkWin (veh_handle_ b) (table_ b) cb (in_write_fault_ b) (resolved_ b) (vm b)).

(** The function [set_states] applies to each page. *)
Definition set_state (st : PageState) (s : PageState) (n : Z) : PageState * Z :=
  (st, if negb (present s) && present st then u64 (n + 1) else n).

Definition set_states (addr len : Z) (st : PageState) : M PageFaultBackendWin unit :=
  on_table (for_each_page os_page (set_state st) addr len).

Definition mark_resolved : M PageFaultBackendWin unit :=
  let! b := get in put (set_flags (in_write_fault_ b) true b).

Definition win_resolve_fault (addr : Z) (data : option (list byte)) (len : Z) : M PageFaultBackendWin unit :=
  if addr =? 0 then ret tt
  else
    let page := page_base os_page addr in
    let span := u64 (offset_in_page os_page addr + len) in
    let total := round_up (if span =? 0 then os_page else span) os_page in
    let! committed := on_vm (vm_commit page total) in
    if negb committed then ret tt
    else
      do! on_vm (fun k => (tt, match data with
                               | Some d => store_bytes addr (slice 0 len d) k
                               | None => store_bytes page (replicate (Z.to_nat total) x00) k
                               end)) in
      let! b := get in
      let write_fault := in_write_fault_ b in
      let state := if write_fault then DIRTY else RESIDENT in
      let! protected := (if write_fault then ret true else on_vm (vm_protect page total ReadOnly)) in
      if negb protected then do! set_states page total DIRTY in mark_resolved
      else do! set_states page total state in mark_resolved.

Definition win_is_dirty (addr len : Z) (b : PageFaultBackendWin) : bool :=
  for_each_page_const os_page (fun s => bool_decide (s = DIRTY)) addr len (table_ b).

Definition clean_state (s : PageState) (n : Z) : PageState * Z :=
  ((if decide (s = DIRTY) then RESIDENT else s), n).

Definition win_clear_dirty (addr len : Z) : M PageFaultBackendWin unit :=
  let page := page_base os_page addr in
  let total := round_up (u64 (offset_in_page os_page addr + len)) os_page in
  let! protected := on_vm (vm_protect page total ReadOnly) in
  if negb protected then ret tt
  else on_table (for_each_page os_page clean_state page total).

Definition drop_state (s : PageState) (n : Z) : PageState * Z :=
  (ABSENT, if present s then u64 (n - 1) else n).

Definition win_evict_pages (addr len : Z) : M PageFaultBackendWin bool :=
  let page := page_base os_page addr in
  let total := round_up (u64 (offset_in_page os_page addr + len)) os_page in
  if total =? 0 then ret true
  else
    let! freed := on_vm (vm_decommit page total) in
    if negb freed then ret false
    else do! on_table (for_each_page os_page drop_state page total) in ret true.

(** [VectoredHandler], run for the backend inside a larger state [S]: the
    callback can reach the backend, and everything else. *)
Section handler.
Context {S : Type} (proj : S -> PageFaultBackendWin) (upd : PageFaultBackendWin -> S -> S).
Context (handler : Z -> bool -> M S unit).

Definition call_handler (fault_addr : Z) (is_write : bool) : M S Disposition :=
  let! s := get in
  let saved_write := in_write_fault_ (proj s) in
  let saved_resolved := resolved_ (proj s) in
  do! put (upd (set_flags is_write false (proj s)) s) in
  do! handler fault_addr is_write in
  let! s := get in
  let resolved := resolved_ (proj s) in
  do! put (upd (set_flags saved_write saved_resolved (proj s)) s) in
  if negb resolved then ret EXCEPTION_CONTINUE_SEARCH else ret EXCEPTION_CONTINUE_EXECUTION.

Definition VectoredHandler (access_violation : bool) (info0 info1 : Z) : M S Disposition :=
  if negb access_violation then ret EXCEPTION_CONTINUE_SEARCH
  else
    let is_write := info0 =? 1 in
    let! s := get in
    match state_at os_page info1 (table_ (proj s)) with
    | None => ret EXCEPTION_CONTINUE_SEARCH
    | Some state =>
        if decide (state = ABSENT) then
          if negb (fault_handler_ (proj s)) then ret EXCEPTION_CONTINUE_SEARCH
          else call_handler info1 is_write
        else if negb is_write then ret EXCEPTION_CONTINUE_SEARCH
        else
          let page := page_base os_page info1 in
          let! ok := zoom proj upd (on_vm (vm_protect page os_page ReadWrite)) in
          if negb ok then ret EXCEPTION_CONTINUE_SEARCH
          else
            do! zoom proj upd (set_states page os_page DIRTY) in
            ret EXCEPTION_CONTINUE_EXECUTION
    end.
End handler.
End backend.
Arguments PageFaultBackendWin : clear implicits.

(** ** The invariant *)

Section facts.
Context {K : Type} `{!PagedMemory K} `{!WinVM K}.
Implicit Types (b : PageFaultBackendWin K) (k : K).

(** The protection that goes with each state: a page that can be stored to is DIRTY. *)
Definition access_for (s : PageState) : Access :=
  match s with ABSENT => NoPage | RESIDENT => ReadOnly | DIRTY => ReadWrite end.

Record win_ok b : Prop := {
  wk_table : table_wf os_page present (table_ b);
  wk_access : forall p s, p mod os_page = 0 -> state_at os_page p (table_ b) = Some s ->
    access_of (vm b) p = access_for s;
  wk_reserved : forall base r, regions_ (table_ b) !! base = Some r -> reservation (vm b) base = Some (region_size r)
}.

Definition win_region b base n : Prop := region_size <$> (regions_ (table_ b) !! base) = Some n.

Definition win_page b p : option bool :=
  match state_at os_page p (table_ b) with
  | Some RESIDENT => Some false
  | Some DIRTY => Some true
  | _ => None
  end.

Definition win_dispatch {S} (proj : S -> PageFaultBackendWin K) (upd : PageFaultBackendWin K -> S -> S)
    (cb : Z -> bool -> M S unit) (x : Z) (w : bool) : M S bool :=
  let! d := VectoredHandler proj upd cb true (if w then 1 else 0) x in
  ret (match d with EXCEPTION_CONTINUE_EXECUTION => true | EXCEPTION_CONTINUE_SEARCH => false end).

#[global] Instance win_backend : IPageFaultBackend (PageFaultBackendWin K) := {|
  page_size := os_page;
  is_supported b := veh_handle_ b;
  reserve_region := win_reserve_region;
  release_region := win_release_region;
  on_fault := win_on_fault;
  resolve_fault := win_resolve_fault;
  is_dirty := win_is_dirty;
  clear_dirty := win_clear_dirty;
  evict_pages := win_evict_pages;
  dispatch := fun S => @win_dispatch S;
  permits b x w := allowed (access_of (vm b) (x - x mod os_page)) w;
  mem_byte b x := byte_at (vm b) x;
  mem_store x v b := set_vm (store_bytes x [v] (vm b)) b
|}.

#[global] Instance win_view : FaultBackendView (PageFaultBackendWin K) := {|
  fb_ok := win_ok;
  fb_region := win_region;
  fb_page := win_page;
  fb_armed := fault_handler_;
  fb_resolved := resolved_
|}.

Abbreviation Hps := os_page_pow2.

Lemma win_region_bounds b base n : win_ok b -> win_region b base n ->
  0 < base /\ 0 < n /\ base + n < U64 /\ base mod os_page = 0 /\ n mod os_page = 0.
Proof.
  intros [Ht _ _]. unfold win_region. destruct (regions_ (table_ b) !! base) as [r|] eqn:E; [|done].
  cbn. intros [= <-]. destruct (tw_region _ _ _ Ht _ _ E). done.
Qed.

(** A page of a region has a state. *)
Lemma win_state b base n p : win_ok b -> win_region b base n -> base <= p < base + n ->
  exists s, state_at os_page p (table_ b) = Some s.
Proof.
  intros [Ht _ _]. unfold win_region. destruct (regions_ (table_ b) !! base) as [r|] eqn:E; [|done].
  cbn. intros [= <-] Hin. by destruct (state_at_region os_page present Hps _ _ _ _ Ht E Hin) as [_ [s ?]]; exists s.
Qed.

(** Every operation changes the protection of a range of whole pages and their
    states accordingly. *)
Lemma win_step b b' k' fn f lo len :
  win_ok b -> lo mod os_page = 0 -> len mod os_page = 0 -> 0 <= lo -> 0 <= len -> lo + len < U64 -> page_fn present fn f ->
  (forall p s, p mod os_page = 0 -> state_at os_page p (table_ b) = Some s ->
    access_of k' p = if decide (lo <= p < lo + len) then access_for (f s) else access_of (vm b) p) ->
  (forall p, reservation k' p = reservation (vm b) p) ->
  (forall x, ~ lo <= x < lo + len -> byte_at k' x = byte_at (vm b) x) ->
  table_ b' = for_each_page os_page fn lo len (table_ b) -> vm b' = k' -> fault_handler_ b' = fault_handler_ b ->
  fb_frame lo len b b' /\
  (forall p, p mod os_page = 0 -> lo <= p < lo + len -> state_at os_page p (table_ b') = f <$> state_at os_page p (table_ b)).
Proof.
  intros Hok Hlo Hlen H0 Hl Hend Hfn Hacc Hres Hbyte Ht Hv Ha. pose proof Hok as [Hwf Hwa Hwr].
  destruct (for_each_page_spec os_page present Hps fn f lo len (table_ b)) as (Hwf' & Hst & Hsz); try done; [lia|].
  rewrite <- Ht in Hwf', Hst, Hsz. split.
  - split; cbn [fb_ok fb_region fb_page fb_armed win_view mem_byte win_backend].
    + split; [done| |].
      * intros p s Hp. rewrite Hst, Hv by done. destruct (state_at os_page p (table_ b)) as [s0|] eqn:E.
        2:{ by destruct (decide _). }
        rewrite (Hacc p s0 Hp E). destruct (decide (lo <= p < lo + len)); cbn.
        -- by intros [= <-].
        -- intros [= <-]. by apply Hwa.
      * intros base r Hr. rewrite Hv, Hres. pose proof (Hsz base) as Hs. rewrite Hr in Hs.
        destruct (regions_ (table_ b) !! base) as [r0|] eqn:E; [|done]. injection Hs as ->. by apply Hwr.
    + intros base n. unfold win_region. by rewrite Hsz.
    + intros p Hp Hout. unfold win_page. rewrite Hst by done. by rewrite decide_False.
    + intros x Hout _. rewrite Hv. apply Hbyte. intros Hin. apply Hout.
      apply (range_multiple os_page Hps); done.
    + done.
  - intros p Hp Hin. rewrite Hst by done. by rewrite decide_True.
Qed.

(** Nothing changes when only the thread's flags do. *)
Lemma win_flags b w r : win_ok b -> fb_frame 0 0 b (set_flags w r b).
Proof. intros []. by split. Qed.

Lemma win_in_region b addr n : win_ok b -> in_region b addr n ->
  0 < addr /\ addr + n < U64 /\ page_base os_page addr = addr /\ offset_in_page os_page addr = 0 /\
  addr mod os_page = 0 /\ n mod os_page = 0 /\ 0 < n /\
  forall p, addr <= p < addr + n -> exists s, state_at os_page p (table_ b) = Some s.
Proof.
  intros Hok [(base & m & Hr & H1 & H2) Hal Hw Hn].
  destruct (win_region_bounds _ _ _ Hok Hr) as (? & ? & ? & _ & _).
  destruct (page_base_aligned os_page Hps addr) as [-> ->]; [lia|done|]. split; [lia|]. split; [lia|].
  split; [done|]. split; [done|]. split; [done|]. split; [done|]. split; [done|]. intros p Hp. eapply win_state; [done..|]. lia.
Qed.

Lemma set_state_fn st : st <> ABSENT -> page_fn present (set_state st) (fun _ => st).
Proof.
  intros Hst s n. unfold set_state. destruct s, st; try done; cbn -[u64 Z.add Z.sub]; f_equal; unfold u64;
    rewrite ?Zplus_mod_idemp_l; f_equal; lia.
Qed.

Lemma clean_state_fn : page_fn present clean_state (fun s => if decide (s = DIRTY) then RESIDENT else s).
Proof. intros s n. unfold clean_state. f_equal. destruct s; case_decide; try done; cbn -[u64 Z.add Z.sub]; f_equal; lia. Qed.

Lemma drop_state_fn : page_fn present drop_state (fun _ => ABSENT).
Proof.
  intros s n. unfold drop_state. destruct s; cbn -[u64 Z.add Z.sub]; f_equal; unfold u64; rewrite ?Zminus_mod_idemp_l; f_equal; lia.
Qed.

Lemma total_whole n : 0 < n -> n + os_page < U64 -> n mod os_page = 0 ->
  round_up (if u64 (0 + n) =? 0 then os_page else u64 (0 + n)) os_page = n.
Proof.
  intros Hn Hlt Hm. pose proof (ps_pos os_page Hps). rewrite Z.add_0_l, u64_small by lia.
  rewrite (proj2 (Z.eqb_neq n 0)) by lia. apply (round_up_whole os_page Hps); (done || lia).
Qed.

Lemma total_whole' n : 0 < n -> n + os_page < U64 -> n mod os_page = 0 -> round_up (u64 (0 + n)) os_page = n.
Proof.
  intros Hn Hlt Hm. pose proof (ps_pos os_page Hps). rewrite Z.add_0_l, u64_small by lia.
  apply (round_up_whole os_page Hps); (done || lia).
Qed.

(** The last page of a region ends below the top of the address space by a page. *)
Lemma region_room a n : a mod os_page = 0 -> n mod os_page = 0 -> 0 < a -> 0 < n -> a + n < U64 -> n + os_page < U64.
Proof.
  intros Ha Hn H0 H1 Hlt. pose proof (ps_pos os_page Hps). destruct (Z.le_gt_cases os_page a); [lia|].
  rewrite Z.mod_small in Ha; lia.
Qed.

Lemma bytes_stored k addr d : bytes_at (store_bytes addr d k) addr (zlen d) = d.
Proof.
  unfold bytes_at, zlen. apply list_eq. intros i. rewrite list_lookup_fmap.
  destruct (decide (i < length d)%nat) as [Hi|Hi].
  - rewrite lookup_seqZ_lt by lia. cbn. destruct (lookup_lt_is_Some_2 d i Hi) as [v Hv]. rewrite Hv. f_equal.
    rewrite store_byte. replace (addr + (0 + Z.of_nat i) - addr) with (Z.of_nat i) by lia.
    rewrite znth_lookup, Nat2Z.id, Hv by lia. done.
  - rewrite lookup_seqZ_ge by lia. rewrite lookup_ge_None_2 by lia. done.
Qed.

Lemma bytes_at_ext k k' addr n : (forall x, addr <= x < addr + n -> byte_at k' x = byte_at k x) ->
  bytes_at k' addr n = bytes_at k addr n.
Proof.
  intros H. unfold bytes_at. apply list_fmap_ext. intros i x Hx. apply lookup_seqZ in Hx. apply H. lia.
Qed.

Lemma store_outside k a d x : ~ a <= x < a + zlen d -> byte_at (store_bytes a d k) x = byte_at k x.
Proof.
  intros H. rewrite store_byte. destruct (znth d (x - a)) as [v|] eqn:E; [|done].
  apply znth_Some in E. lia.
Qed.

Definition resolved_as (b : PageFaultBackendWin K) addr n st k : PageFaultBackendWin K :=
  mkWin (veh_handle_ b) (for_each_page os_page (set_state st) addr n (table_ b)) (fault_handler_ b)
    (in_write_fault_ b) true k.

Lemma win_resolve_run b addr d : win_ok b -> in_region b addr (zlen d) ->
  win_resolve_fault addr (Some d) (zlen d) b = (Ret tt,
    let n := zlen d in
    match vm_commit addr n (vm b) with
    | (false, k) => set_vm k b
    | (true, k) =>
        let k := store_bytes addr d k in
        if in_write_fault_ b then resolved_as b addr n DIRTY k
        else match vm_protect addr n ReadOnly k with
             | (true, k) => resolved_as b addr n RESIDENT k
             | (false, k) => resolved_as b addr n DIRTY k
             end
    end).
Proof.
  intros Hok Hin. destruct (win_in_region _ _ _ Hok Hin) as (H0 & Hend & Hpb & Hoff & Hal & Hw & Hn & _).
  unfold win_resolve_fault. rewrite (proj2 (Z.eqb_neq addr 0)), Hpb, Hoff by lia.
  rewrite total_whole by (done || by apply (region_room addr)). cbv zeta.
  unfold bind, on_vm. destruct (vm_commit addr (zlen d) (vm b)) as [[|] k]; [|done]. cbn [negb].
  rewrite slice_full. unfold get. cbn [set_vm vm in_write_fault_].
  destruct (in_write_fault_ b); [done|]. cbn [ret]. destruct (vm_protect _ _ _ _) as [[|] k2]; done.
Qed.

Lemma win_resolved b addr d st k : st <> ABSENT -> win_ok b -> in_region b addr (zlen d) ->
  (forall p s, p mod os_page = 0 -> state_at os_page p (table_ b) = Some s ->
    access_of k p = if decide (addr <= p < addr + zlen d) then access_for st else access_of (vm b) p) ->
  (forall p, reservation k p = reservation (vm b) p) ->
  (forall x, ~ addr <= x < addr + zlen d -> byte_at k x = byte_at (vm b) x) ->
  bytes_at k addr (zlen d) = d ->
  let b' := resolved_as b addr (zlen d) st k in
  fb_frame addr (zlen d) b b' /\ fb_resolved b' = true /\ range_pages addr (zlen d) b' (fun d => d <> None) /\ mem_bytes b' addr (zlen d) = d.
Proof.
  intros Hst Hok Hin Hacc Hres Hbyte Hd b'. destruct (win_in_region _ _ _ Hok Hin) as (H0 & Hend & _ & _ & Hal & Hw & Hn & Hs).
  destruct (win_step b b' k (set_state st) (fun _ => st) addr (zlen d)) as [Hf Hp]; try done; [lia|lia|by apply set_state_fn|].
  split; [done|]. split; [done|]. split; [|done]. intros p Hpm Hpr. cbn. unfold win_page. rewrite Hp by done.
  destruct (Hs p Hpr) as [s ->]. cbn. by destruct st.
Qed.

Lemma win_resolve_law b addr d : win_ok b -> in_region b addr (zlen d) -> range_pages addr (zlen d) b (fun d => d = None) ->
  exists b', win_resolve_fault addr (Some d) (zlen d) b = (Ret tt, b') /\ fb_frame addr (zlen d) b b' /\
    ((fb_resolved b' = true /\ range_pages addr (zlen d) b' (fun d => d <> None) /\ mem_bytes b' addr (zlen d) = d) \/
     (fb_resolved b' = fb_resolved b /\ range_pages addr (zlen d) b' (fun d => d = None))).
Proof.
  intros Hok Hin Habs. pose proof (win_in_region _ _ _ Hok Hin) as (H0 & Hend & _ & _ & Hal & Hw & Hn & _).
  eexists. split; [by apply win_resolve_run|]. cbv zeta.
  destruct (vm_commit addr (zlen d) (vm b)) as [[|] k] eqn:Ec.
  2:{ apply vm_commit_fails in Ec as ->. destruct b. split; [by split|]. by right. }
  apply vm_commit_ok in Ec as (Hacc & Hbyte & _ & Hres).
  assert (Hb1 : forall x, ~ addr <= x < addr + zlen d -> byte_at (store_bytes addr d k) x = byte_at (vm b) x).
  { intros x Hx. rewrite store_outside by done. by apply Hbyte. }
  destruct (in_write_fault_ b).
  { destruct (win_resolved b addr d DIRTY (store_bytes addr d k)) as [Hf Hr]; try done.
    - intros p s Hp _. rewrite store_access. by apply Hacc.
    - intros p. by rewrite store_reservation.
    - apply bytes_stored.
    - split; [done|]. by left. }
  destruct (vm_protect addr (zlen d) ReadOnly (store_bytes addr d k)) as [[|] k2] eqn:Ep.
  - apply vm_protect_ok in Ep as (Hacc2 & Hbyte2 & Hres2).
    destruct (win_resolved b addr d RESIDENT k2) as [Hf Hr]; try done.
    + intros p s Hp _. rewrite Hacc2, store_access, Hacc by done. by destruct (decide _).
    + intros p. by rewrite Hres2, store_reservation.
    + intros x Hx. by rewrite Hbyte2, Hb1.
    + rewrite <- (bytes_stored k addr d) at 2. by apply bytes_at_ext.
    + split; [done|]. by left.
  - apply vm_protect_fails in Ep as ->.
    destruct (win_resolved b addr d DIRTY (store_bytes addr d k)) as [Hf Hr]; try done.
    + intros p s Hp _. rewrite store_access. by apply Hacc.
    + intros p. by rewrite store_reservation.
    + apply bytes_stored.
    + split; [done|]. by left.
Qed.

Lemma win_reserve_law b n : win_ok b -> 0 < n -> n + os_page < U64 ->
  exists base size b', win_reserve_region n b = (Ret (base, size), b') /\ win_ok b' /\ fault_handler_ b' = fault_handler_ b /\
    ((base = 0 /\ b' = b) \/
     (base <> 0 /\ size = round_up n os_page /\ win_region b' base size /\ range_pages base size b' (fun d => d = None))).
Proof.
  intros Hok Hn Hlt. pose proof Hok as [Hwf Hwa Hwr]. pose proof (ps_pos os_page Hps) as Hp.
  destruct (round_up_spec os_page Hps n) as [Hb Hm]; [lia|lia|]. set (size := round_up n os_page) in *.
  unfold win_reserve_region. rewrite (proj2 (Z.eqb_neq n 0)) by lia. fold size. unfold bind, on_vm.
  destruct (vm_reserve size (vm b)) as [a k] eqn:E. destruct (Z.eqb_spec a 0) as [->|Hne].
  { apply vm_reserve_fails in E as ->. exists 0, 0, b. destruct b. split; [done|]. split; [done|]. split; [done|]. by left. }
  apply vm_reserve_ok in E as (H0 & Ha & Hend & Hal & Hfresh & Hacc & Hbyte & Hres); [|done].
  set (b1 := set_vm k b). exists a, size. eexists. split; [done|].
  destruct (emplace_fresh os_page present Hps a size ABSENT (table_ b)) as (Hwf' & Hst & Hnone & Hsz); try done.
  { intros b' r Hr. apply Hfresh. by apply Hwr. }
  subst b1. cbn [on_table set_table set_vm table_ vm fault_handler_ fst snd]. split; [|split; [done|right; split; [done|]; split; [done|]; split]].
  - split; cbn [table_ vm].
    + done.
    + intros p s Hpm. rewrite Hst. rewrite Hacc by done. case_decide.
      * by intros [= <-].
      * by apply Hwa.
    + intros b' r Hr. rewrite Hres. pose proof (Hsz b') as Hs. cbn [table_ set_table set_vm] in Hr.
      rewrite Hr in Hs. cbn in Hs. case_decide; [congruence|].
      destruct (regions_ (table_ b) !! b') as [r0|] eqn:E0; [|done]. injection Hs as ->. by apply Hwr.
  - unfold win_region. cbn [table_]. rewrite Hsz. by rewrite decide_True.
  - intros p Hpm Hin. cbn. unfold win_page. cbn [table_]. rewrite Hst. by rewrite decide_True.
Qed.

Lemma win_release_law b base n : win_ok b -> win_region b base n ->
  exists b', win_release_region base b = (Ret tt, b') /\ win_ok b' /\ fault_handler_ b' = fault_handler_ b /\
    range_pages base n b' (fun d => d = None).
Proof.
  intros Hok Hr. pose proof Hok as [Hwf Hwa Hwr]. pose proof Hr as Hr'. unfold win_region in Hr'.
  destruct (regions_ (table_ b) !! base) as [r|] eqn:E; [|done]. injection Hr' as <-.
  unfold win_release_region. rewrite bind_get, E. eexists. split; [done|].
  destruct (erase_region_spec os_page present Hps base r (table_ b) Hwf E) as [Hwf' Hst].
  destruct (vm_release_ok base (region_size r) (vm b) (Hwr _ _ E)) as (Hacc & _ & Hres).
  cbn [on_table on_vm set_table set_vm table_ vm fault_handler_ bind]. split; [|split; [done|]].
  - split; cbn [table_ vm]; [done| |].
    + intros p s Hp. rewrite Hst. case_decide as Hin; [done|]. intros Hs. rewrite Hacc by done. by apply Hwa.
    + intros b' r' Hb'. cbn in Hb'. apply lookup_delete_Some in Hb' as [Hne Hb']. rewrite Hres, decide_False by done. by apply Hwr.
  - intros p Hp Hin. cbn. unfold win_page. cbn [table_]. rewrite Hst. by rewrite decide_True.
Qed.

Lemma win_dirty_law b addr n : win_ok b -> in_region b addr n ->
  win_is_dirty addr n b = false <-> range_pages addr n b (fun d => d <> Some true).
Proof.
  intros Hok Hin. destruct (win_in_region _ _ _ Hok Hin) as (H0 & Hend & _ & _ & Hal & Hw & Hn & Hs).
  pose proof (for_each_page_const_spec os_page present Hps (fun s => bool_decide (s = DIRTY)) addr n (table_ b)
    (wk_table _ Hok) Hal ltac:(lia) ltac:(lia) Hw Hend (region_room addr n Hal Hw H0 Hn Hend)) as Hq.
  unfold win_is_dirty. rewrite <- not_true_iff_false, Hq. split.
  - intros Hno p Hp Hpr Hd. apply Hno. cbn in Hd. unfold win_page in Hd.
    destruct (state_at os_page p (table_ b)) as [[]|] eqn:E; try done. by exists p, DIRTY.
  - intros Hall (p & s & Hp & Hpr & Hst & Hd%bool_decide_eq_true). subst s. apply (Hall p Hp Hpr).
    cbn. unfold win_page. by rewrite Hst.
Qed.

Lemma win_clear_law b addr n : win_ok b -> in_region b addr n -> range_pages addr n b (fun d => d <> None) ->
  exists b', win_clear_dirty addr n b = (Ret tt, b') /\ fb_frame addr n b b' /\ range_pages addr n b' (fun d => d <> None) /\
    mem_bytes b' addr n = mem_bytes b addr n /\ fb_resolved b' = fb_resolved b.
Proof.
  intros Hok Hin Hpr. destruct (win_in_region _ _ _ Hok Hin) as (H0 & Hend & Hpb & Hoff & Hal & Hw & Hn & Hs).
  unfold win_clear_dirty. rewrite Hpb, Hoff, total_whole' by (done || by apply (region_room addr)). cbv zeta.
  unfold bind, on_vm. destruct (vm_protect addr n ReadOnly (vm b)) as [[|] k] eqn:E; cbn [negb].
  2:{ apply vm_protect_fails in E as ->. exists b. destruct b. split; [done|]. split; [by split|]. done. }
  apply vm_protect_ok in E as (Hacc & Hbyte & Hres). eexists. split; [done|].
  set (b' := set_table _ _).
  destruct (win_step b b' k clean_state (fun s => if decide (s = DIRTY) then RESIDENT else s) addr n) as [Hf Hp];
    try done; [lia|lia|apply clean_state_fn| |].
  - intros p s Hp Hst. rewrite Hacc by done. case_decide as Hi; [|done].
    specialize (Hpr p Hp Hi). cbn in Hpr. unfold win_page in Hpr. rewrite Hst in Hpr. by destruct s.
  - split; [done|]. split; [|split; [by apply bytes_at_ext|done]].
    intros p Hpm Hi. cbn. unfold win_page. rewrite Hp by done. specialize (Hpr p Hpm Hi). cbn in Hpr. unfold win_page in Hpr.
    destruct (state_at os_page p (table_ b)) as [[]|]; done.
Qed.

Lemma win_evict_law b addr n : win_ok b -> in_region b addr n ->
  exists ok b', win_evict_pages addr n b = (Ret ok, b') /\ fb_resolved b' = fb_resolved b /\
    if ok : bool then fb_frame addr n b b' /\ range_pages addr n b' (fun d => d = None)
    else b' = b.
Proof.
  intros Hok Hin. destruct (win_in_region _ _ _ Hok Hin) as (H0 & Hend & Hpb & Hoff & Hal & Hw & Hn & Hs).
  unfold win_evict_pages. rewrite Hpb, Hoff, total_whole' by (done || by apply (region_room addr)).
  rewrite (proj2 (Z.eqb_neq n 0)) by lia. cbv zeta. unfold bind, on_vm.
  destruct (vm_decommit addr n (vm b)) as [[|] k] eqn:E; cbn [negb].
  2:{ apply vm_decommit_fails in E as ->. exists false, b. by destruct b. }
  apply vm_decommit_ok in E as (Hacc & Hbyte & Hres). exists true. eexists. split; [done|]. split; [done|].
  set (b' := set_table _ _).
  destruct (win_step b b' k drop_state (fun _ => ABSENT) addr n) as [Hf Hp]; try done; [lia|lia|apply drop_state_fn| |].
  - intros p s Hp Hst. rewrite Hacc by done. by case_decide.
  - split; [done|]. intros p Hpm Hi. cbn. unfold win_page. rewrite Hp by done. by destruct (Hs p Hi) as [s ->].
Qed.

(** The processor lets a store through exactly where the page is reported dirty. *)
Lemma win_permits_law b base n x w : win_ok b -> win_region b base n -> base <= x < base + n ->
  permits b x w = match win_page b (page_of x) with None => false | Some d => negb w || d end.
Proof.
  intros Hok Hr Hx. pose proof (win_region_bounds _ _ _ Hok Hr) as (? & ? & ? & Hb & Hm).
  cbn. unfold win_page, page_of. cbn [page_size win_backend].
  assert (Hin : base <= x - x mod os_page < base + n) by by apply (range_multiple os_page Hps).
  destruct (win_state _ _ _ _ Hok Hr Hin) as [s Hs].
  rewrite Hs, (wk_access _ Hok _ s) by (done || apply (page_of_aligned os_page Hps)). by destruct s, w.
Qed.

Lemma win_store_law b base n x v : win_ok b -> win_region b base n -> base <= x < base + n ->
  win_ok (mem_store x v b) /\ (forall base n, win_region (mem_store x v b) base n <-> win_region b base n) /\
  (forall p, win_page (mem_store x v b) p = win_page b p) /\ fault_handler_ (mem_store x v b) = fault_handler_ b /\
  (forall y, mem_byte (mem_store x v b) y = if decide (y = x) then v else mem_byte b y).
Proof.
  intros [Hwf Hwa Hwr] Hr Hx. split; [split; [done| |]|split; [done|split; [done|split; [done|]]]].
  - intros p s Hp Hs. cbn. rewrite store_access. by apply Hwa.
  - intros b' r Hb'. cbn. rewrite store_reservation. by apply Hwr.
  - intros y. cbn. rewrite store_byte. case_decide as Hy.
    + subst y. by rewrite Z.sub_diag.
    + destruct (znth [v] (y - x)) as [u|] eqn:E; [|done]. apply znth_Some in E. unfold zlen in E. cbn in E. lia.
Qed.

(** The state of the page an address of a region lies on. *)
Lemma win_state_x b base n x : win_ok b -> win_region b base n -> base <= x < base + n ->
  exists s, state_at os_page x (table_ b) = Some s /\ state_at os_page (x - x mod os_page) (table_ b) = Some s /\
    0 <= x < U64.
Proof.
  intros Hok Hr Hx. pose proof (win_region_bounds _ _ _ Hok Hr) as (? & ? & ? & Hb & Hm).
  assert (Hin : base <= x - x mod os_page < base + n) by by apply (range_multiple os_page Hps).
  destruct (win_state _ _ _ _ Hok Hr Hin) as [s Hs]. exists s.
  rewrite (state_at_page os_page present Hps) by (apply Hok || lia). split; [done|]. split; [done|]. lia.
Qed.

Lemma win_promote_law (S : Type) (proj : S -> PageFaultBackendWin K) upd cb base n x s :
  lens proj upd ->
  win_ok (proj s) -> win_region (proj s) base n -> base <= x < base + n -> win_page (proj s) (page_of x) = Some false ->
  exists ok b', win_dispatch proj upd cb x true s = (Ret ok, if ok : bool then upd b' s else s) /\
    (ok = true -> fb_frame (page_of x) page_size (proj s) b' /\ win_page b' (page_of x) = Some true /\
      forall y, page_of y = page_of x -> mem_byte b' y = mem_byte (proj s) y).
Proof.
  intros Hlens Hok Hr Hx Hp. destruct (win_state_x _ _ _ _ Hok Hr Hx) as (st & Hst & Hst' & Hb).
  pose proof (win_region_bounds _ _ _ Hok Hr) as (H0 & Hn & Hend & Hbm & Hnm). pose proof (ps_pos os_page Hps) as Hpp.
  unfold win_page in Hp. change (page_of x) with (x - x mod os_page) in *. rewrite Hst' in Hp. destruct st; try done.
  assert (Hin : base <= x - x mod os_page < base + n) by by apply (range_multiple os_page Hps).
  unfold win_dispatch, VectoredHandler. cbn [negb]. change (1 =? 1) with true. cbv zeta. cbn [negb].
  unfold bind, get. rewrite Hst, decide_False by done. rewrite (page_base_spec os_page Hps) by done. set (page := x - x mod os_page) in *.
  assert (Hpage : page mod os_page = 0) by apply (page_of_aligned os_page Hps).
  unfold zoom, on_vm. destruct (vm_protect page os_page ReadWrite (vm (proj s))) as [[|] k] eqn:E; cbn [negb ret].
  2:{ apply vm_protect_fails in E as ->. exists false, (proj s). split; [|done].
      assert (Heta : set_vm (vm (proj s)) (proj s) = proj s) by by destruct (proj s).
      by rewrite Heta, (lens_put _ _ Hlens). }
  apply vm_protect_ok in E as (Hacc & Hbyte & Hres). unfold set_states, on_table. cbn [ret].
  rewrite (lens_get _ _ Hlens). eexists true, _. split; [by rewrite (lens_upd _ _ Hlens)|]. intros _. set (b' := set_table _ _).
  destruct (win_step (proj s) b' k (set_state DIRTY) (fun _ => DIRTY) page os_page) as [Hf Hq]; try done.
  - by apply Z.mod_same; lia.
  - lia.
  - lia.
  - pose proof (page_fits os_page Hps page base n Hbm Hnm Hpage Hin). lia.
  - by apply set_state_fn.
  - intros p s' Hp' Hs'. rewrite Hacc by done. by case_decide.
  - split; [done|]. split; [|by intros y _; apply Hbyte]. unfold win_page. rewrite Hq by (done || lia). by rewrite Hst'.
Qed.

Lemma win_fetch_law (S : Type) (N : Prop) (proj : S -> PageFaultBackendWin K) upd cb base n x w s (Q : bool -> S -> Prop) E :
  lens proj upd ->
  win_ok (proj s) -> win_region (proj s) base n -> base <= x < base + n -> win_page (proj s) (page_of x) = None ->
  fault_handler_ (proj s) = true ->
  (forall w' b1, fb_frame 0 0 (proj s) b1 -> resolved_ b1 = false ->
    wpx N (cb x w') (fun _ s' => win_ok (proj s') /\
      forall b2, fb_frame 0 0 (proj s') b2 -> Q (resolved_ (proj s')) (upd b2 s')) E (upd b1 s)) ->
  wpx N (win_dispatch proj upd cb x w) Q E s.
Proof.
  intros Hlens Hok Hr Hx Hp Harm Hcb. destruct (win_state_x _ _ _ _ Hok Hr Hx) as (st & Hst & Hst' & Hb).
  unfold win_page in Hp. change (page_of x) with (x - x mod os_page) in *. rewrite Hst' in Hp.
  assert (st = ABSENT) as -> by by destruct st.
  unfold win_dispatch. apply wpx_bind. unfold VectoredHandler. cbn [negb]. cbv zeta.
  apply wpx_bind, wpx_get. rewrite Hst, decide_True, Harm by done. cbn [negb]. unfold call_handler.
  apply wpx_bind, wpx_get. cbv zeta. apply wpx_bind. eapply wpx_run; [done|]. apply wpx_bind.
  eapply wpx_mono; [apply Hcb; [by apply win_flags|done]| |done]. cbn beta. intros _ s' [Hok' HQ].
  apply wpx_bind, wpx_get. apply wpx_bind. eapply wpx_run; [done|].
  pose proof (fun w r => HQ _ (win_flags _ w r Hok')) as HQ'. by destruct (resolved_ (proj s')); cbn [negb]; apply wpx_ret, wpx_ret.
Qed.

#[global] Instance win_laws : FaultBackendLaws (PageFaultBackendWin K).
Proof.
  split.
  - apply os_page_pow2.
  - apply win_region_bounds.
  - apply win_reserve_law.
  - apply win_release_law.
  - intros b cb []. eexists. split; [done|]. split; [by split|]. done.
  - apply win_resolve_law.
  - apply win_dirty_law.
  - apply win_clear_law.
  - apply win_evict_law.
  - apply win_permits_law.
  - intros b base n x v Hok Hr Hx _. by eapply win_store_law.
  - intros S proj upd. apply win_promote_law.
  - intros S N proj upd. apply win_fetch_law.
Qed.
End facts.

(** ** Several backends in one process

    [instance_] is one static pointer: the constructor sets it, the destructor
    clears it, and the one handler function serves the object it points to. *)

Section process.
Context {K : Type} `{!PagedMemory K} `{!WinVM K}.

Record WinProcess := mkProcess {
  instance_ : option nat;
  objects : list (PageFaultBackendWin K)
}.

Definition process_new (installed : bool) (k : K) (p : WinProcess) : WinProcess :=
  mkProcess (if installed then Some (length (objects p)) else None) (objects p ++ [PageFaultBackendWin_new installed k]).

Definition process_delete (i : nat) (p : WinProcess) : WinProcess :=
  mkProcess None (alter (fun b => snd (PageFaultBackendWin_delete b)) i (objects p)).

Definition process_call {A} (i : nat) (c : M (PageFaultBackendWin K) A) (p : WinProcess) : WinProcess :=
  mkProcess (instance_ p) (alter (fun b => snd (c b)) i (objects p)).

(** [self = instance_; if (!self) return EXCEPTION_CONTINUE_SEARCH], then the handler above. *)
Definition process_fault (handler : Z -> bool -> M WinProcess unit) (info0 info1 : Z) : M WinProcess Disposition :=
  let! p := get in
  match instance_ p with
  | None => ret EXCEPTION_CONTINUE_SEARCH
  | Some i =>
      match objects p !! i with
      | None => undef
      | Some b =>
          VectoredHandler (fun p => default b (objects p !! i)) (fun b p => mkProcess (instance_ p) (<[i := b]> (objects p)))
            handler true info0 info1
      end
  end.

(** Once a second backend exists, no fault in a region of the first is answered:
    its next fault ends the process. *)
Lemma second_backend_disarms_first p k handler w x :
  process_fault handler w x (process_new true k p) = (Ret EXCEPTION_CONTINUE_SEARCH, process_new true k p).
Proof.
  unfold process_fault. rewrite bind_get. cbn [instance_ objects process_new].
  rewrite lookup_app_r, Nat.sub_diag by lia. cbn [lookup list_lookup].
  unfold VectoredHandler. cbn [negb]. cbv zeta. rewrite bind_get.
  assert (Hn : default (PageFaultBackendWin_new true k) (objects (process_new true k p) !! length (objects p)) =
    PageFaultBackendWin_new true k).
  { cbn. by rewrite lookup_app_r, Nat.sub_diag by lia. }
  rewrite Hn. done.
Qed.
End process.
