(* ===== verification/RemoteHeap.v ===== *)
(** * The remote heap (memclient/src/remote_heap.cpp)

    A range of ordinary memory whose contents live on a peer.  Touching a page
    that is not resident faults; [handle_fault] fetches the page from the backing
    block and installs it, and [enforce_budget] then evicts the oldest pages,
    writing dirty ones back first.

    The heap is written against two interfaces: [BlockStore], what it needs of
    [MemoryClient], and [IPageFaultBackend].  [heap_byte w x] is the byte a
    program sees at [x]: the resident one, or the peer's.  Nothing the heap does
    by itself changes it ([heap_keeps]); a load returns it and a store sets it.

    Loops that the code leaves unbounded run on [fuel]; what is proved with
    [wpx N] holds for every amount of it. *)

From stdpp Require Import pretty.
From S2P Require Import Prelude PageRegions FaultBackend.

(** ** The store of blocks behind a heap *)

Class BlockStore (C : Type) := {
  bs_max_local : C -> Z;
  bs_allocate : Z -> M C Z;
  bs_free : Z -> M C unit;
  bs_read : Z -> Z -> Z -> M C (list byte);
  bs_write : Z -> Z -> list byte -> M C unit;
  (* the view: each handle's bytes, and the longest write *)
  bs_ok : C -> Prop;
  bs_value : C -> Z -> option (list byte);
  bs_limit : Z;
  bs_more : C -> Prop
}.

Definition same_values {C} `{!BlockStore C} (c c' : C) : Prop := forall k, bs_value c' k = bs_value c k.

(** A call does what memory would, or throws and changes nothing: within
    [bs_limit] bytes, and for a block allocated with more bytes than the client
    keeps locally, which is what the constructor insists on.  [HeapClient.v] proves
    it of [MemoryClient] as long as its peers answer. *)
Class BlockStoreLaws (C : Type) `{!BlockStore C} := {
  bs_read_law : forall c h b off n, bs_ok c -> bs_value c h = Some b -> 0 <= off -> 0 <= n <= bs_limit -> off + n <= zlen b ->
    wp (bs_read h off n) (fun d c' => bs_ok c' /\ same_values c c' /\ d = slice off n b)
      (fun _ c' => bs_ok c' /\ same_values c c') c;
  bs_write_law : forall c h b off d, bs_ok c -> bs_value c h = Some b -> 0 <= off -> off + zlen d <= zlen b ->
    zlen d <= bs_limit ->
    wp (bs_write h off d)
      (fun _ c' => bs_ok c' /\ forall k, bs_value c' k = if decide (k = h) then Some (splice off d b) else bs_value c k)
      (fun _ c' => bs_ok c' /\ same_values c c') c;
  bs_allocate_law : forall c n, bs_ok c -> bs_more c -> 0 <= n -> bs_max_local c < n ->
    wp (bs_allocate n)
      (fun h c' => bs_ok c' /\ bs_value c h = None /\
        forall k, bs_value c' k = if decide (k = h) then Some (replicate (Z.to_nat n) x00) else bs_value c k)
      (fun _ c' => bs_ok c' /\ same_values c c') c;
  bs_free_law : forall c h b, bs_ok c -> bs_value c h = Some b ->
    wp (bs_free h) (fun _ c' => bs_ok c' /\ forall k, k <> h -> bs_value c' k = bs_value c k) (fun _ _ => True) c
}.

(** ** The heap *)

Record RemoteHeapConfig := mkConfig {
  capacity_bytes : Z;
  local_budget_bytes : Z;
  config_page_bytes : Z
}.

Record HeapStats := mkStats {
  resident_bytes : Z;
  fetches : Z;
  flushes : Z;
  evictions : Z
}.

Record RemoteHeap := mkHeap {
  base_ : Z;
  capacity_ : Z;
  page_bytes_ : Z;
  page_count_ : Z;
  local_budget_bytes_ : Z;
  handle_ : Z;
  resident_order_ : list Z;     (* oldest first *)
  resident_ : gset Z;           (* the keys; the iterator of a key is its place in [resident_order_] *)
  stats_ : HeapStats;
  g_fault_depth : Z             (* of the thread *)
}.

Section heap.
Context {B C : Type} `{!IPageFaultBackend B} `{!BlockStore C} (fuel : nat).

Record HeapWorld := mkHW {
  backend_ : B;
  client_ : C;
  heap : RemoteHeap
}.

Definition set_backend (b : B) (w : HeapWorld) : HeapWorld := mkHW b (client_ w) (heap w).
Definition set_client (c : C) (w : HeapWorld) : HeapWorld := mkHW (backend_ w) c (heap w).
Definition set_heap (h : RemoteHeap) (w : HeapWorld) : HeapWorld := mkHW (backend_ w) (client_ w) h.

Definition on_backend {A} (c : M B A) : M HeapWorld A := zoom backend_ set_backend c.
Definition on_client {A} (c : M C A) : M HeapWorld A := zoom client_ set_client c.
Definition modify_heap (f : RemoteHeap -> RemoteHeap) : M HeapWorld unit := fun w => (Ret tt, set_heap (f (heap w)) w).

Definition set_residents (order : list Z) (keys : gset Z) (st : HeapStats) (h : RemoteHeap) : RemoteHeap :=
  mkHeap (base_ h) (capacity_ h) (page_bytes_ h) (page_count_ h) (local_budget_bytes_ h) (handle_ h) order keys st
    (g_fault_depth h).
Definition set_depth (d : Z) (h : RemoteHeap) : RemoteHeap :=
  mkHeap (base_ h) (capacity_ h) (page_bytes_ h) (page_count_ h) (local_budget_bytes_ h) (handle_ h)
    (resident_order_ h) (resident_ h) (stats_ h) d.

Definition page_addr (h : RemoteHeap) (index : Z) : Z := base_ h + index * page_bytes_ h.
Definition page_index_of (h : RemoteHeap) (addr : Z) : Z := (addr - base_ h) / page_bytes_ h.
Definition page_length (h : RemoteHeap) (index : Z) : Z := Z.min (page_bytes_ h) (capacity_ h - index * page_bytes_ h).

Definition servicing_fault (h : RemoteHeap) : bool := 0 <? g_fault_depth h.

(** [FaultScope]: the destructor runs however the block is left. *)
Definition with_scope {A} (c : M HeapWorld A) : M HeapWorld A :=
  fun w =>
    let '(o, w') := c (set_heap (set_depth (g_fault_depth (heap w) + 1) (heap w)) w) in
    (o, set_heap (set_depth (g_fault_depth (heap w') - 1) (heap w')) w').

(** Copying out of the region: a page that cannot be read would fault again, under the lock. *)
Definition copy_out (addr len : Z) : M HeapWorld (list byte) :=
  let! w := get in
  if forallb (fun off => permits (backend_ w) (addr + off) false) (page_offsets page_size len)
  then ret (mem_bytes (backend_ w) addr len) else undef.

Definition count_flush (h : RemoteHeap) : RemoteHeap :=
  set_residents (resident_order_ h) (resident_ h)
    (mkStats (resident_bytes (stats_ h)) (fetches (stats_ h)) (flushes (stats_ h) + 1) (evictions (stats_ h))) h.

(** The part of [flush_page] after the copy: the lock does not keep stores out meanwhile. *)
Definition write_back (index : Z) (bytes : list byte) : M HeapWorld unit :=
  let! w := get in
  let h := heap w in
  do! on_client (bs_write (handle_ h) (index * page_bytes_ h) bytes) in
  do! on_backend (clear_dirty (page_addr h index) (page_length h index)) in
  modify_heap count_flush.

Definition flush_page (index : Z) : M HeapWorld unit :=
  let! w := get in
  let h := heap w in
  let length := page_length h index in
  let addr := page_addr h index in
  if negb (is_dirty addr length (backend_ w)) then ret tt
  else
    let! bytes := copy_out addr length in
    write_back index bytes.

(** [resident_order_.splice(end, resident_order_, it)] *)
Definition splice_back (index : Z) (h : RemoteHeap) : RemoteHeap :=
  set_residents (filter (fun i => i <> index) (resident_order_ h) ++ [index]) (resident_ h) (stats_ h) h.

Definition forget (index length : Z) (h : RemoteHeap) : RemoteHeap :=
  set_residents (filter (fun i => i <> index) (resident_order_ h)) (resident_ h ∖ {[index]})
    (mkStats (resident_bytes (stats_ h) - length) (fetches (stats_ h)) (flushes (stats_ h)) (evictions (stats_ h) + 1)) h.

Definition evict_page (index : Z) : M HeapWorld unit :=
  let! w := get in
  if decide (index ∈ resident_ (heap w)) then
    let length := page_length (heap w) index in
    let addr := page_addr (heap w) index in
    let! flushed := catch (do! flush_page index in ret true) (fun _ => ret false) in
    if negb flushed then modify_heap (splice_back index)
    else
      let! released := on_backend (evict_pages addr length) in
      if negb released then modify_heap (splice_back index)
      else modify_heap (forget index length)
  else ret tt.

(** [while (resident_bytes > budget && resident_order_.size() > 1) evict_page(front)] *)
Fixpoint enforce_budget (fuel : nat) : M HeapWorld unit :=
  let! w := get in
  if (local_budget_bytes_ (heap w) <? resident_bytes (stats_ (heap w))) && (1 <? zlen (resident_order_ (heap w))) then
    match fuel, resident_order_ (heap w) with
    | S fuel, front :: _ => do! evict_page front in enforce_budget fuel
    | _, _ => nofuel
    end
  else ret tt.

(** The part of [handle_fault] before the lock: [None] when the fault is left unresolved. *)
Definition fault_fetch (index : Z) : M HeapWorld (option (list byte)) :=
  let! w := get in
  let h := heap w in
  let offset := index * page_bytes_ h in
  let length := page_length h index in
  let! r := catch (let! bytes := on_client (bs_read (handle_ h) offset length) in ret (Some bytes))
                  (fun _ => ret None) in
  match r with
  | None => ret None
  | Some bytes => if negb (zlen bytes =? length) then ret None else ret (Some bytes)
  end.

Definition add_resident (index : Z) (h : RemoteHeap) : RemoteHeap :=
  let st := stats_ h in
  if decide (index ∈ resident_ h)
  then set_residents (resident_order_ h) (resident_ h)
         (mkStats (resident_bytes st) (fetches st + 1) (flushes st) (evictions st)) h
  else set_residents (resident_order_ h ++ [index]) ({[index]} ∪ resident_ h)
         (mkStats (resident_bytes st + page_length h index) (fetches st + 1) (flushes st) (evictions st)) h.

(** The part of [handle_fault] under [heap_mutex_]. *)
Definition install_page (index : Z) (bytes : list byte) : M HeapWorld unit :=
  let! w := get in
  do! on_backend (resolve_fault (page_addr (heap w) index) (Some bytes) (zlen bytes)) in
  modify_heap (add_resident index).

Definition fault_install (index : Z) (bytes : list byte) : M HeapWorld unit :=
  do! install_page index bytes in
  enforce_budget fuel.

Definition handle_fault (addr : Z) (is_write : bool) : M HeapWorld unit :=
  with_scope (
    let! w := get in
    if (addr <? base_ (heap w)) || (base_ (heap w) + capacity_ (heap w) <=? addr) then ret tt
    else
      let index := page_index_of (heap w) addr in
      let! r := fault_fetch index in
      match r with
      | None => ret tt
      | Some bytes => fault_install index bytes
      end).

Fixpoint flush_all (order : list Z) : M HeapWorld unit :=
  match order with
  | [] => ret tt
  | index :: order => do! flush_page index in flush_all order
  end.

Definition flush : M HeapWorld unit :=
  let! w := get in flush_all (resident_order_ (heap w)).

Fixpoint evict_all_loop (fuel : nat) : M HeapWorld unit :=
  let! w := get in
  match resident_order_ (heap w), fuel with
  | [], _ => ret tt
  | index :: rest, S fuel =>
      do! evict_page index in
      let! w' := get in
      if zlen (resident_order_ (heap w')) =? zlen (index :: rest) then ret tt else evict_all_loop fuel
  | _, O => nofuel
  end.

(** The loop runs at most once per resident page. *)
Definition flush_and_evict_all : M HeapWorld unit :=
  let! w := get in evict_all_loop (length (resident_order_ (heap w))).

(** *** Construction and destruction *)

Definition catch_rethrow {S A} (c : M S A) (cleanup : M S unit) : M S A :=
  catch c (fun e => do! cleanup in throw e).

(** Fails with an exception, or leaves the heap in the world; [backend_] is the
    backend [create_page_fault_backend] returned. *)
Definition RemoteHeap_new (config : RemoteHeapConfig) : M HeapWorld unit :=
  if capacity_bytes config =? 0 then throw (runtime_error "RemoteHeap: capacity_bytes must be non-zero")
  else
    let! w := get in
    if negb (is_supported (backend_ w)) then throw (runtime_error "RemoteHeap: no usable page-fault backend on this system")
    else
      let page_bytes := round_up (Z.max (config_page_bytes config) page_size) page_size in
      let capacity := round_up (capacity_bytes config) page_bytes in
      let budget := Z.max (round_up (local_budget_bytes config) page_bytes) page_bytes in
      if capacity <=? bs_max_local (client_ w) then
        throw (runtime_error ("RemoteHeap: capacity (" +:+ pretty capacity +:+
          " bytes) does not exceed the client's local cache (" +:+ pretty (bs_max_local (client_ w)) +:+
          " bytes), so the backing block would stay in local memory"))
      else
        let! region := on_backend (reserve_region capacity) in
        let '(addr, size) := region in
        if addr =? 0 then
          throw (runtime_error ("RemoteHeap: could not reserve " +:+ pretty capacity +:+ " bytes of address space"))
        else
          let! handle := catch_rethrow (on_client (bs_allocate size)) (on_backend (release_region addr)) in
          do! modify_heap (fun h => mkHeap addr size page_bytes (size / page_bytes) budget handle [] ∅ (mkStats 0 0 0 0)
                                      (g_fault_depth h)) in
          on_backend (on_fault true).

Definition RemoteHeap_delete : M HeapWorld unit :=
  do! on_backend (on_fault false) in
  let! w := get in
  do! (if base_ (heap w) =? 0 then ret tt else on_backend (release_region (base_ (heap w)))) in
  if handle_ (heap w) =? 0 then ret tt
  else catch (on_client (bs_free (handle_ (heap w)))) (fun _ => ret tt).

(** ** A program that uses the region *)

(** The processor runs an access until it is allowed: [false] when the fault is not resumed. *)
Fixpoint access (n : nat) (addr : Z) (is_write : bool) : M HeapWorld bool :=
  let! w := get in
  if permits (backend_ w) addr is_write then ret true
  else match n with
       | O => nofuel
       | S n => let! resumed := dispatch backend_ set_backend handle_fault addr is_write in
                if resumed : bool then access n addr is_write else ret false
       end.

(** [*(uint8_t* )addr] and [*(uint8_t* )addr = v]; [None] and [false] when the process dies of the fault. *)
Definition load (addr : Z) : M HeapWorld (option byte) :=
  let! ok := access fuel addr false in
  let! w := get in
  ret (if ok : bool then Some (mem_byte (backend_ w) addr) else None).

Definition store (addr : Z) (v : byte) : M HeapWorld bool :=
  let! ok := access fuel addr true in
  do! (if ok : bool then on_backend (fun b => (Ret tt, mem_store addr v b)) else ret tt) in
  ret ok.

End heap.
Arguments HeapWorld : clear implicits.
