(* ===== verification/RemoteHeapSpec.v ===== *)
(** * The remote heap is plain memory

    The invariant [heap_ok] of a heap and its world, and what each operation of
    RemoteHeap.v does to the bytes a program sees. *)

From S2P Require Import Prelude PageRegions FaultBackend RemoteHeap.

Section spec.
Context {B C : Type} `{!IPageFaultBackend B} `{!FaultBackendView B} `{!FaultBackendLaws B}.
Context `{!BlockStore C} `{!BlockStoreLaws C}.
Abbreviation World := (HeapWorld B C).
Implicit Types (w : World) (h : RemoteHeap) (b : B) (x i : Z).

(** ** The program's view *)

Definition peer_byte w x : option byte :=
  match bs_value (client_ w) (handle_ (heap w)) with
  | Some blk => znth blk (x - base_ (heap w))
  | None => None
  end.

Definition page_state w x : option bool := fb_page (backend_ w) (page_of x).

Definition heap_byte w x : option byte :=
  match page_state w x with
  | None => peer_byte w x
  | Some _ => Some (mem_byte (backend_ w) x)
  end.

Definition in_heap h x : Prop := base_ h <= x < base_ h + capacity_ h.
Definition in_page h i x : Prop := page_addr h i <= x < page_addr h i + page_bytes_ h.

#[export] Instance in_page_dec h i x : Decision (in_page h i x).
Proof. unfold in_page. apply _. Defined.

Definition page_all w i (P : option bool -> Prop) : Prop :=
  range_pages (page_addr (heap w) i) (page_bytes_ (heap w)) (backend_ w) P.

(** What never changes after construction. *)
Record same_heap h h' : Prop := {
  sh_base : base_ h' = base_ h;
  sh_capacity : capacity_ h' = capacity_ h;
  sh_page : page_bytes_ h' = page_bytes_ h;
  sh_count : page_count_ h' = page_count_ h;
  sh_budget : local_budget_bytes_ h' = local_budget_bytes_ h;
  sh_handle : handle_ h' = handle_ h
}.

(** The shape of the heap: a region of whole pages, backed by a block of its size. *)
Record heap_shape w : Prop := {
  hs_page : 0 < page_bytes_ (heap w);
  hs_whole : page_bytes_ (heap w) mod page_size = 0;
  hs_count : capacity_ (heap w) = page_count_ (heap w) * page_bytes_ (heap w);
  hs_limit : page_bytes_ (heap w) <= bs_limit;
  hs_budget : page_bytes_ (heap w) <= local_budget_bytes_ (heap w);
  hs_region : fb_region (backend_ w) (base_ (heap w)) (capacity_ (heap w));
  hs_block : exists blk, bs_value (client_ w) (handle_ (heap w)) = Some blk /\ zlen blk = capacity_ (heap w)
}.

(** The lists of resident pages. *)
Record residents_ok h : Prop := {
  ro_nodup : NoDup (resident_order_ h);
  ro_keys : forall i, i ∈ resident_ h <-> i ∈ resident_order_ h;
  ro_range : forall i, i ∈ resident_order_ h -> 0 <= i < page_count_ h;
  ro_bytes : resident_bytes (stats_ h) = page_bytes_ h * zlen (resident_order_ h)
}.

Record heap_ok w : Prop := {
  hk_backend : fb_ok (backend_ w);
  hk_armed : fb_armed (backend_ w) = true;
  hk_client : bs_ok (client_ w);
  hk_shape : heap_shape w;
  hk_residents : residents_ok (heap w);
  hk_pages : forall i, 0 <= i < page_count_ (heap w) ->
    (i ∈ resident_order_ (heap w) /\ page_all w i (fun d => d <> None)) \/ page_all w i (fun d => d = None);
  hk_clean : forall x, in_heap (heap w) x -> page_state w x = Some false ->
    peer_byte w x = Some (mem_byte (backend_ w) x)
}.

Record heap_keeps w w' : Prop := {
  kp_ok : heap_ok w';
  kp_same : same_heap (heap w) (heap w');
  kp_byte : forall x, in_heap (heap w) x -> heap_byte w' x = heap_byte w x;
  kp_others : forall k, k <> handle_ (heap w) -> bs_value (client_ w') k = bs_value (client_ w) k
}.

Lemma same_heap_refl h : same_heap h h.
Proof. by split. Qed.

Lemma same_heap_trans h1 h2 h3 : same_heap h1 h2 -> same_heap h2 h3 -> same_heap h1 h3.
Proof. intros [] []. split; congruence. Qed.

Lemma in_heap_same h h' x : same_heap h h' -> in_heap h' x <-> in_heap h x.
Proof. unfold in_heap. by intros [-> -> _ _ _ _]. Qed.

Lemma keeps_refl w : heap_ok w -> heap_keeps w w.
Proof. intros H. by split. Qed.

Lemma keeps_trans w1 w2 w3 : heap_keeps w1 w2 -> heap_keeps w2 w3 -> heap_keeps w1 w3.
Proof.
  intros [] []. split; [done|by eapply same_heap_trans| |].
  - intros x Hx. rewrite kp_byte1, kp_byte0; [done..|]. by apply (in_heap_same _ _ _ kp_same0).
  - intros k Hk. rewrite kp_others1, kp_others0; [done..|]. by rewrite (sh_handle _ _ kp_same0).
Qed.

(** ** Pages of the heap *)

Lemma psize_pos : 0 < page_size.
Proof. apply (ps_pos _ page_size_pow2). Qed.

Lemma heap_bounds w : heap_ok w -> let h := heap w in
  0 < base_ h /\ 0 < capacity_ h /\ base_ h + capacity_ h < U64 /\ base_ h mod page_size = 0 /\ 0 < page_count_ h.
Proof.
  intros Hok h. destruct (fb_region_bounds _ _ _ (hk_backend _ Hok) (hs_region _ (hk_shape _ Hok))) as (? & ? & ? & ? & ?).
  pose proof (hk_shape _ Hok) as []. repeat split; try done. fold h in hs_count0, hs_page0, H0. nia.
Qed.

Lemma aligned_at a n i : a mod page_size = 0 -> n mod page_size = 0 -> (a + i * n) mod page_size = 0.
Proof.
  pose proof psize_pos. intros [x ->]%Z.mod_divide [y ->]%Z.mod_divide; [|lia..].
  apply Z.mod_divide; [lia|]. exists (x + i * y). lia.
Qed.

Lemma page_in_region w i : heap_ok w -> 0 <= i < page_count_ (heap w) ->
  in_region (backend_ w) (page_addr (heap w) i) (page_bytes_ (heap w)) /\
  base_ (heap w) <= page_addr (heap w) i /\ page_addr (heap w) i + page_bytes_ (heap w) <= base_ (heap w) + capacity_ (heap w) /\
  page_length (heap w) i = page_bytes_ (heap w).
Proof.
  intros Hok Hi. destruct (heap_bounds _ Hok) as (H0 & Hc & Hend & Hal & _). pose proof (hk_shape _ Hok) as [].
  unfold page_addr, page_length. assert (0 <= i * page_bytes_ (heap w)) by nia.
  assert (i * page_bytes_ (heap w) + page_bytes_ (heap w) <= capacity_ (heap w)) by nia.
  split; [|lia]. split; [|by apply aligned_at|done|done].
  exists (base_ (heap w)), (capacity_ (heap w)). split; [done|lia].
Qed.

Lemma in_page_range w i x : heap_ok w -> 0 <= i < page_count_ (heap w) ->
  in_page (heap w) i x <->
  page_addr (heap w) i <= page_of x < page_addr (heap w) i + page_bytes_ (heap w).
Proof.
  intros Hok Hi. destruct (page_in_region w i Hok Hi) as ([_ Hal Hw _] & _). symmetry.
  apply (range_multiple _ page_size_pow2); done.
Qed.

Lemma page_of_mod (b : B) x : page_of (B := B) x mod page_size = 0.
Proof. apply (page_of_aligned _ page_size_pow2). Qed.

Lemma page_all_state w i (P : option bool -> Prop) x : heap_ok w -> 0 <= i < page_count_ (heap w) -> page_all w i P ->
  in_page (heap w) i x -> P (page_state w x).
Proof.
  intros Hok Hi Hall Hx. apply Hall; [apply (page_of_mod (backend_ w))|]. by apply (in_page_range w i x Hok Hi).
Qed.

(** Each address of the heap is on one page. *)
Lemma page_index_spec w x : heap_ok w -> in_heap (heap w) x ->
  0 <= page_index_of (heap w) x < page_count_ (heap w) /\ in_page (heap w) (page_index_of (heap w) x) x.
Proof.
  intros Hok Hx. pose proof (hk_shape _ Hok) as []. unfold in_heap, in_page, page_index_of, page_addr in *.
  pose proof (Z.div_mod (x - base_ (heap w)) (page_bytes_ (heap w)) ltac:(lia)).
  pose proof (Z.mod_pos_bound (x - base_ (heap w)) (page_bytes_ (heap w)) ltac:(lia)).
  split; [|lia]. split; [apply Z.div_pos; lia|]. apply Z.div_lt_upper_bound; lia.
Qed.

Lemma in_page_unique h i j x : 0 < page_bytes_ h -> in_page h i x -> in_page h j x -> i = j.
Proof. unfold in_page, page_addr. intros Hp Hi Hj. destruct (Z.lt_trichotomy i j) as [|[|]]; [nia|done|nia]. Qed.

(** Two pages have no address in common. *)
Lemma page_apart w i j p : heap_ok w -> i <> j ->
  page_addr (heap w) j <= p < page_addr (heap w) j + page_bytes_ (heap w) ->
  ~ page_addr (heap w) i <= p < page_addr (heap w) i + page_bytes_ (heap w).
Proof.
  intros Hok Hne Hj Hi. apply Hne. by apply (in_page_unique (heap w) i j p); [apply (hk_shape _ Hok)|..].
Qed.

(** A change to one page that the program cannot see. *)
Lemma heap_change w w' i :
  heap_ok w -> 0 <= i < page_count_ (heap w) -> same_heap (heap w) (heap w') ->
  fb_frame (page_addr (heap w) i) (page_bytes_ (heap w)) (backend_ w) (backend_ w') ->
  bs_ok (client_ w') ->
  (exists blk, bs_value (client_ w') (handle_ (heap w)) = Some blk /\ zlen blk = capacity_ (heap w)) ->
  (forall k, k <> handle_ (heap w) -> bs_value (client_ w') k = bs_value (client_ w) k) ->
  (forall x, in_heap (heap w) x -> ~ in_page (heap w) i x -> peer_byte w' x = peer_byte w x) ->
  residents_ok (heap w') -> (forall j, j <> i -> j ∈ resident_order_ (heap w) -> j ∈ resident_order_ (heap w')) ->
  ((i ∈ resident_order_ (heap w') /\ page_all w' i (fun d => d <> None)) \/ page_all w' i (fun d => d = None)) ->
  (forall x, in_page (heap w) i x -> heap_byte w' x = heap_byte w x) ->
  (forall x, in_page (heap w) i x -> page_state w' x = Some false -> peer_byte w' x = Some (mem_byte (backend_ w') x)) ->
  heap_keeps w w'.
Proof.
  intros Hok Hi Hs Hf Hbs Hblk Hoth Hpeer Hres Hsub Hpi Hbyte Hclean.
  pose proof Hok as [Hb Ha Hc Hsh Hr Hpages Hcl]. pose proof Hs as [Sb Sc Sp Sn Sbu Sh]. pose proof Hsh as [].
  assert (Hst : forall x, in_heap (heap w) x -> ~ in_page (heap w) i x ->
    page_state w' x = page_state w x /\ (page_state w x <> None -> mem_byte (backend_ w') x = mem_byte (backend_ w) x)).
  { intros x Hx Hn. rewrite (in_page_range w i x Hok Hi) in Hn. split.
    - apply (ff_page _ _ _ _ Hf); [apply (page_of_mod (backend_ w))|done].
    - by apply (ff_byte _ _ _ _ Hf). }
  assert (Hdec : forall x, in_page (heap w) i x \/ ~ in_page (heap w) i x).
  { intros x. unfold in_page. destruct (decide (page_addr (heap w) i <= x < page_addr (heap w) i + page_bytes_ (heap w)));
    [by left|by right]. }
  split; [|done| |done].
  - split.
    + apply Hf.
    + by rewrite (ff_armed _ _ _ _ Hf).
    + done.
    + split; rewrite ?Sp, ?Sc, ?Sn, ?Sbu, ?Sb, ?Sh; try done. by apply (ff_region _ _ _ _ Hf).
    + done.
    + intros j. rewrite Sn. intros Hj. destruct (decide (j = i)) as [->|Hne]; [done|].
      assert (Heq : forall P, page_all w j P -> page_all w' j P).
      { intros P HP p Hp Hin. unfold page_addr in Hin. rewrite Sb, Sp in Hin.
        rewrite (ff_page _ _ _ _ Hf); [by apply HP|done|]. by apply (page_apart w i j p Hok). }
      destruct (Hpages j Hj) as [[Hin HP]|HP]; [left|right]; [|by apply Heq]. split; [by apply Hsub|by apply Heq].
    + intros x Hx%(in_heap_same _ _ _ Hs) Hd. destruct (Hdec x) as [Hin|Hout]; [by apply Hclean|].
      destruct (Hst x Hx Hout) as [E1 E2]. rewrite E1 in Hd. rewrite Hpeer, E2 by congruence. by apply Hcl.
  - intros x Hx. destruct (Hdec x) as [Hin|Hout]; [by apply Hbyte|]. destruct (Hst x Hx Hout) as [E1 E2].
    unfold heap_byte. rewrite E1. destruct (page_state w x) eqn:E; [by rewrite E2|by apply Hpeer].
Qed.

(** ** Writing a page back *)

Lemma zlen_mem_bytes b a n : 0 <= n -> zlen (mem_bytes b a n) = n.
Proof. intros Hn. unfold mem_bytes, zlen. rewrite length_fmap, length_seqZ. lia. Qed.

Lemma znth_mem_bytes b a n j : 0 <= j < n -> znth (mem_bytes b a n) j = Some (mem_byte b (a + j)).
Proof.
  intros Hj. rewrite znth_lookup by lia. unfold mem_bytes. rewrite list_lookup_fmap, lookup_seqZ_lt by lia.
  cbn. do 2 f_equal. lia.
Qed.

Lemma mem_bytes_inv b b' a n : mem_bytes b' a n = mem_bytes b a n ->
  forall x, a <= x < a + n -> mem_byte b' x = mem_byte b x.
Proof.
  intros H x Hx. pose proof (znth_mem_bytes b a n (x - a) ltac:(lia)) as E1.
  pose proof (znth_mem_bytes b' a n (x - a) ltac:(lia)) as E2. rewrite H, E1 in E2.
  replace (a + (x - a)) with x in E2 by lia. congruence.
Qed.

Lemma znth_splice {A} off (src l : list A) j : 0 <= off -> off + zlen src <= zlen l -> 0 <= j ->
  znth (splice off src l) j = if decide (off <= j < off + zlen src) then znth src (j - off) else znth l j.
Proof.
  intros Ho Hl Hj. rewrite (znth_lookup (splice _ _ _) j), (znth_lookup l j), lookup_splice, Z2Nat.id by lia.
  destruct (Z.ltb_spec j off), (Z.ltb_spec j (off + zlen src)); case_decide; try lia; try done;
    rewrite znth_lookup by lia; f_equal; lia.
Qed.

Lemma copy_out_run w i : heap_ok w -> 0 <= i < page_count_ (heap w) -> page_all w i (fun d => d <> None) ->
  copy_out (page_addr (heap w) i) (page_bytes_ (heap w)) w =
    (Ret (mem_bytes (backend_ w) (page_addr (heap w) i) (page_bytes_ (heap w))), w).
Proof.
  intros Hok Hi Hall. destruct (page_in_region w i Hok Hi) as (_ & H1 & H2 & _).
  unfold copy_out. rewrite bind_get. set (ok := forallb _ _). assert (Hp : ok = true); [|by rewrite Hp].
  apply forallb_forall. intros off Hoff. apply list_elem_of_In in Hoff.
  apply (elem_of_page_offsets _ page_size_pow2) in Hoff as [Ho _]; [|pose proof (hs_page _ (hk_shape _ Hok)); lia]. set (x := page_addr (heap w) i + off).
  rewrite (permits_law _ _ _ x false (hk_backend _ Hok) (hs_region _ (hk_shape _ Hok))) by (unfold x; lia).
  assert (Hx : in_page (heap w) i x) by (unfold in_page, x; lia).
  pose proof (page_all_state w i _ x Hok Hi Hall Hx) as Hs. unfold page_state in Hs. cbn beta in Hs.
  by destruct (fb_page _ _).
Qed.

(** The peer's copy of a page is what is resident of it. *)
Definition synced w i : Prop :=
  forall x, in_page (heap w) i x -> page_state w x <> None -> peer_byte w x = Some (mem_byte (backend_ w) x).

Record same_residents h h' : Prop := {
  sr_same : same_heap h h';
  sr_order : resident_order_ h' = resident_order_ h;
  sr_keys : resident_ h' = resident_ h;
  sr_bytes : resident_bytes (stats_ h') = resident_bytes (stats_ h)
}.

Lemma residents_same h h' : same_residents h h' -> residents_ok h -> residents_ok h'.
Proof. intros [[] E1 E2 E3] []. split; rewrite ?E1, ?E2, ?E3, ?sh_count0, ?sh_page0; done. Qed.

(** Other pages than [i] are as they were. *)
Definition other_pages i w w' : Prop :=
  forall j P, j <> i -> 0 <= j < page_count_ (heap w) -> page_all w j P -> page_all w' j P.

Definition untouched i w w' : Prop :=
  other_pages i w w' /\
  forall x, in_heap (heap w) x -> ~ in_page (heap w) i x ->
    page_state w' x = page_state w x /\ peer_byte w' x = peer_byte w x /\
    (page_state w x <> None -> mem_byte (backend_ w') x = mem_byte (backend_ w) x).

Lemma untouched_refl i w : untouched i w w.
Proof. split; [by intros j P _ _|by intros x _ _]. Qed.

Lemma frame_other_pages w w' i : heap_ok w -> same_heap (heap w) (heap w') ->
  fb_frame (page_addr (heap w) i) (page_bytes_ (heap w)) (backend_ w) (backend_ w') -> other_pages i w w'.
Proof.
  intros Hok Hs Hf j P Hne Hj HP p Hp Hin. unfold page_addr in Hin. rewrite (sh_base _ _ Hs), (sh_page _ _ Hs) in Hin.
  rewrite (ff_page _ _ _ _ Hf); [by apply HP|done|]. by apply (page_apart w i j p Hok).
Qed.

Lemma page_in_block w i : heap_ok w -> 0 <= i < page_count_ (heap w) ->
  0 <= i * page_bytes_ (heap w) /\ i * page_bytes_ (heap w) + page_bytes_ (heap w) <= capacity_ (heap w).
Proof. intros Hok Hi. pose proof (hk_shape _ Hok) as []. nia. Qed.

(** The peer's block after a page has been written to it. *)
Lemma peer_written w c' i d x : heap_ok w -> 0 <= i < page_count_ (heap w) -> zlen d = page_bytes_ (heap w) ->
  (forall blk, bs_value (client_ w) (handle_ (heap w)) = Some blk ->
     bs_value c' (handle_ (heap w)) = Some (splice (i * page_bytes_ (heap w)) d blk)) ->
  in_heap (heap w) x ->
  peer_byte (set_client c' w) x =
    if decide (in_page (heap w) i x) then znth d (x - page_addr (heap w) i) else peer_byte w x.
Proof.
  intros Hok Hi Hd Hv Hx. destruct (hs_block _ (hk_shape _ Hok)) as (blk & Hblk & Hlen).
  destruct (page_in_block w i Hok Hi) as [H0 H1].
  unfold peer_byte. cbn [set_client client_ heap]. rewrite (Hv _ Hblk), Hblk. unfold in_heap in Hx.
  rewrite znth_splice by lia. unfold in_page, page_addr. repeat case_decide; try lia; [|done]. f_equal. lia.
Qed.

Lemma page_state_client c w x : page_state (set_client c w) x = page_state w x.
Proof. done. Qed.

(** Write-backs succeed, and the system takes pages back. *)
Definition reliable : Prop :=
  (forall (c : C) k blk off d, bs_ok c -> bs_value c k = Some blk -> 0 <= off -> off + zlen d <= zlen blk ->
     zlen d <= bs_limit -> exists c', bs_write k off d c = (Ret tt, c')) /\
  (forall (b : B) addr n, fb_ok b -> in_region b addr n -> exists b', evict_pages addr n b = (Ret true, b')).

Lemma wp_no_throw {S A} (c : M S A) (P : Prop) Q E s : wp c Q E s -> (P -> exists a s', c s = (Ret a, s')) ->
  wp c Q (fun e s' => E e s' /\ ~ P) s.
Proof.
  unfold wp. intros H HP. destruct (c s) as [[a|e| |] s'] eqn:Ec; try done. split; [done|]. intros HP'.
  destruct (HP HP') as (a & s2 & ?). done.
Qed.

Section ops.
Context (N : Prop).

Lemma flush_page_spec w i : heap_ok w -> i ∈ resident_order_ (heap w) ->
  wpx N (flush_page i)
    (fun _ w' => heap_keeps w w' /\ same_residents (heap w) (heap w') /\ synced w' i /\ untouched i w w' /\
       fb_resolved (backend_ w') = fb_resolved (backend_ w))
    (fun _ w' => heap_keeps w w' /\ heap w' = heap w /\ backend_ w' = backend_ w /\ ~ reliable) w.
Proof.
  intros Hok Hin. pose proof (ro_range _ (hk_residents _ Hok) _ Hin) as Hi.
  destruct (page_in_region w i Hok Hi) as (Hreg & H1 & H2 & Hlen). pose proof (page_in_block w i Hok Hi) as [Hb0 Hb1].
  unfold flush_page. apply wpx_bind, wpx_get. rewrite Hlen. set (addr := page_addr (heap w) i) in *. set (n := page_bytes_ (heap w)) in *.
  destruct (is_dirty addr n (backend_ w)) eqn:Ed; cbn [negb].
  2:{ apply (dirty_law _ _ _ (hk_backend _ Hok) Hreg) in Ed. apply wpx_ret.
      split; [by apply keeps_refl|]. split; [by split|]. split; [|by split; [apply untouched_refl|]]. intros x Hx Hs.
      apply (hk_clean _ Hok); [unfold in_page in Hx; unfold in_heap; fold addr n in Hx; lia|].
      pose proof (page_all_state w i _ x Hok Hi Ed Hx) as Hd. cbn beta in Hd. by destruct (page_state w x) as [[]|]. }
  assert (Hall : page_all w i (fun d => d <> None)).
  { destruct (hk_pages _ Hok i Hi) as [[_ H]|H]; [done|]. exfalso.
    assert (Hf : is_dirty addr n (backend_ w) = false); [|congruence].
    apply (dirty_law _ _ _ (hk_backend _ Hok) Hreg). intros p Hp Hr. by rewrite (H p Hp Hr). }
  apply wpx_bind. eapply wpx_run; [by apply copy_out_run|]. fold addr n.
  unfold write_back. apply wpx_bind, wpx_get. cbv zeta. rewrite Hlen. fold addr n. set (d := mem_bytes (backend_ w) addr n).
  assert (Hn : 0 < n) by apply Hok.
  assert (Hd : zlen d = n) by (apply zlen_mem_bytes; lia).
  destruct (hs_block _ (hk_shape _ Hok)) as (blk & Hblk & Hbl).
  apply wpx_bind, wpx_zoom, wpx_of_wp. eapply wp_mono.
  { apply (wp_no_throw _ reliable).
    - apply (bs_write_law (client_ w) _ blk); [apply Hok|done|lia|lia|]. rewrite Hd. apply Hok.
    - intros [Hwr _]. destruct (Hwr (client_ w) (handle_ (heap w)) blk (i * n) d) as [c1 H]; try done; try lia; [apply Hok| |by exists tt, c1].
      rewrite Hd. apply Hok. }
  2:{ cbn beta. intros e c' [[Hc' Hv] Hnr]. unfold same_values in Hv. split; [|done]. apply (heap_change w _ i); try done.
      - by split; try apply Hok.
      - exists blk. by rewrite Hv.
      - intros x _ _. unfold peer_byte. cbn. by rewrite Hv.
      - apply Hok.
      - apply (hk_pages _ Hok i Hi).
      - intros x _. unfold heap_byte, peer_byte. cbn. by rewrite Hv.
      - intros x Hx Hs. unfold peer_byte. cbn. rewrite Hv. apply (hk_clean _ Hok); [|done].
        unfold in_heap, in_page in *. fold addr n in Hx. lia. }
  cbn beta. intros _ c' [Hc' Hv].
  destruct (clear_law _ _ _ (hk_backend _ Hok) Hreg Hall) as (b' & Hrun & Hf & Hpr & Hby & Hrs).
  apply wpx_bind. eapply wpx_run; [apply zoom_ret; exact Hrun|].
  set (w' := set_heap (count_flush (heap w)) (set_backend b' (set_client c' w))).
  eapply (wpx_run N _ _ _ _ tt w'); [done|].
  assert (Hsr : same_residents (heap w) (heap w')) by (split; [split|..]; done).
  assert (Hmem : forall x, in_page (heap w) i x -> mem_byte b' x = mem_byte (backend_ w) x).
  { intros x Hx. apply (mem_bytes_inv _ _ addr n); [done|exact Hx]. }
  assert (Hpeer : forall x, in_heap (heap w) x -> peer_byte w' x =
    if decide (in_page (heap w) i x) then Some (mem_byte (backend_ w) x) else peer_byte w x).
  { intros x Hx. change (peer_byte w' x) with (peer_byte (set_client c' w) x). rewrite (peer_written w c' i d x); try done.
    - case_decide as Hpx; [|done]. unfold d. unfold in_page in Hpx. fold addr n in Hpx. rewrite znth_mem_bytes by (fold addr; lia).
      fold addr. do 2 f_equal. lia.
    - intros blk' Hb'. assert (blk' = blk) as -> by congruence. by rewrite Hv, decide_True. }
  assert (Hin_heap : forall x, in_page (heap w) i x -> in_heap (heap w) x).
  { unfold in_page, in_heap. fold addr n. lia. }
  assert (Hst : forall x, in_page (heap w) i x -> page_state w' x <> None).
  { intros x Hx. apply Hpr; [apply (page_of_mod b')|]. by apply (in_page_range w i x Hok Hi). }
  assert (Hk : heap_keeps w w').
  { apply (heap_change w w' i); try done.
    - exists (splice (i * n) d blk). split; [cbn; by rewrite Hv, decide_True|]. rewrite zlen_splice; lia.
    - intros k Hk. cbn. by rewrite Hv, decide_False.
    - intros x Hx Hnx. by rewrite Hpeer, decide_False.
    - eapply residents_same; [done|]. apply Hok.
    - left. split; [done|]. exact Hpr.
    - intros x Hx. unfold heap_byte. specialize (Hst x Hx). destruct (page_state w' x); [|done].
      pose proof (page_all_state w i _ x Hok Hi Hall Hx) as Hd'. cbn beta in Hd'. destruct (page_state w x); [|done].
      cbn. by rewrite Hmem.
    - intros x Hx _. rewrite Hpeer, decide_True by auto. cbn. by rewrite Hmem. }
  split; [done|]. split; [done|]. split; [|split; [|done]].
  - intros x Hx _. rewrite Hpeer, decide_True by auto. cbn. by rewrite Hmem.
  - split; [apply frame_other_pages; [done|apply Hsr|done]|]. intros x Hx Hnx.
    rewrite Hpeer, decide_False by done. pose proof (in_page_range w i x Hok Hi) as Hr. split; [|split; [done|]].
    + apply (ff_page _ _ _ _ Hf); [apply (page_of_mod b')|]. intros Hin'. by apply Hnx, Hr.
    + intros Hs. apply (ff_byte _ _ _ _ Hf); [|done]. intros Hin'. by apply Hnx, Hr.
Qed.

Record evicted w w' i : Prop := {
  ev_order : resident_order_ (heap w') = filter (fun j => j <> i) (resident_order_ (heap w));
  ev_bytes : resident_bytes (stats_ (heap w')) = resident_bytes (stats_ (heap w)) - page_bytes_ (heap w);
  ev_gone : page_all w' i (fun d => d = None)
}.

Record moved w w' i : Prop := {
  mv_order : resident_order_ (heap w') = filter (fun j => j <> i) (resident_order_ (heap w)) ++ [i];
  mv_bytes : resident_bytes (stats_ (heap w')) = resident_bytes (stats_ (heap w));
  mv_why : ~ reliable
}.

Lemma zlen_without i (l : list Z) : NoDup l -> i ∈ l -> zlen (filter (fun j => j <> i) l) = zlen l - 1.
Proof.
  intros Hn. induction l as [|x l IH]; intros Hin; [by apply not_elem_of_nil in Hin|].
  apply NoDup_cons in Hn as [Hx Hn]. rewrite filter_cons. apply elem_of_cons in Hin as [->|Hin].
  - rewrite decide_False by auto. rewrite zlen_cons. assert (Hf : filter (fun j => j <> x) l = l).
    { clear IH Hn. induction l as [|y l IH]; [done|]. apply not_elem_of_cons in Hx as [Hne Hx].
      rewrite filter_cons_True by done. by rewrite IH. }
    rewrite Hf. lia.
  - rewrite decide_True by (intros ->; done). rewrite !zlen_cons, IH by done. lia.
Qed.

Lemma splice_back_ok i h : i ∈ resident_order_ h -> residents_ok h -> residents_ok (splice_back i h).
Proof.
  intros Hin [Hn Hk Hr Hb]. unfold splice_back. split; cbn [resident_order_ resident_ stats_ set_residents page_bytes_ page_count_].
  - apply NoDup_app. split; [by apply NoDup_filter|]. split; [|apply NoDup_singleton].
    intros j Hj Hji. apply list_elem_of_singleton in Hji as ->. apply list_elem_of_filter in Hj. by destruct Hj.
  - intros j. rewrite Hk, elem_of_app, list_elem_of_filter, list_elem_of_singleton.
    destruct (decide (j = i)) as [->|]; [tauto|tauto].
  - intros j. rewrite elem_of_app, list_elem_of_filter, list_elem_of_singleton. intros [[_ Hj]| ->]; by apply Hr.
  - rewrite Hb, zlen_app, zlen_without by done. change (zlen [i]) with 1. lia.
Qed.

Lemma forget_ok i h : i ∈ resident_order_ h -> residents_ok h -> residents_ok (forget i (page_bytes_ h) h).
Proof.
  intros Hin [Hn Hk Hr Hb]. unfold forget. split; cbn [resident_order_ resident_ stats_ set_residents page_bytes_ page_count_ resident_bytes].
  - by apply NoDup_filter.
  - intros j. rewrite list_elem_of_filter, elem_of_difference, not_elem_of_singleton, Hk. tauto.
  - intros j Hj. apply list_elem_of_filter in Hj as [_ ?]. by apply Hr.
  - rewrite Hb, zlen_without by done. lia.
Qed.

Lemma frame_refl b lo n : fb_ok b -> fb_frame lo n b b.
Proof. by split. Qed.

(** Moving a page to the back of the queue changes nothing a program sees. *)
Lemma splice_back_keeps w i : heap_ok w -> i ∈ resident_order_ (heap w) ->
  heap_keeps w (set_heap (splice_back i (heap w)) w).
Proof.
  intros Hok Hin. pose proof (ro_range _ (hk_residents _ Hok) _ Hin) as Hi. set (w' := set_heap _ _).
  assert (Hsub : forall j, j ∈ resident_order_ (heap w) -> j ∈ resident_order_ (heap w')).
  { intros j Hj. cbn. apply elem_of_app. rewrite list_elem_of_filter, list_elem_of_singleton.
    destruct (decide (j = i)); tauto. }
  apply (heap_change w w' i); try done; try apply Hok.
  - by apply frame_refl, Hok.
  - apply splice_back_ok; [done|apply Hok].
  - intros j _. apply Hsub.
  - destruct (hk_pages _ Hok i Hi) as [[_ H]|H]; [left|right]; [|done]. split; [by apply Hsub|done].
  - intros x Hx Hs. apply (hk_clean _ Hok); [|done]. unfold in_heap, in_page in *.
    pose proof (page_in_region w i Hok Hi). lia.
Qed.

Lemma evict_page_spec w i : heap_ok w -> i ∈ resident_order_ (heap w) ->
  wpx N (evict_page i)
    (fun _ w' => heap_keeps w w' /\ other_pages i w w' /\ fb_resolved (backend_ w') = fb_resolved (backend_ w) /\
       (evicted w w' i \/ moved w w' i)) (fun _ _ => False) w.
Proof.
  intros Hok Hin. pose proof (ro_range _ (hk_residents _ Hok) _ Hin) as Hi.
  destruct (page_in_region w i Hok Hi) as (_ & H1 & H2 & Hlen). unfold evict_page.
  apply wpx_bind, wpx_get. rewrite decide_True by (by apply Hok). cbv zeta. rewrite Hlen.
  set (addr := page_addr (heap w) i). set (n := page_bytes_ (heap w)).
  apply wpx_bind, wpx_catch, wpx_bind. eapply wpx_mono; [by apply flush_page_spec| |]; cbn beta.
  2:{ intros e w1 (Hk & Hh & Hbk & Hnr). apply wpx_ret. cbn [negb]. eapply wpx_run; [done|]. rewrite Hh.
      assert (Hin1 : i ∈ resident_order_ (heap w1)) by by rewrite Hh.
      pose proof (splice_back_keeps w1 i (kp_ok _ _ Hk) Hin1) as Hk2. rewrite Hh in Hk2.
      split; [by eapply keeps_trans|]. split; [|split].
      - intros j P _ _ HP. unfold page_all in *. cbn. by rewrite Hbk.
      - cbn. by rewrite Hbk.
      - right. by split. }
  intros _ w1 (Hk & Hsr & Hsync & [Hoth _] & Hres). apply wpx_ret. cbn [negb].
  pose proof (kp_ok _ _ Hk) as Hok1. pose proof (kp_same _ _ Hk) as Hs1.
  assert (Hin1 : i ∈ resident_order_ (heap w1)) by by rewrite (sr_order _ _ Hsr).
  assert (Hi1 : 0 <= i < page_count_ (heap w1)) by by rewrite (sh_count _ _ Hs1).
  assert (Ha1 : page_addr (heap w1) i = addr) by by unfold page_addr; rewrite (sh_base _ _ Hs1), (sh_page _ _ Hs1).
  destruct (page_in_region w1 i Hok1 Hi1) as (Hreg1 & _). rewrite Ha1, (sh_page _ _ Hs1) in Hreg1. fold n in Hreg1.
  destruct (evict_law _ _ _ (hk_backend _ Hok1) Hreg1) as (ok & b' & Hrun & Hrs & Hev).
  apply wpx_bind. eapply wpx_run; [apply zoom_ret; exact Hrun|]. destruct ok; cbn [negb].
  - destruct Hev as [Hf Hgone]. set (w' := set_heap (forget i n (heap w1)) (set_backend b' w1)).
    eapply (wpx_run N _ _ _ _ tt w'); [done|].
    assert (Hgone' : page_all w' i (fun d => d = None)).
    { intros p. change (page_addr (heap w') i) with (page_addr (heap w1) i). rewrite Ha1.
      change (page_bytes_ (heap w')) with (page_bytes_ (heap w1)). rewrite (sh_page _ _ Hs1). apply Hgone. }
    assert (Hnone : forall x, in_page (heap w1) i x -> page_state w' x = None).
    { intros x Hx. apply Hgone'; [apply (page_of_mod b')|]. by apply (in_page_range w1 i x Hok1 Hi1). }
    assert (Hk2 : heap_keeps w1 w').
    { apply (heap_change w1 w' i); try done; try apply Hok1.
      - by rewrite Ha1, (sh_page _ _ Hs1).
      - cbn. pose proof (forget_ok i (heap w1) Hin1 (hk_residents _ Hok1)) as Hr. by rewrite (sh_page _ _ Hs1) in Hr.
      - intros j Hne Hj. cbn. by apply list_elem_of_filter.
      - by right.
      - intros x Hx. unfold heap_byte. rewrite (Hnone x Hx). destruct (page_state w1 x) eqn:E; [|done].
        apply (Hsync x Hx). congruence.
      - intros x Hx Hs. by rewrite (Hnone x Hx) in Hs. }
    split; [by eapply keeps_trans|]. split; [|split; [cbn; by rewrite Hrs|left]].
    + intros j P Hne Hj HP. apply (frame_other_pages w1 w' i Hok1); [by split|by rewrite Ha1, (sh_page _ _ Hs1)|done| |].
      * by rewrite (sh_count _ _ Hs1).
      * by apply Hoth.
    + split; cbn.
      * by rewrite (sr_order _ _ Hsr).
      * by rewrite (sr_bytes _ _ Hsr).
      * exact Hgone'.
  - subst b'. set (w' := set_heap (splice_back i (heap w1)) w1).
    assert (Heta : set_backend (backend_ w1) w1 = w1) by by destruct w1.
    eapply (wpx_run N _ _ _ _ tt w'); [by rewrite Heta|].
    split; [eapply keeps_trans; [done|by apply splice_back_keeps]|]. split; [done|]. split; [done|]. right. split; cbn.
    + by rewrite (sr_order _ _ Hsr).
    + by rewrite (sr_bytes _ _ Hsr).
    + intros [_ He]. destruct (He (backend_ w1) addr n (hk_backend _ Hok1) Hreg1) as (b2 & H). congruence.
Qed.

(** ** Keeping to the budget *)

Definition within_budget w : Prop := resident_bytes (stats_ (heap w)) <= local_budget_bytes_ (heap w).

Lemma filter_front i (l : list Z) : NoDup (i :: l) -> filter (fun j => j <> i) (i :: l) = l.
Proof.
  intros [Hi Hn]%NoDup_cons. rewrite filter_cons_False by auto. clear Hn.
  induction l as [|y l IH]; [done|]. apply not_elem_of_cons in Hi as [Hne Hi].
  rewrite filter_cons_True by done. by rewrite IH.
Qed.

Lemma enforce_budget_spec f : forall w, heap_ok w -> N \/ (reliable /\ zlen (resident_order_ (heap w)) <= Z.of_nat f + 1) ->
  wpx N (enforce_budget f)
    (fun _ w' => heap_keeps w w' /\ within_budget w' /\ fb_resolved (backend_ w') = fb_resolved (backend_ w) /\
       (within_budget w -> w' = w) /\
       (reliable -> forall i P, last (resident_order_ (heap w)) = Some i -> page_all w i P -> page_all w' i P))
    (fun _ _ => False) w.
Proof.
  induction f as [|f IH]; intros w Hok Hfuel.
  all: pose proof (hk_residents _ Hok) as Hr; pose proof (hk_shape _ Hok) as Hsh.
  all: cbn [enforce_budget]; apply wpx_bind, wpx_get.
  all: destruct (Z.ltb_spec (local_budget_bytes_ (heap w)) (resident_bytes (stats_ (heap w)))) as [Hover|Hfit]; cbn [andb];
    [|apply wpx_ret; split; [by apply keeps_refl|done]].
  all: destruct (Z.ltb_spec 1 (zlen (resident_order_ (heap w)))) as [Hlen|Hlen];
    [|exfalso; rewrite (ro_bytes _ Hr) in Hover; pose proof (hs_budget _ Hsh); pose proof (hs_page _ Hsh);
      pose proof (zlen_nonneg (resident_order_ (heap w))); nia].
  { unfold wpx. destruct Hfuel as [|[_ ?]]; [done|lia]. }
  destruct (resident_order_ (heap w)) as [|front rest] eqn:Eo; [done|].
  apply wpx_bind. eapply wpx_mono; [apply evict_page_spec; [done|]| |done].
  { rewrite Eo. left. }
  cbn beta. intros _ w1 (Hk & Hoth & Hres & Hev).
  assert (Hfuel1 : N \/ (reliable /\ zlen (resident_order_ (heap w1)) <= Z.of_nat f + 1)).
  { destruct Hfuel as [|[Hrel Hle]]; [by left|]. destruct Hev as [Hev|Hmv]; [|by destruct (mv_why _ _ _ Hmv)].
    right. split; [done|]. rewrite (ev_order _ _ _ Hev), Eo, filter_front by (rewrite <- Eo; apply Hr).
    rewrite zlen_cons in Hle. lia. }
  eapply wpx_mono; [apply (IH w1 (kp_ok _ _ Hk) Hfuel1)| |done]. cbn beta.
  intros _ w2 (Hk2 & Hb2 & Hres2 & _ & Hlast). split; [by eapply keeps_trans|]. split; [done|].
  split; [congruence|]. split; [unfold within_budget; lia|].
  intros Hrel i P Hi HP. destruct Hev as [Hev|Hmv]; [|by destruct (mv_why _ _ _ Hmv)].
  pose proof (ev_order _ _ _ Hev) as Ho1. rewrite Eo, filter_front in Ho1 by (rewrite <- Eo; apply Hr).
  assert (Hrest : last rest = Some i).
  { destruct rest as [|y rest]; [rewrite zlen_cons in Hlen; change (zlen []) with 0 in Hlen; lia|done]. }
  apply (Hlast Hrel); [by rewrite Ho1|]. apply Hoth; [| |done].
  - intros ->. pose proof (ro_nodup _ Hr) as Hn. rewrite Eo in Hn. apply NoDup_cons in Hn as [Hn _]. apply Hn.
    apply last_Some_elem_of in Hrest. done.
  - apply (ro_range _ Hr). rewrite Eo. right. by apply last_Some_elem_of.
Qed.

(** ** Answering a fault *)

Lemma zlen_le_range n (l : list Z) : NoDup l -> (forall i, i ∈ l -> 0 <= i < n) -> zlen l <= Z.max n 0.
Proof.
  intros Hn Hr. assert (Hs : l ⊆+ seqZ 0 n). { apply NoDup_submseteq; [done|]. intros i Hi. apply elem_of_seqZ. specialize (Hr i Hi). lia. }
  apply submseteq_length in Hs. rewrite length_seqZ in Hs. unfold zlen. lia.
Qed.

Lemma add_resident_ok i h : 0 <= i < page_count_ h -> page_length h i = page_bytes_ h -> residents_ok h ->
  residents_ok (add_resident i h) /\ same_heap h (add_resident i h) /\ i ∈ resident_order_ (add_resident i h) /\
  (forall j, j ∈ resident_order_ h -> j ∈ resident_order_ (add_resident i h)) /\
  (i ∉ resident_order_ h -> last (resident_order_ (add_resident i h)) = Some i) /\
  (i ∈ resident_order_ h -> resident_bytes (stats_ (add_resident i h)) = resident_bytes (stats_ h)).
Proof.
  intros Hi Hlen [Hn Hk Hr Hb]. unfold add_resident. cbv zeta. case_decide as Hin.
  - split; [by split|]. split; [by split|]. rewrite Hk in Hin. split; [done|]. split; [done|]. done.
  - rewrite Hk in Hin. rewrite Hlen. split; [|split; [by split|]].
    + split; cbn [resident_order_ resident_ stats_ set_residents page_bytes_ page_count_ resident_bytes].
      * apply NoDup_app. split; [done|]. split; [|apply NoDup_singleton].
        intros j Hj Hji. apply list_elem_of_singleton in Hji as ->. done.
      * intros j. rewrite elem_of_union, elem_of_singleton, Hk, elem_of_app, list_elem_of_singleton. tauto.
      * intros j. rewrite elem_of_app, list_elem_of_singleton. intros [?| ->]; [by apply Hr|done].
      * rewrite Hb, zlen_app. change (zlen [i]) with 1. lia.
    + cbn [resident_order_ set_residents]. split; [apply elem_of_app; right; by apply list_elem_of_singleton|].
      split; [intros j Hj; apply elem_of_app; by left|]. split; [|done]. intros _. apply last_snoc.
Qed.

Lemma add_resident_length i h : zlen (resident_order_ (add_resident i h)) <= zlen (resident_order_ h) + 1.
Proof.
  unfold add_resident. case_decide; cbn [resident_order_ set_residents]; [lia|].
  rewrite zlen_app. change (zlen [i]) with 1. lia.
Qed.

Definition page_of_block w i blk : list byte := slice (i * page_bytes_ (heap w)) (page_bytes_ (heap w)) blk.

Lemma znth_slice {A} off n (l : list A) j : 0 <= off -> 0 <= j < n -> znth (slice off n l) j = znth l (off + j).
Proof.
  intros Ho Hj. rewrite !znth_lookup, lookup_slice by lia. destruct (Z.ltb_spec (Z.of_nat (Z.to_nat j)) n); [|lia].
  f_equal. lia.
Qed.

(** Installing a page: its bytes are the peer's, so nothing changes for the program. *)
Record installed w i w' : Prop := {
  in_keeps : heap_keeps w w';
  in_page_state : (fb_resolved (backend_ w') = true /\ page_all w' i (fun d => d <> None)) \/
    fb_resolved (backend_ w') = fb_resolved (backend_ w);
  in_order : i ∉ resident_order_ (heap w) -> last (resident_order_ (heap w')) = Some i;
  in_bytes : i ∈ resident_order_ (heap w) -> resident_bytes (stats_ (heap w')) = resident_bytes (stats_ (heap w))
}.

Lemma install_page_spec w i blk : heap_ok w -> 0 <= i < page_count_ (heap w) -> page_all w i (fun d => d = None) ->
  bs_value (client_ w) (handle_ (heap w)) = Some blk ->
  exists w', install_page i (page_of_block w i blk) w = (Ret tt, w') /\ installed w i w'.
Proof.
  intros Hok Hi Hnone Hblk. destruct (page_in_region w i Hok Hi) as (Hreg & H1 & H2 & Hlen).
  pose proof (page_in_block w i Hok Hi) as [Hb0 Hb1]. pose proof (hk_shape _ Hok) as Hsh.
  assert (Hbl : zlen blk = capacity_ (heap w)) by (destruct (hs_block _ Hsh) as (b0 & ? & ?); congruence).
  set (d := page_of_block w i blk). pose proof (hs_page _ Hsh) as Hpb.
  assert (Hd : zlen d = page_bytes_ (heap w)) by (apply zlen_slice; lia).
  destruct (resolve_law (backend_ w) (page_addr (heap w) i) d) as (b' & Hrun & Hf & Hcase);
    [apply Hok|by rewrite Hd|by rewrite Hd|]. rewrite Hd in *.
  set (w' := set_heap (add_resident i (heap w)) (set_backend b' w)).
  destruct (add_resident_ok i (heap w) Hi Hlen (hk_residents _ Hok)) as (Hro & Hsame & Hin & Hsub & Hlast & Hbytes).
  assert (Hpeer : forall x, in_page (heap w) i x -> peer_byte w x = znth d (x - page_addr (heap w) i)).
  { intros x Hx. unfold peer_byte. rewrite Hblk. unfold d, page_of_block. unfold in_page in Hx.
    rewrite znth_slice by lia. f_equal. unfold page_addr. lia. }
  assert (Hst : forall (P : option bool -> Prop) x, in_page (heap w) i x ->
    range_pages (page_addr (heap w) i) (page_bytes_ (heap w)) b' P -> P (page_state w' x)).
  { intros P x Hx HP. apply HP; [apply (page_of_mod b')|]. by apply (in_page_range w i x Hok Hi). }
  assert (Hpeer' : forall x, peer_byte w' x = peer_byte w x).
  { intros x. unfold peer_byte. cbn. by rewrite (sh_handle _ _ Hsame), (sh_base _ _ Hsame). }
  assert (Hall : forall P, range_pages (page_addr (heap w) i) (page_bytes_ (heap w)) b' P <-> page_all w' i P).
  { intros P. unfold page_all, page_addr. cbn. by rewrite (sh_base _ _ Hsame), (sh_page _ _ Hsame). }
  assert (Hk : heap_keeps w w').
  { apply (heap_change w w' i); try done; try apply Hok.
    - intros j _. apply Hsub.
    - destruct Hcase as [(_ & Hp & _)|(_ & Hp)]; [left; split; [done|]|right]; by apply Hall.
    - intros x Hx. unfold heap_byte. rewrite Hpeer'. rewrite (page_all_state w i _ x Hok Hi Hnone Hx).
      destruct Hcase as [(_ & Hp & Hm)|(_ & Hp)].
      + pose proof (Hst _ x Hx Hp) as Hs. cbn beta in Hs. destruct (page_state w' x); [|done].
        rewrite Hpeer by done. unfold in_page in Hx. rewrite <- Hm, znth_mem_bytes by lia. cbn. do 2 f_equal. lia.
      + by rewrite (Hst _ x Hx Hp).
    - intros x Hx Hs. rewrite Hpeer', Hpeer by done. destruct Hcase as [(_ & Hp & Hm)|(_ & Hp)].
      + unfold in_page in Hx. rewrite <- Hm, znth_mem_bytes by lia. cbn. do 2 f_equal. lia.
      + by rewrite (Hst _ x Hx Hp) in Hs. }
  exists w'. split.
  { unfold install_page, on_backend. rewrite bind_get. fold d. rewrite Hd. by rewrite (bind_ret _ _ _ _ _ (zoom_ret _ _ _ _ _ _ Hrun)). }
  split; [done| |done|done]. destruct Hcase as [(Hr & Hp & _)|(Hr & _)]; [left|by right].
  split; [done|]. by apply Hall.
Qed.

Lemma install_page_heap w i d w' : install_page i d w = (Ret tt, w') -> heap w' = add_resident i (heap w).
Proof.
  unfold install_page, on_backend, modify_heap, zoom. rewrite bind_get. unfold bind.
  destruct (resolve_fault _ _ _ _) as [[?|?| |] b]; intros H; by inversion H.
Qed.

Lemma fault_install_spec fuel w i blk : heap_ok w -> 0 <= i < page_count_ (heap w) -> page_all w i (fun d => d = None) ->
  bs_value (client_ w) (handle_ (heap w)) = Some blk ->
  N \/ (reliable /\ zlen (resident_order_ (heap w)) <= Z.of_nat fuel) ->
  wpx N (fault_install fuel i (page_of_block w i blk))
    (fun _ w' => heap_keeps w w' /\ within_budget w' /\
       (reliable -> within_budget w -> fb_resolved (backend_ w) = false -> fb_resolved (backend_ w') = true ->
        page_all w' i (fun d => d <> None)))
    (fun _ _ => False) w.
Proof.
  intros Hok Hi Hnone Hblk Hfuel. destruct (install_page_spec w i blk Hok Hi Hnone Hblk) as (w' & Hrun & [Hk Hcase Hlast Hbytes]).
  unfold fault_install. apply wpx_bind. eapply wpx_run; [exact Hrun|].
  pose proof (kp_ok _ _ Hk) as Hok'. pose proof (kp_same _ _ Hk) as Hsame. pose proof (hk_residents _ Hok') as Hro.
  pose proof (heap_bounds _ Hok) as (_ & _ & _ & _ & Hcount).
  eapply wpx_mono; [apply (enforce_budget_spec fuel w' Hok')| |done].
  { destruct Hfuel as [|[Hrel Hle]]; [by left|right]. split; [done|].
    rewrite (install_page_heap _ _ _ _ Hrun). pose proof (add_resident_length i (heap w)). lia. }
  cbn beta. intros _ w2 (Hk2 & Hb2 & Hres & Hid & Hkeep). split; [by eapply keeps_trans|]. split; [done|].
  intros Hrel Hbud Hf0 Hf1. rewrite Hres in Hf1.
  assert (Hp : page_all w' i (fun d => d <> None)) by (destruct Hcase as [[_ Hp]|Hr]; [done|congruence]).
  destruct (decide (i ∈ resident_order_ (heap w))) as [Hin0|Hnin].
  - rewrite Hid; [done|]. unfold within_budget in *. by rewrite (Hbytes Hin0), (sh_budget _ _ Hsame).
  - apply (Hkeep Hrel); [by apply Hlast|done].
Qed.

(** The store of blocks may change, as long as no block does. *)
Lemma client_same_keeps w c' : heap_ok w -> bs_ok c' -> same_values (client_ w) c' -> heap_keeps w (set_client c' w).
Proof.
  intros Hok Hc' Hv. unfold same_values in Hv.
  assert (Hp : forall x, peer_byte (set_client c' w) x = peer_byte w x) by (intros x; unfold peer_byte; cbn; by rewrite Hv).
  split; [|done| |done].
  - destruct Hok. split; try done.
    + destruct hk_shape0. split; try done. cbn. by rewrite Hv.
    + intros x Hx Hs. rewrite Hp. by apply hk_clean0.
  - intros x Hx. unfold heap_byte. by rewrite Hp.
Qed.

Lemma fault_fetch_spec w i : heap_ok w -> 0 <= i < page_count_ (heap w) ->
  wp (fault_fetch i)
    (fun r w' => heap_keeps w w' /\ heap w' = heap w /\ backend_ w' = backend_ w /\
       match r with
       | Some d => exists blk, bs_value (client_ w') (handle_ (heap w)) = Some blk /\ d = page_of_block w' i blk
       | None => True
       end) (fun _ _ => False) w.
Proof.
  intros Hok Hi. destruct (page_in_region w i Hok Hi) as (_ & _ & _ & Hlen). pose proof (page_in_block w i Hok Hi) as [Hb0 Hb1].
  destruct (hs_block _ (hk_shape _ Hok)) as (blk & Hblk & Hbl). pose proof (hs_page _ (hk_shape _ Hok)) as Hpb.
  unfold fault_fetch. apply wp_bind, wp_get. rewrite Hlen. apply wp_bind, wp_catch, wp_bind, wp_zoom.
  eapply wp_mono; [apply (bs_read_law (client_ w) _ blk); [apply Hok|done|lia| |lia]| |]; cbn beta.
  { pose proof (hs_limit _ (hk_shape _ Hok)). lia. }
  - intros d c' (Hc' & Hv & ->). unfold wp at 1. cbn [ret]. rewrite zlen_slice by lia.
    rewrite Z.eqb_refl. cbn [negb]. unfold wp. cbn [ret]. split; [by apply client_same_keeps|]. split; [done|]. split; [done|].
    exists blk. split; [|done]. cbn. by rewrite Hv.
  - intros e c' [Hc' Hv]. unfold wp. cbn [ret]. split; [by apply client_same_keeps|]. done.
Qed.

Lemma wpx_scope {A} (c : M World A) Q E w :
  wpx N c (fun a w' => Q a (set_heap (set_depth (g_fault_depth (heap w') - 1) (heap w')) w'))
    (fun e w' => E e (set_heap (set_depth (g_fault_depth (heap w') - 1) (heap w')) w'))
    (set_heap (set_depth (g_fault_depth (heap w) + 1) (heap w)) w) -> wpx N (with_scope c) Q E w.
Proof. unfold wpx, with_scope. by destruct (c _) as [[]]. Qed.

Lemma depth_keeps w d : heap_ok w -> heap_keeps w (set_heap (set_depth d (heap w)) w).
Proof.
  intros []. split; [|done..]. split; try done.
  - by destruct hk_shape0.
  - by destruct hk_residents0.
Qed.

Lemma absent_page w x : heap_ok w -> in_heap (heap w) x -> page_state w x = None ->
  page_all w (page_index_of (heap w) x) (fun d => d = None).
Proof.
  intros Hok Hx Hs. destruct (page_index_spec w x Hok Hx) as [Hi Hin].
  destruct (hk_pages _ Hok _ Hi) as [[_ Hall]|]; [|done]. by pose proof (page_all_state w _ _ x Hok Hi Hall Hin).
Qed.

Lemma handle_fault_spec fuel w x wr : heap_ok w -> in_heap (heap w) x -> page_state w x = None ->
  N \/ (reliable /\ zlen (resident_order_ (heap w)) <= Z.of_nat fuel) ->
  wpx N (handle_fault fuel x wr)
    (fun _ w' => heap_keeps w w' /\ (within_budget w -> within_budget w') /\
       (reliable -> within_budget w -> fb_resolved (backend_ w) = false -> fb_resolved (backend_ w') = true ->
        page_state w' x <> None))
    (fun _ _ => False) w.
Proof.
  intros Hok Hx Hs Hfuel. unfold handle_fault. apply wpx_scope.
  set (w1 := set_heap _ w). pose proof (depth_keeps w (g_fault_depth (heap w) + 1) Hok) as Hk1. fold w1 in Hk1.
  pose proof (kp_ok _ _ Hk1) as Hok1. assert (Hx1 : in_heap (heap w1) x) by done.
  destruct (page_index_spec w1 x Hok1 Hx1) as [Hi Hin]. pose proof (absent_page w1 x Hok1 Hx1 Hs) as Habs.
  set (i := page_index_of (heap w1) x) in *.
  apply wpx_bind, wpx_get. unfold in_heap in Hx1.
  rewrite (proj2 (Z.ltb_ge _ _)), (proj2 (Z.leb_gt _ _)) by lia. cbn [orb]. fold i.
  apply wpx_bind, wpx_of_wp. eapply wp_mono; [by apply fault_fetch_spec| |done]. cbn beta.
  intros r w2 (Hk2 & Hh2 & Hb2 & Hr). pose proof (kp_ok _ _ Hk2) as Hok2.
  assert (Hdone : forall w3, heap_keeps w2 w3 -> heap_keeps w (set_heap (set_depth (g_fault_depth (heap w3) - 1) (heap w3)) w3)).
  { intros w3 Hk3. eapply keeps_trans; [exact Hk1|]. eapply keeps_trans; [exact Hk2|]. eapply keeps_trans; [exact Hk3|].
    apply depth_keeps, Hk3. }
  destruct r as [d|].
  2:{ apply wpx_ret. split; [by apply Hdone, keeps_refl|]. unfold within_budget. cbn. rewrite Hh2, Hb2. split; [done|].
      cbn. congruence. }
  destruct Hr as (blk & Hblk & ->). rewrite <- Hh2 in Hblk.
  assert (Hi2 : 0 <= i < page_count_ (heap w2)) by by rewrite Hh2.
  eapply wpx_mono; [apply fault_install_spec; try done| |done].
  { intros p Hp Hr. rewrite Hb2. apply Habs; [done|]. by rewrite Hh2 in Hr. }
  { by rewrite Hh2. }
  cbn beta. intros _ w3 (Hk3 & Hb3 & Hpres). split; [by apply Hdone|]. split; [by intros _|].
  intros Hrel Hbud Hf0 Hf1. apply (page_all_state w3 i (fun d => d <> None) x (kp_ok _ _ Hk3)).
  - by rewrite (sh_count _ _ (kp_same _ _ Hk3)).
  - apply Hpres; try done; [unfold within_budget; by rewrite Hh2|by rewrite Hb2].
  - unfold in_page, page_addr. rewrite (sh_base _ _ (kp_same _ _ Hk3)), (sh_page _ _ (kp_same _ _ Hk3)), Hh2. exact Hin.
Qed.

(** ** Loads and stores *)

Lemma backend_lens : lens (@backend_ B C) set_backend.
Proof. by split; [..|intros []|]. Qed.

(** A change of the backend a program cannot see. *)
Lemma backend_keeps w b' : heap_ok w -> fb_frame 0 0 (backend_ w) b' -> heap_keeps w (set_backend b' w).
Proof.
  intros Hok Hf. set (w' := set_backend b' w).
  assert (Hst : forall p, p mod page_size = 0 -> fb_page b' p = fb_page (backend_ w) p).
  { intros p Hp. apply (ff_page _ _ _ _ Hf); [done|lia]. }
  assert (Hps : forall x, page_state w' x = page_state w x) by (intros x; apply Hst, (page_of_mod b')).
  assert (Hby : forall x, page_state w x <> None -> mem_byte b' x = mem_byte (backend_ w) x).
  { intros x Hx. apply (ff_byte _ _ _ _ Hf); [lia|done]. }
  split; [|done| |done].
  - destruct Hok. split; try done.
    + apply Hf.
    + cbn. by rewrite (ff_armed _ _ _ _ Hf).
    + destruct hk_shape0. split; try done. by apply (ff_region _ _ _ _ Hf).
    + intros i Hi. destruct (hk_pages0 i Hi) as [[Hin H]|H]; [left; split; [done|]|right];
        intros p Hp Hr; cbn; rewrite Hst by done; by apply H.
    + intros x Hx Hs. rewrite Hps in Hs. cbn. rewrite Hby by congruence. by apply hk_clean0.
  - intros x Hx. unfold heap_byte. rewrite Hps. destruct (page_state w x) eqn:E; [|done].
    cbn. rewrite Hby by congruence. done.
Qed.

(** A page that a store faulted on although it is resident becomes dirty. *)
Lemma promote_keeps w b' x : heap_ok w -> in_heap (heap w) x -> page_state w x = Some false ->
  fb_frame (page_of x) page_size (backend_ w) b' -> fb_page b' (page_of x) = Some true ->
  (forall y, page_of (B := B) y = page_of x -> mem_byte b' y = mem_byte (backend_ w) y) ->
  heap_keeps w (set_backend b' w).
Proof.
  intros Hok Hx Hs Hf Ht Hby. set (w' := set_backend b' w).
  assert (Hst : forall p, p mod page_size = 0 -> fb_page b' p = fb_page (backend_ w) p \/ (p = page_of x /\ fb_page b' p = Some true)).
  { intros p Hp. destruct (decide (p = page_of x)) as [->|Hne]; [by right|left].
    apply (ff_page _ _ _ _ Hf); [done|]. intros Hin. apply Hne. symmetry.
    apply (multiple_eq page_size); [apply psize_pos|apply (page_of_mod b')|done|lia]. }
  assert (Hby' : forall y, page_state w y <> None -> mem_byte b' y = mem_byte (backend_ w) y).
  { intros y Hy. destruct (decide (page_of (B := B) y = page_of x)) as [|Hne]; [by apply Hby|].
    apply (ff_byte _ _ _ _ Hf); [|done]. intros Hin. apply Hne. symmetry.
    apply (multiple_eq page_size); [apply psize_pos|apply (page_of_mod b')|apply (page_of_mod b')|lia]. }
  assert (Hsome : forall p, p mod page_size = 0 -> fb_page b' p = None <-> fb_page (backend_ w) p = None).
  { intros p Hp. destruct (Hst p Hp) as [->|[-> ->]]; [done|]. unfold page_state in Hs. by rewrite Hs. }
  split; [|done| |done].
  - destruct Hok. split; try done.
    + apply Hf.
    + cbn. by rewrite (ff_armed _ _ _ _ Hf).
    + destruct hk_shape0. split; try done. by apply (ff_region _ _ _ _ Hf).
    + intros i Hi. destruct (hk_pages0 i Hi) as [[Hin H]|H]; [left; split; [done|]|right];
        intros p Hp Hr; cbn; rewrite Hsome by done; by apply H.
    + intros y Hy Hsy. change (page_state w' y) with (fb_page b' (page_of y)) in Hsy.
      destruct (Hst (page_of y) (page_of_mod b' y)) as [He|[_ He]]; [|congruence]. rewrite He in Hsy.
      cbn. rewrite Hby' by (unfold page_state; congruence). by apply hk_clean0.
  - intros y Hy. unfold heap_byte. change (page_state w' y) with (fb_page b' (page_of y)).
    destruct (page_state w y) eqn:E.
    + destruct (fb_page b' (page_of y)) eqn:E'; [cbn; by rewrite Hby' by congruence|].
      apply (Hsome _ (page_of_mod b' y)) in E'. unfold page_state in E. congruence.
    + unfold page_state in E. apply (Hsome _ (page_of_mod b' y)) in E. by rewrite E.
Qed.

Lemma residents_bound w : heap_ok w -> zlen (resident_order_ (heap w)) <= page_count_ (heap w).
Proof.
  intros Hok. pose proof (hk_residents _ Hok) as Hro. pose proof (heap_bounds _ Hok) as (_ & _ & _ & _ & Hcount).
  pose proof (zlen_le_range (page_count_ (heap w)) (resident_order_ (heap w)) (ro_nodup _ Hro) (ro_range _ Hro)). lia.
Qed.

(** How many faults an access can take: one to fetch the page, one to make it writable. *)
Definition faults_left w x (wr : bool) : nat :=
  match page_state w x with
  | None => if wr then 2 else 1
  | Some d => if negb wr || d then 0 else 1
  end.

Definition answered w x : Prop := page_state w x <> None.

Lemma access_spec fuel n : forall w x wr, heap_ok w -> in_heap (heap w) x ->
  N \/ (reliable /\ (page_state w x = None -> zlen (resident_order_ (heap w)) <= Z.of_nat fuel) /\ within_budget w /\
         (faults_left w x wr <= n)%nat) ->
  wpx N (access fuel n x wr)
    (fun ok w' => heap_keeps w w' /\ (within_budget w -> within_budget w') /\
       (ok = true -> permits (backend_ w') x wr = true))
    (fun _ _ => False) w.
Proof.
  induction n as [|n IH]; intros w x wr Hok Hx Hfuel.
  all: pose proof (permits_law _ _ _ x wr (hk_backend _ Hok) (hs_region _ (hk_shape _ Hok)) Hx) as Hp.
  all: change (fb_page (backend_ w) (page_of x)) with (page_state w x) in Hp.
  all: cbn [access]; apply wpx_bind, wpx_get; destruct (permits (backend_ w) x wr) eqn:Epm;
    [apply wpx_ret; split; [by apply keeps_refl|done]|].
  { unfold wpx. destruct Hfuel as [|(_ & _ & _ & Hle)]; [done|]. unfold faults_left in Hle.
    destruct (page_state w x) as [d|]; [|destruct wr; lia]. destruct (negb wr || d); [done|lia]. }
  apply wpx_bind. destruct (page_state w x) as [d|] eqn:Es.
  - (* resident, but a store to a page that is read-only *)
    destruct wr, d; try done.
    destruct (promote_law World backend_ set_backend (handle_fault fuel) (base_ (heap w)) (capacity_ (heap w)) x w)
      as (ok & b' & Hrun & Hpost); try apply Hok; try done; [apply backend_lens|].
    eapply wpx_run; [exact Hrun|]. destruct ok.
    2:{ apply wpx_ret. split; [by apply keeps_refl|done]. }
    destruct (Hpost eq_refl) as (Hf & Ht & Hby). pose proof (promote_keeps w b' x Hok Hx Es Hf Ht Hby) as Hk.
    eapply wpx_mono; [apply IH; [apply Hk|done|]| |done].
    + destruct Hfuel as [|(Hrel & Hc & Hb & Hle)]; [by left|right]. unfold faults_left, page_state. cbn. rewrite Ht.
      split; [done|]. split; [done|]. split; [done|]. cbn. lia.
    + cbn beta. intros ok w' (Hk' & Hb' & Hpm). split; [by eapply keeps_trans|]. split; [|done]. intros Hb. by apply Hb'.
  - (* absent: the handler fetches the page *)
    apply (fetch_law World N backend_ set_backend (handle_fault fuel) (base_ (heap w)) (capacity_ (heap w)));
      try apply Hok; try done; [apply backend_lens|].
    intros wr' b1 Hf1 Hr1. pose proof (backend_keeps w b1 Hok Hf1) as Hk1. set (w1 := set_backend b1 w) in *.
    assert (Hs1 : page_state w1 x = None).
    { rewrite <- Es. apply (ff_page _ _ _ _ Hf1); [apply (page_of_mod b1)|lia]. }
    eapply wpx_mono; [apply (handle_fault_spec fuel w1 x wr'); [apply Hk1|done|done|]| |done].
    { destruct Hfuel as [|(Hrel & Hc & _)]; [by left|right; by auto]. }
    cbn beta. intros _ w2 (Hk2 & Hb2 & Hpres). split; [apply Hk2|]. intros b3 Hf3.
    pose proof (backend_keeps w2 b3 (kp_ok _ _ Hk2) Hf3) as Hk3. set (w3 := set_backend b3 w2) in *.
    assert (Hk : heap_keeps w w3) by (eapply keeps_trans; [exact Hk1|]; by eapply keeps_trans).
    destruct (fb_resolved (backend_ w2)) eqn:Er2.
    2:{ apply wpx_ret. split; [done|]. split; [done|done]. }
    assert (Hx3 : in_heap (heap w3) x) by by apply (in_heap_same _ _ _ (kp_same _ _ Hk)).
    eapply wpx_mono; [apply (IH w3 x wr (kp_ok _ _ Hk) Hx3)| |done].
    + destruct Hfuel as [|(Hrel & Hc & Hb & Hle)]; [by left|right]. split; [done|].
      assert (Hne : page_state w3 x <> None).
      { unfold page_state. cbn. rewrite (ff_page _ _ _ _ Hf3); [|apply (page_of_mod b3)|lia]. by apply Hpres. }
      split; [done|]. split; [by apply Hb2|].
      unfold faults_left in *. rewrite Es in Hle. destruct (page_state w3 x) as [d|]; [|done]. destruct wr, d; cbn; lia.
    + cbn beta. intros ok w' (Hk' & Hb' & Hpm). split; [by eapply keeps_trans|]. split; [|done]. intros Hb. by apply Hb', Hb2.
Qed.

Record heap_sets x v w w' : Prop := {
  st_ok : heap_ok w';
  st_same : same_heap (heap w) (heap w');
  st_byte : forall y, in_heap (heap w) y -> heap_byte w' y = if decide (y = x) then Some v else heap_byte w y;
  st_others : forall k, k <> handle_ (heap w) -> bs_value (client_ w') k = bs_value (client_ w) k
}.

Lemma keeps_sets w1 w2 w3 x v : heap_keeps w1 w2 -> heap_sets x v w2 w3 -> heap_sets x v w1 w3.
Proof.
  intros [] []. split; [done|by eapply same_heap_trans| |].
  - intros y Hy. rewrite st_byte0; [|by apply (in_heap_same _ _ _ kp_same0)]. case_decide; [done|]. by apply kp_byte0.
  - intros k Hk. rewrite st_others0, kp_others0; [done..|]. by rewrite (sh_handle _ _ kp_same0).
Qed.

Lemma mem_store_sets w x v : heap_ok w -> in_heap (heap w) x -> permits (backend_ w) x true = true ->
  heap_sets x v w (set_backend (mem_store x v (backend_ w)) w).
Proof.
  intros Hok Hx Hp. pose proof Hok as Hok0. destruct Hok0.
  rewrite (permits_law _ _ _ x true hk_backend0 (hs_region _ hk_shape0) Hx) in Hp.
  assert (Hd : page_state w x = Some true) by (unfold page_state; destruct (fb_page _ _) as [[]|]; done).
  destruct (store_law _ _ _ x v hk_backend0 (hs_region _ hk_shape0) Hx Hd) as (Hb & Hr & Hpg & Ha & Hby).
  set (w' := set_backend _ w).
  assert (Hst : forall y, page_state w' y = page_state w y) by (intros y; apply Hpg).
  split; [|done| |done].
  - split; try done.
    + cbn. by rewrite Ha.
    + destruct hk_shape0. split; try done. by apply Hr.
    + intros i Hi. destruct (hk_pages0 i Hi) as [[Hin H]|H]; [left; split; [done|]|right];
        intros p Hpm Hpr; cbn; rewrite Hpg; by apply H.
    + intros y Hy Hsy. rewrite Hst in Hsy. cbn. rewrite Hby, decide_False by congruence. by apply hk_clean0.
  - intros y Hy. unfold heap_byte. rewrite Hst. cbn. rewrite Hby. case_decide as Hyx.
    + subst y. by rewrite Hd.
    + done.
Qed.

Lemma load_spec fuel w x : heap_ok w -> in_heap (heap w) x ->
  N \/ (reliable /\ page_count_ (heap w) <= Z.of_nat fuel /\ within_budget w /\ (1 <= fuel)%nat) ->
  wpx N (load fuel x)
    (fun r w' => heap_keeps w w' /\ (within_budget w -> within_budget w') /\ forall v, r = Some v -> heap_byte w x = Some v)
    (fun _ _ => False) w.
Proof.
  intros Hok Hx Hfuel. unfold load. apply wpx_bind. eapply wpx_mono; [apply (access_spec fuel fuel w x false Hok Hx)| |done].
  { destruct Hfuel as [|(Hrel & Hc & Hb & Hf)]; [by left|right]. split; [done|]. split; [intros _; pose proof (residents_bound w Hok); lia|]. split; [done|].
    unfold faults_left. destruct (page_state w x); cbn; lia. }
  cbn beta. intros ok w' (Hk & Hb & Hp). apply wpx_bind, wpx_get, wpx_ret. split; [done|]. split; [done|].
  intros v. destruct ok; [|done]. intros [= <-]. rewrite <- (kp_byte _ _ Hk x Hx).
  pose proof (kp_ok _ _ Hk) as Hok'. pose proof (proj2 (in_heap_same _ _ x (kp_same _ _ Hk)) Hx) as Hx'.
  specialize (Hp eq_refl). rewrite (permits_law _ _ _ x false (hk_backend _ Hok') (hs_region _ (hk_shape _ Hok')) Hx') in Hp.
  unfold heap_byte, page_state. by destruct (fb_page _ _).
Qed.

Lemma store_spec fuel w x v : heap_ok w -> in_heap (heap w) x ->
  N \/ (reliable /\ page_count_ (heap w) <= Z.of_nat fuel /\ within_budget w /\ (2 <= fuel)%nat) ->
  wpx N (store fuel x v)
    (fun ok w' => (within_budget w -> within_budget w') /\ if ok : bool then heap_sets x v w w' else heap_keeps w w')
    (fun _ _ => False) w.
Proof.
  intros Hok Hx Hfuel. unfold store. apply wpx_bind. eapply wpx_mono; [apply (access_spec fuel fuel w x true Hok Hx)| |done].
  { destruct Hfuel as [|(Hrel & Hc & Hb & Hf)]; [by left|right]. split; [done|]. split; [intros _; pose proof (residents_bound w Hok); lia|]. split; [done|].
    unfold faults_left. destruct (page_state w x) as [[]|]; cbn; lia. }
  cbn beta. intros ok w' (Hk & Hb & Hp). apply wpx_bind. destruct ok.
  - eapply wpx_run; [done|]. apply wpx_ret. split; [done|]. eapply keeps_sets; [done|].
    apply mem_store_sets; [apply Hk|by apply (in_heap_same _ _ _ (kp_same _ _ Hk))|by apply Hp].
  - apply wpx_ret, wpx_ret. done.
Qed.

(** ** Flushing and evicting everything *)

Lemma synced_kept w w' i j : heap_ok w -> heap_keeps w w' -> i <> j -> 0 <= i < page_count_ (heap w) ->
  untouched j w w' -> synced w i -> synced w' i.
Proof.
  intros Hok Hk Hne Hi [_ Hun] Hs x Hx Hps. pose proof (kp_same _ _ Hk) as Hsm.
  assert (Hx0 : in_page (heap w) i x) by (unfold in_page, page_addr in *; by rewrite (sh_base _ _ Hsm), (sh_page _ _ Hsm) in Hx).
  assert (Hxh : in_heap (heap w) x).
  { unfold in_heap, in_page in *. pose proof (page_in_region w i Hok Hi). lia. }
  destruct (Hun x Hxh) as (E1 & E2 & E3).
  { intros Hj. apply Hne. by apply (in_page_unique (heap w) i j x); [apply (hk_shape _ Hok)|..]. }
  rewrite E1 in Hps. rewrite E2, E3 by done. by apply Hs.
Qed.

Lemma flush_all_spec l : forall w flushed, heap_ok w -> (forall i, i ∈ l -> i ∈ resident_order_ (heap w)) ->
  (forall i, i ∈ flushed -> 0 <= i < page_count_ (heap w) /\ synced w i) ->
  wpx N (flush_all l)
    (fun _ w' => heap_keeps w w' /\ same_residents (heap w) (heap w') /\ forall i, i ∈ flushed ++ l -> synced w' i)
    (fun _ w' => heap_keeps w w' /\ same_residents (heap w) (heap w') /\ ~ reliable) w.
Proof.
  induction l as [|j l IH]; intros w flushed Hok Hl Hdone; cbn [flush_all].
  { apply wpx_ret. split; [by apply keeps_refl|]. split; [by split|]. intros i. rewrite app_nil_r. apply Hdone. }
  assert (Hj : j ∈ resident_order_ (heap w)) by (apply Hl; left).
  apply wpx_bind. eapply wpx_mono; [by apply flush_page_spec| |]; cbn beta.
  2:{ intros e w' (Hk & Hh & _ & Hnr). split; [done|]. rewrite Hh. split; [by split|done]. }
  intros _ w1 (Hk & Hsr & Hsync & Hun & _). pose proof (kp_same _ _ Hk) as Hsm.
  eapply wpx_mono; [apply (IH w1 (flushed ++ [j])); [apply Hk| |]| |]; cbn beta.
  - intros i Hi. rewrite (sr_order _ _ Hsr). apply Hl. by right.
  - intros i [Hi|Hi]%elem_of_app.
    + destruct (Hdone i Hi) as [Hr Hs]. rewrite (sh_count _ _ Hsm). split; [done|].
      destruct (decide (i = j)) as [->|Hne]; [done|]. by eapply synced_kept.
    + apply list_elem_of_singleton in Hi as ->. rewrite (sh_count _ _ Hsm). split; [|done].
      by apply (ro_range _ (hk_residents _ Hok)).
  - intros _ w' (Hk' & Hsr' & Hs'). split; [by eapply keeps_trans|]. split.
    + destruct Hsr, Hsr'. split; [by eapply same_heap_trans|congruence..].
    + intros i Hi. apply Hs'. by rewrite <- app_assoc.
  - intros e w' (Hk' & Hsr' & Hnr). split; [by eapply keeps_trans|]. split; [|done].
    destruct Hsr, Hsr'. split; [by eapply same_heap_trans|congruence..].
Qed.

(** The peer holds everything a program would read. *)
Definition peer_current w : Prop := forall x, in_heap (heap w) x -> peer_byte w x = heap_byte w x.

Lemma all_synced_current w : heap_ok w -> (forall i, i ∈ resident_order_ (heap w) -> synced w i) -> peer_current w.
Proof.
  intros Hok Hs x Hx. destruct (page_index_spec w x Hok Hx) as [Hi Hin]. unfold heap_byte.
  destruct (page_state w x) eqn:E; [|done].
  destruct (hk_pages _ Hok _ Hi) as [[Hr _]|H]; [by apply (Hs _ Hr x Hin); rewrite E|].
  rewrite (page_all_state w _ _ x Hok Hi H Hin) in E. done.
Qed.

Lemma flush_spec w : heap_ok w ->
  wpx N flush (fun _ w' => heap_keeps w w' /\ same_residents (heap w) (heap w') /\ peer_current w')
    (fun _ w' => heap_keeps w w' /\ same_residents (heap w) (heap w') /\ ~ reliable) w.
Proof.
  intros Hok. unfold flush. apply wpx_bind, wpx_get.
  eapply wpx_mono; [apply (flush_all_spec _ w []); [done|done|]| |done].
  { intros i Hi. by apply not_elem_of_nil in Hi. }
  cbn beta. intros _ w' (Hk & Hsr & Hs). split; [done|]. split; [done|].
  apply all_synced_current; [apply Hk|]. intros i Hi. apply Hs. by rewrite (sr_order _ _ Hsr) in Hi.
Qed.

Lemma no_residents w : heap_ok w -> resident_order_ (heap w) = [] ->
  peer_current w /\ forall x, in_heap (heap w) x -> page_state w x = None.
Proof.
  intros Hok Ho. split.
  - apply all_synced_current; [done|]. intros i Hi. rewrite Ho in Hi. by apply not_elem_of_nil in Hi.
  - intros x Hx. destruct (page_index_spec w x Hok Hx) as [Hi Hin].
    destruct (hk_pages _ Hok _ Hi) as [[Hr _]|H]; [rewrite Ho in Hr; by apply not_elem_of_nil in Hr|].
    apply (page_all_state w _ _ x Hok Hi H Hin).
Qed.

Lemma evict_all_loop_spec f : forall w, heap_ok w -> (length (resident_order_ (heap w)) <= f)%nat ->
  wpx N (evict_all_loop f)
    (fun _ w' => heap_keeps w w' /\ (within_budget w -> within_budget w') /\
       (resident_order_ (heap w') = [] \/ ~ reliable)) (fun _ _ => False) w.
Proof.
  induction f as [|f IH]; intros w Hok Hlen; cbn [evict_all_loop]; apply wpx_bind, wpx_get;
    destruct (resident_order_ (heap w)) as [|i rest] eqn:Eo;
    try (apply wpx_ret; split; [by apply keeps_refl|]; split; [done|]; by left); [cbn in Hlen; lia|].
  apply wpx_bind. eapply wpx_mono; [apply evict_page_spec; [done|rewrite Eo; left]| |done].
  cbn beta. intros _ w1 (Hk & Hoth & _ & Hev). apply wpx_bind, wpx_get.
  pose proof (ro_nodup _ (hk_residents _ Hok)) as Hn. rewrite Eo in Hn.
  destruct Hev as [[Ho Hb _]|[Ho Hb Hnr]]; rewrite Eo, filter_front in Ho by done; rewrite Ho.
  - rewrite zlen_cons, (proj2 (Z.eqb_neq _ _)) by lia.
    eapply wpx_mono; [apply (IH w1); [apply Hk|]| |done].
    { rewrite Ho. cbn in Hlen. lia. }
    cbn beta. intros _ w' (Hk' & Hb' & Hd). split; [by eapply keeps_trans|]. split; [|done].
    intros Hbud. apply Hb'. unfold within_budget in *. rewrite Hb, (sh_budget _ _ (kp_same _ _ Hk)).
    pose proof (hs_page _ (hk_shape _ Hok)). lia.
  - rewrite zlen_app, !zlen_cons, zlen_nil, (proj2 (Z.eqb_eq _ _)) by lia.
    apply wpx_ret. split; [done|]. split; [|by right]. unfold within_budget. by rewrite Hb, (sh_budget _ _ (kp_same _ _ Hk)).
Qed.

Lemma flush_and_evict_all_spec w : heap_ok w ->
  wpx N flush_and_evict_all
    (fun _ w' => heap_keeps w w' /\ (within_budget w -> within_budget w') /\
       (resident_order_ (heap w') = [] \/ ~ reliable)) (fun _ _ => False) w.
Proof. intros Hok. unfold flush_and_evict_all. apply wpx_bind, wpx_get. by apply evict_all_loop_spec. Qed.
End ops.
End spec.
