(* ===== verification/HeapDemo.v ===== *)
(** * A small machine for the examples

    A kernel with pages of four bytes, and a store of blocks whose writes can be
    made to fail.  They satisfy the hypotheses of the heap's theorems. *)

From S2P Require Import Prelude PageRegions FaultBackend PageFaultWin RemoteHeap.

(** ** A kernel *)

Record DemoKernel := mkKernel {
  dk_access : Z -> Access;
  dk_mem : Z -> byte;
  dk_res : list (Z * Z)
}.

Definition in_range (lo n x : Z) : bool := (lo <=? x) && (x <? lo + n).

Lemma in_range_spec lo n x : in_range lo n x = bool_decide (lo <= x < lo + n).
Proof.
  unfold in_range. apply eq_true_iff_eq. rewrite andb_true_iff, Z.leb_le, Z.ltb_lt, bool_decide_eq_true. done.
Qed.

#[refine, local] Instance demo_memory : PagedMemory DemoKernel := {|
  os_page := 4;
  access_of k p := dk_access k p;
  byte_at k x := dk_mem k x;
  store_bytes a d k := mkKernel (dk_access k) (fun x => default (dk_mem k x) (znth d (x - a))) (dk_res k)
|}.
Proof.
  - by exists 2.
  - done.
  - done.
Defined.

(** The first address past every reservation. *)
Definition dk_top (k : DemoKernel) : Z := foldr (fun r top => Z.max (r.1 + r.2) top) 4096 (dk_res k).

Lemma dk_top_spec k b n : (b, n) ∈ dk_res k -> b + n <= dk_top k.
Proof.
  unfold dk_top. induction (dk_res k) as [|r l IH]; [by intros ?%not_elem_of_nil|].
  cbn [foldr]. intros [<-|Hin]%elem_of_cons; [cbn; lia|]. specialize (IH Hin). lia.
Qed.

Definition set_access (a n : Z) (pr : Access) (k : DemoKernel) : Z -> Access :=
  fun p => if in_range a n p then pr else dk_access k p.

Lemma set_access_spec a n pr k p : set_access a n pr k p = if decide (a <= p < a + n) then pr else dk_access k p.
Proof.
  unfold set_access. rewrite in_range_spec.
  by destruct (decide _) as [H|H]; [rewrite bool_decide_eq_true_2|rewrite bool_decide_eq_false_2].
Qed.

Lemma dk_top_pos k : 4096 <= dk_top k.
Proof. unfold dk_top. induction (dk_res k) as [|r l IH]; cbn; lia. Qed.

Fixpoint find_res (b : Z) (l : list (Z * Z)) : option Z :=
  match l with
  | [] => None
  | (b', n) :: l => if b =? b' then Some n else find_res b l
  end.

Lemma find_res_In b n l : find_res b l = Some n -> (b, n) ∈ l.
Proof.
  induction l as [|[b' n'] l IH]; [done|]. cbn. destruct (Z.eqb_spec b b') as [->|].
  - intros [= ->]. left.
  - intros H. right. by apply IH.
Qed.

Lemma find_res_remove a b l :
  find_res b (filter (fun r => r.1 <> a) l) = if decide (b = a) then None else find_res b l.
Proof.
  induction l as [|[k n] l IH]; [by case_decide|]. rewrite filter_cons. cbn [fst].
  destruct (decide (k <> a)) as [Hne|He]; cbn [find_res]; rewrite IH.
  - destruct (Z.eqb_spec b k) as [Hbk|]; case_decide; congruence.
  - assert (k = a) as -> by (destruct (decide (k = a)); [done|tauto]).
    destruct (Z.eqb_spec b a) as [Hba|]; case_decide; congruence.
Qed.

#[refine, local] Instance demo_vm : WinVM DemoKernel := {|
  reservation k b := find_res b (dk_res k);
  vm_reserve n k :=
    if (0 <? n) && (n mod 4 =? 0) && (dk_top k mod 4 =? 0) && (dk_top k + n <? U64)
    then (dk_top k, mkKernel (set_access (dk_top k) n NoPage k) (dk_mem k) ((dk_top k, n) :: dk_res k))
    else (0, k);
  vm_commit a n k :=
    (true, mkKernel (set_access a n ReadWrite k)
       (fun x => if in_range a n x && bool_decide (dk_access k (x - x mod 4) = NoPage) then x00 else dk_mem k x) (dk_res k));
  vm_protect a n pr k := (true, mkKernel (set_access a n pr k) (dk_mem k) (dk_res k));
  vm_decommit a n k := (true, mkKernel (set_access a n NoPage k) (dk_mem k) (dk_res k));
  vm_release a k := mkKernel (dk_access k) (dk_mem k) (filter (fun r => r.1 <> a) (dk_res k))
|}.
Proof.
  - done.
  - intros n k b k' Hr Hb. destruct ((0 <? n) && _ && _ && _) eqn:E; [|by injection Hr as <- _].
    injection Hr as <- <-. zprop.
    pose proof (dk_top_pos k).
    split; [done|]. split; [lia|]. split; [done|]. split; [done|]. split; [|split; [|split; [done|]]].
    + intros b' n' Hf. right. by apply dk_top_spec, find_res_In.
    + intros p _. cbn. apply set_access_spec.
    + intros p. cbn. destruct (Z.eqb_spec p (dk_top k)); [by rewrite decide_True|by rewrite decide_False].
  - intros n k k' Hr. destruct ((0 <? n) && _ && _ && _) eqn:E; [|by injection Hr].
    injection Hr as Ht _. pose proof (dk_top_pos k). lia.
  - intros a n k k' [= <-]. split; [intros p _; cbn; apply set_access_spec|]. split; [|split; [|done]].
    + intros x Hx. cbn. rewrite in_range_spec, bool_decide_eq_false_2 by done. done.
    + intros p x Hp Hin Hac Hx. cbn. destruct (bool_decide (dk_access k (x - x mod 4) = NoPage)) eqn:E; [|by rewrite andb_false_r].
      apply bool_decide_eq_true in E. exfalso. apply Hac. cbn. rewrite <- E. f_equal.
      cbn in Hp, Hx. pose proof (Z.div_mod x 4). pose proof (Z.mod_pos_bound x 4). pose proof (Z.div_mod p 4). lia.
  - done.
  - intros a n pr k k' [= <-]. split; [intros p _; cbn; apply set_access_spec|done].
  - done.
  - intros a n k k' [= <-]. split; [intros p _; cbn; apply set_access_spec|done].
  - done.
  - intros a n k Hr. split; [done|]. split; [done|]. intros p. cbn. apply find_res_remove.
Defined.

(** ** A store of blocks *)

Record DemoStore := mkStore {
  ds_blocks : gmap Z (list byte);
  ds_next : Z;
  ds_up : bool            (* whether the peer takes writes *)
}.

Definition in_block (b : list byte) (off n : Z) : bool := (0 <=? off) && (0 <=? n) && (off + n <=? zlen b).

Definition demo_read (h off n : Z) : M DemoStore (list byte) :=
  let! s := get in
  match ds_blocks s !! h with
  | Some b => if in_block b off n then ret (slice off n b) else throw (out_of_range "Read out of bounds")
  | None => throw (invalid_argument "Invalid handle")
  end.

Definition demo_write (h off : Z) (d : list byte) : M DemoStore unit :=
  let! s := get in
  if negb (ds_up s) then throw (runtime_error "no peer")
  else match ds_blocks s !! h with
       | Some b => if in_block b off (zlen d)
                   then put (mkStore (<[h := splice off d b]> (ds_blocks s)) (ds_next s) (ds_up s))
                   else throw (out_of_range "Write out of bounds")
       | None => throw (invalid_argument "Invalid handle")
       end.

(** With [steady], only stores that take writes are considered. *)
Definition demo_store (steady : bool) : BlockStore DemoStore := {|
  bs_max_local s := 0;
  bs_allocate n := fun s =>
    (Ret (ds_next s), mkStore (<[ds_next s := replicate (Z.to_nat n) x00]> (ds_blocks s)) (ds_next s + 1) (ds_up s));
  bs_free h := fun s => (Ret tt, mkStore (delete h (ds_blocks s)) (ds_next s) (ds_up s));
  bs_read := demo_read;
  bs_write := demo_write;
  bs_ok s := (forall h b, ds_blocks s !! h = Some b -> h < ds_next s) /\ (steady = true -> ds_up s = true);
  bs_value s h := ds_blocks s !! h;
  bs_limit := 1024;
  bs_more s := True
|}.

Lemma demo_store_laws (steady : bool) : @BlockStoreLaws DemoStore (demo_store steady).
Proof.
  split.
  - intros s h b off n Hok Hb H0 [H1 _] H2. unfold wp. cbn. unfold demo_read, bind, get. cbn in Hb. rewrite Hb.
    unfold in_block. rewrite (proj2 (Z.leb_le _ _) H0), (proj2 (Z.leb_le _ _) H1), (proj2 (Z.leb_le _ _) H2).
    split; [exact Hok|done].
  - intros s h b off d [Hok Hup] Hb H0 H1 _. unfold wp. cbn. unfold demo_write, bind, get. cbn in Hb. rewrite Hb.
    destruct (ds_up s) eqn:E; cbn [negb]; [|split; [split; [exact Hok|by rewrite E]|by intros k]]. pose proof (zlen_nonneg d) as Hz.
    unfold in_block. rewrite (proj2 (Z.leb_le _ _) H0), (proj2 (Z.leb_le _ _) Hz), (proj2 (Z.leb_le _ _) H1). cbn [andb put].
    split; [split|].
    + cbn. intros k v. rewrite lookup_insert. case_decide; [intros _; subst; by eapply Hok|apply Hok].
    + done.
    + intros k. cbn. rewrite lookup_insert. repeat case_decide; congruence.
  - intros s n [Hok Hup] _ Hn _. unfold wp. cbn. split; [split|split].
    + intros k v. cbn. rewrite lookup_insert. case_decide; [lia|]. intros Hk. specialize (Hok _ _ Hk). lia.
    + done.
    + destruct (ds_blocks s !! ds_next s) eqn:E; [|done]. specialize (Hok _ _ E). lia.
    + intros k. rewrite lookup_insert. repeat case_decide; congruence.
  - intros s h b [Hok Hup] _. unfold wp. cbn. split; [split|].
    + intros k v Hk. cbn in Hk. apply lookup_delete_Some in Hk. apply (Hok k v), Hk.
    + done.
    + intros k Hk. by rewrite lookup_delete_ne.
Qed.

Abbreviation DemoHeap := (HeapWorld (PageFaultBackendWin DemoKernel) DemoStore).

Definition demo_machine (up : bool) : DemoHeap :=
  mkHW (PageFaultBackendWin_new true (mkKernel (fun _ => NoPage) (fun _ => x00) []))
    (mkStore ∅ 7 up) (mkHeap 0 0 0 0 0 0 [] ∅ (mkStats 0 0 0 0) 0).

(** Four pages of eight bytes, two of them resident. *)
Definition demo_config : RemoteHeapConfig := mkConfig 30 16 7.
