(* ===== verification/HeapProgram.v ===== *)
(** * Programs on a remote heap

    From the constructor on: a program that loads, stores, flushes and evicts
    sees an array of bytes, as long as no fault goes unanswered; the resident
    bytes stay within the budget; and when the peer takes its writes, every
    access ends. *)

From S2P Require Import Prelude PageRegions FaultBackend PageFaultWin RemoteHeap RemoteHeapSpec HeapDemo.

Section program.
Context {B C : Type} `{!IPageFaultBackend B} `{!FaultBackendView B} `{!FaultBackendLaws B}.
Context `{!BlockStore C} `{!BlockStoreLaws C}.
Abbreviation World := (HeapWorld B C).
Implicit Types (w : World).

(** ** The constructor *)

(** The sizes a configuration leads to. *)
Definition heap_page_bytes (c : RemoteHeapConfig) : Z := round_up (Z.max (config_page_bytes c) page_size) page_size.
Definition heap_capacity (c : RemoteHeapConfig) : Z := round_up (capacity_bytes c) (heap_page_bytes c).

(** The sizes do not wrap, and a page fits in one write. *)
Record config_ok (c : RemoteHeapConfig) : Prop := {
  co_capacity : 0 < capacity_bytes c;
  co_page : Z.max (config_page_bytes c) page_size + page_size - 1 < U64;
  co_room : capacity_bytes c + heap_page_bytes c - 1 < U64;
  co_top : heap_capacity c + page_size < U64;
  co_limit : heap_page_bytes c <= bs_limit
}.

Lemma config_sizes c : config_ok c ->
  0 < heap_page_bytes c /\ heap_page_bytes c mod page_size = 0 /\ page_size <= heap_page_bytes c /\
  capacity_bytes c <= heap_capacity c /\ heap_capacity c mod heap_page_bytes c = 0 /\
  heap_capacity c mod page_size = 0 /\ round_up (heap_capacity c) page_size = heap_capacity c.
Proof.
  intros []. pose proof (psize_pos (B := B)) as Hp.
  destruct (round_up_bounds page_size (Z.max (config_page_bytes c) page_size)) as [Hb Hm]; [lia..|]. fold (heap_page_bytes c) in *.
  destruct (round_up_bounds (heap_page_bytes c) (capacity_bytes c)) as [Hb2 Hm2]; [lia..|]. fold (heap_capacity c) in *.
  assert (Hcm : heap_capacity c mod page_size = 0).
  { apply Z.mod_divide in Hm; [|lia]. apply Z.mod_divide in Hm2; [|lia]. apply Z.mod_divide; [lia|]. by etrans. }
  repeat split; try done; try lia. apply (round_up_whole _ page_size_pow2); (done || lia).
Qed.

Definition zero_heap w : Prop := forall x, in_heap (heap w) x -> heap_byte w x = Some x00.

(** The constructor throws, or leaves a heap that reads as zeros. *)
Lemma RemoteHeap_new_spec c w : config_ok c -> fb_ok (backend_ w) -> bs_ok (client_ w) -> bs_more (client_ w) ->
  wp (RemoteHeap_new c)
    (fun _ w' => heap_ok w' /\ within_budget w' /\ zero_heap w' /\ capacity_ (heap w') = heap_capacity c /\
       resident_order_ (heap w') = [] /\ page_bytes_ (heap w') = heap_page_bytes c /\
       forall k, k <> handle_ (heap w') -> bs_value (client_ w') k = bs_value (client_ w) k)
    (fun _ w' => same_values (client_ w) (client_ w')) w.
Proof.
  intros Hc Hb Hbs Hmore. destruct (config_sizes c Hc) as (Hp0 & Hpm & Hpp & Hcap & Hcm & Hcp & Hru). destruct Hc.
  unfold RemoteHeap_new. rewrite (proj2 (Z.eqb_neq _ 0)) by lia. apply wp_bind, wp_get.
  destruct (is_supported (backend_ w)); cbn [negb]; [|done]. cbv zeta. fold (heap_page_bytes c) (heap_capacity c).
  destruct (Z.leb_spec (heap_capacity c) (bs_max_local (client_ w))) as [|Hbig]; [done|].
  destruct (reserve_law (backend_ w) (heap_capacity c) Hb) as (base & size & b1 & Hrun & Hb1 & Ha1 & Hcase); [lia..|].
  apply wp_bind. eapply wp_run; [apply zoom_ret; exact Hrun|]. cbv beta iota.
  destruct Hcase as [[-> ->]|(Hne & -> & Hreg & Hnone)]; [by unfold wp; cbn|].
  rewrite (proj2 (Z.eqb_neq base 0)) by done. rewrite Hru in Hreg, Hnone. rewrite Hru. set (n := heap_capacity c) in *. set (w1 := set_backend b1 w).
  destruct (fb_region_bounds _ _ _ Hb1 Hreg) as (H0 & Hn & Hend & Hbm & _).
  apply wp_bind, wp_catch, wp_zoom. eapply wp_mono; [apply (bs_allocate_law (client_ w) n); [done..|lia|done]| |]; cbn beta.
  2:{ intros e c' [Hc' Hv]. destruct (release_law _ _ _ Hb1 Hreg) as (b2 & Hrel & _).
      apply wp_bind. eapply wp_run; [apply zoom_ret; exact Hrel|]. done. }
  intros h c' (Hc' & Hfresh & Hv). cbv beta.
  destruct (on_fault_law b1 true Hb1) as (b2 & Hon & Hb2 & Ha2 & Hr2 & Hp2 & Hm2).
  apply wp_bind. eapply wp_run; [done|]. eapply wp_run; [apply zoom_ret; exact Hon|].
  set (w' := set_backend _ _). set (pb := heap_page_bytes c) in *.
  assert (Hst : forall x, in_heap (heap w') x -> page_state w' x = None).
  { intros x Hx. unfold page_state. cbn. rewrite Hp2. apply Hnone; [apply (page_of_mod b2)|].
    unfold in_heap in Hx. cbn in Hx. apply (range_multiple _ page_size_pow2); done. }
  assert (Hq : n = n / pb * pb) by (pose proof (Z.div_mod n pb ltac:(lia)); lia).
  assert (Hpeer : forall x, in_heap (heap w') x -> peer_byte w' x = Some x00).
  { intros x Hx. unfold in_heap in Hx. cbn in Hx. unfold peer_byte. cbn. rewrite Hv, decide_True by done.
    rewrite znth_lookup by lia. apply lookup_replicate_2. lia. }
  split; [|split; [|split; [|split; [done|split; [done|split; [done|]]]]]].
  - split; try done.
    + split; cbn; try done; try lia. * by apply Hr2. * rewrite Hv, decide_True by done. eexists. split; [done|].
        apply zlen_replicate. lia.
    + split.
      * constructor.
      * intros i. cbn. rewrite elem_of_empty. split; [done|]. intros Hi. by apply not_elem_of_nil in Hi.
      * intros i Hi. by apply not_elem_of_nil in Hi.
      * change (0 = pb * 0). lia.
    + intros i Hi. right. intros p Hpmod Hin. cbn in Hin, Hi. cbn. rewrite Hp2. apply Hnone; [done|].
      unfold page_addr in Hin. cbn in Hin. nia.
    + intros x Hx Hs. by rewrite Hst in Hs.
  - unfold within_budget. cbn. lia.
  - intros x Hx. unfold heap_byte. by rewrite Hst, Hpeer.
  - intros k Hk. cbn in *. by rewrite Hv, decide_False.
Qed.

(** ** Programs *)

(** Offsets are from [data()]. *)
Inductive heap_op :=
| HLoad (offset : Z)
| HStore (offset : Z) (v : byte)
| HFlush
| HEvictAll.

(** [HCrash]: the process died of the fault. *)
Inductive heap_result :=
| HByte (v : byte)
| HDone
| HCrash.

#[export] Instance heap_result_eq_dec : EqDecision heap_result.
Proof. solve_decision. Defined.

Definition heap_exec (fuel : nat) (op : heap_op) : M World heap_result :=
  match op with
  | HLoad o =>
      let! w := get in
      let! r := load fuel (base_ (heap w) + o) in
      ret (match r with Some v => HByte v | None => HCrash end)
  | HStore o v =>
      let! w := get in
      let! ok := store fuel (base_ (heap w) + o) v in
      ret (if ok : bool then HDone else HCrash)
  | HFlush => catch (do! flush in ret HDone) (fun _ => ret HDone)   (* the program ignores the exception *)
  | HEvictAll => do! flush_and_evict_all in ret HDone
  end.

(** The results up to the first crash. *)
Fixpoint heap_run (fuel : nat) (ops : list heap_op) : M World (list heap_result) :=
  match ops with
  | [] => ret []
  | op :: ops =>
      let! r := heap_exec fuel op in
      match r with
      | HCrash => ret [HCrash]
      | _ => let! rs := heap_run fuel ops in ret (r :: rs)
      end
  end.

(** The same program on an array. *)
Definition array_exec (op : heap_op) (l : list byte) : heap_result * list byte :=
  match op with
  | HLoad o => (match znth l o with Some v => HByte v | None => HCrash end, l)
  | HStore o v => (HDone, zset l o v)
  | HFlush | HEvictAll => (HDone, l)
  end.

Fixpoint array_run (ops : list heap_op) (l : list byte) : list heap_result :=
  match ops with
  | [] => []
  | op :: ops => let '(r, l) := array_exec op l in r :: array_run ops l
  end.

Definition op_in (n : Z) (op : heap_op) : Prop :=
  match op with
  | HLoad o | HStore o _ => 0 <= o < n
  | _ => True
  end.

(** The heap reads as the array [l]. *)
Record reads_as w (l : list byte) : Prop := {
  ra_ok : heap_ok w;
  ra_budget : within_budget w;
  ra_len : zlen l = capacity_ (heap w);
  ra_byte : forall o, 0 <= o < capacity_ (heap w) -> heap_byte w (base_ (heap w) + o) = znth l o
}.

Lemma reads_keeps w w' l : reads_as w l -> heap_keeps w w' -> within_budget w' -> reads_as w' l.
Proof.
  intros [] [Hok Hs Hb _] Hbud. split; [done|done|by rewrite (sh_capacity _ _ Hs)|].
  intros o Ho. rewrite (sh_capacity _ _ Hs) in Ho. rewrite (sh_base _ _ Hs), Hb; [by apply ra_byte0|].
  unfold in_heap. lia.
Qed.

Lemma reads_sets w w' l o v : reads_as w l -> 0 <= o < capacity_ (heap w) ->
  heap_sets (base_ (heap w) + o) v w w' -> within_budget w' -> reads_as w' (zset l o v).
Proof.
  intros [] Ho [Hok Hs Hb _] Hbud. split; [done|done|by rewrite zlen_zset, (sh_capacity _ _ Hs)|].
  intros o' Ho'. rewrite (sh_capacity _ _ Hs) in Ho'. rewrite (sh_base _ _ Hs), Hb by (unfold in_heap; lia).
  destruct (decide (o' = o)) as [->|Hne].
  - rewrite decide_True, znth_zset_eq by (done || lia). done.
  - rewrite decide_False, znth_zset_ne by (done || lia). by apply ra_byte0.
Qed.

(** Enough fuel for every loop when write-backs succeed; any fuel for partial correctness. *)
Definition fuel_for (N : Prop) (fuel : nat) w : Prop :=
  N \/ (reliable (B := B) (C := C) /\ page_count_ (heap w) <= Z.of_nat fuel /\ (2 <= fuel)%nat).

Definition exec_post op l w (r : heap_result) w' : Prop :=
  page_count_ (heap w') = page_count_ (heap w) /\ capacity_ (heap w') = capacity_ (heap w) /\ within_budget w' /\
  (r <> HCrash -> r = (array_exec op l).1 /\ reads_as w' (array_exec op l).2).

Lemma exec_keeps op l w w' r : reads_as w l -> heap_keeps w w' -> within_budget w' ->
  array_exec op l = (r, l) -> exec_post op l w r w'.
Proof.
  intros Hr Hk Hb He. pose proof (kp_same _ _ Hk) as Hs. split; [apply Hs|]. split; [apply Hs|]. split; [done|].
  intros _. rewrite He. split; [done|]. by eapply reads_keeps.
Qed.

Lemma heap_exec_spec N fuel op w l : reads_as w l -> op_in (capacity_ (heap w)) op -> fuel_for N fuel w ->
  wpx N (heap_exec fuel op) (exec_post op l w) (fun _ _ => False) w.
Proof.
  intros Hr Hop Hfuel. pose proof Hr as [Hok Hbud Hlen Hby]. destruct op as [o|o v| |]; cbn [heap_exec op_in] in *.
  - apply wpx_bind, wpx_get. apply wpx_bind. set (x := base_ (heap w) + o) in *.
    eapply wpx_mono; [apply (load_spec N fuel w x Hok)| |done].
    + unfold in_heap, x. lia.
    + destruct Hfuel as [|(Hrel & Hc & Hf)]; [by left|right]. split; [done|]. split; [done|]. split; [done|lia].
    + cbn beta. intros r w' (Hk & Hb & Hv). apply wpx_ret. destruct r as [v|].
      * apply exec_keeps; auto. cbn. assert (Hz : znth l o = Some v) by (rewrite <- Hby by done; by apply Hv). by rewrite Hz.
      * pose proof (kp_same _ _ Hk) as Hs. split; [apply Hs|]. split; [apply Hs|]. split; [by apply Hb|done].
  - apply wpx_bind, wpx_get. apply wpx_bind. set (x := base_ (heap w) + o) in *.
    eapply wpx_mono; [apply (store_spec N fuel w x v Hok)| |done].
    + unfold in_heap, x. lia.
    + destruct Hfuel as [|(Hrel & Hc & Hf)]; [by left|right]. split; [done|]. split; [done|]. split; [done|lia].
    + cbn beta. intros ok w' (Hb & Hs). apply wpx_ret. destruct ok.
      * pose proof (st_same _ _ _ _ Hs) as Hsm. split; [apply Hsm|]. split; [apply Hsm|]. split; [by apply Hb|].
        intros _. split; [done|]. apply (reads_sets w); auto.
      * pose proof (kp_same _ _ Hs) as Hsm. split; [apply Hsm|]. split; [apply Hsm|]. split; [by apply Hb|done].
  - apply wpx_catch, wpx_bind. eapply wpx_mono; [by apply (flush_spec N)| |]; cbn beta.
    + intros _ w' (Hk & Hsr & _). apply wpx_ret, exec_keeps; try done. unfold within_budget in *.
      by rewrite (sr_bytes _ _ Hsr), (sh_budget _ _ (kp_same _ _ Hk)).
    + intros e w' (Hk & Hsr & _). apply wpx_ret, exec_keeps; try done. unfold within_budget in *.
      by rewrite (sr_bytes _ _ Hsr), (sh_budget _ _ (kp_same _ _ Hk)).
  - apply wpx_bind. eapply wpx_mono; [by apply (flush_and_evict_all_spec N)| |done]. cbn beta.
    intros _ w' (Hk & Hb & _). apply wpx_ret, exec_keeps; auto.
Qed.

(** The results of the array, or those up to a crash. *)
Definition up_to_crash (rs spec : list heap_result) : Prop :=
  rs = spec \/ exists k, (k < length spec)%nat /\ rs = take k spec ++ [HCrash].

Lemma heap_run_spec N fuel ops : forall w l, reads_as w l -> Forall (op_in (capacity_ (heap w))) ops -> fuel_for N fuel w ->
  wpx N (heap_run fuel ops) (fun rs w' => up_to_crash rs (array_run ops l) /\ within_budget w') (fun _ _ => False) w.
Proof.
  induction ops as [|op ops IH]; intros w l Hr Hops Hfuel; cbn [heap_run array_run].
  { apply wpx_ret. split; [by left|apply Hr]. }
  apply Forall_cons in Hops as [Hop Hops]. apply wpx_bind.
  eapply wpx_mono; [by apply (heap_exec_spec N fuel op w l)| |done]. cbn beta.
  intros r w' (Hpc & Hcap & Hbud & Hpost). destruct (array_exec op l) as [r' l'] eqn:Ea.
  destruct (decide (r = HCrash)) as [->|Hne].
  - apply wpx_ret. split; [|done]. right. exists 0%nat. split; [cbn; lia|done].
  - destruct (Hpost Hne) as [Hrr Hr']. cbn in Hrr, Hr'. subst r'.
    assert (Hgo : wpx N (let! rs := heap_run fuel ops in ret (r :: rs))
      (fun rs w'' => up_to_crash rs (r :: array_run ops l') /\ within_budget w'') (fun _ _ => False) w').
    { apply wpx_bind. eapply wpx_mono; [apply (IH w' l' Hr')| |done].
      - by rewrite Hcap.
      - destruct Hfuel as [|(Hrel & Hc & Hf)]; [by left|right]. by rewrite Hpc.
      - cbn beta. intros rs w'' [Hu Hb]. apply wpx_ret. split; [|done]. destruct Hu as [->|(k & Hk & ->)]; [by left|].
        right. exists (S k). split; [cbn; lia|done]. }
    by destruct r.
Qed.

Lemma wp_of_wpx {S A} (c : M S A) Q E s : wpx False c Q E s -> wp c Q E s.
Proof. done. Qed.

Lemma wpx_total {S A} (c : M S A) Q s : wpx False c Q (fun _ _ => False) s -> exists a s', c s = (Ret a, s') /\ Q a s'.
Proof. unfold wpx. destruct (c s) as [[a|e| |] s']; try done. by exists a, s'. Qed.

Lemma faults_two w x wr : (faults_left w x wr <= 2)%nat.
Proof. unfold faults_left. destruct (page_state w x) as [[]|], wr; cbn; lia. Qed.

(** When the peer holds what the program sees, its block is the array. *)
Lemma current_block w l : reads_as w l -> peer_current w -> bs_value (client_ w) (handle_ (heap w)) = Some l.
Proof.
  intros [Hok _ Hlen Hby] Hcur. destruct (hs_block _ (hk_shape _ Hok)) as (blk & Hblk & Hbl). rewrite Hblk. f_equal.
  apply list_eq. intros i. destruct (decide (Z.of_nat i < capacity_ (heap w))) as [Hi|Hi].
  - assert (Hx : in_heap (heap w) (base_ (heap w) + Z.of_nat i)) by (unfold in_heap; lia).
    specialize (Hcur _ Hx). rewrite Hby in Hcur by lia. unfold peer_byte in Hcur. rewrite Hblk in Hcur.
    replace (base_ (heap w) + Z.of_nat i - base_ (heap w)) with (Z.of_nat i) in Hcur by lia.
    by rewrite !znth_lookup, Nat2Z.id in Hcur by lia.
  - rewrite !lookup_ge_None_2; [done|unfold zlen in *; lia..].
Qed.

(** A dirty page that the peer refuses goes to the back of the queue. *)
Lemma evict_page_down w i x e :
  heap_ok w -> i ∈ resident_order_ (heap w) ->
  (forall h off d, bs_write h off d (client_ w) = (Throw e, client_ w)) ->
  in_page (heap w) i x -> page_state w x = Some true ->
  evict_page i w = (Ret tt, set_heap (splice_back i (heap w)) w).
Proof.
  intros Hok Hin Hdown Hx Hs. pose proof (ro_range _ (hk_residents _ Hok) _ Hin) as Hi.
  destruct (page_in_region w i Hok Hi) as (Hreg & _ & _ & Hlen).
  assert (Hall : page_all w i (fun d => d <> None)).
  { destruct (hk_pages _ Hok i Hi) as [[_ H]|H]; [done|].
    by rewrite (page_all_state w i _ x Hok Hi H Hx) in Hs. }
  assert (Hd : is_dirty (page_addr (heap w) i) (page_bytes_ (heap w)) (backend_ w) = true).
  { apply not_false_iff_true. intros H. apply (dirty_law _ _ _ (hk_backend _ Hok) Hreg) in H.
    exact (page_all_state w i _ x Hok Hi H Hx Hs). }
  assert (Hfl : flush_page i w = (Throw e, w)).
  { unfold flush_page. rewrite bind_get, Hlen, Hd. cbn [negb].
    rewrite (bind_ret _ _ _ _ _ (copy_out_run w i Hok Hi Hall)). unfold write_back. rewrite bind_get.
    apply bind_throw. unfold on_client, zoom. rewrite Hdown. by destruct w. }
  unfold evict_page. rewrite bind_get, decide_True by (by apply Hok).
  unfold catch, bind. rewrite Hfl. done.
Qed.

(** ** Properties *)

(** A program on a new heap, over any store and backend that keep the laws: if it
    ends, it saw an array of zeros that it loaded from and stored to, whatever pages
    were fetched, written back and evicted under it: its results are those of the
    array, or stop at a fault that was not answered.  The resident bytes stay within
    the budget.  If the constructor throws, no block of the client has changed.  A
    store that refuses writes can keep the budget loop running for ever, which this
    does not exclude ([wpx True]); [HeapClient.remote_heap_over_peers] does. *)
Theorem remote_heap_transparent fuel c w ops :
  config_ok c -> fb_ok (backend_ w) -> bs_ok (client_ w) -> bs_more (client_ w) ->
  Forall (op_in (capacity_bytes c)) ops ->
  wpx True (do! RemoteHeap_new c in heap_run fuel ops)
    (fun rs w' => up_to_crash rs (array_run ops (replicate (Z.to_nat (heap_capacity c)) x00)) /\ within_budget w')
    (fun _ w' => same_values (client_ w) (client_ w')) w.
Proof.
  intros Hc Hb Hbs Hm Hops. destruct (config_sizes c Hc) as (Hp0 & _ & _ & Hcap & _). pose proof (co_capacity _ Hc).
  apply wpx_bind, wpx_of_wp. eapply wp_mono; [by apply RemoteHeap_new_spec| |done]. cbn beta.
  intros _ w1 (Hok & Hbud & Hz & Hcp & _). apply wpx_mono with
    (Q := fun rs w' => up_to_crash rs (array_run ops (replicate (Z.to_nat (heap_capacity c)) x00)) /\ within_budget w')
    (E := fun _ _ => False); [|done|done].
  apply heap_run_spec; [|rewrite Hcp; eapply Forall_impl; [exact Hops|]; intros []; cbn; lia|by left].
  split; [done|done|by rewrite zlen_replicate by lia|]. intros o Ho. rewrite Hz by (unfold in_heap; lia).
  rewrite znth_lookup by lia. symmetry. apply lookup_replicate_2. rewrite Hcp in Ho. lia.
Qed.

(** C22: When the peer takes every write and the system takes pages back
    ([reliable]), nothing on the heap runs for ever.  From any well-formed heap the
    budget loop ends within its budget after at most one eviction per resident page
    but the last.  From one within its budget an access to the region ends after at
    most two faults, each with a budget loop of at most one eviction per page that
    was resident.  And every load, store, flush and eviction of a program returns
    with the array's result, or the process dies of a fault that was not answered;
    one amount of fuel that covers the heap's pages, and two, is enough for it. *)
Theorem remote_heap_terminates w :
  reliable (B := B) (C := C) -> heap_ok w ->
  (exists w', enforce_budget (pred (length (resident_order_ (heap w)))) w = (Ret tt, w') /\ within_budget w' /\ heap_keeps w w') /\
  (forall x wr, within_budget w -> in_heap (heap w) x ->
     exists ok w', access (length (resident_order_ (heap w))) 2 x wr w = (Ret ok, w') /\ within_budget w' /\ heap_keeps w w' /\
       (ok = true -> permits (backend_ w') x wr = true)) /\
  (forall fuel l op, reads_as w l -> op_in (capacity_ (heap w)) op ->
     page_count_ (heap w) <= Z.of_nat fuel -> (2 <= fuel)%nat ->
     exists r w', heap_exec fuel op w = (Ret r, w') /\ within_budget w' /\
       (r <> HCrash -> r = (array_exec op l).1 /\ reads_as w' (array_exec op l).2)).
Proof.
  intros Hrel Hok. split; [|split].
  - assert (Hf : zlen (resident_order_ (heap w)) <= Z.of_nat (pred (length (resident_order_ (heap w)))) + 1)
      by (unfold zlen; lia).
    destruct (wpx_total _ _ _ (enforce_budget_spec False _ w Hok (or_intror (conj Hrel Hf)))) as ([] & w' & He & Hk & Hb & _). by exists w'.
  - intros x wr Hbud Hx.
    destruct (wpx_total _ _ _ (access_spec False (length (resident_order_ (heap w))) 2 w x wr Hok Hx
      (or_intror (conj Hrel (conj (fun _ => Z.le_refl _) (conj Hbud (faults_two w x wr))))))) as (ok & w' & He & Hk & Hb & Hp).
    exists ok, w'. split_and!; try done. by apply Hb.
  - intros fuel l op Hr Hop Hf Hf2.
    destruct (wpx_total _ _ _ (heap_exec_spec False fuel op w l Hr Hop (or_intror (conj Hrel (conj Hf Hf2)))))
      as (r & w' & He & _ & _ & Hb & Hp). by exists r, w'.
Qed.

(** C23: After [flush] returns, the peer's block is exactly the array the program
    sees, and nothing it sees has changed; the same holds after an exception, up
    to the pages that were not written.  After [flush_and_evict_all] has emptied
    the heap, no page is resident and the block is the array. *)
Theorem flush_writes_back w l :
  reads_as w l ->
  wpx True flush
    (fun _ w' => reads_as w' l /\ bs_value (client_ w') (handle_ (heap w')) = Some l)
    (fun _ w' => reads_as w' l) w /\
  exists w', flush_and_evict_all w = (Ret tt, w') /\ reads_as w' l /\
    (resident_order_ (heap w') = [] -> bs_value (client_ w') (handle_ (heap w')) = Some l /\
       forall o, 0 <= o < zlen l -> page_state w' (base_ (heap w') + o) = None).
Proof.
  intros Hr. pose proof Hr as [Hok Hbud Hlen Hby]. split.
  - eapply wpx_mono; [by apply flush_spec| |]; cbn beta.
    + intros _ w' (Hk & Hsr & Hcur). assert (Hr' : reads_as w' l).
      { eapply reads_keeps; [done..|]. unfold within_budget. by rewrite (sr_bytes _ _ Hsr), (sh_budget _ _ (kp_same _ _ Hk)). }
      split; [done|]. by apply current_block.
    + intros e w' (Hk & Hsr & _). eapply reads_keeps; [done..|]. unfold within_budget.
      by rewrite (sr_bytes _ _ Hsr), (sh_budget _ _ (kp_same _ _ Hk)).
  - pose proof (flush_and_evict_all_spec False w Hok) as Hwp. unfold wpx in Hwp.
    destruct (flush_and_evict_all w) as [[[]|e| |] w'] eqn:E; try done. exists w'. split; [done|].
    destruct Hwp as (Hk & Hb & _). assert (Hr' : reads_as w' l) by (eapply reads_keeps; [done|done|by apply Hb]).
    split; [done|]. intros Ho. destruct (no_residents w' (kp_ok _ _ Hk) Ho) as [Hcur Hnone].
    split; [by apply current_block|]. intros o Hoo. apply Hnone. unfold in_heap. rewrite <- (ra_len _ _ Hr'). lia.
Qed.

Definition refuses_writes (e : exn) w : Prop := forall h off d, bs_write h off d (client_ w) = (Throw e, client_ w).

Definition all_dirty w : Prop :=
  forall i, i ∈ resident_order_ (heap w) -> exists x, in_page (heap w) i x /\ page_state w x = Some true.

(** When the peer refuses writes, the budget loop never ends: once over budget
    with dirty pages, every round moves the oldest page to the back of the queue
    and starts again. *)
Theorem budget_loop_spins f w e :
  heap_ok w -> ~ within_budget w -> 1 < zlen (resident_order_ (heap w)) ->
  refuses_writes e w -> all_dirty w ->
  exists w', enforce_budget f w = (NoFuel, w') /\ ~ within_budget w'.
Proof.
  revert w. induction f as [|f IH]; intros w Hok Hover Hlen Hdown Hdirty; cbn [enforce_budget]; rewrite bind_get.
  all: rewrite (proj2 (Z.ltb_lt _ _)) by (unfold within_budget in Hover; lia).
  all: rewrite (proj2 (Z.ltb_lt 1 _)) by done; cbn [andb].
  { by exists w. }
  destruct (resident_order_ (heap w)) as [|i rest] eqn:Eo; [done|].
  assert (Hin : i ∈ resident_order_ (heap w)) by (rewrite Eo; left).
  set (w1 := set_heap (splice_back i (heap w)) w).
  assert (Hev : evict_page i w = (Ret tt, w1)).
  { destruct (Hdirty i Hin) as (x & Hx & Hs). by apply (evict_page_down w i x e). }
  rewrite (bind_ret _ _ _ _ _ Hev). pose proof (kp_ok _ _ (splice_back_keeps w i Hok Hin)) as Hok1. fold w1 in Hok1.
  assert (Hperm : resident_order_ (heap w1) ≡ₚ resident_order_ (heap w)).
  { cbn. rewrite Eo, filter_front by (rewrite <- Eo; apply Hok). by rewrite Permutation_app_comm. }
  apply IH; try done.
  - rewrite <- Eo in Hlen. unfold zlen in *. by rewrite Hperm.
  - intros j Hj. rewrite Hperm in Hj. destruct (Hdirty j Hj) as (x & Hx & Hs). by exists x.
Qed.
End program.

(** ** Examples *)

#[local] Existing Instance demo_memory.
#[local] Existing Instance demo_vm.

Lemma demo_config_ok (b : bool) :
  config_ok (B := PageFaultBackendWin DemoKernel) (BlockStore0 := demo_store b) demo_config.
Proof. split; vm_compute; done. Qed.

Section examples.
#[local] Instance steady : BlockStore DemoStore := demo_store true.
#[local] Instance steady_laws : BlockStoreLaws DemoStore := demo_store_laws true.

(** Four pages of eight bytes, room for two. *)
Definition demo_program : list heap_op :=
  [HStore 0 x01; HStore 9 x02; HStore 25 x03; HLoad 0; HLoad 9; HFlush; HStore 2 x04; HEvictAll; HLoad 2; HLoad 25; HLoad 8].

Lemma new_backend_ok k : win_ok (K := DemoKernel) (PageFaultBackendWin_new true k).
Proof.
  split; cbn.
  - apply table_wf_new.
  - intros p s _ H. unfold state_at, region_for, floor_entry in H. cbn in H. by rewrite map_fold_empty in H.
  - intros base r. by rewrite lookup_empty.
Qed.

Lemma demo_start_ok : fb_ok (backend_ (demo_machine true)) /\ bs_ok (client_ (demo_machine true)).
Proof. split; [apply new_backend_ok|]. split; [|done]. intros h b. cbn. by rewrite lookup_empty. Qed.

Lemma remote_heap_transparent_witness :
  wpx True (do! RemoteHeap_new demo_config in heap_run 9 demo_program)
    (fun rs w' => up_to_crash rs (array_run demo_program (replicate (Z.to_nat (heap_capacity demo_config)) x00)) /\ within_budget w')
    (fun _ w' => same_values (client_ (demo_machine true)) (client_ w')) (demo_machine true) /\
  fst ((do! RemoteHeap_new demo_config in heap_run 9 demo_program) (demo_machine true)) =
    Ret [HDone; HDone; HDone; HByte x01; HByte x02; HDone; HDone; HDone; HByte x04; HByte x03; HByte x00].
Proof.
  split; [|vm_compute; reflexivity].
  apply (remote_heap_transparent 9 demo_config (demo_machine true) demo_program).
  - apply demo_config_ok.
  - apply demo_start_ok.
  - apply demo_start_ok.
  - done.
  - repeat constructor; vm_compute; intuition discriminate.
Defined.

Definition demo_heap : DemoHeap := snd (RemoteHeap_new demo_config (demo_machine true)).

Lemma demo_heap_reads : reads_as demo_heap (replicate 32 x00).
Proof.
  pose proof demo_start_ok as [Hb Hc].
  pose proof (wpx_elim_ret True _ _ _ _ tt (wpx_of_wp True _ _ _ _ (RemoteHeap_new_spec (BlockStore0 := steady) demo_config (demo_machine true) (demo_config_ok true) Hb Hc I)))
    as H. specialize (H ltac:(vm_compute; reflexivity)). destruct H as (Hok & Hbud & Hz & Hcap & _ & _). fold demo_heap in *.
  split; [done|done|rewrite Hcap; vm_compute; reflexivity|].
  intros o Ho. rewrite Hz by (unfold in_heap; lia). rewrite Hcap in Ho. change (heap_capacity demo_config) with 32 in Ho.
  rewrite znth_lookup by lia. symmetry. apply lookup_replicate_2. lia.
Qed.

Lemma steady_reliable : reliable (B := PageFaultBackendWin DemoKernel) (C := DemoStore).
Proof.
  split.
  - intros s h b off d [Hok Hup] Hb H0 H1 _. eexists. cbn in *. unfold demo_write, bind, get. rewrite Hb, Hup by done. cbn [negb].
    unfold in_block. rewrite (proj2 (Z.leb_le _ _) H0), (proj2 (Z.leb_le _ _) (zlen_nonneg d)), (proj2 (Z.leb_le _ _) H1).
    reflexivity.
  - intros b addr n Hok Hin. cbn. unfold win_evict_pages. destruct (_ =? 0); by eexists.
Qed.

Lemma remote_heap_terminates_witness :
  exists r w', heap_exec 4 (HStore 9 x02) demo_heap = (Ret r, w') /\ within_budget w' /\
    (r <> HCrash -> r = HDone /\ reads_as w' (zset (replicate 32 x00) 9 x02)).
Proof.
  destruct (remote_heap_terminates demo_heap steady_reliable (ra_ok _ _ demo_heap_reads)) as (_ & _ & H).
  apply (H 4%nat (replicate 32 x00) (HStore 9 x02)).
  - apply demo_heap_reads.
  - vm_compute. intuition discriminate.
  - vm_compute. discriminate.
  - lia.
Defined.

Lemma flush_writes_back_witness :
  wpx True flush
    (fun _ w' => reads_as w' (replicate 32 x00) /\ bs_value (client_ w') (handle_ (heap w')) = Some (replicate 32 x00))
    (fun _ w' => reads_as w' (replicate 32 x00)) demo_heap /\
  exists w', flush_and_evict_all demo_heap = (Ret tt, w') /\ reads_as w' (replicate 32 x00) /\
    (resident_order_ (heap w') = [] -> bs_value (client_ w') (handle_ (heap w')) = Some (replicate 32 x00) /\
       forall o, 0 <= o < zlen (replicate 32 x00) -> page_state w' (base_ (heap w') + o) = None).
Proof. apply (flush_writes_back demo_heap (replicate 32 x00)). apply demo_heap_reads. Defined.
End examples.

(** *** Interleavings

    [fault_fetch] runs before [heap_mutex_] is taken, and a store to a dirty page
    takes no lock at all. *)

Section interleavings.
#[local] Instance any_store : BlockStore DemoStore := demo_store false.

(** Two threads fault on one page.  The second has its copy before the first
    thread's store, and installs it after: the store is gone. *)
Definition second_fault : M DemoHeap heap_result :=
  do! RemoteHeap_new demo_config in
  let! copy := fault_fetch 0 in
  do! heap_exec 9 (HStore 0 x01) in
  do! fault_install 9 0 (default [] copy) in
  heap_exec 9 (HLoad 0).

Example second_fault_loses_store : fst (second_fault (demo_machine true)) = Ret (HByte x00).
Proof. vm_compute. reflexivity. Qed.

(** A store between the copy and the end of [flush_page]: the page is clean again,
    so its eviction forgets the store. *)
Definition store_while_flushing : M DemoHeap heap_result :=
  do! RemoteHeap_new demo_config in
  do! heap_exec 9 (HStore 0 x01) in
  let! w := get in
  let! bytes := copy_out (page_addr (heap w) 0) (page_length (heap w) 0) in
  do! heap_exec 9 (HStore 1 x02) in
  do! write_back 0 bytes in
  do! flush_and_evict_all in
  heap_exec 9 (HLoad 1).

Example store_while_flushing_lost : fst (store_while_flushing (demo_machine true)) = Ret (HByte x00).
Proof. vm_compute. reflexivity. Qed.

(** A budget of one page, dirty, and a peer that refuses writes: a load of another
    page is answered and evicted again, for ever. *)
Definition tight_config : RemoteHeapConfig := mkConfig 30 8 7.

Definition load_when_down : M DemoHeap heap_result :=
  do! RemoteHeap_new tight_config in
  do! heap_exec 9 (HStore 0 x01) in
  let! w := get in
  do! put (set_client (mkStore (ds_blocks (client_ w)) (ds_next (client_ w)) false) w) in
  heap_exec 50 (HLoad 8).

Example load_when_down_livelocks :
  fst (load_when_down (demo_machine true)) = NoFuel /\
  resident_order_ (heap (snd (load_when_down (demo_machine true)))) = [0].
Proof. vm_compute. split; reflexivity. Qed.
End interleavings.

(** *** A peer that goes down *)

Section down.
#[local] Instance shaky : BlockStore DemoStore := demo_store false.
#[local] Instance shaky_laws : BlockStoreLaws DemoStore := demo_store_laws false.

Definition take_down (s : DemoStore) : DemoStore := mkStore (ds_blocks s) (ds_next s) false.

(** Two dirty pages fill the budget; then the peer goes down and a store faults on a third page. *)
Definition heap0 : DemoHeap := snd (RemoteHeap_new demo_config (demo_machine true)).
Definition heap1 : DemoHeap := snd (heap_exec 9 (HStore 0 x01) heap0).
Definition heap2 : DemoHeap := snd (heap_exec 9 (HStore 8 x02) heap1).
Lemma heap0_reads : reads_as heap0 (replicate 32 x00).
Proof.
  assert (Hc : bs_ok (client_ (demo_machine true))) by (split; [intros h b; cbn; by rewrite lookup_empty|done]).
  pose proof (wpx_elim_ret True _ _ _ _ tt (wpx_of_wp True _ _ _ _
    (RemoteHeap_new_spec (BlockStore0 := shaky) demo_config (demo_machine true) (demo_config_ok false) (new_backend_ok _) Hc I))) as H.
  specialize (H ltac:(vm_compute; reflexivity)). destruct H as (Hok & Hbud & Hz & Hcap & _ & _). fold heap0 in *.
  split; [done|done|rewrite Hcap; vm_compute; reflexivity|].
  intros o Ho. rewrite Hz by (unfold in_heap; lia). rewrite Hcap in Ho. change (heap_capacity demo_config) with 32 in Ho.
  rewrite znth_lookup by lia. symmetry. apply lookup_replicate_2. lia.
Qed.

Lemma heap2_ok : heap_ok heap2.
Proof.
  pose proof (wpx_elim_ret True _ _ _ _ HDone (heap_exec_spec True 9 (HStore 0 x01) heap0 _ heap0_reads
    ltac:(vm_compute; intuition discriminate) (or_introl I)) ltac:(vm_compute; reflexivity)) as (_ & _ & _ & H1).
  destruct (H1 ltac:(done)) as [_ Hr1]. fold heap1 in Hr1.
  pose proof (wpx_elim_ret True _ _ _ _ HDone (heap_exec_spec True 9 (HStore 8 x02) heap1 _ Hr1
    ltac:(vm_compute; intuition discriminate) (or_introl I)) ltac:(vm_compute; reflexivity)) as (_ & _ & _ & H2).
  destruct (H2 ltac:(done)) as [_ Hr2]. fold heap2 in Hr2. apply Hr2.
Qed.

Definition goes_down (w : DemoHeap) : DemoHeap :=
  set_backend (set_flags true false (backend_ w)) (set_client (take_down (client_ w)) w).

Lemma goes_down_ok (w : DemoHeap) : heap_ok w -> heap_ok (goes_down w).
Proof.
  intros Hok. assert (Hk : heap_keeps w (set_client (take_down (client_ w)) w)).
  { apply client_same_keeps; [done| |by intros k]. destruct (hk_client _ Hok) as [H _]. by split. }
  apply (kp_ok _ _ (backend_keeps _ _ (kp_ok _ _ Hk) (win_flags (backend_ w) true false (hk_backend _ Hok)))).
Qed.

Definition full_heap : DemoHeap := goes_down heap2.
Definition over_budget : DemoHeap := snd (install_page 2 (replicate 8 x00) full_heap).

Lemma full_heap_ok : heap_ok full_heap.
Proof. exact (goes_down_ok heap2 heap2_ok). Qed.

Lemma over_budget_ok : heap_ok over_budget.
Proof.
  assert (Hb : bs_value (client_ full_heap) (handle_ (heap full_heap)) = Some (replicate 32 x00)) by (vm_compute; reflexivity).
  assert (Hi : 0 <= 2 < page_count_ (heap full_heap)) by (vm_compute; intuition discriminate).
  assert (Hout : 2 ∉ resident_order_ (heap full_heap)).
  { assert (He : resident_order_ (heap full_heap) = [0; 1]) by (vm_compute; reflexivity). rewrite He.
    rewrite !not_elem_of_cons. split; [lia|]. split; [lia|]. apply not_elem_of_nil. }
  assert (Hn : page_all full_heap 2 (fun d => d = None)).
  { destruct (hk_pages _ full_heap_ok 2 Hi) as [[Hin _]|Hp]; [destruct (Hout Hin)|exact Hp]. }
  destruct (install_page_spec full_heap 2 (replicate 32 x00) full_heap_ok Hi Hn Hb) as (w & Hrun & [Hk _ _ _]).
  assert (Hp : page_of_block full_heap 2 (replicate 32 x00) = replicate 8 x00) by (vm_compute; reflexivity).
  rewrite Hp in Hrun. unfold over_budget. rewrite Hrun. exact (kp_ok _ _ Hk).
Qed.

Lemma budget_loop_spins_witness :
  exists w', enforce_budget 100 over_budget = (NoFuel, w') /\ ~ within_budget w'.
Proof.
  apply (budget_loop_spins 100 over_budget (runtime_error "no peer")).
  - apply over_budget_ok.
  - vm_compute. intros H. by apply H.
  - vm_compute. reflexivity.
  - intros h off d. reflexivity.
  - assert (He : resident_order_ (heap over_budget) = [0; 1; 2]) by (vm_compute; reflexivity).
    unfold all_dirty. rewrite He. intros i Hi. rewrite !elem_of_cons in Hi. destruct Hi as [Hi|[Hi|[Hi|Hi]]]; [subst i..|destruct (not_elem_of_nil _ Hi)].
    + exists 4096. split; vm_compute; [intuition discriminate|reflexivity].
    + exists 4104. split; vm_compute; [intuition discriminate|reflexivity].
    + exists 4112. split; vm_compute; [intuition discriminate|reflexivity].
Defined.
End down.
