(* ===== verification/HeapClient.v ===== *)
(** * The remote heap over the memory client

    [RemoteHeap.v] is written against [BlockStore] and [IPageFaultBackend]; in the
    program these are [MemoryClient] and the page-fault backend of the platform.
    Here [MemoryClient] is shown to be such a store, as long as its peers answer
    ([RemoteStore]): the heap's block is larger than the client's cache, so it lies
    on the peers and is read and written in place.  With the Windows backend of
    [PageFaultWin.v] every interface is then discharged but the operating system
    ([WinVM]) and the peers. *)

From S2P Require Import Prelude PageRegions FaultBackend PageFaultWin Framing Slab PageTracker Crc32c Pool MemoryProtocol LruCache RemoteStore MemoryClient MemoryClientSpec Transparency RemoteHeap RemoteHeapSpec HeapDemo HeapProgram.

Section store.
Context {World : Type} `{!PeerNet World} {PSort : PeerSort} `{!RemoteStore World}.
Abbreviation Client := (MemoryClient World).
Implicit Types (m : Client).

(** ** The client as a store of blocks *)

(** The blocks that the cache can never hold. *)
Definition pinned m (h : Z) : option (list byte) :=
  match value m h with
  | Some v => if max_bytes_ (cache_ m) <? zlen v then Some v else None
  | None => None
  end.

#[export] Instance client_store : BlockStore Client := {|
  bs_max_local m := max_size (cache_ m);
  bs_allocate := client_allocate;
  bs_free := client_free;
  bs_read := client_read;
  bs_write := client_write;
  bs_ok m := client_wf m /\ 0 <= next_local_handle_ m;
  bs_value := pinned;
  bs_limit := MAX_PAYLOAD;
  bs_more m := next_local_handle_ m + 1 < U64
|}.

Lemma pinned_remote m h v : client_wf m -> pinned m h = Some v ->
  exists a, remote_handles_ m !! h = Some a /\ v = content (world m) (stripes_of a) /\ zlen v = ra_size a /\
    max_bytes_ (cache_ m) < ra_size a.
Proof.
  intros Hwf. unfold pinned. destruct (value m h) as [v'|] eqn:Ev; [|done].
  destruct (Z.ltb_spec (max_bytes_ (cache_ m)) (zlen v')) as [Hbig|]; [|done]. intros [= <-].
  unfold value in Ev. destruct (cached m h) as [b|] eqn:Eb.
  - injection Ev as <-. pose proof (find_bytes h _ b Eb) as Hb. pose proof (cl_cache _ Hwf) as Hc.
    destruct (cw_max _ Hc) as [Hle _]. rewrite (cw_bytes _ Hc) in Hle.
    pose proof (bytes_of_nonneg (without h (cache_abs (cache_ m)))). lia.
  - unfold remote_value in Ev. destruct (remote_handles_ m !! h) as [a|] eqn:Ea; [|done]. injection Ev as <-.
    pose proof (zlen_alloc _ _ (cl_allocs _ Hwf _ _ Ea)) as Hz. exists a. split_and!; try done; lia.
Qed.

Lemma pinned_keeps m m' h : client_keeps m m' -> pinned m' h = pinned m h.
Proof. intros Hk. unfold pinned. by rewrite (ck_value _ _ Hk), (ck_max _ _ Hk). Qed.

Lemma pinned_sets h v m m' k : client_sets h v m m' ->
  pinned m' k = if decide (k = h) then match v with Some v => if max_bytes_ (cache_ m) <? zlen v then Some v else None | None => None end
                else pinned m k.
Proof. intros Hs. unfold pinned. rewrite (cs_value _ _ _ _ Hs), (cs_max _ _ _ _ Hs). by case_decide. Qed.

Lemma store_keeps m m' : bs_ok m -> client_keeps m m' -> bs_ok m' /\ same_values m m'.
Proof. intros [_ H0] Hk. split; [split; [apply Hk|by rewrite (ck_next _ _ Hk)]|]. intros k. by apply pinned_keeps. Qed.

(** The next handle is new, and taking it changes no block. *)
Lemma take_handle m : client_wf m -> 0 <= next_local_handle_ m -> next_local_handle_ m + 1 < U64 ->
  exists m', new_local_handle m = (Ret (next_local_handle_ m), m') /\ client_wf m' /\ cache_ m' = cache_ m /\
    next_local_handle_ m' = next_local_handle_ m + 1 /\ (forall k, value m' k = value m k) /\ value m (next_local_handle_ m) = None.
Proof.
  intros Hwf H0 Hlt. eexists. split; [done|]. rewrite u64_small by lia. set (m' := mkClient _ _ _ _ _).
  assert (Hv : forall k, value m' k = value m k) by done. split; [|split_and!; try done].
  - split; try apply Hwf. intros h v Hh. cbn. rewrite Hv in Hh. pose proof (cl_next _ Hwf _ _ Hh). lia.
  - destruct (value m (next_local_handle_ m)) as [v|] eqn:E; [|done]. pose proof (cl_next _ Hwf _ _ E). lia.
Qed.

Lemma client_allocate_big m n :
  bs_ok m -> bs_more m -> 0 <= n -> max_bytes_ (cache_ m) < n ->
  wp (client_allocate n)
    (fun h m' => bs_ok m' /\ pinned m h = None /\ forall k, pinned m' k = if decide (k = h) then Some (zeros n) else pinned m k)
    (fun _ m' => bs_ok m' /\ same_values m m') m.
Proof.
  intros [Hwf H0] Hlt Hn Hbig. destruct (take_handle m Hwf H0 Hlt) as (m1 & Hnew & Hwf1 & Hc1 & Hn1 & Hv1 & Hfr).
  assert (Hp : forall k, pinned m1 k = pinned m k) by (intros k; unfold pinned; by rewrite Hv1, Hc1).
  unfold client_allocate. apply wp_bind. eapply wp_run; [exact Hnew|]. apply wp_bind, wp_get. unfold max_size.
  rewrite Hc1, (proj2 (Z.ltb_lt _ _)) by done. apply wp_bind.
  eapply wp_mono; [apply allocate_remote_spec; [apply Hwf1|done]| |]; cbn beta.
  - intros _ m3 (a & m2 & Hns & -> & Hfa). unfold wp. cbn [ret].
    assert (Hs : client_sets (next_local_handle_ m) (Some (zeros n)) m1 (set_remote (<[next_local_handle_ m:=a]> (remote_handles_ m1)) m2))
      by (eapply table_insert; try done; [by rewrite Hv1|lia|rewrite Hc1; lia]).
    split; [split; [apply Hs|rewrite (cs_next _ _ _ _ Hs); lia]|]. split; [unfold pinned; by rewrite Hfr|].
    intros k. rewrite (pinned_sets _ _ _ _ _ Hs), Hc1, zlen_zeros by done. case_decide; [|apply Hp].
    by rewrite (proj2 (Z.ltb_lt _ _)).
  - intros e m2 [Hns Hs]. pose proof (same_objects_keeps _ _ Hwf1 Hns Hs) as Hk.
    split; [split; [apply Hk|rewrite (ck_next _ _ Hk); lia]|]. intros k. cbn. by rewrite (pinned_keeps _ _ _ Hk), Hp.
Qed.

Lemma client_free_big m h v :
  bs_ok m -> pinned m h = Some v ->
  wp (client_free h) (fun _ m' => bs_ok m' /\ forall k, k <> h -> pinned m' k = pinned m k) (fun _ _ => True) m.
Proof.
  intros [Hwf H0] Hp. destruct (pinned_remote m h v Hwf Hp) as (a & Ha & _ & _ & _). pose proof (cl_excl _ Hwf _ _ Ha) as Hc.
  destruct (cache_remove_spec (cache_ m) h (cl_cache _ Hwf)) as (c' & Hrm & Hwf' & Hm & Hab).
  unfold client_free. apply wp_bind. eapply wp_run; [by apply on_cache_run|]. set (m1 := set_cache c' m).
  unfold spec_remove. cbn [fst]. change (find_block h (cache_abs (cache_ m))) with (cached m h). rewrite Hc.
  assert (Hk : client_keeps m m1).
  { apply cache_keeps; try done. intros k. rewrite Hab. unfold spec_remove. cbn [snd]. rewrite find_block_without.
    case_decide; [subst; by rewrite <- Hc|done]. }
  unfold lookup_remote. apply wp_bind, wp_bind, wp_get. unfold wp at 1. cbn [ret].
  change (remote_handles_ m1 !! h) with (remote_handles_ m !! h). rewrite Ha. apply wp_bind.
  eapply wp_mono; [apply free_remote_spec; [apply Hk|by apply (cl_allocs _ (ck_wf _ _ Hk) h)]| |done].
  cbn beta. intros _ m2 Hrel. assert (Ha1 : remote_handles_ m1 !! h = Some a) by done.
  pose proof (table_delete _ _ _ _ (ck_wf _ _ Hk) Ha1 Hrel) as Hs.
  unfold erase_remote. apply wp_bind, wp_get. unfold wp. cbn [put].
  split; [split; [apply Hs|rewrite (cs_next _ _ _ _ Hs), (ck_next _ _ Hk); done]|].
  intros k Hne. rewrite (pinned_sets _ _ _ _ _ Hs), decide_False by done. by apply pinned_keeps.
Qed.

#[export] Instance client_store_laws : BlockStoreLaws Client.
Proof.
  split.
  - intros m h b off n Hok Hb Ho Hn Hfit. pose proof Hok as [Hwf _].
    destruct (pinned_remote m h b Hwf Hb) as (a & Ha & -> & Hz & Hbig).
    eapply wp_mono; [apply (oversized_read_spec m h a off n Hwf Ha Hbig Ho Hn); lia| |]; cbn beta.
    + intros d m' [Hk ->]. destruct (store_keeps m m' Hok Hk). done.
    + intros e m' [Hk _]. by apply store_keeps.
  - intros m h b off d Hok Hb Ho Hfit Hmax. pose proof Hok as [Hwf H0].
    destruct (pinned_remote m h b Hwf Hb) as (a & Ha & -> & Hz & Hbig).
    eapply wp_mono; [apply (oversized_write_spec m h a off d Hwf Ha Hbig Ho Hmax); lia| |done]; cbn beta.
    intros _ m' Hs. split; [split; [apply Hs|by rewrite (cs_next _ _ _ _ Hs)]|]. intros k. cbn.
    rewrite (pinned_sets _ _ _ _ _ Hs). case_decide; [|done].
    by rewrite zlen_splice, (proj2 (Z.ltb_lt _ _)) by lia.
  - intros m n Hok Hmore Hn Hbig. by apply client_allocate_big.
  - intros m h b Hok Hb. by eapply client_free_big.
Qed.

(** A write to the heap's block lands: the peers that hold it are up. *)
Lemma client_writes m h b off d : bs_ok m -> bs_value m h = Some b -> 0 <= off -> off + zlen d <= zlen b ->
  zlen d <= MAX_PAYLOAD -> exists m', bs_write h off d m = (Ret tt, m').
Proof.
  intros [Hwf H0] Hb Ho Hfit Hmax. destruct (pinned_remote m h b Hwf Hb) as (a & Ha & -> & Hz & Hbig).
  pose proof (oversized_write_spec m h a off d Hwf Ha Hbig Ho Hmax ltac:(lia)) as Hw. cbn.
  destruct (client_write h off d m) as [o m'] eqn:E. pose proof (wp_elim _ _ _ _ _ _ Hw E) as Hpost.
  destruct o as [[]|e| |]; try done. by exists m'.
Qed.

(** ** On Windows *)

Section windows.
Context {K : Type} `{!PagedMemory K} `{!WinVM K}.

(** [VirtualFree] with [MEM_DECOMMIT] takes the pages of a reservation back. *)
Definition decommits : Prop := forall a n (k : K), exists k', vm_decommit a n k = (true, k').

Lemma heap_client_reliable : decommits -> reliable (B := PageFaultBackendWin K) (C := Client).
Proof.
  intros Hd. split; [exact client_writes|]. intros b addr n _ _. cbn. unfold win_evict_pages.
  destruct (_ =? 0); [by eexists|]. destruct (Hd (page_base os_page addr) (round_up (u64 (offset_in_page os_page addr + n)) os_page) (vm b)) as [k' Hk].
  unfold on_vm, on_table, bind. rewrite Hk. cbn. by eexists.
Qed.

(** A process on Windows before it makes a heap: the vectored handler is installed,
    no region is reserved, and a client [m] is there. *)
Definition heap_machine (k : K) m : HeapWorld (PageFaultBackendWin K) Client :=
  mkHW (PageFaultBackendWin_new true k) m (mkHeap 0 0 0 0 0 0 [] ∅ (mkStats 0 0 0 0) 0).

Lemma heap_machine_ok k m : fb_ok (backend_ (heap_machine k m)).
Proof.
  split; cbn.
  - apply table_wf_new.
  - intros p s _ H. unfold state_at, region_for, floor_entry in H. cbn in H. by rewrite map_fold_empty in H.
  - intros base r. by rewrite lookup_empty.
Qed.

(** A client in any state that its calls lead to, with a handle left to give out. *)
Definition client_ready m : Prop := client_wf m /\ 0 <= next_local_handle_ m /\ next_local_handle_ m + 1 < U64.

(** C3: A remote heap on Windows over the memory client and its peers.  A program on
    a new heap always ends, and sees an array of zeros that it loads from and
    stores to, whatever pages are fetched, written back and evicted under it: its
    results are those of the array, or stop at a fault that was not answered, which
    kills the process.  The resident bytes stay within
    the budget.  If the constructor throws, no block of the client that lies on its
    peers in place has changed.  Conditions: no connection to a peer is lost and no
    call times out ([RemoteStore]); the heap's page fits in one message; the sizes do
    not overflow; [VirtualFree] takes pages back; one thread.  The fuel covers the
    heap's pages, and two faults.  On Linux this is false: there an unanswered fault
    reads as zeros. *)
Theorem remote_heap_over_peers fuel c k m ops :
  decommits -> config_ok (B := PageFaultBackendWin K) (C := Client) c -> client_ready m ->
  heap_capacity (B := PageFaultBackendWin K) c <= Z.of_nat fuel * heap_page_bytes (B := PageFaultBackendWin K) c -> (2 <= fuel)%nat ->
  Forall (op_in (capacity_bytes c)) ops ->
  wp (do! RemoteHeap_new c in heap_run fuel ops)
    (fun rs w' => up_to_crash rs (array_run ops (zeros (heap_capacity (B := PageFaultBackendWin K) c))) /\ within_budget w')
    (fun _ w' => forall h, pinned (client_ w') h = pinned m h) (heap_machine k m).
Proof.
  intros Hd Hc (Hwf & H0 & Hmore) Hfuel Hf2 Hops.
  destruct (config_sizes c Hc) as (Hp0 & _ & _ & Hcap & _). pose proof (co_capacity _ Hc).
  apply wp_bind. eapply wp_mono; [apply RemoteHeap_new_spec; [done|apply heap_machine_ok|done..]| |done]. cbn beta.
  intros _ w1 (Hok & Hbud & Hz & Hcp & _ & Hpb & _).
  assert (Hr : reads_as w1 (zeros (heap_capacity (B := PageFaultBackendWin K) c))).
  { split; [done|done|by rewrite zlen_zeros by lia|]. intros o Ho. rewrite Hz by (unfold in_heap; lia).
    rewrite znth_lookup by lia. symmetry. apply lookup_replicate_2. rewrite Hcp in Ho. lia. }
  apply wp_of_wpx. eapply wpx_mono; [apply (heap_run_spec False fuel ops w1 _ Hr)|done|done].
  - rewrite Hcp. eapply Forall_impl; [exact Hops|]. intros []; cbn; lia.
  - right. split; [by apply heap_client_reliable|]. split; [|done].
    pose proof (hs_count _ (hk_shape _ Hok)) as Hcnt. rewrite Hcp, Hpb in Hcnt. nia.
Qed.
End windows.
End store.

(** *** Witness: the kernel of [HeapDemo], and the two peers of [Transparency] *)

Section demo.
#[local] Existing Instance sort_id.
#[local] Existing Instance demo_net.
#[local] Existing Instance Transparency.demo_store.
#[local] Existing Instance demo_memory.
#[local] Existing Instance demo_vm.

Definition demo_kernel : DemoKernel := mkKernel (fun _ => NoPage) (fun _ => x00) [].

(** Four pages of four bytes, one of them resident; the block is striped over the peers. *)
Definition demo_heap_config : RemoteHeapConfig := mkConfig 16 4 4.
Definition demo_heap_calls : list heap_op :=
  [HStore 0 x01; HStore 9 x02; HLoad 0; HStore 15 x03; HLoad 9; HEvictAll; HLoad 15; HLoad 3].

Lemma demo_client_ready : client_ready (MemoryClient_new 4 demo_world).
Proof.
  pose proof (represents_new 4 demo_world ltac:(lia) ltac:(unfold U64; lia) demo_world_ok) as [Hwf _ _].
  split; [exact Hwf|]. cbn. unfold U64. lia.
Qed.

Lemma demo_decommits : decommits (K := DemoKernel).
Proof. intros a n k. by eexists. Qed.

Lemma remote_heap_over_peers_witness :
  wp (do! RemoteHeap_new demo_heap_config in heap_run 4 demo_heap_calls)
    (fun rs w' => up_to_crash rs (array_run demo_heap_calls (zeros (heap_capacity (B := PageFaultBackendWin DemoKernel) demo_heap_config))) /\ within_budget w')
    (fun _ w' => forall h, pinned (client_ w') h = pinned (MemoryClient_new 4 demo_world) h)
    (heap_machine demo_kernel (MemoryClient_new 4 demo_world)) /\
  fst ((do! RemoteHeap_new demo_heap_config in heap_run 4 demo_heap_calls)
         (heap_machine demo_kernel (MemoryClient_new 4 demo_world))) =
    Ret [HDone; HDone; HByte x01; HDone; HByte x02; HDone; HByte x03; HByte x00].
Proof.
  split; [|vm_compute; reflexivity].
  apply (remote_heap_over_peers 4 demo_heap_config demo_kernel (MemoryClient_new 4 demo_world) demo_heap_calls).
  - exact demo_decommits.
  - split; vm_compute; done.
  - exact demo_client_ready.
  - vm_compute. done.
  - lia.
  - repeat constructor; vm_compute; intuition discriminate.
Defined.
End demo.
