(* ===== verification/PageFaultLinux.v ===== *)
(** * The Linux page-fault backend (platform/src/linux/page_fault_linux.cpp)

    userfaultfd in MISSING mode.  Events are answered by one thread, one at a
    time; [handle_event] is what it does with an event.  There is no dirty
    tracking: a page marked resident is reported dirty.

    [Uffd] is the part of the kernel the code calls.  UFFDIO_COPY and
    UFFDIO_ZEROPAGE fail with EEXIST on a page that is already there, and a copy
    that fails may have filled some of its pages. *)

From S2P Require Import Prelude PageRegions FaultBackend HeapDemo.

Class Uffd (K : Type) `{!PagedMemory K} := {
  uf_mmap : Z -> K -> Z * K;
  uf_register : Z -> Z -> K -> bool * K;
  uf_munmap : Z -> Z -> K -> K;
  uf_copy : Z -> list byte -> K -> bool * K;
  uf_zeropage : Z -> Z -> K -> bool * K;
  uf_dontneed : Z -> Z -> K -> bool * K;
  mapped : K -> Z -> option Z;
  uf_mmap_ok : forall n k b k', uf_mmap n k = (b, k') -> b <> 0 ->
    0 < n /\ 0 < b /\ b + n < U64 /\ b mod os_page = 0 /\
    (forall b' n', mapped k b' = Some n' -> b + n <= b' \/ b' + n' <= b) /\
    (forall p, p mod os_page = 0 -> access_of k' p = (if decide (b <= p < b + n) then NoPage else access_of k p)) /\
    (forall p, mapped k' p = if decide (p = b) then Some n else mapped k p);
  uf_mmap_fails : forall n k k', uf_mmap n k = (0, k') -> k' = k;
  uf_register_same : forall a n k r k', uf_register a n k = (r, k') ->
    (forall p, access_of k' p = access_of k p) /\ (forall x, byte_at k' x = byte_at k x) /\
    (forall p, mapped k' p = mapped k p);
  uf_munmap_ok : forall a n k, mapped k a = Some n ->
    (forall p, p mod os_page = 0 -> ~ a <= p < a + n -> access_of (uf_munmap a n k) p = access_of k p) /\
    (forall p, mapped (uf_munmap a n k) p = if decide (p = a) then None else mapped k p);
  uf_copy_ok : forall a d k k', uf_copy a d k = (true, k') ->
    (forall p, p mod os_page = 0 -> a <= p < a + zlen d -> access_of k p = NoPage) /\
    (forall p, p mod os_page = 0 -> access_of k' p = (if decide (a <= p < a + zlen d) then ReadWrite else access_of k p)) /\
    (forall x, byte_at k' x = default (byte_at k x) (znth d (x - a))) /\
    (forall p, mapped k' p = mapped k p);
  uf_copy_fails : forall a d k k', uf_copy a d k = (false, k') ->
    (forall p, p mod os_page = 0 -> access_of k p <> NoPage -> access_of k' p = access_of k p) /\
    (forall p x, p mod os_page = 0 -> access_of k p <> NoPage -> p <= x < p + os_page -> byte_at k' x = byte_at k x) /\
    (forall p, mapped k' p = mapped k p);
  uf_zeropage_ok : forall a n k k', uf_zeropage a n k = (true, k') ->
    (forall p, p mod os_page = 0 -> a <= p < a + n -> access_of k p = NoPage) /\
    (forall p, p mod os_page = 0 -> access_of k' p = (if decide (a <= p < a + n) then ReadWrite else access_of k p)) /\
    (forall x, byte_at k' x = if decide (a <= x < a + n) then x00 else byte_at k x) /\
    (forall p, mapped k' p = mapped k p);
  uf_zeropage_fails : forall a n k k', uf_zeropage a n k = (false, k') -> k' = k;
  uf_dontneed_ok : forall a n k k', uf_dontneed a n k = (true, k') ->
    (forall p, p mod os_page = 0 -> access_of k' p = (if decide (a <= p < a + n) then NoPage else access_of k p)) /\
    (forall x, ~ a <= x < a + n -> byte_at k' x = byte_at k x) /\
    (forall p, mapped k' p = mapped k p);
  uf_dontneed_fails : forall a n k k', uf_dontneed a n k = (false, k') -> k' = k
}.

Section backend.
Context {K : Type} `{!PagedMemory K} `{!Uffd K}.

Record PageFaultBackendLinux := mkLinux {
  uffd_ : bool;                  (* whether the descriptor is open *)
  running_ : bool;
  linux_table : Table bool;
  user_cb_ : bool;
  linux_resolved : bool;
  linux_vm : K
}.

Definition linux_set_vm (k : K) (b : PageFaultBackendLinux) : PageFaultBackendLinux :=
  mkLinux (uffd_ b) (running_ b) (linux_table b) (user_cb_ b) (linux_resolved b) k.
Definition linux_set_table (t : Table bool) (b : PageFaultBackendLinux) : PageFaultBackendLinux :=
  mkLinux (uffd_ b) (running_ b) t (user_cb_ b) (linux_resolved b) (linux_vm b).
Definition linux_set_resolved (r : bool) (b : PageFaultBackendLinux) : PageFaultBackendLinux :=
  mkLinux (uffd_ b) (running_ b) (linux_table b) (user_cb_ b) r (linux_vm b).

Definition linux_sys {A} (f : K -> A * K) : M PageFaultBackendLinux A :=
  fun b => let '(a, k) := f (linux_vm b) in (Ret a, linux_set_vm k b).
Definition linux_update (f : Table bool -> Table bool) : M PageFaultBackendLinux unit :=
  fun b => (Ret tt, linux_set_table (f (linux_table b)) b).

(** The constructor: whether userfaultfd could be opened, and accepted UFFDIO_API. *)
Definition PageFaultBackendLinux_new (opened api : bool) (k : K) : PageFaultBackendLinux :=
  mkLinux (opened && api) (opened && api) (mkTable ∅ 0) false false k.

Definition linux_reserve_region (bytes : Z) : M PageFaultBackendLinux (Z * Z) :=
  let! b := get in
  if negb (uffd_ b) || (bytes =? 0) then ret (0, 0)
  else
    let rounded := round_up bytes os_page in
    let! addr := linux_sys (uf_mmap rounded) in
    if addr =? 0 then ret (0, 0)
    else
      let! registered := linux_sys (uf_register addr rounded) in
      if negb registered then
        do! linux_sys (fun k => (tt, uf_munmap addr rounded k)) in ret (0, 0)
      else
        do! linux_update (emplace_region addr (mkRegion rounded (replicate (Z.to_nat (rounded / os_page)) false))) in
        ret (addr, rounded).

Definition linux_release_region (addr : Z) : M PageFaultBackendLinux unit :=
  let! b := get in
  match regions_ (linux_table b) !! addr with
  | None => ret tt
  | Some r =>
      do! linux_update (erase_region (fun r => r) addr r) in
      linux_sys (fun k => (tt, uf_munmap addr (region_size r) k))
  end.

Fixpoint linux_release_all (bases : list Z) : M PageFaultBackendLinux unit :=
  match bases with
  | [] => ret tt
  | base :: bases => do! linux_release_region base in linux_release_all bases
  end.

(** The destructor stops and joins the fault thread first. *)
Definition PageFaultBackendLinux_delete : M PageFaultBackendLinux unit :=
  let! b := get in
  do! put (mkLinux (uffd_ b) false (linux_table b) (user_cb_ b) (linux_resolved b) (linux_vm b)) in
  do! linux_release_all (map_to_list (regions_ (linux_table b))).*1 in
  let! b := get in
  put (mkLinux false false (linux_table b) (user_cb_ b) (linux_resolved b) (linux_vm b)).

Definition linux_on_fault (cb : bool) : M PageFaultBackendLinux unit :=
  let! b := get in
  put (mkLinux (uffd_ b) (running_ b) (linux_table b) cb (linux_resolved b) (linux_vm b)).

(** What [mark_resident] does to a page. *)
Definition mark_page (resident : bool) (was : bool) (n : Z) : bool * Z :=
  if eqb was resident then (was, n) else (resident, u64 (n + (if resident then 1 else u64 (-1)))).

Definition mark_resident (addr len : Z) (resident : bool) : M PageFaultBackendLinux unit :=
  linux_update (for_each_page os_page (mark_page resident) addr len).

Definition linux_resolve_fault (addr : Z) (data : option (list byte)) (len : Z) : M PageFaultBackendLinux unit :=
  let! b := get in
  if negb (uffd_ b) || (addr =? 0) then ret tt
  else
    let aligned_dst := page_base os_page addr in
    let offset := addr - aligned_dst in
    let span := u64 (offset + len) in
    let total := round_up (if span =? 0 then os_page else span) os_page in
    let staged := replicate (Z.to_nat total) x00 in
    let staged := match data with
                  | Some d => if 0 <? len then splice offset (slice 0 len d) staged else staged
                  | None => staged
                  end in
    do! mark_resident aligned_dst total true in
    let! copied := linux_sys (uf_copy aligned_dst staged) in
    if negb copied then mark_resident aligned_dst total false
    else let! b := get in put (linux_set_resolved true b).

Definition linux_is_dirty (addr len : Z) (b : PageFaultBackendLinux) : bool :=
  for_each_page_const os_page (fun r => r) addr len (linux_table b).

Definition linux_clear_dirty (addr len : Z) : M PageFaultBackendLinux unit := ret tt.

Definition linux_evict_pages (addr len : Z) : M PageFaultBackendLinux bool :=
  let page := page_base os_page addr in
  let total := round_up (u64 (offset_in_page os_page addr + len)) os_page in
  if total =? 0 then ret true
  else
    let! freed := linux_sys (uf_dontneed page total) in
    if negb freed then ret false
    else do! mark_resident page total false in ret true.

Definition zero_page (addr : Z) : M PageFaultBackendLinux unit :=
  let aligned := page_base os_page addr in
  do! mark_resident aligned os_page true in
  let! zeroed := linux_sys (uf_zeropage aligned os_page) in
  if negb zeroed then mark_resident aligned os_page false else ret tt.

(** One page-fault event read by [fault_handler_thread]. *)
Section event.
Context {S : Type} (proj : S -> PageFaultBackendLinux) (upd : PageFaultBackendLinux -> S -> S).
Context (user_cb : Z -> bool -> M S unit).

Definition handle_event (fault_addr : Z) (is_write : bool) : M S unit :=
  let! s := get in
  do! put (upd (linux_set_resolved false (proj s)) s) in
  do! (if user_cb_ (proj s) then user_cb fault_addr is_write else ret tt) in
  let! s := get in
  if negb (linux_resolved (proj s)) then zoom proj upd (zero_page fault_addr) else ret tt.

(** The loop of the thread over the events it reads; [None] is a poll that timed out. *)
Fixpoint fault_handler_thread (events : list (option (Z * bool))) : M S unit :=
  match events with
  | [] => ret tt
  | e :: events =>
      let! s := get in
      if negb (running_ (proj s)) then ret tt
      else
        do! (match e with Some (a, w) => handle_event a w | None => ret tt end) in
        fault_handler_thread events
  end.
End event.
End backend.
Arguments PageFaultBackendLinux : clear implicits.

(** ** The invariant *)

Section facts.
Context {K : Type} `{!PagedMemory K} `{!Uffd K}.
Implicit Types (b : PageFaultBackendLinux K) (k : K).
Abbreviation Hps := os_page_pow2.

(** A page that is there is marked resident, so it is reported dirty and no
    eviction forgets a store to it. *)
Record linux_ok b : Prop := {
  lk_table : table_wf os_page (fun r => r) (linux_table b);
  lk_present : forall p, p mod os_page = 0 ->
    match state_at os_page p (linux_table b) with
    | Some r => access_of (linux_vm b) p = if r : bool then ReadWrite else NoPage
    | None => True
    end;
  lk_mapped : forall base r, regions_ (linux_table b) !! base = Some r -> mapped (linux_vm b) base = Some (region_size r)
}.

Lemma mark_page_fn r : page_fn (fun r => r) (mark_page r) (fun _ => r).
Proof.
  intros was n. unfold mark_page, u64. destruct was, r; cbn [eqb].
  - f_equal. f_equal. lia.
  - f_equal. rewrite Zplus_mod_idemp_l, Zplus_mod_idemp_r. f_equal. lia.
  - f_equal. rewrite Zplus_mod_idemp_l. f_equal. lia.
  - f_equal. f_equal. lia.
Qed.

Lemma linux_step b b' k' r lo len :
  linux_ok b -> lo mod os_page = 0 -> 0 <= lo -> 0 <= len -> lo + len < U64 ->
  (forall p, p mod os_page = 0 -> is_Some (state_at os_page p (linux_table b)) ->
    access_of k' p = if decide (lo <= p < lo + len) then (if r : bool then ReadWrite else NoPage) else access_of (linux_vm b) p) ->
  (forall p, mapped k' p = mapped (linux_vm b) p) ->
  linux_table b' = for_each_page os_page (mark_page r) lo len (linux_table b) -> linux_vm b' = k' ->
  linux_ok b' /\
  (forall p, p mod os_page = 0 -> state_at os_page p (linux_table b') =
     if decide (lo <= p < lo + len) then (fun _ => r) <$> state_at os_page p (linux_table b) else state_at os_page p (linux_table b)).
Proof.
  intros [Hwf Hpr Hmap] Hlo H0 Hl Hend Hacc Hm Ht Hv.
  destruct (for_each_page_spec os_page (fun r => r) Hps (mark_page r) (fun _ => r) lo len (linux_table b)) as (Hwf' & Hst & Hsz);
    try done; [apply mark_page_fn|lia|].
  rewrite <- Ht in Hwf', Hst, Hsz. split; [|exact Hst]. split; [done| |].
  - intros p Hp. rewrite Hst, Hv by done. specialize (Hpr p Hp). destruct (state_at os_page p (linux_table b)) as [r0|] eqn:E.
    + rewrite (Hacc p Hp) by (by rewrite E). case_decide; cbn; done.
    + by case_decide.
  - intros base r0 Hr0. rewrite Hv, Hm. pose proof (Hsz base) as Hs. rewrite Hr0 in Hs.
    destruct (regions_ (linux_table b) !! base) as [r1|] eqn:E; [|done]. injection Hs as ->. by apply Hmap.
Qed.

(** A whole page range, as the heap passes it. *)
Record page_range (addr n : Z) : Prop := {
  pr_pos : 0 < addr;
  pr_len : 0 < n;
  pr_end : addr + n < U64;
  pr_aligned : addr mod os_page = 0;
  pr_whole : n mod os_page = 0
}.

Lemma range_room addr n : page_range addr n -> n + os_page < U64.
Proof.
  intros [H0 Hn Hend Hal Hw]. pose proof (ps_pos os_page Hps).
  destruct (Z.le_gt_cases os_page addr); [lia|]. rewrite Z.mod_small in Hal; lia.
Qed.

Lemma range_total addr n : page_range addr n ->
  page_base os_page addr = addr /\ round_up (if u64 (addr - addr + n) =? 0 then os_page else u64 (addr - addr + n)) os_page = n.
Proof.
  intros [H0 Hn Hend Hal Hw]. pose proof (ps_pos os_page Hps).
  destruct (page_base_aligned os_page Hps addr) as [Hb _]; [lia|done|]. split; [done|].
  pose proof (range_room addr n ltac:(by split)) as Hroom.
  rewrite Z.sub_diag, Z.add_0_l, u64_small by lia. rewrite (proj2 (Z.eqb_neq n 0)) by lia.
  apply (round_up_whole os_page Hps); (done || lia).
Qed.

(** [resolve_fault] on a whole range is one UFFDIO_COPY, with the pages marked
    before it and unmarked when it fails. *)
Lemma linux_resolve_run b addr d : page_range addr (zlen d) -> uffd_ b = true ->
  linux_resolve_fault addr (Some d) (zlen d) b = (Ret tt,
    let t := for_each_page os_page (mark_page true) addr (zlen d) (linux_table b) in
    match uf_copy addr d (linux_vm b) with
    | (true, k) => mkLinux (uffd_ b) (running_ b) t (user_cb_ b) true k
    | (false, k) =>
        mkLinux (uffd_ b) (running_ b) (for_each_page os_page (mark_page false) addr (zlen d) t) (user_cb_ b)
          (linux_resolved b) k
    end).
Proof.
  intros Hr Hu. destruct (range_total addr (zlen d) Hr) as [Hb Ht]. destruct Hr.
  unfold linux_resolve_fault. rewrite bind_get, Hu, (proj2 (Z.eqb_neq addr 0)) by lia. cbn [negb orb].
  cbv zeta. rewrite Hb, Ht, (proj2 (Z.ltb_lt 0 (zlen d))), slice_full, Z.sub_diag by lia.
  rewrite splice_full by (rewrite zlen_replicate; lia).
  unfold mark_resident, linux_update, linux_sys, bind. cbn [linux_set_table linux_vm linux_table].
  destruct (uf_copy addr d (linux_vm b)) as [[|] k]; cbn; unfold put, linux_set_resolved, linux_set_vm, linux_set_table; cbn;
    by rewrite Hu.
Qed.

(** On absent pages a successful copy leaves them present, marked and with the data. *)
Lemma linux_resolve_absent b addr d k' : linux_ok b -> page_range addr (zlen d) -> uffd_ b = true ->
  uf_copy addr d (linux_vm b) = (true, k') ->
  exists b', linux_resolve_fault addr (Some d) (zlen d) b = (Ret tt, b') /\ linux_ok b' /\ linux_resolved b' = true /\
    bytes_at (linux_vm b') addr (zlen d) = d.
Proof.
  intros Hok Hr Hu Hc. pose proof (uf_copy_ok _ _ _ _ Hc) as (Hno & Hacc & Hby & Hm). pose proof Hr as [].
  eexists. split; [by apply linux_resolve_run|]. rewrite Hc. cbv zeta. set (b' := mkLinux _ _ _ _ _ _).
  destruct (linux_step b b' k' true addr (zlen d)) as [Hok' _]; try done; [lia|lia|by intros p Hp _; apply Hacc|].
  split; [done|]. split; [done|]. cbn. unfold bytes_at. apply list_eq. intros i. rewrite list_lookup_fmap.
  destruct (decide (i < length d)%nat) as [Hi|Hi].
  - rewrite lookup_seqZ_lt by (unfold zlen; lia). cbn. destruct (lookup_lt_is_Some_2 d i Hi) as [v Hv]. rewrite Hv. f_equal.
    rewrite Hby. replace (addr + (0 + Z.of_nat i) - addr) with (Z.of_nat i) by lia.
    rewrite znth_lookup, Nat2Z.id, Hv by lia. done.
  - rewrite lookup_seqZ_ge by (unfold zlen; lia). rewrite lookup_ge_None_2 by lia. done.
Qed.

Lemma linux_dirty_spec b addr n : linux_ok b -> page_range addr n ->
  linux_is_dirty addr n b = true <->
  exists p, p mod os_page = 0 /\ addr <= p < addr + n /\ state_at os_page p (linux_table b) = Some true.
Proof.
  intros Hok Hr. pose proof (ps_pos os_page Hps). pose proof (range_room addr n Hr). destruct Hr.
  unfold linux_is_dirty. rewrite (for_each_page_const_spec os_page (fun r => r) Hps) by (done || lia || apply Hok).
  split; [by intros (p & s & ? & ? & ? & ->); exists p|intros (p & ? & ? & ?); by exists p, true].
Qed.

(** The state of a page after a walk that marks a range. *)
Lemma marked_state r addr n t p : table_wf os_page (fun r => r) t -> page_range addr n -> p mod os_page = 0 ->
  table_wf os_page (fun r => r) (for_each_page os_page (mark_page r) addr n t) /\
  state_at os_page p (for_each_page os_page (mark_page r) addr n t) =
    (if decide (addr <= p < addr + n) then (fun _ => r) <$> state_at os_page p t else state_at os_page p t) /\
  (forall base, region_size <$> (regions_ (for_each_page os_page (mark_page r) addr n t) !! base) =
    region_size <$> (regions_ t !! base)).
Proof.
  intros Hwf [] Hp.
  destruct (for_each_page_spec os_page (fun r => r) Hps (mark_page r) (fun _ => r) addr n t) as (Hwf' & Hst & Hsz);
    try done; [apply mark_page_fn|lia|lia|lia|]. split; [done|]. split; [by apply Hst|done].
Qed.

(** The page of an address. *)
Lemma page_range_one page : 0 < page -> page mod os_page = 0 -> page + os_page < U64 -> page_range page os_page.
Proof. intros. pose proof (ps_pos os_page Hps). split; try done; [lia|apply Z.mod_same; lia]. Qed.

Lemma zero_page_run b x : 0 <= x < U64 ->
  zero_page x b = (Ret tt,
    let page := x - x mod os_page in
    let t := for_each_page os_page (mark_page true) page os_page (linux_table b) in
    match uf_zeropage page os_page (linux_vm b) with
    | (true, k) => mkLinux (uffd_ b) (running_ b) t (user_cb_ b) (linux_resolved b) k
    | (false, k) =>
        mkLinux (uffd_ b) (running_ b) (for_each_page os_page (mark_page false) page os_page t) (user_cb_ b)
          (linux_resolved b) k
    end).
Proof.
  intros Hx. unfold zero_page. rewrite (page_base_spec os_page Hps) by done. cbv zeta.
  unfold mark_resident, linux_update, linux_sys, bind. cbn [linux_set_table linux_vm linux_table].
  by destruct (uf_zeropage _ _ _) as [[|] k].
Qed.

Lemma linux_new_ok opened api k : linux_ok (PageFaultBackendLinux_new opened api k).
Proof.
  split; cbn.
  - apply table_wf_new.
  - intros p _. unfold state_at, region_for, floor_entry. cbn. by rewrite map_fold_empty.
  - intros base r. by rewrite lookup_empty.
Qed.

(** A reserved region is absent throughout; a failed reservation changes nothing of the table. *)
Lemma linux_reserve_ok b n : linux_ok b -> 0 < n -> n + os_page < U64 -> uffd_ b = true ->
  exists base size b', linux_reserve_region n b = (Ret (base, size), b') /\
    (base <> 0 -> linux_ok b' /\ size = round_up n os_page /\
      region_size <$> (regions_ (linux_table b') !! base) = Some size /\
      forall p, base <= p < base + size -> state_at os_page p (linux_table b') = Some false).
Proof.
  intros Hok Hn Hlt Hu. pose proof Hok as [Hwf Hpr Hmap]. pose proof (ps_pos os_page Hps) as Hp.
  destruct (round_up_spec os_page Hps n) as [Hb Hm]; [lia|lia|]. set (size := round_up n os_page) in *.
  unfold linux_reserve_region. rewrite bind_get, Hu, (proj2 (Z.eqb_neq n 0)) by lia. cbn [negb orb]. cbv zeta. fold size.
  unfold bind, linux_sys. destruct (uf_mmap size (linux_vm b)) as [a k] eqn:E.
  destruct (Z.eqb_spec a 0) as [->|Hne]; [by eexists 0, 0, _|].
  apply uf_mmap_ok in E as (H0 & Ha & Hend & Hal & Hfresh & Hacc & Hmp); [|done].
  cbn [linux_set_vm linux_vm]. destruct (uf_register a size k) as [[|] k2] eqn:Er; cbn [negb]; [|by eexists 0, 0, _].
  apply uf_register_same in Er as (Hacc2 & _ & Hmp2).
  exists a, size. eexists. split; [done|]. intros _.
  destruct (emplace_fresh os_page (fun r => r) Hps a size false (linux_table b)) as (Hwf' & Hst & _ & Hsz); try done.
  { intros b' r Hr. apply Hfresh. by apply Hmap. }
  cbn [linux_update linux_set_table linux_set_vm linux_table linux_vm fst snd]. split; [|split; [done|split]].
  - split; cbn [linux_table linux_vm]; [done| |].
    + intros p Hpm. rewrite Hst, Hacc2, Hacc by done. specialize (Hpr p Hpm). by case_decide.
    + intros base r Hr. rewrite Hmp2, Hmp. pose proof (Hsz base) as Hs. cbn [linux_table linux_set_table linux_set_vm] in Hr. rewrite Hr in Hs. cbn in Hs.
      case_decide; [congruence|]. destruct (regions_ (linux_table b) !! base) as [r0|] eqn:E0; [|done].
      injection Hs as ->. by apply Hmap.
  - rewrite Hsz. by rewrite decide_True.
  - intros p Hin. rewrite Hst. by rewrite decide_True.
Qed.

(** Eviction drops the pages and their marks together, so a later touch faults again. *)
Lemma linux_evict_ok b addr n : linux_ok b -> page_range addr n ->
  exists ok b', linux_evict_pages addr n b = (Ret ok, b') /\ linux_ok b' /\
    if ok : bool
    then forall p, p mod os_page = 0 -> addr <= p < addr + n -> is_Some (state_at os_page p (linux_table b)) ->
           state_at os_page p (linux_table b') = Some false
    else b' = b.
Proof.
  intros Hok Hr. pose proof Hr as [H0 Hn Hend Hal Hw]. destruct (page_base_aligned os_page Hps addr) as [Hpb Hoff]; [lia|done|].
  pose proof (range_room addr n Hr) as Hroom.
  unfold linux_evict_pages. rewrite Hpb, Hoff, Z.add_0_l, u64_small, (round_up_whole os_page Hps) by (done || lia).
  rewrite (proj2 (Z.eqb_neq n 0)) by lia. cbv zeta. unfold bind, linux_sys.
  destruct (uf_dontneed addr n (linux_vm b)) as [[|] k] eqn:E; cbn [negb].
  2:{ apply uf_dontneed_fails in E as ->. exists false, b. destruct b. done. }
  apply uf_dontneed_ok in E as (Hacc & _ & Hmp). exists true. eexists. split; [done|]. set (b' := linux_set_table _ _).
  destruct (linux_step b b' k false addr n) as [Hok' Hst]; try done; [lia|lia|by intros p Hp _; apply Hacc|].
  split; [done|]. intros p Hp Hin [s Hs]. rewrite Hst, decide_True, Hs by done. done.
Qed.

(** ** Properties *)

Abbreviation self_event := (handle_event (fun b : PageFaultBackendLinux K => b) (fun b _ => b)).

(** A fault the callback leaves unresolved (the heap does so when the peer does
    not answer) is not passed on: unless the kernel refuses, the thread resumes
    on a page of zeros, marked resident. *)
Theorem linux_unanswered_reads_zero b x w :
  linux_ok b -> 0 < x - x mod os_page -> x < U64 - os_page ->
  state_at os_page x (linux_table b) = Some false ->
  exists b', self_event (fun _ _ => ret tt) x w b = (Ret tt, b') /\ linux_ok b' /\
    ((access_of (linux_vm b') (x - x mod os_page) = ReadWrite /\
      (forall y, x - x mod os_page <= y < x - x mod os_page + os_page -> byte_at (linux_vm b') y = x00)) \/
     (exists k, uf_zeropage (x - x mod os_page) os_page (linux_vm b) = (false, k))).
Proof.
  intros Hok H0 Hx Hs. pose proof (ps_pos os_page Hps) as Hp.
  assert (Hmod : 0 <= x mod os_page < os_page) by (apply Z.mod_pos_bound; lia).
  pose proof (page_range_one (x - x mod os_page) H0 (page_of_aligned os_page Hps x) ltac:(lia)) as Hr.
  rewrite (state_at_page os_page (fun r => r) Hps) in Hs by (apply Hok || lia).
  unfold handle_event. rewrite bind_get, bind_put. set (b0 := linux_set_resolved false b).
  assert (Hcb : (if user_cb_ b then ret tt else ret tt : M (PageFaultBackendLinux K) unit) b0 = (Ret tt, b0)) by by destruct (user_cb_ b).
  rewrite (bind_ret _ _ _ _ _ Hcb), bind_get. cbn [linux_resolved b0 linux_set_resolved negb].
  unfold zoom. rewrite zero_page_run by lia. cbv zeta. cbn [linux_vm linux_table b0 linux_set_resolved].
  set (page := x - x mod os_page) in *. eexists. split; [reflexivity|]. pose proof Hr as [_ _ Hend Hal Hw].
  destruct (uf_zeropage page os_page (linux_vm b)) as [[|] k] eqn:E.
  - apply uf_zeropage_ok in E as (Hno & Hacc & Hby & Hm). set (b' := mkLinux _ _ _ _ _ _).
    destruct (linux_step b b' k true page os_page) as [Hok' _]; try done; [lia|lia|by intros p Hpm _; apply Hacc|].
    split; [done|]. left. split.
    + cbn. rewrite Hacc by done. rewrite decide_True by lia. done.
    + intros y Hy. cbn. rewrite Hby. by rewrite decide_True.
  - pose proof E as E'. apply uf_zeropage_fails in E' as ->. split; [|right; by exists (linux_vm b)].
    pose proof Hok as [Hwf Hpr Hmp].
    assert (Hsame : forall p, p mod os_page = 0 ->
      state_at os_page p (for_each_page os_page (mark_page false) page os_page
        (for_each_page os_page (mark_page true) page os_page (linux_table b))) = state_at os_page p (linux_table b)).
    { intros p Hpm. destruct (marked_state true page os_page (linux_table b) p Hwf Hr Hpm) as (Hwf1 & Hs1 & _).
      destruct (marked_state false page os_page _ p Hwf1 Hr Hpm) as (_ & -> & _). rewrite Hs1.
      case_decide as Hin; [|done]. assert (p = page) as ->; [|by rewrite Hs].
      symmetry. apply (multiple_eq os_page); (done || lia). }
    destruct (marked_state true page os_page (linux_table b) page Hwf Hr Hal) as (Hwf1 & _ & Hz1).
    destruct (marked_state false page os_page _ page Hwf1 Hr Hal) as (Hwf2 & _ & Hz2).
    split; cbn [linux_table linux_vm]; [done| |].
    + intros p Hpm. rewrite Hsame by done. by apply Hpr.
    + intros base r Hbr. pose proof (Hz2 base) as Hz. rewrite Hbr, Hz1 in Hz.
      destruct (regions_ (linux_table b) !! base) as [r1|] eqn:Er; [|done]. injection Hz as ->. by apply Hmp.
Qed.

(** A second event for a page that has been filled meanwhile (two threads touch
    one page of the heap before the first event is answered) makes UFFDIO_COPY
    and UFFDIO_ZEROPAGE fail; the code then marks the page as not resident.  The
    page keeps its bytes and stays writable, but is reported clean: an eviction
    drops what the program stores to it. *)
Theorem linux_second_fault_untracks b addr d x w :
  linux_ok b -> uffd_ b = true -> user_cb_ b = true -> page_range addr (zlen d) -> addr <= x < addr + zlen d ->
  (forall p, p mod os_page = 0 -> addr <= p < addr + zlen d -> state_at os_page p (linux_table b) = Some true) ->
  exists b', self_event (fun _ _ => linux_resolve_fault addr (Some d) (zlen d)) x w b = (Ret tt, b') /\
    linux_is_dirty addr (zlen d) b' = false /\
    (forall p, p mod os_page = 0 -> addr <= p < addr + zlen d ->
       access_of (linux_vm b') p = ReadWrite /\
       forall y, p <= y < p + os_page -> byte_at (linux_vm b') y = byte_at (linux_vm b) y).
Proof.
  intros Hok Hu Hcb Hr Hx Hall. pose proof (ps_pos os_page Hps) as Hp. pose proof Hok as [Hwf Hpr Hmp].
  set (b0 := linux_set_resolved false b).
  assert (Hok0 : linux_ok b0) by by split.
  unfold handle_event. rewrite bind_get, bind_put, Hcb. fold b0.
  rewrite (bind_ret _ _ _ _ _ (linux_resolve_run b0 addr d Hr Hu)). cbv zeta.
  cbn [linux_vm linux_table b0 linux_set_resolved uffd_ running_ user_cb_ linux_resolved].
  assert (Hpres : forall p, p mod os_page = 0 -> addr <= p < addr + zlen d -> access_of (linux_vm b) p = ReadWrite).
  { intros p Hpm Hin. specialize (Hpr p Hpm). by rewrite (Hall p Hpm Hin) in Hpr. }
  destruct (uf_copy addr d (linux_vm b)) as [[|] k] eqn:Ec.
  { apply uf_copy_ok in Ec as (Hno & _). destruct Hr as [Hr1 Hr2 _ Hal _]. specialize (Hno addr Hal ltac:(lia)).
    by rewrite (Hpres addr Hal) in Hno by lia. }
  apply uf_copy_fails in Ec as (Hacc & Hby & _).
  assert (Hmod : 0 <= x mod os_page < os_page) by (apply Z.mod_pos_bound; lia).
  assert (Hxb : 0 <= x < U64) by (destruct Hr; lia). pose proof Hr as [Hr1 Hr2 Hr3 Hal Hw].
  assert (Hpage : addr <= x - x mod os_page < addr + zlen d) by by apply (range_multiple os_page Hps).
  pose proof (page_of_aligned os_page Hps x) as Hpm. set (page := x - x mod os_page) in *.
  rewrite bind_get. cbn [linux_resolved negb]. unfold zoom. rewrite zero_page_run by done. fold page. cbv zeta.
  cbn [linux_vm linux_table uffd_ running_ user_cb_ linux_resolved].
  assert (Hkp : forall p, p mod os_page = 0 -> addr <= p < addr + zlen d -> access_of k p = ReadWrite).
  { intros p Hpp Hin. rewrite Hacc by (done || by rewrite (Hpres p Hpp Hin)). by apply Hpres. }
  destruct (uf_zeropage page os_page k) as [[|] k2] eqn:Ez.
  { apply uf_zeropage_ok in Ez as (Hno & _). specialize (Hno page Hpm ltac:(lia)). by rewrite (Hkp page Hpm Hpage) in Hno. }
  apply uf_zeropage_fails in Ez as ->. eexists. split; [reflexivity|]. set (b' := mkLinux _ _ _ _ _ _).
  assert (Hrp : page_range page os_page).
  { apply page_range_one; [lia|done|]. pose proof (page_fits os_page Hps page addr (zlen d) Hal Hw Hpm Hpage). lia. }
  assert (Hst : forall p, p mod os_page = 0 -> addr <= p < addr + zlen d -> state_at os_page p (linux_table b') = Some false).
  { intros p Hpp Hin. cbn [linux_table b'].
    destruct (marked_state true addr (zlen d) (linux_table b) p Hwf Hr Hpp) as (Hwf1 & Hs1 & _).
    destruct (marked_state false addr (zlen d) _ p Hwf1 Hr Hpp) as (Hwf2 & Hs2 & _).
    destruct (marked_state true page os_page _ p Hwf2 Hrp Hpp) as (Hwf3 & Hs3 & _).
    destruct (marked_state false page os_page _ p Hwf3 Hrp Hpp) as (_ & -> & _).
    rewrite Hs3, Hs2, Hs1, (Hall p Hpp Hin). rewrite !(decide_True _ _ Hin). by case_decide. }
  split; [|intros p Hpp Hin; cbn; split; [by apply Hkp|]; intros y Hy; apply (Hby p); try done; by rewrite (Hpres p Hpp Hin)].
  apply not_true_iff_false. unfold linux_is_dirty.
  assert (Hwf' : table_wf os_page (fun r => r) (linux_table b')).
  { cbn [linux_table b'].
    destruct (marked_state true addr (zlen d) (linux_table b) page Hwf Hr Hpm) as (Hwf1 & _).
    destruct (marked_state false addr (zlen d) _ page Hwf1 Hr Hpm) as (Hwf2 & _).
    destruct (marked_state true page os_page _ page Hwf2 Hrp Hpm) as (Hwf3 & _).
    by destruct (marked_state false page os_page _ page Hwf3 Hrp Hpm) as (Hwf4 & _). }
  rewrite (for_each_page_const_spec os_page (fun r => r) Hps) by (done || lia || by apply (range_room addr)).
  intros (p & s & Hpp & Hin & Hs & Ht). rewrite (Hst p Hpp Hin) in Hs. congruence.
Qed.
End facts.

(** ** An example kernel *)

#[local] Existing Instance demo_memory.

#[refine, local] Instance demo_uffd : Uffd DemoKernel := {|
  mapped k b := find_res b (dk_res k);
  uf_mmap n k :=
    if (0 <? n) && (n mod 4 =? 0) && (dk_top k mod 4 =? 0) && (dk_top k + n <? U64)
    then (dk_top k, mkKernel (set_access (dk_top k) n NoPage k) (dk_mem k) ((dk_top k, n) :: dk_res k))
    else (0, k);
  uf_register a n k := (true, k);
  uf_munmap a n k := mkKernel (dk_access k) (dk_mem k) (filter (fun r => r.1 <> a) (dk_res k));
  uf_copy a d k :=
    if forallb (fun p => bool_decide (dk_access k p = NoPage)) (seqZ a (zlen d))
    then (true, mkKernel (set_access a (zlen d) ReadWrite k) (fun x => default (dk_mem k x) (znth d (x - a))) (dk_res k))
    else (false, k);
  uf_zeropage a n k :=
    if forallb (fun p => bool_decide (dk_access k p = NoPage)) (seqZ a n)
    then (true, mkKernel (set_access a n ReadWrite k) (fun x => if in_range a n x then x00 else dk_mem k x) (dk_res k))
    else (false, k);
  uf_dontneed a n k := (true, mkKernel (set_access a n NoPage k) (dk_mem k) (dk_res k))
|}.
Proof.
  all: assert (Hall : forall k a n, forallb (fun p => bool_decide (dk_access k p = NoPage)) (seqZ a n) = true ->
    forall p, a <= p < a + n -> dk_access k p = NoPage)
    by (intros k a n Hf p Hp; rewrite forallb_forall in Hf;
        apply (bool_decide_eq_true_1 _ (Hf p (proj1 (list_elem_of_In _ _) (proj2 (elem_of_seqZ _ _ _) Hp))))).
  - intros n k b k' Hr Hb. destruct ((0 <? n) && _ && _ && _) eqn:E; [|by injection Hr as <- _].
    injection Hr as <- <-. zprop. pose proof (dk_top_pos k).
    split; [done|]. split; [lia|]. split; [done|]. split; [done|]. split; [|split].
    + intros b' n' Hf. right. by apply dk_top_spec, find_res_In.
    + intros p _. cbn. apply set_access_spec.
    + intros p. cbn. destruct (Z.eqb_spec p (dk_top k)); [by rewrite decide_True|by rewrite decide_False].
  - intros n k k' Hr. destruct ((0 <? n) && _ && _ && _) eqn:E; [|by injection Hr].
    injection Hr as Ht _. pose proof (dk_top_pos k). lia.
  - by intros a n k r k' [= <- <-].
  - intros a n k Hr. split; [done|]. intros p. cbn. apply find_res_remove.
  - intros a d k k' Hc. destruct (forallb _ _) eqn:E; [|done]. injection Hc as <-. split; [intros p _; by apply Hall|].
    split; [intros p _; cbn; apply set_access_spec|done].
  - intros a d k k' Hc. destruct (forallb _ _) eqn:E; [done|]. by injection Hc as <-.
  - intros a n k k' Hc. destruct (forallb _ _) eqn:E; [|done]. injection Hc as <-. split; [intros p _; by apply Hall|].
    split; [intros p _; cbn; apply set_access_spec|]. split; [|done]. intros x. cbn. rewrite in_range_spec.
    by destruct (decide _) as [H|H]; [rewrite bool_decide_eq_true_2|rewrite bool_decide_eq_false_2].
  - intros a n k k' Hc. destruct (forallb _ _) eqn:E; [done|]. by injection Hc as <-.
  - intros a n k k' [= <-]. split; [intros p _; cbn; apply set_access_spec|done].
  - done.
Defined.

Definition demo_kernel : DemoKernel := mkKernel (fun _ => NoPage) (fun _ => x00) [].

(** A backend with a region of four pages, and the same with the first two filled. *)
Definition demo_linux : PageFaultBackendLinux DemoKernel :=
  snd ((do! linux_reserve_region 13 in linux_on_fault true) (PageFaultBackendLinux_new true true demo_kernel)).

Definition demo_bytes : list byte := [x01; x02; x03; x04; x05; x06; x07; x08].

Definition demo_linux_filled : PageFaultBackendLinux DemoKernel :=
  snd (linux_resolve_fault 4096 (Some demo_bytes) 8 demo_linux).

Lemma demo_linux_ok : linux_ok demo_linux.
Proof.
  destruct (linux_reserve_ok (PageFaultBackendLinux_new true true demo_kernel) 13 (linux_new_ok true true demo_kernel))
    as (base & size & b' & Hrun & Hpost); [lia|vm_compute; reflexivity|done|].
  assert (Hb : fst (linux_reserve_region 13 (PageFaultBackendLinux_new true true demo_kernel)) = Ret (4096, 16)) by (vm_compute; reflexivity).
  rewrite Hrun in Hb. injection Hb as -> ->. destruct (Hpost ltac:(done)) as ([H1 H2 H3] & _).
  unfold demo_linux. rewrite (bind_ret _ _ _ _ _ Hrun). by split.
Qed.

Lemma demo_range : page_range (K := DemoKernel) 4096 8.
Proof. split; vm_compute; reflexivity. Qed.

Lemma demo_linux_filled_ok : linux_ok demo_linux_filled.
Proof.
  destruct (uf_copy 4096 demo_bytes (linux_vm demo_linux)) as [r k] eqn:E.
  assert (Hr : fst (uf_copy 4096 demo_bytes (linux_vm demo_linux)) = true) by (vm_compute; reflexivity).
  rewrite E in Hr. cbn in Hr. subst r.
  destruct (linux_resolve_absent demo_linux 4096 demo_bytes k demo_linux_ok demo_range ltac:(vm_compute; reflexivity) E)
    as (b' & Hrun & Hok & _).
  change (zlen demo_bytes) with 8 in Hrun. unfold demo_linux_filled. by rewrite Hrun.
Qed.

Lemma linux_unanswered_reads_zero_witness :
  exists b', handle_event (fun b => b) (fun b _ => b) (fun _ _ => ret tt) 4105 true demo_linux = (Ret tt, b') /\ linux_ok b' /\
    ((access_of (linux_vm b') (4105 - 4105 mod os_page) = ReadWrite /\
      (forall y, 4105 - 4105 mod os_page <= y < 4105 - 4105 mod os_page + os_page -> byte_at (linux_vm b') y = x00)) \/
     (exists k, uf_zeropage (4105 - 4105 mod os_page) os_page (linux_vm demo_linux) = (false, k))).
Proof.
  apply (linux_unanswered_reads_zero demo_linux 4105 true).
  - apply demo_linux_ok.
  - vm_compute. reflexivity.
  - vm_compute. reflexivity.
  - vm_compute. reflexivity.
Defined.

Lemma linux_second_fault_untracks_witness :
  exists b', handle_event (fun b => b) (fun b _ => b)
      (fun _ _ => linux_resolve_fault 4096 (Some demo_bytes) (zlen demo_bytes)) 4101 true demo_linux_filled = (Ret tt, b') /\
    linux_is_dirty 4096 (zlen demo_bytes) b' = false /\
    (forall p, p mod (os_page (K := DemoKernel)) = 0 -> 4096 <= p < 4096 + zlen demo_bytes ->
       access_of (linux_vm b') p = ReadWrite /\
       forall y, p <= y < p + os_page (K := DemoKernel) -> byte_at (linux_vm b') y = byte_at (linux_vm demo_linux_filled) y).
Proof.
  apply (linux_second_fault_untracks demo_linux_filled 4096 demo_bytes 4101 true).
  - apply demo_linux_filled_ok.
  - vm_compute. reflexivity.
  - vm_compute. reflexivity.
  - apply demo_range.
  - vm_compute. intuition discriminate.
  - intros p Hp Hin. change (zlen demo_bytes) with 8 in Hin. change (os_page (K := DemoKernel)) with 4 in Hp.
    assert (p = 4096 \/ p = 4100) as [->| ->] by (apply Z.mod_divide in Hp as [q ->]; lia); vm_compute; reflexivity.
Defined.
