(* ===== verification/PageFaultMac.v ===== *)
(** * The macOS page-fault backend (platform/src/macos/page_fault_mac.cpp)

    The Windows scheme on mmap, mprotect and a SIGSEGV/SIGBUS handler.  The object
    has the fields of the Windows one ([installed_] in place of [veh_handle_]), so
    the model uses its record.  The handler cannot tell loads from stores: a trap
    on a resident page counts as a store, one on an absent page as a load.

    The Posix calls the code makes are [PosixVM].  Read as a [WinVM] (commit is
    mprotect to read-write, decommit is madvise and mprotect to nothing) they make
    each operation here the Windows one ([mac_backend_matches]), and so the heap's
    theorems hold, if taking pages back never fails half-way: [evict_pages] gives
    the bytes up with MADV_FREE before the mprotect that may still fail. *)

From S2P Require Import Prelude PageRegions FaultBackend PageFaultWin HeapDemo.

Class PosixVM (K : Type) `{!PagedMemory K} := {
  px_reservation : K -> Z -> option Z;
  px_mmap : Z -> K -> Z * K;                     (* mmap(nullptr, n, PROT_NONE, ...) *)
  px_munmap : Z -> Z -> K -> K;
  px_mprotect : Z -> Z -> Access -> K -> bool * K;
  px_madvise_free : Z -> Z -> K -> K;            (* madvise(a, n, MADV_FREE), its result ignored *)
  px_store_reservation : forall a d k p, px_reservation (store_bytes a d k) p = px_reservation k p;
  px_mmap_ok : forall n k b k', px_mmap n k = (b, k') -> b <> 0 ->
    0 < n /\ 0 < b /\ b + n < U64 /\ b mod os_page = 0 /\
    (forall b' n', px_reservation k b' = Some n' -> b + n <= b' \/ b' + n' <= b) /\
    (forall p, p mod os_page = 0 -> access_of k' p = (if decide (b <= p < b + n) then NoPage else access_of k p)) /\
    (forall x, ~ b <= x < b + n -> byte_at k' x = byte_at k x) /\
    (forall p, px_reservation k' p = if decide (p = b) then Some n else px_reservation k p);
  px_mmap_fails : forall n k k', px_mmap n k = (0, k') -> k' = k;
  px_mprotect_ok : forall a n pr k k', px_mprotect a n pr k = (true, k') ->
    (forall p, p mod os_page = 0 -> access_of k' p = (if decide (a <= p < a + n) then pr else access_of k p)) /\
    (forall x, byte_at k' x = byte_at k x) /\
    (forall p, px_reservation k' p = px_reservation k p);
  px_mprotect_fails : forall a n pr k k', px_mprotect a n pr k = (false, k') -> k' = k;
  px_madvise_law : forall a n k,
    (forall p, access_of (px_madvise_free a n k) p = access_of k p) /\
    (forall x, ~ a <= x < a + n -> byte_at (px_madvise_free a n k) x = byte_at k x) /\
    (forall p, px_reservation (px_madvise_free a n k) p = px_reservation k p);
  px_munmap_ok : forall a n k, px_reservation k a = Some n ->
    (forall p, p mod os_page = 0 -> ~ a <= p < a + n -> access_of (px_munmap a n k) p = access_of k p) /\
    (forall x, ~ a <= x < a + n -> byte_at (px_munmap a n k) x = byte_at k x) /\
    (forall p, px_reservation (px_munmap a n k) p = if decide (p = a) then None else px_reservation k p)
}.

Section backend.
Context {K : Type} `{!PagedMemory K} `{!PosixVM K}.
Abbreviation PageFaultBackendMac := (PageFaultBackendWin K).

(** The constructor installs both handlers; it does not look at sigaction's result. *)
Definition PageFaultBackendMac_new (k : K) : PageFaultBackendMac := PageFaultBackendWin_new true k.

Definition mac_reserve_region (bytes : Z) : M PageFaultBackendMac (Z * Z) :=
  if bytes =? 0 then ret (0, 0)
  else
    let rounded := round_up bytes os_page in
    let! addr := on_vm (px_mmap rounded) in
    if addr =? 0 then ret (0, 0)
    else
      do! on_table (emplace_region addr (mkRegion rounded (replicate (Z.to_nat (rounded / os_page)) ABSENT))) in
      ret (addr, rounded).

Definition mac_release_region (addr : Z) : M PageFaultBackendMac unit :=
  let! b := get in
  match regions_ (table_ b) !! addr with
  | None => ret tt
  | Some r =>
      do! on_table (erase_region present addr r) in
      on_vm (fun k => (tt, px_munmap addr (region_size r) k))
  end.

Fixpoint mac_release_all (bases : list Z) : M PageFaultBackendMac unit :=
  match bases with
  | [] => ret tt
  | base :: bases => do! mac_release_region base in mac_release_all bases
  end.

Definition PageFaultBackendMac_delete : M PageFaultBackendMac unit :=
  let! b := get in
  do! mac_release_all (map_to_list (regions_ (table_ b))).*1 in
  let! b := get in
  put (mkWin false (table_ b) (fault_handler_ b) (in_write_fault_ b) (resolved_ b) (vm b)).

Definition mac_on_fault (cb : bool) : M PageFaultBackendMac unit :=
  let! b := get in
  put (mkWin (veh_handle_ b) (table_ b) cb (in_write_fault_ b) (resolved_ b) (vm b)).

Definition mac_set_states (addr len : Z) (st : PageState) : M PageFaultBackendMac unit :=
  on_table (for_each_page os_page (set_state st) addr len).

Definition mac_resolve_fault (addr : Z) (data : option (list byte)) (len : Z) : M PageFaultBackendMac unit :=
  if addr =? 0 then ret tt
  else
    let page := page_base os_page addr in
    let span := u64 (offset_in_page os_page addr + len) in
    let total := round_up (if span =? 0 then os_page else span) os_page in
    let! opened := on_vm (px_mprotect page total ReadWrite) in
    if negb opened then ret tt
    else
      do! on_vm (fun k => (tt, match data with
                               | Some d => store_bytes addr (slice 0 len d) k
                               | None => store_bytes page (replicate (Z.to_nat total) x00) k
                               end)) in
      let! b := get in
      let write_fault := in_write_fault_ b in
      let! closed := (if write_fault then ret true else on_vm (px_mprotect page total ReadOnly)) in
      if negb closed then do! mac_set_states page total DIRTY in mark_resolved
      else do! mac_set_states page total (if write_fault then DIRTY else RESIDENT) in mark_resolved.

Definition mac_is_dirty (addr len : Z) (b : PageFaultBackendMac) : bool :=
  let page := page_base os_page addr in
  let total := round_up (u64 (offset_in_page os_page addr + len)) os_page in
  existsb (fun off => match state_at os_page (u64 (page + off)) (table_ b) with
                      | Some s => bool_decide (s = DIRTY)
                      | None => false
                      end) (page_offsets os_page total).

Definition mac_clear_dirty (addr len : Z) : M PageFaultBackendMac unit :=
  let page := page_base os_page addr in
  let total := round_up (u64 (offset_in_page os_page addr + len)) os_page in
  let! closed := on_vm (px_mprotect page total ReadOnly) in
  if negb closed then ret tt
  else on_table (for_each_page os_page clean_state page total).

Definition mac_evict_pages (addr len : Z) : M PageFaultBackendMac bool :=
  let page := page_base os_page addr in
  let total := round_up (u64 (offset_in_page os_page addr + len)) os_page in
  if total =? 0 then ret true
  else
    do! on_vm (fun k => (tt, px_madvise_free page total k)) in
    let! closed := on_vm (px_mprotect page total NoPage) in
    if negb closed then ret false
    else do! on_table (for_each_page os_page drop_state page total) in ret true.

(** [segv_handler]: [true] when the instruction is run again, [false] when the signal is raised anew. *)
Section handler.
Context {S : Type} (proj : S -> PageFaultBackendMac) (upd : PageFaultBackendMac -> S -> S).
Context (handler : Z -> bool -> M S unit).

Definition segv_handler (fault_addr : Z) : M S bool :=
  let! s := get in
  match state_at os_page fault_addr (table_ (proj s)) with
  | None => ret false
  | Some state =>
      if decide (state = ABSENT) then
        if negb (fault_handler_ (proj s)) then ret false
        else
          let saved_write := in_write_fault_ (proj s) in
          let saved_resolved := resolved_ (proj s) in
          do! put (upd (set_flags false false (proj s)) s) in
          do! handler fault_addr false in
          let! s := get in
          let resolved := resolved_ (proj s) in
          do! put (upd (set_flags saved_write saved_resolved (proj s)) s) in
          ret resolved
      else
        let page := page_base os_page fault_addr in
        let! ok := zoom proj upd (on_vm (px_mprotect page os_page ReadWrite)) in
        if negb ok then ret false
        else do! zoom proj upd (mac_set_states page os_page DIRTY) in ret true
  end.
End handler.

(** ** The Posix calls as those of Windows *)

Definition px_decommit (a n : Z) (k : K) : bool * K := px_mprotect a n NoPage (px_madvise_free a n k).

(** Taking the access of pages away does not fail. *)
Hypothesis mprotect_none : forall a n k, fst (px_mprotect a n NoPage k) = true.

#[refine] Instance mac_as_win : WinVM K := {|
  reservation := px_reservation;
  vm_reserve := px_mmap;
  vm_commit a n := px_mprotect a n ReadWrite;
  vm_protect := px_mprotect;
  vm_decommit := px_decommit;
  vm_release a k := match px_reservation k a with Some n => px_munmap a n k | None => k end
|}.
Proof.
  - apply px_store_reservation.
  - apply px_mmap_ok.
  - apply px_mmap_fails.
  - intros a n k k' H. apply px_mprotect_ok in H as (Hacc & Hby & Hr). split; [done|]. split; [by intros x _|].
    split; [|done]. intros p x _ _ _ _. apply Hby.
  - intros a n k k'. apply px_mprotect_fails.
  - apply px_mprotect_ok.
  - apply px_mprotect_fails.
  - intros a n k k' H. unfold px_decommit in H. apply px_mprotect_ok in H as (Hacc & Hby & Hr).
    destruct (px_madvise_law a n k) as (Ha & Hb & Hrr).
    split; [intros p Hp; rewrite Hacc by done; by rewrite Ha|]. split; [intros x Hx; rewrite Hby; by apply Hb|].
    intros p. by rewrite Hr.
  - intros a n k k' H. unfold px_decommit in H. pose proof (mprotect_none a n (px_madvise_free a n k)) as Hn.
    by rewrite H in Hn.
  - intros a n k Hr. rewrite Hr. by apply px_munmap_ok.
Defined.

(** The region a table holds is the one the kernel knows, so the size is right. *)
Lemma mac_release_matches b addr : win_ok b -> mac_release_region addr b = win_release_region addr b.
Proof.
  intros Hok. unfold mac_release_region, win_release_region. rewrite !bind_get.
  destruct (regions_ (table_ b) !! addr) as [r|] eqn:E; [|done]. unfold on_table, on_vm, bind.
  pose proof (wk_reserved _ Hok _ _ E) as Hr. cbn in *. by rewrite Hr.
Qed.

Lemma segv_resident {S} (proj : S -> PageFaultBackendMac) upd cb x s st :
  state_at os_page x (table_ (proj s)) = Some st -> st <> ABSENT ->
  segv_handler proj upd cb x s = win_dispatch proj upd cb x true s.
Proof.
  intros Hst Hne. unfold segv_handler, win_dispatch, VectoredHandler. cbn [negb]. change (1 =? 1) with true. cbv zeta.
  unfold bind, get. rewrite Hst, !decide_False by done. cbn [negb].
  change (vm_protect (page_base os_page x) os_page ReadWrite) with (px_mprotect (page_base os_page x) os_page ReadWrite).
  destruct (zoom _ _ _ _) as [[[]|e| |] s']; done.
Qed.

Lemma segv_absent {S} (proj : S -> PageFaultBackendMac) upd cb x s :
  state_at os_page x (table_ (proj s)) = Some ABSENT ->
  segv_handler proj upd cb x s = win_dispatch proj upd cb x false s.
Proof.
  intros Hst. unfold segv_handler, win_dispatch, VectoredHandler. cbn [negb]. change (0 =? 1) with false. cbv zeta.
  unfold bind, get. rewrite Hst, !decide_True by done.
  destruct (fault_handler_ (proj s)); cbn [negb]; [|done]. unfold call_handler, bind, get, put.
  destruct (cb x false _) as [[[]|e| |] s']; try done. destruct (resolved_ (proj s')); done.
Qed.

Lemma mac_evict_matches addr len b : mac_evict_pages addr len b = win_evict_pages addr len b.
Proof.
  unfold mac_evict_pages, win_evict_pages. destruct (_ =? 0); [done|]. unfold on_vm, bind. cbn [set_vm vm vm_decommit mac_as_win].
  unfold px_decommit. destruct (px_mprotect _ _ _ _) as [[|] k]; done.
Qed.

(** The backend as the heap sees it. *)
Definition mac_backend : IPageFaultBackend PageFaultBackendMac := {|
  page_size := os_page;
  is_supported b := veh_handle_ b;
  reserve_region := mac_reserve_region;
  release_region := mac_release_region;
  on_fault := mac_on_fault;
  resolve_fault := mac_resolve_fault;
  is_dirty := mac_is_dirty;
  clear_dirty := mac_clear_dirty;
  evict_pages := mac_evict_pages;
  dispatch := fun S proj upd cb x _ => segv_handler proj upd cb x;
  permits b x w := allowed (access_of (vm b) (x - x mod os_page)) w;
  mem_byte b x := byte_at (vm b) x;
  mem_store x v b := set_vm (store_bytes x [v] (vm b)) b
|}.

Abbreviation mac_frame := (@fb_frame PageFaultBackendMac mac_backend win_view).
Abbreviation mac_range := (@in_region PageFaultBackendMac mac_backend win_view).

Lemma frame_iff lo n b b' : mac_frame lo n b b' <-> fb_frame lo n b b'.
Proof. split; intros []; by split. Qed.

Lemma range_iff b a n : mac_range b a n <-> in_region b a n.
Proof. split; intros []; by split. Qed.

Lemma mac_laws : @FaultBackendLaws PageFaultBackendMac mac_backend win_view.
Proof.
  split.
  - exact os_page_pow2.
  - exact win_region_bounds.
  - intros b n H1 H2 H3. exact (win_reserve_law b n H1 H2 H3).
  - intros b base n Hok Hr. destruct (win_release_law b base n Hok Hr) as (b' & Hrun & Hp). exists b'.
    rewrite <- mac_release_matches in Hrun by done. by split.
  - intros b cb []. eexists. split; [done|]. split; [by split|]. done.
  - intros b addr d Hok Hr%range_iff Hn. destruct (win_resolve_law b addr d Hok Hr Hn) as (b' & Hrun & Hf%frame_iff & Hc).
    by exists b'.
  - intros b addr n Hok Hr%range_iff. exact (win_dirty_law b addr n Hok Hr).
  - intros b addr n Hok Hr%range_iff Hp. destruct (win_clear_law b addr n Hok Hr Hp) as (b' & Hrun & Hf%frame_iff & Hc).
    by exists b'.
  - intros b addr n Hok Hr%range_iff. destruct (win_evict_law b addr n Hok Hr) as (ok & b' & Hrun & Hrs & Hc).
    exists ok, b'. split; [exact (eq_trans (mac_evict_matches addr n b) Hrun)|]. split; [done|].
    destruct ok; [|done]. destruct Hc as [Hf%frame_iff Hp]. by split.
  - exact win_permits_law.
  - intros b base n x v Hok Hr Hx _. exact (win_store_law b base n x v Hok Hr Hx).
  - intros S proj upd cb base n x s Hl Hok Hr Hx Hp. destruct (win_state_x _ _ _ _ Hok Hr Hx) as (st & Hst & Hst' & _).
    assert (Hne : st <> ABSENT).
    { intros ->. cbn in Hp. unfold win_page, page_of in Hp. cbn in Hp. by rewrite Hst' in Hp. }
    destruct (win_promote_law S proj upd cb base n x s Hl Hok Hr Hx Hp) as (ok & b' & Hrun & Hc). exists ok, b'.
    split; [exact (eq_trans (segv_resident proj upd cb x s st Hst Hne) Hrun)|].
    intros Ho. destruct (Hc Ho) as [Hf%frame_iff Hp']. by split.
  - intros S N proj upd cb base n x w s Q E Hl Hok Hr Hx Hp Ha Hcb.
    destruct (win_state_x _ _ _ _ Hok Hr Hx) as (st & Hst & Hst' & _).
    assert (st = ABSENT) as ->.
    { cbn in Hp. unfold win_page, page_of in Hp. cbn in Hp. rewrite Hst' in Hp. by destruct st. }
    unfold wpx. change (dispatch proj upd cb x w s) with (segv_handler proj upd cb x s). rewrite segv_absent by done.
    apply (win_fetch_law S N proj upd cb base n x false s Q E Hl Hok Hr Hx Hp Ha).
    intros w' b1 Hf%frame_iff Hr1. eapply wpx_mono; [by apply Hcb| |done]. cbn beta. intros _ s' [Hok' HQ]. split; [done|].
    intros b2 Hf2%frame_iff. by apply HQ.
Qed.

(** C35: On its own system calls, and as long as taking access away does not fail,
    the macOS backend is the Windows one: every operation gives the same result
    and state, and the signal handler does what the exception handler does for a
    store, if the page is resident, and for a load if it is not. *)
Theorem mac_backend_matches b addr len data :
  win_ok b ->
  mac_reserve_region len b = win_reserve_region len b /\
  mac_release_region addr b = win_release_region addr b /\
  mac_resolve_fault addr data len b = win_resolve_fault addr data len b /\
  mac_is_dirty addr len b = win_is_dirty addr len b /\
  mac_clear_dirty addr len b = win_clear_dirty addr len b /\
  mac_evict_pages addr len b = win_evict_pages addr len b /\
  (forall (S : Type) (proj : S -> PageFaultBackendMac) upd cb s st,
     state_at os_page addr (table_ (proj s)) = Some st ->
     segv_handler proj upd cb addr s = win_dispatch proj upd cb addr (present st) s).
Proof.
  intros Hok. split; [done|]. split; [by apply mac_release_matches|]. split; [done|]. split; [done|]. split; [done|].
  split; [apply mac_evict_matches|]. intros S proj upd cb s st Hst.
  destruct st; [by apply segv_absent|by apply (segv_resident _ _ _ _ _ RESIDENT)|by apply (segv_resident _ _ _ _ _ DIRTY)].
Qed.
End backend.

(** ** Example kernels

    With [flaky], mprotect refuses to take access away, after MADV_FREE has
    dropped the bytes. *)

Section demo.
#[local] Existing Instance demo_memory.

#[refine] Definition demo_posix (flaky : bool) : PosixVM DemoKernel := {|
  px_reservation k b := find_res b (dk_res k);
  px_mmap n k :=
    if (0 <? n) && (n mod 4 =? 0) && (dk_top k mod 4 =? 0) && (dk_top k + n <? U64)
    then (dk_top k, mkKernel (set_access (dk_top k) n NoPage k) (dk_mem k) ((dk_top k, n) :: dk_res k))
    else (0, k);
  px_munmap a n k := mkKernel (dk_access k) (dk_mem k) (filter (fun r => r.1 <> a) (dk_res k));
  px_mprotect a n pr k :=
    if flaky && bool_decide (pr = NoPage) then (false, k)
    else (true, mkKernel (set_access a n pr k) (dk_mem k) (dk_res k));
  px_madvise_free a n k :=
    mkKernel (dk_access k) (fun x => if in_range a n x then x00 else dk_mem k x) (dk_res k)
|}.
Proof.
  - done.
  - intros n k b k' Hr Hb. destruct ((0 <? n) && _ && _ && _) eqn:E; [|by injection Hr as <- _].
    injection Hr as <- <-. zprop. pose proof (dk_top_pos k).
    split; [done|]. split; [lia|]. split; [done|]. split; [done|]. split; [|split; [|split; [done|]]].
    + intros b' n' Hf. right. by apply dk_top_spec, find_res_In.
    + intros p _. cbn. apply set_access_spec.
    + intros p. cbn. destruct (Z.eqb_spec p (dk_top k)); [by rewrite decide_True|by rewrite decide_False].
  - intros n k k' Hr. destruct ((0 <? n) && _ && _ && _) eqn:E; [|by injection Hr].
    injection Hr as Ht _. pose proof (dk_top_pos k). lia.
  - intros a n pr k k' H. destruct (flaky && _); [done|]. injection H as <-.
    split; [intros p _; cbn; apply set_access_spec|done].
  - intros a n pr k k' H. destruct (flaky && _); [by injection H as <-|done].
  - intros a n k. split; [done|]. split; [|done]. intros x Hx. cbn. by rewrite in_range_spec, bool_decide_eq_false_2.
  - intros a n k Hr. split; [done|]. split; [done|]. intros p. cbn. apply find_res_remove.
Defined.

Definition demo_kernel : DemoKernel := mkKernel (fun _ => NoPage) (fun _ => x00) [].

Lemma mac_backend_matches_witness :
  mac_reserve_region (PosixVM0 := demo_posix false) 8 (PageFaultBackendMac_new demo_kernel) =
  win_reserve_region (WinVM0 := mac_as_win (PosixVM0 := demo_posix false) (fun _ _ _ => eq_refl)) 8
    (PageFaultBackendMac_new demo_kernel).
Proof.
  apply (mac_backend_matches (PosixVM0 := demo_posix false) (fun _ _ _ => eq_refl) (PageFaultBackendMac_new demo_kernel) 4096 8 None).
  split; cbn.
  - apply table_wf_new.
  - intros p s _ H. unfold state_at, region_for, floor_entry in H. cbn in H. by rewrite map_fold_empty in H.
  - intros base r. by rewrite lookup_empty.
Defined.

(** A page that could not be evicted has lost its bytes, and is still taken for resident. *)
Definition evict_refused : M (PageFaultBackendWin DemoKernel) (bool * byte) :=
  do! mac_reserve_region (PosixVM0 := demo_posix true) 8 in
  do! mac_resolve_fault (PosixVM0 := demo_posix true) 4096 (Some [x01; x02; x03; x04]) 4 in
  let! ok := mac_evict_pages (PosixVM0 := demo_posix true) 4096 4 in
  let! b := get in
  ret (ok, byte_at (vm b) 4096).

Example mac_evict_refused_drops_bytes :
  fst (evict_refused (PageFaultBackendMac_new demo_kernel)) = Ret (false, x00) /\
  state_at 4 4096 (table_ (snd (evict_refused (PageFaultBackendMac_new demo_kernel)))) = Some RESIDENT.
Proof. vm_compute. split; reflexivity. Qed.
End demo.
