(* ===== verification/PeerTable.v ===== *)
(** * The table of peers

    [discoveryd/src/peer_table.cpp]: what a node knows of the others.  Every
    announcement refreshes an entry; a timer turns entries nobody refreshed into
    stale ones and then drops them.  [table_history] says what is in the table
    after any sequence of calls, as a function of the sequence. *)

From S2P Require Import Prelude.

(** [common/types.h]: [std::array<uint8_t, 16>]. *)
Abbreviation node_id_t := (list byte).

Module Peer.
Inductive State := ACTIVE | STALE | EVICTED.

#[export] Instance state_eq_dec : EqDecision State.
Proof. solve_decision. Defined.

(** [last_seen] is a point of the steady clock, in nanoseconds. *)
Record PeerInfo := mkInfo {
  id : node_id_t;
  hostname : string;
  address : string;
  free_ram_bytes : Z;
  free_vram_bytes : Z;
  memory_port : Z;
  gpu_port : Z;
  last_seen : Z;
  state : State
}.

Definition set_state (st : State) (p : PeerInfo) : PeerInfo :=
  mkInfo (id p) (hostname p) (address p) (free_ram_bytes p) (free_vram_bytes p) (memory_port p) (gpu_port p)
    (last_seen p) st.

Definition seen (now : Z) (p : PeerInfo) : PeerInfo :=
  mkInfo (id p) (hostname p) (address p) (free_ram_bytes p) (free_vram_bytes p) (memory_port p) (gpu_port p)
    now ACTIVE.
End Peer.
Import Peer.

Record PeerTable := mkPeerTable {
  peers_ : gmap node_id_t PeerInfo;
  ttl_seconds_ : Z
}.

Definition PeerTable_new : PeerTable := mkPeerTable ∅ 10.
Definition set_ttl_seconds (ttl : Z) (t : PeerTable) : PeerTable := mkPeerTable (peers_ t) ttl.

(** ** The code *)

Definition table_update (now : Z) (info : PeerInfo) (t : PeerTable) : PeerTable :=
  mkPeerTable (<[id info := seen now info]> (peers_ t)) (ttl_seconds_ t).

(** [duration_cast<seconds>] cuts towards zero. *)
Definition elapsed_seconds (now last : Z) : Z := (now - last) ÷ 1000000000.

(** The body of the loop of [tick]; [None]: the entry is erased. *)
Definition tick_peer (ttl now : Z) (p : PeerInfo) : option PeerInfo :=
  let elapsed := elapsed_seconds now (last_seen p) in
  if ttl * 3 <? elapsed then None
  else if ttl <? elapsed then Some (set_state STALE p)
  else Some (set_state ACTIVE p).

(** [ttl_seconds_ * 3] is computed on [int]. *)
Definition fits_int (z : Z) : bool := (- 2 ^ 31 <=? z) && (z <? 2 ^ 31).

Definition tick (now : Z) : M PeerTable unit :=
  let! t := get in
  if decide (peers_ t = ∅) then ret tt
  else if negb (fits_int (ttl_seconds_ t * 3)) then undef
  else put (mkPeerTable (omap (tick_peer (ttl_seconds_ t) now) (peers_ t)) (ttl_seconds_ t)).

Definition table_get_peers `{!MapIter node_id_t PeerInfo} (t : PeerTable) : list PeerInfo := (map_iter (peers_ t)).*2.

Definition table_get_peer (i : node_id_t) (t : PeerTable) : outcome PeerInfo :=
  match peers_ t !! i with
  | None => Throw (out_of_range "Peer not found")
  | Some p => Ret p
  end.

Definition remove_peer (i : node_id_t) (t : PeerTable) : PeerTable :=
  mkPeerTable (delete i (peers_ t)) (ttl_seconds_ t).

Definition active_count `{!MapIter node_id_t PeerInfo} (t : PeerTable) : Z :=
  foldl (fun n p => if decide (state p = ACTIVE) then n + 1 else n) 0 (table_get_peers t).

(** ** Histories *)

Inductive table_op :=
| TUpdate (now : Z) (info : PeerInfo)
| TTick (now : Z)
| TRemove (i : node_id_t).

Definition table_exec (op : table_op) : M PeerTable unit :=
  match op with
  | TUpdate now info => fun t => (Ret tt, table_update now info t)
  | TTick now => tick now
  | TRemove i => fun t => (Ret tt, remove_peer i t)
  end.

Fixpoint table_run (ops : list table_op) : M PeerTable unit :=
  match ops with
  | [] => ret tt
  | op :: ops => do! table_exec op in table_run ops
  end.

(** The node an operation is about, and the tick it is. *)
Definition about (op : table_op) : option node_id_t :=
  match op with TUpdate _ info => Some (id info) | TTick _ => None | TRemove i => Some i end.

Definition tick_time (op : table_op) : option Z :=
  match op with TTick now => Some now | _ => None end.

(** What the last tick since an announcement at [t] made of its entry. *)
Definition state_after (ttl t : Z) (after : list table_op) : State :=
  match last (omap tick_time after) with
  | None => ACTIVE
  | Some now => if ttl <? elapsed_seconds now t then STALE else ACTIVE
  end.

(** The entry of node [i] after [ops]: its last announcement, since when it was
    not removed and no tick found it older than three times the limit. *)
Definition listed (ttl : Z) (ops : list table_op) (i : node_id_t) (p : PeerInfo) : Prop :=
  exists before t info after,
    ops = before ++ TUpdate t info :: after /\ id info = i /\
    Forall (fun op => about op <> Some i) after /\
    Forall (fun now => elapsed_seconds now t <= ttl * 3) (omap tick_time after) /\
    p = set_state (state_after ttl t after) (seen t info).

Lemma table_run_snoc ops op t t' :
  table_run ops t = (Ret tt, t') -> table_run (ops ++ [op]) t = table_exec op t'.
Proof.
  revert t. induction ops as [|o ops IH]; intros t; cbn [table_run app].
  - intros [= ->]. unfold bind, ret. destruct (table_exec op t') as [[[]| | |] ?]; done.
  - unfold bind. destruct (table_exec o t) as [[[]| | |] t1]; intros H; try done. by apply IH.
Qed.

Lemma state_after_snoc ttl t after op :
  state_after ttl t (after ++ [op]) =
  match tick_time op with
  | Some now => if ttl <? elapsed_seconds now t then STALE else ACTIVE
  | None => state_after ttl t after
  end.
Proof.
  unfold state_after. rewrite omap_app. cbn. destruct (tick_time op); cbn.
  - by rewrite last_snoc.
  - by rewrite app_nil_r.
Qed.

(** How one more operation changes the list. *)
Lemma listed_snoc ttl ops op i p :
  listed ttl (ops ++ [op]) i p <->
  match op with
  | TUpdate t info => if decide (id info = i) then p = seen t info else listed ttl ops i p
  | TTick now => exists q, listed ttl ops i q /\ tick_peer ttl now q = Some p
  | TRemove j => j <> i /\ listed ttl ops i p
  end.
Proof.
  assert (Hkeep : about op <> Some i -> tick_time op = None ->
    (listed ttl (ops ++ [op]) i p <-> listed ttl ops i p \/ exists t info, op = TUpdate t info /\ id info = i /\ p = seen t info)).
  { intros Ha Ht. split.
    - intros (before & t & info & after & Heq & Hi & Hab & Hel & ->).
      destruct after as [|x after _] using rev_ind.
      + apply app_inj_tail in Heq as [-> ->]. right. by exists t, info.
      + rewrite app_comm_cons, app_assoc in Heq. apply app_inj_tail in Heq as [-> ->].
        apply Forall_app in Hab as [Hab _]. rewrite omap_app in Hel. apply Forall_app in Hel as [Hel _].
        left. exists before, t, info, after. split_and!; try done. by rewrite state_after_snoc, Ht.
    - intros [(before & t & info & after & -> & Hi & Hab & Hel & ->)|(t & info & -> & Hi & ->)]; [|by cbn in Ha; subst].
      exists before, t, info, (after ++ [op]). rewrite omap_app, state_after_snoc, Ht. cbn. rewrite Ht. cbn.
      rewrite app_nil_r. split_and!; try done; [by rewrite <- app_assoc|]. apply Forall_app. by split; [|constructor]. }
  destruct op as [t info|now|j]; cbn [about tick_time] in Hkeep.
  - case_decide as Hi.
    + split.
      * intros (before & t' & info' & after & Heq & Hi' & Hab & Hel & ->).
        destruct after as [|x after _] using rev_ind.
        -- by apply app_inj_tail in Heq as [_ [= -> ->]].
        -- rewrite app_comm_cons, app_assoc in Heq. apply app_inj_tail in Heq as [_ <-].
           apply Forall_app in Hab as [_ Hab]. apply Forall_cons in Hab as [Hab _]. cbn in Hab. congruence.
      * intros ->. exists ops, t, info, []. by split_and!.
    + rewrite Hkeep by congruence. split; [|by left]. intros [?|(? & ? & [= -> ->] & ? & _)]; done.
  - clear Hkeep. split.
    + intros (before & t & info & after & Heq & Hi & Hab & Hel & ->).
      destruct after as [|x after _] using rev_ind; [by apply app_inj_tail in Heq as [_ ?]|].
      rewrite app_comm_cons, app_assoc in Heq. apply app_inj_tail in Heq as [-> <-].
      apply Forall_app in Hab as [Hab _]. rewrite omap_app in Hel. cbn in Hel. apply Forall_app in Hel as [Hel Hx].
      apply Forall_cons in Hx as [Hx _].
      exists (set_state (state_after ttl t after) (seen t info)). split; [by exists before, t, info, after|].
      unfold tick_peer. cbn [last_seen set_state seen]. rewrite (proj2 (Z.ltb_ge _ _)) by lia.
      rewrite state_after_snoc. cbn [tick_time]. by destruct (_ <? _).
    + intros (q & (before & t & info & after & -> & Hi & Hab & Hel & ->) & Ht).
      unfold tick_peer in Ht. cbn [last_seen set_state seen] in Ht.
      destruct (Z.ltb_spec (ttl * 3) (elapsed_seconds now t)) as [|Hle]; [done|].
      exists before, t, info, (after ++ [TTick now]). rewrite state_after_snoc, omap_app. cbn [tick_time omap list_omap].
      split_and!; [by rewrite <- app_assoc|done| | |].
      * apply Forall_app. split; [done|]. by constructor.
      * apply Forall_app. split; [done|]. by repeat constructor.
      * destruct (ttl <? _); by injection Ht as <-.
  - destruct (decide (j = i)) as [->|Hne].
    + split; [|by intros []]. intros (before & t & info & after & Heq & Hi & Hab & _).
      destruct after as [|x after _] using rev_ind; [by apply app_inj_tail in Heq as [_ ?]|].
      rewrite app_comm_cons, app_assoc in Heq. apply app_inj_tail in Heq as [_ <-].
      apply Forall_app in Hab as [_ Hab]. by apply Forall_cons in Hab as [? _].
    + rewrite Hkeep by congruence. split; [|by intros []; left]. intros [?|(? & ? & [=] & _)]; done.
Qed.

(** The table holds what is listed, each node under its own id. *)
Lemma table_run_listed ttl ops :
  fits_int (ttl * 3) = true ->
  exists t, table_run ops (set_ttl_seconds ttl PeerTable_new) = (Ret tt, t) /\ ttl_seconds_ t = ttl /\
    forall i p, peers_ t !! i = Some p <-> listed ttl ops i p.
Proof.
  intros Hfit. induction ops as [|op ops (t & Hrun & Httl & IH)] using rev_ind.
  { exists (set_ttl_seconds ttl PeerTable_new). split_and!; try done. intros i p. cbn. rewrite lookup_empty.
    split; [done|]. intros (before & ? & ? & ? & Heq & _). by destruct before. }
  rewrite (table_run_snoc _ _ _ _ Hrun). destruct op as [now info|now|j]; cbn [table_exec].
  - eexists. split_and!; [done|done|]. intros i p. rewrite listed_snoc. cbn. case_decide as Hi.
    + subst i. rewrite lookup_insert_eq. naive_solver.
    + rewrite lookup_insert_ne by done. apply IH.
  - unfold tick. rewrite bind_get, Httl, Hfit. cbn [negb]. case_decide as He.
    + exists t. split_and!; try done. intros i p. rewrite listed_snoc, He, lookup_empty.
      split; [done|]. intros (q & Hq & _). apply IH in Hq. by rewrite He, lookup_empty in Hq.
    + eexists. split_and!; [done|done|]. intros i p. rewrite listed_snoc. cbn. rewrite lookup_omap.
      setoid_rewrite <- IH. destruct (peers_ t !! i) as [q|]; cbn; naive_solver.
  - eexists. split_and!; [done|done|]. intros i p. rewrite listed_snoc. cbn. destruct (decide (j = i)) as [->|].
    + rewrite lookup_delete_eq. naive_solver.
    + rewrite lookup_delete_ne by done. rewrite IH. naive_solver.
Qed.

Lemma listed_id ttl ops i p : listed ttl ops i p -> id p = i.
Proof. by intros (? & ? & ? & ? & _ & <- & _ & _ & ->). Qed.

Lemma count_active l n :
  foldl (fun n p => if decide (state p = ACTIVE) then n + 1 else n) n l =
  n + zlen (filter (fun p => state p = ACTIVE) l).
Proof.
  revert n. induction l as [|p l IH]; intros n; cbn [foldl]; [by rewrite Z.add_0_r|].
  rewrite IH, filter_cons. case_decide; [rewrite zlen_cons|]; lia.
Qed.

(** Ages in nanoseconds: an entry goes stale a whole second after the limit. *)
Lemma elapsed_exceeds n now last :
  last <= now -> 0 <= n -> (n < elapsed_seconds now last <-> (n + 1) * 1000000000 <= now - last).
Proof.
  intros Hle Hn. unfold elapsed_seconds. rewrite Z.quot_div_nonneg by lia. split; intros H.
  - pose proof (Z.mul_div_le (now - last) 1000000000 ltac:(lia)). nia.
  - pose proof (Z.div_le_lower_bound (now - last) 1000000000 (n + 1) ltac:(lia)). lia.
Qed.

(** ** Properties *)

(** C14: What the table says after any calls: a node is listed exactly if it was
    announced, not removed since, and found at most three limits old by every
    tick since; its entry is its last announcement, stale if the last tick found
    it older than the limit.  [get_peers] lists each node once, [get_peer] finds
    exactly those, and [active_count] counts the ones that are not stale. *)
Theorem table_history `{!MapIter node_id_t PeerInfo} ttl ops :
  fits_int (ttl * 3) = true ->
  exists t, table_run ops (set_ttl_seconds ttl PeerTable_new) = (Ret tt, t) /\
    (forall p, p ∈ table_get_peers t <-> listed ttl ops (id p) p) /\
    NoDup (id <$> table_get_peers t) /\
    (forall i p, table_get_peer i t = Ret p <-> listed ttl ops i p) /\
    active_count t = zlen (filter (fun p => state p = ACTIVE) (table_get_peers t)).
Proof.
  intros Hfit. destruct (table_run_listed ttl ops Hfit) as (t & Hrun & _ & Hl). exists t.
  assert (Hids : id <$> table_get_peers t = (map_iter (peers_ t)).*1).
  { unfold table_get_peers. rewrite <- list_fmap_compose. apply list_fmap_ext. intros k [i p] Hk. cbn.
    apply (listed_id ttl ops), Hl, elem_of_map_iter, list_elem_of_lookup. by exists k. }
  split_and!; [done| | | |].
  - intros p. rewrite <- Hl. unfold table_get_peers. rewrite list_elem_of_fmap. split.
    + intros ([i q] & -> & Hin). apply elem_of_map_iter in Hin. cbn. by rewrite (listed_id ttl ops i q) by by apply Hl.
    + intros Hp. exists (id p, p). split; [done|]. by apply elem_of_map_iter.
  - rewrite Hids. apply NoDup_map_iter.
  - intros i p. rewrite <- Hl. unfold table_get_peer. destruct (peers_ t !! i); naive_solver.
  - unfold active_count. by rewrite count_active.
Qed.

Definition demo_node : PeerInfo := mkInfo [x01] "node1" "10.0.0.1" 1024 0 9200 0 0 ACTIVE.

#[local] Instance demo_iter : MapIter node_id_t PeerInfo := map_iter_std node_id_t PeerInfo.

Lemma table_history_witness :
  exists t, table_run [TUpdate 0 demo_node; TTick 2000000000] (set_ttl_seconds 1 PeerTable_new) = (Ret tt, t) /\
    set_state STALE demo_node ∈ table_get_peers t /\ active_count t = 0.
Proof.
  destruct (table_history 1 [TUpdate 0 demo_node; TTick 2000000000]) as (t & Hrun & Hp & _ & _ & Hc); [reflexivity|].
  exists t. split; [exact Hrun|]. split.
  - apply Hp. exists [], 0, demo_node, [TTick 2000000000]. split_and!; try reflexivity; repeat constructor; done.
  - rewrite Hc. injection Hrun as <-. reflexivity.
Defined.

(** The limit comes from the configuration unchecked: a large one overflows [int]. *)
Example large_limit_overflows :
  fst (table_run [TUpdate 0 demo_node; TTick 1] (set_ttl_seconds 800000000 PeerTable_new)) = Undef.
Proof. vm_compute. reflexivity. Qed.
