(* ===== verification/Common.v ===== *)
(** * Shared parts of the daemons

    [common/src/config.cpp], [common/src/uuid.cpp], [common/src/signal_handler.cpp]
    and [platform/src/linux/random_linux.cpp]: typed access to the configuration,
    node ids, random bytes and the signal handles of a libuv loop. *)

From S2P Require Import Prelude.

(** ** Configuration *)

(** The parsed TOML table, as its [value<T>()] accessors see it: [None] when the
    key is missing or has another type.  The parser is not part of the repository. *)
Record Config := mkTomlConfig {
  value_string : string -> string -> option string;
  value_int : string -> string -> option Z;
  value_bool : string -> string -> option bool;
  has_key : string -> string -> bool
}.

Definition Config_empty : Config := mkTomlConfig (fun _ _ => None) (fun _ _ => None) (fun _ _ => None) (fun _ _ => false).

(** [Config::get<T>], for the [value<T>()] of the type. *)
Definition config_get {T} (value : Config -> string -> string -> option T) (section key : string) (default_val : T)
    (c : Config) : T :=
  match value c section key with
  | Some val => val
  | None => default_val
  end.

Definition get_string (section key default_val : string) (c : Config) : string :=
  match value_string c section key with
  | Some val => val
  | None => default_val
  end.

Definition config_has (section key : string) (c : Config) : bool := has_key c section key.

(** ** Random bytes and node ids *)

(** What one call of [getrandom] does: a prefix of the buffer, [EINTR], or another error. *)
Inductive GetRandom := GrBytes (l : list byte) | GrInterrupted | GrError.

(** [generate_random_bytes]: [left] bytes are missing; the calls it makes. *)
Fixpoint generate_random_bytes (left : Z) (calls : list GetRandom) : outcome (list byte) :=
  if left <=? 0 then Ret []
  else
    match calls with
    | [] => NoFuel
    | GrInterrupted :: calls => generate_random_bytes left calls
    | GrError :: _ => Throw (runtime_error "getrandom failed")
    | GrBytes l :: calls =>
        match generate_random_bytes (left - zlen l) calls with
        | Ret rest => Ret (l ++ rest)
        | o => o
        end
    end.

(** [generate_uuid]: version 4, variant 1, the rest as drawn. *)
Definition generate_uuid (random : list byte) : list byte :=
  let set i (f : Z -> Z) l := match znth l i with
                              | Some b => zset l i (byte_of_Z (f (byte_to_Z b)))
                              | None => l
                              end in
  set 8 (fun b => Z.lor (Z.land b 63) 128) (set 6 (fun b => Z.lor (Z.land b 15) 64) random).

(** However often it is interrupted and however short the answers are, the
    whole buffer is filled. *)
Lemma generate_random_bytes_fills calls : forall left l,
  generate_random_bytes left calls = Ret l -> left <= zlen l.
Proof.
  induction calls as [|[k| |] calls IH]; intros left l; cbn [generate_random_bytes];
    destruct (Z.leb_spec left 0); try (intros [= <-]; rewrite zlen_nil; lia); try done; [|by apply IH].
  destruct (generate_random_bytes (left - zlen k) calls) as [rest| | |] eqn:E; try done. intros [= <-].
  rewrite zlen_app. specialize (IH _ _ E). lia.
Qed.

(** The id says what it is: version 4 in byte 6, variant 1 in byte 8. *)
Lemma generate_uuid_version random :
  zlen random = 16 ->
  zlen (generate_uuid random) = 16 /\
  exists v r, znth (generate_uuid random) 6 = Some v /\ znth (generate_uuid random) 8 = Some r /\
    Z.shiftr (byte_to_Z v) 4 = 4 /\ Z.shiftr (byte_to_Z r) 6 = 2.
Proof.
  intros Hl. unfold generate_uuid. destruct (znth_is_Some random 6 ltac:(lia)) as [v Hv]. rewrite Hv.
  set (l := zset random 6 _). destruct (znth_is_Some l 8) as [r Hr]; [unfold l; rewrite zlen_zset; lia|]. rewrite Hr.
  split; [unfold l; by rewrite !zlen_zset|]. eexists _, _. split_and!.
  - rewrite znth_zset_ne by lia. unfold l. apply znth_zset_eq. lia.
  - apply znth_zset_eq. unfold l. rewrite zlen_zset. lia.
  - clear. destruct v; vm_compute; reflexivity.
  - clear. destruct r; vm_compute; reflexivity.
Qed.

(** ** libuv handles *)

Inductive Handle := HOpen | HClosing | HClosed.

#[export] Instance handle_eq_dec : EqDecision Handle.
Proof. solve_decision. Defined.

(** [if (!uv_is_closing(h)) uv_close(h, ...)] *)
Definition close_if_open (h : Handle) : Handle := match h with HOpen => HClosing | _ => h end.

(** The loop runs the close callbacks. *)
Definition run_close (h : Handle) : Handle := match h with HClosing => HClosed | _ => h end.

(** A call of libuv whose failure the code throws: the error's text. *)
Definition uv_try {S} (r : option string) (prefix : string) : M S unit :=
  match r with
  | Some err => throw (runtime_error (prefix ++ err))
  | None => ret tt
  end.

(** [SignalHandler]: two handles on the heap, which their close callbacks delete. *)
Record SignalHandler := mkSignals {
  sigterm_handle_ : Handle;
  sigint_handle_ : Handle;
  closed_ : bool
}.

Definition SignalHandler_new : SignalHandler := mkSignals HOpen HOpen false.

(** The destructor; [uv_close] on a closing handle is not allowed. *)
Definition SignalHandler_delete : M SignalHandler unit :=
  let! s := get in
  if closed_ s then ret tt
  else if decide (sigterm_handle_ s = HOpen /\ sigint_handle_ s = HOpen)
  then put (mkSignals HClosing HClosing true) else undef.

(** [on_signal]: the callback, then [uv_stop]. *)
Definition on_signal {S} (callback : M S unit) (uv_stop : S -> S) : M S unit :=
  do! callback in fun s => (Ret tt, uv_stop s).
