(* ===== verification/Discovery.v ===== *)
(** * The discovery daemon

    [discoveryd/src]: a node announces itself by multicast ([announcer.cpp]),
    collects the announcements of the others in its table ([listener.cpp]), asks
    its own memoryd how much of the pool is free ([pool_probe.cpp]) and answers
    clients on a local socket ([control_socket.cpp]); [discovery_daemon.cpp]
    holds them together.

    The libuv loop appears as the sequence of callbacks it runs; what the calls
    into libuv and the local IPC return is an argument. *)

From S2P Require Import Prelude Framing Common PeerTable MemoryProtocol MemoryDaemon.
Import Peer.

(** ** Messages ([schema/discovery.fbs], [schema/control.fbs]) *)

Record Announcement := mkAnnouncement {
  ann_protocol_version : Z;
  ann_node_id : option (list byte);
  ann_hostname : option string;
  ann_free_ram_bytes : Z;
  ann_free_vram_bytes : Z;
  ann_heartbeat_ts : Z;
  ann_memory_port : Z;
  ann_gpu_port : Z;
  ann_listen_address : option string
}.

(** [control::PeerInfo]; [cp_active]: the state is [PeerState_ACTIVE]. *)
Record ControlPeer := mkControlPeer {
  cp_node_id : option (list byte);
  cp_hostname : option string;
  cp_address : option string;
  cp_free_ram_bytes : Z;
  cp_free_vram_bytes : Z;
  cp_memory_port : Z;
  cp_gpu_port : Z;
  cp_active : bool;
  cp_last_seen_ms : Z
}.

(** The [local_*] fields of [ControlResponse]. *)
Record LocalStatus := mkLocalStatus {
  st_node_id : option (list byte);
  st_hostname : option string;
  st_free_ram : Z;
  st_free_vram : Z;
  st_pool_joined : bool;
  st_peer_count : Z
}.

Record ControlResponse := mkControlResponse {
  cr_request_id : Z;
  cr_success : bool;
  cr_message : option string;
  cr_peers : option (list ControlPeer);
  cr_local : LocalStatus;
  cr_pool_total_bytes : Z;
  cr_pool_used_bytes : Z;
  cr_pool_free_bytes : Z
}.

(** Fields that are not added read as these. *)
Definition no_status : LocalStatus := mkLocalStatus None None 0 0 false 0.

Definition is_u16 (z : Z) : Prop := 0 <= z < 2 ^ 16.

Definition announcement_ok (a : Announcement) : Prop :=
  is_u16 (ann_protocol_version a) /\ is_u64 (ann_free_ram_bytes a) /\ is_u64 (ann_free_vram_bytes a) /\
  is_u64 (ann_heartbeat_ts a) /\ is_u16 (ann_memory_port a) /\ is_u16 (ann_gpu_port a).

Definition control_peer_ok (p : ControlPeer) : Prop :=
  is_u64 (cp_free_ram_bytes p) /\ is_u64 (cp_free_vram_bytes p) /\ is_u16 (cp_memory_port p) /\
  is_u16 (cp_gpu_port p) /\ is_u64 (cp_last_seen_ms p).

Definition control_response_ok (r : ControlResponse) : Prop :=
  is_u64 (cr_request_id r) /\ Forall control_peer_ok (default [] (cr_peers r)) /\
  is_u64 (st_free_ram (cr_local r)) /\ is_u64 (st_free_vram (cr_local r)) /\ 0 <= st_peer_count (cr_local r) < U32 /\
  is_u64 (cr_pool_total_bytes r) /\ is_u64 (cr_pool_used_bytes r) /\ is_u64 (cr_pool_free_bytes r).

#[export] Instance announcement_ok_dec a : Decision (announcement_ok a).
Proof. unfold announcement_ok, is_u16, is_u64. apply _. Defined.
#[export] Instance control_peer_ok_dec p : Decision (control_peer_ok p).
Proof. unfold control_peer_ok, is_u16, is_u64. apply _. Defined.
#[export] Instance control_response_ok_dec r : Decision (control_response_ok r).
Proof. unfold control_response_ok, is_u64. apply _. Defined.

(** The largest buffer the FlatBuffers runtime handles. *)
Definition FLATBUFFERS_MAX_BUFFER_SIZE : Z := 2 ^ 31 - 1.

(** The generated accessors and the FlatBuffers runtime: a verifier accepts what
    a builder made from fields of the schema's types, and yields them; what it
    accepts has fields of these types. *)
Class DiscoveryWire := {
  announcement_buffer : Announcement -> list byte;
  control_request_buffer : ControlRequest -> list byte;
  control_response_buffer : ControlResponse -> list byte;
  verify_announcement : list byte -> option Announcement;
  verify_control_request : list byte -> option ControlRequest;
  verify_control_response : list byte -> option ControlResponse;
  announcement_nonempty : forall a, 0 < zlen (announcement_buffer a);
  control_response_nonempty : forall r, 4 <= zlen (control_response_buffer r);
  control_request_nonempty : forall r, 4 <= zlen (control_request_buffer r);
  verified_announcement_ok : forall b a, verify_announcement b = Some a -> announcement_ok a;
  verified_control_request_ok : forall b r, verify_control_request b = Some r -> is_u64 (control_request_id r);
  verified_control_response_ok : forall b r, verify_control_response b = Some r -> control_response_ok r;
  verify_announcement_buffer : forall a,
    announcement_ok a -> zlen (announcement_buffer a) <= FLATBUFFERS_MAX_BUFFER_SIZE ->
    verify_announcement (announcement_buffer a) = Some a;
  verify_control_request_buffer : forall r, 0 <= command r < 256 -> is_u64 (control_request_id r) ->
    verify_control_request (control_request_buffer r) = Some r;
  verify_control_response_buffer : forall r,
    control_response_ok r -> zlen (control_response_buffer r) <= FLATBUFFERS_MAX_BUFFER_SIZE ->
    verify_control_response (control_response_buffer r) = Some r
}.

Definition LIST_PEERS : Z := 0.
Definition GET_LOCAL_STATUS : Z := 1.
Definition JOIN_POOL : Z := 2.
Definition LEAVE_POOL : Z := 3.

Section discovery.
Context {W : DiscoveryWire} `{!MapIter node_id_t PeerInfo}.

(** ** The announcer *)

Record Announcer := mkAnnouncer {
  an_local_id : node_id_t;
  an_local_hostname : string;
  an_listen_address : string;
  an_memory_port : Z;
  an_gpu_port : Z;
  an_free_ram : Z;
  an_free_vram : Z;
  an_is_running : bool;
  an_pool_joined : bool;
  udp_handle_ : Handle;
  timer_handle_ : Handle
}.

Definition Announcer_new (i : node_id_t) (host addr : string) (memory gpu : Z) : Announcer :=
  mkAnnouncer i host addr memory gpu 0 0 false true HOpen HOpen.

Definition set_announcing (running : bool) (udp timer : Handle) (a : Announcer) : Announcer :=
  mkAnnouncer (an_local_id a) (an_local_hostname a) (an_listen_address a) (an_memory_port a) (an_gpu_port a)
    (an_free_ram a) (an_free_vram a) running (an_pool_joined a) udp timer.

(** [bound]: what [uv_udp_bind] says.  Binding a handle that is being closed is not allowed. *)
Definition announcer_start (bound : bool) : M Announcer unit :=
  let! a := get in
  if an_is_running a then ret tt
  else if negb (bool_decide (udp_handle_ a = HOpen)) then undef
  else if negb bound then ret tt
  else put (set_announcing true (udp_handle_ a) (timer_handle_ a) a).

Definition announcer_stop (a : Announcer) : Announcer :=
  if negb (an_is_running a) then a
  else set_announcing false (close_if_open (udp_handle_ a)) (close_if_open (timer_handle_ a)) a.

Definition update_metrics (free_ram free_vram : Z) (a : Announcer) : Announcer :=
  mkAnnouncer (an_local_id a) (an_local_hostname a) (an_listen_address a) (an_memory_port a) (an_gpu_port a)
    free_ram free_vram (an_is_running a) (an_pool_joined a) (udp_handle_ a) (timer_handle_ a).

Definition set_pool_joined (joined : bool) (a : Announcer) : Announcer :=
  mkAnnouncer (an_local_id a) (an_local_hostname a) (an_listen_address a) (an_memory_port a) (an_gpu_port a)
    (an_free_ram a) (an_free_vram a) (an_is_running a) joined (udp_handle_ a) (timer_handle_ a).

(** [on_timer]: the fields of the datagram it sends; [ts] is the system clock in milliseconds. *)
Definition announcement (ts : Z) (a : Announcer) : Announcement :=
  let announce_ram := if an_pool_joined a then an_free_ram a else 0 in
  let announce_vram := if an_pool_joined a then an_free_vram a else 0 in
  mkAnnouncement MEMINFO_PROTOCOL_VERSION (Some (an_local_id a)) (Some (an_local_hostname a)) announce_ram announce_vram
    (u64 ts) (an_memory_port a) (an_gpu_port a) (Some (an_listen_address a)).

Definition on_timer (ts : Z) (a : Announcer) : list byte := announcement_buffer (announcement ts a).

(** ** The listener *)

Record Listener := mkListener { ls_is_running : bool; ls_udp : Handle }.

Definition Listener_new : Listener := mkListener false HOpen.

(** What [uv_udp_bind], [uv_udp_set_membership] and [uv_udp_recv_start] say: [Some] error, or done. *)
Record ListenResults := mkListenResults {
  udp_bind : option string;
  join_group : option string;
  recv_start : option string
}.

Definition listener_start (r : ListenResults) : M Listener unit :=
  let! l := get in
  if ls_is_running l then ret tt
  else if negb (bool_decide (ls_udp l = HOpen)) then undef
  else
    do! uv_try (udp_bind r) "UDP bind error: " in
    do! uv_try (join_group r) "Multicast join error: " in
    do! uv_try (recv_start r) "UDP recv start error: " in
    put (mkListener true (ls_udp l)).

Definition listener_stop (l : Listener) : Listener :=
  if negb (ls_is_running l) then l else mkListener false (close_if_open (ls_udp l)).

(** What an accepted announcement says, before the table stamps it. *)
Definition announced (now : Z) (a : Announcement) (fb_node_id : list byte) : PeerInfo :=
  mkInfo fb_node_id (default "" (ann_hostname a)) (default "" (ann_listen_address a))
    (ann_free_ram_bytes a) (ann_free_vram_bytes a) (ann_memory_port a) (ann_gpu_port a) now ACTIVE.

(** [on_recv]: [nread] bytes at the front of [buf]. *)
Definition on_recv (now nread : Z) (buf : list byte) (t : PeerTable) : PeerTable :=
  if nread <=? 0 then t
  else
    match verify_announcement (slice 0 nread buf) with
    | None => t
    | Some ann =>
        if negb (check_protocol_version (ann_protocol_version ann)) then t
        else
          match ann_node_id ann with
          | None => t
          | Some i => if negb (zlen i =? 16) then t else table_update now (announced now ann i) t
          end
    end.

(** ** The probe of memoryd's pool *)

Record PoolProbe := mkProbe {
  socket_name_ : string;
  poll_interval_ms_ : Z;
  probe_running_ : bool;
  available_ : bool;
  free_bytes_ : Z;
  total_bytes_ : Z
}.

Definition PoolProbe_new (socket_name : string) (poll_interval_ms : Z) : PoolProbe :=
  mkProbe socket_name (if poll_interval_ms =? 0 then 1000 else poll_interval_ms) false false 0 0.

Definition probe_start (p : PoolProbe) : PoolProbe :=
  if bool_decide (socket_name_ p = ""%string) || probe_running_ p then p
  else mkProbe (socket_name_ p) (poll_interval_ms_ p) true (available_ p) (free_bytes_ p) (total_bytes_ p).

Definition probe_stop (p : PoolProbe) : PoolProbe :=
  mkProbe (socket_name_ p) (poll_interval_ms_ p) false (available_ p) (free_bytes_ p) (total_bytes_ p).

(** The query [poll_once] sends. *)
Definition stats_query : list byte := control_request_buffer (mkControlRequest GET_MEMORY_STATS 0).

Definition set_available (b : bool) (free total : Z) (p : PoolProbe) : PoolProbe :=
  mkProbe (socket_name_ p) (poll_interval_ms_ p) (probe_running_ p) b free total.

(** [reply]: what [send_request] returned; [None]: it threw. *)
Definition poll_once (reply : option (list byte)) (p : PoolProbe) : bool * PoolProbe :=
  let unavailable := (false, set_available false (free_bytes_ p) (total_bytes_ p) p) in
  if bool_decide (socket_name_ p = ""%string) then (false, p)
  else
    match reply with
    | None => unavailable
    | Some resp_buf =>
        if zlen resp_buf <? 4 then unavailable
        else
          match verify_control_response resp_buf with
          | None => unavailable
          | Some resp =>
              if negb (cr_success resp) then unavailable
              else (true, set_available true (cr_pool_free_bytes resp) (cr_pool_total_bytes resp) p)
          end
    end.

(** [run]: one poll per interval, for the replies that come before [stop]. *)
Fixpoint probe_run (replies : list (option (list byte))) (p : PoolProbe) : PoolProbe :=
  match replies with
  | [] => p
  | reply :: replies => if probe_running_ p then probe_run replies (snd (poll_once reply p)) else p
  end.

(** ** The daemon *)

Record DiscoveryDaemon := mkDiscovery {
  peer_table_ : PeerTable;
  announcer_ : Announcer;
  listener_ : Listener;
  pool_probe_ : PoolProbe;
  sig_handler_ : SignalHandler;
  stop_async_ : Handle;
  stop_sent : bool;
  tick_timer : option Handle;
  dd_is_running : bool;
  pool_joined_ : bool;
  dd_free_ram : Z;
  dd_free_vram : Z
}.

Definition set_peers (t : PeerTable) d := mkDiscovery t (announcer_ d) (listener_ d) (pool_probe_ d) (sig_handler_ d)
  (stop_async_ d) (stop_sent d) (tick_timer d) (dd_is_running d) (pool_joined_ d) (dd_free_ram d) (dd_free_vram d).
Definition set_announcer (a : Announcer) d := mkDiscovery (peer_table_ d) a (listener_ d) (pool_probe_ d) (sig_handler_ d)
  (stop_async_ d) (stop_sent d) (tick_timer d) (dd_is_running d) (pool_joined_ d) (dd_free_ram d) (dd_free_vram d).
Definition set_listener (l : Listener) d := mkDiscovery (peer_table_ d) (announcer_ d) l (pool_probe_ d) (sig_handler_ d)
  (stop_async_ d) (stop_sent d) (tick_timer d) (dd_is_running d) (pool_joined_ d) (dd_free_ram d) (dd_free_vram d).
Definition set_probe (p : PoolProbe) d := mkDiscovery (peer_table_ d) (announcer_ d) (listener_ d) p (sig_handler_ d)
  (stop_async_ d) (stop_sent d) (tick_timer d) (dd_is_running d) (pool_joined_ d) (dd_free_ram d) (dd_free_vram d).
Definition set_signals (s : SignalHandler) d := mkDiscovery (peer_table_ d) (announcer_ d) (listener_ d) (pool_probe_ d) s
  (stop_async_ d) (stop_sent d) (tick_timer d) (dd_is_running d) (pool_joined_ d) (dd_free_ram d) (dd_free_vram d).
Definition set_stop (h : Handle) (sent : bool) d := mkDiscovery (peer_table_ d) (announcer_ d) (listener_ d) (pool_probe_ d)
  (sig_handler_ d) h sent (tick_timer d) (dd_is_running d) (pool_joined_ d) (dd_free_ram d) (dd_free_vram d).
Definition set_run (timer : option Handle) (running : bool) d := mkDiscovery (peer_table_ d) (announcer_ d) (listener_ d)
  (pool_probe_ d) (sig_handler_ d) (stop_async_ d) (stop_sent d) timer running (pool_joined_ d) (dd_free_ram d) (dd_free_vram d).
Definition set_joined (joined : bool) d := mkDiscovery (peer_table_ d) (announcer_ d) (listener_ d) (pool_probe_ d)
  (sig_handler_ d) (stop_async_ d) (stop_sent d) (tick_timer d) (dd_is_running d) joined (dd_free_ram d) (dd_free_vram d).
Definition set_free (ram vram : Z) d := mkDiscovery (peer_table_ d) (announcer_ d) (listener_ d) (pool_probe_ d)
  (sig_handler_ d) (stop_async_ d) (stop_sent d) (tick_timer d) (dd_is_running d) (pool_joined_ d) ram vram.

(** A port that does not fit 16 bits is announced as 0. *)
Definition to_port (value : Z) : Z := if (value <? 0) || (65535 <? value) then 0 else value.

(** The constructor; [random] are the bytes of the node id and [hostname] what [uv_os_gethostname] says. *)
Definition DiscoveryDaemon_new (config : Config) (random : list byte) (hostname : option string) : DiscoveryDaemon :=
  let local_id := generate_uuid random in
  let local_hostname := default "localhost"%string hostname in
  let str key dflt := config_get value_string "discovery" key dflt config in
  let int key dflt := config_get value_int "discovery" key dflt config in
  let listen_address := str "listen_address"%string "0.0.0.0"%string in
  let memory_port := to_port (int "memory_port"%string 9200) in
  let gpu_port := to_port (int "gpu_port"%string 9300) in
  let interval_ms := int "announce_interval_ms"%string 1000 in
  let mem_ctl := str "memory_control_socket"%string ""%string in
  mkDiscovery (set_ttl_seconds (int "peer_ttl_seconds"%string 10) PeerTable_new)
    (Announcer_new local_id local_hostname listen_address memory_port gpu_port) Listener_new
    (PoolProbe_new mem_ctl (u32 interval_ms)) SignalHandler_new HOpen false None false true 0 0.

(** [monitor]: the free bytes the operating system reports; [None]: there is no monitor. *)
Definition current_free_ram (monitor : option Z) (d : DiscoveryDaemon) : Z :=
  if available_ (pool_probe_ d) then free_bytes_ (pool_probe_ d)
  else match monitor with
       | Some free => free
       | None => 0
       end.

Definition update_announcer_state (d : DiscoveryDaemon) : DiscoveryDaemon :=
  set_announcer (set_pool_joined (pool_joined_ d) (announcer_ d)) d.

Definition join_pool (d : DiscoveryDaemon) : DiscoveryDaemon :=
  if negb (pool_joined_ d) then update_announcer_state (set_joined true d) else d.

Definition leave_pool (d : DiscoveryDaemon) : DiscoveryDaemon :=
  if pool_joined_ d then update_announcer_state (set_joined false d) else d.

(** [stop]: wakes the loop. *)
Definition discovery_stop (d : DiscoveryDaemon) : DiscoveryDaemon :=
  if negb (dd_is_running d) then d else set_stop (stop_async_ d) true d.

(** [run] up to [uv_run]; [poll] is the reply to the first query. *)
Definition run_begin (bound : bool) (poll : option (list byte)) (listen : ListenResults) : M DiscoveryDaemon unit :=
  let! d := get in
  if dd_is_running d then ret tt
  else
    do! zoom announcer_ set_announcer (announcer_start bound) in
    do! (fun d => (Ret tt, update_announcer_state d)) in
    do! (fun d => (Ret tt, set_probe (probe_start (snd (poll_once poll (pool_probe_ d)))) d)) in
    do! zoom listener_ set_listener (listener_start listen) in
    fun d => (Ret tt, set_run (Some HOpen) true d).

(** The timer of [run]. *)
Definition on_tick (now : Z) (monitor : option Z) : M DiscoveryDaemon unit :=
  do! zoom peer_table_ set_peers (tick now) in
  let! d := get in
  let free_ram := current_free_ram monitor d in
  put (set_announcer (update_metrics free_ram 0 (announcer_ d)) (set_free free_ram 0 d)).

(** The callback of [stop_async_]; the control socket's [stop] is empty. *)
Definition on_stop_async (d : DiscoveryDaemon) : DiscoveryDaemon :=
  if dd_is_running d then
    set_run (tick_timer d) false
      (set_listener (listener_stop (listener_ d)) (set_announcer (announcer_stop (announcer_ d)) d))
  else d.

(** [run] after [uv_run]. *)
Definition run_end (d : DiscoveryDaemon) : DiscoveryDaemon := set_run (close_if_open <$> tick_timer d) false d.

(** [uv_run] at the end: every close callback. *)
Definition drain (d : DiscoveryDaemon) : DiscoveryDaemon :=
  let a := announcer_ d in
  let s := sig_handler_ d in
  set_announcer (set_announcing (an_is_running a) (run_close (udp_handle_ a)) (run_close (timer_handle_ a)) a)
    (set_listener (mkListener (ls_is_running (listener_ d)) (run_close (ls_udp (listener_ d))))
      (set_signals (mkSignals (run_close (sigterm_handle_ s)) (run_close (sigint_handle_ s)) (closed_ s))
        (set_stop (run_close (stop_async_ d)) (stop_sent d) (set_run (run_close <$> tick_timer d) (dd_is_running d) d)))).

(** The destructor.  The handles of the listener and the announcer are members of
    the objects [reset] deletes, so they must have been closed by then. *)
Definition DiscoveryDaemon_delete : M DiscoveryDaemon unit :=
  do! (fun d => (Ret tt, set_probe (probe_stop (pool_probe_ d)) (discovery_stop d))) in
  do! (fun d => (Ret tt, set_announcer (announcer_stop (announcer_ d)) (set_listener (listener_stop (listener_ d)) d))) in
  do! (fun d => (Ret tt, set_stop (close_if_open (stop_async_ d)) (stop_sent d) d)) in
  do! zoom sig_handler_ set_signals SignalHandler_delete in
  do! (fun d => (Ret tt, drain d)) in
  let! d := get in
  if decide (ls_udp (listener_ d) = HClosed /\ udp_handle_ (announcer_ d) = HClosed /\ timer_handle_ (announcer_ d) = HClosed)
  then ret tt else undef.

(** ** The control socket *)

Definition control_peer (now : Z) (p : PeerInfo) : ControlPeer :=
  mkControlPeer (Some (id p)) (Some (hostname p)) (Some (address p)) (free_ram_bytes p) (free_vram_bytes p)
    (memory_port p) (gpu_port p) (bool_decide (state p = ACTIVE)) (u64 ((now - last_seen p) ÷ 1000000)).

(** The [switch] of [handle_request]: the peers, [success] and [message]; [has_daemon]: [daemon_] is not null. *)
Definition control_switch (has_daemon : bool) (now code : Z) (d : DiscoveryDaemon) :
    (list ControlPeer * bool * string) * DiscoveryDaemon :=
  let unless_null (msg : string) d' := if has_daemon then (([], true, msg), d') else (([], false, "Daemon not available"%string), d) in
  if code =? LIST_PEERS then ((control_peer now <$> table_get_peers (peer_table_ d), true, "OK"%string), d)
  else if code =? JOIN_POOL then unless_null "Joined pool"%string (join_pool d)
  else if code =? LEAVE_POOL then unless_null "Left pool"%string (leave_pool d)
  else if code =? GET_LOCAL_STATUS then unless_null "OK"%string d
  else (([], false, "Unsupported command"%string), d).

Definition local_status (d : DiscoveryDaemon) : LocalStatus :=
  mkLocalStatus (Some (an_local_id (announcer_ d))) (Some (an_local_hostname (announcer_ d))) (dd_free_ram d) (dd_free_vram d)
    (pool_joined_ d) (u32 (active_count (peer_table_ d))).

(** [handle_request]; [None]: the response is left empty. *)
Definition discovery_handle_request (has_daemon : bool) (now : Z) (data : list byte) (d : DiscoveryDaemon) :
    option ControlResponse * DiscoveryDaemon :=
  if zlen data <? 4 then (None, d)
  else
    match verify_control_request data with
    | None => (None, d)
    | Some req =>
        let '((peers, success, message), d') := control_switch has_daemon now (command req) d in
        (Some (mkControlResponse (control_request_id req) success (Some message)
           (if command req =? LIST_PEERS then Some peers else None)
           (if (command req =? GET_LOCAL_STATUS) && has_daemon then local_status d' else no_status) 0 0 0), d')
    end.

(** ** Executions *)

(** The callbacks of the loop, the poll thread and the control socket. *)
Inductive discovery_event :=
| DvTick (now : Z) (monitor : option Z)
| DvAnnounce (ts : Z)
| DvRecv (now nread : Z) (buf : list byte)
| DvPoll (reply : option (list byte))
| DvControl (now : Z) (data : list byte)
| DvSignal
| DvStop.

Definition discovery_exec (ev : discovery_event) : M DiscoveryDaemon unit :=
  match ev with
  | DvTick now monitor => on_tick now monitor
  | DvAnnounce _ => ret tt
  | DvRecv now nread buf => fun d => (Ret tt, set_peers (on_recv now nread buf (peer_table_ d)) d)
  | DvPoll reply => fun d => (Ret tt, set_probe (snd (poll_once reply (pool_probe_ d))) d)
  | DvControl now data => fun d => (Ret tt, snd (discovery_handle_request true now data d))
  | DvSignal => on_signal (fun d => (Ret tt, discovery_stop d)) (fun d => d)
  | DvStop => fun d => (Ret tt, on_stop_async d)
  end.

Fixpoint discovery_run (evs : list discovery_event) : M DiscoveryDaemon unit :=
  match evs with
  | [] => ret tt
  | ev :: evs => do! discovery_exec ev in discovery_run evs
  end.

(** The memory monitor reports a [uint64_t]. *)
Definition event_ok (ev : discovery_event) : Prop :=
  match ev with DvTick _ (Some free) => is_u64 free | _ => True end.

(** *** What every callback keeps *)

Definition peer_typed (p : PeerInfo) : Prop :=
  is_u64 (free_ram_bytes p) /\ is_u64 (free_vram_bytes p) /\ is_u16 (memory_port p) /\ is_u16 (gpu_port p).

Definition table_typed (t : PeerTable) : Prop := map_Forall (fun _ p => peer_typed p) (peers_ t).

(** A handle of an object whose [stop] closes it. *)
Definition stoppable (running : bool) (h : Handle) : Prop := h = if running then HOpen else HClosing.

Record discovery_ok (d : DiscoveryDaemon) : Prop := {
  do_table : table_typed (peer_table_ d);
  do_ttl : fits_int (ttl_seconds_ (peer_table_ d) * 3) = true;
  do_free : is_u64 (dd_free_ram d) /\ is_u64 (dd_free_vram d);
  do_probe : is_u64 (free_bytes_ (pool_probe_ d));
  do_metrics : is_u64 (an_free_ram (announcer_ d)) /\ is_u64 (an_free_vram (announcer_ d));
  do_ports : is_u16 (an_memory_port (announcer_ d)) /\ is_u16 (an_gpu_port (announcer_ d));
  do_joined : an_pool_joined (announcer_ d) = pool_joined_ d;
  do_udp : stoppable (an_is_running (announcer_ d)) (udp_handle_ (announcer_ d));
  do_timer : stoppable (an_is_running (announcer_ d)) (timer_handle_ (announcer_ d));
  do_listener : stoppable (ls_is_running (listener_ d)) (ls_udp (listener_ d));
  do_stop : stop_async_ d = HOpen;
  do_signals : sig_handler_ d = SignalHandler_new;
  do_tick : tick_timer d = Some HOpen
}.

Lemma table_typed_update now info t : peer_typed info -> table_typed t -> table_typed (table_update now info t).
Proof. intros Hp Ht. apply map_Forall_insert_2; done. Qed.

Lemma tick_peer_typed ttl now p q : tick_peer ttl now p = Some q -> peer_typed p -> peer_typed q.
Proof. unfold tick_peer. intros H Hp. destruct (_ <? _); [done|]. destruct (_ <? _); by injection H as <-. Qed.

Lemma tick_spec now t :
  fits_int (ttl_seconds_ t * 3) = true ->
  exists t', tick now t = (Ret tt, t') /\ ttl_seconds_ t' = ttl_seconds_ t /\
    peers_ t' = omap (tick_peer (ttl_seconds_ t) now) (peers_ t).
Proof.
  intros Hf. unfold tick. rewrite bind_get, Hf. cbn [negb]. case_decide as He; [|by eexists].
  exists t. split_and!; [done..|]. by rewrite He, omap_empty.
Qed.

Lemma on_recv_typed now nread buf t : table_typed t -> table_typed (on_recv now nread buf t).
Proof.
  intros Ht. unfold on_recv. destruct (_ <=? _); [done|]. destruct (verify_announcement _) as [a|] eqn:Ha; [|done].
  destruct (negb _); [done|]. destruct (ann_node_id a) as [i|]; [|done]. destruct (negb _); [done|].
  apply table_typed_update; [|done]. apply verified_announcement_ok in Ha as (_ & ? & ? & _ & ? & ?). done.
Qed.

Lemma on_recv_ttl now nread buf t : ttl_seconds_ (on_recv now nread buf t) = ttl_seconds_ t.
Proof.
  unfold on_recv. destruct (_ <=? _); [done|]. destruct (verify_announcement _) as [a|]; [|done].
  destruct (negb _); [done|]. destruct (ann_node_id a) as [i|]; [|done]. by destruct (negb _).
Qed.

Lemma poll_once_typed reply p : is_u64 (free_bytes_ p) -> is_u64 (free_bytes_ (snd (poll_once reply p))).
Proof.
  intros Hp. unfold poll_once. case_bool_decide; [done|]. destruct reply as [b|]; [|done]. destruct (_ <? _); [done|].
  destruct (verify_control_response b) as [r|] eqn:Hr; [|done]. destruct (negb _); [done|].
  by apply verified_control_response_ok in Hr as (_ & _ & _ & _ & _ & _ & _ & ?).
Qed.

Lemma to_port_u16 v : is_u16 (to_port v).
Proof. unfold to_port, is_u16. destruct (Z.ltb_spec v 0), (Z.ltb_spec 65535 v); cbn; lia. Qed.

(** [run] begins in a good state, if the sockets could be set up. *)
Lemma run_begin_ok config random host poll :
  fits_int (config_get value_int "discovery" "peer_ttl_seconds" 10 config * 3) = true ->
  exists d, run_begin true poll (mkListenResults None None None) (DiscoveryDaemon_new config random host) = (Ret tt, d) /\
    discovery_ok d.
Proof.
  intros Hf. eexists. split; [reflexivity|]. split; cbn -[is_u64 is_u16]; try done; [|by split; apply to_port_u16].
  unfold probe_start. destruct (_ || _); cbn -[is_u64]; by apply poll_once_typed.
Qed.

Lemma join_leave_ok d : discovery_ok d -> discovery_ok (join_pool d) /\ discovery_ok (leave_pool d).
Proof.
  intros Hd. unfold join_pool, leave_pool. destruct (pool_joined_ d); split; try exact Hd; destruct Hd; by split.
Qed.

Lemma control_switch_ok b now code d : discovery_ok d -> discovery_ok (snd (control_switch b now code d)).
Proof.
  intros Hd. pose proof (join_leave_ok d Hd) as [Hj Hl]. unfold control_switch.
  destruct b; repeat (case_match; try done).
Qed.

Lemma discovery_exec_ok ev d :
  event_ok ev -> discovery_ok d -> exists d', discovery_exec ev d = (Ret tt, d') /\ discovery_ok d'.
Proof.
  intros He Hd. destruct ev as [now monitor|ts|now nread buf|reply|now data| |]; cbn [discovery_exec].
  - destruct (tick_spec now (peer_table_ d) (do_ttl _ Hd)) as (t & Ht & Httl & Hp).
    unfold on_tick. eexists. split.
    + erewrite bind_ret by (apply zoom_ret; exact Ht). reflexivity.
    + assert (Hf : is_u64 (current_free_ram monitor (set_peers t d))).
      { unfold current_free_ram. cbn. destruct (available_ _); [apply Hd|]. destruct monitor; [done|by split]. }
      destruct Hd. split; cbn; try done; [|congruence].
      intros i p. rewrite Hp, lookup_omap. intros (q & Hq & Htp)%bind_Some.
      apply (tick_peer_typed _ _ _ _ Htp). by apply (do_table0 i).
  - by exists d.
  - eexists. split; [done|]. destruct Hd. split; cbn; try done; [by apply on_recv_typed|by rewrite on_recv_ttl].
  - eexists. split; [done|]. destruct Hd. split; cbn; try done. by apply poll_once_typed.
  - eexists. split; [done|]. unfold discovery_handle_request. destruct (_ <? _); [done|].
    destruct (verify_control_request data) as [req|]; [|done].
    pose proof (control_switch_ok true now (command req) d Hd) as Hs.
    destruct (control_switch true now (command req) d) as [[[? ?] ?] d']. done.
  - unfold on_signal, bind, discovery_stop. destruct (negb _); eexists; (split; [done|]); [done|]. destruct Hd. by split.
  - eexists. split; [done|]. unfold on_stop_async. destruct (dd_is_running d); [|done].
    unfold announcer_stop, listener_stop, close_if_open.
    destruct Hd as [? ? ? ? ? ? ? Hu Ht Hl ? ? ?]. unfold stoppable in *.
    destruct (an_is_running (announcer_ d)) eqn:Ea, (ls_is_running (listener_ d)) eqn:El;
      split; cbn; try done; unfold stoppable; rewrite ?Ea, ?El, ?Hu, ?Ht, ?Hl; done.
Qed.

Lemma discovery_run_ok evs d :
  Forall event_ok evs -> discovery_ok d -> exists d', discovery_run evs d = (Ret tt, d') /\ discovery_ok d'.
Proof.
  intros He. revert d. induction He as [|ev evs He _ IH]; intros d Hd; cbn [discovery_run]; [by exists d|].
  destruct (discovery_exec_ok ev d He Hd) as (d1 & H1 & Hd1). rewrite (bind_ret _ _ _ _ _ H1). by apply IH.
Qed.

(** A handle is closed by [stop] and the drain, whether or not its owner runs. *)
Lemma stoppable_closed running h :
  stoppable running h -> run_close (if negb running then h else close_if_open h) = HClosed.
Proof. unfold stoppable. intros ->. by destruct running. Qed.

Lemma delete_closes d :
  discovery_ok d -> exists d', DiscoveryDaemon_delete (run_end d) = (Ret tt, d') /\
    ls_udp (listener_ d') = HClosed /\ udp_handle_ (announcer_ d') = HClosed /\ timer_handle_ (announcer_ d') = HClosed /\
    stop_async_ d' = HClosed /\ tick_timer d' = Some HClosed /\ sig_handler_ d' = mkSignals HClosed HClosed true.
Proof.
  intros [_ _ _ _ _ _ _ Hu Ht Hl Hst Hsg Hti].
  set (d1 := set_probe (probe_stop (pool_probe_ d)) (run_end d)).
  set (d2 := set_announcer (announcer_stop (announcer_ d1)) (set_listener (listener_stop (listener_ d1)) d1)).
  set (d3 := set_stop (close_if_open (stop_async_ d2)) (stop_sent d2) d2).
  set (d4 := drain (set_signals (mkSignals HClosing HClosing true) d3)).
  assert (H1 : ls_udp (listener_ d4) = HClosed).
  { cbn. rewrite <- (stoppable_closed _ _ Hl). unfold listener_stop. by destruct (ls_is_running _). }
  assert (H2 : udp_handle_ (announcer_ d4) = HClosed).
  { cbn. rewrite <- (stoppable_closed _ _ Hu). unfold announcer_stop. by destruct (an_is_running _). }
  assert (H3 : timer_handle_ (announcer_ d4) = HClosed).
  { cbn. rewrite <- (stoppable_closed _ _ Ht). unfold announcer_stop. by destruct (an_is_running _). }
  exists d4. split_and!; try done.
  - unfold DiscoveryDaemon_delete. erewrite bind_ret by reflexivity. erewrite bind_ret by reflexivity.
    erewrite bind_ret by reflexivity. fold d1 d2 d3.
    erewrite (bind_ret (zoom _ _ _)); [|apply zoom_ret; cbn; rewrite Hsg; reflexivity].
    erewrite bind_ret by reflexivity. fold d4. rewrite bind_get. by rewrite decide_True by done.
  - cbn. by rewrite Hst.
  - cbn. by rewrite Hti.
Qed.

(** *** The replies and datagrams have the types of the schema *)

Lemma table_get_peers_typed t : table_typed t -> Forall peer_typed (table_get_peers t).
Proof.
  intros Ht. apply Forall_forall. intros p (kv & -> & Hin)%list_elem_of_fmap. destruct kv as [i p].
  apply elem_of_map_iter in Hin. by apply (Ht i).
Qed.

Lemma announcement_typed d ts : discovery_ok d -> announcement_ok (announcement ts (announcer_ d)).
Proof.
  intros [_ _ _ _ [Hr Hv] [Hm Hg] _ _ _ _ _ _ _]. unfold announcement. split_and!; cbn -[is_u64 is_u16 u64]; try done.
  - by destruct (an_pool_joined _).
  - by destruct (an_pool_joined _).
  - apply u64_range.
Qed.

Lemma control_reply_typed now data r d d' :
  discovery_ok d -> discovery_handle_request true now data d = (Some r, d') -> control_response_ok r.
Proof.
  unfold discovery_handle_request. intros Hd H. destruct (_ <? _); [done|].
  destruct (verify_control_request data) as [req|] eqn:Hreq; [|done].
  pose proof (control_switch_ok true now (command req) d Hd) as Hs.
  destruct (control_switch true now (command req) d) as [[[ps sc] msg] d1] eqn:Hsw.
  injection H as <- <-. cbn [snd] in Hs.
  assert (Hps : Forall control_peer_ok ps).
  { unfold control_switch in Hsw. destruct (command req =? LIST_PEERS).
    - injection Hsw as <- _ _ _. apply Forall_fmap. eapply Forall_impl; [apply table_get_peers_typed, Hd|].
      intros p (? & ? & ? & ?). unfold control_peer_ok. cbn -[is_u64 is_u16 u64]. split_and!; try done. apply u64_range.
    - repeat (case_match; simplify_eq; try constructor). }
  assert (Hst : is_u64 (st_free_ram (local_status d1)) /\ is_u64 (st_free_vram (local_status d1)) /\
    0 <= st_peer_count (local_status d1) < U32).
  { cbn -[is_u64 u32]. split_and!; [apply Hs..|apply u32_range|apply u32_range]. }
  unfold control_response_ok. cbn -[is_u64 control_peer_ok U32 local_status].
  split_and!; try done; try (by apply verified_control_request_ok in Hreq).
  - by destruct (_ =? _).
  - destruct (_ && _); [apply Hst|done].
  - destruct (_ && _); [apply Hst|done].
  - destruct (_ && _); [apply Hst|done].
  - destruct (_ && _); [apply Hst|done].
Qed.
(** An announcement of a good node is entered into the table of another. *)
Lemma on_recv_announcement now ts a t :
  announcement_ok (announcement ts a) -> zlen (an_local_id a) = 16 ->
  zlen (on_timer ts a) <= FLATBUFFERS_MAX_BUFFER_SIZE ->
  on_recv now (zlen (on_timer ts a)) (on_timer ts a) t =
    table_update now (announced now (announcement ts a) (an_local_id a)) t.
Proof.
  intros Hok Hid Hs. unfold on_recv, on_timer in *. pose proof (announcement_nonempty (announcement ts a)).
  rewrite (proj2 (Z.leb_gt _ _)) by lia. rewrite slice_full, verify_announcement_buffer by done.
  cbn -[zlen]. by rewrite Hid.
Qed.

(** ** What a node announces, from its history *)

(** What an answer of memoryd to the probe on [sock] tells: its free bytes. *)
Definition pool_answer (sock : string) (reply : option (list byte)) : option Z :=
  if bool_decide (sock = ""%string) then None
  else
    match reply with
    | Some b =>
        if zlen b <? 4 then None
        else
          match verify_control_response b with
          | Some r => if cr_success r then Some (cr_pool_free_bytes r) else None
          | None => None
          end
    | None => None
    end.

(** The orders of the user: join or leave the pool. *)
Definition pool_order (ev : discovery_event) : option bool :=
  match ev with
  | DvControl _ data =>
      if zlen data <? 4 then None
      else
        match verify_control_request data with
        | Some r => if command r =? JOIN_POOL then Some true else if command r =? LEAVE_POOL then Some false else None
        | None => None
        end
  | _ => None
  end.

(** A node is in the pool unless the last order was to leave it. *)
Definition in_pool (evs : list discovery_event) : bool := default true (last (omap pool_order evs)).

(** The figure of the last tick ([tick], 0 before the first): what memoryd last
    answered ([answer]), or what the system said at that tick if it had no answer. *)
Fixpoint last_sample (sock : string) (answer : option Z) (tick : Z) (evs : list discovery_event) : Z :=
  match evs with
  | [] => tick
  | DvPoll reply :: evs => last_sample sock (pool_answer sock reply) tick evs
  | DvTick _ monitor :: evs => last_sample sock answer (default (default 0 monitor) answer) evs
  | _ :: evs => last_sample sock answer tick evs
  end.

(** What the probe knows. *)
Definition probe_answer (d : DiscoveryDaemon) : option Z :=
  if available_ (pool_probe_ d) then Some (free_bytes_ (pool_probe_ d)) else None.

(** The members that nothing changes; the free video memory is a mock that says 0. *)
Definition node_identity (d : DiscoveryDaemon) :=
  (an_local_id (announcer_ d), an_local_hostname (announcer_ d), an_listen_address (announcer_ d),
   an_memory_port (announcer_ d), an_gpu_port (announcer_ d), an_free_vram (announcer_ d), socket_name_ (pool_probe_ d)).

Definition probe_named (p : PoolProbe) : Prop := socket_name_ p = ""%string -> available_ p = false.

Lemma poll_once_answer reply p : probe_named p ->
  let p' := snd (poll_once reply p) in
  (if available_ p' then Some (free_bytes_ p') else None) = pool_answer (socket_name_ p) reply /\
  socket_name_ p' = socket_name_ p /\ probe_named p'.
Proof.
  intros Hp. cbv zeta. unfold poll_once, pool_answer, probe_named in *. case_bool_decide as He; [cbn; by rewrite Hp|].
  destruct reply as [b|]; [|done]. destruct (_ <? _); [done|].
  destruct (verify_control_response b) as [r|]; [|done]. by destruct (cr_success r).
Qed.

Lemma control_joined now data d :
  let d' := snd (discovery_handle_request true now data d) in
  node_identity d' = node_identity d /\ pool_joined_ d' = default (pool_joined_ d) (pool_order (DvControl now data)) /\
  pool_probe_ d' = pool_probe_ d /\ an_free_ram (announcer_ d') = an_free_ram (announcer_ d).
Proof.
  cbv zeta. unfold discovery_handle_request, pool_order. destruct (_ <? _); [done|].
  destruct (verify_control_request data) as [r|]; [|done]. unfold control_switch, LIST_PEERS, JOIN_POOL, LEAVE_POOL, GET_LOCAL_STATUS.
  destruct (Z.eqb_spec (command r) 0) as [->|]; [done|]. destruct (command r =? 2).
  - cbn. unfold join_pool. by destruct (pool_joined_ d) eqn:E.
  - destruct (command r =? 3); [|by destruct (command r =? 1)]. cbn. unfold leave_pool. by destruct (pool_joined_ d) eqn:E.
Qed.

(** One callback, seen from the history. *)
Lemma discovery_exec_history ev d d' :
  discovery_ok d -> probe_named (pool_probe_ d) -> an_free_vram (announcer_ d) = 0 -> discovery_exec ev d = (Ret tt, d') ->
  let sock := socket_name_ (pool_probe_ d) in
  node_identity d' = node_identity d /\ probe_named (pool_probe_ d') /\
  pool_joined_ d' = default (pool_joined_ d) (pool_order ev) /\
  forall evs, last_sample sock (probe_answer d) (an_free_ram (announcer_ d)) (ev :: evs) =
              last_sample sock (probe_answer d') (an_free_ram (announcer_ d')) evs.
Proof.
  intros Hd Hp Hv Hx. cbv zeta. destruct ev as [now monitor|ts|now nread buf|reply|now data| |]; cbn [discovery_exec] in Hx.
  - destruct (tick_spec now (peer_table_ d) (do_ttl _ Hd)) as (t & Ht & _). unfold on_tick in Hx.
    erewrite bind_ret in Hx by (apply zoom_ret; exact Ht). rewrite bind_get in Hx. injection Hx as <-.
    split_and!; [unfold node_identity; cbn; by rewrite Hv|done..|].
    intros evs. cbn [last_sample]. unfold probe_answer, current_free_ram. cbn. by destruct (available_ _), monitor.
  - by injection Hx as <-.
  - by injection Hx as <-.
  - injection Hx as <-. destruct (poll_once_answer reply _ Hp) as (Ha & Hs & Hn).
    split_and!; [|exact Hn|done|].
    + unfold node_identity. cbn [set_probe announcer_ pool_probe_]. by rewrite Hs.
    + intros evs. cbn [last_sample]. unfold probe_answer. cbn [set_probe pool_probe_ announcer_]. by rewrite Ha.
  - injection Hx as <-. destruct (control_joined now data d) as (Hi & Hj & Hpr & Hf). rewrite Hpr.
    split_and!; try done. intros evs. cbn [last_sample]. unfold probe_answer. by rewrite Hpr, Hf.
  - unfold on_signal, bind, discovery_stop in Hx. destruct (negb _); by injection Hx as <-.
  - injection Hx as <-. unfold on_stop_async. destruct (dd_is_running d); [|done].
    unfold announcer_stop. by destruct (an_is_running (announcer_ d)) eqn:E.
Qed.

Lemma discovery_run_history evs : forall d d',
  Forall event_ok evs -> discovery_ok d -> probe_named (pool_probe_ d) -> an_free_vram (announcer_ d) = 0 ->
  discovery_run evs d = (Ret tt, d') ->
  node_identity d' = node_identity d /\ pool_joined_ d' = default (pool_joined_ d) (last (omap pool_order evs)) /\
  an_free_ram (announcer_ d') = last_sample (socket_name_ (pool_probe_ d)) (probe_answer d) (an_free_ram (announcer_ d)) evs.
Proof.
  induction evs as [|ev evs IH]; intros d d' He Hd Hp Hv Hx; cbn [discovery_run] in Hx; [by injection Hx as <-|].
  apply Forall_cons in He as [He Hes]. destruct (discovery_exec_ok ev d He Hd) as (d1 & H1 & Hd1).
  rewrite (bind_ret _ _ _ _ _ H1) in Hx. destruct (discovery_exec_history ev d d1 Hd Hp Hv H1) as (Hi & Hp1 & Hj & Hs).
  assert (Hk : socket_name_ (pool_probe_ d1) = socket_name_ (pool_probe_ d) /\ an_free_vram (announcer_ d1) = 0).
  { injection Hi. intros -> ->. done. }
  destruct Hk as [Hk Hv1]. destruct (IH d1 d' Hes Hd1 Hp1 Hv1 Hx) as (Hi' & Hj' & Hf). rewrite Hs, Hi', Hi, Hj', Hj, Hf, Hk. split_and!; [done| |done]. cbn [omap list_omap]. destruct (pool_order ev) as [b|]; [|done].
  rewrite last_cons. by destruct (last _).
Qed.
End discovery.

(** Starting does not sample for the announcer. *)
Lemma run_begin_metrics {W : DiscoveryWire} bound poll listen d o d' :
  run_begin bound poll listen d = (o, d') -> an_free_ram (announcer_ d') = an_free_ram (announcer_ d).
Proof.
  unfold run_begin, announcer_start, listener_start, uv_try. munfold. intros H.
  repeat (case_match; simplify_eq/=; try done).
Qed.

(** The comment in [run] says the first announcement already carries the pool
    figure; the sample taken there reaches the announcer with the first tick, a
    second later.  Until then zero is announced. *)
Lemma first_announcement_empty (W : DiscoveryWire) config random host bound poll listen d ts :
  run_begin bound poll listen (DiscoveryDaemon_new config random host) = (Ret tt, d) ->
  ann_free_ram_bytes (announcement ts (announcer_ d)) = 0.
Proof.
  intros H. apply run_begin_metrics in H. unfold announcement. cbn [ann_free_ram_bytes]. rewrite H. by destruct (an_pool_joined _).
Qed.

(** ** A codec that satisfies the laws *)

Definition announcement_tuple (a : Announcement) :=
  (ann_protocol_version a, ann_node_id a, ann_hostname a, (ann_free_ram_bytes a, ann_free_vram_bytes a, ann_heartbeat_ts a,
   (ann_memory_port a, ann_gpu_port a, ann_listen_address a))).
Definition announcement_of_tuple '(v, i, h, (r, g, t, (m, p, l))) : Announcement := mkAnnouncement v i h r g t m p l.

Definition control_peer_tuple (p : ControlPeer) :=
  (cp_node_id p, cp_hostname p, cp_address p, (cp_free_ram_bytes p, cp_free_vram_bytes p, cp_memory_port p,
   (cp_gpu_port p, cp_active p, cp_last_seen_ms p))).
Definition control_peer_of_tuple '(i, h, a, (r, g, m, (p, st, l))) : ControlPeer := mkControlPeer i h a r g m p st l.

Definition control_response_tuple (r : ControlResponse) :=
  (cr_request_id r, cr_success r, cr_message r, option_map (map control_peer_tuple) (cr_peers r),
   (st_node_id (cr_local r), st_hostname (cr_local r), st_free_ram (cr_local r),
    (st_free_vram (cr_local r), st_pool_joined (cr_local r), st_peer_count (cr_local r),
     (cr_pool_total_bytes r, cr_pool_used_bytes r, cr_pool_free_bytes r)))).
Definition control_response_of_tuple '(i, s, m, ps, (n, h, r, (v, j, c, (t, u, f)))) : ControlResponse :=
  mkControlResponse i s m (option_map (map control_peer_of_tuple) ps) (mkLocalStatus n h r v j c) t u f.

Lemma control_response_tuple_inv r : control_response_of_tuple (control_response_tuple r) = r.
Proof.
  destruct r as [i s m ps [n h ra v j c] t u f]. unfold control_response_tuple. cbn. f_equal.
  destruct ps as [ps|]; [|done]. cbn. f_equal. induction ps as [|[] ps IH]; cbn; [done|by rewrite IH].
Qed.

Definition code_verify {A B} `{Countable B} (P : A -> Prop) `{forall a, Decision (P a)} (dec : B -> A) (b : list byte) : option A :=
  guard_ok P (dec <$> decode_table b).

Lemma code_verify_ok {A B} `{Countable B} (P : A -> Prop) `{forall a, Decision (P a)} (dec : B -> A) b a :
  code_verify P dec b = Some a -> P a.
Proof. unfold code_verify, guard_ok. destruct (dec <$> _); [|done]. case_decide; naive_solver. Qed.

Lemma code_verify_code {A B} `{Countable B} (P : A -> Prop) `{forall a, Decision (P a)} (dec : B -> A) (tuple : A -> B) a :
  dec (tuple a) = a -> P a -> code_verify P dec (size_prefixed (code_table (tuple a))) = Some a.
Proof.
  intros Hi Hp. unfold code_verify. rewrite decode_code_table. cbn [fmap option_fmap option_map guard_ok].
  rewrite Hi. by rewrite decide_True.
Qed.

Lemma size_prefixed_length l : 4 <= zlen (size_prefixed l).
Proof.
  unfold size_prefixed. rewrite zlen_app. unfold zlen at 1. rewrite length_le_bytes. pose proof (zlen_nonneg l). lia.
Qed.

Definition code_discovery_wire : DiscoveryWire.
Proof.
  refine {|
    announcement_buffer a := size_prefixed (code_table (announcement_tuple a));
    control_request_buffer r := size_prefixed (code_table (command r, control_request_id r));
    control_response_buffer r := size_prefixed (code_table (control_response_tuple r));
    verify_announcement := code_verify announcement_ok announcement_of_tuple;
    verify_control_request := code_verify (fun r => is_u64 (control_request_id r)) (fun '(c, i) => mkControlRequest c i);
    verify_control_response := code_verify control_response_ok control_response_of_tuple
  |}.
  - intros a. pose proof (size_prefixed_length (code_table (announcement_tuple a))). lia.
  - intros r. apply size_prefixed_length.
  - intros r. apply size_prefixed_length.
  - intros b a. apply code_verify_ok.
  - intros b r. apply (code_verify_ok (fun r => is_u64 (control_request_id r))).
  - intros b r. apply code_verify_ok.
  - intros a Ha _. apply (code_verify_code _ _ announcement_tuple); [by destruct a|done].
  - intros r _ Hi. apply (code_verify_code _ _ (fun r => (command r, control_request_id r))); [by destruct r|done].
  - intros r Hr _. apply (code_verify_code _ _ control_response_tuple); [apply control_response_tuple_inv|done].
Defined.

Definition listening : ListenResults := mkListenResults None None None.

(** What [run] starts from. *)
Lemma run_begin_history (W : DiscoveryWire) config random host poll d :
  run_begin true poll listening (DiscoveryDaemon_new config random host) = (Ret tt, d) ->
  let sock := config_get value_string "discovery" "memory_control_socket" ""%string config in
  node_identity d = (generate_uuid random, default "localhost"%string host,
    config_get value_string "discovery" "listen_address" "0.0.0.0"%string config,
    to_port (config_get value_int "discovery" "memory_port" 9200 config),
    to_port (config_get value_int "discovery" "gpu_port" 9300 config), 0, sock) /\
  probe_named (pool_probe_ d) /\ pool_joined_ d = true /\ probe_answer d = pool_answer sock poll /\
  an_free_ram (announcer_ d) = 0.
Proof.
  intros H. cbv zeta. injection H as <-. set (sock := config_get value_string "discovery" "memory_control_socket" _ config).
  destruct (poll_once_answer poll (PoolProbe_new sock (u32 (config_get value_int "discovery" "announce_interval_ms" 1000 config)))) as (Ha & Hs & Hn); [done|].
  unfold probe_answer, node_identity, probe_named, probe_start. cbn -[poll_once] in *. fold sock in Hs, Ha, Hn |- *.
  set (p := snd (poll_once _ _)) in *. fold sock. split; [|split; [|split; [done|split; [|done]]]]; destruct (_ || _); cbn; try done.
  all: f_equal; exact Hs.
Qed.

Lemma table_get_peers_lookup `{!MapIter node_id_t PeerInfo} t i p : peers_ t !! i = Some p -> p ∈ table_get_peers t.
Proof. intros H. apply list_elem_of_fmap. exists (i, p). split; [done|]. by apply elem_of_map_iter. Qed.

(** ** Properties *)

(** C36: Once [run] has set the sockets up, no sequence of callbacks leads to an
    error, and the daemon always shuts down cleanly: with or without its stop
    callback, the destructor closes every handle before the objects that hold
    them are deleted, none of them twice. *)
Theorem discovery_shuts_down (W : DiscoveryWire) `{!MapIter node_id_t PeerInfo} config random host poll evs :
  fits_int (config_get value_int "discovery" "peer_ttl_seconds" 10 config * 3) = true ->
  Forall event_ok evs ->
  exists d d', (do! run_begin true poll listening in discovery_run evs) (DiscoveryDaemon_new config random host) = (Ret tt, d) /\
    DiscoveryDaemon_delete (run_end d) = (Ret tt, d') /\
    ls_udp (listener_ d') = HClosed /\ udp_handle_ (announcer_ d') = HClosed /\ timer_handle_ (announcer_ d') = HClosed /\
    stop_async_ d' = HClosed /\ tick_timer d' = Some HClosed /\ sig_handler_ d' = mkSignals HClosed HClosed true.
Proof.
  intros Hf He. destruct (run_begin_ok config random host poll Hf) as (d0 & H0 & Hd0).
  destruct (discovery_run_ok evs d0 He Hd0) as (d & Hr & Hd). destruct (delete_closes d Hd) as (d' & Hdel & Hrest).
  exists d, d'. split; [|by split]. by rewrite (bind_ret _ _ _ _ _ H0).
Qed.

(** C37: What a daemon tells the others, from its history.  Its announcement, taken in
    by any node's listener, enters or replaces one peer and touches no other: under
    the daemon's own id, with its host name, the address and the ports of its
    configuration (0 for a port out of range), no video memory, and as free memory 0
    if the user's last order was to leave the pool, else the figure of its last tick (0 before the first):
    the free bytes memoryd last answered, or what the system reported when memoryd did
    not answer.  The node that took it in lists these very values to its clients. *)
Theorem announcement_tells_node (W : DiscoveryWire) `{!MapIter node_id_t PeerInfo} config random host poll evs d now ts later nb :
  fits_int (config_get value_int "discovery" "peer_ttl_seconds" 10 config * 3) = true ->
  zlen random = 16 -> Forall event_ok evs ->
  (do! run_begin true poll listening in discovery_run evs) (DiscoveryDaemon_new config random host) = (Ret tt, d) ->
  zlen (on_timer ts (announcer_ d)) <= FLATBUFFERS_MAX_BUFFER_SIZE ->
  let own := generate_uuid random in
  let name := default "localhost"%string host in
  let addr := config_get value_string "discovery" "listen_address" "0.0.0.0"%string config in
  let port key dflt := to_port (config_get value_int "discovery" key dflt config) in
  let sock := config_get value_string "discovery" "memory_control_socket" ""%string config in
  let free := if in_pool evs then last_sample sock (pool_answer sock poll) 0 evs else 0 in
  let dgram := on_timer ts (announcer_ d) in
  let t := on_recv now (zlen dgram) dgram (peer_table_ nb) in
  peers_ t = <[own := mkInfo own name addr free 0 (port "memory_port"%string 9200) (port "gpu_port"%string 9300) now ACTIVE]>
    (peers_ (peer_table_ nb)) /\
  exists r, fst (discovery_handle_request true later (control_request_buffer (mkControlRequest LIST_PEERS 0)) (set_peers t nb)) = Some r /\
    mkControlPeer (Some own) (Some name) (Some addr) free 0 (port "memory_port"%string 9200) (port "gpu_port"%string 9300) true
      (u64 ((later - now) ÷ 1000000)) ∈ default [] (cr_peers r).
Proof.
  intros Hf Hr He Hrun Hsize. cbv zeta. destruct (run_begin_ok config random host poll Hf) as (d0 & H0 & Hd0).
  rewrite (bind_ret _ _ _ _ _ H0) in Hrun. destruct (discovery_run_ok evs d0 He Hd0) as (d1 & Hr1 & Hd).
  rewrite Hr1 in Hrun. injection Hrun as <-. destruct (run_begin_history W config random host poll d0 H0) as (Hi0 & Hp0 & Hj0 & Hans & Hf0).
  assert (Hv0 : an_free_vram (announcer_ d0) = 0) by (by injection Hi0).
  destruct (discovery_run_history evs d0 d1 He Hd0 Hp0 Hv0 Hr1) as (Hi & Hj & Hfree). rewrite Hi0 in Hi. rewrite Hj0 in Hj.
  injection Hi0 as _ _ _ _ _ _ Hs0. rewrite Hs0, Hans, Hf0 in Hfree. injection Hi as Hid Hn Ha Hm Hg Hv _.
  assert (Hp : peers_ (on_recv now (zlen (on_timer ts (announcer_ d1))) (on_timer ts (announcer_ d1)) (peer_table_ nb)) =
    <[generate_uuid random := mkInfo (generate_uuid random) (default "localhost"%string host)
       (config_get value_string "discovery" "listen_address" "0.0.0.0"%string config)
       (if in_pool evs then last_sample (config_get value_string "discovery" "memory_control_socket" ""%string config)
          (pool_answer (config_get value_string "discovery" "memory_control_socket" ""%string config) poll) 0 evs else 0) 0
       (to_port (config_get value_int "discovery" "memory_port" 9200 config))
       (to_port (config_get value_int "discovery" "gpu_port" 9300 config)) now ACTIVE]> (peers_ (peer_table_ nb))).
  { rewrite on_recv_announcement; [|by apply announcement_typed|by rewrite Hid; apply generate_uuid_version|done].
    unfold table_update, seen, announced, announcement. cbn -[u64]. rewrite (do_joined _ Hd), Hid, Hn, Ha, Hm, Hg, Hv, Hfree, Hj.
    unfold in_pool. by destruct (default true _). }
  split; [exact Hp|]. unfold discovery_handle_request. pose proof (control_request_nonempty (mkControlRequest LIST_PEERS 0)).
  rewrite (proj2 (Z.ltb_ge _ _)) by lia. rewrite verify_control_request_buffer by done. eexists. split; [reflexivity|].
  cbn [cr_peers command]. change (LIST_PEERS =? LIST_PEERS) with true. cbn [default from_option].
  apply list_elem_of_fmap. eexists. split; [|eapply table_get_peers_lookup; cbn [set_peers peer_table_]; rewrite Hp; apply lookup_insert_eq]. done.
Qed.

(** When the multicast port cannot be bound or joined, [run] throws and the
    listener is not marked as running; the destructor then skips it and deletes
    the object while libuv still holds its open handle. *)
Theorem failed_listener_freed_open (W : DiscoveryWire) `{!MapIter node_id_t PeerInfo} config random host poll listen err :
  udp_bind listen = Some err ->
  exists d, run_begin true poll listen (DiscoveryDaemon_new config random host) =
      (Throw (runtime_error ("UDP bind error: " ++ err)), d) /\
    fst (DiscoveryDaemon_delete d) = Undef.
Proof.
  intros Hb. destruct listen as [ub jg rs]. cbn in Hb. subst ub. eexists. split; [reflexivity|]. reflexivity.
Qed.

(** *** Concrete runs *)

Section demo.
#[local] Existing Instance code_discovery_wire.
#[local] Instance demo_peer_iter : MapIter node_id_t PeerInfo := map_iter_std node_id_t PeerInfo.

Definition demo_random : list byte := replicate 16 x11.

(** A tick, a datagram that is no announcement, a failed poll, a bad request and a signal. *)
Definition demo_discovery_events : list discovery_event :=
  [DvTick 1000000000 (Some 4096);
   DvRecv 1500000000 16 (replicate 16 x00); DvPoll None; DvControl 0 [x00]; DvSignal; DvStop].

Lemma demo_events_ok : Forall event_ok demo_discovery_events.
Proof. repeat first [apply List.Forall_nil | apply List.Forall_cons; [first [exact I | done]|]]. Defined.

Lemma discovery_shuts_down_witness :
  exists d', DiscoveryDaemon_delete (run_end (snd ((do! run_begin true None listening in discovery_run demo_discovery_events)
    (DiscoveryDaemon_new Config_empty demo_random None)))) = (Ret tt, d') /\ stop_async_ d' = HClosed.
Proof.
  destruct (discovery_shuts_down code_discovery_wire Config_empty demo_random None None demo_discovery_events)
    as (d & d' & Hr & Hd & _ & _ & _ & Hs & _); [reflexivity|exact demo_events_ok|].
  exists d'. rewrite Hr. split; [exact Hd|exact Hs].
Defined.

Definition demo_discovery : DiscoveryDaemon :=
  snd ((do! run_begin true None listening in discovery_run demo_discovery_events)
         (DiscoveryDaemon_new Config_empty demo_random None)).

Lemma demo_discovery_runs :
  (do! run_begin true None listening in discovery_run demo_discovery_events)
    (DiscoveryDaemon_new Config_empty demo_random None) = (Ret tt, demo_discovery).
Proof. vm_compute. reflexivity. Qed.

Lemma demo_discovery_announces : zlen (on_timer 7 (announcer_ demo_discovery)) <= FLATBUFFERS_MAX_BUFFER_SIZE.
Proof. vm_compute. discriminate. Qed.

Lemma announcement_tells_node_witness :
  free_ram_bytes <$> (peers_ (on_recv 3000000000 (zlen (on_timer 7 (announcer_ demo_discovery))) (on_timer 7 (announcer_ demo_discovery))
    (peer_table_ demo_discovery)) !! generate_uuid demo_random) = Some 4096.
Proof.
  rewrite (proj1 (announcement_tells_node code_discovery_wire Config_empty demo_random None None demo_discovery_events
    demo_discovery 3000000000 7 4000000000 demo_discovery eq_refl eq_refl demo_events_ok demo_discovery_runs demo_discovery_announces)).
  rewrite lookup_insert_eq. vm_compute. reflexivity.
Defined.

Lemma failed_listener_freed_open_witness :
  exists d, run_begin true None (mkListenResults (Some "address already in use"%string) None None)
      (DiscoveryDaemon_new Config_empty demo_random None) =
      (Throw (runtime_error "UDP bind error: address already in use"), d) /\ fst (DiscoveryDaemon_delete d) = Undef.
Proof.
  exact (failed_listener_freed_open code_discovery_wire Config_empty demo_random None None
    (mkListenResults (Some "address already in use"%string) None None) "address already in use" eq_refl).
Defined.
End demo.
