(* ===== verification/Capacity.v ===== *)
(** * From a pool to the clients that use it

    How much of memoryd's pool is free reaches a client on another machine in
    five steps: memoryd's control socket ([MemoryDaemon]), the probe, the
    announcement, the listener and the control socket of discoveryd
    ([Discovery]), and the client's query ([ClientNet]).  This file composes them. *)

From S2P Require Import Prelude Common Slab PageTracker Pool MemoryProtocol MemoryDaemon PeerTable Discovery MemoryClient ClientNet.
Import Peer.

Section capacity.
Context {W : DiscoveryWire} `{!MapIter node_id_t PeerInfo}.

(** What memoryd's handler adds to the [ControlResponse]. *)
Definition stats_response (s : MemoryStats) : ControlResponse :=
  mkControlResponse (stats_request_id s) (success s) (Some (stats_message s)) None no_status
    (pool_total_bytes s) (pool_used_bytes s) (pool_free_bytes s).

(** memoryd's answer to the probe, as [send_request] returns it. *)
Definition memoryd_answers (t : PageTracker) (query : list byte) : list byte :=
  match control_handle_request verify_control_request (Some (allocator_ t)) query with
  | Some s => control_response_buffer (stats_response s)
  | None => []
  end.

(** The fields of a listed peer that the client reads. *)
Definition client_peer_info (p : ControlPeer) : ClientNet.PeerInfo :=
  mkPeerInfo (cp_address p) (cp_memory_port p) (cp_free_ram_bytes p) (cp_free_vram_bytes p).

#[export] Instance client_control_wire : ControlWire := {|
  verify_peers b := (fun r => option_map (map client_peer_info) (cr_peers r)) <$> verify_control_response b
|}.

(** The query of [query_discovery]. *)
Definition peers_query : list byte := control_request_buffer (mkControlRequest LIST_PEERS 0).

(** discoveryd's answer. *)
Definition discoveryd_answers (now : Z) (query : list byte) (d : DiscoveryDaemon) : list byte :=
  match fst (discovery_handle_request true now query d) with
  | Some r => control_response_buffer r
  | None => []
  end.

Definition pool_free (t : PageTracker) : Z := free_pages_count (allocator_ t) * page_size_ (allocator_ t).

Lemma pool_free_bound t : tracker_wf t -> 0 <= pool_free t < U64 /\ total_pages_ (allocator_ t) * page_size_ (allocator_ t) < U64.
Proof.
  intros Hwf. pose proof (tracker_accounting t Hwf) as Ha. unfold pool_free_pages in Ha. cbn -[used_pages tracker_abs free_pages_count] in Ha.
  pose proof (used_pages_bound t Hwf). pose proof (wf_bytes _ (tw_slab _ Hwf)).
  pose proof (wf_page_size _ (tw_slab _ Hwf)). unfold pool_free. nia.
Qed.

(** The probe learns the free bytes of the pool. *)
Lemma poll_memoryd t p :
  tracker_wf t -> socket_name_ p <> ""%string -> zlen (memoryd_answers t stats_query) <= FLATBUFFERS_MAX_BUFFER_SIZE ->
  poll_once (Some (memoryd_answers t stats_query)) p =
    (true, set_available true (pool_free t) (total_pages_ (allocator_ t) * page_size_ (allocator_ t)) p).
Proof.
  intros Hwf Hn Hs. destruct (pool_free_bound t Hwf) as [Hf Ht]. pose proof (wf_page_size _ (tw_slab _ Hwf)) as Hps.
  assert (Htp : 0 <= total_pages_ (allocator_ t) * page_size_ (allocator_ t)) by (pose proof (wf_total _ (tw_slab _ Hwf)); nia).
  assert (Hq : memoryd_answers t stats_query = control_response_buffer (mkControlResponse 0 true (Some "OK"%string) None no_status
    (total_pages_ (allocator_ t) * page_size_ (allocator_ t))
    (u64 (total_pages_ (allocator_ t) * page_size_ (allocator_ t) - pool_free t)) (pool_free t))).
  { unfold memoryd_answers, control_handle_request, stats_query.
    pose proof (control_request_nonempty (mkControlRequest GET_MEMORY_STATS 0)).
    rewrite (proj2 (Z.ltb_ge _ _)) by lia. rewrite verify_control_request_buffer by done.
    unfold control_reply. cbn -[u64 free_pages_count control_response_buffer].
    fold (pool_free t). rewrite !(u64_small _ Hf), (u64_small (total_pages_ _ * _)); [done|]. lia. }
  rewrite Hq in *. unfold poll_once. rewrite bool_decide_eq_false_2 by done.
  match goal with |- context [control_response_buffer ?r] => pose proof (control_response_nonempty r) end.
  rewrite (proj2 (Z.ltb_ge _ _)) by lia. rewrite verify_control_response_buffer; [done| |done].
  unfold control_response_ok. cbn -[is_u64 u64]. pose proof (u64_range (total_pages_ (allocator_ t) * page_size_ (allocator_ t) - pool_free t)).
  split_and!; try done; lia.
Qed.

(** A listed node is one of the client's endpoints. *)
Lemma query_listed now d p :
  discovery_ok d -> zlen (discoveryd_answers now peers_query d) <= FLATBUFFERS_MAX_BUFFER_SIZE ->
  p ∈ table_get_peers (peer_table_ d) -> memory_port p <> 0 ->
  mkEndpoint (address p) (memory_port p) (free_ram_bytes p) (free_vram_bytes p)
    ∈ query_discovery (Some (discoveryd_answers now peers_query d)).
Proof.
  intros Hd Hs Hp Hport. unfold discoveryd_answers in *.
  destruct (discovery_handle_request true now peers_query d) as [o d'] eqn:Hh. cbn [fst] in *.
  pose proof Hh as Hh'. unfold discovery_handle_request, peers_query in Hh'.
  pose proof (control_request_nonempty (mkControlRequest LIST_PEERS 0)).
  rewrite (proj2 (Z.ltb_ge _ _)) in Hh' by lia.
  rewrite verify_control_request_buffer in Hh' by done. cbn -[table_get_peers control_peer] in Hh'.
  injection Hh' as <- <-. match goal with |- context [control_response_buffer ?r] => set (r0 := r) in * end.
  unfold query_discovery. pose proof (control_response_nonempty r0). rewrite (proj2 (Z.ltb_ge _ _)) by lia.
  cbn [verify_peers client_control_wire].
  rewrite verify_control_response_buffer; [|by apply (control_reply_typed now peers_query r0 d d)|done].
  cbn [fmap option_fmap option_map cr_peers r0]. apply list_elem_of_omap.
  exists (client_peer_info (control_peer now p)). split.
  - apply list_elem_of_fmap. eexists. split; [done|]. apply list_elem_of_fmap. by eexists.
  - unfold endpoint_of. cbn. by rewrite (proj2 (Z.eqb_neq _ _)).
Qed.

(** One round: [na] polls its memoryd and ticks, and its announcement reaches [nb]. *)
Definition capacity_round (t : PageTracker) (now : Z) (monitor : option Z) (ts now' : Z) (nb : DiscoveryDaemon) :
    M DiscoveryDaemon DiscoveryDaemon :=
  do! discovery_exec (DvPoll (Some (memoryd_answers t stats_query))) in
  do! discovery_exec (DvTick now monitor) in
  let! na := get in
  let dgram := on_timer ts (announcer_ na) in
  match discovery_exec (DvRecv now' (zlen dgram) dgram) nb with
  | (Ret _, nb) => ret nb
  | _ => undef
  end.

Lemma on_tick_spec now monitor d :
  discovery_ok d -> exists d', on_tick now monitor d = (Ret tt, d') /\
    announcer_ d' = update_metrics (current_free_ram monitor d) 0 (announcer_ d) /\ pool_joined_ d' = pool_joined_ d.
Proof.
  intros Hd. destruct (tick_spec now (peer_table_ d) (do_ttl _ Hd)) as (t & Ht & _). unfold on_tick.
  eexists. split; [erewrite bind_ret by (apply zoom_ret; exact Ht); reflexivity|done].
Qed.

Lemma allocate_announced t size :
  tracker_wf t -> 0 < size <= pool_free t -> size + page_size_ (allocator_ t) <= U64 -> next_handle_ t + 1 < U64 ->
  exists h t', tracker_allocate size t = (Ret h, t').
Proof.
  intros Hwf Hs Hps Hn. pose proof (wf_page_size _ (tw_slab _ Hwf)) as Hp.
  destruct (pages_for_bounds size (page_size_ (allocator_ t)) Hp) as (_ & Hlow & _); [lia|].
  destruct (tracker_allocate_spec t size) as (t' & Ht & _); try done; unfold SIZE_MAX, pool_free in *; try lia; [nia|].
  by exists (next_handle_ t), t'.
Qed.

End capacity.

(** ** Properties *)

(** C6: What a client learns about a node is what the node's memoryd has free at
    that moment: one poll, one tick and one announcement later, the client's
    query of the discoveryd on its own machine gives an endpoint with the node's
    address and port and exactly the free bytes of its pool, or none if the node
    left the pool.  memoryd grants any one allocation of up to that size. *)
Theorem capacity_reaches_client (W : DiscoveryWire) `{!MapIter node_id_t Peer.PeerInfo} t na nb now monitor ts now' later :
  tracker_wf t -> discovery_ok na -> discovery_ok nb ->
  socket_name_ (pool_probe_ na) <> ""%string -> zlen (an_local_id (announcer_ na)) = 16 ->
  an_memory_port (announcer_ na) <> 0 -> from_option is_u64 True monitor ->
  zlen (memoryd_answers t stats_query) <= FLATBUFFERS_MAX_BUFFER_SIZE ->
  exists na' nb', capacity_round t now monitor ts now' nb na = (Ret nb', na') /\
    (zlen (on_timer ts (announcer_ na')) <= FLATBUFFERS_MAX_BUFFER_SIZE ->
     zlen (discoveryd_answers later peers_query nb') <= FLATBUFFERS_MAX_BUFFER_SIZE ->
     mkEndpoint (an_listen_address (announcer_ na)) (an_memory_port (announcer_ na))
       (if pool_joined_ na then pool_free t else 0) 0
       ∈ query_discovery (Some (discoveryd_answers later peers_query nb'))) /\
    forall size, 0 < size <= pool_free t -> size + page_size_ (allocator_ t) <= U64 -> next_handle_ t + 1 < U64 ->
      exists h t', tracker_allocate size t = (Ret h, t').
Proof.
  intros Hwf Ha Hb Hsock Hid Hport Hmon Hs1.
  set (na1 := set_probe (snd (poll_once (Some (memoryd_answers t stats_query)) (pool_probe_ na))) na).
  destruct (discovery_exec_ok (DvPoll (Some (memoryd_answers t stats_query))) na I Ha) as (x & Hx & Ha1).
  injection Hx as <-. fold na1 in Ha1.
  destruct (on_tick_spec now monitor na1 Ha1) as (na2 & Htick & Han & Hj).
  destruct (discovery_exec_ok (DvTick now monitor) na1) as (y & Hy & Ha2); [by destruct monitor|done|].
  cbn [discovery_exec] in Hy. rewrite Htick in Hy. injection Hy as <-.
  set (dg := on_timer ts (announcer_ na2)).
  set (nb1 := Discovery.set_peers (on_recv now' (zlen dg) dg (peer_table_ nb)) nb).
  destruct (discovery_exec_ok (DvRecv now' (zlen dg) dg) nb I Hb) as (z & Hz & Hb1). injection Hz as <-. fold nb1 in Hb1.
  exists na2, nb1. split_and!; [| |intros size; by apply allocate_announced].
  { unfold capacity_round. erewrite bind_ret by reflexivity. fold na1. cbn [discovery_exec].
    rewrite (bind_ret _ _ _ _ _ Htick), bind_get. done. }
  intros Hs2 Hs3.
  assert (Hrecv : on_recv now' (zlen dg) dg (peer_table_ nb) =
    table_update now' (announced now' (announcement ts (announcer_ na2)) (an_local_id (announcer_ na2))) (peer_table_ nb)).
  { apply on_recv_announcement; [by apply announcement_typed| |exact Hs2]. by rewrite Han. }
  assert (Hann : announcement ts (announcer_ na2) = mkAnnouncement MEMINFO_PROTOCOL_VERSION (Some (an_local_id (announcer_ na)))
    (Some (an_local_hostname (announcer_ na))) (if pool_joined_ na then pool_free t else 0) 0 (u64 ts)
    (an_memory_port (announcer_ na)) (an_gpu_port (announcer_ na)) (Some (an_listen_address (announcer_ na)))).
  { rewrite Han. unfold announcement. cbn -[poll_once]. unfold current_free_ram. cbn -[poll_once].
    rewrite (poll_memoryd t (pool_probe_ na) Hwf Hsock Hs1). cbn. rewrite (do_joined _ Ha). clear. destruct (pool_joined_ na); reflexivity. }
  set (p := seen now' (announced now' (announcement ts (announcer_ na2)) (an_local_id (announcer_ na2)))).
  pose proof (query_listed later nb1 p Hb1 Hs3) as Hq. unfold p in Hq at 3 4 5 6. rewrite Hann in Hq. cbn in Hq. apply Hq; [|by rewrite Han].
  unfold nb1, table_get_peers. cbn. rewrite Hrecv. apply list_elem_of_fmap. exists (id p, p). split; [done|].
  apply elem_of_map_iter. apply lookup_insert_eq.
Qed.

(** *** A concrete round: three free pages of four bytes. *)

Section demo.
#[local] Existing Instance code_discovery_wire.
#[local] Existing Instance demo_peer_iter.

Definition demo_node_config : Config :=
  mkTomlConfig (fun _ key => if bool_decide (key = "memory_control_socket"%string) then Some "memoryd.sock"%string else None)
    (fun _ _ => None) (fun _ _ => None) (fun _ _ => false).

Definition demo_announcing : DiscoveryDaemon :=
  snd (run_begin true None listening (DiscoveryDaemon_new demo_node_config demo_random None)).

Lemma demo_announcing_ok : discovery_ok demo_announcing.
Proof.
  destruct (run_begin_ok demo_node_config demo_random None None eq_refl) as (d & Hd & Hok).
  unfold demo_announcing. unfold listening. rewrite Hd. exact Hok.
Qed.

Lemma capacity_reaches_client_witness :
  exists na' nb', capacity_round demo_tracker 2000000000 None 7 2100000000 demo_announcing demo_announcing = (Ret nb', na') /\
    (zlen (on_timer 7 (announcer_ na')) <= FLATBUFFERS_MAX_BUFFER_SIZE ->
     zlen (discoveryd_answers 2200000000 peers_query nb') <= FLATBUFFERS_MAX_BUFFER_SIZE ->
     mkEndpoint "0.0.0.0" 9200 12 0 ∈ query_discovery (Some (discoveryd_answers 2200000000 peers_query nb'))).
Proof.
  destruct (capacity_reaches_client code_discovery_wire demo_tracker demo_announcing demo_announcing 2000000000 None 7
    2100000000 2200000000 demo_tracker_wf demo_announcing_ok demo_announcing_ok ltac:(vm_compute; discriminate) eq_refl
    ltac:(vm_compute; discriminate) I ltac:(vm_compute; discriminate)) as (na' & nb' & Hr & He & _).
  exists na', nb'. split; [exact Hr|exact He].
Defined.
End demo.
