(* ===== verification/GpuDaemon.v ===== *)
(** * The GPU daemon

    [gpud/src]: requests for a CUDA device behind the same frames as memoryd's
    (gpu_protocol.cpp, gpu_session.cpp, gpu_daemon.cpp), executed by whatever
    implements [ICudaExecutor]; without CUDA, by a stub on the host's heap
    (cuda_executor_stub.cpp).  The code generated from [schema/gpu.fbs] and the
    FlatBuffers runtime are the class [GpuWire]. *)

From S2P Require Import Prelude Framing Common MemoryProtocol.

(** ** Messages ([schema/gpu.fbs], the fields the code uses) *)

Inductive GpuOpCode :=
| CUDA_MALLOC | CUDA_FREE | CUDA_MEMCPY | CUDA_GET_DEVICE_PROPERTIES
| GpuOpCode_other (code : Z).

Inductive MemcpyKind := HOST_TO_DEVICE | DEVICE_TO_HOST | MemcpyKind_other (code : Z).

#[export] Instance gpu_opcode_eq_dec : EqDecision GpuOpCode.
Proof. solve_decision. Defined.
#[export] Instance memcpy_kind_eq_dec : EqDecision MemcpyKind.
Proof. solve_decision. Defined.

Record GpuRequest := mkGpuRequest {
  gr_protocol_version : Z;
  gr_request_id : Z;
  gr_op : GpuOpCode;
  gr_device_ptr : Z;
  gr_size : Z;
  gr_data : option (list byte);
  gr_memcpy_kind : MemcpyKind;
  gr_dst_ptr : Z;
  gr_src_ptr : Z
}.

Record GpuResponse := mkGpuResponse {
  gp_request_id : Z;
  gp_error_code : Z;
  gp_device_ptr : Z;
  gp_data : option (list byte);
  gp_message : option string
}.

Definition is_i32 (z : Z) : Prop := - 2 ^ 31 <= z < 2 ^ 31.

Definition gpu_request_ok (r : GpuRequest) : Prop :=
  0 <= gr_protocol_version r < 2 ^ 16 /\ is_u64 (gr_request_id r) /\ is_u64 (gr_device_ptr r) /\ is_u64 (gr_size r) /\
  is_u64 (gr_dst_ptr r) /\ is_u64 (gr_src_ptr r) /\
  match gr_op r with GpuOpCode_other c => 0 <= c < 256 /\ c ∉ [0; 1; 2; 4] | _ => True end /\
  match gr_memcpy_kind r with MemcpyKind_other c => 2 <= c < 256 | _ => True end.

Definition gpu_response_ok (r : GpuResponse) : Prop :=
  is_u64 (gp_request_id r) /\ is_i32 (gp_error_code r) /\ is_u64 (gp_device_ptr r).

#[export] Instance gpu_request_ok_dec r : Decision (gpu_request_ok r).
Proof. unfold gpu_request_ok, is_u64. destruct (gr_op r), (gr_memcpy_kind r); apply _. Defined.
#[export] Instance gpu_response_ok_dec r : Decision (gpu_response_ok r).
Proof. unfold gpu_response_ok, is_u64, is_i32. apply _. Defined.

(** [read_gpu_response]: the accessors of a table; [None]: the bytes are no such
    table, and reading them is undefined unless a verifier has looked first. *)
Class GpuWire := {
  gpu_request_table : GpuRequest -> list byte;
  gpu_response_table : GpuResponse -> list byte;
  verify_gpu_request : list byte -> option GpuRequest;
  read_gpu_response : list byte -> option GpuResponse;
  gpu_request_roundtrip : forall r, gpu_request_ok r -> zlen (gpu_request_table r) < U32 ->
    verify_gpu_request (size_prefixed (gpu_request_table r)) = Some r;
  gpu_response_roundtrip : forall r, gpu_response_ok r -> zlen (gpu_response_table r) < U32 ->
    read_gpu_response (size_prefixed (gpu_response_table r)) = Some r
}.

(** ** The device *)

(** [ICudaExecutor]: every method returns a CUDA error code, 0 for success.
    [memcpyHtoD dst src size]: [src] is the buffer that is read from;
    [memcpyDtoH src size] gives the buffer of [size] bytes it was given, filled. *)
Class ICudaExecutor (E : Type) := {
  cuda_allocate : Z -> M E (Z * Z);
  cuda_free : Z -> M E Z;
  memcpyHtoD : Z -> list byte -> Z -> M E Z;
  memcpyDtoH : Z -> Z -> M E (Z * list byte);
  getDeviceProperties : M E (Z * string * Z)
}.

(** The types of the results: [int], [uint64_t*], [size_t&]. *)
Class CudaExecutorTypes (E : Type) `{!ICudaExecutor E} := {
  allocate_typed : forall n x err p x', 0 <= n -> cuda_allocate n x = (Ret (err, p), x') -> is_i32 err /\ is_u64 p;
  free_typed : forall p x err x', cuda_free p x = (Ret err, x') -> is_i32 err;
  HtoD_typed : forall d s n x err x', memcpyHtoD d s n x = (Ret err, x') -> is_i32 err;
  DtoH_typed : forall s n x err b x', memcpyDtoH s n x = (Ret (err, b), x') -> is_i32 err /\ (0 <= n -> zlen b = n);
  properties_typed : forall x err name total x', getDeviceProperties x = (Ret (err, name, total), x') ->
    is_i32 err /\ is_u64 total
}.

(** *** The stub *)

(** The C heap: [malloc blocks size] is a new block with its contents. *)
Class Malloc := {
  c_malloc : gmap Z (list byte) -> Z -> option (Z * list byte);
  c_malloc_fresh : forall blocks size p b, c_malloc blocks size = Some (p, b) -> 0 <= size ->
    is_u64 p /\ blocks !! p = None /\ zlen b = size
}.

(** The allocations the stub knows, and the blocks of the heap it got. *)
Record CudaExecutorStub := mkStub {
  stub_allocations_ : gmap Z Z;
  stub_blocks : gmap Z (list byte)
}.

Definition CudaExecutorStub_new : CudaExecutorStub := mkStub ∅ ∅.

Section stub.
Context {Mal : Malloc}.

Definition stub_allocate (size : Z) : M CudaExecutorStub (Z * Z) :=
  let! s := get in
  match c_malloc (stub_blocks s) size with
  | None => ret (2, 0)
  | Some (ptr, bytes) =>
      do! put (mkStub (<[ptr := size]> (stub_allocations_ s)) (<[ptr := bytes]> (stub_blocks s))) in
      ret (0, ptr)
  end.

Definition stub_free (devPtr : Z) : M CudaExecutorStub Z :=
  let! s := get in
  match stub_allocations_ s !! devPtr with
  | None => ret 11
  | Some _ =>
      do! put (mkStub (delete devPtr (stub_allocations_ s)) (delete devPtr (stub_blocks s))) in
      ret 0
  end.

(** [memcpy]: reading or writing beyond a block is undefined. *)
Definition stub_memcpyHtoD (dst : Z) (src : list byte) (size : Z) : M CudaExecutorStub Z :=
  let! s := get in
  match stub_allocations_ s !! dst with
  | None => ret 11
  | Some _ =>
      match stub_blocks s !! dst with
      | None => undef
      | Some b =>
          if (zlen src <? size) || (zlen b <? size) then undef
          else
            do! put (mkStub (stub_allocations_ s) (<[dst := splice 0 (slice 0 size src) b]> (stub_blocks s))) in
            ret 0
      end
  end.

(** The buffer comes from [resize], which fills it with zeros. *)
Definition stub_memcpyDtoH (src size : Z) : M CudaExecutorStub (Z * list byte) :=
  let! s := get in
  match stub_allocations_ s !! src with
  | None => ret (11, replicate (Z.to_nat size) x00)
  | Some _ =>
      match stub_blocks s !! src with
      | None => undef
      | Some b => if zlen b <? size then undef else ret (0, slice 0 size b)
      end
  end.

Definition stub_getDeviceProperties : M CudaExecutorStub (Z * string * Z) :=
  ret (0, "Stubbed GPU (Host RAM)"%string, 1024 * 1024 * 1024).

#[export] Instance stub_executor : ICudaExecutor CudaExecutorStub := {|
  cuda_allocate := stub_allocate;
  cuda_free := stub_free;
  memcpyHtoD := stub_memcpyHtoD;
  memcpyDtoH := stub_memcpyDtoH;
  getDeviceProperties := stub_getDeviceProperties
|}.

(** The stub's table and its blocks agree. *)
Definition stub_ok (s : CudaExecutorStub) : Prop := stub_allocations_ s = zlen <$> stub_blocks s.

Lemma stub_allocate_ok n s err p s' :
  0 <= n -> stub_ok s -> stub_allocate n s = (Ret (err, p), s') -> stub_ok s'.
Proof.
  unfold stub_ok, stub_allocate. intros Hn Hs. munfold. destruct (c_malloc _ n) as [[ptr b]|] eqn:Hm; intros [= <- <- <-]; [|done].
  apply c_malloc_fresh in Hm as (_ & _ & Hl); [|done]. cbn. by rewrite fmap_insert, Hs, Hl.
Qed.

Lemma stub_free_ok p s err s' : stub_ok s -> stub_free p s = (Ret err, s') -> stub_ok s'.
Proof.
  unfold stub_ok, stub_free. intros Hs. munfold. destruct (stub_allocations_ s !! p); intros [= <- <-]; [|done].
  cbn. by rewrite fmap_delete, Hs.
Qed.

Lemma stub_HtoD_ok d b n s err s' : 0 <= n -> stub_ok s -> stub_memcpyHtoD d b n s = (Ret err, s') -> stub_ok s'.
Proof.
  unfold stub_ok, stub_memcpyHtoD. intros Hn Hs. munfold. destruct (stub_allocations_ s !! d) eqn:Ha; [|by intros [= _ <-]].
  destruct (stub_blocks s !! d) as [bl|] eqn:Hb; [|done]. destruct (Z.ltb_spec (zlen b) n), (Z.ltb_spec (zlen bl) n); try done.
  intros [= _ <-]. cbn. pose proof (zlen_slice 0 n b). rewrite fmap_insert, zlen_splice by lia. rewrite Hs. apply map_eq. intros i.
  destruct (decide (i = d)) as [->|]; [by rewrite lookup_insert_eq, lookup_fmap, Hb|by rewrite lookup_insert_ne].
Qed.

#[export] Instance stub_types : CudaExecutorTypes CudaExecutorStub.
Proof.
  split; cbn.
  - unfold stub_allocate. intros n s err p s' Hn. munfold.
    destruct (c_malloc _ n) as [[ptr b]|] eqn:Hm; intros [= <- <- _]; [|done].
    by destruct (c_malloc_fresh _ _ _ _ Hm Hn) as (? & _).
  - unfold stub_free. intros p s err s'. munfold. by destruct (_ !! p); intros [= <- _].
  - unfold stub_memcpyHtoD. intros d b n s err s'. munfold. repeat (case_match; simplify_eq/=; try done).
    all: by intros [= <- _].
  - unfold stub_memcpyDtoH. intros p n s err b s'. munfold. destruct (stub_allocations_ s !! p).
    + destruct (stub_blocks s !! p) as [bl|]; [|done]. destruct (Z.ltb_spec (zlen bl) n); intros [= <- <- _].
      split; [done|]. intros. rewrite zlen_slice; lia.
    + intros [= <- <- _]. split; [done|]. apply zlen_replicate.
  - by intros s err name total s' [= <- _ <- _].
Qed.
End stub.

(** ** Requests *)

Section gpu.
Context {W : GpuWire} {E : Type} `{!ICudaExecutor E} (resize : Z -> option exn).

(** [build_response]: no data means no vector. *)
Definition gpu_response (request_id error_code device_ptr : Z) (data : list byte) (message : string) : GpuResponse :=
  mkGpuResponse request_id error_code device_ptr (if 0 <? zlen data then Some data else None) (Some message).

(** The [switch] of [process_request]: [err], [result_ptr], [result_data] and [result_msg].
    [resize n]: the exception [result_data.resize(n)] throws, if any. *)
Definition gpu_switch (req : GpuRequest) : M E (Z * Z * list byte * string) :=
  match gr_op req with
  | CUDA_MALLOC =>
      let! r := cuda_allocate (gr_size req) in
      ret (fst r, snd r, [], ""%string)
  | CUDA_FREE =>
      let! err := cuda_free (gr_device_ptr req) in
      ret (err, 0, [], ""%string)
  | CUDA_MEMCPY =>
      match gr_memcpy_kind req with
      | HOST_TO_DEVICE =>
          match gr_data req with
          | Some data =>
              let! err := memcpyHtoD (gr_dst_ptr req) data (gr_size req) in
              ret (err, 0, [], ""%string)
          | None => ret (11, 0, [], ""%string)
          end
      | DEVICE_TO_HOST =>
          match resize (gr_size req) with
          | Some e => throw e
          | None =>
              let! r := memcpyDtoH (gr_src_ptr req) (gr_size req) in
              ret (fst r, 0, snd r, ""%string)
          end
      | MemcpyKind_other _ => ret (11, 0, [], ""%string)
      end
  | CUDA_GET_DEVICE_PROPERTIES =>
      let! r := getDeviceProperties in
      let '(err, name, total_mem) := r in
      ret (if err =? 0 then (err, total_mem, [], name) else (err, 0, [], ""%string))
  | GpuOpCode_other _ => ret (1, 0, [], "Unsupported operation"%string)
  end.

Definition gpu_handle_verified (req : GpuRequest) : M E GpuResponse :=
  if negb (check_protocol_version (gr_protocol_version req)) then
    ret (gpu_response (gr_request_id req) (-1) 0 [] "Protocol version mismatch")
  else
    let! r := gpu_switch req in
    let '(err, result_ptr, result_data, result_msg) := r in
    ret (gpu_response (gr_request_id req) err result_ptr result_data result_msg).

(** [GpuProtocol::process_request]; the empty answer closes the connection. *)
Definition gpu_process_request (data : list byte) : M E (list byte) :=
  match verify_gpu_request data with
  | None => ret []
  | Some req =>
      let! r := gpu_handle_verified req in
      ret (size_prefixed (gpu_response_table r))
  end.

(** ** Sessions *)

Record GpuSession := mkGpuSession {
  gs_read_buffer_ : list byte;
  gs_closing : bool;
  gs_sent : list (list byte)
}.

Record GpuEnv := mkGpuEnv { ge_executor : E; ge_session : GpuSession }.

Definition set_executor (x : E) (e : GpuEnv) : GpuEnv := mkGpuEnv x (ge_session e).
Definition set_gpu_session (s : GpuSession) (e : GpuEnv) : GpuEnv := mkGpuEnv (ge_executor e) s.
Definition set_gs_buffer (b : list byte) (s : GpuSession) : GpuSession := mkGpuSession b (gs_closing s) (gs_sent s).

Definition GpuSession_new (accepted : bool) : GpuSession := mkGpuSession [] (negb accepted) [].

(** [if (!uv_is_closing(...)) uv_close(...)] *)
Definition gs_close : M GpuEnv unit :=
  let! e := get in
  put (set_gpu_session (mkGpuSession (gs_read_buffer_ (ge_session e)) true (gs_sent (ge_session e))) e).

Definition gpu_handle_request (data : list byte) : M GpuEnv unit :=
  let! response := zoom ge_executor set_executor (gpu_process_request data) in
  if zlen response =? 0 then gs_close
  else
    let! e := get in
    let s := ge_session e in
    if gs_closing s then ret tt
    else put (set_gpu_session (mkGpuSession (gs_read_buffer_ s) (gs_closing s) (gs_sent s ++ [response])) e).

Fixpoint gpu_process_buffer (fuel : nat) : M GpuEnv unit :=
  let! e := get in
  let buf := gs_read_buffer_ (ge_session e) in
  if 4 <=? zlen buf then
    match fuel with
    | O => nofuel
    | S fuel =>
        let size := prefixed_size buf in
        if MAX_MESSAGE_SIZE <? size then gs_close
        else if size <=? zlen buf - 4 then
          do! gpu_handle_request (slice 0 (size + 4) buf) in
          let! e := get in
          do! put (set_gpu_session (set_gs_buffer (drop (Z.to_nat (size + 4)) (gs_read_buffer_ (ge_session e))) (ge_session e)) e) in
          gpu_process_buffer fuel
        else ret tt
    end
  else ret tt.

(** [data = None]: nread < 0. *)
Definition gpu_session_on_read (data : option (list byte)) : M GpuEnv unit :=
  match data with
  | None => gs_close
  | Some data =>
      if 0 <? zlen data then
        let! e := get in
        do! put (set_gpu_session (set_gs_buffer (gs_read_buffer_ (ge_session e) ++ data) (ge_session e)) e) in
        let! e := get in
        gpu_process_buffer (length (gs_read_buffer_ (ge_session e)))
      else ret tt
  end.

(** ** The daemon *)

Record GpuDaemon := mkGpuDaemon {
  executor_ : E;
  gd_sessions : gmap Z GpuSession;
  gd_next_session_id_ : Z;
  server_socket_ : Handle;
  gd_stop_async_ : Handle;
  gd_is_running_ : bool
}.

(** The constructor takes the real executor, if there is one, and the stub otherwise. *)
Definition GpuDaemon_new (real : option E) (stub : E) : GpuDaemon :=
  mkGpuDaemon (default stub real) ∅ 1 HOpen HOpen true.

Definition gpu_on_connection (status : Z) (accepted : bool) (d : GpuDaemon) : GpuDaemon :=
  if status <? 0 then d
  else
    let sid := gd_next_session_id_ d in
    mkGpuDaemon (executor_ d) (<[sid := GpuSession_new accepted]> (gd_sessions d)) (u64 (sid + 1)) (server_socket_ d)
      (gd_stop_async_ d) (gd_is_running_ d).

(** [close_sockets]: the TCP handles that are not closing yet. *)
Definition gpu_close_sockets (d : GpuDaemon) : GpuDaemon :=
  mkGpuDaemon (executor_ d) ((fun s => mkGpuSession (gs_read_buffer_ s) true (gs_sent s)) <$> gd_sessions d)
    (gd_next_session_id_ d) (close_if_open (server_socket_ d)) (gd_stop_async_ d) (gd_is_running_ d).

Definition gpu_on_stop (d : GpuDaemon) : GpuDaemon :=
  let d := gpu_close_sockets d in
  mkGpuDaemon (executor_ d) (gd_sessions d) (gd_next_session_id_ d) (server_socket_ d) (gd_stop_async_ d) false.

(** The close callback deletes the session; its allocations stay. *)
Definition gpu_session_closed (sid : Z) (d : GpuDaemon) : GpuDaemon :=
  mkGpuDaemon (executor_ d) (delete sid (gd_sessions d)) (gd_next_session_id_ d) (server_socket_ d) (gd_stop_async_ d)
    (gd_is_running_ d).

(** The destructor: close everything and run the close callbacks, in any order. *)
Definition GpuDaemon_delete (order : list Z) (d : GpuDaemon) : GpuDaemon :=
  let d := gpu_close_sockets d in
  let d := mkGpuDaemon (executor_ d) (gd_sessions d) (gd_next_session_id_ d) (server_socket_ d)
             (close_if_open (gd_stop_async_ d)) false in
  let d := foldl (fun d sid => gpu_session_closed sid d) d order in
  mkGpuDaemon (executor_ d) (gd_sessions d) (gd_next_session_id_ d) (run_close (server_socket_ d))
    (run_close (gd_stop_async_ d)) (gd_is_running_ d).

(** A read callback of session [sid]. *)
Definition gpu_daemon_read (sid : Z) (data : option (list byte)) : M GpuDaemon unit :=
  let! d := get in
  match gd_sessions d !! sid with
  | None => undef
  | Some s =>
      let '(o, e) := gpu_session_on_read data (mkGpuEnv (executor_ d) s) in
      do! put (mkGpuDaemon (ge_executor e) (<[sid := ge_session e]> (gd_sessions d)) (gd_next_session_id_ d)
                 (server_socket_ d) (gd_stop_async_ d) (gd_is_running_ d)) in
      fun d => (o, d)
  end.

(** ** Serving a stream *)

Definition gpu_frame (r : GpuResponse) : list byte := size_prefixed (gpu_response_table r).

(** The requests one after the other. *)
Fixpoint serve_all (reqs : list GpuRequest) : M E (list GpuResponse) :=
  match reqs with
  | [] => ret []
  | req :: reqs =>
      let! r := gpu_handle_verified req in
      let! rs := serve_all reqs in
      ret (r :: rs)
  end.

Lemma serve_all_app r1 r2 x rs x' :
  serve_all (r1 ++ r2) x = (Ret rs, x') ->
  exists rs1 x1 rs2, serve_all r1 x = (Ret rs1, x1) /\ serve_all r2 x1 = (Ret rs2, x') /\ rs = rs1 ++ rs2.
Proof.
  revert x rs. induction r1 as [|req r1 IH]; intros x rs; cbn [app serve_all].
  - intros H. by exists [], x, rs.
  - intros (r & x1 & Hr & (rs' & x2 & Hs & [= <- <-])%bind_inv_ret)%bind_inv_ret.
    destruct (IH _ _ Hs) as (rs1 & y & rs2 & H1 & H2 & ->). exists (r :: rs1), y, rs2.
    split_and!; [|done|done]. rewrite (bind_ret _ _ _ _ _ Hr), (bind_ret _ _ _ _ _ H1). done.
Qed.

Lemma gpu_handle_request_spec data req r x x' s :
  verify_gpu_request data = Some req -> gpu_handle_verified req x = (Ret r, x') -> gs_closing s = false ->
  gpu_handle_request data (mkGpuEnv x s) =
    (Ret tt, mkGpuEnv x' (mkGpuSession (gs_read_buffer_ s) false (gs_sent s ++ [gpu_frame r]))).
Proof.
  intros Hv Hr Hc. unfold gpu_handle_request. erewrite bind_ret; cycle 1.
  { apply zoom_ret. cbn. unfold gpu_process_request. rewrite Hv, (bind_ret _ _ _ _ _ Hr). reflexivity. }
  fold (gpu_frame r). assert (Hz : (zlen (gpu_frame r) =? 0) = false).
  { apply Z.eqb_neq. unfold gpu_frame, size_prefixed. rewrite zlen_app. unfold zlen at 1. rewrite length_le_bytes.
    pose proof (zlen_nonneg (gpu_response_table r)). lia. }
  rewrite Hz, bind_get. cbn. by rewrite Hc.
Qed.

Lemma gpu_process_buffer_spec b reqs rest :
  deframe_with verify_gpu_request b reqs rest -> forall fuel x s rs x',
  (length b <= fuel)%nat -> gs_read_buffer_ s = b -> gs_closing s = false -> serve_all reqs x = (Ret rs, x') ->
  gpu_process_buffer fuel (mkGpuEnv x s) =
    (Ret tt, mkGpuEnv x' (mkGpuSession rest false (gs_sent s ++ (gpu_frame <$> rs)))).
Proof.
  induction 1 as [b Hstop|b req reqs rest H4 Hmax Hfit Hv Hd IH]; intros fuel x s rs x' Hfuel Hb Hc Hs.
  - injection Hs as <- <-. cbn [fmap list_fmap]. rewrite app_nil_r.
    assert (He : mkGpuSession b false (gs_sent s) = s) by (destruct s; cbn in *; by subst). rewrite He.
    destruct fuel as [|fuel]; cbn [gpu_process_buffer]; rewrite bind_get; cbn [ge_session]; rewrite Hb; zcase;
      unfold zlen in *; try done; lia.
  - destruct fuel as [|fuel]; [unfold zlen in *; lia|]. cbn [serve_all] in Hs.
    apply bind_inv_ret in Hs as (r & x1 & Hr & (rs' & x2 & Hs & [= <- <-])%bind_inv_ret).
    cbn [gpu_process_buffer]. rewrite bind_get. cbn [ge_session]. rewrite Hb. pose proof (prefixed_size_nonneg b). zcase.
    rewrite (bind_ret _ _ _ _ _ (gpu_handle_request_spec _ _ _ _ _ s Hv Hr Hc)), bind_get, bind_put.
    unfold set_gpu_session, set_gs_buffer. cbn [ge_session ge_executor gs_read_buffer_ gs_closing gs_sent]. rewrite Hb.
    erewrite IH; [..|exact Hs]; try done.
    + cbn [gs_sent fmap list_fmap]. by rewrite <- app_assoc.
    + rewrite length_drop. unfold zlen in *. lia.
Qed.

(** Chunks delivered one after the other. *)
Fixpoint gpu_deliver (chunks : list (list byte)) : M GpuEnv unit :=
  match chunks with
  | [] => ret tt
  | c :: chunks => do! gpu_session_on_read (Some c) in gpu_deliver chunks
  end.

Lemma gpu_on_read_spec c reqs rest x s rs x' :
  deframe_with verify_gpu_request (gs_read_buffer_ s ++ c) reqs rest ->
  deframe_with verify_gpu_request (gs_read_buffer_ s) [] (gs_read_buffer_ s) ->
  gs_closing s = false -> serve_all reqs x = (Ret rs, x') ->
  gpu_session_on_read (Some c) (mkGpuEnv x s) =
    (Ret tt, mkGpuEnv x' (mkGpuSession rest false (gs_sent s ++ (gpu_frame <$> rs)))).
Proof.
  intros Hd Hq Hc Hs. cbn [gpu_session_on_read]. destruct (Z.ltb_spec 0 (zlen c)) as [|Hz].
  - rewrite bind_get, bind_put, bind_get. unfold set_gpu_session, set_gs_buffer. cbn [ge_executor ge_session gs_read_buffer_].
    by rewrite (gpu_process_buffer_spec _ _ _ Hd _ x (mkGpuSession (gs_read_buffer_ s ++ c) (gs_closing s) (gs_sent s)) rs x').
  - assert (c = []) as -> by (destruct c; [done|]; unfold zlen in Hz; cbn in Hz; lia).
    rewrite app_nil_r in Hd. destruct (deframe_quiet _ _ _ _ Hq Hd) as [-> ->]. injection Hs as <- <-.
    cbn. rewrite app_nil_r. destruct s; cbn in *. by subst.
Qed.

Lemma gpu_deliver_spec chunks : forall reqs rest x s rs x',
  deframe_with verify_gpu_request (gs_read_buffer_ s ++ concat chunks) reqs rest ->
  deframe_with verify_gpu_request (gs_read_buffer_ s) [] (gs_read_buffer_ s) ->
  gs_closing s = false -> serve_all reqs x = (Ret rs, x') ->
  gpu_deliver chunks (mkGpuEnv x s) =
    (Ret tt, mkGpuEnv x' (mkGpuSession rest false (gs_sent s ++ (gpu_frame <$> rs)))).
Proof.
  induction chunks as [|c chunks IH]; intros reqs rest x s rs x' Hd Hq Hc Hs; cbn [gpu_deliver concat] in *.
  - rewrite app_nil_r in Hd. destruct (deframe_quiet _ _ _ _ Hq Hd) as [-> ->]. injection Hs as <- <-.
    cbn. rewrite app_nil_r. destruct s; cbn in *. by subst.
  - rewrite app_assoc in Hd. destruct (deframe_prefix _ _ _ _ Hd) as (r1 & mid & r2 & H1 & H2 & ->).
    destruct (serve_all_app _ _ _ _ _ Hs) as (rs1 & x1 & rs2 & Hs1 & Hs2 & ->).
    rewrite (bind_ret _ _ _ _ _ (gpu_on_read_spec c r1 mid x s rs1 x1 H1 Hq Hc Hs1)).
    rewrite (IH r2 rest x1 _ rs2 x'); try done; cbn [gs_read_buffer_ gs_closing gs_sent]; [|by eapply deframe_rest].
    by rewrite fmap_app, app_assoc.
Qed.
End gpu.

(** ** The codec of the examples *)

Definition gpu_opcode_num (o : GpuOpCode) : Z :=
  match o with
  | CUDA_MALLOC => 0 | CUDA_FREE => 1 | CUDA_MEMCPY => 2 | CUDA_GET_DEVICE_PROPERTIES => 4 | GpuOpCode_other c => c
  end.

Definition gpu_opcode_of (z : Z) : GpuOpCode :=
  if z =? 0 then CUDA_MALLOC else if z =? 1 then CUDA_FREE else if z =? 2 then CUDA_MEMCPY
  else if z =? 4 then CUDA_GET_DEVICE_PROPERTIES else GpuOpCode_other z.

Definition memcpy_kind_num (k : MemcpyKind) : Z :=
  match k with HOST_TO_DEVICE => 0 | DEVICE_TO_HOST => 1 | MemcpyKind_other c => c end.

Definition memcpy_kind_of (z : Z) : MemcpyKind :=
  if z =? 0 then HOST_TO_DEVICE else if z =? 1 then DEVICE_TO_HOST else MemcpyKind_other z.

Definition gpu_request_tuple (r : GpuRequest) :=
  (gr_protocol_version r, gr_request_id r, gpu_opcode_num (gr_op r), gr_device_ptr r,
   (gr_size r, gr_data r, memcpy_kind_num (gr_memcpy_kind r), (gr_dst_ptr r, gr_src_ptr r))).
Definition gpu_request_of_tuple '(v, i, o, p, (n, d, k, (dst, src))) : GpuRequest :=
  mkGpuRequest v i (gpu_opcode_of o) p n d (memcpy_kind_of k) dst src.

Definition gpu_response_tuple (r : GpuResponse) :=
  (gp_request_id r, gp_error_code r, gp_device_ptr r, (gp_data r, gp_message r)).
Definition gpu_response_of_tuple '(i, e, p, (d, m)) : GpuResponse := mkGpuResponse i e p d m.

Lemma gpu_request_tuple_inv r : gpu_request_ok r -> gpu_request_of_tuple (gpu_request_tuple r) = r.
Proof.
  intros (_ & _ & _ & _ & _ & _ & Ho & Hk). destruct r as [v i o p n d k dst src]. unfold gpu_request_tuple. cbn in *. f_equal.
  - destruct o as [| | | |c]; cbn; try done. destruct Ho as [Hc Hin]. unfold gpu_opcode_of.
    rewrite !not_elem_of_cons in Hin. destruct Hin as (? & ? & ? & ? & _). by zcase.
  - destruct k as [| |c]; cbn; try done. unfold memcpy_kind_of. by zcase.
Qed.

Lemma gpu_request_code_roundtrip r :
  gpu_request_ok r -> zlen (code_table (gpu_request_tuple r)) < U32 ->
  guard_ok gpu_request_ok (gpu_request_of_tuple <$> decode_table (size_prefixed (code_table (gpu_request_tuple r)))) = Some r.
Proof.
  intros Hr _. rewrite decode_code_table. cbn [fmap option_fmap option_map guard_ok].
  rewrite gpu_request_tuple_inv by done. by rewrite decide_True.
Qed.

Lemma gpu_response_code_roundtrip r :
  gpu_response_ok r -> zlen (code_table (gpu_response_tuple r)) < U32 ->
  guard_ok gpu_response_ok (gpu_response_of_tuple <$> decode_table (size_prefixed (code_table (gpu_response_tuple r)))) = Some r.
Proof.
  intros Hr _. rewrite decode_code_table. cbn [fmap option_fmap option_map guard_ok].
  assert (gpu_response_of_tuple (gpu_response_tuple r) = r) as -> by by destruct r. by rewrite decide_True.
Qed.

Definition code_gpu_wire : GpuWire := {|
  gpu_request_table r := code_table (gpu_request_tuple r);
  gpu_response_table r := code_table (gpu_response_tuple r);
  verify_gpu_request b := guard_ok gpu_request_ok (gpu_request_of_tuple <$> decode_table b);
  read_gpu_response b := guard_ok gpu_response_ok (gpu_response_of_tuple <$> decode_table b);
  gpu_request_roundtrip := gpu_request_code_roundtrip;
  gpu_response_roundtrip := gpu_response_code_roundtrip
|}.

(** A heap that numbers its blocks, 16 bytes apart at least. *)
Definition next_block (blocks : gmap Z (list byte)) : Z :=
  map_fold (fun p b n => Z.max (p + zlen b + 1) n) 4096 blocks.

Lemma next_block_above blocks p b : blocks !! p = Some b -> p < next_block blocks.
Proof.
  unfold next_block. revert p b. apply (map_fold_weak_ind (fun n m => forall p b, m !! p = Some b -> p < n)).
  - intros p b H. by rewrite lookup_empty in H.
  - intros i x m n Hi IH p b. destruct (decide (i = p)) as [->|].
    + rewrite lookup_insert_eq. intros [= ->]. pose proof (zlen_nonneg b). lia.
    + rewrite lookup_insert_ne by done. intros H. specialize (IH _ _ H). lia.
Qed.

Lemma next_block_pos blocks : 0 <= next_block blocks.
Proof. unfold next_block. apply (map_fold_weak_ind (fun n _ => 0 <= n)); [done|]. intros. lia. Qed.

Definition demo_malloc (blocks : gmap Z (list byte)) (size : Z) : option (Z * list byte) :=
  let p := next_block blocks in
  if p <? U64 then Some (p, replicate (Z.to_nat size) xff) else None.

Lemma demo_malloc_fresh blocks size p b :
  demo_malloc blocks size = Some (p, b) -> 0 <= size -> is_u64 p /\ blocks !! p = None /\ zlen b = size.
Proof.
  unfold demo_malloc. intros H Hs. destruct (Z.ltb_spec (next_block blocks) U64); [|done]. injection H as <- <-.
  pose proof (next_block_pos blocks). split_and!; [done| |by apply zlen_replicate].
  destruct (blocks !! next_block blocks) as [b|] eqn:E; [|done]. apply next_block_above in E. lia.
Qed.

#[export] Instance demo_heap : Malloc := {| c_malloc := demo_malloc; c_malloc_fresh := demo_malloc_fresh |}.

(** ** Properties *)

Definition copy_request (i : Z) (kind : MemcpyKind) (dst src size : Z) (data : option (list byte)) : GpuRequest :=
  mkGpuRequest MEMINFO_PROTOCOL_VERSION i CUDA_MEMCPY 0 size data kind dst src.

(** gpud trusts the sizes of a request.  Any client that knows the address of
    a block makes the stub read beyond it, or write beyond it, or read beyond the
    data of its own request, with one CUDA_MEMCPY whose [size] is larger; and a
    size the process cannot allocate throws through the callback and ends it. *)
Theorem gpu_sizes_trusted (W : GpuWire) (Mal : Malloc) resize s ptr b i size data e other :
  stub_ok s -> stub_blocks s !! ptr = Some b ->
  (zlen b < size -> resize size = None ->
     fst (gpu_handle_verified resize (copy_request i DEVICE_TO_HOST 0 ptr size None) s) = Undef) /\
  (zlen b < size \/ zlen data < size ->
     fst (gpu_handle_verified resize (copy_request i HOST_TO_DEVICE ptr 0 size (Some data)) s) = Undef) /\
  (resize size = Some e ->
     gpu_handle_verified resize (copy_request i DEVICE_TO_HOST 0 other size None) s = (Throw e, s)).
Proof.
  unfold stub_ok. intros Hs Hb. assert (Ha : stub_allocations_ s !! ptr = Some (zlen b)) by by rewrite Hs, lookup_fmap, Hb.
  unfold gpu_handle_verified, gpu_switch. cbn. split_and!.
  - intros Hn Hr. rewrite Hr. unfold stub_memcpyDtoH. munfold. by rewrite Ha, Hb, (proj2 (Z.ltb_lt _ _) Hn).
  - intros Hn. unfold stub_memcpyHtoD. munfold. rewrite Ha, Hb.
    destruct (Z.ltb_spec (zlen data) size), (Z.ltb_spec (zlen b) size); try done. lia.
  - intros Hr. by rewrite Hr.
Qed.

Definition demo_stub : CudaExecutorStub := mkStub {[4096 := 4]} {[4096 := [x01; x02; x03; x04]]}.

Lemma gpu_sizes_trusted_witness :
  fst (gpu_handle_verified (fun _ => None) (copy_request 1 DEVICE_TO_HOST 0 4096 5 None) demo_stub) = Undef.
Proof.
  refine (proj1 (gpu_sizes_trusted code_gpu_wire demo_heap (fun _ => None) demo_stub 4096 [x01; x02; x03; x04] 1 5 [] bad_alloc 0 _ _) _ _);
    vm_compute; reflexivity.
Defined.
