(* ===== verification/GpuClient.v ===== *)
(** * The GPU client

    [gpud/src/gpu_client.cpp]: a CUDA-like API whose calls are executed by a
    gpud.  A call queues a frame, wakes the loop and waits for the promise its
    reply fulfils.  [gpu_calls_transparent] composes it with [GpuDaemon]: over
    any cutting of the two byte streams, calls give what the device gives. *)

From S2P Require Import Prelude Framing Common MemoryProtocol GpuDaemon.

(** ** The client *)

Record GpuClient := mkGpuClient {
  gc_connected : bool;
  gc_read_buffer : list byte;
  pending_requests_ : gset Z;
  gc_resolved : gmap Z (list byte);   (* the promises that have their value *)
  next_request_id_ : Z;
  outbound_queue_ : list (list byte);
  gc_written : list (list byte)       (* what [uv_write] was given *)
}.

(** The constructor returns before the connection is there. *)
Definition GpuClient_new : GpuClient := mkGpuClient false [] ∅ ∅ 1 [] [].

Definition set_gc_buffer (b : list byte) (c : GpuClient) : GpuClient :=
  mkGpuClient (gc_connected c) b (pending_requests_ c) (gc_resolved c) (next_request_id_ c) (outbound_queue_ c) (gc_written c).
Definition set_gc_requests (ids : gset Z) (res : gmap Z (list byte)) (c : GpuClient) : GpuClient :=
  mkGpuClient (gc_connected c) (gc_read_buffer c) ids res (next_request_id_ c) (outbound_queue_ c) (gc_written c).
Definition set_gc_queues (out wr : list (list byte)) (c : GpuClient) : GpuClient :=
  mkGpuClient (gc_connected c) (gc_read_buffer c) (pending_requests_ c) (gc_resolved c) (next_request_id_ c) out wr.

Section client.
Context {W : GpuWire}.

(** The connect callback. *)
Definition gpu_on_connect (status : Z) (c : GpuClient) : GpuClient :=
  if status =? 0
  then mkGpuClient true (gc_read_buffer c) (pending_requests_ c) (gc_resolved c) (next_request_id_ c) (outbound_queue_ c) (gc_written c)
  else c.

(** The callback of [wakeup_async_]: without a connection the batch is dropped. *)
Definition gpu_on_wakeup (c : GpuClient) : GpuClient :=
  set_gc_queues [] (if gc_connected c then gc_written c ++ outbound_queue_ c else gc_written c) c.

(** [req_ctx->promise.set_value(frame)] for the pending call [id], if there is one. *)
Definition gpu_answer (id : Z) (frame : list byte) (c : GpuClient) : GpuClient :=
  if decide (id ∈ pending_requests_ c)
  then set_gc_requests (pending_requests_ c ∖ {[id]}) (<[id := frame]> (gc_resolved c)) c
  else c.

(** The loop of [on_peer_read].  [msg_size + 4] is computed on [uint32_t]; the
    table is read without a verifier, and beyond the buffer if the sum wrapped. *)
Fixpoint gpu_read_frames (fuel : nat) : M GpuClient unit :=
  let! c := get in
  let buf := gc_read_buffer c in
  if 4 <=? zlen buf then
    let msg_size := prefixed_size buf in
    if u32 (msg_size + 4) <=? zlen buf then
      match fuel with
      | O => nofuel
      | S fuel =>
          if zlen buf <? msg_size + 4 then undef
          else
            match read_gpu_response (slice 0 (msg_size + 4) buf) with
            | None => undef
            | Some resp =>
                do! (fun c => (Ret tt, gpu_answer (gp_request_id resp) (slice 0 (msg_size + 4) buf) c)) in
                do! (fun c => (Ret tt, set_gc_buffer (drop (Z.to_nat (msg_size + 4)) buf) c)) in
                gpu_read_frames fuel
            end
      end
    else ret tt
  else ret tt.

(** [data = None]: nread < 0, which is ignored. *)
Definition gpu_on_peer_read (data : option (list byte)) : M GpuClient unit :=
  match data with
  | None => ret tt
  | Some data =>
      if 0 <? zlen data then
        let! c := get in
        do! put (set_gc_buffer (gc_read_buffer c ++ data) c) in
        gpu_read_frames (length (gc_read_buffer c ++ data))
      else ret tt
  end.

(** [sync_remote_call] up to the wait. *)
Definition gpu_send (payload : list byte) (request_id : Z) (c : GpuClient) : GpuClient :=
  set_gc_queues (outbound_queue_ c ++ [payload]) (gc_written c)
    (set_gc_requests ({[request_id]} ∪ pending_requests_ c) (gc_resolved c) c).

(** [future.get()]: waits for ever if nothing fulfils the promise. *)
Definition gpu_future (request_id : Z) : M GpuClient (list byte) :=
  let! c := get in
  match gc_resolved c !! request_id with
  | Some frame => do! put (set_gc_requests (pending_requests_ c) (delete request_id (gc_resolved c)) c) in ret frame
  | None => nofuel
  end.

Definition gpu_next_id : M GpuClient Z :=
  let! c := get in
  do! put (mkGpuClient (gc_connected c) (gc_read_buffer c) (pending_requests_ c) (gc_resolved c)
             (u64 (next_request_id_ c + 1)) (outbound_queue_ c) (gc_written c)) in
  ret (next_request_id_ c).

(** *** The requests of the API *)

Definition malloc_request (i size : Z) : GpuRequest :=
  mkGpuRequest MEMINFO_PROTOCOL_VERSION i CUDA_MALLOC 0 size None HOST_TO_DEVICE 0 0.
Definition free_request (i devPtr : Z) : GpuRequest :=
  mkGpuRequest MEMINFO_PROTOCOL_VERSION i CUDA_FREE devPtr 0 None HOST_TO_DEVICE 0 0.
Definition HtoD_request (i dst : Z) (src : list byte) : GpuRequest :=
  mkGpuRequest MEMINFO_PROTOCOL_VERSION i CUDA_MEMCPY 0 (zlen src) (Some src) HOST_TO_DEVICE dst 0.
Definition DtoH_request (i src size : Z) : GpuRequest :=
  mkGpuRequest MEMINFO_PROTOCOL_VERSION i CUDA_MEMCPY 0 size None DEVICE_TO_HOST 0 src.
Definition properties_request (i : Z) : GpuRequest :=
  mkGpuRequest MEMINFO_PROTOCOL_VERSION i CUDA_GET_DEVICE_PROPERTIES 0 0 None HOST_TO_DEVICE 0 0.

(** What a call leaves in its out parameters: nothing, [*devPtr], the first bytes
    of [dst], or [name] (when the reply has one) and [totalGlobalMem]. *)
Inductive gpu_out :=
| OutNone
| OutPtr (p : Z)
| OutBytes (b : list byte)
| OutProps (name : option string) (total : Z).

Definition malloc_result (resp : GpuResponse) : Z * gpu_out :=
  (gp_error_code resp, if gp_error_code resp =? 0 then OutPtr (gp_device_ptr resp) else OutNone).
Definition plain_result (resp : GpuResponse) : Z * gpu_out := (gp_error_code resp, OutNone).
Definition DtoH_result (size : Z) (resp : GpuResponse) : Z * gpu_out :=
  (gp_error_code resp,
   match gp_data resp with
   | Some data => if gp_error_code resp =? 0 then OutBytes (slice 0 (Z.min size (zlen data)) data) else OutNone
   | None => OutNone
   end).
Definition properties_result (resp : GpuResponse) : Z * gpu_out :=
  (gp_error_code resp, if gp_error_code resp =? 0 then OutProps (gp_message resp) (gp_device_ptr resp) else OutNone).

(** The calls, with the data of the caller's buffers. *)
Inductive gpu_call :=
| cudaMalloc (size : Z)
| cudaFree (devPtr : Z)
| cudaMemcpyHtoD (dst : Z) (src : list byte)
| cudaMemcpyDtoH (src size : Z)
| cudaGetDeviceProperties.

Definition call_request (i : Z) (call : gpu_call) : GpuRequest :=
  match call with
  | cudaMalloc size => malloc_request i size
  | cudaFree p => free_request i p
  | cudaMemcpyHtoD dst src => HtoD_request i dst src
  | cudaMemcpyDtoH src size => DtoH_request i src size
  | cudaGetDeviceProperties => properties_request i
  end.

Definition call_result_of (call : gpu_call) : GpuResponse -> Z * gpu_out :=
  match call with
  | cudaMalloc _ => malloc_result
  | cudaFree _ | cudaMemcpyHtoD _ _ => plain_result
  | cudaMemcpyDtoH _ size => DtoH_result size
  | cudaGetDeviceProperties => properties_result
  end.

(** ** Reading replies *)

(** A reply and the frame it came in. *)
Definition read_framed (b : list byte) : option (GpuResponse * list byte) := (fun r => (r, b)) <$> read_gpu_response b.

Definition gpu_answers (msgs : list (GpuResponse * list byte)) (c : GpuClient) : GpuClient :=
  foldl (fun c m => gpu_answer (gp_request_id (fst m)) (snd m) c) c msgs.

Lemma gpu_answer_buffer i f b c : set_gc_buffer b (gpu_answer i f c) = gpu_answer i f (set_gc_buffer b c).
Proof. unfold gpu_answer. cbn. by case_decide. Qed.

Lemma gpu_answers_buffer msgs b c : set_gc_buffer b (gpu_answers msgs c) = gpu_answers msgs (set_gc_buffer b c).
Proof.
  unfold gpu_answers. revert c. induction msgs as [|m msgs IH]; intros c; [done|]. cbn [foldl].
  by rewrite IH, gpu_answer_buffer.
Qed.

Lemma gpu_read_frames_spec b msgs rest :
  deframe_with read_framed b msgs rest -> forall fuel c,
  (length b <= fuel)%nat -> gc_read_buffer c = b ->
  gpu_read_frames fuel c = (Ret tt, set_gc_buffer rest (gpu_answers msgs c)).
Proof.
  unfold read_framed. induction 1 as [b Hstop|b [r f] msgs rest H4 Hmax Hfit Hv Hd IH]; intros fuel c Hfuel Hb.
  - cbn [gpu_answers foldl]. assert (He : set_gc_buffer b c = c) by (destruct c; cbn in *; by subst). rewrite He.
    destruct fuel as [|fuel]; cbn [gpu_read_frames]; rewrite bind_get, Hb; unfold MAX_MESSAGE_SIZE in *;
      destruct (Z.leb_spec 4 (zlen b)); try done; pose proof (prefixed_size_nonneg b);
      rewrite u32_small by (unfold U32; lia); by zcase.
  - destruct fuel as [|fuel]; [unfold zlen in *; lia|]. pose proof (prefixed_size_nonneg b). unfold MAX_MESSAGE_SIZE in *.
    cbn [gpu_read_frames]. rewrite bind_get, Hb. rewrite u32_small by (unfold U32; lia). zcase.
    destruct (read_gpu_response (slice 0 (prefixed_size b + 4) b)) as [r'|]; [|done]. injection Hv as -> <-.
    unfold bind. rewrite IH; [|rewrite length_drop; unfold zlen in *; lia|done].
    rewrite !gpu_answers_buffer. unfold gpu_answers. cbn [foldl fst snd]. by rewrite <- gpu_answer_buffer.
Qed.

(** Chunks read one after the other. *)
Fixpoint gpu_receive (chunks : list (list byte)) : M GpuClient unit :=
  match chunks with
  | [] => ret tt
  | c :: chunks => do! gpu_on_peer_read (Some c) in gpu_receive chunks
  end.

Lemma gpu_on_peer_read_spec d msgs rest c :
  deframe_with read_framed (gc_read_buffer c ++ d) msgs rest ->
  deframe_with read_framed (gc_read_buffer c) [] (gc_read_buffer c) ->
  gpu_on_peer_read (Some d) c = (Ret tt, set_gc_buffer rest (gpu_answers msgs c)).
Proof.
  intros Hd Hq. cbn [gpu_on_peer_read]. destruct (Z.ltb_spec 0 (zlen d)) as [|Hz].
  - rewrite bind_get, bind_put. rewrite (gpu_read_frames_spec _ _ _ Hd); [|done..].
    by rewrite !gpu_answers_buffer.
  - assert (d = []) as -> by (destruct d; [done|]; unfold zlen in Hz; cbn in Hz; lia).
    rewrite app_nil_r in Hd. destruct (deframe_quiet _ _ _ _ Hq Hd) as [-> ->].
    by destruct c.
Qed.

Lemma gpu_receive_spec chunks : forall msgs rest c,
  deframe_with read_framed (gc_read_buffer c ++ concat chunks) msgs rest ->
  deframe_with read_framed (gc_read_buffer c) [] (gc_read_buffer c) ->
  gpu_receive chunks c = (Ret tt, set_gc_buffer rest (gpu_answers msgs c)).
Proof.
  induction chunks as [|d chunks IH]; intros msgs rest c Hd Hq; cbn [gpu_receive concat] in *.
  - rewrite app_nil_r in Hd. destruct (deframe_quiet _ _ _ _ Hq Hd) as [-> ->]. by destruct c.
  - rewrite app_assoc in Hd. destruct (deframe_prefix _ _ _ _ Hd) as (m1 & mid & m2 & H1 & H2 & ->).
    rewrite (bind_ret _ _ _ _ _ (gpu_on_peer_read_spec d m1 mid c H1 Hq)).
    assert (Hb : gc_read_buffer (set_gc_buffer mid (gpu_answers m1 c)) = mid) by done.
    rewrite (IH m2 rest); rewrite ?Hb; [|done|by eapply deframe_rest].
    rewrite <- gpu_answers_buffer. unfold gpu_answers. by rewrite foldl_app.
Qed.

(** ** Client and daemon *)

Context {X : Type} `{!ICudaExecutor X} `{!CudaExecutorTypes X} (resize : Z -> option exn).

Record GpuWorld := mkGpuWorld { gw_client : GpuClient; gw_server : GpuEnv (E := X) }.

Definition set_gw_client (c : GpuClient) (w : GpuWorld) : GpuWorld := mkGpuWorld c (gw_server w).
Definition set_gw_server (e : GpuEnv) (w : GpuWorld) : GpuWorld := mkGpuWorld (gw_client w) e.

(** The loops run and the network carries what was written, cut by [up] and [down]. *)
Definition exchange (up down : list byte -> list (list byte)) : M GpuWorld unit :=
  do! (fun w => (Ret tt, set_gw_client (gpu_on_wakeup (gw_client w)) w)) in
  let! w := get in
  let flight := concat (gc_written (gw_client w)) in
  do! put (set_gw_client (set_gc_queues (outbound_queue_ (gw_client w)) [] (gw_client w)) w) in
  do! zoom gw_server set_gw_server (gpu_deliver resize (up flight)) in
  let! w := get in
  let s := ge_session (gw_server w) in
  let flight := concat (gs_sent s) in
  do! put (set_gw_server (set_gpu_session (mkGpuSession (gs_read_buffer_ s) (gs_closing s) []) (gw_server w)) w) in
  zoom gw_client set_gw_client (gpu_receive (down flight)).

(** A call of the API. *)
Definition remote_gpu_call (up down : list byte -> list (list byte)) (call : gpu_call) : M GpuWorld (Z * gpu_out) :=
  let! req_id := zoom gw_client set_gw_client gpu_next_id in
  let payload := size_prefixed (gpu_request_table (call_request req_id call)) in
  do! (fun w => (Ret tt, set_gw_client (gpu_send payload req_id (gw_client w)) w)) in
  do! exchange up down in
  let! resp_data := zoom gw_client set_gw_client (gpu_future req_id) in
  match read_gpu_response resp_data with
  | Some resp => ret (call_result_of call resp)
  | None => undef
  end.

Fixpoint remote_gpu_run (up down : list byte -> list (list byte)) (calls : list gpu_call) : M GpuWorld (list (Z * gpu_out)) :=
  match calls with
  | [] => ret []
  | call :: calls =>
      let! r := remote_gpu_call up down call in
      let! rs := remote_gpu_run up down calls in
      ret (r :: rs)
  end.

(** The same calls on the device itself. *)
Definition device_call (call : gpu_call) : M X (Z * gpu_out) :=
  match call with
  | cudaMalloc size => let! r := cuda_allocate size in ret (fst r, if fst r =? 0 then OutPtr (snd r) else OutNone)
  | cudaFree p => let! err := cuda_free p in ret (err, OutNone)
  | cudaMemcpyHtoD dst src => let! err := memcpyHtoD dst src (zlen src) in ret (err, OutNone)
  | cudaMemcpyDtoH src size =>
      let! r := memcpyDtoH src size in
      ret (fst r, if (fst r =? 0) && (0 <? size) then OutBytes (snd r) else OutNone)
  | cudaGetDeviceProperties =>
      let! r := getDeviceProperties in
      let '(err, name, total) := r in
      ret (err, if err =? 0 then OutProps (Some name) total else OutNone)
  end.

Fixpoint device_run (calls : list gpu_call) : M X (list (Z * gpu_out)) :=
  match calls with
  | [] => ret []
  | call :: calls =>
      let! r := device_call call in
      let! rs := device_run calls in
      ret (r :: rs)
  end.

Definition gpu_call_ok (call : gpu_call) : Prop :=
  match call with
  | cudaMalloc size => is_u64 size
  | cudaFree p => is_u64 p
  | cudaMemcpyHtoD dst src => is_u64 dst /\ zlen src < U64
  | cudaMemcpyDtoH src size => is_u64 src /\ is_u64 size /\ resize size = None
  | cudaGetDeviceProperties => True
  end.

(** Every request and reply is a message the frames allow. *)
Fixpoint calls_fit (i : Z) (calls : list gpu_call) (x : X) : Prop :=
  match calls with
  | [] => True
  | call :: calls =>
      zlen (gpu_request_table (call_request i call)) < MAX_MESSAGE_SIZE /\
      match gpu_handle_verified resize (call_request i call) x with
      | (Ret r, x') => zlen (gpu_response_table r) < MAX_MESSAGE_SIZE /\ calls_fit (i + 1) calls x'
      | _ => False
      end
  end.

(** Requests of the API have the schema's types. *)
Lemma call_request_ok i call : is_u64 i -> gpu_call_ok call -> gpu_request_ok (call_request i call).
Proof.
  intros Hi Hc. assert (is_u64 0) by done. unfold gpu_request_ok.
  destruct call as [size|p|dst src|src size|]; cbn -[is_u64] in *; split_and!; try done; try apply Hc; try apply Hi; try lia.
  split; [apply zlen_nonneg|apply Hc].
Qed.

(** One call: the handler does what the device does, and the reply decodes to its result. *)
Lemma handle_call i call x res x' :
  is_u64 i -> gpu_call_ok call -> device_call call x = (Ret res, x') ->
  exists r, gpu_handle_verified resize (call_request i call) x = (Ret r, x') /\
    gp_request_id r = i /\ gpu_response_ok r /\ call_result_of call r = res.
Proof.
  intros Hi Hc Hd. unfold gpu_handle_verified. assert (H0 : is_u64 0) by done. unfold gpu_response_ok.
  destruct call as [size|p|dst src|src size|]; cbn -[is_u64 bind] in *;
    apply bind_inv_ret in Hd as (r & x1 & Hr & Hd).
  - destruct r as [err p]. injection Hd as <- <-. apply allocate_typed in Hr as Ht; [|apply Hc].
    rewrite bind_bind. rewrite (bind_ret _ _ _ _ _ Hr). by eexists.
  - injection Hd as <- <-. pose proof (free_typed _ _ _ _ Hr). rewrite bind_bind, (bind_ret _ _ _ _ _ Hr). by eexists.
  - injection Hd as <- <-. pose proof (HtoD_typed _ _ _ _ _ _ Hr). rewrite bind_bind, (bind_ret _ _ _ _ _ Hr). by eexists.
  - destruct Hc as (_ & Hs & Hrs). destruct r as [err b]. injection Hd as <- <-. destruct (DtoH_typed _ _ _ _ _ _ Hr) as [Ht Hl].
    rewrite Hrs. rewrite bind_bind, (bind_ret _ _ _ _ _ Hr). eexists. split; [reflexivity|]. split_and!; try done.
    unfold DtoH_result, gpu_response. cbn. destruct Hs as [Hs _]. rewrite (Hl Hs).
    destruct (Z.ltb_spec 0 size); [|by rewrite andb_false_r]. rewrite andb_true_r. destruct (err =? 0); [|done].
    rewrite (Hl Hs), Z.min_id. do 2 f_equal. rewrite <- (Hl Hs) at 1. apply slice_full.
  - destruct r as [[err name] total]. injection Hd as <- <-. destruct (properties_typed _ _ _ _ _ Hr) as [Ht Htot].
    rewrite bind_bind, (bind_ret _ _ _ _ _ Hr). unfold properties_result, gpu_response.
    destruct (err =? 0) eqn:He; eexists; (split; [reflexivity|]); cbn; by rewrite He.
Qed.

(** *** Between calls nothing is under way *)

Definition idle_client (i : Z) : GpuClient := mkGpuClient true [] ∅ ∅ i [] [].
Definition idle_world (i : Z) (x : X) : GpuWorld := mkGpuWorld (idle_client i) (mkGpuEnv x (mkGpuSession [] false [])).

Definition recuts (cut : list byte -> list (list byte)) : Prop := forall b, concat (cut b) = b.

Lemma deframe_none {A} (v : list byte -> option A) : deframe_with v [] [] [].
Proof. apply deframe_stop. left. done. Qed.

Lemma deframe_one {A} (v : list byte -> option A) t m :
  zlen t < MAX_MESSAGE_SIZE -> v (size_prefixed t) = Some m -> deframe_with v (size_prefixed t) [m] [].
Proof.
  intros Ht Hv. assert (Hz : zlen (size_prefixed t) = zlen t + 4).
  { unfold size_prefixed. rewrite zlen_app. unfold zlen at 1. rewrite length_le_bytes. lia. }
  assert (Hp : prefixed_size (size_prefixed t) = zlen t).
  { rewrite <- (app_nil_r (size_prefixed t)). apply prefixed_size_prefixed. unfold MAX_MESSAGE_SIZE, U32 in *. lia. }
  pose proof (zlen_nonneg t). apply deframe_step; rewrite ?Hp; try lia.
  - by rewrite <- Hz, slice_full.
  - rewrite drop_ge; [apply deframe_none|]. unfold zlen in *. lia.
Qed.

Lemma remote_gpu_call_spec up down i call x res x' :
  recuts up -> recuts down -> 0 <= i < U64 - 1 -> gpu_call_ok call ->
  zlen (gpu_request_table (call_request i call)) < MAX_MESSAGE_SIZE ->
  (forall r y, gpu_handle_verified resize (call_request i call) x = (Ret r, y) -> zlen (gpu_response_table r) < MAX_MESSAGE_SIZE) ->
  device_call call x = (Ret res, x') ->
  remote_gpu_call up down call (idle_world i x) = (Ret res, idle_world (i + 1) x').
Proof.
  intros Hup Hdown Hi Hc Hreq Hresp Hd. assert (Hiu : is_u64 i) by (unfold is_u64; lia).
  destruct (handle_call i call x res x' Hiu Hc Hd) as (r & Hr & Hid & Hrok & Hres). specialize (Hresp _ _ Hr).
  set (frame := size_prefixed (gpu_request_table (call_request i call))).
  assert (Hv : verify_gpu_request frame = Some (call_request i call)).
  { apply gpu_request_roundtrip; [by apply call_request_ok|]. unfold MAX_MESSAGE_SIZE, U32 in *. lia. }
  assert (Hread : read_gpu_response (gpu_frame r) = Some r).
  { apply gpu_response_roundtrip; [done|]. unfold MAX_MESSAGE_SIZE, U32 in *. lia. }
  unfold remote_gpu_call. erewrite bind_ret by (apply zoom_ret; reflexivity). cbn [next_request_id_ idle_world gw_client idle_client].
  fold frame. erewrite bind_ret by reflexivity.
  assert (Hex : exchange up down (set_gw_client (gpu_send frame i (mkGpuClient true [] ∅ ∅ (u64 (i + 1)) [] [])) (idle_world i x)) =
    (Ret tt, mkGpuWorld (mkGpuClient true [] ∅ {[i := gpu_frame r]} (i + 1) [] []) (mkGpuEnv x' (mkGpuSession [] false [])))).
  { unfold exchange. erewrite bind_ret by reflexivity. rewrite bind_get, bind_put. cbn.
    erewrite bind_ret; cycle 1.
    { apply zoom_ret. cbn. apply (gpu_deliver_spec resize _ [call_request i call] [] x _ [r] x').
      - cbn [gs_read_buffer_ app]. rewrite Hup, ?app_nil_r. by apply deframe_one.
      - apply deframe_none.
      - done.
      - cbn [serve_all]. by rewrite (bind_ret _ _ _ _ _ Hr). }
    rewrite bind_get, bind_put. cbn. erewrite zoom_ret; cycle 1.
    { apply (gpu_receive_spec _ [(r, gpu_frame r)] []).
      - cbn [gc_read_buffer app]. rewrite Hdown, ?app_nil_r. apply deframe_one; [done|]. unfold read_framed.
        change (size_prefixed (gpu_response_table r)) with (gpu_frame r). by rewrite Hread.
      - apply deframe_none. }
    unfold gpu_answers, gpu_answer. cbn. rewrite Hid, decide_True by set_solver. rewrite u64_small by lia.
    unfold set_gw_client, set_gc_buffer, set_gc_requests. cbn. do 3 f_equal. set_solver. }
  revert Hread Hex. generalize (gpu_frame r). intros fr Hread Hex.
  rewrite (bind_ret _ _ _ _ _ Hex). erewrite bind_ret; cycle 1.
  { apply zoom_ret. unfold gpu_future. rewrite bind_get. cbn. rewrite lookup_singleton_eq. reflexivity. }
  cbv beta. rewrite Hread, Hres. unfold ret, idle_world, idle_client, set_gw_client, set_gc_requests. cbn. by rewrite delete_singleton_eq.
Qed.

Lemma remote_run_spec up down calls : forall i x rs x',
  recuts up -> recuts down -> 0 <= i -> i + Z.of_nat (length calls) < U64 -> Forall gpu_call_ok calls -> calls_fit i calls x ->
  device_run calls x = (Ret rs, x') ->
  remote_gpu_run up down calls (idle_world i x) = (Ret rs, idle_world (i + Z.of_nat (length calls)) x').
Proof.
  induction calls as [|call calls IH]; intros i x rs x' Hup Hdown Hi Hlen Hok Hfit Hd; cbn [device_run remote_gpu_run length calls_fit] in *.
  { injection Hd as <- <-. by rewrite Z.add_0_r. }
  apply bind_inv_ret in Hd as (r & x1 & Hr & (rs' & x2 & Hs & [= <- <-])%bind_inv_ret).
  apply Forall_cons in Hok as [Hok1 Hok]. destruct Hfit as [Hreq Hfit].
  destruct (handle_call i call x r x1) as (resp & Hh & _); [unfold is_u64; lia|done|done|]. rewrite Hh in Hfit. destruct Hfit as [Hresp Hfit].
  erewrite bind_ret by (apply (remote_gpu_call_spec _ _ _ _ _ r x1); try done; [lia|]; intros ? ? He; rewrite Hh in He; by injection He as <- _).
  erewrite bind_ret by (apply (IH (i + 1) x1 rs' x2); try done; lia). unfold ret. do 2 f_equal. lia.
Qed.
End client.

(** ** Properties *)

(** C5: A program that uses a peer's GPU through the client gets, call by call,
    what it would get on the device itself: the same error codes, pointers and
    bytes, and the device ends in the same state, however TCP cuts the requests
    and the replies, and every call returns.  Conditions: the program starts calling
    once the client is connected, and the connection stays; no request or reply
    reaches the 64 MB at which its receiver closes the connection ([calls_fit]); the
    calls on the device itself return, and the daemon has room for what a copy back
    reads; fewer than 2^64 calls.  Outside of these calls
    can wait for ever: one made before the connection is there does
    ([early_call_hangs]). *)
Theorem gpu_calls_transparent (W : GpuWire) X `{!ICudaExecutor X} `{!CudaExecutorTypes X} resize up down calls x rs x' :
  recuts up -> recuts down -> Z.of_nat (length calls) < U64 - 1 ->
  Forall (gpu_call_ok resize) calls -> calls_fit resize 1 calls x ->
  device_run calls x = (Ret rs, x') ->
  exists w', remote_gpu_run resize up down calls
      (mkGpuWorld (gpu_on_connect 0 GpuClient_new) (mkGpuEnv x (GpuSession_new true))) = (Ret rs, w') /\
    ge_executor (gw_server w') = x' /\ pending_requests_ (gw_client w') = ∅.
Proof.
  intros Hup Hdown Hlen Hok Hfit Hd. eexists. split; [|split].
  - apply (remote_run_spec resize up down calls 1); try done. lia.
  - done.
  - done.
Qed.

Definition demo_calls : list gpu_call :=
  [cudaMalloc 4; cudaMemcpyHtoD 4096 [x01; x02; x03; x04]; cudaMemcpyDtoH 4096 3; cudaFree 4096; cudaFree 4096;
   cudaGetDeviceProperties].

Definition demo_results : list (Z * gpu_out) :=
  [(0, OutPtr 4096); (0, OutNone); (0, OutBytes [x01; x02; x03]); (0, OutNone); (11, OutNone);
   (0, OutProps (Some "Stubbed GPU (Host RAM)"%string) (1024 * 1024 * 1024))].

Definition byte_by_byte (b : list byte) : list (list byte) := (fun x => [x]) <$> b.

Lemma byte_by_byte_recuts : recuts byte_by_byte.
Proof. intros b. unfold byte_by_byte. induction b as [|x b IH]; cbn; [done|by rewrite IH]. Defined.

Lemma demo_calls_run : device_run demo_calls CudaExecutorStub_new = (Ret demo_results, mkStub ∅ ∅).
Proof. vm_compute. reflexivity. Qed.

Lemma demo_calls_fit : calls_fit (W := code_gpu_wire) (fun _ => None) 1 demo_calls CudaExecutorStub_new.
Proof. vm_compute. repeat split; discriminate. Qed.

Lemma demo_calls_ok : Forall (gpu_call_ok (fun _ => None)) demo_calls.
Proof. unfold demo_calls. repeat first [apply List.Forall_nil | apply List.Forall_cons; [vm_compute; try done; repeat split; done|]]. Qed.

Lemma gpu_calls_transparent_witness :
  exists w', remote_gpu_run (W := code_gpu_wire) (fun _ => None) byte_by_byte (fun b => [b]) demo_calls
      (mkGpuWorld (gpu_on_connect 0 GpuClient_new) (mkGpuEnv CudaExecutorStub_new (GpuSession_new true))) = (Ret demo_results, w') /\
    ge_executor (gw_server w') = mkStub ∅ ∅.
Proof.
  destruct (gpu_calls_transparent code_gpu_wire CudaExecutorStub (fun _ => None) byte_by_byte (fun b => [b]) demo_calls
    CudaExecutorStub_new demo_results (mkStub ∅ ∅) byte_by_byte_recuts (fun b => app_nil_r b) ltac:(vm_compute; reflexivity)
    demo_calls_ok demo_calls_fit demo_calls_run) as (w' & Hw & Hx & _).
  exists w'. split; [exact Hw|exact Hx].
Defined.

(** The constructor does not wait for the connection: a call made before it is
    there is dropped by the loop and waits for ever, even once connected. *)
Example early_call_hangs {W : GpuWire} :
  let c := gpu_on_connect 0 (gpu_on_wakeup (gpu_send (size_prefixed (gpu_request_table (malloc_request 1 4))) 1 GpuClient_new)) in
  pending_requests_ c = {[1]} /\ outbound_queue_ c = [] /\ gc_written c = [] /\ fst (gpu_future 1 c) = NoFuel.
Proof. split_and!; reflexivity. Qed.

(** A length that overflows [uint32_t] passes the test of the loop, which then reads beyond its buffer. *)
Example wrapped_length_overreads {W : GpuWire} :
  fst (gpu_on_peer_read (Some [xff; xff; xff; xff]) (gpu_on_connect 0 GpuClient_new)) = Undef.
Proof. vm_compute. reflexivity. Qed.
