(* ===== verification/Hook.v ===== *)
(** * The malloc interposer

    [hook/meminfo_hook.cpp]: a library loaded into a program, whose malloc,
    calloc, realloc and free put large blocks into a remote heap.  The memory of
    the remote heap is ordinary memory to the program ([HeapProgram]), so the
    contents of all blocks are one function here.  The C runtimes the program has
    loaded are a class: up to four of them, each with its own allocator. *)

From Stdlib Require Import Ascii.
From S2P Require Import Prelude HeapArena.

(** ** Configuration *)

Record HookConfig := mkHookConfig {
  remote_mode : bool;
  peer_ip : string;
  peer_port : Z;
  discovery_socket : string;
  threshold : Z;
  hook_heap_size : Z;
  budget : Z;
  hook_page_bytes : Z;
  max_local : Z;
  log_path : string
}.

(** [std::strtoull(text, &end, 10)]: the value and how many digits were read.
    Blanks and a sign may come first; a value too large reads as the largest. *)
Definition digit_value (c : ascii) : option Z :=
  let n := Z.of_nat (nat_of_ascii c) - 48 in
  if (0 <=? n) && (n <? 10) then Some n else None.

Fixpoint read_digits (l : list ascii) (v : Z) (n : Z) : Z * Z :=
  match l with
  | [] => (v, n)
  | c :: l =>
      match digit_value c with
      | Some d => read_digits l (v * 10 + d) (n + 1)
      | None => (v, n)
      end
  end.

Definition is_blank (c : ascii) : bool :=
  let n := Z.of_nat (nat_of_ascii c) in (n =? 32) || ((9 <=? n) && (n <=? 13)).

Fixpoint skip_blanks (l : list ascii) : list ascii :=
  match l with
  | c :: l' => if is_blank c then skip_blanks l' else l
  | [] => []
  end.

Definition strtoull (text : string) : Z * Z :=
  let l := skip_blanks (String.list_ascii_of_string text) in
  let '(neg, l) :=
    match l with
    | "-"%char :: l => (true, l)
    | "+"%char :: l => (false, l)
    | _ => (false, l)
    end in
  let '(v, n) := read_digits l 0 0 in
  (if U64 <=? v then U64 - 1 else if neg then u64 (- v) else v, n).

(** [env_string]: a variable that is unset, empty or longer than the buffer reads as the fallback. *)
Definition env_string (env : string -> option string) (name fallback : string) : string :=
  match env name with
  | None => fallback
  | Some v => let n := Z.of_nat (String.length v) in if (n =? 0) || (1024 <=? n) then fallback else v
  end.

Definition env_size (env : string -> option string) (name : string) (fallback : Z) : Z :=
  let text := env_string env name "" in
  if bool_decide (text = ""%string) then fallback
  else
    let '(value, digits) := strtoull text in
    if (digits =? 0) || (value =? 0) then fallback else value.

(** [static_cast<int>]. *)
Definition to_int (z : Z) : Z := let v := z mod 2 ^ 32 in if v <? 2 ^ 31 then v else v - 2 ^ 32.

Definition load_config (env : string -> option string) : HookConfig :=
  let page := env_size env "MEMINFO_PAGE" (64 * 1024) in
  let floor := u64 (page * 8) in
  let th := env_size env "MEMINFO_THRESHOLD" (2 ^ 20) in
  mkHookConfig (bool_decide (env_string env "MEMINFO_HOOK_MODE" "log" = "remote"%string))
    (env_string env "MEMINFO_PEER" "") (to_int (env_size env "MEMINFO_PORT" 9200))
    (env_string env "MEMINFO_SOCKET" "meminfo_discovery_ctl")
    (if th <? floor then floor else th)
    (env_size env "MEMINFO_HEAP_SIZE" (4 * 2 ^ 30)) (env_size env "MEMINFO_BUDGET" (512 * 2 ^ 20)) page
    (env_size env "MEMINFO_MAX_LOCAL" (2 ^ 20)) (env_string env "MEMINFO_LOG" "meminfo_hook.log").

(** ** The real allocators *)

(** The C runtimes of the process, by slot: their live blocks (address and
    size) and the functions the hooks keep as trampolines.  0 is the null pointer. *)
Class Crt (R : Type) := {
  crt_blocks : R -> nat -> gmap Z Z;
  real_malloc : nat -> Z -> R -> Z * R;
  real_calloc : nat -> Z -> Z -> R -> Z * R;
  real_realloc : nat -> Z -> Z -> R -> Z * R;
  real_free : nat -> Z -> R -> R;
  has_msize : nat -> bool
}.

(** ** The state of the library *)

Record HookCounters := mkCounters {
  g_redirected : Z;
  g_redirected_bytes : Z;
  g_passed_through : Z;
  g_large_seen : Z;
  g_large_bytes : Z
}.

Section hook.
Context {R : Type} `{!Crt R}.

(** [servicing]: [RemoteHeap::servicing_fault()] on this thread. *)
Record Hook := mkHook {
  g_config : HookConfig;
  g_depth : Z;
  servicing : bool;
  g_arena : option HeapArena;
  g_ready : bool;
  g_failed : bool;
  g_counters : HookCounters;
  g_crt : R;
  g_mem : Z -> byte
}.

Definition set_depth (d : Z) (h : Hook) : Hook :=
  mkHook (g_config h) d (servicing h) (g_arena h) (g_ready h) (g_failed h) (g_counters h) (g_crt h) (g_mem h).
Definition set_arena (a : option HeapArena) (ready failed : bool) (h : Hook) : Hook :=
  mkHook (g_config h) (g_depth h) (servicing h) a ready failed (g_counters h) (g_crt h) (g_mem h).
Definition set_counters (k : HookCounters) (h : Hook) : Hook :=
  mkHook (g_config h) (g_depth h) (servicing h) (g_arena h) (g_ready h) (g_failed h) k (g_crt h) (g_mem h).
Definition set_crt (r : R) (h : Hook) : Hook :=
  mkHook (g_config h) (g_depth h) (servicing h) (g_arena h) (g_ready h) (g_failed h) (g_counters h) r (g_mem h).
Definition set_mem (m : Z -> byte) (h : Hook) : Hook :=
  mkHook (g_config h) (g_depth h) (servicing h) (g_arena h) (g_ready h) (g_failed h) (g_counters h) (g_crt h) m.

Definition modify {S} (f : S -> S) : M S unit := fun s => (Ret tt, f s).

(** [Reentry]: the destructor runs however the block is left. *)
Definition with_reentry {A} (c : M Hook A) : M Hook A :=
  fun h => let '(o, h') := c (set_depth (g_depth h + 1) h) in (o, set_depth (g_depth h' - 1) h').

Definition should_pass_through (h : Hook) : bool := (0 <? g_depth h) || servicing h.

(** *** Memory *)

(** [memset(p, 0, n)] and [memcpy(dst, src, n)]. *)
Definition fill (p n : Z) (m : Z -> byte) : Z -> byte := fun x => if (p <=? x) && (x <? p + n) then x00 else m x.
Definition copy (dst src n : Z) (m : Z -> byte) : Z -> byte :=
  fun x => if (dst <=? x) && (x <? dst + n) then m (x - dst + src) else m x.

(** *** Calls of the trampolines: a pointer the runtime did not hand out corrupts its heap. *)

Definition call_malloc (slot : nat) (bytes : Z) : M Hook Z :=
  let! h := get in
  let '(p, r) := real_malloc slot bytes (g_crt h) in
  do! put (set_crt r h) in ret p.

Definition call_calloc (slot : nat) (count size : Z) : M Hook Z :=
  let! h := get in
  let '(p, r) := real_calloc slot count size (g_crt h) in
  do! put (set_crt r h) in
  do! modify (fun h => if p =? 0 then h else set_mem (fill p (count * size) (g_mem h)) h) in
  ret p.

Definition call_free (slot : nat) (p : Z) : M Hook unit :=
  let! h := get in
  if p =? 0 then ret tt
  else
    match crt_blocks (g_crt h) slot !! p with
    | None => undef
    | Some _ => put (set_crt (real_free slot p (g_crt h)) h)
    end.

Definition call_msize (slot : nat) (p : Z) : M Hook Z :=
  let! h := get in
  match crt_blocks (g_crt h) slot !! p with
  | None => undef
  | Some n => ret n
  end.

Definition call_realloc (slot : nat) (p bytes : Z) : M Hook Z :=
  let! h := get in
  match crt_blocks (g_crt h) slot !! p with
  | None => undef
  | Some n =>
      let '(q, r) := real_realloc slot p bytes (g_crt h) in
      do! put (set_crt r h) in
      do! modify (fun h => if q =? 0 then h else set_mem (copy q p (Z.min n bytes) (g_mem h)) h) in
      ret q
  end.

(** *** The remote heap *)

(** [init]: what building the client, the heap and the arena gives, the base and
    the size of the region, or [None] when one of them throws. *)
Definition ensure_initialized (init : option (Z * Z)) : M Hook bool :=
  let! h := get in
  if g_ready h then ret true
  else if g_failed h then ret false
  else
    match init with
    | Some (base, len) => do! put (set_arena (Some (HeapArena_new base len)) true (g_failed h) h) in ret true
    | None => do! put (set_arena None (g_ready h) true h) in ret false
    end.

Definition note_large (bytes : Z) : M Hook unit :=
  modify (fun h => let k := g_counters h in
    set_counters (mkCounters (g_redirected k) (g_redirected_bytes k) (g_passed_through k)
                    (u64 (g_large_seen k + 1)) (u64 (g_large_bytes k + bytes))) h).

Definition note_redirected (bytes : Z) : M Hook unit :=
  modify (fun h => let k := g_counters h in
    set_counters (mkCounters (u64 (g_redirected k + 1)) (u64 (g_redirected_bytes k + bytes)) (g_passed_through k)
                    (g_large_seen k) (g_large_bytes k)) h).

Definition note_passed : M Hook unit :=
  modify (fun h => let k := g_counters h in
    set_counters (mkCounters (g_redirected k) (g_redirected_bytes k) (u64 (g_passed_through k + 1))
                    (g_large_seen k) (g_large_bytes k)) h).

(** A null [g_state.arena] is dereferenced. *)
Definition remote_allocate (init : option (Z * Z)) (bytes alignment : Z) : M Hook Z :=
  let! h := get in
  if negb (remote_mode (g_config h)) then ret 0
  else
    let! ok := ensure_initialized init in
    if negb ok then ret 0
    else
      let! h := get in
      match g_arena h with
      | None => undef
      | Some a =>
          let '(p, a') := arena_allocate bytes alignment a in
          do! put (set_arena (Some a') (g_ready h) (g_failed h) h) in
          do! (if p =? 0 then ret tt else note_redirected bytes) in
          ret p
      end.

Definition arena_owns (p : Z) (h : Hook) : bool :=
  g_ready h && match g_arena h with Some a => owns p a | None => false end.

Definition arena_release (p : Z) : M Hook unit :=
  let! h := get in
  match g_arena h with
  | None => undef
  | Some a => put (set_arena (Some (arena_deallocate p a)) (g_ready h) (g_failed h) h)
  end.

Definition arena_block_size (p : Z) : M Hook Z :=
  let! h := get in
  match g_arena h with
  | None => undef
  | Some a => ret (block_size p a)
  end.

(** ** The hooks *)

Definition hooked_malloc (init : option (Z * Z)) (slot : nat) (bytes : Z) : M Hook Z :=
  let! h := get in
  if (bytes <? threshold (g_config h)) || should_pass_through h then
    do! note_passed in call_malloc slot bytes
  else
    with_reentry (
      do! note_large bytes in
      let! p := remote_allocate init bytes 16 in
      if negb (p =? 0) then ret p else call_malloc slot bytes).

Definition hooked_calloc (init : option (Z * Z)) (slot : nat) (count size : Z) : M Hook Z :=
  let! h := get in
  if negb (count =? 0) && (SIZE_MAX / count <? size) then ret 0
  else
    let bytes := count * size in
    if (bytes <? threshold (g_config h)) || should_pass_through h then call_calloc slot count size
    else
      with_reentry (
        do! note_large bytes in
        let! p := remote_allocate init bytes 16 in
        if p =? 0 then call_calloc slot count size
        else do! modify (fun h => set_mem (fill p bytes (g_mem h)) h) in ret p).

Definition hooked_free (slot : nat) (p : Z) : M Hook unit :=
  let! h := get in
  if negb (p =? 0) && arena_owns p h then with_reentry (arena_release p)
  else call_free slot p.

Definition hooked_msize (slot : nat) (p : Z) : M Hook Z :=
  let! h := get in
  if negb (p =? 0) && arena_owns p h then with_reentry (arena_block_size p)
  else call_msize slot p.

Definition hooked_realloc (init : option (Z * Z)) (slot : nat) (p bytes : Z) : M Hook Z :=
  let! h := get in
  if p =? 0 then hooked_malloc init slot bytes
  else if bytes =? 0 then do! hooked_free slot p in ret 0
  else if arena_owns p h then
    with_reentry (
      let! old_bytes := arena_block_size p in
      let! q := remote_allocate init bytes 16 in
      let! dst := (if q =? 0 then call_malloc slot bytes else ret q) in
      if dst =? 0 then ret 0
      else
        do! modify (fun h => set_mem (copy dst p (if old_bytes <? bytes then old_bytes else bytes) (g_mem h)) h) in
        do! arena_release p in
        ret dst)
  else if (bytes <? threshold (g_config h)) || should_pass_through h || negb (has_msize slot) then
    call_realloc slot p bytes
  else
    with_reentry (
      do! note_large bytes in
      let! old_bytes := call_msize slot p in
      let! dst := remote_allocate init bytes 16 in
      if dst =? 0 then call_realloc slot p bytes
      else
        do! modify (fun h => set_mem (copy dst p (if old_bytes <? bytes then old_bytes else bytes) (g_mem h)) h) in
        do! call_free slot p in
        ret dst).

(** [DLL_PROCESS_DETACH]: the objects are abandoned; [ready] stays set. *)
Definition on_detach (h : Hook) : Hook := set_arena None (g_ready h) (g_failed h) h.

(** ** What the runtimes promise *)

(** Two blocks share no byte; a block of no bytes has an address of its own. *)
Definition apart (p n q m : Z) : Prop := p + Z.max n 1 <= q \/ q + Z.max m 1 <= p.

Definition crt_same (r r' : R) : Prop := forall s, crt_blocks r' s = crt_blocks r s.

Definition crt_changed (r r' : R) (slot : nat) (f : gmap Z Z -> gmap Z Z) : Prop :=
  forall s, crt_blocks r' s = if decide (s = slot) then f (crt_blocks r s) else crt_blocks r s.

(** A call that allocates: null and nothing happens, or a new block. *)
Definition crt_allocates (slot : nat) (n : Z) (r : R) (res : Z * R) : Prop :=
  (fst res = 0 /\ crt_same r (snd res)) \/
  (fst res <> 0 /\ crt_blocks r slot !! fst res = None /\ crt_changed r (snd res) slot <[fst res := n]>).

(** The documented behaviour of malloc, calloc, realloc and free, on a state that
    nobody has corrupted; no runtime hands out addresses of a region that
    [VirtualAlloc] gave to somebody else. *)
Class CrtLaws (base len : Z) := {
  crt_ok : R -> Prop;
  crt_block_range : forall r s p n, crt_ok r -> crt_blocks r s !! p = Some n ->
    0 < p /\ 0 <= n /\ p + Z.max n 1 <= U64 /\ (p + Z.max n 1 <= base \/ base + len <= p);
  crt_blocks_apart : forall r s p n s' q m, crt_ok r -> crt_blocks r s !! p = Some n -> crt_blocks r s' !! q = Some m ->
    (s, p) <> (s', q) -> apart p n q m;
  malloc_law : forall r slot n, crt_ok r -> 0 <= n < U64 ->
    crt_ok (snd (real_malloc slot n r)) /\ crt_allocates slot n r (real_malloc slot n r);
  calloc_law : forall r slot count size, crt_ok r -> 0 <= count * size < U64 ->
    crt_ok (snd (real_calloc slot count size r)) /\ crt_allocates slot (count * size) r (real_calloc slot count size r);
  realloc_law : forall r slot p n0 n, crt_ok r -> 0 < n < U64 -> crt_blocks r slot !! p = Some n0 ->
    let res := real_realloc slot p n r in
    crt_ok (snd res) /\
    ((fst res = 0 /\ crt_same r (snd res)) \/
     (fst res <> 0 /\ crt_changed r (snd res) slot (fun m => <[fst res := n]> (delete p m)) /\
        delete p (crt_blocks r slot) !! fst res = None));
  free_law : forall r slot p, crt_ok r -> is_Some (crt_blocks r slot !! p) ->
    crt_ok (real_free slot p r) /\ crt_changed r (real_free slot p r) slot (delete p)
}.

(** ** The blocks of the program *)

(** A block of [n] bytes at [p] that [free] of the runtime in [slot] takes. *)
Definition live (h : Hook) (slot : nat) (p n : Z) : Prop :=
  (exists a, g_arena h = Some a /\ live_blocks_ a !! (p - base_ a) = Some n) \/ crt_blocks (g_crt h) slot !! p = Some n.

Context (base len : Z) `{!CrtLaws base len} (Hregion : 0 < base /\ 0 < len /\ base + len < U64).

Record hook_ok (h : Hook) : Prop := {
  ho_crt : crt_ok (g_crt h);
  ho_arena : forall a, g_arena h = Some a -> arena_wf a /\ base_ a = base /\ size_ a = len;
  ho_ready : g_ready h = bool_decide (is_Some (g_arena h));
  ho_threshold : 0 < threshold (g_config h)
}.

(** Building the client either fails or gives the region. *)
Definition init_ok (init : option (Z * Z)) : Prop := init = None \/ init = Some (base, len).

(** Every block of [h] but those at [p] is there with its bytes in [h']. *)
Definition keeps_but (p : Z) (h h' : Hook) : Prop :=
  forall s q m, live h s q m -> q <> p -> live h' s q m /\ forall x, q <= x < q + m -> g_mem h' x = g_mem h x.

(** A new block of [n] bytes at [p], apart from every other. *)
Record new_block (h : Hook) (slot : nat) (n p : Z) (h' : Hook) : Prop := {
  nb_null : p <> 0;
  nb_live : live h' slot p n;
  nb_apart : forall s q m, live h s q m -> apart p n q m;
  nb_only : forall s q m, live h' s q m -> live h s q m \/ (q = p /\ m = n)
}.

(** Nothing is lost, and there is one block more, or none and the result is null. *)
Record alloc_post (h : Hook) (slot : nat) (n p : Z) (h' : Hook) : Prop := {
  ap_ok : hook_ok h';
  ap_keeps : keeps_but 0 h h';
  ap_new : (p = 0 /\ forall s q m, live h' s q m -> live h s q m) \/ new_block h slot n p h'
}.

(** The depth and the counters do not matter to the blocks. *)
Definition same_heap (h h' : Hook) : Prop :=
  g_arena h = g_arena h' /\ g_ready h = g_ready h' /\ g_crt h = g_crt h' /\ g_mem h = g_mem h' /\ g_config h = g_config h'.

#[export] Instance same_heap_equiv : Equivalence same_heap.
Proof.
  split; [by intros ?|by intros ? ? (? & ? & ? & ? & ?)|].
  intros h1 h2 h3 (E1 & E2 & E3 & E4 & E5) (F1 & F2 & F3 & F4 & F5). split_and!; etrans; done.
Qed.

#[export] Instance live_proper : Proper (same_heap ==> eq ==> eq ==> eq ==> iff) live.
Proof. intros h h' (E1 & _ & E3 & _) s ? <- q ? <- m ? <-. unfold live. by rewrite E1, E3. Qed.

#[export] Instance hook_ok_proper : Proper (same_heap ==> iff) hook_ok.
Proof.
  assert (Hi : forall h h', same_heap h h' -> hook_ok h -> hook_ok h').
  { intros h h' (E1 & E2 & E3 & _ & E5) [H1 H2 H3 H4].
    split; [by rewrite <- E3|by rewrite <- E1|by rewrite <- E1, <- E2|by rewrite <- E5]. }
  intros h h' E. split; apply Hi; [done|by symmetry].
Qed.

#[export] Instance keeps_but_proper : Proper (eq ==> same_heap ==> same_heap ==> iff) keeps_but.
Proof.
  assert (Hi : forall p h1 h1' h2 h2', same_heap h1 h1' -> same_heap h2 h2' -> keeps_but p h1 h2 -> keeps_but p h1' h2').
  { intros p h1 h1' h2 h2' E1 E2 Hk s q m Hl Hq. rewrite <- E1 in Hl. rewrite <- E2.
    destruct (Hk s q m Hl Hq) as [Hl' Hm]. split; [done|]. destruct E1 as (_ & _ & _ & <- & _), E2 as (_ & _ & _ & <- & _). done. }
  intros p ? <- h1 h1' E1 h2 h2' E2. split; apply Hi; done || by symmetry.
Qed.

#[export] Instance alloc_post_proper : Proper (same_heap ==> eq ==> eq ==> eq ==> same_heap ==> iff) alloc_post.
Proof.
  assert (Hi : forall h1 h1' s n p h2 h2', same_heap h1 h1' -> same_heap h2 h2' -> alloc_post h1 s n p h2 -> alloc_post h1' s n p h2').
  { intros h1 h1' s n p h2 h2' E1 E2 [H1 H2 H3]. split; [by rewrite <- E2|by rewrite <- E1, <- E2|].
    destruct H3 as [[Hp Ho]|[Ha Hb Hc Hd]]; [left|right].
    - split; [done|]. intros s' q m. rewrite <- E1, <- E2. apply Ho.
    - split; [done|by rewrite <- E2| |]; intros s' q m; rewrite <- ?E1, <- ?E2; [apply Hc|apply Hd]. }
  intros h1 h1' E1 s ? <- n ? <- p ? <- h2 h2' E2. split; apply Hi; done || by symmetry.
Qed.

(** Where blocks lie. *)
Lemma live_range h s p n : hook_ok h -> live h s p n -> 0 < p /\ 0 <= n /\ p + n < U64 + 1.
Proof.
  intros [Hc Ha _ _] [(a & Hga & Hl)|Hl].
  - destruct (Ha a Hga) as (Hwf & Hb & Hs). destruct (aw_live _ Hwf _ _ Hl). destruct (aw_range _ Hwf) as (? & ? & ?). lia.
  - destruct (crt_block_range _ _ _ _ Hc Hl) as (? & ? & ? & _). lia.
Qed.

Lemma live_apart h s p n s' q m :
  hook_ok h -> live h s p n -> live h s' q m -> p <> q -> apart p n q m.
Proof.
  intros [Hc Ha _ _] [(a & Hga & Hl)|Hl] [(a' & Hga' & Hl')|Hl'] Hne.
  - rewrite Hga in Hga'. injection Hga' as <-. destruct (Ha a Hga) as (Hwf & _ & _).
    pose proof (aw_live _ Hwf _ _ Hl). pose proof (aw_live _ Hwf _ _ Hl').
    assert (Hd : disjoint_blocks (p - base_ a) n (q - base_ a) m) by (apply (aw_live_apart _ Hwf _ _ _ _ Hl Hl'); lia).
    unfold disjoint_blocks, apart in *. lia.
  - destruct (Ha a Hga) as (Hwf & Hb & Hs). pose proof (aw_live _ Hwf _ _ Hl).
    destruct (crt_block_range _ _ _ _ Hc Hl') as (? & ? & ? & ?). unfold apart. lia.
  - destruct (Ha a' Hga') as (Hwf & Hb & Hs). pose proof (aw_live _ Hwf _ _ Hl').
    destruct (crt_block_range _ _ _ _ Hc Hl) as (? & ? & ? & ?). unfold apart. lia.
  - eapply crt_blocks_apart; [exact Hc|exact Hl|exact Hl'|congruence].
Qed.

(** ** Allocation *)

Lemma keeps_but_refl p h : keeps_but p h h.
Proof. by intros s q m Hl _. Qed.

Lemma keeps_but_trans p h h1 h2 : keeps_but p h h1 -> keeps_but p h1 h2 -> keeps_but p h h2.
Proof.
  intros H1 H2 s q m Hl Hq. destruct (H1 s q m Hl Hq) as [Hl1 Hm1]. destruct (H2 s q m Hl1 Hq) as [Hl2 Hm2].
  split; [done|]. intros x Hx. by rewrite Hm2, Hm1.
Qed.

Lemma keeps_but_0 p h h' : keeps_but 0 h h' -> hook_ok h -> keeps_but p h h'.
Proof. intros Hk Hok s q m Hl _. apply Hk; [done|]. destruct (live_range _ _ _ _ Hok Hl). lia. Qed.

(** Allocating nothing first changes nothing. *)
Lemma alloc_post_trans h slot n p h1 h2 :
  hook_ok h -> alloc_post h slot n 0 h1 -> alloc_post h1 slot n p h2 -> alloc_post h slot n p h2.
Proof.
  intros Hok [Hok1 Hk1 [[_ Ho1]|Hn1]] [Hok2 Hk2 Hn2]; [|by destruct (nb_null _ _ _ _ _ Hn1)].
  split; [done|by eapply keeps_but_trans|]. destruct Hn2 as [[-> Ho2]|[Hp Hl Ha Ho2]]; [left|right].
  - split; [done|]. auto.
  - split; [done|done| |].
    + intros s q m Hq. apply (Ha s). apply Hk1; [done|]. destruct (live_range _ _ _ _ Hok Hq). lia.
    + intros s q m Hq. destruct (Ho2 s q m Hq) as [|]; auto.
Qed.

Lemma crt_same_live h r : crt_same (g_crt h) r -> forall s q m, live (set_crt r h) s q m <-> live h s q m.
Proof. intros Hs s q m. unfold live. cbn. by rewrite Hs. Qed.

Lemma crt_allocates_post h slot n res :
  hook_ok h -> 0 <= n -> crt_ok (snd res) -> crt_allocates slot n (g_crt h) res ->
  alloc_post h slot n (fst res) (set_crt (snd res) h).
Proof.
  intros Hok Hn Hc Hal. destruct res as [p r]. cbn [fst snd] in *. destruct Hal as [[Hp Hs]|(Hp & Hf & Hs)]; cbn [fst snd] in *.
  - subst p. pose proof (crt_same_live h r Hs) as Hl. split.
    + destruct Hok. by split.
    + intros s q m Hq _. split; [by apply Hl|done].
    + left. split; [done|]. intros s q m. apply Hl.
  - assert (Hok' : hook_ok (set_crt r h)) by (destruct Hok; by split).
    assert (Hnew : live (set_crt r h) slot p n).
    { right. cbn. rewrite Hs, decide_True by done. apply lookup_insert_eq. }
    assert (Hkeep : forall s q m, live h s q m -> live (set_crt r h) s q m).
    { intros s q m [Ha|Hq]; [by left|right]. cbn. rewrite Hs. case_decide; [|done]. subst s.
      rewrite lookup_insert_ne; [done|congruence]. }
    split; [done|intros s q m Hq _; split; [by apply Hkeep|done]|right]. split; [done|done| |].
    + intros s q m Hq. eapply live_apart; [exact Hok'|exact Hnew|by apply Hkeep|].
      intros ->. destruct Hq as [(a & Ha & Hq)|Hq].
      * destruct (crt_block_range (base := base) (len := len) r slot q n Hc) as (_ & _ & _ & Hr).
        { rewrite Hs, decide_True by done. apply lookup_insert_eq. }
        destruct (ho_arena _ Hok a Ha) as (Hwf & Hb & Hsz). pose proof (aw_live _ Hwf _ _ Hq). lia.
      * destruct (decide (s = slot)) as [->|Hne]; [congruence|].
        assert (H1 : crt_blocks r slot !! q = Some n) by (rewrite Hs, decide_True by done; apply lookup_insert_eq).
        assert (H2 : crt_blocks r s !! q = Some m) by by rewrite Hs, decide_False.
        pose proof (crt_blocks_apart (base := base) (len := len) r slot q n s q m Hc H1 H2 ltac:(congruence)) as Hd.
        unfold apart in Hd. lia.
    + intros s q m [Ha|Hq]; [by left; left|]. cbn in Hq. rewrite Hs in Hq. case_decide; [|by left; right]. subst s.
      destruct (decide (q = p)) as [->|]; [rewrite lookup_insert_eq in Hq; injection Hq as <-; by right|].
      rewrite lookup_insert_ne in Hq by done. left. by right.
Qed.

Lemma call_malloc_spec slot n h :
  hook_ok h -> 0 <= n < U64 -> wp (call_malloc slot n) (alloc_post h slot n) (fun _ _ => False) h.
Proof.
  intros Hok Hn. destruct (malloc_law (base := base) (len := len) (g_crt h) slot n (ho_crt _ Hok) Hn) as [Hc Hal].
  pose proof (crt_allocates_post h slot n _ Hok ltac:(lia) Hc Hal) as Hp.
  destruct (real_malloc slot n (g_crt h)) as [p r] eqn:E. eapply wp_run; [|exact Hp].
  unfold call_malloc. rewrite bind_get, E, bind_put. done.
Qed.

(** [fill] and [copy] write one range. *)
Lemma fill_in p n m x : p <= x < p + n -> fill p n m x = x00.
Proof. intros Hx. unfold fill. by rewrite (proj2 (Z.leb_le p x)), (proj2 (Z.ltb_lt x (p + n))) by lia. Qed.

Lemma fill_out p n m x : x < p \/ p + n <= x -> fill p n m x = m x.
Proof. intros Hx. unfold fill. destruct (Z.leb_spec p x), (Z.ltb_spec x (p + n)); done || lia. Qed.

Lemma copy_in dst src n m x : 0 <= x < n -> copy dst src n m (dst + x) = m (src + x).
Proof.
  intros Hx. unfold copy. rewrite (proj2 (Z.leb_le _ _)), (proj2 (Z.ltb_lt _ _)) by lia. cbn [andb]. f_equal. lia.
Qed.

Lemma copy_out dst src n m x : x < dst \/ dst + n <= x -> copy dst src n m x = m x.
Proof. intros Hx. unfold copy. destruct (Z.leb_spec dst x), (Z.ltb_spec x (dst + n)); done || lia. Qed.

(** Zeroing a new block touches no other. *)
Lemma fill_post h slot n p h' :
  alloc_post h slot n p h' -> p <> 0 -> alloc_post h slot n p (set_mem (fill p n (g_mem h')) h').
Proof.
  intros [Hok Hk Hn] Hp. destruct Hn as [[-> _]|Hn]; [done|]. split; [destruct Hok; by split| |right; destruct Hn; by split].
  intros s q m Hq Hq0. destruct (Hk s q m Hq Hq0) as [Hl Hm]. split; [done|]. intros x Hx. rewrite <- Hm by done.
  cbn. apply fill_out. pose proof (nb_apart _ _ _ _ _ Hn s q m Hq) as Hd. unfold apart in Hd. lia.
Qed.

Lemma call_calloc_spec slot count size h :
  hook_ok h -> 0 <= count * size < U64 ->
  wp (call_calloc slot count size)
    (fun p h' => alloc_post h slot (count * size) p h' /\
       (p <> 0 -> forall x, p <= x < p + count * size -> g_mem h' x = x00)) (fun _ _ => False) h.
Proof.
  intros Hok Hn. destruct (calloc_law (base := base) (len := len) (g_crt h) slot count size (ho_crt _ Hok) Hn) as [Hc Hal].
  pose proof (crt_allocates_post h slot (count * size) _ Hok ltac:(lia) Hc Hal) as Hp.
  destruct (real_calloc slot count size (g_crt h)) as [p r] eqn:E. cbn [fst snd] in Hp.
  unfold call_calloc. unfold wp. rewrite bind_get, E, bind_put. unfold modify, bind. cbn.
  destruct (Z.eqb_spec p 0) as [->|Hne]; [by split|]. split; [by apply (fill_post _ _ _ _ _ Hp)|].
  intros _ x Hx. by apply fill_in.
Qed.

Lemma alloc_post_none h slot n : hook_ok h -> alloc_post h slot n 0 h.
Proof. intros Hok. split; [done|apply keeps_but_refl|by left]. Qed.

Lemma wp_reentry {A} (c : M Hook A) Q E h :
  wp c (fun a h' => Q a (set_depth (g_depth h' - 1) h')) (fun e h' => E e (set_depth (g_depth h' - 1) h'))
    (set_depth (g_depth h + 1) h) -> wp (with_reentry c) Q E h.
Proof. unfold wp, with_reentry. by destruct (c (set_depth (g_depth h + 1) h)) as [[]]. Qed.

Lemma wp_modify {A} f (c : M Hook A) Q E h : wp c Q E (f h) -> wp (do! modify f in c) Q E h.
Proof. done. Qed.

(** The arena gets the block. *)
Lemma arena_block_post h slot n a p a' :
  hook_ok h -> 0 < n < U64 -> g_arena h = Some a -> arena_allocate n 16 a = (p, a') ->
  alloc_post h slot n p (set_arena (Some a') (g_ready h) (g_failed h) h).
Proof.
  intros Hok Hn Ha E. destruct (ho_arena _ Hok a Ha) as (Hwf & Hb & Hs).
  assert (Hv : valid_request n 16) by (split; [done|by exists 4]).
  destruct (arena_allocate_block a n 16 p a' Hwf Hv E) as [[-> ->]|(Hp & Hwf' & Hb' & Hs' & Hr1 & Hr2 & Hf & Hl & Hd)].
  { rewrite <- Ha. assert (Es : same_heap h (set_arena (g_arena h) (g_ready h) (g_failed h) h)) by done.
    rewrite <- Es. by apply alloc_post_none. }
  assert (Hok' : hook_ok (set_arena (Some a') (g_ready h) (g_failed h) h)).
  { destruct Hok as [H1 H2 H3 H4]. split; cbn; [done| |by rewrite H3, Ha|done]. intros ? [= <-]. by rewrite Hb', Hs'. }
  assert (Hkeep : forall s q m, live h s q m -> live (set_arena (Some a') (g_ready h) (g_failed h) h) s q m).
  { intros s q m [(a0 & Ha0 & Hq)|Hq]; [left|by right]. exists a'. split; [done|]. simplify_eq.
    rewrite Hb', Hl, lookup_insert_ne; [congruence|]. congruence. }
  split; [done|intros s q m Hq _; split; [by apply Hkeep|done]|right]. split; [done| | |].
  - left. exists a'. split; [done|]. by rewrite Hb', Hl, lookup_insert_eq.
  - intros s q m Hq. unfold apart. destruct Hq as [(a0 & Ha0 & Hq)|Hq].
    + simplify_eq. pose proof (aw_live _ Hwf _ _ Hq). specialize (Hd _ _ Hq). unfold disjoint_blocks in Hd. lia.
    + destruct (crt_block_range _ _ _ _ (ho_crt _ Hok) Hq) as (? & ? & ? & ?). lia.
  - intros s q m [(a0 & Ha0 & Hq)|Hq]; [|by left; right]. cbn in Ha0. injection Ha0 as <-. rewrite Hb', Hl in Hq.
    destruct (decide (q = p)) as [->|Hne]; [rewrite lookup_insert_eq in Hq; injection Hq as <-; by right|].
    rewrite lookup_insert_ne in Hq by lia. left. left. by exists a.
Qed.

Lemma ensure_initialized_spec init slot n h :
  hook_ok h -> init_ok init ->
  wp (ensure_initialized init)
    (fun ok h' => alloc_post h slot n 0 h' /\ g_config h' = g_config h /\ (ok = true -> is_Some (g_arena h'))) (fun _ _ => False) h.
Proof.
  intros Hok Hi. pose proof (ho_ready _ Hok) as Hr. unfold wp, ensure_initialized. rewrite bind_get.
  destruct (g_ready h) eqn:E.
  { split; [by apply alloc_post_none|]. split; [done|]. intros _. symmetry in Hr. by apply bool_decide_eq_true in Hr. }
  symmetry in Hr. apply bool_decide_eq_false, eq_None_not_Some in Hr.
  destruct (g_failed h); [by split; [apply alloc_post_none|]|].
  destruct Hi as [->| ->]; rewrite bind_put.
  - split; [|done]. assert (Es : same_heap h (set_arena None false true h)) by by split_and!.
    rewrite <- Es. by apply alloc_post_none.
  - split; [|by split]. assert (Hwf : arena_wf (HeapArena_new base len)) by (apply HeapArena_new_wf; lia).
    assert (Hl : forall s q m, live (set_arena (Some (HeapArena_new base len)) true false h) s q m <-> live h s q m).
    { intros s q m. unfold live. cbn. rewrite Hr. split; intros [(a & Ha & Hq)|Hq]; [|by right|done|by right].
      injection Ha as <-. cbn in Hq. by rewrite lookup_empty in Hq. }
    split.
    + destruct Hok. split; [done| |done|done]. cbn. intros a [= <-]. by split.
    + intros s q m Hq _. by rewrite Hl.
    + left. split; [done|]. intros s q m. by rewrite Hl.
Qed.

Lemma remote_allocate_spec init slot n h :
  hook_ok h -> init_ok init -> 0 < n < U64 -> wp (remote_allocate init n 16) (alloc_post h slot n) (fun _ _ => False) h.
Proof.
  intros Hok Hi Hn. unfold remote_allocate. apply wp_bind, wp_get. destruct (remote_mode (g_config h)); cbn [negb].
  2: by apply alloc_post_none.
  apply wp_bind. eapply wp_mono; [by apply (ensure_initialized_spec init slot n)| |done].
  intros ok h1 (Hp1 & _ & Ha). cbn beta. destruct ok; cbn [negb]; [|exact Hp1].
  apply wp_bind, wp_get. destruct (Ha eq_refl) as [a Ea]. rewrite Ea.
  destruct (arena_allocate n 16 a) as [p a'] eqn:E.
  pose proof (arena_block_post h1 slot n a p a' (ap_ok _ _ _ _ _ Hp1) Hn Ea E) as Hp2.
  pose proof (alloc_post_trans _ _ _ _ _ _ Hok Hp1 Hp2) as Hp.
  unfold wp. rewrite bind_put. destruct (p =? 0); [done|]. unfold bind, note_redirected, modify. cbn.
  eapply alloc_post_proper; [done..| |exact Hp]. done.
Qed.

(** ** Release *)

(** The block at [p] is gone, and nothing else. *)
Record free_post (p : Z) (h h' : Hook) : Prop := {
  fp_ok : hook_ok h';
  fp_keeps : keeps_but p h h';
  fp_only : forall s q m, live h' s q m -> live h s q m /\ q <> p
}.

#[export] Instance free_post_proper : Proper (eq ==> same_heap ==> same_heap ==> iff) free_post.
Proof.
  assert (Hi : forall p h1 h1' h2 h2', same_heap h1 h1' -> same_heap h2 h2' -> free_post p h1 h2 -> free_post p h1' h2').
  { intros p h1 h1' h2 h2' E1 E2 [H1 H2 H3]. split; [by rewrite <- E2|by rewrite <- E1, <- E2|].
    intros s q m. rewrite <- E1, <- E2. apply H3. }
  intros p ? <- h1 h1' E1 h2 h2' E2. split; apply Hi; done || by symmetry.
Qed.

(** A block of a runtime lies outside the region, and its address is its own. *)
Lemma crt_not_owned h slot p n :
  hook_ok h -> crt_blocks (g_crt h) slot !! p = Some n ->
  arena_owns p h = false /\ (forall a, g_arena h = Some a -> live_blocks_ a !! (p - base_ a) = None) /\
  (forall s m, s <> slot -> crt_blocks (g_crt h) s !! p = Some m -> False).
Proof.
  intros Hok Hl. destruct (crt_block_range _ _ _ _ (ho_crt _ Hok) Hl) as (Hp & Hn & Hu & Hout).
  split_and!.
  - unfold arena_owns. destruct (g_ready h); [|done]. destruct (g_arena h) as [a|] eqn:E; [|done].
    destruct (ho_arena _ Hok a E) as (Hwf & Hb & Hs). apply not_true_iff_false. cbn.
    rewrite (owns_iff a p Hwf) by lia. lia.
  - intros a E. destruct (ho_arena _ Hok a E) as (Hwf & Hb & Hs).
    destruct (live_blocks_ a !! (p - base_ a)) as [m|] eqn:E'; [|done]. pose proof (aw_live _ Hwf _ _ E'). lia.
  - intros s m Hs Hm. pose proof (crt_blocks_apart (g_crt h) slot p n s p m (ho_crt _ Hok) Hl Hm ltac:(congruence)) as Hd.
    unfold apart in Hd. lia.
Qed.

Lemma arena_owned h a p n :
  hook_ok h -> g_arena h = Some a -> live_blocks_ a !! (p - base_ a) = Some n ->
  arena_owns p h = true /\ block_size p a = n /\ p <> 0 /\ is_u64 p /\ forall s, crt_blocks (g_crt h) s !! p = None.
Proof.
  intros Hok E Hl. destruct (ho_arena _ Hok a E) as (Hwf & Hb & Hs). pose proof (aw_live _ Hwf _ _ Hl).
  destruct (aw_range _ Hwf) as (? & ? & ?).
  assert (Ho : owns p a = true) by (apply owns_iff; [done|lia..]).
  split_and!.
  - unfold arena_owns. rewrite (ho_ready _ Hok), E. by rewrite bool_decide_eq_true_2.
  - unfold block_size. rewrite Ho, u64_small, Hl by lia. by destruct (Z.eqb_spec p 0); [lia|].
  - lia.
  - unfold is_u64. lia.
  - intros s. destruct (crt_blocks (g_crt h) s !! p) as [m|] eqn:E'; [|done].
    destruct (crt_block_range _ _ _ _ (ho_crt _ Hok) E') as (? & ? & ? & ?). lia.
Qed.

Lemma arena_release_spec h a p n :
  hook_ok h -> g_arena h = Some a -> live_blocks_ a !! (p - base_ a) = Some n ->
  wp (arena_release p) (fun _ => free_post p h) (fun _ _ => False) h.
Proof.
  intros Hok E Hl. destruct (arena_owned h a p n Hok E Hl) as (_ & _ & _ & Hu & Hc).
  destruct (ho_arena _ Hok a E) as (Hwf & Hb & Hs).
  destruct (arena_deallocate_spec a p Hwf Hu) as (Hwf' & Hl' & Hb' & Hs' & _).
  unfold wp, arena_release. rewrite bind_get, E. cbn. split.
  - destruct Hok as [H1 H2 H3 H4]. split; cbn; [done| |by rewrite H3, E|done]. intros ? [= <-]. by rewrite Hb', Hs'.
  - intros s q m [(a0 & Ha & Hq)|Hq] Hne; (split; [|done]); [left|by right]. simplify_eq. eexists. split; [done|].
    rewrite Hb', Hl', lookup_delete_ne; [done|lia].
  - intros s q m [(a0 & Ha & Hq)|Hq]; cbn in *.
    + simplify_eq. rewrite Hb', Hl' in Hq. apply lookup_delete_Some in Hq as [Hne Hq].
      split; [left; by exists a|]. congruence.
    + split; [by right|]. intros ->. by rewrite Hc in Hq.
Qed.

Lemma call_free_spec h slot p n :
  hook_ok h -> crt_blocks (g_crt h) slot !! p = Some n -> wp (call_free slot p) (fun _ => free_post p h) (fun _ _ => False) h.
Proof.
  intros Hok Hl. destruct (crt_not_owned h slot p n Hok Hl) as (_ & Ha & Hother).
  destruct (free_law (base := base) (len := len) (g_crt h) slot p (ho_crt _ Hok) (mk_is_Some _ _ Hl)) as [Hc Hch].
  destruct (crt_block_range _ _ _ _ (ho_crt _ Hok) Hl) as (Hp & _).
  unfold wp, call_free. rewrite bind_get. destruct (Z.eqb_spec p 0); [lia|]. rewrite Hl. cbn. split.
  - destruct Hok. by split.
  - intros s q m [Hq|Hq] Hne; (split; [|done]); [by left|right]. cbn. rewrite Hch. case_decide; [|done].
    subst s. by rewrite lookup_delete_ne.
  - intros s q m [(a & Ea & Hq)|Hq]; cbn in *.
    + split; [left; by exists a|]. intros ->. by rewrite (Ha a Ea) in Hq.
    + rewrite Hch in Hq. case_decide as Hs; [subst s; apply lookup_delete_Some in Hq as [Hne Hq]; split; [by right|done]|].
      split; [by right|]. intros ->. by eapply Hother.
Qed.

(** ** What the hooks do *)

(** The state at hand has the heap of [h]: call it [h0]. *)
Local Ltac at_heap h h0 E0 Hok0 :=
  match goal with |- wp _ _ _ ?k => set (h0 := k) end;
  assert (E0 : same_heap h h0) by done; assert (Hok0 : hook_ok h0) by by rewrite <- E0.

Lemma hooked_malloc_spec init slot n h :
  hook_ok h -> init_ok init -> 0 <= n < U64 -> wp (hooked_malloc init slot n) (alloc_post h slot n) (fun _ _ => False) h.
Proof.
  intros Hok Hi Hn. unfold hooked_malloc. apply wp_bind, wp_get.
  destruct (Z.ltb_spec n (threshold (g_config h))) as [|Hth]; cbn [orb]; [|destruct (should_pass_through h)].
  1, 2: apply wp_modify; at_heap h h0 E0 Hok0; eapply wp_mono; [by apply call_malloc_spec| |done];
    intros p h1 Hp; by rewrite E0.
  apply wp_reentry, wp_modify, wp_bind. pose proof (ho_threshold _ Hok).
  at_heap h h0 E0 Hok0.
  eapply wp_mono; [apply (remote_allocate_spec init slot n); [done|done|lia]| |done].
  intros p h1 Hp. cbn beta. destruct (Z.eqb_spec p 0) as [->|Hne]; cbn [negb].
  - eapply wp_mono; [by apply (call_malloc_spec slot n); [apply Hp|]| |done].
    intros q h2 Hq. eapply alloc_post_proper; [exact E0|reflexivity..| |exact (alloc_post_trans _ _ _ _ _ _ Hok0 Hp Hq)]. done.
  - unfold wp. cbn. eapply alloc_post_proper; [exact E0|reflexivity..| |exact Hp]. done.
Qed.

Lemma hooked_calloc_spec init slot count size h :
  hook_ok h -> init_ok init -> is_u64 count -> is_u64 size ->
  wp (hooked_calloc init slot count size)
    (fun p h' => (U64 <= count * size -> p = 0) /\ alloc_post h slot (count * size) p h' /\
       (p <> 0 -> forall x, p <= x < p + count * size -> g_mem h' x = x00)) (fun _ _ => False) h.
Proof.
  intros Hok Hi Hc Hs. unfold hooked_calloc. apply wp_bind, wp_get.
  assert (Hov : negb (count =? 0) && (SIZE_MAX / count <? size) = negb (count * size <? U64)).
  { unfold is_u64, SIZE_MAX in *. destruct (Z.eqb_spec count 0) as [->|Hne]; [done|]. cbn [negb andb].
    destruct (Z.ltb_spec ((U64 - 1) / count) size), (Z.ltb_spec (count * size) U64); try done; exfalso.
    - pose proof (Z.mul_succ_div_gt (U64 - 1) count ltac:(lia)). nia.
    - pose proof (Z.mul_div_le (U64 - 1) count ltac:(lia)). nia. }
  rewrite Hov. destruct (Z.ltb_spec (count * size) U64) as [Hlt|Hge]; cbn [negb].
  2: { split; [done|]. split; [by apply alloc_post_none|done]. }
  assert (Hn : 0 <= count * size < U64) by (unfold is_u64 in *; nia). cbv zeta.
  assert (Hreal : forall h', hook_ok h' -> wp (call_calloc slot count size)
     (fun p h'' => (U64 <= count * size -> p = 0) /\ alloc_post h' slot (count * size) p h'' /\
       (p <> 0 -> forall x, p <= x < p + count * size -> g_mem h'' x = x00)) (fun _ _ => False) h').
  { intros h' Hok'. eapply wp_mono; [by apply call_calloc_spec| |done]. intros p h'' [Hp Hz]. split; [lia|]. by split. }
  destruct (Z.ltb_spec (count * size) (threshold (g_config h))) as [|Hth]; cbn [orb]; [|destruct (should_pass_through h)].
  1, 2: by apply Hreal.
  apply wp_reentry, wp_modify, wp_bind. pose proof (ho_threshold _ Hok).
  at_heap h h0 E0 Hok0.
  eapply wp_mono; [apply (remote_allocate_spec init slot (count * size)); [done|done|lia]| |done].
  intros p h1 Hp. cbn beta. destruct (Z.eqb_spec p 0) as [->|Hne].
  - eapply wp_mono; [apply Hreal, Hp| |done]. intros q h2 (_ & Hq & Hz). split; [lia|]. split; [|exact Hz].
    eapply alloc_post_proper; [exact E0|reflexivity..| |exact (alloc_post_trans _ _ _ _ _ _ Hok0 Hp Hq)]. done.
  - apply wp_modify. unfold wp. cbn. split; [lia|].
    pose proof (fill_post _ _ _ _ _ Hp Hne) as Hf. split; [eapply alloc_post_proper; [exact E0|reflexivity..| |exact Hf]; done|].
    intros _ x Hx. by apply fill_in.
Qed.

Lemma hooked_free_spec slot p n h :
  hook_ok h -> live h slot p n -> wp (hooked_free slot p) (fun _ => free_post p h) (fun _ _ => False) h.
Proof.
  intros Hok Hl. unfold hooked_free. apply wp_bind, wp_get. destruct Hl as [(a & E & Hl)|Hl].
  - destruct (arena_owned h a p n Hok E Hl) as (-> & _ & Hp & _). destruct (Z.eqb_spec p 0); [lia|]. cbn [negb andb].
    apply wp_reentry. at_heap h h0 E0 Hok0.
    eapply wp_mono; [by apply (arena_release_spec h0 a p n)| |done].
    intros [] h1 Hf. eapply free_post_proper; [done|exact E0| |exact Hf]. done.
  - destruct (crt_not_owned h slot p n Hok Hl) as (-> & _). rewrite andb_false_r. by eapply call_free_spec.
Qed.

Lemma hooked_msize_spec slot p n h :
  hook_ok h -> live h slot p n -> wp (hooked_msize slot p) (fun m h' => m = n /\ same_heap h h') (fun _ _ => False) h.
Proof.
  intros Hok Hl. unfold hooked_msize. apply wp_bind, wp_get. destruct Hl as [(a & E & Hl)|Hl].
  - destruct (arena_owned h a p n Hok E Hl) as (-> & Hs & Hp & _). destruct (Z.eqb_spec p 0); [lia|]. cbn [negb andb].
    apply wp_reentry. unfold wp, arena_block_size. rewrite bind_get. cbn. rewrite E. by split.
  - destruct (crt_not_owned h slot p n Hok Hl) as (-> & _). rewrite andb_false_r.
    unfold wp, call_msize. rewrite bind_get, Hl. by split.
Qed.

(** [realloc] of the block of [n] bytes at [p]: the old block stays, or its
    bytes are at the start of a block of [bytes] bytes at [q]. *)
Record realloc_post (h : Hook) (slot : nat) (p n bytes q : Z) (h' : Hook) : Prop := {
  rp_ok : hook_ok h';
  rp_keeps : keeps_but p h h';
  rp_null : q = 0 -> keeps_but 0 h h' /\ forall s r m, live h' s r m -> live h s r m;
  rp_new : q <> 0 -> live h' slot q bytes /\
    (forall x, 0 <= x < Z.min n bytes -> g_mem h' (q + x) = g_mem h (p + x)) /\
    (forall s r m, live h s r m -> r <> p -> apart q bytes r m) /\
    (forall s r m, live h' s r m -> (live h s r m /\ r <> p) \/ (r = q /\ m = bytes))
}.

#[export] Instance realloc_post_proper :
  Proper (same_heap ==> eq ==> eq ==> eq ==> eq ==> eq ==> same_heap ==> iff) realloc_post.
Proof.
  assert (Hi : forall h1 h1' s p n b q h2 h2', same_heap h1 h1' -> same_heap h2 h2' ->
    realloc_post h1 s p n b q h2 -> realloc_post h1' s p n b q h2').
  { intros h1 h1' s p n b q h2 h2' E1 E2 [H1 H2 H3 H4]. split; [by rewrite <- E2|by rewrite <- E1, <- E2| |].
    - intros Hq. destruct (H3 Hq) as [Hk Ho]. split; [by rewrite <- E1, <- E2|]. intros s' r m. rewrite <- E1, <- E2. apply Ho.
    - intros Hq. destruct (H4 Hq) as (Hl & Hm & Ha & Ho). split; [by rewrite <- E2|]. split.
      { destruct E1 as (_ & _ & _ & <- & _), E2 as (_ & _ & _ & <- & _). done. }
      split; intros s' r m; rewrite <- ?E1, <- ?E2; [apply Ha|apply Ho]. }
  intros h1 h1' E1 s ? <- p ? <- n ? <- b ? <- q ? <- h2 h2' E2. split; apply Hi; done || by symmetry.
Qed.

(** A new block, the copy into it, and the release of the old one. *)
Lemma move_block h slot p n bytes dst h1 :
  hook_ok h -> live h slot p n -> 0 < bytes -> alloc_post h slot bytes dst h1 -> dst <> 0 ->
  let h2 := set_mem (copy dst p (Z.min n bytes) (g_mem h1)) h1 in
  hook_ok h2 /\ live h2 slot p n /\ forall h3, free_post p h2 h3 -> realloc_post h slot p n bytes dst h3.
Proof.
  intros Hok Hl Hb [Hok1 Hk1 Hn1] Hd h2. destruct Hn1 as [[-> _]|[_ Hnl Hna Hno]]; [done|].
  destruct (live_range _ _ _ _ Hok Hl) as (Hp0 & Hn0 & Hpu).
  assert (Hne : p <> dst). { intros ->. pose proof (Hna _ _ _ Hl) as Ha. unfold apart in Ha. lia. }
  assert (Hk2 : forall s r m, live h s r m -> live h2 s r m /\ forall x, r <= x < r + m -> g_mem h2 x = g_mem h x).
  { intros s r m Hr. destruct (live_range _ _ _ _ Hok Hr) as (Hr0 & _). destruct (Hk1 s r m Hr ltac:(lia)) as [Hr' Hm].
    split; [done|]. intros x Hx. rewrite <- Hm by done. cbn. apply copy_out.
    pose proof (Hna _ _ _ Hr) as Ha. unfold apart in Ha. lia. }
  split; [by destruct Hok1|]. split; [by apply Hk2|]. intros h3 [Hok3 Hk3 Ho3]. split; [done| |done|].
  - intros s r m Hr Hrp. destruct (Hk2 s r m Hr) as [Hr2 Hm2]. destruct (Hk3 s r m Hr2 Hrp) as [Hr3 Hm3].
    split; [done|]. intros x Hx. by rewrite Hm3, Hm2.
  - intros _. destruct (Hk3 slot dst bytes Hnl ltac:(done)) as [Hl3 Hm3]. split; [done|]. split; [|split].
    + intros x Hx. rewrite Hm3 by lia. cbn. rewrite copy_in by done.
      destruct (Hk1 _ _ _ Hl ltac:(lia)) as [_ Hm]. apply Hm. lia.
    + intros s r m Hr _. by apply (Hna s).
    + intros s r m Hr. destruct (Ho3 s r m Hr) as [Hr2 Hrp]. destruct (Hno s r m Hr2) as [Hr0|]; [left|by right]. done.
Qed.

(** A runtime's own [realloc]. *)
Lemma call_realloc_spec slot p n bytes h :
  hook_ok h -> crt_blocks (g_crt h) slot !! p = Some n -> 0 < bytes < U64 ->
  wp (call_realloc slot p bytes) (realloc_post h slot p n bytes) (fun _ _ => False) h.
Proof.
  intros Hok Hl Hb. destruct (crt_not_owned h slot p n Hok Hl) as (_ & Hna & Hother).
  pose proof (realloc_law (base := base) (len := len) (g_crt h) slot p n bytes (ho_crt _ Hok) Hb Hl) as Hlaw.
  unfold wp, call_realloc. rewrite bind_get, Hl. destruct (real_realloc slot p bytes (g_crt h)) as [q r] eqn:E.
  cbn [fst snd] in Hlaw. destruct Hlaw as [Hc Hlaw]. rewrite bind_put. unfold modify, bind. cbn.
  assert (Hok1 : hook_ok (set_crt r h)) by (destruct Hok; by split).
  destruct Hlaw as [[-> Hs]|(Hq & Hs & Hf)].
  - pose proof (crt_same_live h r Hs) as Hsl. split; [done| | |done].
    + intros s q m Hq _. by rewrite Hsl.
    + intros _. split; [|by intros s q m; rewrite Hsl]. intros s q m Hq _. by rewrite Hsl.
  - destruct (Z.eqb_spec q 0) as [|_]; [done|].
    assert (Hnew : crt_blocks r slot !! q = Some bytes).
    { rewrite Hs, decide_True by done. apply lookup_insert_eq. }
    destruct (crt_not_owned (set_crt r h) slot q bytes Hok1 Hnew) as (_ & Hqa & Hqo).
    assert (Hk : forall s x m, live h s x m -> x <> p -> live (set_crt r h) s x m /\ x <> q).
    { intros s x m [(a & Ea & Hx)|Hx] Hxp; [split; [left; by exists a|intros ->; by rewrite (Hqa a Ea) in Hx]|].
      destruct (decide (s = slot)) as [->|Hne].
      - assert (x <> q). { intros ->. rewrite lookup_delete_ne in Hf; [congruence|done]. }
        split; [right|done]. cbn. rewrite Hs, decide_True by done. by rewrite lookup_insert_ne, lookup_delete_ne.
      - assert (Hx' : crt_blocks r s !! x = Some m) by by rewrite Hs, decide_False.
        split; [by right|]. intros ->. by eapply Hqo. }
    assert (Hap : forall s x m, live h s x m -> x <> p -> apart q bytes x m).
    { intros s x m Hx Hxp. destruct (Hk s x m Hx Hxp) as [Hx' Hxq].
      eapply live_apart; [exact Hok1|by right|exact Hx'|done]. }
    split; [by destruct Hok1| |done|].
    + intros s x m Hx Hxp. split; [by apply Hk|]. intros y Hy. cbn. apply copy_out.
      pose proof (Hap s x m Hx Hxp) as Ha. unfold apart in Ha. lia.
    + intros _. split; [by right|]. split; [|split; [exact Hap|]].
      * intros x Hx. cbn. by rewrite copy_in.
      * intros s x m [(a & Ea & Hx)|Hx]; cbn in *.
        { left. split; [left; by exists a|]. intros ->. by rewrite (Hna a Ea) in Hx. }
        rewrite Hs in Hx. case_decide as Hd; [subst s|left; split; [by right|intros ->; by eapply Hother]].
        destruct (decide (x = q)) as [->|Hxq]; [right; rewrite lookup_insert_eq in Hx; by simplify_eq|left].
        rewrite lookup_insert_ne in Hx by done. apply lookup_delete_Some in Hx as [Hxp Hx]. split; [by right|done].
Qed.

(** Allocating nothing first does not matter to [realloc]. *)
Lemma realloc_post_after h slot p n bytes q h1 h2 :
  hook_ok h -> alloc_post h slot bytes 0 h1 -> realloc_post h1 slot p n bytes q h2 -> live h slot p n ->
  realloc_post h slot p n bytes q h2.
Proof.
  intros Hok [Hok1 Hk1 [[_ Ho1]|[Hz]]] [Hok2 Hk2 Hn2 Hq2] Hl; [|done]. pose proof (keeps_but_0 p _ _ Hk1 Hok) as Hk1p.
  split; [done|by eapply keeps_but_trans| |].
  - intros Hq. destruct (Hn2 Hq) as [Hk Ho]. split; [by eapply keeps_but_trans|auto].
  - intros Hq. destruct (Hq2 Hq) as (Hl2 & Hm & Ha & Ho). split; [done|]. split; [|split].
    + intros x Hx. rewrite Hm by done. destruct (live_range _ _ _ _ Hok Hl). destruct (Hk1 _ _ _ Hl ltac:(lia)) as [_ Hmm].
      apply Hmm. lia.
    + intros s r m Hr Hrp. destruct (live_range _ _ _ _ Hok Hr). apply (Ha s); [|done]. apply Hk1; [done|lia].
    + intros s r m Hr. destruct (Ho s r m Hr) as [[Hr1 ?]|]; [left; auto|by right].
Qed.

(** Null: nothing happened. *)
Lemma realloc_post_null h slot p n bytes h1 :
  hook_ok h -> alloc_post h slot bytes 0 h1 -> realloc_post h slot p n bytes 0 h1.
Proof.
  intros Hok [Hok1 Hk1 [[_ Ho1]|[Hz]]]; [|done].
  split; [done|by apply keeps_but_0|done|done].
Qed.

(** The region tells whose block it is. *)
Lemma live_in_region h slot p n : hook_ok h -> live h slot p n -> base <= p < base + len ->
  exists a, g_arena h = Some a /\ live_blocks_ a !! (p - base_ a) = Some n.
Proof. intros Hok [Ha|Hl] Hp; [done|]. destruct (crt_block_range _ _ _ _ (ho_crt _ Hok) Hl). lia. Qed.

Lemma live_out_region h slot p n : hook_ok h -> live h slot p n -> ~ base <= p < base + len ->
  crt_blocks (g_crt h) slot !! p = Some n.
Proof.
  intros Hok [(a & E & Hl)|Hl] Hp; [|done]. destruct (ho_arena _ Hok a E) as (Hwf & Hb & Hs).
  pose proof (aw_live _ Hwf _ _ Hl). lia.
Qed.

Lemma arena_in_region h a p n : hook_ok h -> g_arena h = Some a -> live_blocks_ a !! (p - base_ a) = Some n ->
  base <= p < base + len.
Proof. intros Hok E Hl. destruct (ho_arena _ Hok a E) as (Hwf & Hb & Hs). pose proof (aw_live _ Hwf _ _ Hl). lia. Qed.

(** [old_bytes < bytes ? old_bytes : bytes]. *)
Lemma min_if n m : (if n <? m then n else m) = Z.min n m.
Proof. destruct (Z.ltb_spec n m); lia. Qed.

Lemma realloc_arena init slot p n a bytes h :
  hook_ok h -> init_ok init -> 0 < bytes < U64 -> g_arena h = Some a -> live_blocks_ a !! (p - base_ a) = Some n ->
  wp (hooked_realloc init slot p bytes) (realloc_post h slot p n bytes) (fun _ _ => False) h.
Proof.
  intros Hok Hi Hb E Hla. assert (Hl : live h slot p n) by (left; by exists a).
  pose proof (arena_in_region h a p n Hok E Hla) as Hreg.
  destruct (arena_owned h a p n Hok E Hla) as (Ho & Hs & Hp & _ & Hnc). unfold hooked_realloc. apply wp_bind, wp_get.
  destruct (Z.eqb_spec p 0), (Z.eqb_spec bytes 0); try lia. rewrite Ho. apply wp_reentry. at_heap h h0 E0 Hok0.
  unfold arena_block_size. apply wp_bind, wp_bind, wp_get. change (g_arena h0) with (g_arena h). rewrite E, Hs.
  cbn beta. assert (Hl0 : live h0 slot p n) by by rewrite <- E0.
  apply wp_bind. eapply wp_mono; [by apply (remote_allocate_spec init slot bytes)| |done]. intros q h1 Hq. cbn beta.
  apply wp_bind. apply wp_mono with (Q := alloc_post h0 slot bytes) (E := fun _ _ => False); [| |done].
  { destruct (Z.eqb_spec q 0) as [->|]; [|exact Hq].
    eapply wp_mono; [apply (call_malloc_spec slot bytes); [apply Hq|lia]| |done].
    intros q h2 Hq2. exact (alloc_post_trans _ _ _ _ _ _ Hok0 Hq Hq2). }
  intros dst h2 Hd. destruct (Z.eqb_spec dst 0) as [->|Hne].
  { unfold wp. cbn. eapply realloc_post_proper; [exact E0|reflexivity..| |exact (realloc_post_null _ _ _ _ _ _ Hok0 Hd)]. done. }
  apply wp_modify. rewrite min_if. destruct (move_block h0 slot p n bytes dst h2) as (Hok3 & Hl3 & Hfin); [done|done|lia|done|done|].
  destruct (live_in_region _ _ _ _ Hok3 Hl3 Hreg) as (a3 & E3 & Hla3).
  apply wp_bind. eapply wp_mono; [exact (arena_release_spec _ a3 p n Hok3 E3 Hla3)| |done].
  intros [] h4 Hf. specialize (Hfin _ Hf). unfold wp. cbn. eapply realloc_post_proper; [exact E0|reflexivity..| |exact Hfin]. done.
Qed.

Lemma realloc_crt init slot p n bytes h :
  hook_ok h -> init_ok init -> 0 < bytes < U64 -> crt_blocks (g_crt h) slot !! p = Some n ->
  wp (hooked_realloc init slot p bytes) (realloc_post h slot p n bytes) (fun _ _ => False) h.
Proof.
  intros Hok Hi Hb Hlc. assert (Hl : live h slot p n) by by right.
  destruct (crt_not_owned h slot p n Hok Hlc) as (Ho & _). destruct (crt_block_range _ _ _ _ (ho_crt _ Hok) Hlc) as (Hp & Hn & _ & Hout).
  unfold hooked_realloc. apply wp_bind, wp_get.
  destruct (Z.eqb_spec p 0), (Z.eqb_spec bytes 0); try lia. rewrite Ho.
  destruct (_ || negb (has_msize slot)); [by apply call_realloc_spec|].
  apply wp_reentry, wp_modify. at_heap h h0 E0 Hok0. assert (Hl0 : live h0 slot p n) by by rewrite <- E0.
  unfold call_msize. apply wp_bind, wp_bind, wp_get. change (g_crt h0) with (g_crt h). rewrite Hlc.
  apply wp_bind. eapply wp_mono; [by apply (remote_allocate_spec init slot bytes)| |done]. intros dst h1 Hd. cbn beta.
  destruct (Z.eqb_spec dst 0) as [->|Hne].
  - assert (Hl1 : live h1 slot p n) by (apply (ap_keeps _ _ _ _ _ Hd); [done|lia]).
    pose proof (live_out_region _ _ _ _ (ap_ok _ _ _ _ _ Hd) Hl1 ltac:(lia)) as Hlc1.
    eapply wp_mono; [by apply (call_realloc_spec slot p n bytes h1 (ap_ok _ _ _ _ _ Hd))| |done]. intros q h2 Hq.
    eapply realloc_post_proper; [exact E0|reflexivity..| |exact (realloc_post_after _ _ _ _ _ _ _ _ Hok0 Hd Hq Hl0)]. done.
  - apply wp_modify. rewrite min_if. destruct (move_block h0 slot p n bytes dst h1) as (Hok3 & Hl3 & Hfin); [done|done|lia|done|done|].
    pose proof (live_out_region _ _ _ _ Hok3 Hl3 ltac:(lia)) as Hlc3.
    apply wp_bind. eapply wp_mono; [exact (call_free_spec _ slot p n Hok3 Hlc3)| |done].
    intros [] h4 Hf. specialize (Hfin _ Hf). unfold wp. cbn. eapply realloc_post_proper; [exact E0|reflexivity..| |exact Hfin]. done.
Qed.

(** *** One call of the program *)

Inductive hook_call :=
| CallMalloc (slot : nat) (n : Z)
| CallCalloc (slot : nat) (count size : Z)
| CallFree (slot : nat) (p : Z)
| CallRealloc (slot : nat) (p n : Z)
| CallMsize (slot : nat) (p : Z).

Definition hook_run (init : option (Z * Z)) (c : hook_call) : M Hook Z :=
  match c with
  | CallMalloc slot n => hooked_malloc init slot n
  | CallCalloc slot count size => hooked_calloc init slot count size
  | CallFree slot p => do! hooked_free slot p in ret 0
  | CallRealloc slot p n => hooked_realloc init slot p n
  | CallMsize slot p => hooked_msize slot p
  end.

(** What the C standard asks of the caller: a live block of this runtime, or
    null where null is allowed. *)
Definition call_ok (h : Hook) (c : hook_call) : Prop :=
  match c with
  | CallMalloc _ n => is_u64 n
  | CallCalloc _ count size => is_u64 count /\ is_u64 size
  | CallFree slot p => p = 0 \/ exists n, live h slot p n
  | CallRealloc slot p n => is_u64 n /\ (p = 0 \/ exists m, live h slot p m)
  | CallMsize slot p => exists n, live h slot p n
  end.

(** What it promises. *)
Definition call_post (h : Hook) (c : hook_call) (r : Z) (h' : Hook) : Prop :=
  match c with
  | CallMalloc slot n => alloc_post h slot n r h'
  | CallCalloc slot count size =>
      (U64 <= count * size -> r = 0) /\ alloc_post h slot (count * size) r h' /\
      (r <> 0 -> forall x, r <= x < r + count * size -> g_mem h' x = x00)
  | CallFree slot p => if p =? 0 then h' = h else free_post p h h'
  | CallRealloc slot p n =>
      if p =? 0 then alloc_post h slot n r h'
      else if n =? 0 then r = 0 /\ free_post p h h'
      else forall m, live h slot p m -> realloc_post h slot p m n r h'
  | CallMsize slot p => live h slot p r /\ same_heap h h'
  end.

Lemma hooked_free_null slot h : hooked_free slot 0 h = (Ret tt, h).
Proof. done. Qed.

(** ** Properties *)

(** C4: Whatever blocks the hooks hand out, from the remote heap or from any of
    the process's runtimes, they are an allocator: on a correct call none of
    malloc, calloc, realloc, free and _msize is undefined (no trampoline gets a
    pointer its runtime did not hand out, no null arena is used) or throws; a new
    block is apart from every live one; all other blocks stay live with their
    bytes; calloc's block is zero and an overflowing product gets null;
    realloc's block starts with the old bytes, and null leaves the old one; free
    releases that block only.  The first large call may build the remote heap or fail to. *)
Theorem hook_is_allocator init c h :
  hook_ok h -> init_ok init -> call_ok h c -> wp (hook_run init c) (call_post h c) (fun _ _ => False) h.
Proof.
  intros Hok Hi Hc. destruct c as [slot n|slot count size|slot p|slot p n|slot p]; cbn in Hc |- *.
  - by apply hooked_malloc_spec.
  - destruct Hc. by apply hooked_calloc_spec.
  - apply wp_bind. destruct Hc as [->|[n Hl]]; [done|]. destruct (live_range _ _ _ _ Hok Hl).
    eapply wp_mono; [by eapply hooked_free_spec| |done]. intros [] h' Hf. unfold wp. cbn. destruct (Z.eqb_spec p 0); [lia|exact Hf].
  - destruct Hc as [Hn Hp]. destruct (Z.eqb_spec p 0) as [->|Hp0]; [by apply (hooked_malloc_spec init slot n h)|].
    destruct Hp as [|[m Hl]]; [done|]. destruct (Z.eqb_spec n 0) as [->|Hn0].
    + unfold hooked_realloc. apply wp_bind, wp_get. destruct (Z.eqb_spec p 0); [done|].
      change (0 =? 0) with true. apply wp_bind.
      eapply wp_mono; [by eapply hooked_free_spec| |done]. intros [] h' Hf. unfold wp. cbn.
      destruct (Z.eqb_spec p 0); [done|]. by split.
    + assert (Hu : 0 < n < U64) by (unfold is_u64 in Hn; lia).
      assert (Hm : forall m', live h slot p m' -> m' = m).
      { intros m' Hl'. destruct (decide (base <= p < base + len)) as [Hr|Hr].
        - destruct (live_in_region _ _ _ _ Hok Hl Hr) as (a & E & ?), (live_in_region _ _ _ _ Hok Hl' Hr) as (a' & E' & ?).
          simplify_eq. congruence.
        - pose proof (live_out_region _ _ _ _ Hok Hl Hr). pose proof (live_out_region _ _ _ _ Hok Hl' Hr). congruence. }
      eapply wp_mono with (Q := realloc_post h slot p m n) (E := fun _ _ => False); [| |done].
      2: { intros q h' Hq. cbn. destruct (Z.eqb_spec p 0), (Z.eqb_spec n 0); try done. intros m' Hl'. by rewrite (Hm m' Hl'). }
      destruct Hl as [(a & E & Hl)|Hl]; [by eapply realloc_arena|by apply realloc_crt].
  - destruct Hc as [n Hl]. eapply wp_mono; [by apply hooked_msize_spec| |done]. intros m h' [-> Hs]. by split.
Qed.

(** C38: [DllMain(DLL_PROCESS_DETACH)] gives up the arena and leaves [ready] set:
    from then on a large malloc dereferences the null arena, and the free of a
    block of the arena hands it to a runtime that never allocated it. *)
Theorem detach_breaks init slot n p a h :
  hook_ok h -> remote_mode (g_config h) = true -> should_pass_through h = false ->
  g_arena h = Some a -> is_Some (live_blocks_ a !! (p - base_ a)) -> threshold (g_config h) <= n ->
  fst (hooked_malloc init slot n (on_detach h)) = Undef /\ fst (hooked_free slot p (on_detach h)) = Undef.
Proof.
  intros Hok Hm Hp Ha [m Hl] Hn. pose proof (ho_ready _ Hok) as Hr. rewrite Ha, bool_decide_eq_true_2 in Hr by done. split.
  - unfold hooked_malloc. rewrite bind_get. change (should_pass_through (on_detach h)) with (should_pass_through h).
    change (g_config (on_detach h)) with (g_config h). rewrite Hp, (proj2 (Z.ltb_ge _ _) Hn). cbn [orb].
    unfold with_reentry, remote_allocate, note_large, modify, bind, get, ensure_initialized, ret. cbn. rewrite Hm. cbn.
    by rewrite Hr.
  - destruct (arena_owned h a p m Hok Ha Hl) as (_ & _ & Hp0 & _ & Hc).
    unfold hooked_free. rewrite bind_get. unfold arena_owns. cbn. rewrite andb_false_r, andb_false_r.
    unfold call_free. rewrite bind_get. destruct (Z.eqb_spec p 0); [done|]. cbn. by rewrite Hc.
Qed.

End hook.

(** *** The configuration *)

Lemma read_digits_nonneg l v n : 0 <= v -> 0 <= n -> 0 <= fst (read_digits l v n).
Proof.
  revert v n. induction l as [|c l IH]; intros v n Hv Hn; cbn; [done|].
  destruct (digit_value c) as [d|] eqn:E; [|done]. apply IH; [|lia].
  unfold digit_value in E. destruct (Z.leb_spec 0 (Z.of_nat (nat_of_ascii c) - 48)); [|done]. cbn [andb] in E.
  destruct (_ <? 10); simplify_eq. lia.
Qed.

Lemma strtoull_range text : is_u64 (fst (strtoull text)).
Proof.
  unfold strtoull. destruct (match skip_blanks _ with [] => _ | _ => _ end) as [neg l].
  pose proof (read_digits_nonneg l 0 0 ltac:(lia) ltac:(lia)) as Hv. destruct (read_digits l 0 0) as [v n]. cbn in *.
  unfold is_u64. destruct (Z.leb_spec U64 v); [done|]. destruct neg; [apply u64_range|lia].
Qed.

Lemma env_size_range env name fallback : 0 < fallback < U64 -> 0 < env_size env name fallback < U64.
Proof.
  intros Hf. unfold env_size. case_bool_decide; [done|]. pose proof (strtoull_range (env_string env name "")) as Hr.
  destruct (strtoull _) as [v n]. unfold is_u64 in Hr. cbn in Hr. destruct (n =? 0); [done|].
  destruct (Z.eqb_spec v 0); cbn [orb]; [done|lia].
Qed.

(** Whatever the environment says, the threshold is at least 1, so no block
    of no bytes is redirected, and it is at least eight pages, so the buffers of
    the fault path are not; unless eight pages are 2^64 bytes or more, when the
    product wraps. *)
Theorem threshold_above_pages env :
  let c := load_config env in
  0 < threshold c < U64 /\ 0 < hook_page_bytes c < U64 /\ (8 * hook_page_bytes c <= threshold c \/ U64 <= 8 * hook_page_bytes c).
Proof.
  cbv zeta. unfold load_config. cbn [threshold hook_page_bytes].
  pose proof (env_size_range env "MEMINFO_PAGE" (64 * 1024) ltac:(done)) as Hp.
  pose proof (env_size_range env "MEMINFO_THRESHOLD" (2 ^ 20) ltac:(done)) as Ht.
  set (page := env_size env "MEMINFO_PAGE" _) in *. set (th := env_size env "MEMINFO_THRESHOLD" _) in *.
  pose proof (u64_range (page * 8)). destruct (Z.ltb_spec th (u64 (page * 8))).
  - split; [lia|]. split; [done|]. destruct (Z.lt_ge_cases (8 * page) U64); [left|by right]. rewrite u64_small; lia.
  - split; [done|]. split; [done|]. destruct (Z.lt_ge_cases (8 * page) U64) as [Hlt|]; [left|by right].
    rewrite u64_small in * by lia. lia.
Qed.

(** A page of 2^61 bytes: the floor is 0 and the threshold below one page. *)
Example floor_wraps :
  let c := load_config (fun v => if bool_decide (v = "MEMINFO_PAGE"%string) then Some "2305843009213693952"%string else None) in
  threshold c = 2 ^ 20 /\ hook_page_bytes c = 2 ^ 61.
Proof. by vm_compute. Qed.

(** *** A runtime to run on *)

(** Every slot's blocks, and one end of memory that only grows, up to [Lim]. *)
Definition Lim : Z := 2 ^ 20.

Definition bump (slot : nat) (n : Z) (r : (nat -> gmap Z Z) * Z) : Z * ((nat -> gmap Z Z) * Z) :=
  let '(b, next) := r in
  if Lim <? next + Z.max n 1 then (0, r)
  else (next, (fun s => if decide (s = slot) then <[next := n]> (b s) else b s, next + Z.max n 1)).

Definition drop_block (slot : nat) (p : Z) (b : nat -> gmap Z Z) : nat -> gmap Z Z :=
  fun s => if decide (s = slot) then delete p (b s) else b s.

#[export] Instance bump_crt : Crt ((nat -> gmap Z Z) * Z) := {|
  crt_blocks r := fst r;
  real_malloc := bump;
  real_calloc slot count size := bump slot (count * size);
  real_realloc slot p n r :=
    let '(q, r') := bump slot n r in if q =? 0 then (0, r) else (q, (drop_block slot p (fst r'), snd r'));
  real_free slot p r := (drop_block slot p (fst r), snd r);
  has_msize _ := true
|}.

Record bump_ok (r : (nat -> gmap Z Z) * Z) : Prop := {
  bo_next : 0 < snd r <= Lim;
  bo_range : forall s p n, fst r s !! p = Some n -> 0 < p /\ 0 <= n /\ p + Z.max n 1 <= snd r;
  bo_apart : forall s p n s' q m, fst r s !! p = Some n -> fst r s' !! q = Some m -> (s, p) <> (s', q) -> apart p n q m
}.

Lemma bump_law r slot n : bump_ok r -> 0 <= n ->
  bump_ok (snd (bump slot n r)) /\ crt_allocates slot n r (bump slot n r).
Proof.
  intros [Hn Hr Ha] H0. destruct r as [b next]. unfold bump. cbn [fst snd] in *.
  destruct (Z.ltb_spec Lim (next + Z.max n 1)); [by split; [|left]|].
  assert (Hnew : forall s q m, (if decide (s = slot) then <[next := n]> (b s) else b s) !! q = Some m ->
    (s = slot /\ q = next /\ m = n) \/ (b s !! q = Some m /\ q <> next)).
  { intros s q m. case_decide; intros Hq.
    - destruct (decide (q = next)) as [->|Hne]; [rewrite lookup_insert_eq in Hq; simplify_eq; by left|right].
      by rewrite lookup_insert_ne in Hq.
    - right. split; [done|]. destruct (Hr _ _ _ Hq). lia. }
  split; [split; cbn [fst snd]|right].
  - lia.
  - intros s p m [(-> & -> & ->)|[Hp _]]%Hnew; [lia|]. destruct (Hr _ _ _ Hp). lia.
  - unfold apart in *. intros s p m s' q k [(-> & -> & ->)|[Hp ?]]%Hnew [(-> & -> & ->)|[Hq ?]]%Hnew Hne; [done| | |by apply (Ha s p m s' q k)].
    + destruct (Hr _ _ _ Hq). lia.
    + destruct (Hr _ _ _ Hp). lia.
  - cbn [fst snd crt_blocks bump_crt]. split; [lia|]. split; [|by intros s].
    destruct (b slot !! next) as [m|] eqn:E; [|done]. destruct (Hr _ _ _ E). lia.
Qed.

Lemma bump_drop r slot p : bump_ok r -> bump_ok (drop_block slot p (fst r), snd r).
Proof.
  intros [Hn Hr Ha].
  assert (Hd : forall s q m, drop_block slot p (fst r) s !! q = Some m -> fst r s !! q = Some m).
  { intros s q m. unfold drop_block. case_decide; [|done]. by intros [_ ?]%lookup_delete_Some. }
  split; [done|by intros s q m ?%Hd; apply (Hr s)|]. intros s q m s' q' m' H1%Hd H2%Hd. by apply (Ha s q m s' q' m').
Qed.

#[export, refine] Instance bump_laws base len (Hb : Lim <= base /\ 0 <= len) : CrtLaws base len := {| crt_ok := bump_ok |}.
Proof.
  - intros r s p n [Hn Hr _] Hl. destruct (Hr _ _ _ Hl) as (? & ? & ?). unfold Lim, U64 in *. lia.
  - intros r s p n s' q m [_ _ Ha]. apply Ha.
  - intros r slot n Hok Hn. apply bump_law; [done|lia].
  - intros r slot count size Hok Hn. apply bump_law; [done|lia].
  - intros r slot p n0 n Hok Hn Hl. cbn. destruct (bump_law r slot n Hok ltac:(lia)) as [Hok' Hal].
    pose proof (bo_next _ Hok). destruct (bump slot n r) as [q r'] eqn:E. cbn [fst snd] in *.
    destruct Hal as [[Hq Hs]|(Hq & Hf & Hs)]; cbn [fst snd] in Hq, Hs.
    + subst q. cbn. split; [done|left]. by split.
    + destruct (Z.eqb_spec q 0); [done|]. cbn [fst snd]. split; [by apply bump_drop|right]. split; [done|].
      cbn [fst snd crt_blocks bump_crt] in *. split; [|by apply lookup_delete_None; right].
      assert (p <> q) by congruence. intros s. cbn. unfold drop_block. specialize (Hs s). cbn in Hs.
      case_decide; [|done]. rewrite Hs. by rewrite delete_insert_ne.
  - intros r slot p Hok _. split; [by apply bump_drop|]. by intros s.
Defined.

(** *** Witnesses *)

(** One runtime, in slot 1, with a block of 100 bytes; the region lies above all it can hand out. *)
Definition demo_config : HookConfig :=
  load_config (fun v => if bool_decide (v = "MEMINFO_HOOK_MODE"%string) then Some "remote"%string else None).

Definition demo_hook : Hook :=
  mkHook (R := (nat -> gmap Z Z) * Z) demo_config 0 false None false false (mkCounters 0 0 0 0 0)
    (fun s => if decide (s = 1%nat) then {[64 := 100]} else ∅, 164) (fun x => byte_of_Z x).

#[local] Instance demo_laws : CrtLaws (2 ^ 30) (2 ^ 24) := bump_laws (2 ^ 30) (2 ^ 24) ltac:(done).

Lemma demo_bump_ok : bump_ok (g_crt demo_hook).
Proof.
  assert (Hd : forall s p n, fst (g_crt demo_hook) s !! p = Some n -> s = 1%nat /\ p = 64 /\ n = 100).
  { cbn. intros s p n. case_decide; [by intros [<- <-]%lookup_singleton_Some|by rewrite lookup_empty]. }
  split; [done| |].
  - intros s p n (-> & -> & ->)%Hd. done.
  - intros s p n s' q m (-> & -> & ->)%Hd (-> & -> & ->)%Hd. done.
Qed.

Lemma demo_hook_ok : hook_ok (2 ^ 30) (2 ^ 24) demo_hook.
Proof. split; [apply demo_bump_ok|done|done|by vm_compute]. Qed.

(** The block grows past the threshold and moves into the remote heap. *)
Lemma hook_is_allocator_witness :
  wp (hook_run (Some (2 ^ 30, 2 ^ 24)) (CallRealloc 1 64 (2 ^ 20)))
    (call_post (2 ^ 30) (2 ^ 24) demo_hook (CallRealloc 1 64 (2 ^ 20))) (fun _ _ => False) demo_hook.
Proof.
  apply (hook_is_allocator (2 ^ 30) (2 ^ 24)); [done|exact demo_hook_ok|by right|].
  split; [done|right]. exists 100. by right.
Defined.

Definition demo_block : HeapArena := arena_exec (ArenaAllocate (2 ^ 20) 16) (HeapArena_new (2 ^ 30) (2 ^ 24)).

Lemma detach_breaks_witness :
  let h := set_arena (Some demo_block) true false demo_hook in
  fst (hooked_malloc None 1 (2 ^ 20) (on_detach h)) = Undef /\ fst (hooked_free 1 (2 ^ 30) (on_detach h)) = Undef.
Proof.
  apply (detach_breaks (2 ^ 30) (2 ^ 24) None 1 (2 ^ 20) (2 ^ 30) demo_block); [|done|done|done|by exists (2 ^ 20); vm_compute|by vm_compute].
  split; [apply demo_bump_ok| |done|by vm_compute]. intros a [= <-].
  apply (arena_exec_wf (HeapArena_new (2 ^ 30) (2 ^ 24))); [by apply HeapArena_new_wf|done].
Defined.
