(* ===== verification/HookSlots.v ===== *)
(** * Which C runtimes the hook attaches to

    [hook/meminfo_hook.cpp], the slots: every scan looks for runtimes that are
    loaded by now and detours the allocation functions of the new ones, in one
    Detours transaction.  Scans run again after each library the program loads.
    A slot holds its functions as pointers: what [GetProcAddress] gave, and once
    attached the trampoline of the detour. *)

From S2P Require Import Prelude.

(** ** The code *)

Definition kMaxSlots : nat := 4.

(** A function pointer of a slot: null, an address, or the trampoline of a detour
    put on the function it pointed to before. *)
Inductive CrtPtr :=
| PNull
| PAddr (a : Z)
| PTramp (target : CrtPtr).

#[export] Instance CrtPtr_eq_dec : EqDecision CrtPtr.
Proof. solve_decision. Defined.

(** [CrtSlot]. *)
Record CrtSlot := mkSlot {
  module_name : string;
  real_malloc : CrtPtr;
  real_calloc : CrtPtr;
  real_realloc : CrtPtr;
  real_free : CrtPtr;
  real_msize : CrtPtr
}.

(** The functions in the order they are attached. *)
Definition crt_functions : list string := ["malloc"; "calloc"; "realloc"; "free"; "_msize"]%string.

Definition slot_ptr (s : CrtSlot) (f : string) : CrtPtr :=
  if bool_decide (f = "malloc"%string) then real_malloc s
  else if bool_decide (f = "calloc"%string) then real_calloc s
  else if bool_decide (f = "realloc"%string) then real_realloc s
  else if bool_decide (f = "free"%string) then real_free s
  else if bool_decide (f = "_msize"%string) then real_msize s
  else PNull.

Definition map_ptrs (g : string -> CrtPtr -> CrtPtr) (s : CrtSlot) : CrtSlot :=
  mkSlot (module_name s) (g "malloc" (real_malloc s)) (g "calloc" (real_calloc s)) (g "realloc" (real_realloc s))
    (g "free" (real_free s)) (g "_msize" (real_msize s)).

(** A detour in place: the hook of slot [dt_slot] for [dt_function], on the code at [dt_target]. *)
Record Detour := mkDetour { dt_slot : nat; dt_function : string; dt_target : CrtPtr }.

#[export] Instance Detour_eq_dec : EqDecision Detour.
Proof. solve_decision. Defined.

Definition dt_key (d : Detour) : nat * string := (dt_slot d, dt_function d).

(** The slots, [g_slot_taken], and the detours in the order attached. *)
Record HookTable := mkTable {
  g_slots : list CrtSlot;
  g_slot_taken : list bool;
  detours : list Detour
}.

Definition HookTable_new : HookTable := mkTable [] (replicate kMaxSlots false) [].

Definition kCrtModules : list string :=
  ["ucrtbase.dll"; "msvcrt.dll"; "api-ms-win-crt-heap-l1-1-0.dll"; "msvcr120.dll"]%string.

(** What the process looks like to one scan: the loaded modules, each with the
    address [GetProcAddress] gives for a name (0: none), which [DetourAttach]
    succeed, and whether the transaction commits. *)
Record ScanWorld := mkWorld {
  GetModule : string -> option (string -> Z);
  DetourAttach : nat -> string -> bool;
  DetourTransactionCommit : bool
}.

Definition ptr_of (a : Z) : CrtPtr := if a =? 0 then PNull else PAddr a.

Definition fill_slot (w : ScanWorld) (name : string) : option CrtSlot :=
  match GetModule w name with
  | None => None
  | Some resolve =>
      let m := resolve "malloc"%string in
      let f := resolve "free"%string in
      if (m =? 0) || (f =? 0) then None
      else Some (mkSlot name (ptr_of m) (ptr_of (resolve "calloc"%string)) (ptr_of (resolve "realloc"%string))
                   (ptr_of f) (ptr_of (resolve "_msize"%string)))
  end.

(** [DetourAttach(&p, hook)] is called for a pointer that is not null; it detours
    the code at [p] and, with the commit, leaves the trampoline in [p]. *)
Definition attaches (w : ScanWorld) (i : nat) (f : string) (p : CrtPtr) : bool :=
  negb (bool_decide (p = PNull)) && DetourAttach w i f.

(** [attach_slot]: what it attaches, and the slot after the commit; [any] is whether
    it attaches anything. *)
Definition attach_slot (w : ScanWorld) (i : nat) (s : CrtSlot) : list Detour * CrtSlot :=
  ((fun f => mkDetour i f (slot_ptr s f)) <$> filter (fun f => attaches w i f (slot_ptr s f) = true) crt_functions,
   map_ptrs (fun f p => if attaches w i f p then PTramp p else p) s).

(** The detaches of a slot: one for each pointer that is not null. *)
Definition detach_slot (i : nat) (s : CrtSlot) : list (nat * string) :=
  (fun f => (i, f)) <$> filter (fun f => slot_ptr s f <> PNull) crt_functions.

(** The first loop of [scan_and_attach]. *)
Fixpoint find_modules (w : ScanWorld) (names : list string) (slots : list CrtSlot) : list CrtSlot :=
  match names with
  | [] => slots
  | name :: names =>
      if decide (kMaxSlots <= length slots)%nat then slots
      else if existsb (fun s => bool_decide (module_name s = name)) slots then find_modules w names slots
      else match fill_slot w name with
           | Some s => find_modules w names (slots ++ [s])
           | None => find_modules w names slots
           end
  end.

(** [if (g_slot_count > i && !g_slot_taken[i]) { any |= attach_slot<i>(); g_slot_taken[i] = true; }]
    for each [i]: what is attached, the slots after the commit, and [g_slot_taken]. *)
Fixpoint attach_slots (w : ScanWorld) (i : nat) (slots : list CrtSlot) (taken : list bool) :
    list Detour * list CrtSlot * list bool :=
  match slots, taken with
  | s :: slots, t :: taken =>
      let '(d, slots', taken') := attach_slots w (S i) slots taken in
      if t then (d, s :: slots', true :: taken')
      else ((attach_slot w i s).1 ++ d, (attach_slot w i s).2 :: slots', true :: taken')
  | _, _ => ([], slots, taken)
  end.

Definition scan_and_attach (w : ScanWorld) (t : HookTable) : bool * HookTable :=
  let slots := find_modules w kCrtModules (g_slots t) in
  if decide (length slots = length (g_slots t)) then (false, mkTable slots (g_slot_taken t) (detours t))
  else
    let '(d, slots', taken) := attach_slots w 0 slots (g_slot_taken t) in
    if negb (DetourTransactionCommit w) then (false, mkTable slots taken (detours t))
    else (negb (bool_decide (d = [])), mkTable slots' taken (detours t ++ d)).

(** [hooked_load_library_ex_w]: what the rescan does after the real load.
    [pass]: [should_pass_through()]. *)
Definition LOAD_LIBRARY_AS_DATAFILE : Z := 2.
Definition LOAD_LIBRARY_AS_IMAGE_RESOURCE : Z := 32.
Definition LOAD_LIBRARY_AS_DATAFILE_EXCLUSIVE : Z := 64.

Definition hooked_load_library_ex_w (w : ScanWorld) (loaded pass : bool) (flags : Z) (t : HookTable) : HookTable :=
  let data_only := Z.lor (Z.lor LOAD_LIBRARY_AS_DATAFILE LOAD_LIBRARY_AS_DATAFILE_EXCLUSIVE) LOAD_LIBRARY_AS_IMAGE_RESOURCE in
  if loaded && (Z.land flags data_only =? 0) && negb pass then snd (scan_and_attach w t) else t.

(** [remove_hooks]: the detaches it asks for. *)
Definition remove_hooks (t : HookTable) : list (nat * string) :=
  concat (imap detach_slot (take kMaxSlots (g_slots t))).

(** ** The table at any time *)

(** [P]: what is assumed of the process at each scan. *)
Inductive scans (P : ScanWorld -> Prop) : HookTable -> HookTable -> Prop :=
| scans_none t : scans P t t
| scans_more w t t' : P w -> scans P t t' -> scans P t (snd (scan_and_attach w t')).

(** The address a pointer goes back to. *)
Fixpoint addr_of (p : CrtPtr) : Z :=
  match p with
  | PNull => 0
  | PAddr a => a
  | PTramp p => addr_of p
  end.

(** Not yet attached. *)
Definition fresh_ptr (p : CrtPtr) : Prop := p = ptr_of (addr_of p).

(** A slot is a runtime of the list with malloc and free, and its pointers go back
    to what [GetProcAddress] gave for it in some scan. *)
Definition slot_ok (P : ScanWorld -> Prop) (s : CrtSlot) : Prop :=
  module_name s ∈ kCrtModules /\ addr_of (real_malloc s) <> 0 /\ addr_of (real_free s) <> 0 /\
  exists w resolve, P w /\ GetModule w (module_name s) = Some resolve /\
    forall f, f ∈ crt_functions -> addr_of (slot_ptr s f) = resolve f.

(** The slots taken are the slots filled; a pointer is fresh, or the trampoline of
    the one detour on it, whose target was fresh. *)
Record table_ok (P : ScanWorld -> Prop) (t : HookTable) : Prop := {
  to_count : (length (g_slots t) <= kMaxSlots)%nat;
  to_names : NoDup (module_name <$> g_slots t);
  to_slots : Forall (slot_ok P) (g_slots t);
  to_taken : g_slot_taken t = replicate (length (g_slots t)) true ++ replicate (kMaxSlots - length (g_slots t)) false;
  to_keys : NoDup (dt_key <$> detours t);
  to_detour : forall d, d ∈ detours t -> dt_function d ∈ crt_functions /\ exists s, g_slots t !! dt_slot d = Some s /\
    slot_ptr s (dt_function d) = PTramp (dt_target d) /\ fresh_ptr (dt_target d) /\ dt_target d <> PNull;
  to_ptr : forall i s f, g_slots t !! i = Some s -> f ∈ crt_functions ->
    fresh_ptr (slot_ptr s f) \/ mkDetour i f (ptr_of (addr_of (slot_ptr s f))) ∈ detours t
}.

Lemma addr_ptr_of a : addr_of (ptr_of a) = a.
Proof. unfold ptr_of. by destruct (Z.eqb_spec a 0) as [->|]. Qed.

Lemma ptr_of_fresh a : fresh_ptr (ptr_of a).
Proof. unfold fresh_ptr. by rewrite addr_ptr_of. Qed.

Lemma crt_functions_NoDup : NoDup crt_functions.
Proof. apply (bool_decide_eq_true_1 _). by vm_compute. Qed.

(** A property of each function, for all five. *)
Lemma crt_functions_forall (Q : string -> Prop) :
  (forall f, f ∈ crt_functions -> Q f) <->
  Q "malloc"%string /\ Q "calloc"%string /\ Q "realloc"%string /\ Q "free"%string /\ Q "_msize"%string.
Proof.
  rewrite <- (Forall_forall Q crt_functions). unfold crt_functions. rewrite !Forall_cons. rewrite Forall_nil. tauto.
Qed.

Lemma slot_ptr_map g s f : f ∈ crt_functions -> slot_ptr (map_ptrs g s) f = g f (slot_ptr s f).
Proof. revert f. by apply (crt_functions_forall (fun f => slot_ptr (map_ptrs g s) f = g f (slot_ptr s f))). Qed.

(** What a slot is when it is filled. *)
Lemma fill_slot_ok (P : ScanWorld -> Prop) w name s : P w -> name ∈ kCrtModules -> fill_slot w name = Some s ->
  module_name s = name /\ slot_ok P s /\ forall f, f ∈ crt_functions -> fresh_ptr (slot_ptr s f).
Proof.
  unfold fill_slot. intros Hw Hn. destruct (GetModule w name) as [r|] eqn:Er; [|done].
  destruct (Z.eqb_spec (r "malloc"%string) 0), (Z.eqb_spec (r "free"%string) 0); cbn [orb]; intros [= <-].
  split; [done|]. split.
  - split; [done|]. cbn [real_malloc real_free module_name]. rewrite !addr_ptr_of. split; [done|]. split; [done|].
    exists w, r. split; [done|]. split; [done|]. apply crt_functions_forall. split_and!; apply addr_ptr_of.
  - apply crt_functions_forall. split_and!; apply ptr_of_fresh.
Qed.

(** ** One scan *)

(** A scan only appends slots, of modules not there yet. *)
Lemma find_modules_ok P w names : P w -> (forall n, n ∈ names -> n ∈ kCrtModules) -> forall slots,
  (length slots <= kMaxSlots)%nat -> NoDup (module_name <$> slots) ->
  exists new, find_modules w names slots = slots ++ new /\ (length (slots ++ new) <= kMaxSlots)%nat /\
    NoDup (module_name <$> slots ++ new) /\
    Forall (fun s => slot_ok P s /\ forall f, f ∈ crt_functions -> fresh_ptr (slot_ptr s f)) new.
Proof.
  intros Hw. induction names as [|name names IH]; intros Hn slots Hl Hd; cbn [find_modules].
  { exists []. by rewrite app_nil_r. }
  assert (Hn' : forall n, n ∈ names -> n ∈ kCrtModules) by (intros; apply Hn; by right).
  case_decide; [exists []; by rewrite app_nil_r|].
  destruct (existsb _ slots) eqn:Ex; [by apply IH|]. destruct (fill_slot w name) as [s|] eqn:E; [|by apply IH].
  destruct (fill_slot_ok P w name s Hw (Hn name ltac:(left)) E) as (Hname & Hs & Hf).
  destruct (IH Hn' (slots ++ [s])) as (new & Hfm & Hl' & Hd' & Hf'); [rewrite length_app; cbn; lia| |].
  - rewrite fmap_app. apply NoDup_app. split; [done|]. split; [|apply NoDup_singleton]. intros x Hx Hs'.
    apply list_elem_of_singleton in Hs' as ->. apply list_elem_of_fmap in Hx as (s' & Hs' & Hin).
    apply not_true_iff_false in Ex. apply Ex, existsb_exists. exists s'. split; [by apply list_elem_of_In|].
    apply bool_decide_eq_true. congruence.
  - exists (s :: new). rewrite Hfm, <- !app_assoc in *. split_and!; try done. by constructor.
Qed.

(** Taken slots are passed over; the others are all attached. *)
Lemma attach_slots_taken w old new tk : forall i,
  attach_slots w i (old ++ new) (replicate (length old) true ++ tk) =
    let '(d, slots, taken) := attach_slots w (i + length old) new tk in (d, old ++ slots, replicate (length old) true ++ taken).
Proof.
  induction old as [|s old IH]; intros i; cbn [app length replicate attach_slots].
  - rewrite Nat.add_0_r. by destruct (attach_slots w i new tk) as [[d slots] taken].
  - rewrite IH, Nat.add_succ_r. cbn. by destruct (attach_slots w (S (i + length old)) new tk) as [[d slots] taken].
Qed.

Definition attached (w : ScanWorld) (i : nat) (new : list CrtSlot) : list Detour :=
  concat (imap (fun j s => (attach_slot w (i + j) s).1) new).

Definition after_attach (w : ScanWorld) (i : nat) (new : list CrtSlot) : list CrtSlot :=
  imap (fun j s => (attach_slot w (i + j) s).2) new.

Lemma attached_cons w i s new : attached w i (s :: new) = (attach_slot w i s).1 ++ attached w (S i) new.
Proof. unfold attached. cbn. rewrite Nat.add_0_r. f_equal. f_equal. apply imap_ext. intros j x _. cbn. by rewrite Nat.add_succ_r. Qed.

Lemma after_attach_cons w i s new : after_attach w i (s :: new) = (attach_slot w i s).2 :: after_attach w (S i) new.
Proof. unfold after_attach. cbn. rewrite Nat.add_0_r. f_equal. apply imap_ext. intros j x _. cbn. by rewrite Nat.add_succ_r. Qed.

Lemma attach_slots_new w new m : forall i, (length new <= m)%nat ->
  attach_slots w i new (replicate m false) =
    (attached w i new, after_attach w i new, replicate (length new) true ++ replicate (m - length new) false).
Proof.
  revert m. induction new as [|s new IH]; intros m i Hm; cbn [length] in *.
  - rewrite Nat.sub_0_r. by destruct m.
  - destruct m as [|m]; [lia|]. cbn [replicate attach_slots]. rewrite IH by lia. by rewrite attached_cons, after_attach_cons.
Qed.

(** What is attached, by slot and function. *)
Lemma elem_of_attached w new : forall i d, d ∈ attached w i new <->
  exists s, (i <= dt_slot d)%nat /\ new !! (dt_slot d - i)%nat = Some s /\ dt_function d ∈ crt_functions /\
    attaches w (dt_slot d) (dt_function d) (slot_ptr s (dt_function d)) = true /\ dt_target d = slot_ptr s (dt_function d).
Proof.
  induction new as [|s new IH]; intros i d.
  { split; [by intros ?%not_elem_of_nil|]. by intros (s & _ & ? & _). }
  rewrite attached_cons, elem_of_app, IH. unfold attach_slot. cbn [fst]. rewrite list_elem_of_fmap. split.
  - intros [(f & -> & [Ha Hf]%list_elem_of_filter)|(s' & Hi & Hs & H)].
    + exists s. cbn. rewrite Nat.sub_diag. by split_and!.
    + exists s'. replace (dt_slot d - i)%nat with (S (dt_slot d - S i)) by lia. split; [lia|done].
  - intros (s' & Hi & Hs & Hf & Ha & Ht). destruct (Nat.eq_dec (dt_slot d) i) as [<-|Hne].
    + left. rewrite Nat.sub_diag in Hs. injection Hs as ->. exists (dt_function d). split; [destruct d; cbn in *; by rewrite Ht|].
      by apply list_elem_of_filter.
    + right. exists s'. replace (dt_slot d - i)%nat with (S (dt_slot d - S i)) in Hs by lia. split; [lia|done].
Qed.

Lemma attached_keys w new : forall i, NoDup (dt_key <$> attached w i new).
Proof.
  induction new as [|s new IH]; intros i; [constructor|]. rewrite attached_cons, fmap_app. apply NoDup_app. split; [|split; [|apply IH]].
  - unfold attach_slot. cbn [fst]. rewrite <- list_fmap_compose. apply NoDup_fmap_2; [by intros f f' [=]|].
    apply NoDup_filter, crt_functions_NoDup.
  - intros k (d & -> & Hd)%list_elem_of_fmap (d' & Hk & Hd')%list_elem_of_fmap. unfold attach_slot in Hd. cbn [fst] in Hd.
    apply list_elem_of_fmap in Hd as (f & -> & _). apply elem_of_attached in Hd' as (s' & Hi & _).
    unfold dt_key in Hk. cbn in Hk. injection Hk as Hk _. lia.
Qed.

Lemma after_attach_lookup w i new j : after_attach w i new !! j = (fun s => (attach_slot w (i + j) s).2) <$> new !! j.
Proof. unfold after_attach. by rewrite list_lookup_imap. Qed.

Lemma attach_slot_addr w i s f : f ∈ crt_functions -> addr_of (slot_ptr (attach_slot w i s).2 f) = addr_of (slot_ptr s f).
Proof. intros Hf. unfold attach_slot. cbn [snd]. rewrite slot_ptr_map by done. by destruct (attaches w i f _). Qed.

Lemma attach_slot_ok P w i s : slot_ok P s -> slot_ok P (attach_slot w i s).2.
Proof.
  intros (Hn & Hm & Hf & w' & r & Hw & Hr & Ha). split; [done|].
  assert (H1 : addr_of (real_malloc (attach_slot w i s).2) = addr_of (real_malloc s)) by (apply (attach_slot_addr w i s "malloc"); left).
  assert (H2 : addr_of (real_free (attach_slot w i s).2) = addr_of (real_free s)) by (apply (attach_slot_addr w i s "free"); do 3 right; left).
  change (addr_of (real_malloc (attach_slot w i s).2) <> 0 /\ addr_of (real_free (attach_slot w i s).2) <> 0 /\
    exists w0 resolve, P w0 /\ GetModule w0 (module_name s) = Some resolve /\
      forall f, f ∈ crt_functions -> addr_of (slot_ptr (attach_slot w i s).2 f) = resolve f).
  rewrite H1, H2. split; [done|]. split; [done|]. exists w', r. split; [done|]. split; [done|].
  intros f Hin. by rewrite attach_slot_addr, Ha.
Qed.

Lemma after_attach_names w i new : module_name <$> after_attach w i new = module_name <$> new.
Proof. unfold after_attach. rewrite fmap_imap. unfold compose. cbn. apply list_eq. intros j. rewrite list_lookup_imap, list_lookup_fmap. done. Qed.

Lemma after_attach_ok P w i new : Forall (slot_ok P) new -> Forall (slot_ok P) (after_attach w i new).
Proof.
  intros H. apply Forall_lookup. intros j s Hs. rewrite after_attach_lookup in Hs. apply fmap_Some in Hs as (s0 & Hs0 & ->).
  apply attach_slot_ok. by apply (proj1 (Forall_lookup _ _) H j).
Qed.

(** One scan: the new slots, and what is attached to them. *)
Lemma scan_spec P w t : P w -> table_ok P t ->
  let t' := snd (scan_and_attach w t) in
  table_ok P t' /\
  (exists new, g_slots t' = g_slots t ++ new) /\
  exists d, detours t' = detours t ++ d /\ (DetourTransactionCommit w = false -> d = []) /\
    forall x, x ∈ d -> (length (g_slots t) <= dt_slot x)%nat.
Proof.
  intros Hw [Hc Hn Hk Ht Hd Hdt Hp]. unfold scan_and_attach.
  destruct (find_modules_ok P w kCrtModules Hw ltac:(done) (g_slots t) Hc Hn) as (new & -> & Hc' & Hn' & Hnew).
  apply Forall_and in Hnew as [Hok Hfresh].
  case_decide as Hlen.
  { rewrite length_app in Hlen. assert (new = []) as -> by (destruct new; cbn in Hlen; [done|lia]). rewrite app_nil_r. cbn.
    split; [by split|]. split; [exists []; by rewrite app_nil_r|]. exists []. rewrite app_nil_r. split; [done|].
    split; [done|]. by intros x ?%not_elem_of_nil. }
  set (k := length (g_slots t)) in *. rewrite length_app in Hc'. fold k in Hc'.
  rewrite Ht, attach_slots_taken, attach_slots_new by lia. fold k. cbn [Nat.add].
  assert (Hlift : forall (b : bool) (x : list CrtSlot), length x = length new ->
    replicate k true ++ replicate (length new) true ++ replicate (kMaxSlots - k - length new) false =
    replicate (length (g_slots t ++ x)) true ++ replicate (kMaxSlots - length (g_slots t ++ x)) false).
  { intros _ x Hx. rewrite app_assoc, <- replicate_add, length_app, Hx. fold k. by rewrite Nat.sub_add_distr. }
  assert (Hold : forall x i s, g_slots t !! i = Some s -> (g_slots t ++ x) !! i = Some s) by (intros; by apply lookup_app_l_Some).
  destruct (DetourTransactionCommit w); cbn [negb snd g_slots g_slot_taken detours].
  - assert (Hal : length (after_attach w k new) = length new) by apply length_imap.
    split; [|split; [by eexists|exists (attached w k new); split; [done|split; [done|intros x Hx; by apply elem_of_attached in Hx as (? & ? & _)]]]].
    split; cbn [g_slots g_slot_taken detours].
    + rewrite length_app, Hal. fold k. lia.
    + by rewrite fmap_app, after_attach_names, <- fmap_app.
    + apply Forall_app. split; [done|]. by apply after_attach_ok.
    + by apply (Hlift true).
    + rewrite fmap_app. apply NoDup_app. split; [done|]. split; [|apply attached_keys].
      intros y (d & -> & Hin)%list_elem_of_fmap (d' & Hy & Hin')%list_elem_of_fmap. apply elem_of_attached in Hin' as (? & Hle & _).
      destruct (Hdt d Hin) as (_ & s & Hs%lookup_lt_Some & _). injection Hy as Hy _. rewrite Hy in Hs. fold k in Hs. lia.
    + intros d [Hin|Hin]%elem_of_app.
      { destruct (Hdt d Hin) as (? & s & Hs & ?). split; [done|]. exists s. split; [by apply Hold|done]. }
      apply elem_of_attached in Hin as (s & Hle & Hs & Hf & Ha & Htg). split; [done|].
      exists (attach_slot w (dt_slot d) s).2. split.
      { rewrite lookup_app_r by done. fold k. rewrite after_attach_lookup, Hs. cbn. by replace (k + (dt_slot d - k))%nat with (dt_slot d) by lia. }
      unfold attach_slot. cbn [snd]. rewrite slot_ptr_map, Ha, Htg by done. split; [done|].
      split; [by apply (proj1 (Forall_lookup _ _) Hfresh _ _ Hs)|]. intros He. unfold attaches in Ha. by rewrite He in Ha.
    + intros i s f Hs Hf. destruct (decide (i < k)%nat) as [Hi|Hi].
      { rewrite lookup_app_l in Hs by done. destruct (Hp i s f Hs Hf) as [?|Hin]; [by left|right]. apply elem_of_app. by left. }
      rewrite lookup_app_r in Hs by (fold k; lia). fold k in Hs. rewrite after_attach_lookup in Hs. apply fmap_Some in Hs as (s0 & Hs0 & ->).
      replace (k + (i - k))%nat with i by lia. pose proof (proj1 (Forall_lookup _ _) Hfresh _ _ Hs0 f Hf) as Hfr.
      unfold attach_slot. cbn [snd]. rewrite slot_ptr_map by done. destruct (attaches w i f (slot_ptr s0 f)) eqn:Ea; [right|by left].
      apply elem_of_app. right. apply elem_of_attached. cbn [dt_slot dt_function dt_target addr_of]. exists s0.
      split_and!; [lia|done|done|done|by symmetry].
  - split; [|split; [by exists new|exists []; rewrite app_nil_r; split; [done|split; [done|by intros ? ?%not_elem_of_nil]]]].
    split; cbn [g_slots g_slot_taken detours]; [rewrite length_app; fold k; lia|done|by apply Forall_app|by apply (Hlift true)|done| |].
    + intros d Hin. destruct (Hdt d Hin) as (? & s & Hs & ?). split; [done|]. exists s. split; [by apply Hold|done].
    + intros i s f Hs Hf. apply lookup_app_Some in Hs as [Hs|[_ Hs]]; [by apply (Hp i)|left].
      by apply (proj1 (Forall_lookup _ _) Hfresh _ _ Hs).
Qed.

Lemma HookTable_new_ok P : table_ok P HookTable_new.
Proof. split; cbn; try done; [lia|constructor|constructor|by intros ? ?%not_elem_of_nil]. Qed.

Lemma scans_ok P t t' : table_ok P t -> scans P t t' -> table_ok P t'.
Proof. intros Hok Hs. induction Hs as [|w t t' Hw _ IH]; [done|]. by apply scan_spec, IH. Qed.

Lemma scans_mono (P Q : ScanWorld -> Prop) t t' : (forall w, P w -> Q w) -> scans P t t' -> scans Q t t'.
Proof. intros HPQ. induction 1; [constructor|]. constructor; auto. Qed.

(** Slots stay, and a slot filled before a scan gets no detour from it. *)
Lemma scans_frozen P t t' i s : table_ok P t -> scans P t t' -> g_slots t !! i = Some s ->
  g_slots t' !! i = Some s /\ forall d, d ∈ detours t' -> dt_slot d = i -> d ∈ detours t.
Proof.
  intros Hok Hs Hi. induction Hs as [|w t t' Hw Hs IH]; [done|]. destruct (IH Hok Hi) as [Hi' Hf].
  destruct (scan_spec P w t' Hw (scans_ok _ _ _ Hok Hs)) as (_ & (new & ->) & d & -> & _ & Hd).
  split; [by apply lookup_app_l_Some|]. intros x [Hin|Hin]%elem_of_app Hx; [by apply Hf|].
  apply lookup_lt_Some in Hi'. specialize (Hd x Hin). lia.
Qed.

Lemma attach_slot_keys w i s :
  dt_key <$> (attach_slot w i s).1 = (fun f => (i, f)) <$> filter (fun f => attaches w i f (slot_ptr s f) = true) crt_functions.
Proof. unfold attach_slot. cbn [fst]. by rewrite <- list_fmap_compose. Qed.

(** When every attach works, a detach of the slot takes back what was attached. *)
Lemma attach_detach w i s : (forall j f, DetourAttach w j f = true) -> detach_slot i (attach_slot w i s).2 = dt_key <$> (attach_slot w i s).1.
Proof.
  intros Hw. rewrite attach_slot_keys. unfold detach_slot. f_equal. apply list_filter_iff. intros f.
  assert (Ha : forall p, attaches w i f p = true <-> p <> PNull).
  { intros p. unfold attaches. rewrite Hw, andb_true_r, negb_true_iff, bool_decide_eq_false. done. }
  rewrite Ha. destruct (decide (f ∈ crt_functions)) as [Hf|Hf].
  - unfold attach_slot. cbn [snd]. rewrite slot_ptr_map by done. destruct (attaches w i f (slot_ptr s f)) eqn:E; [|done].
    apply Ha in E. done.
  - assert (Hn : forall s', slot_ptr s' f = PNull); [|by rewrite !Hn].
    intros s'. unfold slot_ptr. unfold crt_functions in Hf. rewrite !not_elem_of_cons in Hf. destruct Hf as (? & ? & ? & ? & ? & _).
    by repeat rewrite bool_decide_eq_false_2 by done.
Qed.

Lemma attached_detached w new : (forall j f, DetourAttach w j f = true) -> forall i,
  concat (imap (fun j => detach_slot (i + j)) (after_attach w i new)) = dt_key <$> attached w i new.
Proof.
  intros Hw. induction new as [|s new IH]; intros i; [done|]. rewrite attached_cons, after_attach_cons, fmap_app, <- IH.
  cbn [imap concat]. rewrite Nat.add_0_r, attach_detach by done. f_equal. f_equal. apply imap_ext. intros j x _. cbn. by rewrite Nat.add_succ_r.
Qed.






(** ** Properties *)


(** When every attach and commit works, [remove_hooks] asks back exactly the
    detours in place, slot by slot and function by function. *)
Theorem remove_hooks_exact t :
  scans (fun w => DetourTransactionCommit w = true /\ forall i f, DetourAttach w i f = true) HookTable_new t ->
  remove_hooks t = dt_key <$> detours t.
Proof.
  set (P := fun w => _). remember HookTable_new as t0 eqn:E0. intros Hs. induction Hs as [|w t t' [Hc Ha] Hs IH]; subst; [done|].
  specialize (IH eq_refl). pose proof (scans_ok P _ _ (HookTable_new_ok P) Hs) as Hok.
  assert (Hw : P w) by done. pose proof (scan_spec P w t' Hw Hok) as [Hok' _]. unfold remove_hooks in *.
  rewrite take_ge in IH |- * by (apply (to_count P); done). clear Hok'. unfold scan_and_attach.
  destruct (find_modules_ok P w kCrtModules Hw ltac:(done) (g_slots t') (to_count _ _ Hok) (to_names _ _ Hok)) as (new & -> & Hc' & _).
  case_decide as Hlen.
  - rewrite length_app in Hlen. assert (new = []) as -> by (destruct new; cbn in Hlen; [done|lia]).
    cbn. by rewrite app_nil_r.
  - rewrite length_app in Hc'. rewrite (to_taken _ _ Hok), attach_slots_taken, attach_slots_new by lia. rewrite Hc. cbn [negb snd g_slots detours Nat.add].
    rewrite imap_app, concat_app, IH, fmap_app. f_equal. by apply attached_detached.
Qed.

(** A scan whose transaction fails still marks its slots taken: no later scan
    puts a detour on those runtimes, whatever happens, though they hold a slot. *)
Theorem failed_commit_is_final w t t' i s :
  scans (fun _ => True) HookTable_new t -> DetourTransactionCommit w = false -> (length (g_slots t) <= i)%nat ->
  g_slots (snd (scan_and_attach w t)) !! i = Some s -> scans (fun _ => True) (snd (scan_and_attach w t)) t' ->
  g_slots t' !! i = Some s /\ forall d, d ∈ detours t' -> dt_slot d <> i.
Proof.
  intros Hs Hc Hi Hsl Hs'. pose proof (scans_ok _ _ _ (HookTable_new_ok _) Hs) as Hok.
  destruct (scan_spec _ w t I Hok) as (Hok1 & _ & d & Hd & Hnil & _).
  destruct (scans_frozen _ _ t' i s Hok1 Hs' Hsl) as [Hsl' Hf]. split; [done|]. intros x Hx He. pose proof (Hf x Hx He) as Hin.
  rewrite Hd, (Hnil Hc), app_nil_r in Hin. destruct (to_detour _ _ Hok x Hin) as (_ & s' & Hl%lookup_lt_Some & _). lia.
Qed.

(** *** A process *)

(** ucrtbase.dll is loaded at first, msvcrt.dll later; no [_msize] in the latter. *)
Definition demo_address (module function : string) : Z :=
  if bool_decide (module = "msvcrt.dll"%string /\ function = "_msize"%string) then 0
  else 1000 * zlen (String.list_byte_of_string module) + Z.of_nat (default 0%nat (fst <$> list_find (fun f => f = function) crt_functions)).

Definition demo_world (loaded : list string) (commit : bool) : ScanWorld := mkWorld
  (fun n => if bool_decide (n ∈ loaded) then Some (demo_address n) else None) (fun _ _ => true) commit.

Definition demo_first : HookTable := snd (scan_and_attach (demo_world ["ucrtbase.dll"%string] true) HookTable_new).

Example second_scan_hooks_second_runtime :
  dt_key <$> detours (snd (scan_and_attach (demo_world ["msvcrt.dll"; "ucrtbase.dll"]%string true) demo_first)) =
  [(0, "malloc"); (0, "calloc"); (0, "realloc"); (0, "free"); (0, "_msize");
   (1, "malloc"); (1, "calloc"); (1, "realloc"); (1, "free")]%nat%string.
Proof. by vm_compute. Qed.



Lemma remove_hooks_exact_witness : remove_hooks demo_first = dt_key <$> detours demo_first.
Proof. apply remove_hooks_exact. by repeat constructor. Defined.

Lemma failed_commit_is_final_witness :
  let t := snd (scan_and_attach (demo_world ["msvcrt.dll"; "ucrtbase.dll"]%string false) demo_first) in
  let t' := snd (scan_and_attach (demo_world ["msvcrt.dll"; "ucrtbase.dll"]%string true) t) in
  forall d, d ∈ detours t' -> dt_slot d <> 1%nat.
Proof.
  refine (proj2 (failed_commit_is_final (demo_world ["msvcrt.dll"; "ucrtbase.dll"]%string false) demo_first _ 1
    (mkSlot "msvcrt.dll" (ptr_of (demo_address "msvcrt.dll" "malloc")) (ptr_of (demo_address "msvcrt.dll" "calloc"))
      (ptr_of (demo_address "msvcrt.dll" "realloc")) (ptr_of (demo_address "msvcrt.dll" "free")) PNull) _ _ _ _ _)).
  - by repeat constructor.
  - done.
  - by vm_compute.
  - by vm_compute.
  - by repeat constructor.
Defined.
