(* ===== verification/LocalIpc.v ===== *)
(** * Local requests over Unix sockets and named pipes

    [platform/src/linux/local_ipc_linux.cpp] (macos/local_ipc_mac.cpp is the same
    text) and [platform/src/windows/local_ipc_win.cpp]: the transport of both
    control sockets.  One request and one reply per connection, each behind its
    length.  What the kernel does with the calls on a connected socket is a
    script: how it cuts the incoming bytes, how many outgoing ones each [write]
    takes, where a signal interrupts a call, where an error or the end comes. *)

From S2P Require Import Prelude.

(** ** Descriptors *)

(** What the next [read] meets: bytes (none: end of file), a signal, an error.
    A read of an empty script waits for ever. *)
Inductive read_event :=
| InBytes (l : list byte)
| InIntr
| InError.

(** What the next [write] does: it takes up to [k] bytes, is interrupted, finds
    that the peer has closed its end, or fails.  With an empty script every write
    takes all it is given. *)
Inductive write_event :=
| OutTake (k : Z)
| OutIntr
| OutPipe
| OutError.

Record Fd := mkFd {
  fd_in : list read_event;
  fd_out : list write_event;
  fd_written : list byte
}.

Inductive io_result (A : Type) :=
| IoOk (a : A)
| IoIntr
| IoError.
Arguments IoOk {A} a.
Arguments IoIntr {A}.
Arguments IoError {A}.

Inductive write_result :=
| WOk (n : Z)
| WIntr
| WPipe
| WError.

(** [::read(fd, p, n)]. *)
Definition sys_read (n : Z) : M Fd (io_result (list byte)) :=
  let! s := get in
  match fd_in s with
  | [] => nofuel
  | InBytes l :: evs =>
      if zlen l <=? n then do! put (mkFd evs (fd_out s) (fd_written s)) in ret (IoOk l)
      else
        do! put (mkFd (InBytes (drop (Z.to_nat n) l) :: evs) (fd_out s) (fd_written s)) in
        ret (IoOk (take (Z.to_nat n) l))
  | InIntr :: evs => do! put (mkFd evs (fd_out s) (fd_written s)) in ret IoIntr
  | InError :: evs => do! put (mkFd evs (fd_out s) (fd_written s)) in ret IoError
  end.

(** [::write(fd, p, n)] of the bytes [l]: how many were taken.  [WPipe]: the peer is
    gone, which on POSIX comes with the signal SIGPIPE. *)
Definition sys_write (l : list byte) : M Fd write_result :=
  let! s := get in
  match fd_out s with
  | [] => do! put (mkFd (fd_in s) [] (fd_written s ++ l)) in ret (WOk (zlen l))
  | OutTake k :: evs =>
      let k := Z.min (Z.max k 0) (zlen l) in
      do! put (mkFd (fd_in s) evs (fd_written s ++ take (Z.to_nat k) l)) in ret (WOk k)
  | OutIntr :: evs => do! put (mkFd (fd_in s) evs (fd_written s)) in ret WIntr
  | OutPipe :: evs => do! put (mkFd (fd_in s) evs (fd_written s)) in ret WPipe
  | OutError :: evs => do! put (mkFd (fd_in s) evs (fd_written s)) in ret WError
  end.

(** Death by SIGPIPE.  Neither the daemons nor the clients block, ignore or handle
    the signal, so a write to a peer that is gone ends the process there and then.
    As an outcome it is an exception that nothing on the way catches. *)
Definition sigpipe : exn := runtime_error "SIGPIPE".

(** ** The code *)

Definition kMaxIpcMessageBytes : Z := 64 * 1024 * 1024.

(** The loop of [read_exact]: [acc] is what [p[0 .. done)] holds.  The fuel is
    one step per byte and per event of the script. *)
Fixpoint fd_read_loop (fuel : nat) (len : Z) (acc : list byte) : M Fd (bool * list byte) :=
  if zlen acc <? len then
    match fuel with
    | O => nofuel
    | S fuel =>
        let! r := sys_read (len - zlen acc) in
        match r with
        | IoOk [] => ret (false, acc)
        | IoOk l => fd_read_loop fuel len (acc ++ l)
        | IoIntr => fd_read_loop fuel len acc
        | IoError => ret (false, acc)
        end
    end
  else ret (true, acc).

Definition read_exact (len : Z) : M Fd (bool * list byte) :=
  fun s => fd_read_loop (Z.to_nat len + length (fd_in s)) len [] s.

Fixpoint fd_write_loop (fuel : nat) (src : list byte) : M Fd bool :=
  if zlen src =? 0 then ret true
  else
    match fuel with
    | O => nofuel
    | S fuel =>
        let! r := sys_write src in
        match r with
        | WOk n => if 0 <? n then fd_write_loop fuel (drop (Z.to_nat n) src) else ret false
        | WIntr => fd_write_loop fuel src
        | WPipe => throw sigpipe
        | WError => ret false
        end
    end.

Definition write_exact (src : list byte) : M Fd bool :=
  fun s => fd_write_loop (length src + length (fd_out s)) src s.

(** [sizeof(addr.sun_path)] is 108 on Linux and 104 on macOS. *)
Definition set_sun_path (sun_path_size : Z) (name : list byte) : bool :=
  negb ((zlen name =? 0) || (sun_path_size <=? zlen name)).

(** The part of [send_request] on the connected socket. *)
Definition exchange_on_fd (req : list byte) : M Fd (list byte) :=
  let! w1 := write_exact (le_bytes 4 (u32 (zlen req))) in
  let! w2 := (if w1 then write_exact req else ret false) in
  if negb w2 then ret []
  else
    let! r := read_exact 4 in
    if negb (fst r) then ret []
    else
      let resp_len := le_value (snd r) in
      if kMaxIpcMessageBytes <? resp_len then ret []
      else if 0 <? resp_len then
        let! r := read_exact resp_len in
        ret (if fst r then snd r else [])
      else ret [].

(** [send_request]; [sock] and [conn]: [socket] and [connect] succeed. *)
Definition ipc_send_request (sun_path_size : Z) (sock conn : bool) (name req : list byte) : M Fd (list byte) :=
  if kMaxIpcMessageBytes <? zlen req then ret []
  else if negb (set_sun_path sun_path_size name) then ret []
  else if negb sock then ret []
  else if negb conn then ret []
  else exchange_on_fd req.

(** [serve_client]; [None]: no handler is set. *)
Definition serve_client (handler : option (list byte -> list byte)) : M Fd unit :=
  let! r := read_exact 4 in
  if negb (fst r) then ret tt
  else
    let len := le_value (snd r) in
    if kMaxIpcMessageBytes <? len then ret tt
    else
      let! r := (if 0 <? len then read_exact len else ret (true, [])) in
      if negb (fst r) then ret tt
      else
        let resp := match handler with Some f => f (snd r) | None => [] end in
        let resp_len := u32 (zlen resp) in
        let! w := write_exact (le_bytes 4 resp_len) in
        if negb w then ret tt
        else if 0 <? resp_len then do! write_exact resp in ret tt
        else ret tt.

(** *** The listening object *)

(** What happens to the accept loop: a signal or a timeout of [poll], an error of
    it, what [accept] did, or [stop] from another thread. *)
Inductive loop_event :=
| PollIntr
| PollTimeout
| PollError
| AcceptRetry
| AcceptFail
| AcceptClient (fd : Fd)
| StopRequested.

(** [accept_loop]; the state is the list of served and closed connections, the
    result whether the loop has ended (else it is still polling).  A connection
    on which [serve_client] waits holds up the loop for ever, and one on which it
    dies ends the process. *)
Fixpoint accept_loop (handler : option (list byte -> list byte)) (running_ : bool) (evs : list loop_event) : M (list Fd) bool :=
  if negb running_ then ret true
  else
    match evs with
    | [] => ret false
    | StopRequested :: evs => accept_loop handler false evs
    | PollIntr :: evs | PollTimeout :: evs | AcceptRetry :: evs => accept_loop handler running_ evs
    | PollError :: _ | AcceptFail :: _ => ret true
    | AcceptClient fd :: evs =>
        let '(o, fd) := serve_client handler fd in
        match o with
        | Ret _ => do! (fun served => (Ret tt, served ++ [fd])) in accept_loop handler running_ evs
        | Throw e => throw e
        | Undef => undef
        | NoFuel => nofuel
        end
    end.

(** The object with what it holds of the system: open descriptors, and the
    socket files of the file system. *)
Record LocalIpcPosix := mkIpc {
  server_fd_ : Z;
  socket_path_ : list byte;
  ipc_running_ : bool;
  ipc_handler_ : option (list byte -> list byte);
  os_fds : gset Z;
  os_paths : gset (list byte)
}.

(** What comes of the listening thread once [running_] is false, when the events
    [evs] come before it looks again: it returns, it waits for ever in
    [serve_client], or it takes the process down. *)
Definition thread_end (handler : option (list byte -> list byte)) (evs : list loop_event) : outcome unit :=
  match fst (accept_loop handler true (evs ++ [StopRequested]) []) with
  | Ret _ => Ret tt
  | Throw e => Throw e
  | Undef => Undef
  | NoFuel => NoFuel
  end.

(** [stop] after the join. *)
Definition ipc_release (i : LocalIpcPosix) : LocalIpcPosix :=
  let fds := if 0 <=? server_fd_ i then os_fds i ∖ {[server_fd_ i]} else os_fds i in
  let paths := if bool_decide (socket_path_ i = []) then os_paths i else os_paths i ∖ {[socket_path_ i]} in
  mkIpc (-1) [] false None fds paths.

(** [stop].  The thread is started where the descriptor is stored, and joined where
    it is cleared; [th] is what comes of it.  The join is first: until the thread
    ends nothing is closed. *)
Definition ipc_stop (th : outcome unit) : M LocalIpcPosix unit :=
  let! i := get in
  do! put (mkIpc (server_fd_ i) (socket_path_ i) false (ipc_handler_ i) (os_fds i) (os_paths i)) in
  do! (fun i => (if 0 <=? server_fd_ i then th else Ret tt, i)) in
  fun i => (Ret tt, ipc_release i).

(** What comes of a listening thread that [listen] has to join, and what [socket],
    [bind] and [listen] answer. *)
Record ListenAnswers := mkAnswers { la_join : outcome unit; la_fd : Z; la_bind : bool; la_listen : bool }.

(** [listen] after its [stop]. *)
Definition ipc_open (sun_path_size : Z) (a : ListenAnswers) (name : list byte) (cb : list byte -> list byte)
    (i : LocalIpcPosix) : LocalIpcPosix :=
  if negb (set_sun_path sun_path_size name) then i
  else
    let paths := os_paths i ∖ {[name]} in
    let i := mkIpc (server_fd_ i) (socket_path_ i) (ipc_running_ i) (ipc_handler_ i) (os_fds i) paths in
    if la_fd a <? 0 then i
    else if negb (la_bind a) then i
    else if negb (la_listen a) then i
    else mkIpc (la_fd a) name true (Some cb) ({[la_fd a]} ∪ os_fds i) ({[name]} ∪ paths).

Definition ipc_listen (sun_path_size : Z) (a : ListenAnswers) (name : list byte) (cb : list byte -> list byte) :
    M LocalIpcPosix unit :=
  do! ipc_stop (la_join a) in
  fun i => (Ret tt, ipc_open sun_path_size a name cb i).

(** Several calls of [listen]. *)
Fixpoint ipc_listens (sun_path_size : Z) (calls : list (ListenAnswers * list byte * (list byte -> list byte))) :
    M LocalIpcPosix unit :=
  match calls with
  | [] => ret tt
  | (a, name, cb) :: calls => do! ipc_listen sun_path_size a name cb in ipc_listens sun_path_size calls
  end.

(** ** Streams *)

(** The bytes a script lets through, and whether it then ends (it waits if not). *)
Fixpoint stream (evs : list read_event) : list byte :=
  match evs with
  | InBytes [] :: _ | InError :: _ | [] => []
  | InBytes l :: evs => l ++ stream evs
  | InIntr :: evs => stream evs
  end.

Fixpoint ends (evs : list read_event) : bool :=
  match evs with
  | InBytes [] :: _ | InError :: _ => true
  | InBytes _ :: evs | InIntr :: evs => ends evs
  | [] => false
  end.

(** No write fails. *)
Definition writable (evs : list write_event) : Prop :=
  Forall (fun e => match e with OutTake k => 0 < k | OutIntr => True | OutPipe | OutError => False end) evs.

(** One [read] of up to [n > 0] bytes. *)
Lemma sys_read_spec n s : 0 < n ->
  match sys_read n s with
  | (Ret r, s') =>
      fd_out s' = fd_out s /\ fd_written s' = fd_written s /\ (length (fd_in s') <= length (fd_in s))%nat /\
      match r with
      | IoOk [] | IoError => stream (fd_in s) = [] /\ ends (fd_in s) = true
      | IoOk l => stream (fd_in s) = l ++ stream (fd_in s') /\ ends (fd_in s') = ends (fd_in s) /\ zlen l <= n
      | IoIntr => stream (fd_in s) = stream (fd_in s') /\ ends (fd_in s') = ends (fd_in s) /\
          (length (fd_in s') < length (fd_in s))%nat
      end
  | (o, _) => o = NoFuel /\ stream (fd_in s) = [] /\ ends (fd_in s) = false
  end.
Proof.
  intros Hn. destruct s as [[|[l| |] evs] out wr]; unfold sys_read; rewrite bind_get; cbn [fd_in fd_out fd_written length].
  - done.
  - destruct (Z.leb_spec (zlen l) n) as [Hfit|Hlong]; rewrite bind_put; cbn.
    + destruct l as [|b l]; split_and!; try done; unfold zlen in *; cbn in *; lia.
    + assert (Hl : l = take (Z.to_nat n) l ++ drop (Z.to_nat n) l) by by rewrite take_drop.
      assert (H1 : zlen (take (Z.to_nat n) l) = n) by (unfold zlen in *; rewrite length_take; lia).
      assert (H2 : 0 < zlen (drop (Z.to_nat n) l)) by (unfold zlen in *; rewrite length_drop; lia).
      revert Hl H1 H2. generalize (take (Z.to_nat n) l), (drop (Z.to_nat n) l). intros t t' Hl H1 H2.
      destruct t as [|b t]; [rewrite zlen_nil in H1; lia|]. destruct t' as [|b' t']; [by change (0 < 0) in H2; lia|].
      subst l. cbn. rewrite <- app_assoc. split_and!; try done. by rewrite <- H1.
  - rewrite bind_put. cbn. split_and!; done || lia.
  - rewrite bind_put. cbn. split_and!; done || lia.
Qed.

(** The loop reads on to [len] bytes, or to the end of the stream, or waits. *)
Lemma fd_read_loop_spec len : forall fuel acc s,
  zlen acc <= len -> len - zlen acc + zlen (fd_in s) <= Z.of_nat fuel ->
  let got := stream (fd_in s) in
  if len <=? zlen acc + zlen got then
    exists evs, fd_read_loop fuel len acc s =
      (Ret (true, acc ++ take (Z.to_nat (len - zlen acc)) got), mkFd evs (fd_out s) (fd_written s)) /\
      stream evs = drop (Z.to_nat (len - zlen acc)) got /\ ends evs = ends (fd_in s)
  else if ends (fd_in s) then
    exists evs, fd_read_loop fuel len acc s = (Ret (false, acc ++ got), mkFd evs (fd_out s) (fd_written s))
  else fst (fd_read_loop fuel len acc s) = NoFuel.
Proof.
  induction fuel as [|fuel IH]; intros acc s Hl Hf; cbv zeta; pose proof (zlen_nonneg (fd_in s)); pose proof (zlen_nonneg (stream (fd_in s))).
  { destruct (Z.leb_spec len (zlen acc + zlen (stream (fd_in s)))); [|lia]. cbn.
    destruct (Z.ltb_spec (zlen acc) len); [lia|]. exists (fd_in s). destruct s. cbn.
    replace (len - zlen acc) with 0 by lia. by rewrite take_0, drop_0, app_nil_r. }
  cbn [fd_read_loop]. destruct (Z.ltb_spec (zlen acc) len) as [Hlt|Hge].
  2: { destruct (Z.leb_spec len (zlen acc + zlen (stream (fd_in s)))); [|lia]. exists (fd_in s). destruct s. cbn.
       replace (len - zlen acc) with 0 by lia. by rewrite take_0, drop_0, app_nil_r. }
  pose proof (sys_read_spec (len - zlen acc) s ltac:(lia)) as Hr. unfold bind.
  destruct (sys_read (len - zlen acc) s) as [[r|e| |] s'] eqn:E; [|destruct Hr as (? & -> & ->); done || (destruct (Z.leb_spec len (zlen acc + zlen (@nil byte))); [rewrite zlen_nil in *; lia|done])..].
  destruct Hr as (Ho & Hw & Hlen & Hr). destruct s' as [evs' out' wr']. cbn in Ho, Hw, Hlen, Hr. subst out' wr'.
  assert (Hstop : forall evs, stream (fd_in s) = [] /\ ends (fd_in s) = true ->
    if len <=? zlen acc + zlen (stream (fd_in s)) then exists evs', (Ret (false, acc), mkFd evs (fd_out s) (fd_written s)) =
        (Ret (true, acc ++ take (Z.to_nat (len - zlen acc)) (stream (fd_in s))), mkFd evs' (fd_out s) (fd_written s)) /\
        stream evs' = drop (Z.to_nat (len - zlen acc)) (stream (fd_in s)) /\ ends evs' = ends (fd_in s)
    else if ends (fd_in s) then exists evs', (Ret (false, acc), mkFd evs (fd_out s) (fd_written s)) =
        (Ret (false, acc ++ stream (fd_in s)), mkFd evs' (fd_out s) (fd_written s))
    else fst (Ret (false, acc) : outcome (bool * list byte), mkFd evs (fd_out s) (fd_written s)) = NoFuel).
  { intros evs [-> ->]. rewrite zlen_nil. destruct (Z.leb_spec len (zlen acc + 0)); [lia|]. exists evs. by rewrite app_nil_r. }
  destruct r as [l| |].
  - destruct l as [|b l]; [by apply Hstop|]. destruct Hr as (Hs & He & Hfit).
    rewrite zlen_cons in Hfit. pose proof (zlen_nonneg l).
    specialize (IH (acc ++ b :: l) (mkFd evs' (fd_out s) (fd_written s))). cbn [fd_in fd_out fd_written] in IH. cbv zeta in IH.
    rewrite !zlen_app, !zlen_cons in IH. rewrite Hs, <- He, zlen_app, zlen_cons.
    replace (zlen acc + (1 + zlen l) + zlen (stream evs')) with (zlen acc + (1 + zlen l + zlen (stream evs'))) in IH by lia.
    specialize (IH ltac:(lia) ltac:(unfold zlen in *; lia)).
    destruct (len <=? zlen acc + (1 + zlen l + zlen (stream evs'))).
    + destruct IH as (evs2 & -> & Hs2 & He2). exists evs2.
      replace (Z.to_nat (len - zlen acc)) with (length (b :: l) + Z.to_nat (len - (zlen acc + (1 + zlen l))))%nat
        by (unfold zlen in *; cbn [length]; lia).
      rewrite take_app_add, drop_app_add, <- app_assoc. done.
    + destruct (ends evs'); [|done]. destruct IH as (evs2 & ->). exists evs2. by rewrite <- app_assoc.
  - destruct Hr as (Hs & He & Hlt'). rewrite Hs, <- He.
    exact (IH acc (mkFd evs' (fd_out s) (fd_written s)) Hl ltac:(cbn; unfold zlen in *; lia)).
  - by apply Hstop.
Qed.

(** [read_exact] on every script: all the bytes, or what there was before the
    end, or it waits for more. *)
Lemma read_exact_spec len s : 0 <= len ->
  let got := stream (fd_in s) in
  if len <=? zlen got then
    exists evs, read_exact len s = (Ret (true, take (Z.to_nat len) got), mkFd evs (fd_out s) (fd_written s)) /\
      stream evs = drop (Z.to_nat len) got /\ ends evs = ends (fd_in s)
  else if ends (fd_in s) then exists evs, read_exact len s = (Ret (false, got), mkFd evs (fd_out s) (fd_written s))
  else fst (read_exact len s) = NoFuel.
Proof.
  intros Hl. pose proof (fd_read_loop_spec len (Z.to_nat len + length (fd_in s)) [] s) as H.
  change (zlen (@nil byte)) with 0 in H. rewrite Z.sub_0_r in H. unfold read_exact. apply H; unfold zlen; lia.
Qed.

Lemma read_exact_ok len s : 0 <= len <= zlen (stream (fd_in s)) ->
  exists evs, read_exact len s = (Ret (true, take (Z.to_nat len) (stream (fd_in s))), mkFd evs (fd_out s) (fd_written s)) /\
    stream evs = drop (Z.to_nat len) (stream (fd_in s)) /\ ends evs = ends (fd_in s).
Proof.
  intros [Hl Hs]. pose proof (read_exact_spec len s Hl) as H. cbv zeta in H. by rewrite (proj2 (Z.leb_le _ _) Hs) in H.
Qed.

(** What comes back from [read_exact], if it comes back. *)
Lemma read_exact_inv len s : 0 <= len ->
  match read_exact len s with
  | (Ret (b, l), s') => fd_out s' = fd_out s /\ fd_written s' = fd_written s /\
      (b = true -> len <= zlen (stream (fd_in s)) /\ l = take (Z.to_nat len) (stream (fd_in s)) /\
                   stream (fd_in s') = drop (Z.to_nat len) (stream (fd_in s)) /\ ends (fd_in s') = ends (fd_in s)) /\
      (b = false -> zlen (stream (fd_in s)) < len /\ ends (fd_in s) = true)
  | (o, _) => o = NoFuel /\ zlen (stream (fd_in s)) < len /\ ends (fd_in s) = false
  end.
Proof.
  intros Hl. pose proof (read_exact_spec len s Hl) as H. cbv zeta in H.
  destruct (Z.leb_spec len (zlen (stream (fd_in s)))) as [Hle|Hlt].
  - destruct H as (evs & -> & Hs & He). cbn. by split_and!.
  - destruct (ends (fd_in s)) eqn:Ee; [destruct H as (evs & ->); cbn; by split_and!|].
    destruct (read_exact len s) as [o s']. cbn in H. by subst o.
Qed.

(** How a write ends: all is written, not all, or the process dies of it, which takes
    a peer that has gone. *)
Definition write_ends (out : list write_event) (o : outcome bool) : Prop :=
  (exists b, o = Ret b) \/ (o = Throw sigpipe /\ OutPipe ∈ out).

Lemma write_ends_mono out out' o : (forall e, e ∈ out -> e ∈ out') -> write_ends out o -> write_ends out' o.
Proof. intros H [?|[? ?]]; [by left|right; auto]. Qed.

Lemma fd_write_loop_spec fuel : forall src s,
  (length src + length (fd_out s) <= fuel)%nat ->
  exists o k evs, fd_write_loop fuel src s = (o, mkFd (fd_in s) evs (fd_written s ++ take k src)) /\
    (o = Ret true -> (length src <= k)%nat) /\ (forall e, e ∈ evs -> e ∈ fd_out s) /\ write_ends (fd_out s) o /\
    (writable (fd_out s) -> o = Ret true /\ writable evs).
Proof.
  induction fuel as [|fuel IH]; intros src s Hf.
  { destruct src; [|cbn in Hf; lia]. exists (Ret true), 0%nat, (fd_out s). cbn. rewrite app_nil_r. destruct s.
    split_and!; try done. left. by eexists. }
  cbn [fd_write_loop]. destruct (Z.eqb_spec (zlen src) 0) as [Hz|Hz].
  { destruct src; [|unfold zlen in Hz; cbn in Hz; lia]. exists (Ret true), 0%nat, (fd_out s). rewrite app_nil_r. destruct s.
    split_and!; try done. left. by eexists. }
  unfold sys_write, bind, get, put, ret. destruct s as [i [|[k| | |] evs] wr]; cbn [fd_in fd_out fd_written length] in *.
  - rewrite (proj2 (Z.ltb_lt 0 (zlen src))) by (unfold zlen in *; lia).
    destruct (IH (drop (Z.to_nat (zlen src)) src) (mkFd i [] (wr ++ src))) as (o & k & evs & -> & Hb & Hi & He & Hw).
    { cbn. rewrite length_drop. unfold zlen in *. lia. }
    exists o, (length src), evs. rewrite (take_ge src) by done. unfold zlen. rewrite Nat2Z.id, drop_ge by done.
    cbn [fd_in fd_written]. rewrite take_nil, app_nil_r. by split_and!.
  - set (m := Z.min (Z.max k 0) (zlen src)). pose proof (zlen_nonneg src). destruct (Z.ltb_spec 0 m) as [Hm|Hm].
    + destruct (IH (drop (Z.to_nat m) src) (mkFd i evs (wr ++ take (Z.to_nat m) src))) as (o & k' & evs' & -> & Hb & Hi & He & Hw).
      { cbn. rewrite length_drop. lia. }
      exists o, (Z.to_nat m + k')%nat, evs'. cbn [fd_in fd_out fd_written] in *. rewrite <- app_assoc. split_and!.
      * by rewrite take_take_drop.
      * intros ->. specialize (Hb eq_refl). rewrite length_drop in Hb. lia.
      * intros e Hin. right. by apply Hi.
      * eapply write_ends_mono; [|exact He]. by right.
      * intros Hwr. apply Forall_cons in Hwr as [_ Hwr]. by apply Hw.
    + exists (Ret false), (Z.to_nat m), evs. split_and!; [done|by intros [=]|by right|left; by eexists|].
      intros [Hk _]%Forall_cons. unfold m, zlen in *. lia.
  - destruct (IH src (mkFd i evs wr)) as (o & k & evs' & -> & Hb & Hi & He & Hw); [cbn; lia|]. exists o, k, evs'.
    split_and!; [done|done|intros e Hin; right; by apply Hi|eapply write_ends_mono; [|exact He]; by right|].
    intros [_ Hwr]%Forall_cons. by apply Hw.
  - exists (Throw sigpipe), 0%nat, evs. rewrite take_0, app_nil_r. split_and!; [done|by intros [=]|by right|right; split; [done|left]|].
    by intros [? _]%Forall_cons.
  - exists (Ret false), 0%nat, evs. rewrite take_0, app_nil_r. split_and!; [done|by intros [=]|by right|left; by eexists|].
    by intros [? _]%Forall_cons.
Qed.

Lemma write_exact_spec src s :
  exists o k evs, write_exact src s = (o, mkFd (fd_in s) evs (fd_written s ++ take k src)) /\
    (o = Ret true -> take k src = src) /\ (forall e, e ∈ evs -> e ∈ fd_out s) /\ write_ends (fd_out s) o /\
    (writable (fd_out s) -> o = Ret true /\ writable evs).
Proof.
  destruct (fd_write_loop_spec (length src + length (fd_out s)) src s) as (o & k & evs & Hr & Hb & H); [done|].
  exists o, k, evs. split_and!; [done| |apply H..]. intros E. by apply take_ge, Hb.
Qed.

Lemma write_exact_ok src s : writable (fd_out s) ->
  exists evs, write_exact src s = (Ret true, mkFd (fd_in s) evs (fd_written s ++ src)) /\ writable evs.
Proof.
  intros Hw. destruct (write_exact_spec src s) as (o & k & evs & Hr & Hb & _ & _ & Hwr). destruct (Hwr Hw) as [-> ?].
  exists evs. rewrite Hb in Hr by done. done.
Qed.

Lemma sys_read_written n s : fd_written (snd (sys_read n s)) = fd_written s.
Proof. unfold sys_read. rewrite bind_get. destruct (fd_in s) as [|[l| |] evs]; [done| |done|done]. by destruct (_ <=? _). Qed.

Lemma fd_read_loop_written len fuel : forall acc s, fd_written (snd (fd_read_loop fuel len acc s)) = fd_written s.
Proof.
  induction fuel as [|fuel IH]; intros acc s; cbn [fd_read_loop]; [by destruct (_ <? _)|]. destruct (_ <? _); [|done].
  unfold bind. pose proof (sys_read_written (len - zlen acc) s) as Hw.
  destruct (sys_read _ s) as [[[[|b l]| |]|e| |] s']; cbn in Hw; try done; rewrite IH; done.
Qed.

(** ** Requests and replies *)

(** The bytes of a message: its length, then the message. *)
Definition ipc_frame (l : list byte) : list byte := le_bytes 4 (zlen l) ++ l.

Lemma le_value_4 z : 0 <= z < U32 -> le_value (le_bytes 4 z) = z.
Proof. intros Hz. rewrite le_value_bytes by lia. by rewrite Z.mod_small. Qed.

(** A stream that starts with a message, read in two steps. *)
Lemma stream_frame s l rest : stream (fd_in s) = ipc_frame l ++ rest -> zlen l < U32 ->
  4 <= zlen (stream (fd_in s)) /\ take 4 (stream (fd_in s)) = le_bytes 4 (zlen l) /\
  drop 4 (stream (fd_in s)) = l ++ rest /\ le_value (le_bytes 4 (zlen l)) = zlen l.
Proof.
  intros Hs Hl. pose proof (zlen_nonneg l). unfold ipc_frame in Hs. rewrite <- app_assoc in Hs. rewrite Hs.
  split_and!; [|by rewrite take_app_length' by (by rewrite length_le_bytes)|by rewrite drop_app_length' by (by rewrite length_le_bytes)|].
  - rewrite zlen_app. unfold zlen. rewrite length_le_bytes. lia.
  - by apply le_value_4.
Qed.

Lemma serve_client_spec f req rest s :
  stream (fd_in s) = ipc_frame req ++ rest -> zlen req <= kMaxIpcMessageBytes -> zlen (f req) < U32 ->
  writable (fd_out s) ->
  exists evs out, serve_client (Some f) s = (Ret tt, mkFd evs out (fd_written s ++ ipc_frame (f req))) /\ stream evs = rest.
Proof.
  intros Hs Hreq Hresp Hw. pose proof (zlen_nonneg req). pose proof (zlen_nonneg (f req)).
  unfold kMaxIpcMessageBytes in Hreq.
  destruct (stream_frame s req rest Hs) as (H4 & Ht & Hd & Hv); [unfold U32; lia|].
  unfold serve_client. destruct (read_exact_ok 4 s) as (evs & Hr & Hse & _); [lia|].
  rewrite (bind_ret _ _ _ _ _ Hr). change (Z.to_nat 4) with 4%nat in *. rewrite Ht. cbn [fst snd negb]. rewrite Hv.
  rewrite (proj2 (Z.ltb_ge kMaxIpcMessageBytes (zlen req))) by (unfold kMaxIpcMessageBytes; lia).
  assert (Hbody : exists evs2, (if 0 <? zlen req then read_exact (zlen req) else ret (true, [])) (mkFd evs (fd_out s) (fd_written s)) =
            (Ret (true, req), mkFd evs2 (fd_out s) (fd_written s)) /\ stream evs2 = rest).
  { rewrite Hd in Hse. destruct (Z.ltb_spec 0 (zlen req)) as [Hpos|Hz].
    - destruct (read_exact_ok (zlen req) (mkFd evs (fd_out s) (fd_written s))) as (evs2 & Hr2 & Hs2 & _).
      { cbn [fd_in]. rewrite Hse, zlen_app. pose proof (zlen_nonneg rest). lia. }
      cbn [fd_in fd_out fd_written] in Hr2, Hs2. rewrite Hse in Hr2, Hs2. unfold zlen in Hr2, Hs2. rewrite Nat2Z.id in Hr2, Hs2.
      rewrite take_app_length in Hr2. rewrite drop_app_length in Hs2. by exists evs2.
    - assert (req = []) as -> by (destruct req; [done|unfold zlen in Hz; cbn in Hz; lia]). by exists evs. }
  destruct Hbody as (evs2 & Hb & Hs2). rewrite (bind_ret _ _ _ _ _ Hb). cbn [fst snd negb]. rewrite u32_small by lia.
  destruct (write_exact_ok (le_bytes 4 (zlen (f req))) (mkFd evs2 (fd_out s) (fd_written s)) Hw) as (out1 & Hw1 & Hwr1).
  rewrite (bind_ret _ _ _ _ _ Hw1). cbn [negb fd_in fd_written]. destruct (Z.ltb_spec 0 (zlen (f req))) as [Hpos|Hz].
  - destruct (write_exact_ok (f req) (mkFd evs2 out1 (fd_written s ++ le_bytes 4 (zlen (f req)))) Hwr1) as (out2 & Hw2 & _).
    rewrite (bind_ret _ _ _ _ _ Hw2). exists evs2, out2. unfold ipc_frame. by rewrite app_assoc.
  - assert (Hnil : f req = []) by (destruct (f req); [done|unfold zlen in Hz; cbn in Hz; lia]).
    exists evs2, out1. unfold ipc_frame. rewrite Hnil, app_nil_r. done.
Qed.

(** The client writes its request first; then it reads. *)
Definition await_reply : M Fd (list byte) :=
  let! r := read_exact 4 in
  if negb (fst r) then ret []
  else
    let resp_len := le_value (snd r) in
    if kMaxIpcMessageBytes <? resp_len then ret []
    else if 0 <? resp_len then
      let! r := read_exact resp_len in
      ret (if fst r then snd r else [])
    else ret [].

Lemma exchange_writes req s : writable (fd_out s) -> zlen req < U32 ->
  exists out, exchange_on_fd req s = await_reply (mkFd (fd_in s) out (fd_written s ++ ipc_frame req)).
Proof.
  intros Hw Hr. pose proof (zlen_nonneg req). unfold exchange_on_fd. rewrite u32_small by lia.
  destruct (write_exact_ok (le_bytes 4 (zlen req)) s Hw) as (out1 & Hw1 & Hwr1). rewrite (bind_ret _ _ _ _ _ Hw1).
  destruct (write_exact_ok req (mkFd (fd_in s) out1 (fd_written s ++ le_bytes 4 (zlen req))) Hwr1) as (out2 & Hw2 & _).
  cbn [fd_in fd_out fd_written] in Hw2. rewrite (bind_ret _ _ _ _ _ Hw2). exists out2. unfold ipc_frame. by rewrite app_assoc.
Qed.

Lemma await_reply_written s : fd_written (snd (await_reply s)) = fd_written s.
Proof.
  unfold await_reply, bind. destruct (read_exact 4 s) as [o1 s1] eqn:E1.
  unfold read_exact in E1. assert (H1 : fd_written s1 = fd_written s) by (by rewrite <- (fd_read_loop_written 4 (Z.to_nat 4 + length (fd_in s)) [] s), E1).
  destruct o1 as [[b l]|e| |]; try done. cbn [fst snd]. destruct b; [|done]. cbn [negb].
  destruct (_ <? le_value l); [done|]. destruct (0 <? le_value l); [|done].
  destruct (read_exact (le_value l) s1) as [o2 s2] eqn:E2. unfold read_exact in E2.
  assert (H2 : fd_written s2 = fd_written s1) by (by rewrite <- (fd_read_loop_written (le_value l) (Z.to_nat (le_value l) + length (fd_in s1)) [] s1), E2).
  destruct o2 as [[b' l']|e| |]; cbn; congruence.
Qed.

Lemma await_reply_ok resp s : stream (fd_in s) = ipc_frame resp -> zlen resp <= kMaxIpcMessageBytes ->
  fst (await_reply s) = Ret resp.
Proof.
  intros Hs Hl. pose proof (zlen_nonneg resp). unfold kMaxIpcMessageBytes in Hl.
  destruct (stream_frame s resp []) as (H4 & Ht & Hd & Hv); [by rewrite app_nil_r|unfold U32; lia|].
  destruct (read_exact_ok 4 s) as (evs & Hr & Hse & _); [lia|]. unfold await_reply.
  rewrite (bind_ret _ _ _ _ _ Hr). change (Z.to_nat 4) with 4%nat in *. rewrite Ht. cbn [fst snd negb]. rewrite Hv.
  rewrite (proj2 (Z.ltb_ge kMaxIpcMessageBytes (zlen resp))) by (unfold kMaxIpcMessageBytes; lia).
  rewrite Hd, app_nil_r in Hse. destruct (Z.ltb_spec 0 (zlen resp)) as [Hpos|Hz].
  - destruct (read_exact_ok (zlen resp) (mkFd evs (fd_out s) (fd_written s))) as (evs2 & Hr2 & _).
    { cbn [fd_in]. rewrite Hse. lia. }
    rewrite (bind_ret _ _ _ _ _ Hr2). cbn [fst snd fd_in]. rewrite Hse. unfold zlen. by rewrite Nat2Z.id, take_ge.
  - by assert (resp = []) as -> by (destruct resp; [done|unfold zlen in Hz; cbn in Hz; lia]).
Qed.

(** A reply that is not empty is a whole one. *)
Lemma await_reply_whole s resp s' : await_reply s = (Ret resp, s') -> resp <> [] ->
  exists rest, stream (fd_in s) = ipc_frame resp ++ rest /\ zlen resp <= kMaxIpcMessageBytes.
Proof.
  unfold await_reply, bind. pose proof (read_exact_inv 4 s ltac:(lia)) as H4. intros H Hne.
  destruct (read_exact 4 s) as [[[b l]|e| |] s1]; try done. destruct H4 as (_ & _ & Ht & _). cbn [fst snd] in H.
  destruct b; [|cbn in H; unfold ret in H; by simplify_eq]. cbn [negb] in H. destruct (Ht eq_refl) as (Hle & -> & Hd & He). change (Z.to_nat 4) with 4%nat in *.
  set (got := stream (fd_in s)) in *. pose proof (le_value_range (take 4 got)) as Hv.
  assert (Hlen : length (take 4 got) = 4%nat) by (rewrite length_take; unfold zlen in Hle; lia).
  unfold zlen in Hv at 1. rewrite Hlen in Hv. destruct (Z.ltb_spec kMaxIpcMessageBytes (le_value (take 4 got))); [cbn in H; unfold ret in H; by simplify_eq|].
  destruct (Z.ltb_spec 0 (le_value (take 4 got))); [|cbn in H; unfold ret in H; by simplify_eq].
  pose proof (read_exact_inv (le_value (take 4 got)) s1 ltac:(lia)) as Hb.
  destruct (read_exact (le_value (take 4 got)) s1) as [[[b l]|e| |] s2]; try done. destruct Hb as (_ & _ & Hb & _).
  cbn [fst snd ret] in H. destruct b; [|cbn in H; unfold ret in H; by simplify_eq]. destruct (Hb eq_refl) as (Hle2 & -> & _ & _). injection H as <- <-.
  rewrite Hd in Hle2 |- *. set (n := le_value (take 4 got)) in *.
  assert (Hz : zlen (take (Z.to_nat n) (drop 4 got)) = n) by (unfold zlen in *; rewrite length_take; lia).
  exists (drop (Z.to_nat n) (drop 4 got)). split; [|by rewrite Hz]. unfold ipc_frame. rewrite Hz.
  assert (Hq : le_bytes 4 n = take 4 got) by (apply le_value_inj; [by rewrite length_le_bytes, Hlen|by apply le_value_4]).
  rewrite Hq, <- app_assoc, take_drop, take_drop. done.
Qed.

(** ** The accept loop *)

(** A client that sends a whole request, however long, or closes its side. *)
Definition prompt (s : Fd) : Prop :=
  ends (fd_in s) = true \/ exists req rest, zlen req < U32 /\ stream (fd_in s) = ipc_frame req ++ rest.

(** A peer that is there to take what is written to it. *)
Definition attends (s : Fd) : Prop := OutPipe ∉ fd_out s.

Lemma write_exact_attends src s : attends s ->
  exists b k evs, write_exact src s = (Ret b, mkFd (fd_in s) evs (fd_written s ++ take k src)) /\ (forall e, e ∈ evs -> e ∈ fd_out s).
Proof.
  intros Ha. destruct (write_exact_spec src s) as (o & k & evs & Hx & _ & Hi & [[b ->]|[_ Hp]] & _); [by eexists _, _, _|done].
Qed.

Lemma serve_client_returns h s : prompt s -> attends s -> fst (serve_client h s) = Ret tt.
Proof.
  intros Hp Ha. unfold serve_client, bind. pose proof (read_exact_inv 4 s ltac:(lia)) as H4.
  assert (H4' : ends (fd_in s) = false -> 4 <= zlen (stream (fd_in s))).
  { intros He. destruct Hp as [|(req & rest & Hl & Hs)]; [congruence|]. by destruct (stream_frame s req rest Hs Hl). }
  destruct (read_exact 4 s) as [[[b l]|e| |] s1]; try (destruct H4 as (? & ? & He); specialize (H4' He); done || lia).
  destruct H4 as (Ho & _ & Ht & _). cbn [fst snd]. destruct b; [|done]. cbn [negb].
  destruct (Ht eq_refl) as (_ & -> & Hd & He). change (Z.to_nat 4) with 4%nat in *. pose proof (le_value_range (take 4 (stream (fd_in s)))).
  destruct (kMaxIpcMessageBytes <? _); [done|]. set (n := le_value (take 4 (stream (fd_in s)))) in *.
  assert (Hbody : exists r s2, (if 0 <? n then read_exact n else ret (true, [])) s1 = (Ret r, s2) /\ fd_out s2 = fd_out s).
  { destruct (0 <? n); [|by eexists _, _]. pose proof (read_exact_inv n s1 ltac:(lia)) as Hn.
    destruct (read_exact n s1) as [[[b' l']|e| |] s2].
    { destruct Hn as (Ho2 & _). eexists _, _. split; [done|congruence]. }
    all: destruct Hn as (? & Hlt & He'); try done.
    destruct Hp as [|(req & rest & Hl & Hs)]; [congruence|]. destruct (stream_frame s req rest Hs Hl) as (_ & Hk & Hdr & Hv).
    unfold n in Hlt. rewrite Hk, Hv, Hd, Hdr, zlen_app in Hlt. pose proof (zlen_nonneg rest). lia. }
  destruct Hbody as (r & s2 & -> & Ho2). destruct (fst r); [|done]. cbn [negb].
  set (resp := match h with Some f => f (snd r) | None => [] end).
  assert (Ha2 : attends s2) by (unfold attends; by rewrite Ho2).
  destruct (write_exact_attends (le_bytes 4 (u32 (zlen resp))) s2 Ha2) as (w & k & evs & -> & Hi). destruct w; [|done]. cbn [negb].
  destruct (0 <? u32 (zlen resp)); [|done]. set (s3 := mkFd (fd_in s2) evs _).
  assert (Ha3 : attends s3) by (intros ?; by apply Ha2, Hi).
  by destruct (write_exact_attends resp s3 Ha3) as (w & k2 & evs2 & -> & _).
Qed.

(** A client that says nothing and stays holds its server for ever. *)
Lemma serve_client_silent h s : stream (fd_in s) = [] -> ends (fd_in s) = false -> fst (serve_client h s) = NoFuel.
Proof.
  intros Hs He. unfold serve_client, bind. pose proof (read_exact_spec 4 s ltac:(lia)) as Hr. cbv zeta in Hr. rewrite Hs, He in Hr.
  change (4 <=? zlen (@nil byte)) with false in Hr. cbn iota in Hr.
  by destruct (read_exact 4 s) as [[r|e| |] s']; cbn in Hr.
Qed.

(** A client that has gone before its reply takes the server with it. *)
Lemma serve_client_gone h s req rest out :
  stream (fd_in s) = ipc_frame req ++ rest -> zlen req <= kMaxIpcMessageBytes -> fd_out s = OutPipe :: out ->
  fst (serve_client h s) = Throw sigpipe.
Proof.
  intros Hs Hreq Ho. pose proof (zlen_nonneg req). pose proof (zlen_nonneg rest). unfold kMaxIpcMessageBytes in Hreq.
  destruct (stream_frame s req rest Hs) as (H4 & Ht & Hd & Hv); [unfold U32; lia|].
  unfold serve_client. destruct (read_exact_ok 4 s) as (evs & Hr & Hse & _); [lia|].
  rewrite (bind_ret _ _ _ _ _ Hr). change (Z.to_nat 4) with 4%nat in *. rewrite Ht. cbn [fst snd negb]. rewrite Hv.
  rewrite (proj2 (Z.ltb_ge kMaxIpcMessageBytes (zlen req))) by (unfold kMaxIpcMessageBytes; lia).
  assert (Hbody : exists l evs2, (if 0 <? zlen req then read_exact (zlen req) else ret (true, [])) (mkFd evs (fd_out s) (fd_written s)) =
            (Ret (true, l), mkFd evs2 (fd_out s) (fd_written s))).
  { destruct (0 <? zlen req); [|by eexists _, _]. rewrite Hd in Hse.
    destruct (read_exact_ok (zlen req) (mkFd evs (fd_out s) (fd_written s))) as (evs2 & Hr2 & _); [|by eexists _, _].
    cbn [fd_in]. rewrite Hse, zlen_app. lia. }
  destruct Hbody as (l & evs2 & Hb). rewrite (bind_ret _ _ _ _ _ Hb). cbn [fst snd negb]. rewrite Ho. unfold bind.
  generalize (u32 (zlen (match h with Some f => f l | None => [] end))). intros n. unfold write_exact. cbn [fd_out length].
  by rewrite length_le_bytes.
Qed.

(** The clients of a run, and runs in which nothing breaks the loop. *)
Definition clients (evs : list loop_event) : list Fd :=
  omap (fun e => match e with AcceptClient fd => Some fd | _ => None end) evs.

Definition calm (e : loop_event) : Prop :=
  match e with
  | AcceptClient fd => prompt fd /\ attends fd
  | PollError | AcceptFail | StopRequested => False
  | _ => True
  end.

(** The system outside the object has [fds] open and the paths [paths]. *)
Definition ipc_new (fds : gset Z) (paths : gset (list byte)) : LocalIpcPosix := mkIpc (-1) [] false None fds paths.

Record ipc_ok (fds : gset Z) (paths : gset (list byte)) (i : LocalIpcPosix) : Prop := {
  io_idle : server_fd_ i < 0 -> os_fds i = fds /\ os_paths i ⊆ paths /\ socket_path_ i = [] /\ ipc_running_ i = false;
  io_listening : 0 <= server_fd_ i -> os_fds i = {[server_fd_ i]} ∪ fds /\ server_fd_ i ∉ fds /\
    socket_path_ i <> [] /\ socket_path_ i ∈ os_paths i /\ os_paths i ⊆ paths ∪ {[socket_path_ i]} /\
    ipc_running_ i = true /\ is_Some (ipc_handler_ i)
}.

(** Taking back what was added, and not more. *)
Lemma remove_added {A} `{Countable A} (x : A) (X : gset A) : x ∉ X -> ({[x]} ∪ X) ∖ {[x]} = X.
Proof.
  intros Hx. apply set_eq. intros y. rewrite elem_of_difference, elem_of_union, elem_of_singleton. split; [tauto|].
  intros Hy. split; [by right|]. by intros ->.
Qed.

Lemma remove_extra {A} `{Countable A} (x : A) (X Y : gset A) : Y ⊆ X ∪ {[x]} -> Y ∖ {[x]} ⊆ X.
Proof. intros HY y [Hy Hne]%elem_of_difference. apply HY, elem_of_union in Hy as [|]; done. Qed.

Lemma ipc_stop_joined th i : th = Ret tt \/ server_fd_ i < 0 -> ipc_stop th i = (Ret tt, ipc_release i).
Proof.
  intros H. unfold ipc_stop. munfold. cbn [server_fd_]. destruct (Z.leb_spec 0 (server_fd_ i)); [|done].
  by destruct H as [->|?]; [|lia].
Qed.

Lemma ipc_stop_waits th i : th <> Ret tt -> 0 <= server_fd_ i ->
  ipc_stop th i = (th, mkIpc (server_fd_ i) (socket_path_ i) false (ipc_handler_ i) (os_fds i) (os_paths i)).
Proof.
  intros Ht Hs. unfold ipc_stop. munfold. cbn [server_fd_]. rewrite (proj2 (Z.leb_le _ _) Hs). by destruct th as [[]| | |].
Qed.

Lemma ipc_release_ok fds paths i : ipc_ok fds paths i ->
  os_fds (ipc_release i) = fds /\ os_paths (ipc_release i) ⊆ paths /\ ipc_release (ipc_release i) = ipc_release i.
Proof.
  intros [Hi Hl]. unfold ipc_release; cbn [server_fd_ socket_path_ os_fds os_paths].
  destruct (Z.leb_spec 0 (server_fd_ i)) as [H|H]; cbn.
  - destruct (Hl H) as (-> & Hn & Hne & _ & Hp & _). rewrite bool_decide_eq_false_2 by done.
    split_and!; [by apply remove_added|by apply remove_extra|done].
  - destruct (Hi H) as (-> & Hp & Hn & _). rewrite bool_decide_eq_true_2 by done. by split_and!.
Qed.

Lemma ipc_open_ok sun_path_size a name cb fds paths i :
  ipc_ok fds paths i -> la_fd a ∉ fds -> ipc_ok fds paths (ipc_open sun_path_size a name cb (ipc_release i)).
Proof.
  intros Hi Ha. destruct (ipc_release_ok fds paths i Hi) as (Hf & Hp & _). unfold ipc_open.
  assert (Hidle : forall ps, ps ⊆ paths -> ipc_ok fds paths (mkIpc (-1) [] false None (os_fds (ipc_release i)) ps)) by (by split).
  destruct (set_sun_path sun_path_size name) eqn:En; cbn [negb]; [|by apply (Hidle (os_paths (ipc_release i)))].
  assert (Hp' : os_paths (ipc_release i) ∖ {[name]} ⊆ paths) by (etrans; [apply subseteq_difference_l|]; done).
  destruct (Z.ltb_spec (la_fd a) 0); [by apply Hidle|]. destruct (la_bind a); [|by apply Hidle].
  destruct (la_listen a); [|by apply Hidle]. split; cbn [negb server_fd_ socket_path_ ipc_running_ ipc_handler_ os_fds os_paths]; [intros; lia|]. intros _. rewrite Hf.
  assert (name <> []) by (by intros ->). split_and!; try done.
  - by apply elem_of_union_l, elem_of_singleton.
  - rewrite (comm_L (∪)). by apply union_mono.
Qed.

(** [listen] fails only with the thread it joins. *)
Lemma ipc_listen_cases sun_path_size a name cb i :
  let i' := ipc_open sun_path_size a name cb (ipc_release i) in
  ipc_listen sun_path_size a name cb i = (Ret tt, i') \/
  (fst (ipc_listen sun_path_size a name cb i) = la_join a /\ la_join a <> Ret tt).
Proof.
  cbv zeta. unfold ipc_listen, bind. destruct (Z.leb_spec 0 (server_fd_ i)) as [Hs|Hs].
  2: { left. by rewrite ipc_stop_joined by (by right). }
  destruct (la_join a) as [[]| | |] eqn:E; [left; by rewrite ipc_stop_joined by (by left)|right..];
    by rewrite ipc_stop_waits by done.
Qed.

(** The loop over calm events, with and without what follows. *)
Lemma accept_loop_app h evs : Forall calm evs -> forall later served,
  accept_loop h true (evs ++ later) served = accept_loop h true later (served ++ ((fun fd => snd (serve_client h fd)) <$> clients evs)).
Proof.
  intros Hc later. induction Hc as [|e evs He Hc IH]; intros served; [by rewrite app_nil_r|].
  destruct e as [| | | | |fd|]; cbn in He; try done; cbn [app accept_loop negb clients omap list_omap]; try exact (IH served).
  destruct He as [Hp Ha]. pose proof (serve_client_returns h fd Hp Ha) as Hr. destruct (serve_client h fd) as [o fd'] eqn:E. cbn in Hr. subst o.
  unfold bind. rewrite IH, <- app_assoc. cbn. by rewrite E.
Qed.

Lemma accept_loop_calm h evs later served : Forall calm evs ->
  accept_loop h true (evs ++ StopRequested :: later) served = (Ret true, served ++ ((fun fd => snd (serve_client h fd)) <$> clients evs)).
Proof. intros Hc. rewrite accept_loop_app by done. by destruct later. Qed.

Lemma accept_loop_client h evs fd later served : Forall calm evs ->
  fst (accept_loop h true (evs ++ AcceptClient fd :: later) served) =
  match fst (serve_client h fd) with
  | Ret _ => fst (accept_loop h true later (served ++ ((fun fd => snd (serve_client h fd)) <$> clients evs) ++ [snd (serve_client h fd)]))
  | Throw e => Throw e
  | Undef => Undef
  | NoFuel => NoFuel
  end.
Proof.
  intros Hc. rewrite accept_loop_app by done. cbn [accept_loop negb]. unfold bind.
  destruct (serve_client h fd) as [[[]|e| |] fd']; cbn; try done. by rewrite <- app_assoc.
Qed.

(** The same of the thread that [stop] joins. *)
Lemma thread_end_calm h evs : Forall calm evs -> thread_end h evs = Ret tt.
Proof. intros Hc. unfold thread_end. by rewrite accept_loop_calm. Qed.

Lemma thread_end_client h evs fd later : Forall calm evs ->
  (forall a, fst (serve_client h fd) <> Ret a) -> thread_end h (evs ++ AcceptClient fd :: later) = fst (serve_client h fd).
Proof.
  intros Hc Hn. unfold thread_end. rewrite <- app_assoc, <- app_comm_cons, accept_loop_client by done.
  by destruct (fst (serve_client h fd)) as [a| | |]; [destruct (Hn a)|..].
Qed.

Lemma thread_end_silent h evs fd later : Forall calm evs -> stream (fd_in fd) = [] -> ends (fd_in fd) = false ->
  thread_end h (evs ++ AcceptClient fd :: later) = NoFuel.
Proof. intros Hc Hs He. rewrite thread_end_client; [by apply serve_client_silent|done|]. intros a. by rewrite serve_client_silent. Qed.

Lemma thread_end_gone h evs fd later req rest out : Forall calm evs ->
  stream (fd_in fd) = ipc_frame req ++ rest -> zlen req <= kMaxIpcMessageBytes -> fd_out fd = OutPipe :: out ->
  thread_end h (evs ++ AcceptClient fd :: later) = Throw sigpipe.
Proof.
  intros Hc Hs Hr Ho. pose proof (serve_client_gone h fd req rest out Hs Hr Ho) as Hx.
  rewrite thread_end_client; [done..|]. intros a. by rewrite Hx.
Qed.

Lemma ipc_new_ok fds paths : ipc_ok fds paths (ipc_new fds paths).
Proof. split; cbn; [done|lia]. Qed.

Lemma ipc_listens_ok sun_path_size calls fds paths : forall i, ipc_ok fds paths i ->
  Forall (fun '(a, _, _) => la_fd a ∉ fds) calls ->
  match ipc_listens sun_path_size calls i with
  | (Ret _, i) => ipc_ok fds paths i
  | (o, _) => exists a name cb, (a, name, cb) ∈ calls /\ la_join a = o
  end.
Proof.
  induction calls as [|[[a name] cb] calls IH]; intros i Hi Hf; [done|]. apply Forall_cons in Hf as [Ha Hf]. cbn [ipc_listens]. unfold bind.
  destruct (ipc_listen_cases sun_path_size a name cb i) as [->|[Hj Hne]].
  - specialize (IH _ (ipc_open_ok sun_path_size a name cb fds paths i Hi Ha) Hf).
    destruct (ipc_listens _ _ _) as [[[]|e| |] i']; try done; destruct IH as (a' & n' & cb' & Hin & ?); exists a', n', cb'; (split; [by right|done]).
  - destruct (ipc_listen sun_path_size a name cb i) as [[[]|e| |] i']; cbn in Hj; [by rewrite Hj in Hne|..];
      exists a, name, cb; (split; [left|done]).
Qed.

(** ** Properties *)

(** C17: A request over a local socket is a call of the handler: when what one side
    writes is what the other reads, cut into reads and writes in any way and with
    signals in between, the client gets exactly the handler's answer, and the
    server's connection is done. *)
Theorem ipc_roundtrip sun_path_size name req f cf sf :
  set_sun_path sun_path_size name = true -> zlen req <= kMaxIpcMessageBytes -> zlen (f req) <= kMaxIpcMessageBytes ->
  writable (fd_out cf) -> writable (fd_out sf) -> fd_written cf = [] -> fd_written sf = [] ->
  let '(answer, cf') := ipc_send_request sun_path_size true true name req cf in
  let '(served, sf') := serve_client (Some f) sf in
  stream (fd_in sf) = fd_written cf' -> stream (fd_in cf) = fd_written sf' ->
  answer = Ret (f req) /\ served = Ret tt.
Proof.
  intros Hn Hr Hf Hwc Hws Hc Hs. unfold ipc_send_request. rewrite Hn, (proj2 (Z.ltb_ge _ _) Hr). cbn [negb].
  assert (HU : kMaxIpcMessageBytes < U32) by done.
  destruct (exchange_writes req cf Hwc ltac:(lia)) as (out & ->). rewrite Hc. cbn [app].
  pose proof (await_reply_written (mkFd (fd_in cf) out (ipc_frame req))) as Hw. cbn [fd_written] in Hw.
  pose proof (await_reply_ok (f req) (mkFd (fd_in cf) out (ipc_frame req))) as Hok. cbn [fd_in] in Hok.
  destruct (await_reply (mkFd (fd_in cf) out (ipc_frame req))) as [answer cf']. cbn [fst snd] in Hw, Hok.
  destruct (serve_client (Some f) sf) as [served sf'] eqn:Es. intros Hup Hdown. rewrite Hw in Hup.
  destruct (serve_client_spec f req [] sf) as (evs & out2 & Hserve & _); [by rewrite app_nil_r|done|lia|done|].
  rewrite Es, Hs in Hserve. injection Hserve as -> ->. cbn in Hdown. split; [|done]. by apply Hok.
Qed.

(** Whatever the peer sends and the kernel does, [send_request] is never
    undefined and throws nothing, though it dies of SIGPIPE when the peer goes before
    it has written; what it returns is empty or one whole reply of
    at most 64 MB, never a part of one.  A request above 64 MB or a bad path sends nothing. *)
Theorem ipc_reply_whole sun_path_size sock conn name req s :
  match ipc_send_request sun_path_size sock conn name req s with
  | (Ret resp, s') => resp <> [] ->
      zlen req <= kMaxIpcMessageBytes /\ set_sun_path sun_path_size name = true /\ zlen resp <= kMaxIpcMessageBytes /\
      exists rest, stream (fd_in s) = ipc_frame resp ++ rest
  | (o, _) => o = NoFuel \/ (o = Throw sigpipe /\ OutPipe ∈ fd_out s)
  end.
Proof.
  unfold ipc_send_request. destruct (Z.ltb_spec kMaxIpcMessageBytes (zlen req)); [done|].
  destruct (set_sun_path sun_path_size name) eqn:En; [|done]. destruct sock, conn; try done. cbn [negb].
  unfold exchange_on_fd, bind.
  destruct (write_exact_spec (le_bytes 4 (u32 (zlen req))) s) as (o1 & k1 & out1 & -> & _ & Hi & [[w1 ->]|[-> ?]] & _); [|by right].
  set (s1 := mkFd (fd_in s) out1 _).
  assert (Hw : exists o2 s2, (if w1 then write_exact req else ret false) s1 = (o2, s2) /\ fd_in s2 = fd_in s /\
    ((exists w2, o2 = Ret w2) \/ (o2 = Throw sigpipe /\ OutPipe ∈ fd_out s))).
  { destruct w1; [|eexists _, _; split_and!; [done|done|left; by eexists]].
    destruct (write_exact_spec req s1) as (o2 & k2 & out2 & -> & _ & _ & [?|[? ?%Hi]] & _);
      eexists _, _; split_and!; try done; [by left|by right]. }
  destruct Hw as (o2 & s2 & -> & Hin & [[w2 ->]|[-> ?]]); [|by right]. destruct w2; [|done]. cbn [negb].
  pose proof (await_reply_whole s2) as Hwhole. unfold await_reply, bind in Hwhole.
  pose proof (read_exact_inv 4 s2 ltac:(lia)) as H4. destruct (read_exact 4 s2) as [[[b l]|e| |] s3]; try (left; by destruct H4).
  cbn [fst snd] in *. destruct b; [|done]. cbn [negb] in *. destruct (kMaxIpcMessageBytes <? le_value l); [done|].
  destruct (Z.ltb_spec 0 (le_value l)); [|done]. pose proof (read_exact_inv (le_value l) s3 ltac:(lia)) as Hb.
  destruct (read_exact (le_value l) s3) as [[[b l2]|e| |] s4]; try (left; by destruct Hb). cbn [fst snd] in *.
  intros Hne. destruct (Hwhole _ _ eq_refl Hne) as (rest & Hst & Hle). rewrite Hin in Hst. split_and!; try done. by exists rest.
Qed.

(** C31: The accept loop ends at the first event after [stop] asked it to, and by
    then it has served and closed every client that came before.  That is so as long
    as neither [poll] nor [accept] fails for good first (the loop ends at once if one
    does) and as each client sends a whole request or closes its side, and is still
    there to take its reply.  The last two conditions are needed.  A client that
    connects and stays silent holds the loop for ever: then [stop], which joins first,
    never returns and closes nothing.  A client that sends a request and is gone
    before its reply ends the whole process by SIGPIPE. *)
Theorem ipc_loop_stops h evs later served :
  Forall calm evs ->
  accept_loop h true (evs ++ StopRequested :: later) served = (Ret true, served ++ ((fun fd => snd (serve_client h fd)) <$> clients evs)) /\
  (forall fd, stream (fd_in fd) = [] -> ends (fd_in fd) = false ->
    fst (accept_loop h true (evs ++ AcceptClient fd :: later) served) = NoFuel /\
    forall i, 0 <= server_fd_ i ->
      ipc_stop (thread_end h (evs ++ AcceptClient fd :: later)) i =
        (NoFuel, mkIpc (server_fd_ i) (socket_path_ i) false (ipc_handler_ i) (os_fds i) (os_paths i))) /\
  (forall fd req rest out,
    stream (fd_in fd) = ipc_frame req ++ rest -> zlen req <= kMaxIpcMessageBytes -> fd_out fd = OutPipe :: out ->
    fst (accept_loop h true (evs ++ AcceptClient fd :: later) served) = Throw sigpipe).
Proof.
  intros Hc. split; [by apply accept_loop_calm|]. split.
  - intros fd Hs He. assert (Hl : forall later served, fst (accept_loop h true (evs ++ AcceptClient fd :: later) served) = NoFuel).
    { intros later' served'. rewrite accept_loop_client by done. pose proof (serve_client_silent h fd Hs He) as Hn.
      by destruct (serve_client h fd) as [[[]|e| |] fd']. }
    split; [apply Hl|]. intros i Hi.
    by rewrite (thread_end_silent h evs fd later Hc Hs He), ipc_stop_waits.
  - intros fd req rest out Hs Hr Ho. rewrite accept_loop_client by done. pose proof (serve_client_gone h fd req rest out Hs Hr Ho) as Hn.
    destruct (serve_client h fd) as [[[]|e| |] fd']; cbn in Hn; try done. by injection Hn as ->.
Qed.

(** C30: The object neither leaks a descriptor nor closes one twice: after any calls
    of [listen], whatever the system answers to each, it holds the one it listens on
    or none; its path is there exactly while it listens; and [stop] gives back
    everything and can be repeated.  [listen] and [stop] join the thread first: when
    one of these does not return, it is because of that thread. *)
Theorem ipc_lifecycle sun_path_size calls fds paths :
  Forall (fun '(a, _, _) => la_fd a ∉ fds) calls ->
  match ipc_listens sun_path_size calls (ipc_new fds paths) with
  | (Ret _, i) =>
      let s := snd (ipc_stop (Ret tt) i) in
      ipc_ok fds paths i /\ fst (ipc_stop (Ret tt) i) = Ret tt /\ os_fds s = fds /\ os_paths s ⊆ paths /\
      ipc_running_ s = false /\ forall th, ipc_stop th s = (Ret tt, s)
  | (o, _) => exists a name cb, (a, name, cb) ∈ calls /\ la_join a = o
  end.
Proof.
  intros Hf. pose proof (ipc_listens_ok sun_path_size calls fds paths (ipc_new fds paths) (ipc_new_ok fds paths) Hf) as H.
  destruct (ipc_listens sun_path_size calls (ipc_new fds paths)) as [[[]|e| |] i]; try exact H.
  rewrite ipc_stop_joined by (by left). cbn [fst snd]. destruct (ipc_release_ok fds paths i H) as (H1 & H2 & _). by split_and!.
Qed.

(** *** Witnesses *)

(** The request in three pieces with a signal, the reply byte by byte, and writes
    that take one byte first. *)
Definition demo_request : list byte := [x41; x42; x43].
Definition demo_handler (req : list byte) : list byte := rev req.
Definition demo_path : list byte := [x2f; x78].

Definition demo_client : Fd :=
  mkFd ((fun b => InBytes [b]) <$> ipc_frame (demo_handler demo_request)) [OutTake 1; OutIntr; OutTake 2] [].
Definition demo_server : Fd :=
  mkFd [InBytes (take 2 (ipc_frame demo_request)); InIntr; InBytes (drop 2 (ipc_frame demo_request))] [OutTake 1] [].

Lemma ipc_roundtrip_witness :
  fst (ipc_send_request 108 true true demo_path demo_request demo_client) = Ret (demo_handler demo_request).
Proof.
  refine (proj1 (ipc_roundtrip 108 demo_path demo_request demo_handler demo_client demo_server _ _ _ _ _ _ _ _ _)).
  all: try (vm_compute; done).
  - by repeat constructor.
  - by repeat constructor.
Defined.

Lemma ipc_loop_stops_witness :
  accept_loop (Some demo_handler) true [PollTimeout; AcceptClient demo_server; AcceptRetry; StopRequested; PollTimeout] [] =
    (Ret true, [snd (serve_client (Some demo_handler) demo_server)]).
Proof.
  refine (proj1 (ipc_loop_stops (Some demo_handler) [PollTimeout; AcceptClient demo_server; AcceptRetry] [PollTimeout] [] _)).
  constructor; [done|]. constructor; [|by repeat constructor]. split; [right; exists demo_request, []; by vm_compute|].
  intros H. by apply list_elem_of_singleton in H.
Defined.

Definition demo_calls : list (ListenAnswers * list byte * (list byte -> list byte)) :=
  [(mkAnswers (Ret tt) 7 true true, demo_path, demo_handler)].

Definition demo_ipc : LocalIpcPosix := mkIpc 7 demo_path true (Some demo_handler) {[7; 3]} {[demo_path]}.

Lemma demo_ipc_listens : ipc_listens 108 demo_calls (ipc_new {[3]} ∅) = (Ret tt, demo_ipc).
Proof. by vm_compute. Qed.

Lemma ipc_lifecycle_witness : os_fds (snd (ipc_stop (Ret tt) demo_ipc)) = {[3]}.
Proof.
  assert (H := ipc_lifecycle 108 demo_calls {[3]} ∅). rewrite demo_ipc_listens in H.
  apply H. constructor; [|constructor]. by vm_compute.
Defined.
