(* ===== verification/LocalIpcWin.v ===== *)
(** * Local requests over Windows named pipes

    [platform/src/windows/local_ipc_win.cpp]: the transport of [LocalIpc] on pipes
    in message mode, where every [WriteFile] is one message and a [ReadFile] takes
    one message, or fails when its buffer is smaller. *)

From S2P Require Import Prelude LocalIpc.

(** ** Pipes *)

(** What the next [ReadFile] meets; on an empty script it waits for ever. *)
Inductive pipe_event :=
| PipeMessage (l : list byte)
| PipeBroken.

(** [pipe_out]: whether the next calls of [WriteFile] succeed; all later ones do. *)
Record Pipe := mkPipe {
  pipe_in : list pipe_event;
  pipe_out : list bool;
  pipe_sent : list (list byte)
}.

(** [ReadFile(h, p, n, &read_bytes)]: its result, and the bytes read. *)
Definition ReadFile (n : Z) : M Pipe (bool * list byte) :=
  let! s := get in
  match pipe_in s with
  | [] => nofuel
  | PipeMessage l :: evs =>
      if zlen l <=? n then do! put (mkPipe evs (pipe_out s) (pipe_sent s)) in ret (true, l)
      else
        do! put (mkPipe (PipeMessage (drop (Z.to_nat n) l) :: evs) (pipe_out s) (pipe_sent s)) in
        ret (false, take (Z.to_nat n) l)
  | PipeBroken :: evs => do! put (mkPipe evs (pipe_out s) (pipe_sent s)) in ret (false, [])
  end.

Definition WriteFile (l : list byte) : M Pipe bool :=
  let! s := get in
  match pipe_out s with
  | [] | true :: _ => do! put (mkPipe (pipe_in s) (tail (pipe_out s)) (pipe_sent s ++ [l])) in ret true
  | false :: out => do! put (mkPipe (pipe_in s) out (pipe_sent s)) in ret false
  end.

(** ** The code *)

(** What [send_request] does once it has written the request. *)
Definition win_await_reply : M Pipe (list byte) :=
  let! r := ReadFile 4 in
  if fst r && (zlen (snd r) =? 4) then
    let resp_len := le_value (snd r) in
    if kMaxIpcMessageBytes <? resp_len then ret []
    else if 0 <? resp_len then
      let! r := ReadFile resp_len in
      ret (if negb (fst r) || negb (zlen (snd r) =? resp_len) then [] else snd r)
    else ret []
  else ret [].

(** [opened]: [CreateFileA] gives a handle. *)
Definition win_send_request (opened : bool) (req : list byte) : M Pipe (list byte) :=
  if kMaxIpcMessageBytes <? zlen req then ret []
  else if negb opened then ret []
  else
    let len := u32 (zlen req) in
    let! w1 := WriteFile (le_bytes 4 len) in
    let! w2 := (if w1 then if len =? 0 then ret true else WriteFile req else ret false) in
    if w2 then win_await_reply else ret [].

Definition win_serve_client (handler : option (list byte -> list byte)) : M Pipe unit :=
  let! r := ReadFile 4 in
  if negb (fst r) || negb (zlen (snd r) =? 4) then ret tt
  else
    let len := le_value (snd r) in
    if kMaxIpcMessageBytes <? len then ret tt
    else
      let! r := (if 0 <? len then ReadFile len else ret (true, [])) in
      if (0 <? len) && (negb (fst r) || negb (zlen (snd r) =? len)) then ret tt
      else
        let resp := match handler with Some f => f (snd r) | None => [] end in
        if kMaxIpcMessageBytes <? zlen resp then ret tt
        else
          let resp_len := u32 (zlen resp) in
          let! w := WriteFile (le_bytes 4 resp_len) in
          if negb w then ret tt
          else if 0 <? resp_len then do! WriteFile resp in ret tt
          else ret tt.

(** The listening thread: each element is what [ConnectNamedPipe] ends with, [None]
    a failure, and whether [running_] was still set then. *)
Fixpoint win_listen_loop (handler : option (list byte -> list byte)) (evs : list (option Pipe * bool)) : M (list Pipe) bool :=
  match evs with
  | [] => ret false
  | (connected, running_) :: evs =>
      if negb running_ then ret true
      else
        match connected with
        | None => win_listen_loop handler evs
        | Some p =>
            let '(o, p) := win_serve_client handler p in
            match o with
            | Ret _ => do! (fun served => (Ret tt, served ++ [p])) in win_listen_loop handler evs
            | _ => nofuel
            end
        end
  end.

(** ** Messages *)

(** The messages of a request or a reply; nothing follows an empty one. *)
Definition pipe_messages (l : list byte) : list (list byte) :=
  if zlen l =? 0 then [le_bytes 4 0] else [le_bytes 4 (zlen l); l].

Lemma WriteFile_ok l s : Forall (eq true) (pipe_out s) ->
  exists out, WriteFile l s = (Ret true, mkPipe (pipe_in s) out (pipe_sent s ++ [l])) /\ Forall (eq true) out.
Proof.
  intros Hw. unfold WriteFile. rewrite bind_get. destruct Hw as [|b out <- Hw]; (eexists; split; [by rewrite bind_put|done]).
Qed.

Lemma ReadFile_ok n l evs s : pipe_in s = PipeMessage l :: evs -> zlen l <= n ->
  ReadFile n s = (Ret (true, l), mkPipe evs (pipe_out s) (pipe_sent s)).
Proof. intros Hs Hl. unfold ReadFile. rewrite bind_get, Hs, (proj2 (Z.leb_le _ _) Hl). done. Qed.

Lemma zlen_le_bytes_4 z : zlen (le_bytes 4 z) = 4.
Proof. unfold zlen. by rewrite length_le_bytes. Qed.

(** A whole message arrives. *)
Lemma win_serve_spec f req s :
  pipe_in s = PipeMessage <$> pipe_messages req -> zlen req <= kMaxIpcMessageBytes -> zlen (f req) <= kMaxIpcMessageBytes ->
  Forall (eq true) (pipe_out s) ->
  exists out, win_serve_client (Some f) s = (Ret tt, mkPipe [] out (pipe_sent s ++ pipe_messages (f req))).
Proof.
  intros Hs Hreq Hresp Hw. assert (HU : kMaxIpcMessageBytes < U32) by done.
  pose proof (zlen_nonneg req). pose proof (zlen_nonneg (f req)). unfold win_serve_client.
  assert (Hread : exists evs, ReadFile 4 s = (Ret (true, le_bytes 4 (zlen req)), mkPipe evs (pipe_out s) (pipe_sent s)) /\
    forall out sent, (if 0 <? zlen req then ReadFile (zlen req) else ret (true, [])) (mkPipe evs out sent) = (Ret (true, req), mkPipe [] out sent)).
  { unfold pipe_messages in Hs. destruct (Z.eqb_spec (zlen req) 0) as [Hz|Hz].
    - exists []. assert (req = []) as -> by (destruct req; [done|by unfold zlen in Hz; cbn in Hz]).
      split; [by apply ReadFile_ok|done].
    - exists [PipeMessage req]. split; [by apply ReadFile_ok; [|rewrite zlen_le_bytes_4]|]. intros out sent.
      rewrite (proj2 (Z.ltb_lt 0 (zlen req))) by lia. by apply ReadFile_ok. }
  destruct Hread as (evs & Hr & Hbody). rewrite (bind_ret _ _ _ _ _ Hr). cbn [fst snd]. rewrite zlen_le_bytes_4. cbn [negb orb Z.eqb Pos.eqb].
  rewrite le_value_4 by lia. rewrite (proj2 (Z.ltb_ge _ _) Hreq). rewrite (bind_ret _ _ _ _ _ (Hbody _ _)). cbn [fst snd].
  rewrite Z.eqb_refl, andb_false_r. rewrite (proj2 (Z.ltb_ge _ _) Hresp), u32_small by lia.
  destruct (WriteFile_ok (le_bytes 4 (zlen (f req))) (mkPipe [] (pipe_out s) (pipe_sent s)) Hw) as (out1 & Hw1 & Hwr1).
  rewrite (bind_ret _ _ _ _ _ Hw1). cbn [negb pipe_in pipe_sent]. unfold pipe_messages.
  destruct (Z.eqb_spec (zlen (f req)) 0) as [Hz|Hz].
  - rewrite Hz. by exists out1.
  - rewrite (proj2 (Z.ltb_lt 0 (zlen (f req)))) by lia.
    destruct (WriteFile_ok (f req) (mkPipe [] out1 (pipe_sent s ++ [le_bytes 4 (zlen (f req))])) Hwr1) as (out2 & Hw2 & _).
    rewrite (bind_ret _ _ _ _ _ Hw2). exists out2. cbn. by rewrite <- app_assoc.
Qed.

Lemma ReadFile_sent n s : pipe_sent (snd (ReadFile n s)) = pipe_sent s.
Proof. unfold ReadFile. rewrite bind_get. destruct (pipe_in s) as [|[l|] evs]; [done| |done]. by destruct (_ <=? _). Qed.

Lemma win_await_sent s : pipe_sent (snd (win_await_reply s)) = pipe_sent s.
Proof.
  unfold win_await_reply, bind. pose proof (ReadFile_sent 4 s) as H1.
  destruct (ReadFile 4 s) as [[[b l]|e| |] s1]; cbn [fst snd] in *; try done. destruct (b && _); [|done].
  destruct (_ <? le_value l); [done|]. destruct (0 <? le_value l); [|done]. pose proof (ReadFile_sent (le_value l) s1) as H2.
  destruct (ReadFile (le_value l) s1) as [[[b' l']|e| |] s2]; cbn in *; congruence.
Qed.

Lemma win_await_ok resp s : pipe_in s = PipeMessage <$> pipe_messages resp -> zlen resp <= kMaxIpcMessageBytes ->
  fst (win_await_reply s) = Ret resp.
Proof.
  intros Hs Hl. pose proof (zlen_nonneg resp). assert (HU : kMaxIpcMessageBytes < U32) by done. unfold pipe_messages in Hs.
  unfold win_await_reply. destruct (Z.eqb_spec (zlen resp) 0) as [Hz|Hz].
  - assert (resp = []) as -> by (destruct resp; [done|by unfold zlen in Hz; cbn in Hz]).
    by rewrite (bind_ret _ _ _ _ _ (ReadFile_ok 4 _ _ s Hs ltac:(done))).
  - rewrite (bind_ret _ _ _ _ _ (ReadFile_ok 4 _ _ s Hs ltac:(by rewrite zlen_le_bytes_4))). cbn [fst snd].
    rewrite zlen_le_bytes_4, le_value_4 by lia. cbn [andb Z.eqb Pos.eqb].
    rewrite (proj2 (Z.ltb_ge _ _) Hl), (proj2 (Z.ltb_lt 0 (zlen resp))) by lia.
    erewrite bind_ret by (by apply ReadFile_ok). cbn. by rewrite Z.eqb_refl.
Qed.

(** ** Properties *)

(** On pipes too a request is a call of the handler: when each side's messages
    are what the other reads, the client gets exactly the handler's answer. *)
Theorem win_ipc_roundtrip req f cp sp :
  zlen req <= kMaxIpcMessageBytes -> zlen (f req) <= kMaxIpcMessageBytes ->
  Forall (eq true) (pipe_out cp) -> Forall (eq true) (pipe_out sp) -> pipe_sent cp = [] -> pipe_sent sp = [] ->
  let '(answer, cp') := win_send_request true req cp in
  let '(served, sp') := win_serve_client (Some f) sp in
  pipe_in sp = PipeMessage <$> pipe_sent cp' -> pipe_in cp = PipeMessage <$> pipe_sent sp' ->
  answer = Ret (f req) /\ served = Ret tt.
Proof.
  intros Hr Hf Hwc Hws Hc Hs. assert (HU : kMaxIpcMessageBytes < U32) by done. pose proof (zlen_nonneg req).
  unfold win_send_request. rewrite (proj2 (Z.ltb_ge _ _) Hr). cbn [negb]. rewrite u32_small by lia.
  destruct (WriteFile_ok (le_bytes 4 (zlen req)) cp Hwc) as (out1 & Hw1 & Hwr1). rewrite (bind_ret _ _ _ _ _ Hw1). rewrite Hc. cbn [app].
  assert (Hw2 : exists out2, (if zlen req =? 0 then ret true else WriteFile req) (mkPipe (pipe_in cp) out1 [le_bytes 4 (zlen req)]) =
    (Ret true, mkPipe (pipe_in cp) out2 (pipe_messages req))).
  { unfold pipe_messages. destruct (Z.eqb_spec (zlen req) 0) as [->|]; [by exists out1|].
    destruct (WriteFile_ok req (mkPipe (pipe_in cp) out1 [le_bytes 4 (zlen req)]) Hwr1) as (out2 & ? & _). by exists out2. }
  destruct Hw2 as (out2 & Hw2). rewrite (bind_ret _ _ _ _ _ Hw2).
  pose proof (win_await_sent (mkPipe (pipe_in cp) out2 (pipe_messages req))) as Hsent.
  pose proof (win_await_ok (f req) (mkPipe (pipe_in cp) out2 (pipe_messages req))) as Hok.
  destruct (win_await_reply _) as [answer cp']. destruct (win_serve_client (Some f) sp) as [served sp'] eqn:Es.
  cbn [fst snd pipe_in pipe_sent] in *. intros Hup Hdown. rewrite Hsent in Hup.
  destruct (win_serve_spec f req sp Hup Hr Hf Hws) as (out & Hserve). rewrite Es, Hs in Hserve. injection Hserve as -> ->.
  cbn in Hdown. split; [|done]. by apply Hok.
Qed.

(** *** A witness *)

Definition demo_pipe_client : Pipe := mkPipe (PipeMessage <$> pipe_messages (demo_handler demo_request)) [] [].
Definition demo_pipe_server : Pipe := mkPipe (PipeMessage <$> pipe_messages demo_request) [true] [].

Lemma win_ipc_roundtrip_witness :
  fst (win_send_request true demo_request demo_pipe_client) = Ret (demo_handler demo_request).
Proof.
  refine (proj1 (win_ipc_roundtrip demo_request demo_handler demo_pipe_client demo_pipe_server _ _ _ _ _ _ _ _)).
  all: try (vm_compute; done).
  all: by repeat constructor.
Defined.
