(* ===== verification/LanPaging.v ===== *)
(** * The Windows paging prototype

    [windows-lan-sharing]: one server process that lends a pool of memory
    (server/paging_server.cpp), and a client that fetches clusters of it on page
    faults (client/TcpPageFaultBackend.cpp, client/RemoteHeap.cpp), over a binary
    protocol (common/PagingWireProtocol.hpp).  Sockets are the scripts of
    [LocalIpc]; a mutex that is locked by its owner again, and memory outside the
    pool, are undefined. *)

From S2P Require Import Prelude LocalIpc.

(** ** The wire protocol *)

Record PagingHeader := mkPagingHeader {
  ph_magic : Z;
  ph_opcode : Z;
  ph_address : Z;
  ph_page_count : Z;
  ph_payload_len : Z
}.

Definition PAGING_MAGIC : Z := 0x52414D31.
Definition PAGING_OP_READ_CLUSTER : Z := 1.
Definition PAGING_OP_WRITE_DIFF : Z := 2.
Definition CLUSTER_SIZE : Z := 64 * 1024.
Definition PAGE_SIZE : Z := 4096.
Definition PAGES_PER_CLUSTER : Z := CLUSTER_SIZE / PAGE_SIZE.

(** The packed struct: 24 bytes, three of them reserved. *)
Definition paging_header_bytes (h : PagingHeader) : list byte :=
  le_bytes 4 (ph_magic h) ++ le_bytes 1 (ph_opcode h) ++ [x00; x00; x00] ++ le_bytes 8 (ph_address h) ++
  le_bytes 4 (ph_page_count h) ++ le_bytes 4 (ph_payload_len h).

Definition paging_header_of (l : list byte) : PagingHeader :=
  mkPagingHeader (le_value (slice 0 4 l)) (le_value (slice 4 1 l)) (le_value (slice 8 8 l))
    (le_value (slice 16 4 l)) (le_value (slice 20 4 l)).

(** [send]: [None] is SOCKET_ERROR. *)
Definition sock_send (l : list byte) : M Fd (option Z) :=
  let! r := sys_write l in
  ret (match r with WOk n => Some n | _ => None end).

Definition sock_recv (n : Z) : M Fd (option (list byte)) :=
  let! r := sys_read n in
  ret (match r with IoOk l => Some l | _ => None end).

Fixpoint send_loop (fuel : nat) (src : list byte) : M Fd bool :=
  if 0 <? zlen src then
    match fuel with
    | O => nofuel
    | S fuel =>
        let! r := sock_send src in
        match r with
        | None => ret false
        | Some sent => send_loop fuel (drop (Z.to_nat sent) src)
        end
    end
  else ret true.

Definition send_exact (src : list byte) : M Fd bool := fun s => send_loop (length src + length (fd_out s)) src s.

Fixpoint recv_loop (fuel : nat) (len : Z) (acc : list byte) : M Fd (bool * list byte) :=
  if 0 <? len - zlen acc then
    match fuel with
    | O => nofuel
    | S fuel =>
        let! r := sock_recv (len - zlen acc) in
        match r with
        | None | Some [] => ret (false, acc)
        | Some l => recv_loop fuel len (acc ++ l)
        end
    end
  else ret (true, acc).

Definition recv_exact (len : Z) : M Fd (bool * list byte) :=
  fun s => recv_loop (Z.to_nat len + length (fd_in s)) len [] s.

Definition send_paging_header (opcode address page_count payload_len : Z) : M Fd bool :=
  send_exact (paging_header_bytes (mkPagingHeader PAGING_MAGIC opcode address page_count payload_len)).

(** [addr & ~(CLUSTER_SIZE - 1)]. *)
Definition align_down_cluster (addr : Z) : Z := Z.land addr (u64 (Z.lnot (CLUSTER_SIZE - 1))).

(** ** The server *)

Definition POOL_SIZE : Z := 8 * 1024 * 1024 * 1024.

Fixpoint pool_bytes (m : Z -> byte) (off : Z) (n : nat) : list byte :=
  match n with O => [] | S n => m off :: pool_bytes m (off + 1) n end.
Definition mem_read (m : Z -> byte) (off n : Z) : list byte := pool_bytes m off (Z.to_nat n).
Definition mem_write (m : Z -> byte) (off : Z) (l : list byte) : Z -> byte :=
  fun x => if (off <=? x) && (x <? off + zlen l) then default x00 (znth l (x - off)) else m x.

Record PagingEnv := mkPagingEnv { pe_sock : Fd; pe_pool : Z -> byte }.

Definition set_pe_sock (s : Fd) (e : PagingEnv) : PagingEnv := mkPagingEnv s (pe_pool e).

(** What [handle_client] does with a header; the result is whether the loop goes on. *)
Definition paging_decide (hdr : PagingHeader) : M PagingEnv bool :=
  if negb (ph_magic hdr =? PAGING_MAGIC) then ret false
  else if (ph_page_count hdr =? 0) || (PAGES_PER_CLUSTER <? ph_page_count hdr) then ret false
  else if negb (ph_payload_len hdr =? ph_page_count hdr * PAGE_SIZE) then ret false
  else
    let payload_len := ph_payload_len hdr in
    let cluster := ph_address hdr mod POOL_SIZE in
    if ph_opcode hdr =? PAGING_OP_READ_CLUSTER then
      if POOL_SIZE <? cluster + payload_len then undef
      else
        let! e := get in
        zoom pe_sock set_pe_sock (send_exact (mem_read (pe_pool e) cluster payload_len))
    else if ph_opcode hdr =? PAGING_OP_WRITE_DIFF then
      let! r := zoom pe_sock set_pe_sock (recv_exact payload_len) in
      if negb (fst r) then ret false
      else if POOL_SIZE <? cluster + payload_len then undef
      else
        let! e := get in
        do! put (mkPagingEnv (pe_sock e) (mem_write (pe_pool e) cluster (snd r))) in
        ret true
    else ret false.

(** One round of its loop. *)
Definition paging_round : M PagingEnv bool :=
  let! r := zoom pe_sock set_pe_sock (recv_exact 24) in
  if negb (fst r) then ret false else paging_decide (paging_header_of (snd r)).

(** [handle_client], whose flags stay set while it runs. *)
Fixpoint paging_serve (fuel : nat) : M PagingEnv unit :=
  match fuel with
  | O => nofuel
  | S fuel =>
      let! go := paging_round in
      if go then paging_serve fuel else ret tt
  end.

(** ** The backend *)

Record TcpPageFaultBackend := mkBackend {
  tb_socket : option Fd;
  tb_locked : bool;       (* [socket_mutex_] is held *)
  tb_initialized : bool;
  tb_closed : nat         (* sockets closed *)
}.

Definition TcpPageFaultBackend_new : TcpPageFaultBackend := mkBackend None false false 0.

Definition set_tb_locked (b : bool) (t : TcpPageFaultBackend) : TcpPageFaultBackend :=
  mkBackend (tb_socket t) b (tb_initialized t) (tb_closed t).
Definition set_tb_socket (s : option Fd) (t : TcpPageFaultBackend) : TcpPageFaultBackend :=
  mkBackend s (tb_locked t) (tb_initialized t) (tb_closed t).
Definition set_tb_initialized (b : bool) (t : TcpPageFaultBackend) : TcpPageFaultBackend :=
  mkBackend (tb_socket t) (tb_locked t) b (tb_closed t).

(** [std::lock_guard] over the rest of a block: a [std::mutex] must not be locked
    by the thread that holds it. *)
Definition with_lock {A} (c : M TcpPageFaultBackend A) : M TcpPageFaultBackend A :=
  let! t := get in
  if tb_locked t then undef
  else
    do! put (set_tb_locked true t) in
    let! a := c in
    let! t := get in
    do! put (set_tb_locked false t) in
    ret a.

Definition close_socket : M TcpPageFaultBackend unit :=
  with_lock (
    let! t := get in
    match tb_socket t with
    | None => ret tt
    | Some _ => put (mkBackend None (tb_locked t) (tb_initialized t) (S (tb_closed t)))
    end).

(** [sock]: what [connect_socket] gives. *)
Definition backend_initialize (sock : option Fd) : M TcpPageFaultBackend bool :=
  let! t := get in
  if tb_initialized t then ret true
  else
    match sock with
    | None => ret false
    | Some s =>
        do! with_lock (let! t := get in put (set_tb_socket (Some s) t)) in
        let! t := get in
        do! put (set_tb_initialized true t) in
        ret true
    end.

(** A call on [socket_], which is valid here. *)
Definition on_socket {A} (c : M Fd A) : M TcpPageFaultBackend A :=
  let! t := get in
  match tb_socket t with
  | None => undef
  | Some s => let '(o, s') := c s in do! put (set_tb_socket (Some s') t) in fun t => (o, t)
  end.

Definition page_count_of (size : Z) : Z :=
  let n := u32 (u64 (size + PAGE_SIZE - 1) / PAGE_SIZE) in
  let n := if n =? 0 then 1 else n in
  if PAGES_PER_CLUSTER <? n then PAGES_PER_CLUSTER else n.

Definition give_up_socket : M TcpPageFaultBackend unit :=
  do! close_socket in
  let! t := get in
  put (set_tb_initialized false t).

(** The result, and what is in [dst]. *)
Definition fetch_page_cluster (addr size : Z) : M TcpPageFaultBackend (bool * list byte) :=
  let! t := get in
  if negb (tb_initialized t) then ret (false, [])
  else
    with_lock (
      let! t := get in
      match tb_socket t with
      | None => ret (false, [])
      | Some _ =>
          let page_count := page_count_of size in
          let payload_len := page_count * PAGE_SIZE in
          let! sent := on_socket (send_paging_header PAGING_OP_READ_CLUSTER (align_down_cluster addr) page_count payload_len) in
          if negb sent then do! give_up_socket in ret (false, [])
          else
            let! r := on_socket (recv_exact payload_len) in
            if negb (fst r) then do! give_up_socket in ret (false, snd r)
            else ret (true, snd r)
      end).

(** [src]: the bytes at [src] as far as they are read. *)
Definition commit_page_diff (addr size : Z) (src : Z -> byte) : M TcpPageFaultBackend bool :=
  let! t := get in
  if negb (tb_initialized t) then ret false
  else
    with_lock (
      let! t := get in
      match tb_socket t with
      | None => ret false
      | Some _ =>
          let page_count := page_count_of size in
          let payload_len := page_count * PAGE_SIZE in
          let! sent := on_socket (send_paging_header PAGING_OP_WRITE_DIFF (align_down_cluster addr) page_count payload_len) in
          if negb sent then do! give_up_socket in ret false
          else
            let! sent := on_socket (send_exact (mem_read src 0 payload_len)) in
            if negb sent then do! give_up_socket in ret false
            else ret true
      end).

Definition backend_shutdown : M TcpPageFaultBackend unit :=
  do! close_socket in
  let! t := get in
  put (set_tb_initialized false t).

(** ** Sockets *)

(** A signal ends a winsock call with an error. *)
Definition harden (s : Fd) : Fd :=
  mkFd ((fun e => match e with InIntr => InError | e => e end) <$> fd_in s) (fd_out s) (fd_written s).

Definition sock_stream (s : Fd) : list byte := stream (fd_in (harden s)).
Definition sock_ends (s : Fd) : bool := ends (fd_in (harden s)).

(** Every [send] takes at least a byte. *)
Definition sock_sendable (s : Fd) : Prop := Forall (fun e => match e with OutTake k => 0 < k | _ => False end) (fd_out s).

Lemma sys_read_harden n s :
  sys_read n (harden s) =
    match sys_read n s with (Ret IoIntr, s') => (Ret IoError, harden s') | (o, s') => (o, harden s') end.
Proof.
  unfold sys_read. rewrite !bind_get. destruct s as [[|[l| |] evs] out wr]; cbn [fd_in harden fmap list_fmap]; try done.
  by destruct (zlen l <=? n).
Qed.

(** [recv_exact] is [read_exact] where signals are errors. *)
Lemma recv_loop_is_read len fuel : forall acc s,
  fd_read_loop fuel len acc (harden s) = (let '(o, s') := recv_loop fuel len acc s in (o, harden s')).
Proof.
  induction fuel as [|fuel IH]; intros acc s; cbn [fd_read_loop recv_loop];
    destruct (Z.ltb_spec (zlen acc) len), (Z.ltb_spec 0 (len - zlen acc)); try lia; try done.
  unfold sock_recv, bind. rewrite sys_read_harden. destruct (sys_read (len - zlen acc) s) as [[[[|b l]| |]|e| |] s']; try done; apply IH.
Qed.

Lemma recv_exact_ok len s : 0 <= len <= zlen (sock_stream s) ->
  exists evs, recv_exact len s = (Ret (true, take (Z.to_nat len) (sock_stream s)), mkFd evs (fd_out s) (fd_written s)) /\
    sock_stream (mkFd evs (fd_out s) (fd_written s)) = drop (Z.to_nat len) (sock_stream s) /\
    sock_ends (mkFd evs (fd_out s) (fd_written s)) = sock_ends s.
Proof.
  intros Hl. unfold recv_exact. destruct (read_exact_ok len (harden s) Hl) as (evs & Hr & Hs & He).
  unfold read_exact in Hr. cbn [harden fd_in fd_out fd_written] in Hr. rewrite length_fmap in Hr. fold (harden s) in Hr. rewrite recv_loop_is_read in Hr.
  destruct (recv_loop _ len [] s) as [o s'] eqn:E. injection Hr as -> Hh Ho Hw. exists (fd_in s').
  assert (Hs' : s' = mkFd (fd_in s') (fd_out s) (fd_written s)) by (destruct s'; cbn in *; congruence).
  rewrite <- Hs'. unfold sock_stream, sock_ends. cbn [harden fd_in]. rewrite Hh. by split_and!.
Qed.

(** [recv_exact] never is undefined, never throws, and writes nothing. *)
Lemma recv_exact_inv len s : 0 <= len ->
  match recv_exact len s with
  | (Ret _, s') => fd_written s' = fd_written s
  | (o, s') => o = NoFuel /\ fd_written s' = fd_written s
  end.
Proof.
  intros Hl. pose proof (read_exact_inv len (harden s) Hl) as Hr. pose proof (fd_read_loop_written len (Z.to_nat len + length (fd_in s)) [] (harden s)) as Hw.
  unfold read_exact in Hr. cbn [harden fd_in] in Hr. rewrite length_fmap in Hr. fold (harden s) in Hr. rewrite recv_loop_is_read in Hr, Hw.
  unfold recv_exact. destruct (recv_loop _ len [] s) as [[[b l]|e| |] s']; cbn in Hw; by try destruct Hr.
Qed.

Lemma recv_exact_short len s : 0 <= len -> zlen (sock_stream s) < len -> sock_ends s = true ->
  exists l s', recv_exact len s = (Ret (false, l), s').
Proof.
  intros H0 Hl He. pose proof (read_exact_spec len (harden s) H0) as Hr. cbv zeta in Hr. fold (sock_stream s) in Hr. fold (sock_ends s) in Hr.
  rewrite (proj2 (Z.leb_gt _ _) Hl), He in Hr. destruct Hr as (evs & Hr).
  unfold read_exact in Hr. cbn [harden fd_in fd_out fd_written] in Hr. rewrite length_fmap in Hr. fold (harden s) in Hr.
  rewrite recv_loop_is_read in Hr. unfold recv_exact. destruct (recv_loop _ len [] s) as [o s'] eqn:E. injection Hr as -> _ _ _. by eexists _, _.
Qed.

Lemma recv_exact_true len s l s' : 0 <= len -> recv_exact len s = (Ret (true, l), s') -> len <= zlen (sock_stream s).
Proof.
  intros H0 Hr. pose proof (read_exact_inv len (harden s) H0) as Hi. unfold read_exact in Hi. cbn [harden fd_in] in Hi.
  rewrite length_fmap in Hi. fold (harden s) in Hi. rewrite recv_loop_is_read in Hi. unfold recv_exact in Hr. rewrite Hr in Hi. by apply Hi.
Qed.

Lemma recv_exact_waits len s : zlen (sock_stream s) < len -> sock_ends s = false -> fst (recv_exact len s) = NoFuel.
Proof.
  intros Hl He. pose proof (zlen_nonneg (sock_stream s)). pose proof (read_exact_spec len (harden s) ltac:(lia)) as Hr. cbv zeta in Hr.
  fold (sock_stream s) in Hr. fold (sock_ends s) in Hr. rewrite (proj2 (Z.leb_gt _ _) Hl), He in Hr.
  unfold read_exact in Hr. cbn [harden fd_in fd_out fd_written] in Hr. rewrite length_fmap in Hr. fold (harden s) in Hr.
  rewrite recv_loop_is_read in Hr. unfold recv_exact. by destruct (recv_loop _ len [] s) as [o s'].
Qed.

Lemma recv_exact_out len s : fd_out (snd (recv_exact len s)) = fd_out s.
Proof.
  unfold recv_exact. generalize (Z.to_nat len + length (fd_in s))%nat, (@nil byte). intros fuel.
  revert s. induction fuel as [|fuel IH]; intros s acc; cbn [recv_loop]; destruct (0 <? len - zlen acc); try done.
  assert (H1 : fd_out (snd (sys_read (len - zlen acc) s)) = fd_out s).
  { unfold sys_read. rewrite bind_get. destruct (fd_in s) as [|[l| |] evs]; try done. by destruct (zlen l <=? _). }
  unfold sock_recv, bind. destruct (sys_read (len - zlen acc) s) as [[[[|b l]| |]|e| |] s']; try done. cbn in H1 |- *. by rewrite IH.
Qed.

Lemma send_loop_spec fuel : forall src s,
  (length src + length (fd_out s) <= fuel)%nat ->
  exists b k evs, send_loop fuel src s = (Ret b, mkFd (fd_in s) evs (fd_written s ++ take k src)) /\
    (b = true -> (length src <= k)%nat) /\ (sock_sendable s -> b = true /\ sock_sendable (mkFd (fd_in s) evs (fd_written s))).
Proof.
  induction fuel as [|fuel IH]; intros src s Hf.
  { destruct src; [|cbn in Hf; lia]. exists true, 0%nat, (fd_out s). cbn. rewrite app_nil_r. by destruct s. }
  cbn [send_loop]. destruct (Z.ltb_spec 0 (zlen src)) as [Hz|Hz].
  2: { destruct src; [|unfold zlen in Hz; cbn in Hz; lia]. exists true, 0%nat, (fd_out s). rewrite app_nil_r. by destruct s. }
  unfold sock_send, sys_write, bind, get, put, ret. destruct s as [i [|[k| | |] evs] wr]; cbn [fd_in fd_out fd_written length] in *.
  - destruct (IH (drop (Z.to_nat (zlen src)) src) (mkFd i [] (wr ++ src))) as (b & k & evs & -> & Hb & Hw).
    { cbn. rewrite length_drop. unfold zlen in *. lia. }
    exists b, (length src), evs. rewrite (take_ge src) by done. unfold zlen. rewrite Nat2Z.id, drop_ge by done.
    cbn [fd_in fd_written]. rewrite take_nil, app_nil_r. split_and!; [done|done|]. intros _. by apply Hw; constructor.
  - set (m := Z.min (Z.max k 0) (zlen src)).
    destruct (IH (drop (Z.to_nat m) src) (mkFd i evs (wr ++ take (Z.to_nat m) src))) as (b & k' & evs' & -> & Hb & Hw).
    { cbn. rewrite length_drop. lia. }
    exists b, (Z.to_nat m + k')%nat, evs'. cbn [fd_in fd_written]. rewrite <- app_assoc, take_take_drop. split_and!; [done| |].
    + intros ->. specialize (Hb eq_refl). rewrite length_drop in Hb. lia.
    + intros Hs. apply Hw. by apply Forall_cons in Hs as [_ Hs].
  - exists false, 0%nat, evs. rewrite take_0, app_nil_r. split_and!; [done|by intros [=]|]. by intros [? _]%Forall_cons.
  - exists false, 0%nat, evs. rewrite take_0, app_nil_r. split_and!; [done|by intros [=]|]. by intros [? _]%Forall_cons.
  - exists false, 0%nat, evs. rewrite take_0, app_nil_r. split_and!; [done|by intros [=]|]. by intros [? _]%Forall_cons.
Qed.

Lemma send_exact_spec src s :
  exists b k evs, send_exact src s = (Ret b, mkFd (fd_in s) evs (fd_written s ++ take k src)) /\
    (b = true -> take k src = src) /\ (sock_sendable s -> b = true /\ sock_sendable (mkFd (fd_in s) evs (fd_written s))).
Proof.
  destruct (send_loop_spec (length src + length (fd_out s)) src s) as (b & k & evs & Hr & Hb & Hw); [done|].
  exists b, k, evs. split_and!; [done| |done]. intros E. by apply take_ge, Hb.
Qed.

Lemma send_exact_ok src s : sock_sendable s ->
  exists evs, send_exact src s = (Ret true, mkFd (fd_in s) evs (fd_written s ++ src)) /\ sock_sendable (mkFd (fd_in s) evs (fd_written s)).
Proof.
  intros Hs. destruct (send_exact_spec src s) as (b & k & evs & Hr & Hb & Hw). destruct (Hw Hs) as [-> Hs'].
  exists evs. by rewrite Hr, (Hb eq_refl).
Qed.

(** ** Headers *)

Definition paging_header_ok (h : PagingHeader) : Prop :=
  0 <= ph_magic h < U32 /\ 0 <= ph_opcode h < 256 /\ is_u64 (ph_address h) /\ 0 <= ph_page_count h < U32 /\ 0 <= ph_payload_len h < U32.

Lemma zlen_paging_header h : zlen (paging_header_bytes h) = 24.
Proof. unfold paging_header_bytes, zlen. rewrite !length_app, !length_le_bytes. done. Qed.

Lemma slice_here {A} (l r : list A) n : zlen l = n -> slice 0 n (l ++ r) = l.
Proof. intros <-. unfold slice, zlen. rewrite Nat2Z.id. cbn. apply take_app_length. Qed.

Lemma slice_skip {A} (l r : list A) off n : zlen l <= off -> slice off n (l ++ r) = slice (off - zlen l) n r.
Proof. intros Ho. unfold slice, zlen in *. rewrite drop_app_ge by lia. do 2 f_equal. lia. Qed.

Lemma zlen_le_bytes n z : zlen (le_bytes n z) = Z.of_nat n.
Proof. unfold zlen. by rewrite length_le_bytes. Qed.

(** Take a fixed-width field out of a packed struct. *)
Ltac field_of_struct :=
  rewrite ?slice_skip by (rewrite ?zlen_le_bytes; unfold zlen; cbn; lia);
  rewrite ?zlen_le_bytes; change (zlen [x00; x00; x00]) with 3;
  match goal with |- context [slice ?o _ _] => change o with 0 end;
  rewrite slice_here by apply zlen_le_bytes; rewrite le_value_bytes by lia; apply Z.mod_small; done || lia.

Lemma paging_header_roundtrip h : paging_header_ok h -> paging_header_of (paging_header_bytes h) = h.
Proof.
  intros (Hm & Ho & Ha & Hp & Hl). destruct h as [m o a p l]. cbn in Hm, Ho, Ha, Hp, Hl. unfold is_u64, U64, U32 in *.
  unfold paging_header_of, paging_header_bytes; cbn [ph_magic ph_opcode ph_address ph_page_count ph_payload_len].
  rewrite <- (app_nil_r (le_bytes 4 l)). f_equal; field_of_struct.
Qed.

(** ** Clusters *)

Lemma align_down_cluster_spec a : is_u64 a ->
  align_down_cluster a = a - a mod CLUSTER_SIZE /\ align_down_cluster a mod CLUSTER_SIZE = 0 /\ is_u64 (align_down_cluster a).
Proof.
  intros Ha. unfold align_down_cluster. change (CLUSTER_SIZE - 1) with (2 ^ 16 - 1). rewrite land_lnot_mask by (done || lia).
  change (2 ^ 16) with CLUSTER_SIZE. pose proof (Z.mod_pos_bound a CLUSTER_SIZE ltac:(done)). pose proof (Z.mod_le a CLUSTER_SIZE ltac:(apply Ha) ltac:(done)).
  unfold is_u64 in *. split_and!; [done| |lia|lia]. rewrite Zminus_mod_idemp_r. by rewrite Z.sub_diag.
Qed.

(** A whole cluster lies in the pool. *)
Lemma cluster_in_pool a n : a mod CLUSTER_SIZE = 0 -> n <= CLUSTER_SIZE -> 0 <= a mod POOL_SIZE /\ a mod POOL_SIZE + n <= POOL_SIZE.
Proof.
  intros Ha Hn. pose proof (Z.mod_pos_bound a POOL_SIZE ltac:(done)). split; [lia|].
  assert (Hc : (a mod POOL_SIZE) mod CLUSTER_SIZE = 0).
  { rewrite Z.mod_mod_divide; [done|]. by exists (2 ^ 17). }
  apply Z.mod_divide in Hc as [q Hq]; [|done]. assert (POOL_SIZE = 2 ^ 17 * CLUSTER_SIZE) by done.
  unfold CLUSTER_SIZE, POOL_SIZE in *. lia.
Qed.

Lemma page_count_range size : 1 <= page_count_of size <= PAGES_PER_CLUSTER.
Proof.
  unfold page_count_of. pose proof (u32_range (u64 (size + PAGE_SIZE - 1) / PAGE_SIZE)) as Hr. revert Hr.
  generalize (u32 (u64 (size + PAGE_SIZE - 1) / PAGE_SIZE)). intros n Hn. change PAGES_PER_CLUSTER with 16.
  destruct (Z.eqb_spec n 0); [done|]. destruct (Z.ltb_spec 16 n); lia.
Qed.

Lemma length_pool_bytes m n : forall off, length (pool_bytes m off n) = n.
Proof. induction n as [|n IH]; intros off; cbn; [done|by rewrite IH]. Qed.

Lemma lookup_pool_bytes m n : forall off i, (i < n)%nat -> pool_bytes m off n !! i = Some (m (off + Z.of_nat i)).
Proof.
  induction n as [|n IH]; intros off [|i] Hi; [lia|lia| |]; cbn [pool_bytes].
  - cbn. do 2 f_equal. lia.
  - change ((m off :: pool_bytes m (off + 1) n) !! S i) with (pool_bytes m (off + 1) n !! i). rewrite IH by lia. do 2 f_equal. lia.
Qed.

Lemma zlen_mem_read m off n : 0 <= n -> zlen (mem_read m off n) = n.
Proof. intros Hn. unfold mem_read, zlen. rewrite length_pool_bytes. lia. Qed.

Lemma mem_read_write m off l : mem_read (mem_write m off l) off (zlen l) = l.
Proof.
  apply list_eq. intros i. unfold mem_read, zlen. rewrite Nat2Z.id. destruct (decide (i < length l)%nat) as [Hi|Hi].
  - rewrite lookup_pool_bytes by done. unfold mem_write.
    rewrite (proj2 (Z.leb_le _ _)), (proj2 (Z.ltb_lt _ _)) by (unfold zlen; lia). cbn [andb].
    destruct (lookup_lt_is_Some_2 l i Hi) as [b Hb]. rewrite Hb. f_equal. replace (off + Z.of_nat i - off) with (Z.of_nat i) by lia.
    rewrite znth_lookup, Nat2Z.id by lia. by rewrite Hb.
  - rewrite !lookup_ge_None_2; [done|lia|]. rewrite length_pool_bytes. lia.
Qed.

(** Where a cluster of the client's region lies in the pool. *)
Definition pool_at (addr : Z) : Z := align_down_cluster addr mod POOL_SIZE.

Definition request_header (op addr size : Z) : PagingHeader :=
  mkPagingHeader PAGING_MAGIC op (align_down_cluster addr) (page_count_of size) (page_count_of size * PAGE_SIZE).

Lemma request_header_ok op addr size : 0 <= op < 256 -> is_u64 addr -> paging_header_ok (request_header op addr size).
Proof.
  intros Ho Ha. pose proof (page_count_range size) as Hp. change PAGES_PER_CLUSTER with 16 in Hp.
  destruct (align_down_cluster_spec addr Ha) as (_ & _ & Hu). unfold paging_header_ok, request_header, PAGE_SIZE, U32. cbn.
  split_and!; done || lia || apply Hu.
Qed.

(** The server reads a header and decides. *)
Lemma round_run h rest sf pool : paging_header_ok h -> sock_stream sf = paging_header_bytes h ++ rest ->
  exists evs, sock_stream (mkFd evs (fd_out sf) (fd_written sf)) = rest /\
    sock_ends (mkFd evs (fd_out sf) (fd_written sf)) = sock_ends sf /\
    paging_round (mkPagingEnv sf pool) = paging_decide h (mkPagingEnv (mkFd evs (fd_out sf) (fd_written sf)) pool).
Proof.
  intros Hok Hs. pose proof (zlen_paging_header h) as H24. destruct (recv_exact_ok 24 sf) as (evs & Hr & Hrest & Hends).
  { rewrite Hs, zlen_app, H24. pose proof (zlen_nonneg rest). lia. }
  rewrite Hs in Hr, Hrest. change (Z.to_nat 24) with 24%nat in *.
  assert (Hl : length (paging_header_bytes h) = 24%nat) by (unfold zlen in H24; lia).
  rewrite take_app_length' in Hr by done. rewrite drop_app_length' in Hrest by done.
  exists evs. split; [done|]. split; [done|]. unfold paging_round, bind, zoom. cbn [pe_sock]. rewrite Hr. cbn [fst snd negb set_pe_sock pe_pool].
  by rewrite paging_header_roundtrip.
Qed.

(** A request of the client passes the checks. *)
Lemma round_header op addr size rest sf pool : 0 <= op < 256 -> is_u64 addr ->
  sock_stream sf = paging_header_bytes (request_header op addr size) ++ rest ->
  exists evs, sock_stream (mkFd evs (fd_out sf) (fd_written sf)) = rest /\
    sock_ends (mkFd evs (fd_out sf) (fd_written sf)) = sock_ends sf /\
    paging_round (mkPagingEnv sf pool) =
      (let e := mkPagingEnv (mkFd evs (fd_out sf) (fd_written sf)) pool in
       let n := page_count_of size * PAGE_SIZE in
       if op =? PAGING_OP_READ_CLUSTER then zoom pe_sock set_pe_sock (send_exact (mem_read pool (pool_at addr) n)) e
       else if op =? PAGING_OP_WRITE_DIFF then
         bind (zoom pe_sock set_pe_sock (recv_exact n)) (fun r =>
           if negb (fst r) then ret false
           else let! e := get in do! put (mkPagingEnv (pe_sock e) (mem_write (pe_pool e) (pool_at addr) (snd r))) in ret true) e
       else (Ret false, e)).
Proof.
  intros Hop Ha Hs. destruct (round_run _ _ sf pool (request_header_ok op addr size Hop Ha) Hs) as (evs & Hrest & Hends & ->).
  exists evs. split; [done|]. split; [done|]. set (s1 := mkFd _ _ _). unfold paging_decide.
  cbn [request_header ph_magic ph_opcode ph_address ph_page_count ph_payload_len].
  pose proof (page_count_range size) as Hp. destruct (align_down_cluster_spec addr Ha) as (_ & Hmod & _).
  rewrite Z.eqb_refl. cbn [negb]. rewrite (proj2 (Z.eqb_neq (page_count_of size) 0)), (proj2 (Z.ltb_ge PAGES_PER_CLUSTER _)) by lia.
  cbn [orb]. rewrite Z.eqb_refl. cbn [negb]. fold (pool_at addr).
  assert (Hin : (POOL_SIZE <? pool_at addr + page_count_of size * PAGE_SIZE) = false).
  { apply Z.ltb_ge. apply (cluster_in_pool (align_down_cluster addr) (page_count_of size * PAGE_SIZE) Hmod).
    change PAGES_PER_CLUSTER with 16 in Hp. unfold PAGE_SIZE, CLUSTER_SIZE. lia. }
  destruct (op =? PAGING_OP_READ_CLUSTER); [by rewrite Hin|]. destruct (op =? PAGING_OP_WRITE_DIFF); [|done].
  unfold bind, zoom, ret, undef. cbn [pe_sock]. destruct (recv_exact _ _) as [[[b l]|e| |] s']; [|done..].
  cbn [fst snd]. destruct b; [|done]. cbn [negb]. by rewrite Hin.
Qed.

(** ** The client *)

Definition connected (s : Fd) (t : TcpPageFaultBackend) : Prop :=
  tb_socket t = Some s /\ tb_locked t = false /\ tb_initialized t = true.

Definition client_sent (t : TcpPageFaultBackend) : list byte := default [] (fd_written <$> tb_socket t).

Definition set_backend_socket (s : Fd) (t : TcpPageFaultBackend) : TcpPageFaultBackend := mkBackend (Some s) false true (tb_closed t).

(** A call on the socket under the lock, and what follows a failure. *)
Lemma on_socket_run {A} (c : M Fd A) s t : tb_socket t = Some s ->
  on_socket c t = (let '(o, s') := c s in (o, set_tb_socket (Some s') t)).
Proof. intros Hs. unfold on_socket. rewrite bind_get, Hs. by destruct (c s). Qed.

Lemma give_up_undef t : tb_locked t = true -> give_up_socket t = (Undef, t).
Proof. intros Hl. unfold give_up_socket, close_socket, with_lock, bind, get. by rewrite Hl. Qed.

Definition fetch_header (addr size : Z) : list byte := paging_header_bytes (request_header PAGING_OP_READ_CLUSTER addr size).
Definition commit_header (addr size : Z) : list byte := paging_header_bytes (request_header PAGING_OP_WRITE_DIFF addr size).

(** Once connected, a fetch is: send the header, receive the pages, and break the
    program if either fails. *)
Lemma fetch_run addr size s t : connected s t ->
  let n := page_count_of size * PAGE_SIZE in
  let '(sent, s1) := send_exact (fetch_header addr size) s in
  let '(o, t') := fetch_page_cluster addr size t in
  match sent with
  | Ret true =>
      let '(r, s2) := recv_exact n s1 in
      client_sent t' = fd_written s2 /\
      match r with
      | Ret (true, l) => o = Ret (true, l) /\ t' = set_backend_socket s2 t
      | Ret (false, _) => o = Undef
      | _ => o = NoFuel
      end
  | _ => o = Undef
  end.
Proof.
  destruct t as [so lo ini nc]. unfold connected, client_sent. cbn [tb_socket tb_locked tb_initialized]. intros (-> & -> & ->). cbv zeta.
  destruct (send_exact_spec (fetch_header addr size) s) as (b & k & evs & Hsend & _). rewrite Hsend.
  pose proof (page_count_range size) as Hp.
  unfold fetch_page_cluster, with_lock, on_socket, give_up_socket, close_socket, with_lock, send_paging_header.
  fold (request_header PAGING_OP_READ_CLUSTER addr size). fold (fetch_header addr size).
  cbv [bind get put ret undef]. cbn [tb_socket tb_locked tb_initialized tb_closed set_tb_locked set_tb_socket negb]. rewrite Hsend.
  cbn [tb_socket tb_locked tb_initialized tb_closed set_tb_locked set_tb_socket negb].
  destruct b; cbn [tb_socket tb_locked tb_initialized tb_closed set_tb_locked set_tb_socket negb]; [|done].
  pose proof (recv_exact_inv (page_count_of size * PAGE_SIZE) (mkFd (fd_in s) evs (fd_written s ++ take k (fetch_header addr size)))) as Hr.
  destruct (recv_exact _ _) as [[[[] l]|e| |] s2]; cbn; try done.
  all: try (destruct Hr; [unfold PAGE_SIZE; lia|done]).
Qed.

Lemma commit_run addr size src s t : connected s t ->
  let '(sent, s1) := send_exact (commit_header addr size) s in
  let '(o, t') := commit_page_diff addr size src t in
  match sent with
  | Ret true =>
      let '(sent, s2) := send_exact (mem_read src 0 (page_count_of size * PAGE_SIZE)) s1 in
      match sent with Ret true => o = Ret true /\ t' = set_backend_socket s2 t | _ => o = Undef end
  | _ => o = Undef
  end.
Proof.
  destruct t as [so lo ini nc]. unfold connected, client_sent. cbn [tb_socket tb_locked tb_initialized]. intros (-> & -> & ->).
  destruct (send_exact_spec (commit_header addr size) s) as (b & k & evs & Hsend & _). rewrite Hsend.
  unfold commit_page_diff, with_lock, on_socket, give_up_socket, close_socket, with_lock, send_paging_header.
  fold (request_header PAGING_OP_WRITE_DIFF addr size). fold (commit_header addr size).
  cbv [bind get put ret undef]. cbn [tb_socket tb_locked tb_initialized tb_closed set_tb_locked set_tb_socket negb]. rewrite Hsend.
  cbn [tb_socket tb_locked tb_initialized tb_closed set_tb_locked set_tb_socket negb].
  destruct b; cbn [tb_socket tb_locked tb_initialized tb_closed set_tb_locked set_tb_socket negb]; [|done].
  set (s1 := mkFd _ _ _). destruct (send_exact_spec (mem_read src 0 (page_count_of size * PAGE_SIZE)) s1) as (b & k2 & evs2 & -> & _).
  by destruct b.
Qed.

(** ** A session *)

Inductive LanOp :=
  | LanFetch (addr size : Z)
  | LanCommit (addr size : Z) (src : Z -> byte).

Definition lan_client (op : LanOp) : M TcpPageFaultBackend (bool * list byte) :=
  match op with
  | LanFetch addr size => fetch_page_cluster addr size
  | LanCommit addr size src => let! ok := commit_page_diff addr size src in ret (ok, [])
  end.

Fixpoint lan_run (ops : list LanOp) : M TcpPageFaultBackend (list (bool * list byte)) :=
  match ops with
  | [] => ret []
  | op :: ops => let! r := lan_client op in let! rs := lan_run ops in ret (r :: rs)
  end.

(** What the calls mean on the pool. *)
Definition lan_step (pool : Z -> byte) (op : LanOp) : list byte * (Z -> byte) :=
  match op with
  | LanFetch addr size => (mem_read pool (pool_at addr) (page_count_of size * PAGE_SIZE), pool)
  | LanCommit addr size src => ([], mem_write pool (pool_at addr) (mem_read src 0 (page_count_of size * PAGE_SIZE)))
  end.

Fixpoint lan_spec (pool : Z -> byte) (ops : list LanOp) : list (bool * list byte) * (Z -> byte) :=
  match ops with
  | [] => ([], pool)
  | op :: ops =>
      let '(l, pool) := lan_step pool op in
      let '(rs, pool) := lan_spec pool ops in
      ((true, l) :: rs, pool)
  end.

Definition lan_op_ok (op : LanOp) : Prop := match op with LanFetch addr _ | LanCommit addr _ _ => is_u64 addr end.

(** What a call sends, and how much it waits for. *)
Definition lan_bytes (op : LanOp) : list byte :=
  match op with
  | LanFetch addr size => fetch_header addr size
  | LanCommit addr size src => commit_header addr size ++ mem_read src 0 (page_count_of size * PAGE_SIZE)
  end.

Definition lan_reply_len (op : LanOp) : Z := match op with LanFetch _ size => page_count_of size * PAGE_SIZE | _ => 0 end.

Lemma payload_range size : 0 < page_count_of size * PAGE_SIZE.
Proof. pose proof (page_count_range size). unfold PAGE_SIZE. lia. Qed.

Lemma lan_step_len pool op : zlen (fst (lan_step pool op)) = lan_reply_len op.
Proof. destruct op as [a n|a n src]; cbn; [|done]. pose proof (payload_range n). apply zlen_mem_read. lia. Qed.

Lemma client_step op s t : connected s t -> sock_sendable s ->
  let '(o, t') := lan_client op t in
  client_sent t' = fd_written s ++ lan_bytes op /\
  (forall r, o = Ret r -> exists s', t' = set_backend_socket s' t /\ sock_sendable s') /\
  (forall l rest, sock_stream s = l ++ rest -> zlen l = lan_reply_len op ->
     o = Ret (true, l) /\ forall s', t' = set_backend_socket s' t -> sock_stream s' = rest).
Proof.
  intros Hc Hs. destruct op as [a n|a n src]; cbn [lan_client lan_bytes lan_reply_len].
  - pose proof (fetch_run a n s t Hc) as H. cbv zeta in H. destruct (send_exact_ok (fetch_header a n) s Hs) as (out & Hsend & Hs1).
    rewrite Hsend in H. destruct (fetch_page_cluster a n t) as [o t']. pose proof (payload_range n) as Hn.
    set (s1 := mkFd _ _ _) in H. pose proof (recv_exact_inv (page_count_of n * PAGE_SIZE) s1 ltac:(lia)) as Hw.
    pose proof (recv_exact_ok (page_count_of n * PAGE_SIZE) s1) as Hok.
    assert (Hkeep : forall o2 s2, recv_exact (page_count_of n * PAGE_SIZE) s1 = (o2, s2) -> fd_out s2 = out).
    { intros o2 s2 E. pose proof (recv_exact_out (page_count_of n * PAGE_SIZE) s1) as Ho. by rewrite E in Ho. }
    destruct (recv_exact _ s1) as [r s2] eqn:E. destruct H as [Hsent H].
    assert (Hw2 : fd_written s2 = fd_written s ++ fetch_header a n) by (destruct r; [exact Hw|apply Hw..]).
    rewrite Hsent, Hw2. split; [done|]. split.
    + intros [b l] ->. destruct r as [[[] l']|e| |]; try done. destruct H as [_ ->]. exists s2. split; [done|].
      unfold sock_sendable. by rewrite (Hkeep _ _ eq_refl).
    + intros l rest Hl Hlen. destruct Hok as (evs & Hr & Hrest & _).
      { change (sock_stream s1) with (sock_stream s). rewrite Hl, zlen_app. pose proof (zlen_nonneg rest). lia. }
      injection Hr as -> ->. change (sock_stream s1) with (sock_stream s) in *. rewrite Hl in H, Hrest.
      replace (Z.to_nat (page_count_of n * PAGE_SIZE)) with (length l) in * by (unfold zlen in Hlen; lia).
      rewrite take_app_length in H. rewrite drop_app_length in Hrest. destruct H as [-> ->]. split; [done|].
      intros s' [= <-]. exact Hrest.
  - pose proof (commit_run a n src s t Hc) as H. destruct (send_exact_ok (commit_header a n) s Hs) as (out & Hsend & Hs1).
    rewrite Hsend in H. set (s1 := mkFd _ _ (fd_written s ++ _)) in H.
    destruct (send_exact_ok (mem_read src 0 (page_count_of n * PAGE_SIZE)) s1 Hs1) as (out2 & Hsend2 & Hs2).
    rewrite Hsend2 in H. unfold bind, ret. destruct (commit_page_diff a n src t) as [o t']. destruct H as [-> ->].
    unfold client_sent. cbn. rewrite <- app_assoc. split; [done|]. split.
    + intros r _. by eexists.
    + intros l rest Hl Hlen. assert (l = []) as -> by (destruct l; [done|unfold zlen in Hlen; cbn in Hlen; lia]). split; [done|].
      by intros s' [= <-].
Qed.

Lemma server_step op sf pool rest : lan_op_ok op -> sock_sendable sf -> sock_stream sf = lan_bytes op ++ rest ->
  exists sf', paging_round (mkPagingEnv sf pool) = (Ret true, mkPagingEnv sf' (snd (lan_step pool op))) /\
    sock_stream sf' = rest /\ sock_ends sf' = sock_ends sf /\ sock_sendable sf' /\
    fd_written sf' = fd_written sf ++ fst (lan_step pool op).
Proof.
  intros Ha Hs Hst. destruct op as [a n|a n src]; cbn [lan_bytes lan_op_ok lan_step fst snd] in *.
  - destruct (round_header PAGING_OP_READ_CLUSTER a n rest sf pool) as (evs & Hrest & Hends & ->); [done|done|done|].
    cbv zeta. rewrite Z.eqb_refl. unfold zoom. cbn [pe_sock].
    destruct (send_exact_ok (mem_read pool (pool_at a) (page_count_of n * PAGE_SIZE)) (mkFd evs (fd_out sf) (fd_written sf)) Hs) as (out & -> & Hs').
    eexists. cbn [set_pe_sock pe_pool fd_in fd_written]. split; [done|]. by split_and!.
  - rewrite <- app_assoc in Hst. set (l := mem_read src 0 _) in *.
    destruct (round_header PAGING_OP_WRITE_DIFF a n (l ++ rest) sf pool) as (evs & Hrest & Hends & ->); [done|done|done|].
    cbv zeta. change (PAGING_OP_WRITE_DIFF =? PAGING_OP_READ_CLUSTER) with false. rewrite Z.eqb_refl. cbn iota.
    set (s1 := mkFd evs _ _) in *. pose proof (payload_range n) as Hn.
    assert (Hl : zlen l = page_count_of n * PAGE_SIZE) by (apply zlen_mem_read; lia).
    destruct (recv_exact_ok (page_count_of n * PAGE_SIZE) s1) as (evs2 & Hr & Hrest2 & Hends2).
    { rewrite Hrest, zlen_app. pose proof (zlen_nonneg rest). lia. }
    rewrite Hrest in Hr, Hrest2. replace (Z.to_nat (page_count_of n * PAGE_SIZE)) with (length l) in * by (unfold zlen in Hl; lia).
    rewrite take_app_length in Hr. rewrite drop_app_length in Hrest2.
    unfold bind at 1, zoom. cbn [pe_sock]. rewrite Hr. cbn.
    exists (mkFd evs2 (fd_out s1) (fd_written s1)). split_and!; [done|done|by etrans|done|by rewrite app_nil_r].
Qed.

(** The server only appends to what it wrote. *)
Lemma paging_round_grows e : exists x, fd_written (pe_sock (snd (paging_round e))) = fd_written (pe_sock e) ++ x.
Proof.
  unfold paging_round, paging_decide, bind, zoom. destruct e as [s pool]. cbn [pe_sock].
  assert (Hrecv : forall n t, 0 <= n -> fd_written (snd (recv_exact n t)) = fd_written t).
  { intros n t Hn. pose proof (recv_exact_inv n t Hn) as H. destruct (recv_exact n t) as [[r|e| |] t']; [exact H|apply H..]. }
  pose proof (Hrecv 24 s ltac:(lia)) as H1.
  destruct (recv_exact 24 s) as [[[b l]|e| |] s1]; cbn -[paging_header_of] in H1 |- *; try (exists []; by rewrite app_nil_r).
  destruct (negb b); [exists []; by rewrite app_nil_r|]. set (h := paging_header_of l). clearbody h.
  destruct (negb (_ =? _)); [exists []; by rewrite app_nil_r|]. destruct ((_ =? 0) || _) eqn:Hpc; [exists []; by rewrite app_nil_r|].
  destruct (Z.eqb_spec (ph_payload_len h) (ph_page_count h * PAGE_SIZE)) as [Hpl|]; [|exists []; by rewrite app_nil_r]. cbn [negb].
  destruct (ph_opcode h =? PAGING_OP_READ_CLUSTER).
  - destruct (POOL_SIZE <? _); [exists []; by rewrite app_nil_r|]. cbn.
    destruct (send_exact_spec (mem_read pool (ph_address h mod POOL_SIZE) (ph_payload_len h)) s1) as (b' & k & evs & -> & _).
    cbn. rewrite H1. by eexists.
  - destruct (ph_opcode h =? PAGING_OP_WRITE_DIFF); [|exists []; by rewrite app_nil_r].
    assert (Hw : fd_written (snd (recv_exact (ph_payload_len h) s1)) = fd_written s1).
    { destruct (Z.leb_spec 0 (ph_payload_len h)); [by apply Hrecv|]. unfold recv_exact.
      replace (Z.to_nat (ph_payload_len h)) with 0%nat by lia. destruct (0 + length (fd_in s1))%nat; cbn [recv_loop];
        change (zlen (@nil byte)) with 0; by rewrite (proj2 (Z.ltb_ge _ _)) by lia. }
    cbn. destruct (recv_exact (ph_payload_len h) s1) as [[[b' l']|e| |] s2]; cbn in Hw |- *; exists []; rewrite app_nil_r, ?Hw, ?H1; try congruence.
    destruct (negb b'); cbn; [congruence|]. destruct (POOL_SIZE <? _); cbn; congruence.
Qed.

Lemma paging_serve_grows fuel : forall e, exists x, fd_written (pe_sock (snd (paging_serve fuel e))) = fd_written (pe_sock e) ++ x.
Proof.
  induction fuel as [|fuel IH]; intros e; cbn [paging_serve]; [exists []; cbn; by rewrite app_nil_r|].
  unfold bind. destruct (paging_round_grows e) as [x Hx]. destruct (paging_round e) as [[[]|e'| |] e1]; cbn in Hx; try (by exists x).
  destruct (IH e1) as [y ->]. rewrite Hx. exists (x ++ y). by rewrite <- app_assoc.
Qed.

Lemma lan_run_grows ops : forall s t, connected s t -> sock_sendable s ->
  exists x, client_sent (snd (lan_run ops t)) = fd_written s ++ x.
Proof.
  induction ops as [|op ops IH]; intros s t Hc Hs; cbn [lan_run].
  - exists []. destruct Hc as (Ht & _). unfold client_sent. cbn. by rewrite Ht, app_nil_r.
  - unfold bind. pose proof (client_step op s t Hc Hs) as H. destruct (lan_client op t) as [o t']. destruct H as (Hw & Hr & _).
    destruct o as [r|e| |]; try (by exists (lan_bytes op)). destruct (Hr r eq_refl) as (s' & -> & Hs').
    destruct (IH s' (set_backend_socket s' t)) as [x Hx]; [done|done|].
    assert (Hw' : fd_written s' = fd_written s ++ lan_bytes op) by done.
    exists (lan_bytes op ++ x). rewrite app_assoc, <- Hw', <- Hx. by destruct (lan_run ops _) as [[]].
Qed.

(** The server with nothing left to read. *)
Lemma paging_round_end s pool : sock_stream s = [] -> sock_ends s = true ->
  exists s', paging_round (mkPagingEnv s pool) = (Ret false, mkPagingEnv s' pool) /\ fd_written s' = fd_written s.
Proof.
  intros Hs He. destruct (recv_exact_short 24 s) as (l & s' & Hr); [lia|by rewrite Hs|done|].
  pose proof (recv_exact_inv 24 s ltac:(lia)) as Hw. rewrite Hr in Hw.
  unfold paging_round, bind, zoom. cbn [pe_sock]. rewrite Hr. by exists s'.
Qed.

Lemma lan_session_gen ops : forall fuel pool sc sf t,
  Forall lan_op_ok ops -> connected sc t -> sock_sendable sc -> sock_sendable sf -> sock_ends sf = true -> (length ops < fuel)%nat ->
  fd_written sc ++ sock_stream sf = client_sent (snd (lan_run ops t)) ->
  fd_written sf ++ sock_stream sc = fd_written (pe_sock (snd (paging_serve fuel (mkPagingEnv sf pool)))) ->
  fst (lan_run ops t) = Ret (fst (lan_spec pool ops)) /\
  fst (paging_serve fuel (mkPagingEnv sf pool)) = Ret tt /\
  pe_pool (snd (paging_serve fuel (mkPagingEnv sf pool))) = snd (lan_spec pool ops).
Proof.
  induction ops as [|op ops IH]; intros [|fuel] pool sc sf t Hok Hc Hsc Hsf Hends Hfuel Hup Hdown; try (cbn in Hfuel; lia).
  - cbn [lan_run lan_spec fst snd] in *. split; [done|]. destruct Hc as (Ht & _). unfold client_sent in Hup. cbn in Hup. rewrite Ht in Hup. cbn in Hup.
    rewrite <- (app_nil_r (fd_written sc)) in Hup at 2. apply app_inv_head in Hup.
    destruct (paging_round_end sf pool Hup Hends) as (s' & Hr & _). cbn [paging_serve]. unfold bind. by rewrite Hr.
  - apply Forall_cons in Hok as [Hop Hok]. pose proof (client_step op sc t Hc Hsc) as Hstep.
    cbn [lan_run lan_spec] in *. unfold bind in Hup |- *. destruct (lan_client op t) as [o t'] eqn:E. destruct Hstep as (Hsent & Hret & Hgot).
    assert (Hst : exists rest, sock_stream sf = lan_bytes op ++ rest).
    { destruct o as [r|e| |]; [|exists []; apply (app_inv_head (fd_written sc)); rewrite app_nil_r, <- Hsent; exact Hup..].
      destruct (Hret r eq_refl) as (s' & -> & Hs'). destruct (lan_run_grows ops s' (set_backend_socket s' t)) as [x Hx]; [done|done|].
      assert (Hw' : fd_written s' = fd_written sc ++ lan_bytes op) by done.
      exists x. apply (app_inv_head (fd_written sc)). rewrite app_assoc, <- Hw', <- Hx, Hup. by destruct (lan_run ops _) as [[]]. }
    destruct Hst as [rest Hst]. destruct (server_step op sf pool rest Hop Hsf Hst) as (sf' & Hround & Hst' & Hends' & Hsf' & Hwf).
    cbn [paging_serve] in *. unfold bind in Hdown |- *. rewrite Hround in Hdown |- *.
    destruct (paging_serve_grows fuel (mkPagingEnv sf' (snd (lan_step pool op)))) as [y Hy]. cbn [pe_sock] in Hy.
    rewrite Hy, Hwf, <- app_assoc in Hdown. apply app_inv_head in Hdown.
    destruct (Hgot _ _ Hdown (lan_step_len pool op)) as [-> Hrest]. destruct (Hret _ eq_refl) as (sc' & -> & Hsc').
    assert (Hw' : fd_written sc' = fd_written sc ++ lan_bytes op) by done.
    destruct (lan_step pool op) as [l pool'] eqn:El. cbn [fst snd] in *.
    destruct (IH fuel pool' sc' sf' (set_backend_socket sc' t)) as (IH1 & IH2 & IH3); [done|done|done|done|by etrans|cbn in Hfuel; lia| | |].
    { rewrite Hw', Hst', <- app_assoc, <- Hst, Hup. by destruct (lan_run ops _) as [[]]. }
    { rewrite (Hrest sc' eq_refl), Hy. done. }
    destruct (lan_run ops (set_backend_socket sc' t)) as [o2 t2]. cbn in IH1. subst o2. destruct (lan_spec pool' ops) as [rs pool2]. by split_and!.
Qed.

(** Streams that agree by construction: the client sends its calls, the server
    answers them. *)
Lemma lan_streams ops : forall fuel pool sc sf t,
  Forall lan_op_ok ops -> connected sc t -> sock_sendable sc -> sock_sendable sf -> sock_ends sf = true -> (length ops < fuel)%nat ->
  sock_stream sf = concat (lan_bytes <$> ops) -> sock_stream sc = concat (snd <$> fst (lan_spec pool ops)) ->
  client_sent (snd (lan_run ops t)) = fd_written sc ++ concat (lan_bytes <$> ops) /\
  fd_written (pe_sock (snd (paging_serve fuel (mkPagingEnv sf pool)))) = fd_written sf ++ concat (snd <$> fst (lan_spec pool ops)).
Proof.
  induction ops as [|op ops IH]; intros [|fuel] pool sc sf t Hok Hc Hsc Hsf Hends Hfuel Hup Hdown; try (cbn in Hfuel; lia).
  - destruct Hc as (Ht & _). unfold client_sent. cbn. rewrite Ht, !app_nil_r. split; [done|].
    destruct (paging_round_end sf pool Hup Hends) as (s' & Hr & Hw). cbn [paging_serve]. unfold bind. by rewrite Hr.
  - apply Forall_cons in Hok as [Hop Hok]. pose proof (client_step op sc t Hc Hsc) as Hstep. cbn [lan_run lan_spec fmap list_fmap concat] in *.
    destruct (server_step op sf pool _ Hop Hsf Hup) as (sf' & Hround & Hst' & Hends' & Hsf' & Hwf). pose proof (lan_step_len pool op) as Hlen.
    destruct (lan_step pool op) as [l pool'] eqn:El. cbn [fst snd] in *. destruct (lan_spec pool' ops) as [rs pool2] eqn:Es. cbn [fst snd fmap list_fmap concat] in *.
    unfold bind. destruct (lan_client op t) as [o t']. destruct Hstep as (Hsent & Hret & Hgot).
    destruct (Hgot _ _ Hdown Hlen) as [-> Hrest]. destruct (Hret _ eq_refl) as (sc' & -> & Hsc').
    destruct (IH fuel pool' sc' sf' (set_backend_socket sc' t)) as [IH1 IH2]; [done|done|done|done|by etrans|cbn in Hfuel; lia|done|by rewrite Es, (Hrest sc' eq_refl)|].
    rewrite Es in IH2. cbn [fst] in IH2. assert (Hw' : fd_written sc' = fd_written sc ++ lan_bytes op) by done. split.
    + rewrite Hw', <- app_assoc in IH1. rewrite <- IH1. by destruct (lan_run ops _) as [[]].
    + cbn [paging_serve]. unfold bind. by rewrite Hround, IH2, Hwf, <- app_assoc.
Qed.

Lemma lan_streams_new ops fuel pool sc sf t :
  Forall lan_op_ok ops -> connected sc t -> sock_sendable sc -> sock_sendable sf -> sock_ends sf = true -> (length ops < fuel)%nat ->
  fd_written sc = [] -> fd_written sf = [] ->
  sock_stream sf = concat (lan_bytes <$> ops) -> sock_stream sc = concat (snd <$> fst (lan_spec pool ops)) ->
  sock_stream sf = client_sent (snd (lan_run ops t)) /\
  sock_stream sc = fd_written (pe_sock (snd (paging_serve fuel (mkPagingEnv sf pool)))).
Proof.
  intros Hok Hc Hsc Hsf He Hf Hwc Hws Hup Hdown. destruct (lan_streams ops fuel pool sc sf t Hok Hc Hsc Hsf He Hf Hup Hdown) as [-> ->].
  by rewrite Hup, Hdown, Hwc, Hws.
Qed.

Lemma stream_bytes l evs : l <> [] -> stream (InBytes l :: evs) = l ++ stream evs.
Proof. by destruct l. Qed.

(** A call that returns has succeeded. *)
Lemma lan_call_ok op s t r t' : connected s t -> lan_client op t = (Ret r, t') -> fst r = true /\ exists s', connected s' t'.
Proof.
  intros Hc. destruct op as [a n|a n src]; cbn [lan_client].
  - pose proof (fetch_run a n s t Hc) as H. cbv zeta in H. intros E. rewrite E in H. destruct (send_exact _ s) as [[[]|e| |] s1]; try done.
    destruct (recv_exact _ s1) as [[[[] l]|e| |] s2]; try (by destruct H). destruct H as (_ & [= ->] & ->). split; [done|]. by exists s2.
  - pose proof (commit_run a n src s t Hc) as H. unfold bind. intros E. destruct (commit_page_diff a n src t) as [o t''].
    destruct (send_exact _ s) as [[[]|e| |] s1]; try (by subst). destruct (send_exact _ s1) as [[[]|e| |] s2]; try (by subst).
    destruct H as [-> ->]. injection E as <- <-. split; [done|]. by exists s2.
Qed.

(** ** Properties *)

(** C16: A session over the wire is a sequence of reads and writes of the pool: for
    any calls of [fetch_page_cluster] and [commit_page_diff], when what one side
    sends is what the other receives, cut in any way, every call succeeds, each
    fetch returns what the pool holds at that cluster after the commits before it,
    and the server ends with the client, its pool as the commits made it. *)
Theorem lan_session fuel pool ops sc sf t :
  Forall lan_op_ok ops -> connected sc t -> sock_sendable sc -> sock_sendable sf -> sock_ends sf = true -> (length ops < fuel)%nat ->
  fd_written sc = [] -> fd_written sf = [] ->
  sock_stream sf = client_sent (snd (lan_run ops t)) ->
  sock_stream sc = fd_written (pe_sock (snd (paging_serve fuel (mkPagingEnv sf pool)))) ->
  fst (lan_run ops t) = Ret (fst (lan_spec pool ops)) /\
  fst (paging_serve fuel (mkPagingEnv sf pool)) = Ret tt /\
  pe_pool (snd (paging_serve fuel (mkPagingEnv sf pool))) = snd (lan_spec pool ops).
Proof.
  intros Hok Hc Hsc Hsf He Hf Hwc Hws Hup Hdown. apply (lan_session_gen ops fuel pool sc sf t); rewrite ?Hwc, ?Hws; done.
Qed.

(** A failure on a connected backend is not an error the caller can handle: a
    call that returns has succeeded, because the failure path calls [close_socket],
    which locks the mutex the call already holds.  In particular a server that
    closes in the middle of a reply leaves the fetching thread there. *)
Theorem lan_failure_locks op s t : connected s t ->
  (forall r t', lan_client op t = (Ret r, t') -> fst r = true /\ exists s', connected s' t') /\
  (sock_sendable s -> sock_ends s = true -> zlen (sock_stream s) < lan_reply_len op -> fst (lan_client op t) = Undef).
Proof.
  intros Hc. split; [intros r t'; by apply (lan_call_ok op s)|]. intros Hs He Hl. destruct op as [a n|a n src]; cbn [lan_client lan_reply_len] in *.
  - pose proof (fetch_run a n s t Hc) as H. cbv zeta in H. destruct (send_exact_ok (fetch_header a n) s Hs) as (out & Hsend & _).
    rewrite Hsend in H. set (s1 := mkFd _ _ _) in H. pose proof (payload_range n) as Hn.
    destruct (recv_exact_short (page_count_of n * PAGE_SIZE) s1) as (l & s2 & Hr); [lia|exact Hl|exact He|].
    rewrite Hr in H. destruct (fetch_page_cluster a n t) as [o t']. by destruct H as [_ ->].
  - pose proof (zlen_nonneg (sock_stream s)). lia.
Qed.

(** C40: The server stays in its pool for every request at a cluster address,
    whatever the opcode, the sizes and the bytes that follow, but only those: a
    read at another address close to the end of the pool goes past it. *)
Theorem paging_round_safe h rest sf pool :
  paging_header_ok h -> sock_stream sf = paging_header_bytes h ++ rest ->
  (ph_address h mod CLUSTER_SIZE = 0 -> fst (paging_round (mkPagingEnv sf pool)) <> Undef) /\
  (ph_magic h = PAGING_MAGIC -> ph_opcode h = PAGING_OP_READ_CLUSTER -> 1 <= ph_page_count h <= PAGES_PER_CLUSTER ->
   ph_payload_len h = ph_page_count h * PAGE_SIZE -> POOL_SIZE - ph_payload_len h < ph_address h mod POOL_SIZE ->
   fst (paging_round (mkPagingEnv sf pool)) = Undef).
Proof.
  intros Hok Hs. destruct (round_run h rest sf pool Hok Hs) as (evs & _ & _ & ->). set (s1 := mkFd _ _ _).
  unfold paging_decide. split.
  - intros Ha. destruct (negb (_ =? _)); [done|]. destruct (Z.eqb_spec (ph_page_count h) 0); [done|].
    destruct (Z.ltb_spec PAGES_PER_CLUSTER (ph_page_count h)) as [|Hp]; [done|]. cbn [orb].
    destruct (Z.eqb_spec (ph_payload_len h) (ph_page_count h * PAGE_SIZE)) as [Hpl|]; [|done]. cbn [negb].
    assert (Hin : (POOL_SIZE <? ph_address h mod POOL_SIZE + ph_payload_len h) = false).
    { apply Z.ltb_ge. apply (cluster_in_pool _ _ Ha). change PAGES_PER_CLUSTER with 16 in Hp. unfold PAGE_SIZE, CLUSTER_SIZE in *. lia. }
    rewrite Hin. unfold bind, get, zoom. cbn [pe_sock pe_pool]. destruct (_ =? PAGING_OP_READ_CLUSTER).
    + cbn [pe_sock pe_pool]. by destruct (send_exact_spec (mem_read pool (ph_address h mod POOL_SIZE) (ph_payload_len h)) s1) as (b & k & out & -> & _).
    + destruct (_ =? PAGING_OP_WRITE_DIFF); [|done]. destruct Hok as (_ & _ & _ & _ & Hlen).
      pose proof (recv_exact_inv (ph_payload_len h) s1 ltac:(lia)) as Hr.
      cbn [pe_sock pe_pool]. destruct (recv_exact (ph_payload_len h) s1) as [[[[] l]|e| |] s2]; cbn; try done; by destruct Hr.
  - intros -> -> Hp -> Ho. rewrite !Z.eqb_refl. cbn [negb].
    rewrite (proj2 (Z.eqb_neq _ 0)), (proj2 (Z.ltb_ge PAGES_PER_CLUSTER _)) by lia. cbn [orb].
    by rewrite (proj2 (Z.ltb_lt _ _)) by lia.
Qed.

(** *** Witnesses *)

(** A commit and a fetch of the same cluster, the replies in two pieces and the
    first write one byte long. *)
Definition demo_pool : Z -> byte := fun a => if a mod 2 =? 0 then x61 else x62.
Definition demo_src : Z -> byte := fun a => if a =? 0 then x41 else x42.
Definition demo_lan_ops : list LanOp :=
  [LanCommit 0x7ff000010008 10 demo_src; LanFetch 0x7ff000010ffc 100].
Definition demo_up : list byte := concat (lan_bytes <$> demo_lan_ops).
Definition demo_down : list byte := concat (snd <$> fst (lan_spec demo_pool demo_lan_ops)).

Definition demo_tcp_client : Fd := mkFd [InBytes (take 7 demo_down); InBytes (drop 7 demo_down)] [OutTake 1; OutTake 30] [].
Definition demo_tcp_server : Fd := mkFd [InBytes (take 30 demo_up); InBytes (drop 30 demo_up); InBytes []] [OutTake 5] [].
Definition demo_backend : TcpPageFaultBackend := snd (backend_initialize (Some demo_tcp_client) TcpPageFaultBackend_new).

Lemma lan_session_witness : fst (lan_run demo_lan_ops demo_backend) = Ret (fst (lan_spec demo_pool demo_lan_ops)).
Proof.
  assert (Hok : Forall lan_op_ok demo_lan_ops) by (repeat constructor; by vm_compute).
  assert (Hc : connected demo_tcp_client demo_backend) by by repeat split.
  assert (Hsc : sock_sendable demo_tcp_client) by (repeat constructor; by vm_compute).
  assert (Hsf : sock_sendable demo_tcp_server) by (repeat constructor; by vm_compute).
  assert (Hup : sock_stream demo_tcp_server = concat (lan_bytes <$> demo_lan_ops)).
  { unfold sock_stream. cbn [harden demo_tcp_server fd_in fmap list_fmap]. rewrite !stream_bytes by done. cbn [stream]. by rewrite app_nil_r, take_drop. }
  assert (Hdown : sock_stream demo_tcp_client = concat (snd <$> fst (lan_spec demo_pool demo_lan_ops))).
  { unfold sock_stream. cbn [harden demo_tcp_client fd_in fmap list_fmap]. rewrite !stream_bytes by done. cbn [stream]. by rewrite app_nil_r, take_drop. }
  assert (He : sock_ends demo_tcp_server = true) by done.
  assert (Hf : (length demo_lan_ops < 3)%nat) by (cbn; lia).
  destruct (lan_streams_new demo_lan_ops 3 demo_pool demo_tcp_client demo_tcp_server demo_backend Hok Hc Hsc Hsf He Hf eq_refl eq_refl Hup Hdown) as [H1 H2].
  exact (proj1 (lan_session 3 demo_pool demo_lan_ops demo_tcp_client demo_tcp_server demo_backend Hok Hc Hsc Hsf He Hf eq_refl eq_refl H1 H2)).
Defined.

(** The server closes after three bytes of the page. *)
Definition demo_cut : Fd := mkFd [InBytes [x41; x42; x42]; InBytes []] [] [].

Lemma lan_failure_locks_witness :
  fst (lan_client (LanFetch 0 4096) (set_backend_socket demo_cut TcpPageFaultBackend_new)) = Undef.
Proof.
  refine (proj2 (lan_failure_locks (LanFetch 0 4096) demo_cut (set_backend_socket demo_cut TcpPageFaultBackend_new) _) _ _ _).
  - done.
  - constructor.
  - done.
  - by vm_compute.
Defined.

Definition demo_overrun : PagingHeader := mkPagingHeader PAGING_MAGIC PAGING_OP_READ_CLUSTER (POOL_SIZE - 1) 1 4096.

Lemma paging_round_safe_witness :
  fst (paging_round (mkPagingEnv (mkFd [InBytes (paging_header_bytes demo_overrun)] [] []) demo_pool)) = Undef.
Proof.
  refine (proj2 (paging_round_safe demo_overrun [] _ demo_pool _ _) _ _ _ _ _).
  all: try (by vm_compute).
Defined.
