(* ===== verification/LanHeap.v ===== *)
(** * The heap of the Windows paging prototype

    [windows-lan-sharing/client/RemoteHeap.cpp]: a reserved range whose clusters
    are committed and fetched by an exception handler on the first access.  A
    cluster is keyed by its address; what a thread sees of the heap is its
    [current_heap_], which is thread-local. *)

From S2P Require Import Prelude LocalIpc LanPaging.

(** ** Model *)

(** [base_ = 0] is the null pointer. *)
Record LanHeap := mkLanHeap { lh_base : Z; lh_reserve : Z; lh_backend : bool }.

Record LanProcess := mkLanProcess {
  lan_heap : LanHeap;
  lan_backend : TcpPageFaultBackend;
  lan_mem : gmap Z (list byte);   (* the committed clusters *)
  lan_handlers : nat              (* vectored handlers installed *)
}.

(** The constructor, with the address [VirtualAlloc] gives; the flag is whether it
    is now this thread's [current_heap_]. *)
Definition lan_heap_new (reserve_size base : Z) (p : LanProcess) : LanProcess * bool :=
  if base =? 0 then (mkLanProcess (mkLanHeap 0 reserve_size false) (lan_backend p) (lan_mem p) (lan_handlers p), false)
  else (mkLanProcess (mkLanHeap base reserve_size false) (lan_backend p) (lan_mem p) (S (lan_handlers p)), true).

Definition lan_heap_initialize (h : LanHeap) : LanHeap * bool :=
  if lh_base h =? 0 then (h, false) else (mkLanHeap (lh_base h) (lh_reserve h) true, true).

(** The destructor.  [RemoveVectoredExceptionHandler] is given the function, not
    the handle that was returned for it, and removes nothing. *)
Definition lan_heap_destroy (p : LanProcess) : LanProcess :=
  mkLanProcess (mkLanHeap 0 (lh_reserve (lan_heap p)) (lh_backend (lan_heap p))) (lan_backend p)
    (if lh_base (lan_heap p) =? 0 then lan_mem p else ∅) (lan_handlers p).

Definition lan_contains (h : LanHeap) (addr : Z) : bool := (lh_base h <=? addr) && (addr <? lh_base h + lh_reserve h).

Inductive lan_disposition := LAN_CONTINUE_SEARCH | LAN_CONTINUE_EXECUTION.

Definition set_lan_backend (t : TcpPageFaultBackend) (p : LanProcess) : LanProcess :=
  mkLanProcess (lan_heap p) t (lan_mem p) (lan_handlers p).
Definition set_lan_mem (m : gmap Z (list byte)) (p : LanProcess) : LanProcess :=
  mkLanProcess (lan_heap p) (lan_backend p) m (lan_handlers p).

(** Bytes written over the start of a block. *)
Definition overlay (l old : list byte) : list byte := take (length old) l ++ drop (length l) old.

(** The handler in a thread for which [current] says whether the heap is its
    [current_heap_]; [alloc_ok] is whether [VirtualAlloc] commits the cluster. *)
Definition LanVectoredHandler (current alloc_ok is_av : bool) (params fault_addr : Z) : M LanProcess lan_disposition :=
  if negb is_av then ret LAN_CONTINUE_SEARCH
  else if params <? 2 then ret LAN_CONTINUE_SEARCH
  else
    let! p := get in
    if negb current || negb (lan_contains (lan_heap p) fault_addr) || negb (lh_backend (lan_heap p)) then ret LAN_CONTINUE_SEARCH
    else
      let cluster := align_down_cluster fault_addr in
      if negb alloc_ok then ret LAN_CONTINUE_SEARCH
      else
        let committed := default (replicate (Z.to_nat CLUSTER_SIZE) x00) (lan_mem p !! cluster) in
        let! r := zoom lan_backend set_lan_backend (fetch_page_cluster cluster CLUSTER_SIZE) in
        let! p := get in
        if negb (fst r) then
          do! put (set_lan_mem (delete cluster (lan_mem p)) p) in
          ret LAN_CONTINUE_SEARCH
        else
          do! put (set_lan_mem (<[cluster := overlay (snd r) committed]> (lan_mem p)) p) in
          ret LAN_CONTINUE_EXECUTION.

(** A load of a byte by a thread: an exception that no handler takes ends the
    program. *)
Definition lan_load (current alloc_ok : bool) (addr : Z) : M LanProcess byte :=
  let cluster := align_down_cluster addr in
  let read p := match lan_mem p !! cluster with Some l => znth l (addr - cluster) | None => None end in
  let! p := get in
  match read p with
  | Some b => ret b
  | None =>
      let! d := LanVectoredHandler current alloc_ok true 2 addr in
      match d with
      | LAN_CONTINUE_SEARCH => undef
      | LAN_CONTINUE_EXECUTION => let! p := get in match read p with Some b => ret b | None => nofuel end
      end
  end.

Fixpoint lan_loads (addrs : list Z) : M LanProcess (list byte) :=
  match addrs with
  | [] => ret []
  | a :: addrs => let! b := lan_load true true a in let! bs := lan_loads addrs in ret (b :: bs)
  end.

(** ** Faults *)

(** The clusters the loads fault in, in order. *)
Fixpoint lan_faults (seen : gset Z) (addrs : list Z) : list Z :=
  match addrs with
  | [] => []
  | a :: addrs =>
      let c := align_down_cluster a in
      if bool_decide (c ∈ seen) then lan_faults seen addrs else c :: lan_faults ({[c]} ∪ seen) addrs
  end.

Definition fault_op (c : Z) : LanOp := LanFetch c CLUSTER_SIZE.

(** The committed clusters hold what the pool holds. *)
Definition lan_coherent (pool : Z -> byte) (p : LanProcess) : Prop :=
  forall c l, lan_mem p !! c = Some l -> l = mem_read pool (pool_at c) CLUSTER_SIZE.

Definition lan_ready (p : LanProcess) : Prop := lh_backend (lan_heap p) = true.

Lemma fault_payload : page_count_of CLUSTER_SIZE * PAGE_SIZE = CLUSTER_SIZE.
Proof. by vm_compute. Qed.

(** Alignment is idempotent, and an address is its cluster plus its offset. *)
Lemma align_again a : is_u64 a -> align_down_cluster (align_down_cluster a) = align_down_cluster a.
Proof.
  intros Ha. destruct (align_down_cluster_spec a Ha) as (_ & Hm & Hu).
  destruct (align_down_cluster_spec (align_down_cluster a) Hu) as (-> & _ & _). lia.
Qed.

Lemma offset_in_cluster a : is_u64 a -> 0 <= a - align_down_cluster a < CLUSTER_SIZE.
Proof. intros Ha. destruct (align_down_cluster_spec a Ha) as (-> & _). pose proof (Z.mod_pos_bound a CLUSTER_SIZE ltac:(done)). lia. Qed.

Lemma pool_at_offset a : is_u64 a -> pool_at a + (a - align_down_cluster a) = a mod POOL_SIZE.
Proof.
  intros Ha. unfold pool_at. pose proof (offset_in_cluster a Ha) as Ho. destruct (align_down_cluster_spec a Ha) as (_ & Hm & _).
  set (c := align_down_cluster a) in *. destruct (cluster_in_pool c CLUSTER_SIZE Hm) as [H0 Hp]; [done|].
  replace a with (c + (a - c)) at 2 by lia. rewrite Zplus_mod, (Z.mod_small (a - c)) by (unfold CLUSTER_SIZE, POOL_SIZE in *; lia).
  symmetry. apply Z.mod_small. lia.
Qed.

Lemma znth_mem_read m off n i : 0 <= i < n -> znth (mem_read m off n) i = Some (m (off + i)).
Proof.
  intros Hi. rewrite znth_lookup by lia. unfold mem_read. rewrite lookup_pool_bytes by lia. do 2 f_equal. lia.
Qed.

(** A byte of a coherent cluster. *)
Lemma coherent_byte pool a : is_u64 a ->
  znth (mem_read pool (pool_at (align_down_cluster a)) CLUSTER_SIZE) (a - align_down_cluster a) = Some (pool (a mod POOL_SIZE)).
Proof.
  intros Ha. rewrite znth_mem_read by by apply offset_in_cluster. unfold pool_at. rewrite align_again by done.
  fold (pool_at a). by rewrite pool_at_offset.
Qed.

Lemma overlay_all l old : length l = length old -> overlay l old = l.
Proof. intros Hl. unfold overlay. by rewrite <- Hl, firstn_all, Hl, drop_ge, app_nil_r. Qed.

Lemma length_overlay l old : length (overlay l old) = length old.
Proof. unfold overlay. rewrite length_app, length_take, length_drop. lia. Qed.

(** Every committed cluster has its size. *)
Definition lan_sized (p : LanProcess) : Prop := map_Forall (fun _ l => length l = Z.to_nat CLUSTER_SIZE) (lan_mem p).

Lemma sized_byte p a l : lan_sized p -> is_u64 a -> lan_mem p !! align_down_cluster a = Some l ->
  exists b, znth l (a - align_down_cluster a) = Some b.
Proof.
  intros Hp Ha Hl. specialize (Hp _ _ Hl). cbn in Hp. pose proof (offset_in_cluster a Ha). rewrite znth_lookup by lia.
  apply lookup_lt_is_Some_2. lia.
Qed.

Lemma load_hit p a l : lan_sized p -> is_u64 a -> lan_mem p !! align_down_cluster a = Some l ->
  exists b, lan_load true true a p = (Ret b, p) /\ znth l (a - align_down_cluster a) = Some b.
Proof.
  intros Hp Ha Hl. destruct (sized_byte p a l Hp Ha Hl) as [b Hb]. exists b. split; [|done].
  unfold lan_load. rewrite bind_get. cbv zeta. by rewrite Hl, Hb.
Qed.

(** A load that faults: the fetch of its cluster, and the byte of what came. *)
Lemma load_miss p a s : lan_sized p -> is_u64 a -> lan_contains (lan_heap p) a = true -> lan_ready p ->
  connected s (lan_backend p) -> lan_mem p !! align_down_cluster a = None ->
  let c := align_down_cluster a in
  let '(o, t') := lan_client (fault_op c) (lan_backend p) in
  match o with
  | Ret r => fst r = true /\ (exists s', connected s' t') /\
      let l := overlay (snd r) (replicate (Z.to_nat CLUSTER_SIZE) x00) in
      exists b, lan_load true true a p = (Ret b, set_lan_mem (<[c := l]> (lan_mem p)) (set_lan_backend t' p)) /\
        znth l (a - c) = Some b
  | _ => lan_load true true a p = (match o with Ret _ => NoFuel | Throw e => Throw e | Undef => Undef | NoFuel => NoFuel end, set_lan_backend t' p)
  end.
Proof.
  intros Hp Ha Hin Hr Hc Hm. cbv zeta. pose proof (fun r t => lan_call_ok (fault_op (align_down_cluster a)) s (lan_backend p) r t Hc) as Hok.
  unfold lan_load. rewrite bind_get. cbv zeta. rewrite Hm. unfold LanVectoredHandler. change (2 <? 2) with false. cbn [negb orb].
  rewrite bind_bind, bind_get, Hin, Hr. cbn [negb orb]. cbv zeta. rewrite Hm. cbn [default option_map from_option id].
  cbn [lan_client fault_op] in *. rewrite bind_bind.
  destruct (fetch_page_cluster (align_down_cluster a) CLUSTER_SIZE (lan_backend p)) as [o t'] eqn:E.
  assert (Hz : zoom lan_backend set_lan_backend (fetch_page_cluster (align_down_cluster a) CLUSTER_SIZE) p = (o, set_lan_backend t' p))
    by (unfold zoom; by rewrite E).
  unfold bind. rewrite Hz. destruct o as [r|e| |]; try done. destruct (Hok r t' eq_refl) as [H1 H2]. split; [done|]. split; [done|].
  set (l := overlay (snd r) _).
  destruct (sized_byte (set_lan_mem (<[align_down_cluster a := l]> (lan_mem p)) p) a l) as [b Hb]; [|done|apply lookup_insert_eq|].
  { apply map_Forall_insert_2; [|done]. unfold l. by rewrite length_overlay, length_replicate. }
  exists b. split; [|done]. unfold get, put, ret. cbn [lan_mem set_lan_backend set_lan_mem]. rewrite H1. cbn [negb lan_mem set_lan_mem].
  fold l. by rewrite lookup_insert_eq, Hb.
Qed.

Definition fault_ops (p : LanProcess) (addrs : list Z) : list LanOp := fault_op <$> lan_faults (dom (lan_mem p)) addrs.

(** What the loads do to the backend is the run of their faults. *)
Lemma loads_run pool addrs : forall p s,
  Forall (fun a => is_u64 a /\ lan_contains (lan_heap p) a = true) addrs -> lan_sized p -> lan_ready p -> connected s (lan_backend p) ->
  lan_backend (snd (lan_loads addrs p)) = snd (lan_run (fault_ops p addrs) (lan_backend p)) /\
  (lan_coherent pool p -> fst (lan_run (fault_ops p addrs) (lan_backend p)) = Ret (fst (lan_spec pool (fault_ops p addrs))) ->
   fst (lan_loads addrs p) = Ret ((fun a => pool (a mod POOL_SIZE)) <$> addrs)).
Proof.
  induction addrs as [|a addrs IH]; intros p s Hok Hp Hr Hc; [done|]. apply Forall_cons in Hok as [[Ha Hin] Hok].
  unfold fault_ops. cbn [lan_faults lan_loads]. case_bool_decide as Hd.
  - apply elem_of_dom in Hd as [l Hl]. destruct (load_hit p a l Hp Ha Hl) as (b & Hload & Hb).
    destruct (IH p s Hok Hp Hr Hc) as [IH1 IH2]. unfold bind. rewrite Hload. unfold fault_ops in IH1, IH2. split.
    + rewrite <- IH1. by destruct (lan_loads addrs p) as [[]].
    + intros Hco Hrun. specialize (IH2 Hco Hrun). destruct (lan_loads addrs p) as [o p']. cbn in IH2. subst o. cbn. do 2 f_equal.
      specialize (Hco _ _ Hl). subst l. rewrite coherent_byte in Hb by done. congruence.
  - apply not_elem_of_dom in Hd. pose proof (load_miss p a s Hp Ha Hin Hr Hc Hd) as Hmiss. cbv zeta in Hmiss.
    cbn [fmap list_fmap lan_run lan_spec]. unfold bind. set (c := align_down_cluster a) in *.
    destruct (lan_client (fault_op c) (lan_backend p)) as [[r|e| |] t'] eqn:Ec; [|rewrite Hmiss; cbn; by split..].
    destruct Hmiss as (H1 & (s' & Hc') & b & Hload & Hb). rewrite Hload.
    set (l := overlay _ _) in *. set (p1 := set_lan_mem _ _) in *.
    assert (Hp1 : lan_sized p1) by (apply map_Forall_insert_2; [unfold l; by rewrite length_overlay, length_replicate|done]).
    destruct (IH p1 s' Hok Hp1 Hr Hc') as [IH1 IH2]. unfold fault_ops in IH1, IH2. cbn [p1 lan_mem set_lan_mem set_lan_backend lan_backend] in IH1, IH2.
    rewrite dom_insert_L in IH1, IH2. split.
    + destruct (lan_loads addrs p1) as [[]], (lan_run _ t') as [[]]; exact IH1.
    + intros Hco. destruct (lan_run _ t') as [[rs|e| |] t2]; try done. cbn [fst lan_step fault_op].
      destruct (lan_spec pool (fault_op <$> lan_faults ({[c]} ∪ dom (lan_mem p)) addrs)) as [rs' pool'] eqn:Es. cbn [fst]. intros [= Hr1 Hrs].
      assert (Hl : l = mem_read pool (pool_at c) CLUSTER_SIZE).
      { unfold l. rewrite Hr1. cbn [snd]. rewrite fault_payload. apply overlay_all. rewrite length_replicate.
        unfold mem_read. by rewrite length_pool_bytes. }
      assert (Hco1 : lan_coherent pool p1).
      { intros c' l' Hl'. cbn in Hl'. destruct (decide (c' = c)) as [->|Hne].
        - rewrite lookup_insert_eq in Hl'. congruence.
        - rewrite lookup_insert_ne in Hl' by done. by apply Hco. }
      assert (Hpool : pool' = snd (lan_spec pool (fault_op <$> lan_faults ({[c]} ∪ dom (lan_mem p)) addrs))) by by rewrite Es.
      specialize (IH2 Hco1 ltac:(cbn; by rewrite Hrs)). destruct (lan_loads addrs p1) as [o p2]. cbn in IH2. subst o. cbn. do 2 f_equal.
      rewrite Hl in Hb. unfold c in Hb. rewrite coherent_byte in Hb by done. congruence.
Qed.

Lemma lan_faults_aligned seen addrs : Forall is_u64 addrs -> Forall is_u64 (lan_faults seen addrs).
Proof.
  intros Ha. revert seen. induction Ha as [|a addrs Ha _ IH]; intros seen; cbn; [constructor|].
  case_bool_decide; [done|]. constructor; [|done]. by apply align_down_cluster_spec.
Qed.

Lemma lan_faults_length addrs : forall seen, (length (lan_faults seen addrs) <= length addrs)%nat.
Proof. induction addrs as [|a addrs IH]; intros seen; cbn; [lia|]. case_bool_decide; cbn; [etrans; [apply IH|lia]|apply le_n_S, IH]. Qed.

Lemma lan_faults_fresh addrs : forall seen, NoDup (lan_faults seen addrs) /\ forall c, c ∈ lan_faults seen addrs -> c ∉ seen.
Proof.
  induction addrs as [|a addrs IH]; intros seen; cbn; [split; [constructor|by intros c ?%elem_of_nil]|].
  case_bool_decide as Hd; [done|]. destruct (IH ({[align_down_cluster a]} ∪ seen)) as [Hn Hf]. split.
  - constructor; [|done]. intros Hin. by apply (Hf _ Hin), elem_of_union_l, elem_of_singleton.
  - intros c [->|Hc]%elem_of_cons; [done|]. intros Hs. by apply (Hf _ Hc), elem_of_union_r.
Qed.

(** ** Properties *)

(** C29: Touching the heap reads the server's pool: whatever bytes of the heap a
    program loads and however the streams are cut, each load gives the pool's byte
    at that address modulo the pool's size, the requests on the wire are one
    per cluster touched, in the order they were first touched, and the server stays well. *)
Theorem lan_heap_reads fuel pool addrs p sc sf :
  Forall (fun a => is_u64 a /\ lan_contains (lan_heap p) a = true) addrs -> lan_ready p -> lan_mem p = ∅ ->
  connected sc (lan_backend p) -> sock_sendable sc -> sock_sendable sf -> sock_ends sf = true -> (length addrs < fuel)%nat ->
  fd_written sc = [] -> fd_written sf = [] ->
  sock_stream sf = client_sent (lan_backend (snd (lan_loads addrs p))) ->
  sock_stream sc = fd_written (pe_sock (snd (paging_serve fuel (mkPagingEnv sf pool)))) ->
  fst (lan_loads addrs p) = Ret ((fun a => pool (a mod POOL_SIZE)) <$> addrs) /\
  lan_backend (snd (lan_loads addrs p)) = snd (lan_run (fault_op <$> lan_faults ∅ addrs) (lan_backend p)) /\
  NoDup (lan_faults ∅ addrs) /\ fst (paging_serve fuel (mkPagingEnv sf pool)) = Ret tt.
Proof.
  intros Ha Hr Hm Hc Hsc Hsf He Hf Hwc Hws Hup Hdown.
  assert (Hops : fault_ops p addrs = fault_op <$> lan_faults ∅ addrs) by (unfold fault_ops; by rewrite Hm, dom_empty_L).
  assert (Hp : lan_sized p) by (unfold lan_sized; rewrite Hm; apply map_Forall_empty).
  destruct (loads_run pool addrs p sc Ha Hp Hr Hc) as [Hback Hread]. rewrite Hops in Hback, Hread. rewrite Hback in Hup.
  assert (Hu : Forall is_u64 (lan_faults ∅ addrs)) by (apply lan_faults_aligned; eapply Forall_impl; [exact Ha|by intros a []]).
  destruct (lan_session_gen (fault_op <$> lan_faults ∅ addrs) fuel pool sc sf (lan_backend p)) as (H1 & H2 & _); try done.
  { by apply Forall_fmap. }
  { rewrite length_fmap. pose proof (lan_faults_length addrs ∅). lia. }
  { by rewrite Hwc. }
  { by rewrite Hws. }
  split_and!; [|done|apply lan_faults_fresh|done]. apply Hread; [|done]. intros c l. by rewrite Hm, lookup_empty.
Qed.

(** The heap is one thread's: in a thread other than the one that built it,
    outside its range, or before [initialize], the handler passes every exception
    on and changes nothing, so the first touch of a cluster ends the program.  What
    it does commit is exactly the cluster of the faulting address, and a failed
    commit asks the server nothing. *)
Theorem lan_fault_scope current alloc_ok is_av params a p :
  (is_av && (2 <=? params) && current && lan_contains (lan_heap p) a && lh_backend (lan_heap p) && alloc_ok = false ->
   LanVectoredHandler current alloc_ok is_av params a p = (Ret LAN_CONTINUE_SEARCH, p)) /\
  (current = false -> lan_mem p !! align_down_cluster a = None -> fst (lan_load current alloc_ok a p) = Undef) /\
  (forall c, c <> align_down_cluster a ->
   lan_mem (snd (LanVectoredHandler current alloc_ok is_av params a p)) !! c = lan_mem p !! c).
Proof.
  assert (Hnone : is_av && (2 <=? params) && current && lan_contains (lan_heap p) a && lh_backend (lan_heap p) && alloc_ok = false ->
   LanVectoredHandler current alloc_ok is_av params a p = (Ret LAN_CONTINUE_SEARCH, p)).
  { unfold LanVectoredHandler. destruct is_av; [|done]. destruct (Z.leb_spec 2 params), (Z.ltb_spec params 2); try lia; [|done].
    cbn [negb andb]. rewrite bind_get. destruct current; [|done]. destruct (lan_contains _ a); [|done].
    destruct (lh_backend _); [|done]. by destruct alloc_ok. }
  split; [exact Hnone|]. split.
  - intros -> Hm. unfold lan_load. rewrite bind_get. cbv zeta. rewrite Hm. unfold LanVectoredHandler. cbn [negb]. change (2 <? 2) with false. done.
  - intros c Hc. destruct (is_av && (2 <=? params) && current && lan_contains (lan_heap p) a && lh_backend (lan_heap p) && alloc_ok) eqn:E;
      [|by rewrite Hnone].
    repeat (apply andb_prop in E as [E ?]). subst. unfold LanVectoredHandler. rewrite (proj2 (Z.ltb_ge params 2)) by (by apply Z.leb_le).
    cbn [negb]. rewrite bind_get. destruct (lan_contains _ a); [|done]. destruct (lh_backend _); [|done]. cbn [negb orb]. cbv zeta.
    unfold bind, zoom. destruct (fetch_page_cluster _ _ _) as [[[[] l]|e| |] t']; cbn; try done.
    + by rewrite lookup_insert_ne.
    + by rewrite lookup_delete_ne.
Qed.

(** *** Witnesses *)

Definition demo_base : Z := 0x7ff000000000.
Definition demo_loads : list Z := [demo_base + 5; demo_base + 65535; demo_base + 4].
Definition demo_page : list byte := mem_read demo_pool (pool_at demo_base) CLUSTER_SIZE.
Definition demo_heap_client : Fd := mkFd [InBytes (take 1000 demo_page); InBytes (drop 1000 demo_page)] [OutTake 3] [].
Definition demo_heap_server : Fd := mkFd [InBytes (fetch_header demo_base CLUSTER_SIZE); InBytes []] [OutTake 4096] [].
Definition demo_process : LanProcess :=
  let p := fst (lan_heap_new (2 ^ 29) demo_base (mkLanProcess (mkLanHeap 0 0 false) (set_backend_socket demo_heap_client TcpPageFaultBackend_new) ∅ 0)) in
  mkLanProcess (fst (lan_heap_initialize (lan_heap p))) (lan_backend p) (lan_mem p) (lan_handlers p).

Lemma lan_heap_reads_witness : fst (lan_loads demo_loads demo_process) = Ret [x62; x62; x61].
Proof.
  assert (Ha : Forall (fun a => is_u64 a /\ lan_contains (lan_heap demo_process) a = true) demo_loads) by (repeat constructor; by vm_compute).
  assert (Hc : connected demo_heap_client (lan_backend demo_process)) by by repeat split.
  assert (Hsc : sock_sendable demo_heap_client) by (repeat constructor; by vm_compute).
  assert (Hsf : sock_sendable demo_heap_server) by (repeat constructor; by vm_compute).
  assert (Hops : fault_ops demo_process demo_loads = [fault_op demo_base]) by by vm_compute.
  assert (Hok : Forall lan_op_ok [fault_op demo_base]) by (repeat constructor; by vm_compute).
  assert (Hup : sock_stream demo_heap_server = concat (lan_bytes <$> [fault_op demo_base])) by by vm_compute.
  assert (Hdown : sock_stream demo_heap_client = concat (snd <$> fst (lan_spec demo_pool [fault_op demo_base]))).
  { unfold sock_stream. cbn [harden demo_heap_client fd_in fmap list_fmap]. rewrite !stream_bytes by done. cbn [stream].
    rewrite app_nil_r, take_drop. cbn [lan_spec lan_step fault_op fst snd fmap list_fmap concat]. by rewrite fault_payload, app_nil_r. }
  assert (He : sock_ends demo_heap_server = true) by by vm_compute.
  destruct (loads_run demo_pool demo_loads demo_process demo_heap_client Ha) as [Hback _]; [by apply map_Forall_empty|done|done|].
  rewrite Hops in Hback.
  destruct (lan_streams_new [fault_op demo_base] 4 demo_pool demo_heap_client demo_heap_server (lan_backend demo_process)
    Hok Hc Hsc Hsf He ltac:(cbn; lia) eq_refl eq_refl Hup Hdown) as [H1 H2].
  transitivity (Ret ((fun a => demo_pool (a mod POOL_SIZE)) <$> demo_loads) : outcome (list byte)); [|by vm_compute].
  refine (proj1 (lan_heap_reads 4 demo_pool demo_loads demo_process demo_heap_client demo_heap_server Ha eq_refl eq_refl Hc Hsc Hsf He _ eq_refl eq_refl _ H2)).
  - cbn. lia.
  - rewrite Hback. exact H1.
Defined.

Lemma lan_fault_scope_witness : fst (lan_load false true (demo_base + 5) demo_process) = Undef.
Proof. exact (proj1 (proj2 (lan_fault_scope false true true 2 (demo_base + 5) demo_process)) eq_refl eq_refl). Defined.
