(* ===== verification/LanGpu.v ===== *)
(** * The CUDA proxy of the Windows prototype

    [windows-lan-sharing]: a DLL with the names of the CUDA runtime
    (client/cuda_proxy.cpp, client/DevicePointerTracker.hpp) that sends the calls to
    a server with a GPU (server/gpu_server.cu) over common/GpuWireProtocol.hpp.  The
    CUDA runtime on the server is a parameter; sockets are those of [LanPaging]. *)

From S2P Require Import Prelude LocalIpc LanPaging.

(** ** The wire protocol *)

Record GpuHeader := mkGpuHeader {
  gh_magic : Z; gh_opcode : Z; gh_flags : Z; gh_reserved : Z; gh_sequence_id : Z; gh_payload_len : Z
}.

Definition GPU_MAGIC : Z := 0x47505531.
Definition GPU_CMD_MALLOC : Z := 1.
Definition GPU_CMD_MEMCPY_H2D : Z := 2.
Definition GPU_CMD_MEMCPY_D2H : Z := 3.
Definition GPU_CMD_SYNCHRONIZE : Z := 4.
Definition GPU_CMD_FREE : Z := 5.
Definition GPU_RESP_SUCCESS : Z := 0x80.
Definition GPU_RESP_ERROR : Z := 0x81.
Definition GPU_RESP_MALLOC_RESULT : Z := 0x82.
Definition GPU_RESP_MEMCPY_D2H : Z := 0x83.
Definition GPU_FLAG_NONE : Z := 0.
Definition GPU_FLAG_ASYNC : Z := 1.

Definition gpu_header_bytes (h : GpuHeader) : list byte :=
  le_bytes 4 (gh_magic h) ++ le_bytes 1 (gh_opcode h) ++ le_bytes 1 (gh_flags h) ++ le_bytes 2 (gh_reserved h) ++
  le_bytes 4 (gh_sequence_id h) ++ le_bytes 4 (gh_payload_len h).

Definition gpu_header_of (l : list byte) : GpuHeader :=
  mkGpuHeader (le_value (slice 0 4 l)) (le_value (slice 4 1 l)) (le_value (slice 5 1 l)) (le_value (slice 6 2 l))
    (le_value (slice 8 4 l)) (le_value (slice 12 4 l)).

(** [GpuMallocReq], [GpuMallocResp], [GpuMemcpyReq], [GpuSyncReq], [GpuFreeReq]. *)
Definition malloc_req_bytes (size alignment : Z) : list byte := le_bytes 8 size ++ le_bytes 4 alignment ++ le_bytes 4 0.
Definition malloc_resp_bytes (device_ptr error_code : Z) : list byte := le_bytes 8 device_ptr ++ le_bytes 4 error_code ++ le_bytes 4 0.
Definition memcpy_req_bytes (dst src size kind : Z) : list byte :=
  le_bytes 8 dst ++ le_bytes 8 src ++ le_bytes 8 size ++ le_bytes 4 kind ++ le_bytes 4 0.
Definition sync_req_bytes (stream : Z) : list byte := le_bytes 8 stream.
Definition free_req_bytes (device_ptr : Z) : list byte := le_bytes 8 device_ptr.

(** A field of a request in the server's buffer. *)
Definition field64 (off : Z) (l : list byte) : Z := le_value (slice off 8 l).

Definition send_gpu_header (opcode flags sequence_id payload_len : Z) : M Fd bool :=
  send_exact (gpu_header_bytes (mkGpuHeader GPU_MAGIC opcode flags 0 sequence_id payload_len)).

Definition recv_gpu_header : M Fd (option GpuHeader) :=
  let! r := recv_exact 16 in
  if negb (fst r) then ret None
  else if negb (gh_magic (gpu_header_of (snd r)) =? GPU_MAGIC) then ret None
  else ret (Some (gpu_header_of (snd r))).

(** [payload_len > 0 && !recv_exact(...)], and the same for sending. *)
Definition recv_payload (len : Z) : M Fd (bool * list byte) := if 0 <? len then recv_exact len else ret (true, []).
Definition send_payload (payload : list byte) : M Fd bool := if 0 <? zlen payload then send_exact payload else ret true.

(** ** The device pointers of the client *)

Record DevicePointerTracker := mkTracker { dt_map : gmap Z (Z * Z); dt_next : Z }.

Definition DevicePointerTracker_new : DevicePointerTracker := mkTracker ∅ 0x10000000000.

Definition dt_allocate (remote_ptr size : Z) (t : DevicePointerTracker) : DevicePointerTracker * Z :=
  let synthetic := Z.land (u64 (dt_next t + 4095)) (u64 (Z.lnot 4095)) in
  (mkTracker (<[synthetic := (remote_ptr, size)]> (dt_map t)) (u64 (dt_next t + 4096)), synthetic).

Definition dt_free (synthetic : Z) (t : DevicePointerTracker) : DevicePointerTracker * bool :=
  match dt_map t !! synthetic with
  | None => (t, false)
  | Some _ => (mkTracker (delete synthetic (dt_map t)) (dt_next t), true)
  end.

Definition dt_get_remote (synthetic : Z) (t : DevicePointerTracker) : option Z := fst <$> dt_map t !! synthetic.

(** ** The server *)

(** The CUDA runtime of the server's process: its own state, and errors as
    numbers, zero for success.  Addresses are the server's. *)
Class CudaRuntime (D : Type) := {
  cuda_malloc : D -> Z -> Z * Z * D;
  cuda_memcpy : D -> bool -> Z -> Z -> Z -> Z * D;   (* host to device?, dst, src, size *)
  cuda_synchronize : D -> Z * D;
  cuda_free : D -> Z -> Z * D
}.

Section Server.
Context {D : Type} `{CudaRuntime D}.

Record LanGpuEnv := mkLanGpuEnv { ge_sock : Fd; ge_device : D }.

Definition set_ge_sock (s : Fd) (e : LanGpuEnv) : LanGpuEnv := mkLanGpuEnv s (ge_device e).

(** The switch of [handle_client]: the opcode of the response, its payload, the
    device.  [garbage] is what is in [resp_hdr.opcode] where no case sets it. *)
Definition lan_gpu_answer (garbage : Z) (d : D) (opcode : Z) (buffer : list byte) : Z * list byte * D :=
  if opcode =? GPU_CMD_MALLOC then
    if zlen buffer <? 16 then (garbage, [], d)
    else
      let '(err, ptr, d) := cuda_malloc d (field64 0 buffer) in
      if err =? 0 then (GPU_RESP_MALLOC_RESULT, malloc_resp_bytes ptr 0, d) else (GPU_RESP_ERROR, [], d)
  else if opcode =? GPU_CMD_MEMCPY_H2D then
    if zlen buffer <? 32 then (garbage, [], d)
    else
      let '(err, d) := cuda_memcpy d true (field64 0 buffer) (field64 8 buffer) (field64 16 buffer) in
      (if err =? 0 then GPU_RESP_SUCCESS else GPU_RESP_ERROR, [], d)
  else if opcode =? GPU_CMD_MEMCPY_D2H then
    if zlen buffer <? 32 then (garbage, [], d)
    else
      let '(err, d) := cuda_memcpy d false (field64 0 buffer) (field64 8 buffer) (field64 16 buffer) in
      (if err =? 0 then GPU_RESP_MEMCPY_D2H else GPU_RESP_ERROR, [], d)
  else if opcode =? GPU_CMD_SYNCHRONIZE then
    let '(err, d) := cuda_synchronize d in (if err =? 0 then GPU_RESP_SUCCESS else GPU_RESP_ERROR, [], d)
  else if opcode =? GPU_CMD_FREE then
    if zlen buffer <? 8 then (garbage, [], d)
    else
      let '(err, d) := cuda_free d (field64 0 buffer) in
      (if err =? 0 then GPU_RESP_SUCCESS else GPU_RESP_ERROR, [], d)
  else (GPU_RESP_ERROR, [], d).

(** One round of the loop of [handle_client]; the result is whether it goes on. *)
Definition gpu_round (garbage : Z) : M LanGpuEnv bool :=
  let on_sock {A} (c : M Fd A) := zoom ge_sock set_ge_sock c in
  let! r := on_sock (recv_exact 16) in
  if negb (fst r) then ret false
  else
    let hdr := gpu_header_of (snd r) in
    if negb (gh_magic hdr =? GPU_MAGIC) then ret false
    else if 8192 <? gh_payload_len hdr then ret false
    else
      let! r := on_sock (recv_payload (gh_payload_len hdr)) in
      if negb (fst r) then ret false
      else
        let! e := get in
        let '(opcode, payload, d) := lan_gpu_answer garbage (ge_device e) (gh_opcode hdr) (snd r) in
        do! put (mkLanGpuEnv (ge_sock e) d) in
        let! sent := on_sock (send_exact (gpu_header_bytes (mkGpuHeader GPU_MAGIC opcode 0 0 (gh_sequence_id hdr) (zlen payload)))) in
        if negb sent then ret false
        else on_sock (send_payload payload).

Fixpoint gpu_serve (garbage : Z) (fuel : nat) : M LanGpuEnv unit :=
  match fuel with
  | O => nofuel
  | S fuel => let! go := gpu_round garbage in if go then gpu_serve garbage fuel else ret tt
  end.

End Server.
Arguments LanGpuEnv : clear implicits.
Arguments mkLanGpuEnv {D}.

(** ** The proxy *)

Record Proxy := mkProxy {
  g_gpu_socket : option Fd;
  g_sequence_id : Z;
  g_initialized : bool;
  g_tracker : DevicePointerTracker
}.

Definition Proxy_new : Proxy := mkProxy None 1 false DevicePointerTracker_new.

Definition set_gpu_socket (s : option Fd) (p : Proxy) : Proxy := mkProxy s (g_sequence_id p) (g_initialized p) (g_tracker p).
Definition set_g_tracker (t : DevicePointerTracker) (p : Proxy) : Proxy := mkProxy (g_gpu_socket p) (g_sequence_id p) (g_initialized p) t.

(** A call on the socket, which is not INVALID_SOCKET here. *)
Definition on_gpu_socket {A} (c : M Fd A) : M Proxy A :=
  let! p := get in
  match g_gpu_socket p with
  | None => undef
  | Some s => let '(o, s') := c s in do! put (set_gpu_socket (Some s') p) in fun p => (o, p)
  end.

(** The result, and the bytes written to [resp_buf]. *)
Definition send_gpu_cmd (opcode flags : Z) (payload : list byte) (resp_len : Z) : M Proxy (bool * list byte) :=
  let! p := get in
  match g_gpu_socket p with
  | None => ret (false, [])
  | Some _ =>
      let seq := g_sequence_id p in
      do! put (mkProxy (g_gpu_socket p) (u32 (seq + 1)) (g_initialized p) (g_tracker p)) in
      let! sent := on_gpu_socket (send_gpu_header opcode flags seq (zlen payload)) in
      if negb sent then ret (false, [])
      else
        let! sent := on_gpu_socket (send_payload payload) in
        if negb sent then ret (false, [])
        else
          let! hdr := on_gpu_socket recv_gpu_header in
          match hdr with
          | None => ret (false, [])
          | Some hdr =>
              if gh_opcode hdr =? GPU_RESP_ERROR then ret (false, [])
              else if resp_len <? gh_payload_len hdr then ret (false, [])
              else
                on_gpu_socket (recv_payload (gh_payload_len hdr))
          end
  end.

(** [conn]: whether winsock starts, and what [connect_gpu_server] gives. *)
Definition InitializeProxy (conn : bool * option Fd) : M Proxy bool :=
  let! p := get in
  if g_initialized p then ret true
  else
    do! put (mkProxy (g_gpu_socket p) (g_sequence_id p) true (g_tracker p)) in
    if negb (fst conn) then ret false
    else
      let! p := get in
      do! put (set_gpu_socket (snd conn) p) in
      ret (bool_decide (is_Some (snd conn))).

Definition ShutdownProxy : M Proxy unit :=
  let! p := get in
  put (if g_initialized p then mkProxy None (g_sequence_id p) false (g_tracker p) else p).

(** [!g_initialized.load() && !InitializeProxy()]. *)
Definition not_ready (conn : bool * option Fd) : M Proxy bool :=
  let! p := get in
  if g_initialized p then ret false else let! ok := InitializeProxy conn in ret (negb ok).

(** [static_cast<int>] of a 32-bit field. *)
Definition to_int32 (z : Z) : Z := if z <? 2 ^ 31 then z else z - 2 ^ 32.

(** The error, and [*devPtr] where it is set.  A success without a whole response
    leaves [resp] uninitialised. *)
Definition cudaMalloc (conn : bool * option Fd) (size : Z) : M Proxy (Z * option Z) :=
  let! bad := not_ready conn in
  if bad then ret (1, None)
  else
    let! r := send_gpu_cmd GPU_CMD_MALLOC GPU_FLAG_NONE (malloc_req_bytes size 256) 16 in
    if negb (fst r) then ret (1, None)
    else if zlen (snd r) <? 12 then undef
    else
      let err := to_int32 (le_value (slice 8 4 (snd r))) in
      if negb (err =? 0) then ret (err, None)
      else
        let! p := get in
        let '(t, ptr) := dt_allocate (field64 0 (snd r)) size (g_tracker p) in
        do! put (set_g_tracker t p) in
        ret (0, Some ptr).

Definition cudaFree (devPtr : Z) : M Proxy Z :=
  let! p := get in
  if negb (g_initialized p) then ret 1
  else
    match dt_get_remote devPtr (g_tracker p) with
    | None => ret 1
    | Some remote_ptr =>
        let! r := send_gpu_cmd GPU_CMD_FREE GPU_FLAG_NONE (free_req_bytes remote_ptr) 16 in
        if negb (fst r) then ret 1
        else
          let! p := get in
          do! put (set_g_tracker (fst (dt_free devPtr (g_tracker p))) p) in
          ret 0
    end.

(** The error, and what is written to [dst] of the client's own memory. *)
Definition cudaMemcpy (conn : bool * option Fd) (dst src count kind : Z) : M Proxy (Z * list byte) :=
  let! bad := not_ready conn in
  if bad then ret (1, [])
  else
    let! p := get in
    let is_h2d := kind =? 1 in
    let remotes :=
      if is_h2d then (fun remote_dst => (remote_dst, src)) <$> dt_get_remote dst (g_tracker p)
      else if kind =? 2 then (fun remote_src => (dst, remote_src)) <$> dt_get_remote src (g_tracker p)
      else None in
    match remotes with
    | None => ret (1, [])
    | Some (remote_dst, remote_src) =>
        let req := memcpy_req_bytes (if is_h2d then remote_dst else remote_src) (if is_h2d then remote_src else remote_dst)
                     count (if is_h2d then 0 else 1) in
        let! r := send_gpu_cmd (if is_h2d then GPU_CMD_MEMCPY_H2D else GPU_CMD_MEMCPY_D2H)
                    (if is_h2d then GPU_FLAG_ASYNC else GPU_FLAG_NONE) req 16 in
        if negb (fst r) then ret (1, [])
        else if is_h2d then ret (0, [])
        else
          let! p := get in
          match g_gpu_socket p with
          | None => ret (1, [])
          | Some _ =>
              let! r := on_gpu_socket (recv_exact count) in
              if negb (fst r) then ret (1, snd r) else ret (0, snd r)
          end
    end.

Definition cudaDeviceSynchronize : M Proxy Z :=
  let! p := get in
  if negb (g_initialized p) then ret 1
  else
    let! r := send_gpu_cmd GPU_CMD_SYNCHRONIZE GPU_FLAG_NONE (sync_req_bytes 0) 16 in
    ret (if fst r then 0 else 1).

(** *** Calls that stay in the client *)

Definition cudaGetLastError : Z := 0.
Definition cudaGetErrorString (error : Z) : string := "unknown error"%string.

(** The errors, and [*ptr] or [*count]; what [VirtualAlloc] and [VirtualFree] answer. *)
Definition cudaMallocHost (alloc : option Z) : Z * Z := match alloc with Some p => (0, p) | None => (1, 0) end.
Definition cudaFreeHost (released : bool) : Z := if released then 0 else 1.
Definition cudaGetDeviceCount : Z * Z := (0, 1).
Definition cudaSetDevice (device : Z) : Z := 0.
Definition cudaGetDevice : Z * Z := (0, 0).

(** [DllMain]; [detach]: the reason is DLL_PROCESS_DETACH. *)
Definition proxy_DllMain (detach : bool) : M Proxy unit := if detach then ShutdownProxy else ret tt.

(** *** Sessions *)

(** The calls a program makes, apart from copies back. *)
Inductive GpuCall :=
  | CallMalloc (size : Z)
  | CallFree (devPtr : Z)
  | CallUpload (dst src count : Z)
  | CallSync.

(** The error of the call, and the pointer it gives. *)
Definition lan_gpu_call (c : GpuCall) : M Proxy (Z * option Z) :=
  match c with
  | CallMalloc size => cudaMalloc (false, None) size
  | CallFree devPtr => let! e := cudaFree devPtr in ret (e, None)
  | CallUpload dst src count => let! r := cudaMemcpy (false, None) dst src count 1 in ret (fst r, None)
  | CallSync => let! e := cudaDeviceSynchronize in ret (e, None)
  end.

Fixpoint gpu_run (calls : list GpuCall) : M Proxy (list (Z * option Z)) :=
  match calls with
  | [] => ret []
  | c :: calls => let! r := lan_gpu_call c in let! rs := gpu_run calls in ret (r :: rs)
  end.

(** The proxy and the server in one step, without the wire between them: what the
    session is first reduced to. *)
Section Spec.
Context {D : Type} `{CudaRuntime D}.

Definition gpu_ref_step (d : D) (t : DevicePointerTracker) (c : GpuCall) : (Z * option Z) * D * DevicePointerTracker :=
  match c with
  | CallMalloc size =>
      let '(err, ptr, d) := cuda_malloc d size in
      if err =? 0 then let '(t, p) := dt_allocate ptr size t in ((0, Some p), d, t) else ((1, None), d, t)
  | CallFree devPtr =>
      match dt_get_remote devPtr t with
      | None => ((1, None), d, t)
      | Some remote =>
          let '(err, d) := cuda_free d remote in
          if err =? 0 then ((0, None), d, fst (dt_free devPtr t)) else ((1, None), d, t)
      end
  | CallUpload dst src count =>
      match dt_get_remote dst t with
      | None => ((1, None), d, t)
      | Some remote => let '(err, d) := cuda_memcpy d true remote src count in ((if err =? 0 then 0 else 1, None), d, t)
      end
  | CallSync => let '(err, d) := cuda_synchronize d in ((if err =? 0 then 0 else 1, None), d, t)
  end.

Fixpoint gpu_ref (d : D) (t : DevicePointerTracker) (calls : list GpuCall) : list (Z * option Z) * D * DevicePointerTracker :=
  match calls with
  | [] => ([], d, t)
  | c :: calls =>
      let '(r, d, t) := gpu_ref_step d t c in
      let '(rs, d, t) := gpu_ref d t calls in (r :: rs, d, t)
  end.

(** *** What a session promises

    A device and the names the program has for its allocations.  The names are
    handed out one after the other, 4096 apart; [nd_names] gives the address on the
    server that the start of an allocation stands for. *)
Record NamedDevice := mkNamed { nd_device : D; nd_names : gmap Z Z; nd_count : Z }.

Definition gpu_name (k : Z) : Z := 2 ^ 40 + 4096 * k.

(** [Unnamed]: the pointer is not the start of a live allocation, and the runtime is
    not asked.  Otherwise the runtime's own error, and the new name. *)
Inductive GpuAnswer := Unnamed | Answered (err : Z) (name : option Z).

Definition on_named (ptr : Z) (n : NamedDevice) (f : Z -> Z * NamedDevice) : GpuAnswer * NamedDevice :=
  match nd_names n !! ptr with
  | None => (Unnamed, n)
  | Some remote => let '(err, n) := f remote in (Answered err None, n)
  end.

Definition set_device (d : D) (n : NamedDevice) : NamedDevice := mkNamed d (nd_names n) (nd_count n).

Definition runtime_step (n : NamedDevice) (c : GpuCall) : GpuAnswer * NamedDevice :=
  match c with
  | CallMalloc size =>
      let '(err, ptr, d) := cuda_malloc (nd_device n) size in
      if err =? 0 then (Answered 0 (Some (gpu_name (nd_count n))), mkNamed d (<[gpu_name (nd_count n) := ptr]> (nd_names n)) (nd_count n + 1))
      else (Answered err None, set_device d n)
  | CallFree ptr =>
      on_named ptr n (fun remote =>
        let '(err, d) := cuda_free (nd_device n) remote in
        (err, mkNamed d (if err =? 0 then delete ptr (nd_names n) else nd_names n) (nd_count n)))
  | CallUpload dst src count =>
      on_named dst n (fun remote => let '(err, d) := cuda_memcpy (nd_device n) true remote src count in (err, set_device d n))
  | CallSync => let '(err, d) := cuda_synchronize (nd_device n) in (Answered err None, set_device d n)
  end.

Fixpoint runtime_run (n : NamedDevice) (calls : list GpuCall) : list GpuAnswer * NamedDevice :=
  match calls with
  | [] => ([], n)
  | c :: calls =>
      let '(a, n) := runtime_step n c in
      let '(rs, n) := runtime_run n calls in (a :: rs, n)
  end.

(** What the program sees of an answer: the server sends no error codes, only that
    there was an error, and the proxy makes 1 of it. *)
Definition seen (a : GpuAnswer) : Z * option Z :=
  match a with
  | Unnamed => (1, None)
  | Answered err name => (if err =? 0 then 0 else 1, name)
  end.

(** The tracker holds the names, and the next one. *)
Record names_match (t : DevicePointerTracker) (n : NamedDevice) : Prop := {
  nm_names : fst <$> dt_map t = nd_names n;
  nm_next : dt_next t = gpu_name (nd_count n);
  nm_count : 0 <= nd_count n
}.

Lemma dt_align z : z mod 4096 = 0 -> 0 <= z < 2 ^ 63 + 4096 -> Z.land (u64 (z + 4095)) (u64 (Z.lnot 4095)) = z.
Proof.
  intros Hz Hr. change 4095 with (2 ^ 12 - 1) at 2. unfold u64, U64. rewrite (Z.mod_small (z + 4095)) by lia.
  change (Z.lnot (2 ^ 12 - 1) mod 2 ^ 64) with (u64 (Z.lnot (2 ^ 12 - 1))). rewrite land_lnot_mask by (done || unfold is_u64, U64; lia).
  change (2 ^ 12) with 4096. rewrite <- (Z.add_mod_idemp_l z) by done. rewrite Hz. change ((0 + 4095) mod 4096) with 4095. lia.
Qed.

Lemma dt_allocate_named remote size t n : names_match t n -> nd_count n < 2 ^ 50 ->
  exists t', dt_allocate remote size t = (t', gpu_name (nd_count n)) /\
    forall d, names_match t' (mkNamed d (<[gpu_name (nd_count n) := remote]> (nd_names n)) (nd_count n + 1)).
Proof.
  intros [Hm Hn Hc] Hlt. unfold dt_allocate. rewrite Hn. unfold gpu_name.
  rewrite dt_align; [|replace (2 ^ 40 + 4096 * nd_count n) with ((2 ^ 28 + nd_count n) * 4096) by lia; by rewrite Z.mod_mul|lia].
  eexists. split; [done|]. intros d. split; cbn [dt_map dt_next nd_names nd_count].
  - by rewrite fmap_insert, Hm.
  - rewrite u64_small by (unfold U64; lia). unfold gpu_name. lia.
  - lia.
Qed.

Lemma dt_remote_named t n ptr : names_match t n -> dt_get_remote ptr t = nd_names n !! ptr.
Proof. intros [<- _ _]. unfold dt_get_remote. by rewrite lookup_fmap. Qed.

(** The reduced session is the promised one. *)
Lemma gpu_ref_named t n c : names_match t n -> nd_count n < 2 ^ 50 ->
  let '(r, d, t') := gpu_ref_step (nd_device n) t c in
  let '(a, n') := runtime_step n c in
  r = seen a /\ d = nd_device n' /\ names_match t' n' /\ nd_count n' <= nd_count n + 1.
Proof.
  intros Ht Hlt. destruct c as [size|ptr|dst src count|]; cbn [gpu_ref_step runtime_step]; unfold on_named.
  - destruct (cuda_malloc (nd_device n) size) as [[err q] d]. destruct (Z.eqb_spec err 0) as [->|He].
    + destruct (dt_allocate_named q size t n Ht Hlt) as (t' & Ha & Ht'). rewrite Ha. split_and!; [done|done|apply Ht'|cbn; lia].
    + cbn. rewrite (proj2 (Z.eqb_neq _ _) He). destruct Ht. split_and!; try done. lia.
  - rewrite (dt_remote_named t n ptr Ht). destruct (nd_names n !! ptr) as [remote|] eqn:E; [|split_and!; try done; lia].
    destruct (cuda_free (nd_device n) remote) as [err d]. destruct (Z.eqb_spec err 0) as [->|He]; cbn.
    + destruct Ht as [Hm Hn Hc]. split_and!; try done; [|lia]. unfold dt_free.
      destruct (dt_map t !! ptr) eqn:Ep; [|by rewrite <- Hm, lookup_fmap, Ep in E]. split; cbn; [|done|done].
      by rewrite fmap_delete, Hm.
    + rewrite (proj2 (Z.eqb_neq _ _) He). destruct Ht. split_and!; try done. lia.
  - rewrite (dt_remote_named t n dst Ht). destruct (nd_names n !! dst) as [remote|] eqn:E; [|split_and!; try done; lia].
    destruct (cuda_memcpy (nd_device n) true remote src count) as [err d]. destruct Ht. split_and!; try done. cbn. lia.
  - destruct (cuda_synchronize (nd_device n)) as [err d]. destruct Ht. split_and!; try done. cbn. lia.
Qed.

Lemma gpu_ref_run_named calls : forall t n, names_match t n -> nd_count n + zlen calls <= 2 ^ 50 ->
  let '(rs, d, t') := gpu_ref (nd_device n) t calls in
  let '(answers, n') := runtime_run n calls in
  rs = seen <$> answers /\ d = nd_device n' /\ names_match t' n'.
Proof.
  induction calls as [|c calls IH]; intros t n Ht Hlt; cbn [gpu_ref runtime_run]; [done|].
  rewrite zlen_cons in Hlt. pose proof (zlen_nonneg calls). pose proof (gpu_ref_named t n c Ht ltac:(lia)) as Hs.
  destruct (gpu_ref_step (nd_device n) t c) as [[r d] t1], (runtime_step n c) as [a n1]. destruct Hs as (-> & -> & Ht1 & Hc1).
  specialize (IH t1 n1 Ht1 ltac:(lia)). destruct (gpu_ref (nd_device n1) t1 calls) as [[rs d] t2], (runtime_run n1 calls) as [answers n2].
  by destruct IH as (-> & -> & Ht2).
Qed.
End Spec.

(** ** Headers *)

Definition gpu_header_ok (h : GpuHeader) : Prop :=
  0 <= gh_magic h < U32 /\ 0 <= gh_opcode h < 256 /\ 0 <= gh_flags h < 256 /\ 0 <= gh_reserved h < 65536 /\
  0 <= gh_sequence_id h < U32 /\ 0 <= gh_payload_len h < U32.

Lemma zlen_gpu_header h : zlen (gpu_header_bytes h) = 16.
Proof. unfold gpu_header_bytes, zlen. rewrite !length_app, !length_le_bytes. done. Qed.

Lemma gpu_header_roundtrip h : gpu_header_ok h -> gpu_header_of (gpu_header_bytes h) = h.
Proof.
  intros (Hm & Ho & Hf & Hr & Hs & Hl). destruct h as [m o f r s l]. cbn in Hm, Ho, Hf, Hr, Hs, Hl. unfold U32 in *.
  unfold gpu_header_of, gpu_header_bytes; cbn [gh_magic gh_opcode gh_flags gh_reserved gh_sequence_id gh_payload_len].
  rewrite <- (app_nil_r (le_bytes 4 l)). f_equal; field_of_struct.
Qed.

(** What a command and a response look like on the wire. *)
Definition lan_gpu_frame (opcode flags seq : Z) (payload : list byte) : list byte :=
  gpu_header_bytes (mkGpuHeader GPU_MAGIC opcode flags 0 seq (zlen payload)) ++ payload.

Lemma frame_header_ok opcode flags seq (payload : list byte) :
  0 <= opcode < 256 -> 0 <= flags < 256 -> 0 <= seq < U32 -> zlen payload < U32 ->
  gpu_header_ok (mkGpuHeader GPU_MAGIC opcode flags 0 seq (zlen payload)).
Proof. intros. pose proof (zlen_nonneg payload). unfold gpu_header_ok, GPU_MAGIC, U32 in *. cbn. lia. Qed.

(** Reading a frame: the header, and then the payload. *)
Lemma recv_frame opcode flags seq payload rest s :
  0 <= opcode < 256 -> 0 <= flags < 256 -> 0 <= seq < U32 -> zlen payload < U32 ->
  sock_stream s = lan_gpu_frame opcode flags seq payload ++ rest ->
  let h := mkGpuHeader GPU_MAGIC opcode flags 0 seq (zlen payload) in
  exists evs evs2,
    let s1 := mkFd evs (fd_out s) (fd_written s) in
    let s2 := mkFd evs2 (fd_out s) (fd_written s) in
    (exists l, recv_exact 16 s = (Ret (true, l), s1) /\ gpu_header_of l = h) /\
    recv_payload (zlen payload) s1 = (Ret (true, payload), s2) /\
    sock_stream s2 = rest /\ sock_ends s2 = sock_ends s.
Proof.
  intros Ho Hf Hs Hp Hst h. assert (Hh : gpu_header_ok h) by by apply frame_header_ok.
  unfold lan_gpu_frame in Hst. fold h in Hst. rewrite <- app_assoc in Hst. pose proof (zlen_gpu_header h) as H16.
  pose proof (zlen_nonneg payload). pose proof (zlen_nonneg rest).
  destruct (recv_exact_ok 16 s) as (evs & Hr & Hrest & Hends). { rewrite Hst, !zlen_app, H16. lia. }
  rewrite Hst in Hr, Hrest. change (Z.to_nat 16) with 16%nat in *.
  assert (Hl : length (gpu_header_bytes h) = 16%nat) by (unfold zlen in H16; lia).
  rewrite take_app_length' in Hr by done. rewrite drop_app_length' in Hrest by done.
  exists evs. set (s1 := mkFd evs _ _) in *. unfold recv_payload. destruct (Z.ltb_spec 0 (zlen payload)).
  - destruct (recv_exact_ok (zlen payload) s1) as (evs2 & Hr2 & Hrest2 & Hends2). { rewrite Hrest, zlen_app. lia. }
    rewrite Hrest in Hr2, Hrest2. replace (Z.to_nat (zlen payload)) with (length payload) in * by (unfold zlen; lia).
    rewrite take_app_length in Hr2. rewrite drop_app_length in Hrest2. exists evs2. split_and!; [|done|done|by etrans].
    exists (gpu_header_bytes h). split; [done|]. by apply gpu_header_roundtrip.
  - exists evs. assert (payload = []) as Hp0 by (destruct payload; [done|unfold zlen in *; cbn in *; lia]).
    cbv zeta. fold s1. rewrite Hp0 in Hrest |- *. split_and!; try done.
    exists (gpu_header_bytes h). split; [done|]. by apply gpu_header_roundtrip.
Qed.

Lemma send_payload_ok payload s : sock_sendable s ->
  exists evs, send_payload payload s = (Ret true, mkFd (fd_in s) evs (fd_written s ++ payload)) /\ sock_sendable (mkFd (fd_in s) evs (fd_written s)).
Proof.
  intros Hs. unfold send_payload. destruct (Z.ltb_spec 0 (zlen payload)); [by apply send_exact_ok|].
  assert (payload = []) as -> by (destruct payload; [done|unfold zlen in *; cbn in *; lia]).
  exists (fd_out s). rewrite app_nil_r. by destruct s.
Qed.

(** ** Rounds of the server *)

Class CudaRuntimeTypes (D : Type) `{CudaRuntime D} := {
  malloc_typed : forall d n err p d', cuda_malloc d n = (err, p, d') -> is_u64 p
}.

Section Rounds.
Context {D : Type} `{CudaRuntimeTypes D}.

Lemma lan_gpu_answer_shape garbage d opcode buffer : 0 <= garbage < 256 ->
  let '(ro, pl, _) := lan_gpu_answer garbage d opcode buffer in
  0 <= ro < 256 /\ (pl = [] \/ ro = GPU_RESP_MALLOC_RESULT /\ zlen pl = 16).
Proof.
  intros Hg. unfold lan_gpu_answer. change (0 <= garbage < 256) in Hg.
  repeat match goal with
  | |- context [if ?b then _ else _] => destruct b
  | |- context [match cuda_malloc ?d ?n with _ => _ end] => destruct (cuda_malloc d n) as [[? ?] ?]
  | |- context [cuda_memcpy ?d ?k ?x ?y ?n] => destruct (cuda_memcpy d k x y n)
  | |- context [cuda_synchronize ?d] => destruct (cuda_synchronize d)
  | |- context [cuda_free ?d ?x] => destruct (cuda_free d x)
  end; split; try (unfold GPU_RESP_MALLOC_RESULT, GPU_RESP_ERROR, GPU_RESP_SUCCESS, GPU_RESP_MEMCPY_D2H; lia); auto.
Qed.

Lemma gpu_round_run garbage opcode flags seq payload rest sf d :
  0 <= garbage < 256 -> 0 <= opcode < 256 -> 0 <= flags < 256 -> 0 <= seq < U32 -> zlen payload <= 8192 -> sock_sendable sf ->
  sock_stream sf = lan_gpu_frame opcode flags seq payload ++ rest ->
  let '(ro, pl, d') := lan_gpu_answer garbage d opcode payload in
  exists sf', gpu_round garbage (mkLanGpuEnv sf d) = (Ret true, mkLanGpuEnv sf' d') /\
    sock_stream sf' = rest /\ sock_ends sf' = sock_ends sf /\ sock_sendable sf' /\ fd_written sf' = fd_written sf ++ lan_gpu_frame ro 0 seq pl.
Proof.
  intros Hg Ho Hf Hseq Hp Hs Hst. destruct (lan_gpu_answer garbage d opcode payload) as [[ro pl] d'] eqn:Ea.
  destruct (recv_frame opcode flags seq payload rest sf) as (evs & evs2 & (l & Hr & Hl) & Hr2 & Hrest & Hends); try done; [unfold U32; lia|].
  unfold gpu_round. cbv zeta. unfold bind, zoom, get, put, ret. cbn [ge_sock]. rewrite Hr. cbn [fst snd negb]. rewrite Hl.
  cbn [gh_magic gh_opcode gh_payload_len gh_sequence_id]. rewrite Z.eqb_refl. cbn [negb]. rewrite (proj2 (Z.ltb_ge _ _) Hp).
  set (s1 := mkFd evs _ _) in *. set (s2 := mkFd evs2 _ _) in *. unfold set_ge_sock. cbn [ge_sock ge_device]. rewrite Hr2.
  cbn [fst snd negb ge_sock ge_device]. rewrite Ea. cbn [ge_sock].
  destruct (send_exact_ok (gpu_header_bytes (mkGpuHeader GPU_MAGIC ro 0 0 seq (zlen pl))) s2 Hs) as (out & -> & Hs').
  cbn [negb ge_device ge_sock]. destruct (send_payload_ok pl (mkFd (fd_in s2) out (fd_written s2 ++ gpu_header_bytes (mkGpuHeader GPU_MAGIC ro 0 0 seq (zlen pl)))) Hs') as (out2 & -> & Hs2).
  eexists. split; [done|]. cbn. unfold lan_gpu_frame. rewrite <- app_assoc. by split_and!.
Qed.

End Rounds.

(** ** Commands of the client *)

Definition next_seq (s : Fd) (p : Proxy) : Proxy := mkProxy (Some s) (u32 (g_sequence_id p + 1)) (g_initialized p) (g_tracker p).

(** It comes back or waits. *)
Definition returns_or_waits {A} (o : outcome A) : Prop := match o with Ret _ | NoFuel => True | _ => False end.

Lemma recv_any len s : 0 <= len ->
  exists o s', recv_exact len s = (o, s') /\ returns_or_waits o /\ fd_out s' = fd_out s /\ fd_written s' = fd_written s.
Proof.
  intros Hl. pose proof (recv_exact_inv len s Hl) as Hr. pose proof (recv_exact_out len s) as Ho.
  destruct (recv_exact len s) as [o s']. exists o, s'. split; [done|]. destruct o; cbn in *; [by split_and!|by destruct Hr..|].
  destruct Hr as [_ Hr]. by split_and!.
Qed.

Lemma send_gpu_cmd_run opcode flags payload resp_len s p :
  g_gpu_socket p = Some s -> sock_sendable s -> 0 <= opcode < 256 -> 0 <= flags < 256 -> 0 <= g_sequence_id p < U32 -> zlen payload < U32 ->
  exists o s', send_gpu_cmd opcode flags payload resp_len p = (o, next_seq s' p) /\ sock_sendable s' /\
    fd_written s' = fd_written s ++ lan_gpu_frame opcode flags (g_sequence_id p) payload /\ returns_or_waits o /\
    forall ro pl rest, 0 <= ro < 256 -> zlen pl <= resp_len -> zlen pl < U32 -> (ro = GPU_RESP_ERROR -> pl = []) ->
      sock_stream s = lan_gpu_frame ro 0 (g_sequence_id p) pl ++ rest ->
      o = Ret (if ro =? GPU_RESP_ERROR then (false, []) else (true, pl)) /\ sock_stream s' = rest /\ sock_ends s' = sock_ends s.
Proof.
  destruct p as [so seq ini t]. cbn [g_gpu_socket g_sequence_id g_initialized g_tracker]. intros -> Hs Ho Hf Hseq Hp.
  unfold send_gpu_cmd, on_gpu_socket, send_gpu_header, recv_gpu_header, set_gpu_socket, next_seq. cbv [bind get put ret].
  cbn [g_gpu_socket g_sequence_id g_initialized g_tracker].
  set (h := gpu_header_bytes (mkGpuHeader GPU_MAGIC opcode flags 0 seq (zlen payload))).
  destruct (send_exact_ok h s Hs) as (out & -> & Hs1). cbn [negb g_gpu_socket g_sequence_id g_initialized g_tracker].
  set (s1 := mkFd (fd_in s) out (fd_written s ++ h)). destruct (send_payload_ok payload s1 Hs1) as (out2 & -> & Hs2).
  cbn [negb g_gpu_socket g_sequence_id g_initialized g_tracker]. set (s2 := mkFd _ out2 _).
  assert (Hw2 : fd_written s2 = fd_written s ++ lan_gpu_frame opcode flags seq payload) by (cbn; by rewrite <- app_assoc).
  assert (Hst2 : sock_stream s2 = sock_stream s) by done. assert (He2 : sock_ends s2 = sock_ends s) by done.
  change (sock_sendable s2) in Hs2. clearbody s2.
  destruct (recv_any 16 s2 ltac:(lia)) as (o3 & s3 & Hr3 & Ho3 & Hout3 & Hw3).
  assert (Hframe : forall ro pl rest, 0 <= ro < 256 -> zlen pl < U32 -> sock_stream s = lan_gpu_frame ro 0 seq pl ++ rest ->
    exists evs2 l, let s4 := mkFd evs2 (fd_out s3) (fd_written s3) in
      o3 = Ret (true, l) /\ gpu_header_of l = mkGpuHeader GPU_MAGIC ro 0 0 seq (zlen pl) /\
      recv_payload (zlen pl) s3 = (Ret (true, pl), s4) /\ sock_stream s4 = rest /\ sock_ends s4 = sock_ends s).
  { intros ro pl rest Hro Hpl Hst. rewrite <- Hst2 in Hst.
    destruct (recv_frame ro 0 seq pl rest s2) as (evs & evs2 & (l & Hr & Hl) & Hr2 & Hrest & Hends); try done.
    rewrite Hr3 in Hr. injection Hr as -> ->. exists evs2, l. cbv zeta.
    split_and!; [done|exact Hl|exact Hr2|exact Hrest|by rewrite <- He2]. }
  rewrite Hr3. destruct o3 as [[ok l]|e| |]; try done; cbn [fst snd].
  2: { exists NoFuel, s3. split; [done|]. split; [unfold sock_sendable; by rewrite Hout3|]. split; [congruence|]. split; [done|].
       intros ro pl rest Hro _ Hpl _ Hst. by destruct (Hframe ro pl rest Hro Hpl Hst) as (evs2 & l & [=] & _). }
  assert (Hs3 : sock_sendable s3) by (unfold sock_sendable; by rewrite Hout3).
  assert (Hw3' : fd_written s3 = fd_written s ++ lan_gpu_frame opcode flags seq payload) by congruence.
  destruct ok; cbn [negb].
  2: { exists (Ret (false, [])), s3. split_and!; try done. intros ro pl rest Hro _ Hpl _ Hst. by destruct (Hframe ro pl rest Hro Hpl Hst) as (evs2 & l' & [=] & _). }
  destruct (Z.eqb_spec (gh_magic (gpu_header_of l)) GPU_MAGIC) as [Hm|Hm]; cbn [negb].
  2: { exists (Ret (false, [])), s3. split_and!; try done. intros ro pl rest Hro _ Hpl _ Hst.
       destruct (Hframe ro pl rest Hro Hpl Hst) as (evs2 & l' & [= <-] & Hl & _). by rewrite Hl in Hm. }
  assert (Hlen : 0 <= gh_payload_len (gpu_header_of l)) by by apply le_value_range.
  assert (Hfin : exists o s', recv_payload (gh_payload_len (gpu_header_of l)) s3 = (o, s') /\ returns_or_waits o /\ fd_out s' = fd_out s3 /\ fd_written s' = fd_written s3).
  { unfold recv_payload. destruct (0 <? _); [by apply recv_any|]. by exists (Ret (true, [])), s3. }
  destruct Hfin as (o4 & s4 & Hr4 & Ho4 & Hout4 & Hw4).
  destruct (Z.eqb_spec (gh_opcode (gpu_header_of l)) GPU_RESP_ERROR) as [Her|Her].
  { exists (Ret (false, [])), s3. split_and!; try done. intros ro pl rest Hro _ Hpl Hpe Hst.
    destruct (Hframe ro pl rest Hro Hpl Hst) as (evs2 & l' & [= <-] & Hl & Hrp & Hrest & Hends). rewrite Hl in Her. cbn in Her. subst ro.
    rewrite (Hpe eq_refl) in Hrp. unfold recv_payload in Hrp. cbn in Hrp. unfold ret in Hrp. injection Hrp as Hs34. rewrite Hs34 in *. by split_and!. }
  destruct (Z.ltb_spec resp_len (gh_payload_len (gpu_header_of l))) as [Hlong|Hfit].
  { exists (Ret (false, [])), s3. split_and!; try done. intros ro pl rest Hro Hle Hpl _ Hst.
    destruct (Hframe ro pl rest Hro Hpl Hst) as (evs2 & l' & [= <-] & Hl & _). rewrite Hl in Hlong. cbn in Hlong. lia. }
  cbn [g_gpu_socket g_sequence_id g_initialized g_tracker]. rewrite Hr4. exists o4, s4. split; [by destruct o4|]. split; [unfold sock_sendable; by rewrite Hout4|]. split; [congruence|]. split; [done|].
  intros ro pl rest Hro _ Hpl _ Hst. destruct (Hframe ro pl rest Hro Hpl Hst) as (evs2 & l' & [= <-] & Hl & Hrp & Hrest & Hends).
  rewrite Hl in Hr4, Her. cbn in Hr4, Her. rewrite Hrp in Hr4. injection Hr4 as <- <-. rewrite (proj2 (Z.eqb_neq _ _) Her). by split_and!.
Qed.

(** ** Calls *)

(** A call is at most one command, and what is made of its response. *)
Definition gpu_request (c : GpuCall) (t : DevicePointerTracker) : option (Z * Z * list byte) :=
  match c with
  | CallMalloc size => Some (GPU_CMD_MALLOC, GPU_FLAG_NONE, malloc_req_bytes size 256)
  | CallFree devPtr => (fun r => (GPU_CMD_FREE, GPU_FLAG_NONE, free_req_bytes r)) <$> dt_get_remote devPtr t
  | CallUpload dst src count => (fun r => (GPU_CMD_MEMCPY_H2D, GPU_FLAG_ASYNC, memcpy_req_bytes r src count 0)) <$> dt_get_remote dst t
  | CallSync => Some (GPU_CMD_SYNCHRONIZE, GPU_FLAG_NONE, sync_req_bytes 0)
  end.

Definition gpu_finish (c : GpuCall) (r : bool * list byte) : M Proxy (Z * option Z) :=
  if negb (fst r) then ret (1, None)
  else
    match c with
    | CallMalloc size =>
        if zlen (snd r) <? 12 then undef
        else
          let err := to_int32 (le_value (slice 8 4 (snd r))) in
          if negb (err =? 0) then ret (err, None)
          else
            let! p := get in
            let '(t, ptr) := dt_allocate (field64 0 (snd r)) size (g_tracker p) in
            do! put (set_g_tracker t p) in ret (0, Some ptr)
    | CallFree devPtr => let! p := get in do! put (set_g_tracker (fst (dt_free devPtr (g_tracker p))) p) in ret (0, None)
    | _ => ret (0, None)
    end.

Lemma gpu_call_factor c p : g_initialized p = true ->
  lan_gpu_call c p =
    match gpu_request c (g_tracker p) with
    | None => (Ret (1, None), p)
    | Some (opcode, flags, payload) => bind (send_gpu_cmd opcode flags payload 16) (gpu_finish c) p
    end.
Proof.
  intros Hi. destruct c as [size|ptr|dst src count|]; cbn [lan_gpu_call gpu_request].
  - unfold cudaMalloc, not_ready. rewrite bind_bind, bind_get, Hi. done.
  - unfold cudaFree. rewrite bind_bind, bind_get, Hi. cbn [negb]. destruct (dt_get_remote ptr (g_tracker p)); cbn [fmap option_fmap option_map]; [|done].
    rewrite bind_bind. unfold bind. destruct (send_gpu_cmd _ _ _ _ p) as [[[[] l]|e| |] p']; done.
  - unfold cudaMemcpy, not_ready, bind, get, ret. rewrite Hi. change (1 =? 1) with true. cbv zeta iota.
    destruct (dt_get_remote dst (g_tracker p)); cbn [fmap option_fmap option_map]; [|done].
    destruct (send_gpu_cmd _ _ _ _ p) as [[[[] l]|e| |] p']; done.
  - unfold cudaDeviceSynchronize. rewrite bind_bind, bind_get, Hi. cbn [negb]. rewrite bind_bind.
    unfold bind. destruct (send_gpu_cmd _ _ _ _ p) as [[[[] l]|e| |] p']; done.
Qed.

Definition lan_gpu_call_ok (c : GpuCall) : Prop :=
  match c with CallMalloc size => is_u64 size | CallUpload _ src count => is_u64 src /\ is_u64 count | _ => True end.
Definition tracker_ok (t : DevicePointerTracker) : Prop := map_Forall (fun _ e => is_u64 (fst e)) (dt_map t).

Lemma tracker_remote t p r : tracker_ok t -> dt_get_remote p t = Some r -> is_u64 r.
Proof. unfold dt_get_remote. intros Ht Hr. apply fmap_Some in Hr as (e & He & ->). exact (Ht _ _ He). Qed.

Lemma lan_request_ok c t opcode flags payload : gpu_request c t = Some (opcode, flags, payload) ->
  0 <= opcode < 256 /\ 0 <= flags < 256 /\ zlen payload <= 32.
Proof.
  destruct c as [size|ptr|dst src count|]; cbn [gpu_request]; try (destruct (dt_get_remote _ t); cbn); try done; intros [= <- <- <-];
    unfold malloc_req_bytes, free_req_bytes, memcpy_req_bytes, sync_req_bytes; rewrite ?zlen_app, ?zlen_le_bytes; done.
Qed.

Lemma field64_first z l : is_u64 z -> field64 0 (le_bytes 8 z ++ l) = z.
Proof. intros [H0 H1]. unfold field64. rewrite slice_here by apply zlen_le_bytes. rewrite le_value_bytes by done. by apply Z.mod_small. Qed.

Lemma field64_next off z l : 8 <= off -> field64 off (le_bytes 8 z ++ l) = field64 (off - 8) l.
Proof. intros Ho. unfold field64. rewrite slice_skip by by rewrite zlen_le_bytes. by rewrite zlen_le_bytes. Qed.

(** Decide comparisons of constants. *)
Ltac decide_opcodes :=
  repeat match goal with
  | |- context [?a =? ?b] => first [change (a =? b) with true | change (a =? b) with false]
  end; cbn iota.

Section Calls.
Context {D : Type} `{CudaRuntimeTypes D}.

(** The server's answer to a call and what the client makes of it is the call's meaning. *)
Lemma gpu_call_meaning garbage c d p opcode flags payload :
  lan_gpu_call_ok c -> tracker_ok (g_tracker p) -> gpu_request c (g_tracker p) = Some (opcode, flags, payload) ->
  let '(ro, pl, d') := lan_gpu_answer garbage d opcode payload in
  let '(r, d'', t') := gpu_ref_step d (g_tracker p) c in
  0 <= ro < 256 /\ zlen pl <= 16 /\ (ro = GPU_RESP_ERROR -> pl = []) /\ d'' = d' /\ tracker_ok t' /\
  gpu_finish c (if ro =? GPU_RESP_ERROR then (false, []) else (true, pl)) p = (Ret r, set_g_tracker t' p).
Proof.
  intros Hc Ht Hreq. assert (Hp : set_g_tracker (g_tracker p) p = p) by by destruct p.
  destruct c as [size|ptr|dst src count|]; cbn [gpu_request gpu_ref_step lan_gpu_call_ok] in *.
  - injection Hreq as <- <- <-. unfold lan_gpu_answer, malloc_req_bytes. rewrite field64_first by done. decide_opcodes.
    change (zlen _ <? 16) with false. cbn iota.
    destruct (cuda_malloc d size) as [[err q] d'] eqn:Em. pose proof (malloc_typed _ _ _ _ _ Em) as Hq.
    destruct (Z.eqb_spec err 0) as [->|He]; [|unfold gpu_finish; cbn; by rewrite Hp].
    destruct (dt_allocate q size (g_tracker p)) as [t' s] eqn:Ea. split; [done|]. split; [done|]. split; [done|]. split; [done|]. split.
    + injection Ea as <- _. by apply map_Forall_insert_2.
    + unfold gpu_finish, malloc_resp_bytes. change (GPU_RESP_MALLOC_RESULT =? GPU_RESP_ERROR) with false. cbn [fst snd negb].
      change (zlen _ <? 12) with false. cbn iota.
      replace (le_value (slice 8 4 _)) with 0; [|done]. change (to_int32 0 =? 0) with true. cbn [negb]. rewrite field64_first by done.
      unfold bind, get, put, ret. by rewrite Ea.
  - destruct (dt_get_remote ptr (g_tracker p)) as [r|] eqn:Er; [|done]. injection Hreq as <- <- <-.
    pose proof (tracker_remote _ _ _ Ht Er) as Hr. unfold lan_gpu_answer, free_req_bytes. decide_opcodes. change (zlen _ <? 8) with false. cbn iota.
    rewrite <- (app_nil_r (le_bytes 8 r)), field64_first by done. destruct (cuda_free d r) as [err d'].
    destruct (Z.eqb_spec err 0); unfold gpu_finish; cbn; [|by rewrite Hp]. split_and!; try done.
    unfold dt_free. destruct (dt_map (g_tracker p) !! ptr); [|done]. by apply map_Forall_delete.
  - destruct (dt_get_remote dst (g_tracker p)) as [r|] eqn:Er; [|done]. injection Hreq as <- <- <-. destruct Hc as [Hs Hn].
    pose proof (tracker_remote _ _ _ Ht Er) as Hr. unfold lan_gpu_answer, memcpy_req_bytes. decide_opcodes. change (zlen _ <? 32) with false. cbn iota.
    rewrite field64_first, (field64_next 8), !(field64_next 16) by done. change (16 - 8) with 8. change (8 - 8) with 0.
    rewrite (field64_next 8) by done. change (8 - 8) with 0.
    rewrite !field64_first by done. destruct (cuda_memcpy d true r src count) as [err d'].
    destruct (Z.eqb_spec err 0); unfold gpu_finish; cbn; by rewrite Hp.
  - injection Hreq as <- <- <-. unfold lan_gpu_answer. decide_opcodes. destruct (cuda_synchronize d) as [err d'].
    destruct (Z.eqb_spec err 0); unfold gpu_finish; cbn; by rewrite Hp.
Qed.
End Calls.

(** ** Sessions *)

Definition proxy_ready (s : Fd) (p : Proxy) : Prop :=
  g_gpu_socket p = Some s /\ g_initialized p = true /\ 0 <= g_sequence_id p < U32 /\ tracker_ok (g_tracker p).

Definition proxy_sent (p : Proxy) : list byte := default [] (fd_written <$> g_gpu_socket p).

Lemma u32_next z : 0 <= u32 (z + 1) < U32.
Proof. apply u32_range. Qed.

(** Whatever the response is, the proxy stays well formed. *)
Lemma finish_ready c r s p : proxy_ready s p -> proxy_ready s (snd (gpu_finish c r p)).
Proof.
  intros (Hsock & Hi & Hseq & Ht). assert (Hp : proxy_ready s p) by done. unfold gpu_finish. destruct r as [ok l]. cbn [fst snd].
  destruct ok; [|done]. cbn [negb]. destruct c as [size|ptr|dst src count|]; try done.
  - destruct (zlen l <? 12); [done|]. cbv zeta. destruct (negb _); [done|]. unfold bind, get, put, ret.
    destruct (dt_allocate (field64 0 l) size (g_tracker p)) as [t' q] eqn:Ea. split; [done|]. split; [done|]. split; [done|]. cbn.
    injection Ea as <- _. apply map_Forall_insert_2; [|done]. cbn. unfold field64. pose proof (le_value_range (slice 0 8 l)) as [H0 H1].
    split; [done|]. eapply Z.lt_le_trans; [exact H1|]. unfold U64. apply Z.pow_le_mono_r; [done|]. unfold slice, zlen. rewrite length_take. lia.
  - unfold bind, get, put, ret. split; [done|]. split; [done|]. split; [done|]. cbn. unfold dt_free. destruct (dt_map (g_tracker p) !! ptr); [|done].
    by apply map_Forall_delete.
Qed.

(** What a call sends. *)
Definition call_bytes (c : GpuCall) (p : Proxy) : list byte :=
  match gpu_request c (g_tracker p) with
  | None => []
  | Some (opcode, flags, payload) => lan_gpu_frame opcode flags (g_sequence_id p) payload
  end.

Section Sessions.
Context {D : Type} `{CudaRuntimeTypes D}.

(** What the server answers to it. *)
Definition call_reply (garbage : Z) (d : D) (c : GpuCall) (p : Proxy) : list byte :=
  match gpu_request c (g_tracker p) with
  | None => []
  | Some (opcode, _, payload) => let '(ro, pl, _) := lan_gpu_answer garbage d opcode payload in lan_gpu_frame ro 0 (g_sequence_id p) pl
  end.

Lemma gpu_client_step garbage c d s p : lan_gpu_call_ok c -> proxy_ready s p -> sock_sendable s ->
  exists o s' p', lan_gpu_call c p = (o, p') /\ proxy_ready s' p' /\ sock_sendable s' /\ fd_written s' = fd_written s ++ call_bytes c p /\
    forall rest, sock_stream s = call_reply garbage d c p ++ rest ->
      let '(r, d', t') := gpu_ref_step d (g_tracker p) c in
      o = Ret r /\ g_tracker p' = t' /\ sock_stream s' = rest.
Proof.
  intros Hc (Hsock & Hi & Hseq & Ht) Hs. rewrite gpu_call_factor by done. unfold call_bytes, call_reply.
  destruct (gpu_request c (g_tracker p)) as [[[opcode flags] payload]|] eqn:Hreq.
  - destruct (lan_request_ok _ _ _ _ _ Hreq) as (Ho & Hf & Hlen).
    destruct (send_gpu_cmd_run opcode flags payload 16 s p) as (o & s' & Hcmd & Hs' & Hw & Hrw & Hgot); try done; [unfold U32; lia|].
    unfold bind. rewrite Hcmd.
    assert (Hm : let '(ro, pl, d') := lan_gpu_answer garbage d opcode payload in
      let '(r, d'', t') := gpu_ref_step d (g_tracker p) c in
      0 <= ro < 256 /\ zlen pl <= 16 /\ (ro = GPU_RESP_ERROR -> pl = []) /\ d'' = d' /\ tracker_ok t' /\
      gpu_finish c (if ro =? GPU_RESP_ERROR then (false, []) else (true, pl)) (next_seq s' p) = (Ret r, set_g_tracker t' (next_seq s' p)))
      by exact (gpu_call_meaning garbage c d (next_seq s' p) opcode flags payload Hc Ht Hreq).
    assert (Hb : proxy_ready s' (next_seq s' p)) by (split_and!; try done; apply u32_next).
    destruct o as [r|e| |]; cbn [returns_or_waits] in Hrw; try done.
    + pose proof (finish_ready c r s' _ Hb) as Hp'. destruct (gpu_finish c r (next_seq s' p)) as [o p'] eqn:Efin. exists o, s', p'. split; [done|]. split; [done|]. split; [done|]. split; [done|].
      intros rest Hst. destruct (lan_gpu_answer garbage d opcode payload) as [[ro pl] d'].
      destruct (gpu_ref_step d (g_tracker p) c) as [[r' d''] t']. destruct Hm as (Hro & Hpl & Hpe & Hd & Ht' & Hfin).
      destruct (Hgot ro pl rest Hro Hpl ltac:(unfold U32; lia) Hpe Hst) as ([= ->] & Hrest & _). rewrite Hfin in Efin. injection Efin as <- <-.
      by split_and!.
    + exists NoFuel, s', (next_seq s' p). split; [done|]. split; [done|]. split; [done|]. split; [done|]. intros rest Hst.
      destruct (lan_gpu_answer garbage d opcode payload) as [[ro pl] d']. destruct (gpu_ref_step d (g_tracker p) c) as [[r' d''] t'].
      destruct Hm as (Hro & Hpl & Hpe & _). by destruct (Hgot ro pl rest Hro Hpl ltac:(unfold U32; lia) Hpe Hst) as ([=] & _).
  - exists (Ret (1, None)), s, p. rewrite app_nil_r. split; [done|]. split; [done|]. split; [done|]. split; [done|]. intros rest Hst.
    destruct c as [size|ptr|dst src count|]; cbn [gpu_request gpu_ref_step] in *; try done;
      destruct (dt_get_remote _ (g_tracker p)); try done; by repeat split.
Qed.
Definition server_call (garbage : Z) (d : D) (c : GpuCall) (p : Proxy) : D :=
  match gpu_request c (g_tracker p) with None => d | Some (opcode, _, payload) => snd (lan_gpu_answer garbage d opcode payload) end.

Lemma server_call_spec garbage d c p : lan_gpu_call_ok c -> tracker_ok (g_tracker p) ->
  server_call garbage d c p = snd (fst (gpu_ref_step d (g_tracker p) c)).
Proof.
  intros Hc Ht. unfold server_call. destruct (gpu_request c (g_tracker p)) as [[[opcode flags] payload]|] eqn:Hreq.
  - pose proof (gpu_call_meaning garbage c d p opcode flags payload Hc Ht Hreq) as Hm.
    destruct (lan_gpu_answer garbage d opcode payload) as [[ro pl] d'], (gpu_ref_step d (g_tracker p) c) as [[r d''] t']. cbn. symmetry. apply Hm.
  - destruct c as [size|ptr|dst src count|]; cbn [gpu_request gpu_ref_step] in *; try done; by destruct (dt_get_remote _ (g_tracker p)).
Qed.

(** The server's part of a call, which is no round at all where nothing is sent. *)
Lemma gpu_server_step garbage fuel c d p rest sf : 0 <= garbage < 256 -> 0 <= g_sequence_id p < U32 -> sock_sendable sf ->
  sock_stream sf = call_bytes c p ++ rest ->
  exists sf' fuel', gpu_serve garbage (S fuel) (mkLanGpuEnv sf d) = gpu_serve garbage fuel' (mkLanGpuEnv sf' (server_call garbage d c p)) /\
    (fuel <= fuel')%nat /\ sock_stream sf' = rest /\ sock_ends sf' = sock_ends sf /\ sock_sendable sf' /\
    fd_written sf' = fd_written sf ++ call_reply garbage d c p.
Proof.
  intros Hg Hseq Hs Hst. unfold call_bytes, call_reply, server_call in *.
  destruct (gpu_request c (g_tracker p)) as [[[opcode flags] payload]|] eqn:Hreq.
  - destruct (lan_request_ok _ _ _ _ _ Hreq) as (Ho & Hf & Hlen).
    pose proof (gpu_round_run garbage opcode flags (g_sequence_id p) payload rest sf d Hg Ho Hf Hseq ltac:(lia) Hs Hst) as Hr.
    destruct (lan_gpu_answer garbage d opcode payload) as [[ro pl] d']. destruct Hr as (sf' & Hr & Hrest & Hends & Hs' & Hw).
    exists sf', fuel. split; [cbn [gpu_serve]; unfold bind; by rewrite Hr|]. by split_and!.
  - exists sf, (S fuel). rewrite app_nil_r. split_and!; try done. lia.
Qed.

(** The server only appends. *)
Lemma gpu_serve_grows garbage fuel : forall e : LanGpuEnv D,
  exists x, fd_written (ge_sock (snd (gpu_serve garbage fuel e))) = fd_written (ge_sock e) ++ x.
Proof.
  assert (Hround : forall e : LanGpuEnv D, exists x, fd_written (ge_sock (snd (gpu_round garbage e))) = fd_written (ge_sock e) ++ x).
  { intros [s d]. unfold gpu_round, bind, zoom, get, put, ret. cbn [ge_sock]. destruct (recv_any 16 s ltac:(lia)) as (o & s1 & -> & _ & _ & Hw1).
    assert (Hno : exists x, fd_written s1 = fd_written s ++ x) by (exists []; by rewrite app_nil_r).
    destruct o as [[ok l]|e| |]; try exact Hno. cbn [fst snd]. destruct ok; [|exact Hno]. cbn [negb].
    destruct (negb _); [exact Hno|]. destruct (8192 <? _); [exact Hno|]. unfold set_ge_sock. cbn [ge_sock ge_device].
    assert (Hpay : exists o s2, recv_payload (gh_payload_len (gpu_header_of l)) s1 = (o, s2) /\ fd_written s2 = fd_written s1).
    { unfold recv_payload. destruct (Z.ltb_spec 0 (gh_payload_len (gpu_header_of l))); [|by eexists _, _].
      destruct (recv_any (gh_payload_len (gpu_header_of l)) s1 ltac:(lia)) as (o & s2 & -> & _ & _ & Hw). by eexists _, _. }
    destruct Hpay as (o & s2 & -> & Hw2). assert (Hno2 : exists x, fd_written s2 = fd_written s ++ x) by by rewrite Hw2.
    destruct o as [[ok2 l2]|e| |]; try exact Hno2. cbn [fst snd]. destruct ok2; [|exact Hno2]. cbn [negb ge_sock ge_device].
    destruct (lan_gpu_answer garbage d _ l2) as [[ro pl] d']. cbn [ge_sock].
    destruct (send_exact_spec (gpu_header_bytes (mkGpuHeader GPU_MAGIC ro 0 0 (gh_sequence_id (gpu_header_of l)) (zlen pl))) s2) as (b & k & evs & -> & _).
    destruct Hno2 as [x Hx]. destruct b; cbn [negb snd ge_sock fd_written]; [|eexists (x ++ _); by rewrite Hx, <- app_assoc].
    unfold send_payload. destruct (0 <? zlen pl); cbn [snd ge_sock fd_written].
    2: { eexists (x ++ _). by rewrite Hx, <- app_assoc. }
    set (s3 := mkFd _ evs _). destruct (send_exact_spec pl s3) as (b2 & k2 & evs2 & -> & _). cbn [snd ge_sock fd_written s3].
    rewrite Hx, <- !app_assoc. by eexists. }
  induction fuel as [|fuel IH]; intros e; cbn [gpu_serve]; [exists []; cbn; by rewrite app_nil_r|].
  unfold bind. destruct (Hround e) as [x Hx]. destruct (gpu_round garbage e) as [[[]|e'| |] e1]; cbn in Hx; try (by exists x).
  destruct (IH e1) as [y ->]. rewrite Hx. exists (x ++ y). by rewrite <- app_assoc.
Qed.

(** The server with nothing left to read writes nothing, and ends if the stream does. *)
Lemma gpu_serve_idle garbage fuel s (d : D) : sock_stream s = [] ->
  let '(o, e) := gpu_serve garbage (S fuel) (mkLanGpuEnv s d) in
  fd_written (ge_sock e) = fd_written s /\ ge_device e = d /\ (sock_ends s = true -> o = Ret tt).
Proof.
  intros Hs. cbn [gpu_serve]. unfold gpu_round, bind, zoom. cbn [ge_sock].
  destruct (recv_any 16 s ltac:(lia)) as (o & s1 & Hr & Hrw & _ & Hw). rewrite Hr.
  destruct o as [[ok l]|e| |]; try done; cbn [fst snd].
  - destruct ok; [|by split_and!]. exfalso. pose proof (recv_exact_true 16 s l s1 ltac:(lia) Hr) as Hlen. rewrite Hs in Hlen. by vm_compute in Hlen.
  - split_and!; try done. intros He. destruct (recv_exact_short 16 s) as (l & s2 & Hr2); [lia|by rewrite Hs|done|]. congruence.
Qed.

Lemma gpu_run_grows (garbage : Z) (d : D) calls : forall s p, Forall lan_gpu_call_ok calls -> proxy_ready s p -> sock_sendable s ->
  exists x, proxy_sent (snd (gpu_run calls p)) = fd_written s ++ x.
Proof.
  induction calls as [|c calls IH]; intros s p Hok Hp Hs; cbn [gpu_run].
  - exists []. destruct Hp as (Hsock & _). unfold proxy_sent. cbn. by rewrite Hsock, app_nil_r.
  - apply Forall_cons in Hok as [Hc Hok].
    destruct (gpu_client_step garbage c d s p Hc Hp Hs) as (o & s' & p' & Hcall & Hp' & Hs' & Hw & _). pose proof Hp' as (Hsock & _).
    unfold bind. rewrite Hcall. destruct o as [r|e| |]; try (exists (call_bytes c p); unfold proxy_sent; cbn; by rewrite Hsock).
    destruct (IH s' p' Hok Hp' Hs') as [x Hx]. exists (call_bytes c p ++ x). rewrite app_assoc, <- Hw, <- Hx.
    by destruct (gpu_run calls p') as [[]].
Qed.

Lemma gpu_session_gen garbage calls : forall fuel d sc sf p,
  0 <= garbage < 256 -> Forall lan_gpu_call_ok calls -> proxy_ready sc p -> sock_sendable sc -> sock_sendable sf -> (length calls < fuel)%nat ->
  fd_written sc ++ sock_stream sf = proxy_sent (snd (gpu_run calls p)) ->
  fd_written sf ++ sock_stream sc = fd_written (ge_sock (snd (gpu_serve garbage fuel (mkLanGpuEnv sf d)))) ->
  let '(rs, d', t') := gpu_ref d (g_tracker p) calls in
  fst (gpu_run calls p) = Ret rs /\ g_tracker (snd (gpu_run calls p)) = t' /\
  ge_device (snd (gpu_serve garbage fuel (mkLanGpuEnv sf d))) = d' /\
  (sock_ends sf = true -> fst (gpu_serve garbage fuel (mkLanGpuEnv sf d)) = Ret tt).
Proof.
  induction calls as [|c calls IH]; intros [|fuel] d sc sf p Hg Hok Hp Hsc Hsf Hfuel Hup Hdown; try (cbn in Hfuel; lia).
  - cbn [gpu_run gpu_ref fst snd] in *. destruct Hp as (Hsock & _). unfold proxy_sent in Hup. cbn in Hup. rewrite Hsock in Hup. cbn in Hup.
    rewrite <- (app_nil_r (fd_written sc)) in Hup at 2. apply app_inv_head in Hup.
    pose proof (gpu_serve_idle garbage fuel sf d Hup) as Hidle. destruct (gpu_serve garbage (S fuel) _) as [o e]. by split_and!; try apply Hidle.
  - apply Forall_cons in Hok as [Hc Hok]. pose proof Hp as (Hsock0 & _ & Hseq & Ht).
    destruct (gpu_client_step garbage c d sc p Hc Hp Hsc) as (o & sc' & p' & Hcall & Hp' & Hsc' & Hw & Hgot). pose proof Hp' as (Hsock & _).
    cbn [gpu_run gpu_ref] in *. unfold bind in Hup |- *. rewrite Hcall in Hup |- *.
    assert (Hst : exists rest, sock_stream sf = call_bytes c p ++ rest).
    { destruct o as [r|e| |].
      - destruct (gpu_run_grows garbage d calls sc' p' Hok Hp' Hsc') as [x Hx]. exists x.
        apply (app_inv_head (fd_written sc)). rewrite app_assoc, <- Hw, <- Hx, Hup. by destruct (gpu_run calls p') as [[]].
      - exists []. apply (app_inv_head (fd_written sc)). rewrite app_nil_r, <- Hw, Hup. unfold proxy_sent. cbn. by rewrite Hsock.
      - exists []. apply (app_inv_head (fd_written sc)). rewrite app_nil_r, <- Hw, Hup. unfold proxy_sent. cbn. by rewrite Hsock.
      - exists []. apply (app_inv_head (fd_written sc)). rewrite app_nil_r, <- Hw, Hup. unfold proxy_sent. cbn. by rewrite Hsock. }
    destruct Hst as [rest Hst].
    destruct (gpu_server_step garbage fuel c d p rest sf Hg Hseq Hsf Hst) as (sf' & fuel' & Hserve & Hfuel' & Hst' & Hends' & Hsf' & Hwf).
    rewrite Hserve in Hdown |- *. rewrite (server_call_spec garbage d c p Hc Ht) in *.
    destruct (gpu_serve_grows garbage fuel' (mkLanGpuEnv sf' (snd (fst (gpu_ref_step d (g_tracker p) c))))) as [y Hy]. cbn [ge_sock] in Hy.
    rewrite Hy, Hwf, <- app_assoc in Hdown. apply app_inv_head in Hdown. specialize (Hgot _ Hdown).
    destruct (gpu_ref_step d (g_tracker p) c) as [[r d'] t'] eqn:Espec. cbn [fst snd] in *. destruct Hgot as (-> & Ht' & Hrest).
    specialize (IH fuel' d' sc' sf' p' Hg Hok Hp' Hsc' Hsf' ltac:(cbn in Hfuel; lia)). rewrite Ht' in IH.
    destruct (gpu_ref d' t' calls) as [[rs d2] t2]. destruct IH as (IH1 & IH2 & IH3 & IH4).
    + rewrite Hw, Hst', <- app_assoc, <- Hst, Hup. by destruct (gpu_run calls p') as [[]].
    + by rewrite Hrest, Hy.
    + destruct (gpu_run calls p') as [o2 p3]. cbn in IH1, IH2. subst o2. split_and!; try done. by rewrite <- Hends'.
Qed.

End Sessions.

(** ** Properties *)

Section Properties.
Context {D : Type} `{CudaRuntimeTypes D}.

(** C24: A session with the proxy is a session with the server's runtime, up to what
    the protocol loses.  For any sequence of allocations, frees, synchronisations and
    uploads, over streams that agree and however they are cut, the server's device
    ends as [runtime_run] leaves it: each call made on it with the server's address for
    the name the program used.  Each call returns what the runtime answered, except
    that every error arrives as 1, and that a pointer that is no allocation's start,
    such as one into the middle of a buffer, is refused with 1 and never sent; the
    tracker ends with the names of what is allocated.  The names are 4096 apart
    whatever the sizes, so the start of one can be inside the buffer of another
    ([tracker_names_overlap]).  An upload is a copy the server makes from the client's
    address in its own memory: the program's bytes are no part of it.  Copies back are
    not among the calls; they fail ([gpu_readback_fails]).  Conditions: the proxy is
    connected, sends do not fail, arguments are 64-bit values, and fewer than 2^50
    names are given out. *)
Theorem gpu_session garbage fuel calls n sc sf p :
  0 <= garbage < 256 -> Forall lan_gpu_call_ok calls -> proxy_ready sc p -> sock_sendable sc -> sock_sendable sf -> (length calls < fuel)%nat ->
  fd_written sc = [] -> fd_written sf = [] -> names_match (g_tracker p) n -> nd_count n + zlen calls <= 2 ^ 50 ->
  sock_stream sf = proxy_sent (snd (gpu_run calls p)) ->
  sock_stream sc = fd_written (ge_sock (snd (gpu_serve garbage fuel (mkLanGpuEnv sf (nd_device n))))) ->
  let '(answers, n') := runtime_run n calls in
  fst (gpu_run calls p) = Ret (seen <$> answers) /\ names_match (g_tracker (snd (gpu_run calls p))) n' /\
  ge_device (snd (gpu_serve garbage fuel (mkLanGpuEnv sf (nd_device n)))) = nd_device n' /\
  (sock_ends sf = true -> fst (gpu_serve garbage fuel (mkLanGpuEnv sf (nd_device n))) = Ret tt).
Proof.
  intros Hg Hok Hp Hsc Hsf Hf Hwc Hws Hn Hlt Hup Hdown.
  pose proof (gpu_session_gen garbage calls fuel (nd_device n) sc sf p Hg Hok Hp Hsc Hsf Hf) as Hs. rewrite Hwc, Hws in Hs.
  specialize (Hs Hup Hdown). pose proof (gpu_ref_run_named calls (g_tracker p) n Hn Hlt) as Hr.
  destruct (gpu_ref (nd_device n) (g_tracker p) calls) as [[rs d'] t'], (runtime_run n calls) as [answers n'].
  destruct Hr as (-> & -> & Ht'), Hs as (-> & -> & -> & Hend). done.
Qed.

(** A copy back from the device never succeeds: the server answers with a header
    and sends no data, after a copy whose source and destination are exchanged, and
    the client, which waits for [count] bytes, fails when the server closes and waits
    for ever when it does not. *)
Theorem gpu_readback_fails garbage fuel d sc sf p conn dst src count remote :
  0 <= garbage < 256 -> proxy_ready sc p -> sock_sendable sc -> sock_sendable sf -> is_u64 dst -> 0 < count < 2 ^ 31 ->
  dt_get_remote src (g_tracker p) = Some remote -> fd_written sc = [] -> fd_written sf = [] ->
  sock_stream sf = proxy_sent (snd (cudaMemcpy conn dst src count 2 p)) ->
  sock_stream sc = fd_written (ge_sock (snd (gpu_serve garbage (S (S fuel)) (mkLanGpuEnv sf d)))) ->
  (forall out, fst (cudaMemcpy conn dst src count 2 p) <> Ret (0, out)) /\
  (fst (cuda_memcpy d false remote dst count) = 0 -> sock_ends sc = false -> fst (cudaMemcpy conn dst src count 2 p) = NoFuel) /\
  ge_device (snd (gpu_serve garbage (S (S fuel)) (mkLanGpuEnv sf d))) = snd (cuda_memcpy d false remote dst count).
Proof.
  intros Hg (Hsock & Hi & Hseq & Ht) Hsc Hsf Hdst Hcount Hr Hwc Hws. pose proof (tracker_remote _ _ _ Ht Hr) as Hru.
  set (req := memcpy_req_bytes remote dst count 1).
  destruct (send_gpu_cmd_run GPU_CMD_MEMCPY_D2H GPU_FLAG_NONE req 16 sc p) as (o & s' & Hcmd & Hs' & Hw & Hrw & Hgot); try done.
  assert (Hrun : cudaMemcpy conn dst src count 2 p =
    bind (send_gpu_cmd GPU_CMD_MEMCPY_D2H GPU_FLAG_NONE req 16) (fun r => if negb (fst r) then ret (1, []) else
      let! r := on_gpu_socket (recv_exact count) in if negb (fst r) then ret (1, snd r) else ret (0, snd r)) p).
  { unfold cudaMemcpy, not_ready, bind, get, ret. rewrite Hi. change (2 =? 1) with false. change (2 =? 2) with true. cbv zeta iota. rewrite Hr.
    cbn [fmap option_fmap option_map]. fold req. rewrite Hcmd. destruct o as [[[] l]|e| |]; try done. }
  unfold bind at 1 in Hrun. rewrite Hcmd in Hrun. rewrite Hrun. clear Hrun.
  assert (Hans : lan_gpu_answer garbage d GPU_CMD_MEMCPY_D2H req =
    let '(err, d') := cuda_memcpy d false remote dst count in (if err =? 0 then GPU_RESP_MEMCPY_D2H else GPU_RESP_ERROR, [], d')).
  { unfold lan_gpu_answer, req, memcpy_req_bytes. decide_opcodes. change (zlen _ <? 32) with false. cbn iota.
    rewrite field64_first, (field64_next 8), !(field64_next 16) by done. change (16 - 8) with 8. change (8 - 8) with 0.
    rewrite (field64_next 8) by done. change (8 - 8) with 0. rewrite !field64_first by (done || unfold is_u64, U64 in *; lia). done. }
  destruct (cuda_memcpy d false remote dst count) as [err d'].
  intros Hup Hdown. assert (Hsent : sock_stream sf = lan_gpu_frame GPU_CMD_MEMCPY_D2H GPU_FLAG_NONE (g_sequence_id p) req ++ []).
  { rewrite Hup, app_nil_r. transitivity (fd_written s'); [|by rewrite Hw, Hwc].
    destruct o as [[[] l]|e| |]; try done. cbn [fst negb]. unfold on_gpu_socket, bind, get, put. cbn [next_seq g_gpu_socket].
    destruct (recv_any count s' ltac:(lia)) as (o2 & s2 & -> & _ & _ & Hw2). destruct o2 as [[[] l2]|e| |]; exact Hw2. }
  pose proof (gpu_round_run garbage GPU_CMD_MEMCPY_D2H GPU_FLAG_NONE (g_sequence_id p) req [] sf d Hg ltac:(done) ltac:(done) Hseq ltac:(done) Hsf Hsent) as Hround.
  rewrite Hans in Hround. destruct Hround as (sf' & Hround & Hst' & _ & _ & Hwf).
  assert (Hserve : gpu_serve garbage (S (S fuel)) (mkLanGpuEnv sf d) = gpu_serve garbage (S fuel) (mkLanGpuEnv sf' d'))
    by (cbn [gpu_serve]; unfold bind at 1; by rewrite Hround).
  pose proof (gpu_serve_idle garbage fuel sf' d' Hst') as Hidle. rewrite Hserve in Hdown |- *.
  destruct (gpu_serve garbage (S fuel) (mkLanGpuEnv sf' d')) as [o3 e3]. destruct Hidle as (Hw3 & Hd3 & _). cbn [fst snd] in *.
  rewrite Hw3, Hwf, Hws in Hdown. cbn [app] in Hdown.
  destruct (Hgot (if err =? 0 then GPU_RESP_MEMCPY_D2H else GPU_RESP_ERROR) [] []) as (-> & Hrest & Hends); try done;
    [by destruct (err =? 0)|].
  destruct (Z.eqb_spec err 0) as [He|He]; cbn [fst snd negb] in *; [|by split_and!].
  change (GPU_RESP_MEMCPY_D2H =? GPU_RESP_ERROR) with false. cbn [fst negb]. unfold on_gpu_socket, bind, get, put, ret. cbn [next_seq g_gpu_socket].
  destruct (recv_any count s' ltac:(lia)) as (o2 & s2 & Hr2 & Hrw2 & _). rewrite Hr2.
  assert (Ho2 : forall l, o2 <> Ret (true, l)).
  { intros l ->. pose proof (recv_exact_true count s' l s2 ltac:(lia) Hr2) as Hl. rewrite Hrest in Hl. unfold zlen in Hl. cbn in Hl. lia. }
  split_and!; [| |done].
  - destruct o2 as [[[] l2]|e| |]; try done. by intros ? _; apply (Ho2 l2).
  - intros _ Hnot. rewrite <- Hends in Hnot. pose proof (recv_exact_waits count s' ltac:(rewrite Hrest; done || (change (zlen (@nil byte)) with 0; lia)) Hnot) as Hwait.
    rewrite Hr2 in Hwait. cbn in Hwait. by subst o2.
Qed.

(** The proxy connects once: if that fails, every later call fails without
    another attempt, until [ShutdownProxy]. *)
Theorem proxy_connects_once size dst src count kind ptr conn p :
  fst conn = false \/ snd conn = None -> g_initialized p = false -> g_gpu_socket p = None ->
  let p' := snd (cudaMalloc conn size p) in
  fst (cudaMalloc conn size p) = Ret (1, None) /\
  forall conn', fst (cudaMalloc conn' size p') = Ret (1, None) /\ fst (cudaMemcpy conn' dst src count kind p') = Ret (1, []) /\
    fst (cudaFree ptr p') = Ret 1 /\ fst (cudaDeviceSynchronize p') = Ret 1 /\
    snd (cudaMalloc conn' size p') = p' /\ g_initialized (snd (ShutdownProxy p')) = false.
Proof.
  destruct p as [so seq ini t], conn as [ws c]. cbn [fst snd g_initialized g_gpu_socket]. intros Hc -> ->. cbv zeta.
  assert (Hp : cudaMalloc (ws, c) size (mkProxy None seq false t) = (Ret (1, None), mkProxy None seq true t)).
  { destruct ws; [|done]. destruct c as [c|]; [|done]. by destruct Hc. }
  rewrite Hp. cbn [fst snd]. split; [done|]. intros conn'. split; [done|]. split.
  - unfold cudaMemcpy, not_ready, bind, get, ret. cbn [g_initialized g_tracker]. destruct (kind =? 1); [by destruct (dt_get_remote dst t)|].
    destruct (kind =? 2); [by destruct (dt_get_remote src t)|done].
  - split; [|done]. unfold cudaFree, bind, get. cbn [g_initialized g_tracker negb]. by destruct (dt_get_remote ptr t).
Qed.

End Properties.

(** Names of device memory are 4096 apart whatever the sizes: a name is fresh,
    and the pages after the first of a longer buffer are the names of the next
    allocations, so a pointer into the buffer is taken for another's start. *)
Theorem tracker_names_overlap t r1 n1 r2 n2 :
  dt_next t mod 4096 = 0 -> 0 <= dt_next t < 2 ^ 63 ->
  (forall p, p ∈ dom (dt_map t) -> p < dt_next t) ->
  let '(t1, p1) := dt_allocate r1 n1 t in
  let '(t2, p2) := dt_allocate r2 n2 t1 in
  dt_get_remote p1 t = None /\ dt_get_remote p1 t2 = Some r1 /\ dt_get_remote p2 t2 = Some r2 /\
  p2 = p1 + 4096 /\ (4096 < n1 -> exists off, 0 < off < n1 /\ dt_get_remote (p1 + off) t2 = Some r2).
Proof.
  destruct t as [m next]. cbn [dt_next dt_map]. intros Hmod Hnext Hdom.
  unfold dt_allocate. cbn [dt_next dt_map]. rewrite (dt_align next) by lia.
  assert (Hnext1 : u64 (next + 4096) = next + 4096) by (unfold u64, U64; apply Z.mod_small; lia). rewrite Hnext1.
  rewrite (dt_align (next + 4096)) by (lia || (rewrite Z.add_mod, Hmod by done; done)).
  unfold dt_get_remote. cbn [dt_map]. split_and!.
  - assert (Hno : m !! next = None) by (apply not_elem_of_dom; intros Hin; specialize (Hdom _ Hin); lia). by rewrite Hno.
  - rewrite lookup_insert_ne by lia. by rewrite lookup_insert_eq.
  - by rewrite lookup_insert_eq.
  - done.
  - intros Hn. exists 4096. split; [lia|]. by rewrite lookup_insert_eq.
Qed.

(** *** Witnesses *)

(** A runtime that gives out addresses from a counter and logs the copies. *)
Definition DemoDevice : Type := Z * list (bool * Z * Z * Z).

#[export] Instance demo_runtime : CudaRuntime DemoDevice := {
  cuda_malloc d n := (if n =? 0 then 1 else 0, u64 (fst d), (fst d + n, snd d));
  cuda_memcpy d h2d dst src n := (0, (fst d, (h2d, dst, src, n) :: snd d));
  cuda_synchronize d := (0, d);
  cuda_free d p := (if p =? 0 then 1 else 0, d)
}.

#[export] Instance demo_runtime_types : CudaRuntimeTypes DemoDevice.
Proof. split. intros d n err p d' [= _ <- _]. apply u64_range. Defined.

Definition demo_device : DemoDevice := (0xb00000, []).
Definition demo_name : Z := 0x10000000000.
Definition demo_gpu_calls : list GpuCall :=
  [CallMalloc 10000; CallMalloc 16; CallUpload (demo_name + 4096) 0x5000 8; CallMalloc 0; CallSync; CallFree demo_name; CallFree 12].

(** The proxy on a given socket. *)
Definition demo_proxy (s : Fd) : Proxy := mkProxy (Some s) 1 true DevicePointerTracker_new.
Definition demo_quiet : Fd := mkFd [] [] [].

(** What the parties write, found by running one on enough of the other. *)
Definition demo_replies : list byte :=
  lan_gpu_frame GPU_RESP_MALLOC_RESULT 0 1 (malloc_resp_bytes 0xb00000 0) ++ lan_gpu_frame GPU_RESP_MALLOC_RESULT 0 2 (malloc_resp_bytes 0xb02710 0) ++
  lan_gpu_frame GPU_RESP_SUCCESS 0 3 [] ++ lan_gpu_frame GPU_RESP_ERROR 0 4 [] ++ lan_gpu_frame GPU_RESP_SUCCESS 0 5 [] ++ lan_gpu_frame GPU_RESP_SUCCESS 0 6 [].
Definition demo_gpu_client : Fd := mkFd [InBytes (take 5 demo_replies); InBytes (drop 5 demo_replies)] [OutTake 1] [].
Definition demo_commands : list byte := proxy_sent (snd (gpu_run demo_gpu_calls (demo_proxy demo_gpu_client))).
Definition demo_gpu_server : Fd := mkFd [InBytes demo_commands; InBytes []] [OutTake 7] [].

Lemma demo_proxy_ready s : proxy_ready s (demo_proxy s).
Proof. split_and!; done || apply map_Forall_empty. Defined.

Lemma gpu_session_witness :
  fst (gpu_run demo_gpu_calls (demo_proxy demo_gpu_client)) =
    Ret [(0, Some demo_name); (0, Some (demo_name + 4096)); (0, None); (1, None); (0, None); (0, None); (1, None)].
Proof.
  pose proof (gpu_session 0 8 demo_gpu_calls (mkNamed demo_device ∅ 0) demo_gpu_client demo_gpu_server (demo_proxy demo_gpu_client)) as H.
  destruct (runtime_run (mkNamed demo_device ∅ 0) demo_gpu_calls) as [answers n'] eqn:E.
  vm_compute in E. injection E as <- <-. apply H.
  - done.
  - repeat constructor; by vm_compute.
  - apply demo_proxy_ready.
  - repeat constructor; by vm_compute.
  - repeat constructor; by vm_compute.
  - cbn. lia.
  - done.
  - done.
  - by split.
  - by vm_compute.
  - by vm_compute.
  - by vm_compute.
Defined.

(** A copy back into 8 bytes: the streams once the header has been answered. *)
Definition demo_named : Proxy := mkProxy None 3 true (fst (dt_allocate 0xb00000 16 DevicePointerTracker_new)).
Definition demo_back_client : Fd := mkFd [InBytes (lan_gpu_frame GPU_RESP_MEMCPY_D2H 0 3 [])] [] [].
Definition demo_back_server : Fd :=
  mkFd [InBytes (lan_gpu_frame GPU_CMD_MEMCPY_D2H GPU_FLAG_NONE 3 (memcpy_req_bytes 0xb00000 0x5000 8 1))] [] [].

Lemma gpu_readback_fails_witness :
  fst (cudaMemcpy (false, None) 0x5000 demo_name 8 2 (set_gpu_socket (Some demo_back_client) demo_named)) = NoFuel.
Proof.
  refine (proj1 (proj2 (gpu_readback_fails 0 1 demo_device demo_back_client demo_back_server
    (set_gpu_socket (Some demo_back_client) demo_named) (false, None) 0x5000 demo_name 8 0xb00000 _ _ _ _ _ _ _ _ _ _ _)) _ _).
  - done.
  - split_and!; try done. apply map_Forall_insert_2; [done|apply map_Forall_empty].
  - by repeat constructor.
  - by repeat constructor.
  - done.
  - done.
  - by vm_compute.
  - done.
  - done.
  - by vm_compute.
  - by vm_compute.
  - done.
  - by vm_compute.
Defined.

Lemma proxy_connects_once_witness : fst (cudaMalloc (true, Some demo_quiet) 64 (snd (cudaMalloc (true, None) 64 Proxy_new))) = Ret (1, None).
Proof. exact (proj1 (proj2 (proxy_connects_once 64 0 0 0 1 0 (true, None) Proxy_new (or_intror eq_refl) eq_refl eq_refl) (true, Some demo_quiet))). Defined.

Lemma tracker_names_overlap_witness :
  let '(t1, p1) := dt_allocate 0xb00000 10000 DevicePointerTracker_new in
  let '(t2, _) := dt_allocate 0xb02710 16 t1 in
  exists off, 0 < off < 10000 /\ dt_get_remote (p1 + off) t2 = Some 0xb02710.
Proof.
  assert (Hd : forall p, p ∈ dom (dt_map DevicePointerTracker_new) -> p < dt_next DevicePointerTracker_new).
  { intros p Hp. apply elem_of_dom in Hp as [e He]. cbn in He. by rewrite lookup_empty in He. }
  assert (Hn : 0 <= dt_next DevicePointerTracker_new < 2 ^ 63) by by vm_compute.
  pose proof (tracker_names_overlap DevicePointerTracker_new 0xb00000 10000 0xb02710 16 eq_refl Hn Hd) as H.
  destruct (dt_allocate 0xb00000 10000 DevicePointerTracker_new) as [t1 p1], (dt_allocate 0xb02710 16 t1) as [t2 p2].
  apply H. lia.
Defined.
