(* ===== verification/Launcher.v ===== *)
(** * The launcher of the hook

    [hook/meminfo_launch.cpp]: it turns its options into environment variables and
    starts the target with the hook loaded; the hook of the new process reads them
    back ([Hook.load_config]).  The target's arguments travel in one command line,
    which the C runtime of the target splits again by Microsoft's documented rules. *)

From Stdlib.Strings Require Import Ascii String.
From stdpp Require Import functions.
From S2P Require Import Prelude Hook.

(** ** Options *)

(** The options that take a value. *)
Inductive LaunchOpt :=
| OptTarget | OptDll | OptMode | OptPeer | OptPort | OptSocket | OptThreshold | OptHeapSize | OptBudget | OptPage | OptLog.

#[export] Instance LaunchOpt_eq_dec : EqDecision LaunchOpt.
Proof. solve_decision. Defined.

(** The local variables of [main]. *)
Record LaunchOptions := mkLaunchOptions {
  opt_value : LaunchOpt -> string;
  set_gslice : bool;
  target_args : list string
}.

Definition default_options : LaunchOptions := mkLaunchOptions (<[OptMode := "log"%string]> (fun _ => ""%string)) true [].

Definition opt_of (arg : string) : option LaunchOpt :=
  if bool_decide (arg = "--target") then Some OptTarget
  else if bool_decide (arg = "--dll") then Some OptDll
  else if bool_decide (arg = "--mode") then Some OptMode
  else if bool_decide (arg = "--peer") then Some OptPeer
  else if bool_decide (arg = "--port") then Some OptPort
  else if bool_decide (arg = "--socket") then Some OptSocket
  else if bool_decide (arg = "--threshold") then Some OptThreshold
  else if bool_decide (arg = "--heap-size") then Some OptHeapSize
  else if bool_decide (arg = "--budget") then Some OptBudget
  else if bool_decide (arg = "--page") then Some OptPage
  else if bool_decide (arg = "--log") then Some OptLog
  else None.

Definition set_opt (k : LaunchOpt) (v : string) (o : LaunchOptions) : LaunchOptions :=
  mkLaunchOptions (<[k := v]> (opt_value o)) (set_gslice o) (target_args o).

(** The loop over [argv]: the options, or the code to exit with. *)
Fixpoint parse_args (argv : list string) (o : LaunchOptions) : LaunchOptions + Z :=
  match argv with
  | [] => inl o
  | arg :: argv =>
      match opt_of arg with
      | Some k => match argv with [] => inl o | v :: argv => parse_args argv (set_opt k v o) end
      | None =>
          if bool_decide (arg = "--no-gslice"%string) then parse_args argv (mkLaunchOptions (opt_value o) false (target_args o))
          else if bool_decide (arg = "--help"%string) || bool_decide (arg = "-h"%string) then inr 0
          else if bool_decide (arg = "--"%string) then inl (mkLaunchOptions (opt_value o) (set_gslice o) (target_args o ++ argv))
          else inr 2
      end
  end.

(** ** The environment and the command line *)

Definition environ : Type := string -> option string.

Definition SetEnvironmentVariableA (name value : string) (env : environ) : environ := <[name := Some value]> env.

Definition set_env (name value : string) (env : environ) : environ :=
  if bool_decide (value = ""%string) then env else SetEnvironmentVariableA name value env.

Definition child_env (o : LaunchOptions) (env : environ) : environ :=
  let env := set_env "MEMINFO_HOOK_MODE" (opt_value o OptMode) env in
  let env := set_env "MEMINFO_PEER" (opt_value o OptPeer) env in
  let env := set_env "MEMINFO_PORT" (opt_value o OptPort) env in
  let env := set_env "MEMINFO_SOCKET" (opt_value o OptSocket) env in
  let env := set_env "MEMINFO_THRESHOLD" (opt_value o OptThreshold) env in
  let env := set_env "MEMINFO_HEAP_SIZE" (opt_value o OptHeapSize) env in
  let env := set_env "MEMINFO_BUDGET" (opt_value o OptBudget) env in
  let env := set_env "MEMINFO_PAGE" (opt_value o OptPage) env in
  let env := set_env "MEMINFO_LOG" (opt_value o OptLog) env in
  if set_gslice o then SetEnvironmentVariableA "G_SLICE" "always-malloc" env else env.

Definition dquote : ascii := ascii_of_nat 34.
Definition backslash : ascii := ascii_of_nat 92.
Definition blank : ascii := ascii_of_nat 32.

Definition quoted (arg : string) : list ascii := [dquote] ++ list_ascii_of_string arg ++ [dquote].

Definition command_line (target : string) (args : list string) : list ascii :=
  quoted target ++ concat ((fun a => [blank] ++ quoted a) <$> args).

(** What [module_directory] makes of the path of the launcher, and the DLL. *)
Definition find_last_slash (path : list ascii) : option nat :=
  fst <$> list_find (fun c => c = backslash \/ c = ascii_of_nat 47) (rev path).

Definition module_directory (path : option string) : string :=
  match path with
  | None => "."
  | Some path =>
      let full := list_ascii_of_string path in
      match find_last_slash full with
      | None => "."
      | Some back => string_of_list_ascii (take (length full - S back) full)
      end
  end.

Definition dll_path_of (path : option string) (o : LaunchOptions) : string :=
  let dll := opt_value o OptDll in
  if bool_decide (dll = ""%string) then (module_directory path ++ String backslash "meminfo_hook.dll")%string else dll.

(** The process [main] asks for. *)
Record Spawn := mkSpawn { sp_target : string; sp_command_line : list ascii; sp_env : environ; sp_dll : string }.

(** [main]: [path] is what GetModuleFileNameA gives, [dll_found] whether the file is
    there, [run] whether the process starts and what it exits with. *)
Definition launch_main (path : option string) (dll_found : string -> bool) (run : Spawn -> option Z) (argv : list string) (env : environ)
  : Z * option Spawn :=
  match parse_args argv default_options with
  | inr code => (code, None)
  | inl o =>
      let target := opt_value o OptTarget in
      if bool_decide (target = ""%string) then (2, None)
      else
        let dll := dll_path_of path o in
        if negb (dll_found dll) then (1, None)
        else
          let sp := mkSpawn target (command_line target (target_args o)) (child_env o env) dll in
          match run sp with
          | None => (1, Some sp)
          | Some exit_code => (to_int exit_code, Some sp)
          end
  end.

(** ** What the target sees *)

(** The C runtime's documented rules for [argv]: blanks separate arguments except
    inside quotes; backslashes are literal unless a quote follows, when each pair is
    one backslash and an odd one makes the quote literal; two quotes inside a quoted
    part are one.  [bs] backslashes have been read and not yet added to [cur]. *)
Definition is_blank (c : ascii) : bool := bool_decide (c = blank) || bool_decide (c = ascii_of_nat 9).

Fixpoint split_args (l : list ascii) (in_arg in_quotes : bool) (bs : nat) (cur : list ascii) : list (list ascii) :=
  match l with
  | [] => if in_arg then [cur ++ replicate bs backslash] else []
  | c :: l' =>
      if bool_decide (c = backslash) then split_args l' true in_quotes (S bs) cur
      else if bool_decide (c = dquote) then
        let cur := cur ++ replicate (Nat.div2 bs) backslash in
        if Nat.odd bs then split_args l' true in_quotes 0 (cur ++ [dquote])
        else
          match l' with
          | c2 :: l2 =>
              if in_quotes && bool_decide (c2 = dquote) then split_args l2 true true 0 (cur ++ [dquote])
              else split_args l' true (negb in_quotes) 0 cur
          | [] => split_args l' true (negb in_quotes) 0 cur
          end
      else
        let cur := cur ++ replicate bs backslash in
        if is_blank c && negb in_quotes then (if in_arg then [cur] else []) ++ split_args l' false false 0 []
        else split_args l' true in_quotes 0 (cur ++ [c])
  end.

(** The name of the program comes first and knows no backslashes. *)
Fixpoint split_program (l : list ascii) (in_quotes : bool) (cur : list ascii) : list (list ascii) :=
  match l with
  | [] => [cur]
  | c :: l =>
      if bool_decide (c = dquote) then split_program l (negb in_quotes) cur
      else if is_blank c && negb in_quotes then cur :: split_args l false false 0 []
      else split_program l in_quotes (cur ++ [c])
  end.

Definition crt_argv (line : list ascii) : list string := string_of_list_ascii <$> split_program line false [].

(** Arguments without quotes; and those that do not end in a backslash either. *)
Definition no_quote (a : string) : Prop := dquote ∉ list_ascii_of_string a.
Definition plain (a : string) : Prop := no_quote a /\ last (list_ascii_of_string a) <> Some backslash.

(** Inside quotes everything up to the next quote is taken as it is; backslashes wait. *)
Fixpoint inside (l : list ascii) (bs : nat) (cur : list ascii) : nat * list ascii :=
  match l with
  | [] => (bs, cur)
  | c :: l =>
      if bool_decide (c = backslash) then inside l (S bs) cur
      else inside l 0 ((cur ++ replicate bs backslash) ++ [c])
  end.

Lemma split_inside l : forall rest bs cur, dquote ∉ l ->
  split_args (l ++ rest) true true bs cur = split_args rest true true (fst (inside l bs cur)) (snd (inside l bs cur)).
Proof.
  induction l as [|c l IH]; intros rest bs cur Hq; [done|]. apply not_elem_of_cons in Hq as [Hc Hq].
  cbn [app split_args inside]. case_bool_decide; [by apply IH|]. rewrite (bool_decide_eq_false_2 (c = dquote)) by done.
  cbv zeta. rewrite andb_false_r. by apply IH.
Qed.

Lemma inside_chars l : forall bs cur,
  snd (inside l bs cur) ++ replicate (fst (inside l bs cur)) backslash = cur ++ replicate bs backslash ++ l.
Proof.
  induction l as [|c l IH]; intros bs cur; cbn [inside fst snd]; [by rewrite app_nil_r|]. case_bool_decide as Hb.
  - rewrite IH, Hb. f_equal. rewrite replicate_S_end, <- app_assoc. done.
  - rewrite IH. cbn. by rewrite <- !app_assoc.
Qed.

(** After it, only a final backslash is still waiting. *)
Lemma inside_pending l bs cur : fst (inside l bs cur) = 0%nat <-> (l = [] /\ bs = 0%nat) \/ (l <> [] /\ last l <> Some backslash).
Proof.
  revert bs cur. induction l as [|c l IH]; intros bs cur; cbn [inside fst]; [naive_solver|].
  destruct l as [|c2 l].
  - case_bool_decide as Hb; cbn; naive_solver.
  - change (last (c :: c2 :: l)) with (last (c2 :: l)). case_bool_decide as Hb; rewrite IH; naive_solver.
Qed.

(** A quoted plain argument. *)
Lemma split_quoted a rest : plain a -> (forall c l, rest = c :: l -> is_blank c = true) ->
  split_args (quoted a ++ rest) false false 0 [] = list_ascii_of_string a :: split_args rest false false 0 [].
Proof.
  intros [Hq Hl] Hrest. unfold quoted. set (l := list_ascii_of_string a) in *.
  assert (Hopen : split_args (([dquote] ++ l ++ [dquote]) ++ rest) false false 0 [] = split_args (l ++ dquote :: rest) true true 0 []).
  { rewrite <- !app_assoc. cbn. by destruct (l ++ dquote :: rest). }
  rewrite Hopen, (split_inside l) by done. pose proof (inside_chars l 0 []) as Hchars.
  assert (Hz : fst (inside l 0 []) = 0%nat) by (apply inside_pending; destruct l; [by left|by right]).
  rewrite Hz in Hchars |- *. cbn [replicate app] in Hchars. rewrite app_nil_r in Hchars. rewrite Hchars.
  destruct rest as [|c rest]; [cbn; by rewrite !app_nil_r|]. specialize (Hrest c rest eq_refl).
  assert (Hcq : c <> dquote) by (intros ->; by vm_compute in Hrest). assert (Hcb : c <> backslash) by (intros ->; by vm_compute in Hrest).
  cbn [split_args]. rewrite (bool_decide_eq_false_2 (dquote = backslash)) by done. rewrite (bool_decide_eq_true_2 (dquote = dquote)) by done.
  cbn [Nat.div2 Nat.odd Nat.even negb replicate andb]. rewrite (bool_decide_eq_false_2 (c = dquote)), (bool_decide_eq_false_2 (c = backslash)) by done.
  rewrite Hrest. cbn [andb negb app replicate]. by rewrite !app_nil_r.
Qed.

Lemma split_tail args : Forall plain args ->
  split_args (concat ((fun a => [blank] ++ quoted a) <$> args)) false false 0 [] = list_ascii_of_string <$> args.
Proof.
  induction 1 as [|a args Ha _ IH]; [done|]. cbn [fmap list_fmap concat]. rewrite <- app_assoc. cbn [app].
  transitivity (split_args (quoted a ++ concat ((fun a => [blank] ++ quoted a) <$> args)) false false 0 []); [done|].
  rewrite split_quoted; [by rewrite IH|done|]. intros c l. destruct args; cbn; [done|]. intros [= <- _]. by vm_compute.
Qed.

Lemma split_program_name target rest : no_quote target -> (forall c l, rest = c :: l -> is_blank c = true) ->
  split_program (quoted target ++ rest) false [] = list_ascii_of_string target :: split_args rest false false 0 [].
Proof.
  intros Hq Hrest. unfold quoted, no_quote in *. set (l := list_ascii_of_string target) in *.
  assert (Hin : forall cur, split_program (l ++ dquote :: rest) true cur = split_program rest false (cur ++ l)).
  { clearbody l. induction l as [|c l IH]; intros cur; [by rewrite app_nil_r|]. apply not_elem_of_cons in Hq as [Hc Hq].
    cbn [app split_program]. rewrite (bool_decide_eq_false_2 (c = dquote)) by done. rewrite andb_false_r, (IH Hq). by rewrite <- app_assoc. }
  rewrite <- !app_assoc. cbn [app split_program]. rewrite (bool_decide_eq_true_2 (dquote = dquote)) by done. cbn [negb]. rewrite Hin. cbn [app].
  destruct rest as [|c rest]; [done|]. specialize (Hrest c rest eq_refl). cbn [split_program].
  rewrite bool_decide_eq_false_2 by (intros ->; by vm_compute in Hrest). rewrite Hrest. cbn [andb negb].
  assert (Hcb : c <> backslash) by (intros ->; by vm_compute in Hrest). assert (Hcq : c <> dquote) by (intros ->; by vm_compute in Hrest).
  cbn [split_args]. rewrite (bool_decide_eq_false_2 (c = dquote)), (bool_decide_eq_false_2 (c = backslash)) by done. rewrite Hrest. done.
Qed.

Lemma no_quote_rest (args : list string) c l : concat ((fun a => [blank] ++ quoted a) <$> args) = c :: l -> is_blank c = true.
Proof. destruct args; [done|]. cbn. intros [= <- _]. by vm_compute. Qed.

Lemma strings_again (l : list string) : string_of_list_ascii <$> (list_ascii_of_string <$> l) = l.
Proof. induction l as [|a l IH]; [done|]. cbn. by rewrite string_of_list_ascii_of_string, IH. Qed.

Lemma split_command_line target args : no_quote target -> Forall plain args -> crt_argv (command_line target args) = target :: args.
Proof.
  intros Ht Ha. unfold crt_argv, command_line. rewrite split_program_name; [|done|apply no_quote_rest].
  rewrite split_tail by done. exact (strings_again (target :: args)).
Qed.

(** What has been read of an argument stays. *)
Lemma split_prefix n : forall l q bs cur, (length l <= n)%nat -> exists y rest, split_args l true q bs cur = (cur ++ y) :: rest.
Proof.
  assert (Hend : forall q bs cur, exists y rest, split_args [] true q bs cur = (cur ++ y) :: rest) by (intros q bs cur; by exists (replicate bs backslash), []).
  induction n as [|n IH]; intros [|c l] q bs cur Hn; [apply Hend|cbn in Hn; lia|apply Hend|]. cbn [length] in Hn.
  cbn [split_args]. case_bool_decide; [apply IH; lia|]. case_bool_decide.
  - assert (Hgo : forall l q extra, (length l <= n)%nat -> exists y rest,
      split_args l true q 0 ((cur ++ replicate (Nat.div2 bs) backslash) ++ extra) = (cur ++ y) :: rest).
    { intros l0 q0 extra Hl0. destruct (IH l0 q0 0%nat ((cur ++ replicate (Nat.div2 bs) backslash) ++ extra) Hl0) as (y & rest & ->).
      exists (replicate (Nat.div2 bs) backslash ++ extra ++ y), rest. by rewrite <- !app_assoc. }
    cbv zeta. destruct (Nat.odd bs); [apply Hgo; lia|]. destruct l as [|c2 l].
    + destruct (Hgo [] (negb q) []) as (y & rest & Hy); [cbn; lia|]. rewrite app_nil_r in Hy. by exists y, rest.
    + destruct (q && bool_decide (c2 = dquote)); [apply Hgo; cbn in Hn |- *; lia|].
      destruct (Hgo (c2 :: l) (negb q) []) as (y & rest & Hy); [cbn in Hn |- *; lia|]. rewrite app_nil_r in Hy. by exists y, rest.
  - cbv zeta. destruct (is_blank c && negb q); [by exists (replicate bs backslash), (split_args l false false 0 [])|].
    destruct (IH l q 0%nat ((cur ++ replicate bs backslash) ++ [c]) ltac:(lia)) as (y & rest & ->).
    exists (replicate bs backslash ++ [c] ++ y), rest. by rewrite <- !app_assoc.
Qed.

(** *** Options *)

Definition opt_name (k : LaunchOpt) : string :=
  match k with
  | OptTarget => "--target" | OptDll => "--dll" | OptMode => "--mode" | OptPeer => "--peer" | OptPort => "--port"
  | OptSocket => "--socket" | OptThreshold => "--threshold" | OptHeapSize => "--heap-size" | OptBudget => "--budget"
  | OptPage => "--page" | OptLog => "--log"
  end.

(** The last value given to an option. *)
Fixpoint last_value (opts : list (LaunchOpt * string)) (k : LaunchOpt) (v : string) : string :=
  match opts with
  | [] => v
  | (k', v') :: opts => last_value opts k (if bool_decide (k' = k) then v' else v)
  end.

Definition option_value (opts : list (LaunchOpt * string)) (k : LaunchOpt) : string := last_value opts k (opt_value default_options k).

Definition option_argv (opts : list (LaunchOpt * string)) : list string := concat ((fun '(k, v) => [opt_name k; v]) <$> opts).

Lemma parse_options opts : forall rest o,
  exists o', parse_args (option_argv opts ++ rest) o = parse_args rest o' /\
    set_gslice o' = set_gslice o /\ target_args o' = target_args o /\ forall k, opt_value o' k = last_value opts k (opt_value o k).
Proof.
  induction opts as [|[k v] opts IH]; intros rest o; [by exists o|].
  destruct (IH rest (set_opt k v o)) as (o' & Hp & Hg & Ha & Hv). exists o'. split; [|split_and!; try done].
  - rewrite <- Hp. cbn. by destruct k.
  - intros k'. rewrite Hv. cbn [last_value set_opt opt_value]. f_equal. case_bool_decide as Hk.
    + subst. by rewrite fn_lookup_insert.
    + by rewrite fn_lookup_insert_ne.
Qed.

(** The variable of an option, and the environment with the options over it. *)
Definition hook_option (name : string) : option LaunchOpt :=
  if bool_decide (name = "MEMINFO_HOOK_MODE") then Some OptMode
  else if bool_decide (name = "MEMINFO_PEER") then Some OptPeer
  else if bool_decide (name = "MEMINFO_PORT") then Some OptPort
  else if bool_decide (name = "MEMINFO_SOCKET") then Some OptSocket
  else if bool_decide (name = "MEMINFO_THRESHOLD") then Some OptThreshold
  else if bool_decide (name = "MEMINFO_HEAP_SIZE") then Some OptHeapSize
  else if bool_decide (name = "MEMINFO_BUDGET") then Some OptBudget
  else if bool_decide (name = "MEMINFO_PAGE") then Some OptPage
  else if bool_decide (name = "MEMINFO_LOG") then Some OptLog
  else None.

Definition options_over (value : LaunchOpt -> string) (env : environ) : environ := fun name =>
  match hook_option name with
  | Some k => if bool_decide (value k = ""%string) then env name else Some (value k)
  | None => env name
  end.

Lemma load_config_ext env env' :
  (forall name, name ∈ ["MEMINFO_HOOK_MODE"; "MEMINFO_PEER"; "MEMINFO_PORT"; "MEMINFO_SOCKET"; "MEMINFO_THRESHOLD"; "MEMINFO_HEAP_SIZE";
                        "MEMINFO_BUDGET"; "MEMINFO_PAGE"; "MEMINFO_LOG"; "MEMINFO_MAX_LOCAL"]%string -> env name = env' name) ->
  load_config env = load_config env'.
Proof. intros He. unfold load_config, env_size, env_string. rewrite !He by set_solver. done. Qed.

Lemma set_env_get name value env name' :
  set_env name value env name' = if bool_decide (name' = name) then (if bool_decide (value = ""%string) then env name' else Some value) else env name'.
Proof.
  unfold set_env, SetEnvironmentVariableA. destruct (bool_decide (value = ""%string)); [by destruct (bool_decide (name' = name))|].
  case_bool_decide as Hn; [subst; apply fn_lookup_insert|by apply fn_lookup_insert_ne].
Qed.

Lemma child_env_config o env : load_config (child_env o env) = load_config (options_over (opt_value o) env).
Proof.
  apply load_config_ext. intros name Hname.
  assert (Hg : forall e, (if set_gslice o then SetEnvironmentVariableA "G_SLICE" "always-malloc" e else e) name = e name).
  { intros e. destruct (set_gslice o); [|done]. unfold SetEnvironmentVariableA. apply fn_lookup_insert_ne. set_solver. }
  unfold child_env. rewrite Hg. rewrite !set_env_get. unfold options_over.
  repeat (apply elem_of_cons in Hname as [->|Hname]; [by vm_compute|]). by apply elem_of_nil in Hname.
Qed.

(** ** Properties *)

(** C25: What is typed arrives: for options in any order, repeated or not, and any
    arguments after [--], the launcher starts the target with the DLL that was named
    or the one beside it; the hook's configuration is that of the launcher's own
    environment with the last value of each option over it; and the target gets
    exactly its arguments, if none holds a quote or ends in a backslash.  The
    launcher's own code is the target's. *)
Theorem launch_delivers path dll_found run opts args env :
  let v := option_value opts in
  let sp := mkSpawn (v OptTarget) (command_line (v OptTarget) args)
              (child_env (mkLaunchOptions v true args) env) (dll_path_of path (mkLaunchOptions v true args)) in
  v OptTarget <> ""%string -> dll_found (sp_dll sp) = true ->
  exists env', launch_main path dll_found run (option_argv opts ++ "--"%string :: args) env =
      (match run (mkSpawn (sp_target sp) (sp_command_line sp) env' (sp_dll sp)) with Some code => to_int code | None => 1 end,
       Some (mkSpawn (sp_target sp) (sp_command_line sp) env' (sp_dll sp))) /\
    load_config env' = load_config (options_over v env) /\
    (no_quote (v OptTarget) -> Forall plain args -> crt_argv (sp_command_line sp) = v OptTarget :: args).
Proof.
  cbv zeta. cbn [sp_target sp_command_line sp_dll]. intros Ht Hdll. unfold launch_main.
  destruct (parse_options opts ("--"%string :: args) default_options) as (o & -> & Hg & Ha & Hv).
  change (parse_args ("--"%string :: args) o) with (inl (mkLaunchOptions (opt_value o) (set_gslice o) (target_args o ++ args)) : LaunchOptions + Z).
  cbn [opt_value target_args]. rewrite Ha, Hg. cbn [default_options target_args set_gslice app].
  assert (Ho : forall k, opt_value o k = option_value opts k) by (intros k; by rewrite Hv).
  assert (Hd : dll_path_of path (mkLaunchOptions (opt_value o) true args) = dll_path_of path (mkLaunchOptions (option_value opts) true args))
    by (unfold dll_path_of; cbn [opt_value]; by rewrite Ho).
  rewrite (Ho OptTarget), bool_decide_eq_false_2 by done. rewrite Hd, Hdll. cbn [negb].
  exists (child_env (mkLaunchOptions (opt_value o) true args) env). split; [by destruct (run _)|]. split.
  - rewrite child_env_config. cbn [opt_value]. apply load_config_ext. intros name _. unfold options_over. destruct (hook_option name); [by rewrite Ho|done].
  - intros. by apply split_command_line.
Qed.

(** An argument that ends in a backslash does not arrive: the backslash escapes
    the closing quote, so the target reads a quote in its place and goes on. *)
Theorem backslash_mangles target a args : no_quote target -> plain a ->
  exists x rest, crt_argv (command_line target ((a ++ String backslash "")%string :: args)) = target :: x :: rest /\
    exists y, x = (a ++ String dquote y)%string.
Proof.
  intros Ht [Hq Hl]. unfold crt_argv, command_line. rewrite split_program_name; [|done|apply no_quote_rest].
  cbn [fmap list_fmap concat]. set (tail := concat _). set (l := list_ascii_of_string a) in *.
  assert (Hla : list_ascii_of_string (a ++ String backslash "") = l ++ [backslash]).
  { unfold l. clear. induction a as [|c a IH]; [done|]. exact (f_equal (cons c) IH). }
  unfold quoted. rewrite Hla.
  assert (Hopen : split_args (([blank] ++ [dquote] ++ (l ++ [backslash]) ++ [dquote]) ++ tail) false false 0 [] =
    split_args (l ++ backslash :: dquote :: tail) true true 0 []).
  { rewrite <- !app_assoc. cbn. by destruct (l ++ backslash :: dquote :: tail). }
  rewrite Hopen, split_inside by done. pose proof (inside_chars l 0 []) as Hchars.
  assert (Hz : fst (inside l 0 []) = 0%nat) by (apply inside_pending; destruct l; [by left|by right]).
  rewrite Hz in Hchars |- *. cbn [replicate app] in Hchars. rewrite app_nil_r in Hchars. rewrite Hchars.
  assert (Hesc : split_args (backslash :: dquote :: tail) true true 0 l = split_args tail true true 0 (l ++ [] ++ [dquote])).
  { cbn. by rewrite app_nil_r. }
  rewrite Hesc. destruct (split_prefix (length tail) tail true 0 (l ++ [] ++ [dquote]) (le_n _)) as (y & rest & ->).
  cbn [fmap list_fmap app]. rewrite string_of_list_ascii_of_string. eexists _, _. split; [done|].
  exists (string_of_list_ascii y). unfold l. clear. induction a as [|c a IH]; [done|]. exact (f_equal (String c) IH).
Qed.

(** *** Witnesses *)

Definition demo_opts : list (LaunchOpt * string) :=
  [(OptMode, "log"); (OptTarget, "C:\gimp.exe"); (OptPeer, "10.0.0.2"); (OptMode, "remote"); (OptThreshold, "4096")]%string.
Definition demo_environ : environ := <["MEMINFO_PAGE" := Some "4096"]> (<["MEMINFO_PEER" := Some "10.0.0.1"]> (fun _ => None))%string.

Lemma launch_delivers_witness :
  exists env', snd (launch_main None (fun _ => true) (fun _ => Some 7) (option_argv demo_opts ++ ["--"; "a b"; "\x"; ""]%string) demo_environ) =
      Some (mkSpawn "C:\gimp.exe" (command_line "C:\gimp.exe" ["a b"; "\x"; ""]) env' ".\meminfo_hook.dll") /\
    remote_mode (load_config env') = true /\ peer_ip (load_config env') = "10.0.0.2"%string /\ threshold (load_config env') = 8 * 4096 /\
    crt_argv (command_line "C:\gimp.exe" ["a b"; "\x"; ""]) = ["C:\gimp.exe"; "a b"; "\x"; ""]%string.
Proof.
  destruct (launch_delivers None (fun _ => true) (fun _ => Some 7) demo_opts ["a b"; "\x"; ""]%string demo_environ) as (env' & Hl & Hc & Ha);
    [by vm_compute|by vm_compute|].
  exists env'. rewrite Hl, Hc. split; [done|]. split; [by vm_compute|]. split; [by vm_compute|]. split; [by vm_compute|].
  apply Ha; [by apply (bool_decide_unpack _); vm_compute|]. repeat constructor; by apply (bool_decide_unpack _); vm_compute.
Defined.

Lemma backslash_mangles_witness :
  exists x rest, crt_argv (command_line "t" ["C:\dir\"; "x"]%string) = "t"%string :: x :: rest /\ exists y, x = ("C:\dir" ++ String dquote y)%string.
Proof. apply (backslash_mangles "t" "C:\dir" ["x"]%string); [|split]; by apply (bool_decide_unpack _); vm_compute. Defined.
