(* ===== verification/HttpStatus.v ===== *)
(** * The status endpoint

    [common/src/http_status.cpp]: a libuv server that answers the first bytes of each
    connection with one response and closes it.  libuv appears as the callbacks it
    may run in a state; closing a handle twice, or using it after its close callback
    has deleted it, is undefined. *)

From Stdlib.Strings Require Import Ascii String.
From stdpp Require Import pretty.
From S2P Require Import Prelude Common.
Local Open Scope string_scope.
Local Open Scope Z_scope.

(** ** State *)

(** A connection's [uv_tcp_t]: whether reads are started, the writes whose
    callbacks are still to come, and what has been handed to [uv_write]. *)
Record HttpConn := mkConn {
  hc_handle : Handle;
  hc_reading : bool;
  hc_pending : nat;
  hc_responses : list string
}.

(** The server, and the blocks its callbacks own: read buffers, and requests with
    their payloads. *)
Record HttpStatusServer := mkHttp {
  server_ : Handle;
  stopped_ : bool;
  conns : gmap nat HttpConn;
  read_buffers : Z;
  write_requests : Z
}.

Definition set_conns (c : gmap nat HttpConn) (s : HttpStatusServer) : HttpStatusServer :=
  mkHttp (server_ s) (stopped_ s) c (read_buffers s) (write_requests s).
Definition add_read_buffers (n : Z) (s : HttpStatusServer) : HttpStatusServer :=
  mkHttp (server_ s) (stopped_ s) (conns s) (read_buffers s + n) (write_requests s).
Definition add_write_requests (n : Z) (s : HttpStatusServer) : HttpStatusServer :=
  mkHttp (server_ s) (stopped_ s) (conns s) (read_buffers s) (write_requests s + n).

Definition HttpM := M HttpStatusServer.

(** ** libuv on a connection *)

Definition get_conn (c : nat) : HttpM HttpConn :=
  let! s := get in
  match conns s !! c with
  | Some k => if decide (hc_handle k = HClosed) then undef else ret k
  | None => undef
  end.

Definition put_conn (c : nat) (k : HttpConn) : HttpM unit := let! s := get in put (set_conns (<[c := k]> (conns s)) s).

(** [uv_close(client, delete)]: not on a closing handle. *)
Definition conn_close (c : nat) : HttpM unit :=
  let! k := get_conn c in
  if decide (hc_handle k = HOpen) then put_conn c (mkConn HClosing false (hc_pending k) (hc_responses k)) else undef.

(** [if (!uv_is_closing(client)) uv_close(...)]. *)
Definition conn_close_if_open (c : nat) : HttpM unit :=
  let! k := get_conn c in
  if decide (hc_handle k = HOpen) then conn_close c else ret tt.

Definition conn_read_stop (c : nat) : HttpM unit :=
  let! k := get_conn c in put_conn c (mkConn (hc_handle k) false (hc_pending k) (hc_responses k)).

(** [ok]: libuv takes the write. *)
Definition conn_write (ok : bool) (c : nat) (data : string) : HttpM bool :=
  let! k := get_conn c in
  if ok then do! put_conn c (mkConn (hc_handle k) (hc_reading k) (S (hc_pending k)) (hc_responses k ++ [data])%list) in ret true
  else ret false.

(** ** The code *)

(** The constructor: what [uv_ip4_addr], [uv_tcp_bind] and [uv_listen] return. *)
Definition HttpStatusServer_new (addr_ok bind_ok listen_ok : bool) : outcome HttpStatusServer * Handle :=
  if negb addr_ok then (Throw (runtime_error "Invalid bind address"), HClosing)
  else if negb bind_ok then (Throw (runtime_error "Bind error"), HClosing)
  else if negb listen_ok then (Throw (runtime_error "Listen error"), HClosing)
  else (Ret (mkHttp HOpen false ∅ 0 0), HOpen).

Definition http_stop : HttpM unit :=
  let! s := get in
  if stopped_ s then ret tt
  else put (mkHttp (close_if_open (server_ s)) true (conns s) (read_buffers s) (write_requests s)).

(** [on_connection] for a new handle [c]; [accepted]: [uv_accept] succeeds. *)
Definition http_on_connection (status : Z) (accepted : bool) (c : nat) : HttpM unit :=
  if status <? 0 then ret tt
  else if accepted then put_conn c (mkConn HOpen true 0 [])
  else do! put_conn c (mkConn HOpen false 0 []) in conn_close c.

Definition http_on_alloc : HttpM unit := fun s => (Ret tt, add_read_buffers 1 s).

Definition crlf : string := String (ascii_of_nat 13) (String (ascii_of_nat 10) "").

Definition to_string (n : Z) : string := pretty (Z.to_N n).

Definition http_ok (body : string) : string :=
  "HTTP/1.1 200 OK" ++ crlf ++ "Content-Type: application/json" ++ crlf ++
  "Content-Length: " ++ to_string (Z.of_nat (String.length body)) ++ crlf ++ "Connection: close" ++ crlf ++ crlf ++ body.

Definition http_not_found : string :=
  "HTTP/1.1 404 Not Found" ++ crlf ++ "Content-Length: 0" ++ crlf ++ "Connection: close" ++ crlf ++ crlf.

(** [provider]: the body, empty without a provider. *)
Definition http_response (provider : option string) (request : string) : string :=
  if String.prefix "GET /status" request then http_ok (default "" provider) else http_not_found.

(** What [on_read] is given: [nread > 0] bytes, none, or an error. *)
Inductive http_read := HttpData (data : string) | HttpAgain | HttpError.

Definition http_on_read (provider : option string) (malloc_ok write_ok : bool) (c : nat) (r : http_read) : HttpM unit :=
  let delete_buffer : HttpM unit := fun s => (Ret tt, add_read_buffers (-1) s) in
  match r with
  | HttpData request =>
      let response := http_response provider request in
      do! conn_read_stop c in
      if negb malloc_ok then
        do! delete_buffer in conn_close c
      else
        do! (fun s => (Ret tt, add_write_requests 1 s)) in
        let! ok := conn_write write_ok c response in
        do! (if negb ok then do! (fun s => (Ret tt, add_write_requests (-1) s)) in conn_close c else ret tt) in
        delete_buffer
  | HttpError => do! conn_close_if_open c in delete_buffer
  | HttpAgain => delete_buffer
  end.

Definition http_on_write_done (c : nat) : HttpM unit :=
  do! conn_close_if_open c in
  fun s => (Ret tt, add_write_requests (-1) s).

(** ** Events *)

Inductive HttpEvent :=
| HvConnection (status : Z) (accepted : bool) (c : nat)
| HvRead (provider : option string) (malloc_ok write_ok : bool) (c : nat) (r : http_read)
| HvWritten (c : nat)
| HvClosed (c : nat)
| HvStop.

(** What libuv may deliver: connections while the server listens, on fresh handles;
    reads while they are started; a callback for each write; and the close callback
    when the writes have had theirs. *)
Definition http_enabled (ev : HttpEvent) (s : HttpStatusServer) : bool :=
  match ev with
  | HvConnection _ _ c => bool_decide (server_ s = HOpen) && bool_decide (conns s !! c = None)
  | HvRead _ _ _ c r =>
      match conns s !! c with
      | Some k => bool_decide (hc_handle k = HOpen) && hc_reading k && match r with HttpData data => negb (bool_decide (data = "")) | _ => true end
      | None => false
      end
  | HvWritten c => match conns s !! c with Some k => negb (bool_decide (hc_handle k = HClosed)) && (0 <? hc_pending k)%nat | None => false end
  | HvClosed c => match conns s !! c with Some k => bool_decide (hc_handle k = HClosing) && (hc_pending k =? 0)%nat | None => false end
  | HvStop => true
  end.

Definition http_step (ev : HttpEvent) : HttpM unit :=
  match ev with
  | HvConnection status accepted c => http_on_connection status accepted c
  | HvRead provider malloc_ok write_ok c r => do! http_on_alloc in http_on_read provider malloc_ok write_ok c r
  | HvWritten c =>
      let! k := get_conn c in
      do! put_conn c (mkConn (hc_handle k) (hc_reading k) (pred (hc_pending k)) (hc_responses k)) in
      http_on_write_done c
  | HvClosed c => let! k := get_conn c in put_conn c (mkConn HClosed false (hc_pending k) (hc_responses k))
  | HvStop => http_stop
  end.

Inductive http_run : list HttpEvent -> HttpStatusServer -> outcome unit -> HttpStatusServer -> Prop :=
| http_run_nil s : http_run [] s (Ret tt) s
| http_run_step ev evs s s1 o s2 :
    http_enabled ev s = true -> http_step ev s = (Ret tt, s1) -> http_run evs s1 o s2 -> http_run (ev :: evs) s o s2
| http_run_fail ev evs s o s1 :
    http_enabled ev s = true -> http_step ev s = (o, s1) -> o <> Ret tt -> http_run (ev :: evs) s o s1.

(** ** The invariant *)

(** A connection is read once, then waits for its one write, then closes. *)
Definition conn_wf (k : HttpConn) : Prop :=
  (length (hc_responses k) <= 1)%nat /\ (hc_pending k <= length (hc_responses k))%nat /\
  match hc_handle k with
  | HOpen => if hc_reading k then hc_responses k = [] else hc_pending k = 1%nat
  | HClosing | HClosed => hc_reading k = false /\ hc_pending k = 0%nat
  end.

Definition pending_writes (m : gmap nat HttpConn) : Z := map_fold (fun _ k n => Z.of_nat (hc_pending k) + n) 0 m.

Definition http_wf (s : HttpStatusServer) : Prop :=
  map_Forall (fun _ => conn_wf) (conns s) /\ read_buffers s = 0 /\ write_requests s = pending_writes (conns s).

Lemma pending_insert m c k : pending_writes (<[c := k]> m) = Z.of_nat (hc_pending k) - default 0 ((fun k => Z.of_nat (hc_pending k)) <$> m !! c) + pending_writes m.
Proof.
  assert (Hnew : forall m, m !! c = None -> forall k, pending_writes (<[c := k]> m) = Z.of_nat (hc_pending k) + pending_writes m).
  { intros m0 Hm k0. unfold pending_writes. rewrite map_fold_insert_L; [done| |done]. intros. lia. }
  destruct (m !! c) as [k'|] eqn:Hm; cbn.
  - pose proof (Hnew (delete c m) (lookup_delete_eq m c) k') as H'. rewrite insert_delete_id in H' by done.
    assert (Hi : <[c := k]> m = <[c := k]> (delete c m)) by (by rewrite insert_delete_eq).
    rewrite Hi, (Hnew _ (lookup_delete_eq m c) k). lia.
  - rewrite Hnew by done. lia.
Qed.

(** A state in which connection [c] has changed from [k] to [k']. *)
Lemma http_wf_put c k' s buffers writes :
  map_Forall (fun _ => conn_wf) (conns s) -> conn_wf k' -> buffers = 0 ->
  writes = Z.of_nat (hc_pending k') - default 0 ((fun k => Z.of_nat (hc_pending k)) <$> conns s !! c) + pending_writes (conns s) ->
  http_wf (mkHttp (server_ s) (stopped_ s) (<[c := k']> (conns s)) buffers writes).
Proof. intros Hs Hk -> ->. split; [by apply map_Forall_insert_2|]. split; [done|]. cbn. by rewrite pending_insert. Qed.

(** What an event makes of the connection it is about. *)
Definition conn_after (ev : HttpEvent) (c : nat) (k : option HttpConn) : option HttpConn :=
  match ev with
  | HvConnection status accepted c' =>
      if decide (c = c') then if status <? 0 then k else Some (if accepted then mkConn HOpen true 0 [] else mkConn HClosing false 0 []) else k
  | HvRead provider malloc_ok write_ok c' r =>
      if decide (c = c') then
        match r with
        | HttpData d => Some (if malloc_ok && write_ok then mkConn HOpen false 1 [http_response provider d] else mkConn HClosing false 0 [])
        | HttpError => Some (mkConn HClosing false 0 [])
        | HttpAgain => k
        end
      else k
  | HvWritten c' => if decide (c = c') then (fun k => mkConn HClosing false 0 (hc_responses k)) <$> k else k
  | HvClosed c' => if decide (c = c') then (fun k => mkConn HClosed false 0 (hc_responses k)) <$> k else k
  | HvStop => k
  end.

(** The side conditions of [http_wf_put]. *)
Ltac put_wf Hc := cbn; rewrite ?Hc; cbn; unfold conn_wf; cbn; first [lia | split_and!; done || lia].

(** The calls on a connection that is there. *)
Lemma get_conn_ok c k s : conns s !! c = Some k -> hc_handle k <> HClosed -> get_conn c s = (Ret k, s).
Proof. intros Hc Hk. unfold get_conn. rewrite bind_get, Hc. by rewrite decide_False. Qed.

Lemma conn_close_ok c k s : conns s !! c = Some k -> hc_handle k = HOpen ->
  conn_close c s = (Ret tt, set_conns (<[c := mkConn HClosing false (hc_pending k) (hc_responses k)]> (conns s)) s).
Proof.
  intros Hc Hk. unfold conn_close, bind. rewrite (get_conn_ok c k) by congruence. by rewrite decide_True.
Qed.

Lemma conn_close_if_open_ok c k s : conns s !! c = Some k -> hc_handle k = HOpen ->
  conn_close_if_open c s = (Ret tt, set_conns (<[c := mkConn HClosing false (hc_pending k) (hc_responses k)]> (conns s)) s).
Proof.
  intros Hc Hk. unfold conn_close_if_open, bind. rewrite (get_conn_ok c k) by congruence. rewrite decide_True by done. by apply conn_close_ok.
Qed.

Lemma conn_read_stop_ok c k s : conns s !! c = Some k -> hc_handle k <> HClosed ->
  conn_read_stop c s = (Ret tt, set_conns (<[c := mkConn (hc_handle k) false (hc_pending k) (hc_responses k)]> (conns s)) s).
Proof. intros Hc Hk. unfold conn_read_stop, bind. by rewrite (get_conn_ok c k). Qed.

Lemma conn_write_ok ok c k data s : conns s !! c = Some k -> hc_handle k <> HClosed ->
  conn_write ok c data s =
    (Ret ok, if ok then set_conns (<[c := mkConn (hc_handle k) (hc_reading k) (S (hc_pending k)) (hc_responses k ++ [data])%list]> (conns s)) s else s).
Proof. intros Hc Hk. unfold conn_write, bind. rewrite (get_conn_ok c k) by done. by destruct ok. Qed.

(** A read on a connection that is being read. *)
Lemma on_read_ok provider malloc_ok write_ok c r s : conns s !! c = Some (mkConn HOpen true 0 []) ->
  (do! http_on_alloc in http_on_read provider malloc_ok write_ok c r) s =
    (Ret tt,
     match r with
     | HttpData d =>
         if malloc_ok && write_ok then
           mkHttp (server_ s) (stopped_ s) (<[c := mkConn HOpen false 1 [http_response provider d]]> (conns s)) (read_buffers s) (write_requests s + 1)
         else mkHttp (server_ s) (stopped_ s) (<[c := mkConn HClosing false 0 []]> (conns s)) (read_buffers s) (write_requests s)
     | HttpError => mkHttp (server_ s) (stopped_ s) (<[c := mkConn HClosing false 0 []]> (conns s)) (read_buffers s) (write_requests s)
     | HttpAgain => s
     end).
Proof.
  destruct s as [sv st m rb wr]. cbn [conns]. intros Hc. set (k := mkConn HOpen true 0 []) in *.
  assert (Hb : forall m' w, add_read_buffers (-1) (mkHttp sv st m' (rb + 1) w) = mkHttp sv st m' rb w) by (intros m' w; unfold add_read_buffers; cbn; f_equal; lia).
  unfold http_on_read, http_on_alloc, add_write_requests. unfold bind at 1. unfold add_read_buffers at 1. cbn [server_ stopped_ conns read_buffers write_requests].
  destruct r as [data| |].
  - unfold bind at 1. rewrite (conn_read_stop_ok c k) by done. unfold set_conns. cbn [server_ stopped_ conns read_buffers write_requests].
    set (k1 := mkConn (hc_handle k) false (hc_pending k) (hc_responses k)). set (m1 := <[c := k1]> m).
    assert (H1 : m1 !! c = Some k1) by apply lookup_insert_eq.
    destruct malloc_ok; cbn [negb andb].
    + unfold bind at 1. cbn [server_ stopped_ conns read_buffers write_requests]. unfold bind at 1. rewrite (conn_write_ok write_ok c k1) by done.
      unfold set_conns. cbn [server_ stopped_ conns read_buffers write_requests]. destruct write_ok; cbn [negb].
      * unfold bind, ret. rewrite Hb. unfold m1. by rewrite insert_insert_eq.
      * unfold bind. cbn [server_ stopped_ conns read_buffers write_requests]. rewrite (conn_close_ok c k1) by done.
        unfold set_conns. cbn [server_ stopped_ conns read_buffers write_requests]. rewrite Hb. unfold m1. rewrite insert_insert_eq.
        cbn. by replace (wr + 1 + -1) with wr by lia.
    + unfold bind at 1. unfold add_read_buffers at 1. cbn [server_ stopped_ conns read_buffers write_requests]. rewrite (conn_close_ok c k1) by done.
      unfold set_conns, m1. cbn. rewrite insert_insert_eq. by replace (rb + 1 + -1) with rb by lia.
  - unfold add_read_buffers. cbn. by replace (rb + 1 + -1) with rb by lia.
  - unfold bind. rewrite (conn_close_if_open_ok c k) by done. unfold set_conns. cbn [server_ stopped_ conns read_buffers write_requests]. by rewrite Hb.
Qed.

Lemma on_written_ok c rs s : conns s !! c = Some (mkConn HOpen false 1 rs) ->
  http_step (HvWritten c) s =
    (Ret tt, mkHttp (server_ s) (stopped_ s) (<[c := mkConn HClosing false 0 rs]> (conns s)) (read_buffers s) (write_requests s - 1)).
Proof.
  destruct s as [sv st m rb wr]. cbn [conns]. intros Hc. cbn [http_step]. unfold bind at 1. rewrite (get_conn_ok c (mkConn HOpen false 1 rs)) by done.
  cbn [hc_handle hc_reading hc_pending hc_responses pred]. unfold put_conn, http_on_write_done, set_conns, bind, get, put.
  cbn [server_ stopped_ conns read_buffers write_requests].
  rewrite (conn_close_if_open_ok c (mkConn HOpen false 0 rs)) by (done || apply lookup_insert_eq).
  unfold set_conns, add_write_requests. cbn. rewrite insert_insert_eq. done.
Qed.

Lemma http_step_ok ev s : http_wf s -> http_enabled ev s = true ->
  exists s', http_step ev s = (Ret tt, s') /\ http_wf s' /\ forall c, conns s' !! c = conn_after ev c (conns s !! c).
Proof.
  intros (Hm & Hb & Hw) He.
  assert (Hins : forall c (k : HttpConn) c' f, f = (if decide (c' = c) then Some k else conns s !! c') -> (<[c := k]> (conns s)) !! c' = f).
  { intros c k c' f ->. case_decide; [subst; apply lookup_insert_eq|by rewrite lookup_insert_ne]. }
  destruct ev as [status accepted c|provider malloc_ok write_ok c r|c|c|]; cbn [http_enabled] in He.
  - apply andb_prop in He as [_ Hc]. apply bool_decide_eq_true in Hc. cbn [http_step]. unfold http_on_connection, conn_after.
    destruct (Z.ltb_spec status 0); [eexists; split; [done|]; split; [done|]; intros c'; by destruct (decide _)|].
    destruct accepted.
    + eexists. split; [done|]. split; [apply http_wf_put; try done; put_wf Hc|]. intros c'. by apply Hins.
    + unfold bind, put_conn. rewrite bind_get. unfold put. rewrite (conn_close_ok c (mkConn HOpen false 0 [])) by (done || apply lookup_insert_eq).
      unfold set_conns. cbn [conns server_ stopped_ read_buffers write_requests hc_pending hc_responses]. rewrite insert_insert_eq.
      eexists. split; [done|]. split; [apply http_wf_put; try done; put_wf Hc|]. intros c'. by apply Hins.
  - destruct (conns s !! c) as [[h rd pd rs]|] eqn:Hc; [|done]. pose proof (Hm _ _ Hc) as (_ & Hp & Hk).
    apply andb_prop in He as [He _]. apply andb_prop in He as [Hh Hr]. apply bool_decide_eq_true in Hh.
    cbn [hc_handle hc_reading hc_pending hc_responses] in *. subst h rd rs. cbn in Hp. assert (pd = 0%nat) as -> by lia.
    cbn [http_step]. rewrite (on_read_ok provider malloc_ok write_ok c r s Hc). eexists. split; [done|]. cbn [conn_after].
    destruct r as [data| |]; [destruct (malloc_ok && write_ok)| |].
    1, 2, 4: split; [apply http_wf_put; try done; put_wf Hc|]; intros c'; by apply Hins.
    split; [done|]. intros c'. by destruct (decide _).
  - destruct (conns s !! c) as [[h rd pd rs]|] eqn:Hc; [|done]. pose proof (Hm _ _ Hc) as (Hl & Hp & Hk).
    apply andb_prop in He as [Hh Hr]. apply Nat.ltb_lt in Hr. cbn [hc_handle hc_reading hc_pending hc_responses] in *.
    destruct h; [|lia..]. destruct rd; [subst rs; cbn in Hp; lia|]. subst pd.
    rewrite (on_written_ok c rs s Hc). eexists. split; [done|]. split; [apply http_wf_put; try done; put_wf Hc|].
    intros c'. apply Hins. unfold conn_after. repeat case_decide; try done. subst. by rewrite Hc.
  - destruct (conns s !! c) as [[h rd pd rs]|] eqn:Hc; [|done]. pose proof (Hm _ _ Hc) as (Hl & Hp & Hk).
    apply andb_prop in He as [Hh Hr]. apply bool_decide_eq_true in Hh. cbn [hc_handle hc_reading hc_pending hc_responses] in *. subst h. destruct Hk as [-> ->].
    cbn [http_step]. unfold bind. rewrite (get_conn_ok c _ _ Hc) by done. eexists. split; [done|].
    split; [apply http_wf_put; try done; put_wf Hc|]. intros c'. apply Hins. unfold conn_after. repeat case_decide; try done. subst. by rewrite Hc.
  - cbn [http_step]. unfold http_stop. rewrite bind_get. destruct (stopped_ s); eexists; (split; [done|]); by split.
Qed.

(** ** Answers *)

(** What an event answers to connection [c], if it is its first read of data or an error. *)
Definition read_answer (c : nat) (ev : HttpEvent) : option (list string) :=
  match ev with
  | HvRead provider malloc_ok write_ok c' (HttpData d) =>
      if decide (c = c') then Some (if malloc_ok && write_ok then [http_response provider d] else []) else None
  | HvRead _ _ _ c' HttpError => if decide (c = c') then Some [] else None
  | _ => None
  end.

Fixpoint first_answer (c : nat) (evs : list HttpEvent) : option (list string) :=
  match evs with
  | [] => None
  | ev :: evs => match read_answer c ev with Some a => Some a | None => first_answer c evs end
  end.

Lemma first_answer_snoc c evs ev :
  first_answer c (evs ++ [ev])%list = match first_answer c evs with Some a => Some a | None => read_answer c ev end.
Proof. induction evs as [|e evs IH]; cbn; [by destruct (read_answer c ev)|]. by destruct (read_answer c e). Qed.

(** The connections after the events of [past]. *)
Definition http_history (past : list HttpEvent) (s : HttpStatusServer) : Prop :=
  forall c, match conns s !! c with
    | Some k => if hc_reading k then first_answer c past = None else hc_responses k = default [] (first_answer c past)
    | None => first_answer c past = None
    end.

Lemma http_history_step past ev s s1 : http_wf s -> http_enabled ev s = true -> http_history past s ->
  (forall c, conns s1 !! c = conn_after ev c (conns s !! c)) -> http_history (past ++ [ev]) s1.
Proof.
  intros (Hm & _ & _) He Hh Hs1 c. specialize (Hh c). rewrite Hs1, first_answer_snoc.
  assert (Hsame : read_answer c ev = None -> conn_after ev c (conns s !! c) = conns s !! c ->
    match conn_after ev c (conns s !! c) with
    | Some k => if hc_reading k then match first_answer c past with Some a => Some a | None => read_answer c ev end = None
                else hc_responses k = default [] (match first_answer c past with Some a => Some a | None => read_answer c ev end)
    | None => match first_answer c past with Some a => Some a | None => read_answer c ev end = None
    end).
  { intros Hr ->. rewrite Hr. destruct (conns s !! c) as [k|]; [destruct (hc_reading k)|]; by destruct (first_answer c past). }
  destruct ev as [status accepted c'|provider malloc_ok write_ok c' r|c'|c'|]; cbn [http_enabled] in He; [| | | |by apply Hsame].
  all: destruct (decide (c = c')) as [<-|Hne]; [|apply Hsame; unfold read_answer, conn_after; try destruct r; rewrite ?decide_False by done; done].
  - unfold conn_after. rewrite decide_True by done. apply andb_prop in He as [_ Hc]. apply bool_decide_eq_true in Hc. rewrite Hc in *. rewrite Hh. cbn [read_answer].
    destruct (status <? 0); [done|]. by destruct accepted.
  - unfold conn_after, read_answer. destruct (conns s !! c) as [k|] eqn:Hc; [|done]. apply andb_prop in He as [He _]. apply andb_prop in He as [_ Hrd].
    rewrite Hrd in Hh. rewrite Hh. rewrite !decide_True by done. destruct r; rewrite ?decide_True by done; [destruct (malloc_ok && write_ok); reflexivity|rewrite Hrd; reflexivity|reflexivity].
  - unfold conn_after. rewrite decide_True by done. destruct (conns s !! c) as [k|] eqn:Hc; [|done]. cbn. pose proof (Hm _ _ Hc) as (Hl & Hp & Hk).
    apply andb_prop in He as [Hn Hpd]. apply Nat.ltb_lt in Hpd. destruct (hc_reading k) eqn:Hrd.
    + destruct (hc_handle k); [|lia..]. rewrite Hk in Hp. cbn in Hp. lia.
    + by destruct (first_answer c past).
  - unfold conn_after. rewrite decide_True by done. destruct (conns s !! c) as [k|] eqn:Hc; [|done]. cbn. pose proof (Hm _ _ Hc) as (Hl & Hp & Hk).
    apply andb_prop in He as [Hn _]. apply bool_decide_eq_true in Hn. rewrite Hn in Hk. destruct Hk as [Hk _]. rewrite Hk in Hh.
    by destruct (first_answer c past).
Qed.

(** A server that listens, without connections. *)
Definition http_new : HttpStatusServer := mkHttp HOpen false ∅ 0 0.

Lemma http_run_wf evs s o s' past : http_run evs s o s' -> http_wf s -> http_history past s -> o = Ret tt /\ http_wf s' /\ http_history (past ++ evs) s'.
Proof.
  intros Hr. revert past. induction Hr as [s|ev evs s s1 o s2 He Hs _ IH|ev evs s o s1 He Hs Ho]; intros past Hw Hh.
  - by rewrite app_nil_r.
  - destruct (http_step_ok ev s Hw He) as (s1' & Hs' & Hw1 & Hc1). rewrite Hs in Hs'. injection Hs' as <-.
    destruct (IH (past ++ [ev])%list Hw1) as (? & ? & Hfin); [exact (http_history_step past ev s s1 Hw He Hh Hc1)|]. by rewrite <- app_assoc in Hfin.
  - destruct (http_step_ok ev s Hw He) as (s1' & Hs' & _). rewrite Hs in Hs'. injection Hs' as -> _. done.
Qed.

(** ** Properties *)

(** C28: The endpoint is memory-safe and answers once: in whatever order libuv runs
    its callbacks, and whatever fails, no handle is closed twice or used after its
    deletion, every read buffer is freed and every write request accounted for; and a
    connection has been sent exactly the response to the first bytes read from it, or
    nothing if there were none or they could not be answered. *)
Theorem http_serves_once evs o s : http_run evs http_new o s ->
  o = Ret tt /\ read_buffers s = 0 /\ write_requests s = pending_writes (conns s) /\
  forall c k, conns s !! c = Some k ->
    (hc_reading k = true -> first_answer c evs = None /\ hc_handle k = HOpen) /\
    (hc_reading k = false -> hc_responses k = default [] (first_answer c evs) /\ (hc_handle k = HOpen -> hc_pending k = 1%nat)).
Proof.
  intros Hr. destruct (http_run_wf evs http_new o s [] Hr) as (-> & (Hm & Hb & Hw) & Hh).
  { split; [apply map_Forall_empty|done]. }
  { intros c. cbn. by rewrite lookup_empty. }
  split_and!; try done. intros c k Hc. pose proof (Hm _ _ Hc) as (_ & _ & Hk). specialize (Hh c). rewrite Hc in Hh. cbn [app] in Hh. split; intros Hrd; rewrite Hrd in *.
  - split; [done|]. destruct (hc_handle k); [done|by destruct Hk..].
  - split; [done|]. intros Hopen. by rewrite Hopen in Hk.
Qed.

Lemma append_assoc (a b c : string) : (a ++ b) ++ c = a ++ b ++ c.
Proof. induction a as [|x a IH]; [done|]. exact (f_equal (String x) IH). Qed.

(** A request must arrive whole: if the first read brings less than "GET /status",
    the answer is 404, whatever follows; if it begins with it, the answer is the body
    with its exact length, whatever path it goes on with. *)
Theorem http_first_read_decides provider data :
  ((String.length data < 11)%nat -> http_response provider data = http_not_found) /\
  (forall rest, data = "GET /status" ++ rest -> http_response provider data = http_ok (default "" provider)) /\
  (exists h1 h2, forall body, http_ok body = h1 ++ to_string (Z.of_nat (String.length body)) ++ h2 ++ body).
Proof.
  assert (Hpre : forall p d, String.prefix p d = true -> (String.length p <= String.length d)%nat).
  { induction p as [|a p IH]; intros [|b d]; cbn; try lia; try done. destruct (ascii_dec a b); [|done]. intros H. specialize (IH _ H). lia. }
  assert (Happ : forall p d, String.prefix p (p ++ d) = true).
  { induction p as [|a p IH]; intros d; [by destruct d|]. change (String a p ++ d) with (String a (p ++ d)). cbn. destruct (ascii_dec a a); [apply IH|done]. }
  unfold http_response. split_and!.
  - intros Hl. destruct (String.prefix "GET /status" data) eqn:E; [|done]. apply Hpre in E. cbn in E. lia.
  - intros rest ->. by rewrite Happ.
  - exists ("HTTP/1.1 200 OK" ++ crlf ++ "Content-Type: application/json" ++ crlf ++ "Content-Length: "), (crlf ++ "Connection: close" ++ crlf ++ crlf).
    intros body. unfold http_ok. by rewrite !append_assoc.
Qed.

(** *** Witness *)

(** A request in two pieces on one connection, and a whole one on another whose write fails. *)
Definition demo_http : list HttpEvent :=
  [HvConnection 0 true 0; HvConnection 0 true 1; HvRead None true true 0 (HttpData "GET /st"); HvStop;
   HvRead (Some "{}") true false 1 (HttpData "GET /status HTTP/1.1"); HvWritten 0; HvClosed 1; HvClosed 0].

Fixpoint http_exec (evs : list HttpEvent) (s : HttpStatusServer) : option HttpStatusServer :=
  match evs with
  | [] => Some s
  | ev :: evs => if http_enabled ev s then match http_step ev s with (Ret _, s) => http_exec evs s | _ => None end else None
  end.

Lemma http_exec_run evs s s' : http_exec evs s = Some s' -> http_run evs s (Ret tt) s'.
Proof.
  revert s. induction evs as [|ev evs IH]; intros s; cbn; [intros [= ->]; constructor|].
  destruct (http_enabled ev s) eqn:He; [|done]. destruct (http_step ev s) as [[[]|e| |] s1] eqn:Hs; try done.
  intros H. by eapply http_run_step, IH.
Qed.

Lemma http_serves_once_witness : exists s, http_run demo_http http_new (Ret tt) s /\ read_buffers s = 0 /\
  hc_responses <$> (conns s !! 0%nat) = Some [http_not_found].
Proof.
  destruct (http_exec demo_http http_new) as [s|] eqn:E; [|by vm_compute in E]. exists s.
  pose proof (http_exec_run _ _ _ E) as Hr. split; [done|]. split; [apply (http_serves_once _ _ _ Hr)|].
  vm_compute in E. injection E as <-. by vm_compute.
Defined.
