(* ===== verification/MemoryMonitor.v ===== *)
(** * The memory monitors

    [platform/src/linux/memory_monitor_linux.cpp], with the text of /proc/meminfo as
    the file shows it at each poll, and the other systems' monitors
    ([memory_monitor_win.cpp], [memory_monitor_mac.cpp]) over what the system calls
    report.  The thread that polls is a run over its wake-ups. *)

From Stdlib.Strings Require Import Ascii String.
From stdpp Require Import pretty.
From S2P Require Import Prelude.
Local Open Scope Z_scope.

Record MemoryStats := mkStats { total_bytes : Z; free_bytes : Z; stat_available : Z }.

Definition no_stats : MemoryStats := mkStats 0 0 0.

(** ** Reading a line: [std::istream >>] in the classic locale *)

Definition char_code (c : ascii) : Z := Z.of_N (N_of_ascii c).
Definition newline : ascii := ascii_of_nat 10.

Definition is_space (c : ascii) : bool := ((9 <=? char_code c) && (char_code c <=? 13)) || (char_code c =? 32).
Definition is_digit (c : ascii) : bool := (48 <=? char_code c) && (char_code c <=? 57).

Fixpoint skip_space (l : list ascii) : list ascii :=
  match l with
  | [] => []
  | c :: l' => if is_space c then skip_space l' else l
  end.

Fixpoint take_word (l : list ascii) : list ascii * list ascii :=
  match l with
  | [] => ([], [])
  | c :: l' => if is_space c then ([], l) else (c :: fst (take_word l'), snd (take_word l'))
  end.

(** [>> std::string]; [None]: the stream has failed. *)
Definition get_word (l : list ascii) : option (list ascii * list ascii) :=
  match take_word (skip_space l) with
  | ([], _) => None
  | wr => Some wr
  end.

Fixpoint take_digits (acc : Z) (l : list ascii) : Z * list ascii :=
  match l with
  | [] => (acc, [])
  | c :: l' => if is_digit c then take_digits (10 * acc + (char_code c - 48)) l' else (acc, l)
  end.

(** [>> size_t]: a sign is accepted, a minus wraps, a number too large fails. *)
Definition get_size (l : list ascii) : option (Z * list ascii) :=
  let l := skip_space l in
  let neg := match l with c :: _ => char_code c =? 45 | [] => false end in
  let l := match l with c :: l' => if (char_code c =? 45) || (char_code c =? 43) then l' else l | [] => [] end in
  match l with
  | c :: _ =>
      if is_digit c then
        let n := fst (take_digits 0 l) in
        if SIZE_MAX <? n then None else Some (if neg then u64 (- n) else n, snd (take_digits 0 l))
      else None
  | [] => None
  end.

(** [std::getline] until it fails. *)
Fixpoint get_lines (l cur : list ascii) : list (list ascii) :=
  match l with
  | [] => match cur with [] => [] | _ => [cur] end
  | c :: l => if bool_decide (c = newline) then cur :: get_lines l [] else get_lines l (cur ++ [c])
  end.

(** ** The statistics *)

(** The body of the loop of [get_stats] on Linux. *)
Definition read_line (line : list ascii) (s : MemoryStats) : MemoryStats :=
  match get_word line with
  | None => s
  | Some (key, line) =>
      match get_size line with
      | None => s
      | Some (value, line) =>
          match get_word line with
          | None => s
          | Some _ =>
              let key := string_of_list_ascii key in
              if bool_decide (key = "MemTotal:"%string) then mkStats (u64 (value * 1024)) (free_bytes s) (stat_available s)
              else if bool_decide (key = "MemFree:"%string) then mkStats (total_bytes s) (u64 (value * 1024)) (stat_available s)
              else if bool_decide (key = "MemAvailable:"%string) then mkStats (total_bytes s) (free_bytes s) (u64 (value * 1024))
              else s
          end
      end
  end.

(** [None]: /proc/meminfo cannot be opened. *)
Definition get_stats_linux (file : option (list ascii)) : MemoryStats :=
  match file with
  | None => no_stats
  | Some text => fold_left (fun s line => read_line line s) (get_lines text []) no_stats
  end.

(** [GlobalMemoryStatusEx]: total and available physical memory, or a failure. *)
Definition get_stats_win (status : option (Z * Z)) : MemoryStats :=
  match status with
  | Some (ullTotalPhys, ullAvailPhys) => mkStats ullTotalPhys ullAvailPhys ullAvailPhys
  | None => no_stats
  end.

(** [host_statistics64]: free and inactive pages, 32-bit counts whose sum wraps. *)
Definition get_stats_mac (pagesize memsize : Z) (counts : option (Z * Z)) : MemoryStats :=
  match counts with
  | Some (free_count, inactive_count) => mkStats memsize (u64 (free_count * pagesize)) (u64 (u32 (free_count + inactive_count) * pagesize))
  | None => no_stats
  end.

(** ** The polling threads *)

Definition kPressureThreshold : Z := 500 * 1024 * 1024.

Section poll.
Context {S : Type}.

(** A turn after [wait_for] timed out: the callback that is set, and the file. *)
Definition poll_turn (callback : option (M S unit)) (file : option (list ascii)) : M S unit :=
  match callback with
  | Some cb => if stat_available (get_stats_linux file) <? kPressureThreshold then cb else ret tt
  | None => ret tt
  end.

(** How a wait ends: [running_] is false, or two seconds have passed. *)
Inductive Wake :=
| WakeStop
| WakeTimeout (callback : option (M S unit)) (file : option (list ascii)).

Fixpoint poll_loop (wakes : list Wake) : M S unit :=
  match wakes with
  | [] => ret tt
  | WakeStop :: _ => ret tt
  | WakeTimeout cb file :: wakes => do! poll_turn cb file in poll_loop wakes
  end.

(** The Windows thread looks at [running_] before it sleeps only: the flag, and what
    there is after the sleep. *)
Fixpoint win_poll_loop (turns : list (bool * option (M S unit) * option (Z * Z))) : M S unit :=
  match turns with
  | [] => ret tt
  | (running, cb, status) :: turns =>
      if negb running then ret tt
      else
        do! match cb with
            | Some cb => if stat_available (get_stats_win status) <? kPressureThreshold then cb else ret tt
            | None => ret tt
            end in
        win_poll_loop turns
  end.
End poll.

(** ** The format of /proc/meminfo *)

(** A line: a name, blanks, a number, and the unit if the kernel prints one. *)
Record Entry := mkEntry { e_name : string; e_blanks : nat; e_value : Z; e_unit : bool }.

Definition entry_ok (e : Entry) : Prop := Forall (fun c => is_space c = false) (list_ascii_of_string (e_name e)) /\ is_u64 (e_value e).

Definition blank : ascii := ascii_of_nat 32.

Definition entry_text (e : Entry) : list ascii :=
  list_ascii_of_string (e_name e) ++ [ascii_of_nat 58] ++ replicate (S (e_blanks e)) blank ++
  list_ascii_of_string (pretty (Z.to_N (e_value e))) ++ (if e_unit e then list_ascii_of_string " kB" else []).

Definition meminfo_text (es : list Entry) : list ascii := concat ((fun e => entry_text e ++ [newline]) <$> es).

(** The last entry of a name that has a unit, in bytes. *)
Definition entry_bytes (name : string) (es : list Entry) : Z :=
  default 0 ((fun e => u64 (e_value e * 1024)) <$> last (filter (fun e => e_name e = name /\ e_unit e = true) es)).

(** *** Numbers *)

Lemma take_digits_char acc x l : (x < 10)%N -> take_digits acc (pretty_N_char x :: l) = take_digits (10 * acc + Z.of_N x) l.
Proof.
  intros Hx. assert (Hc : is_digit (pretty_N_char x) = true /\ char_code (pretty_N_char x) - 48 = Z.of_N x).
  { assert (x ∈ [0; 1; 2; 3; 4; 5; 6; 7; 8; 9]%N) as Hin by (rewrite !elem_of_cons; lia).
    repeat (apply elem_of_cons in Hin as [->|Hin]; [by vm_compute|]). by apply elem_of_nil in Hin. }
  destruct Hc as [Hd Hc]. cbn [take_digits]. by rewrite Hd, Hc.
Qed.

Lemma take_digits_pretty x : forall s r,
  take_digits 0 (list_ascii_of_string (pretty_N_go x s) ++ r) = take_digits (Z.of_N x) (list_ascii_of_string s ++ r).
Proof.
  induction (N.lt_wf_0 x) as [x _ IH]; intros s r. destruct (decide (x = 0)%N) as [->|Hx]; [by rewrite pretty_N_go_0|].
  rewrite pretty_N_go_step by lia. rewrite IH by (apply N.div_lt; lia).
  change (list_ascii_of_string (String ?c s) ++ r) with (c :: list_ascii_of_string s ++ r).
  rewrite take_digits_char by (apply N.mod_lt; lia). f_equal. rewrite (N.div_mod x 10) at 3 by done. lia.
Qed.

Lemma pretty_go_first x : forall s, (0 < x)%N -> exists c l, list_ascii_of_string (pretty_N_go x s) = c :: l /\ is_digit c = true.
Proof.
  induction (N.lt_wf_0 x) as [x _ IH]; intros s Hx. rewrite pretty_N_go_step by done.
  destruct (decide (x / 10 = 0)%N) as [Hz|Hz]; [|apply IH; [apply N.div_lt; lia|by apply N.neq_0_lt_0]].
  rewrite Hz, pretty_N_go_0. eexists _, _. split; [reflexivity|].
  pose proof (N.mod_lt x 10 ltac:(done)) as Hm.
  set (y := (x mod 10)%N) in *. clearbody y. assert (y ∈ [0; 1; 2; 3; 4; 5; 6; 7; 8; 9]%N) as Hin by (rewrite !elem_of_cons; lia).
  clear -Hin. repeat (apply elem_of_cons in Hin as [->|Hin]; [by vm_compute|]). by apply elem_of_nil in Hin.
Qed.

(** The decimal text of a number, followed by something else. *)
Lemma pretty_digits n r : 0 <= n -> match r with c :: _ => is_digit c = false | [] => True end ->
  take_digits 0 (list_ascii_of_string (pretty (Z.to_N n)) ++ r) = (n, r) /\
  exists c l, list_ascii_of_string (pretty (Z.to_N n)) = c :: l /\ is_digit c = true.
Proof.
  intros Hn Hr. assert (Hend : take_digits n r = (n, r)) by (destruct r; cbn; [done|by rewrite Hr]).
  unfold pretty, pretty_N. destruct (decide (Z.to_N n = 0)%N) as [Hz|Hz].
  - assert (n = 0) as -> by lia. split; [exact Hend|by eexists _, _].
  - split; [|apply pretty_go_first; lia]. rewrite take_digits_pretty. cbn [list_ascii_of_string app]. by rewrite Z2N.id.
Qed.

Lemma digit_not_space c : is_digit c = true -> is_space c = false /\ (char_code c =? 45) = false /\ (char_code c =? 43) = false.
Proof. unfold is_digit, is_space. intros [H1 H2]%andb_prop. apply Z.leb_le in H1, H2. zcase; split_and!; lia || done. Qed.

Lemma skip_blanks n l : match l with c :: _ => is_space c = false | [] => True end -> skip_space (replicate n blank ++ l) = l.
Proof. intros Hl. induction n as [|n IH]; [destruct l as [|c l]; [done|]; cbn; by rewrite Hl|exact IH]. Qed.

Lemma get_size_pretty k n r : is_u64 n -> match r with c :: _ => is_digit c = false | [] => True end ->
  get_size (replicate k blank ++ list_ascii_of_string (pretty (Z.to_N n)) ++ r) = Some (n, r).
Proof.
  intros Hn Hr. destruct (pretty_digits n r ltac:(apply Hn) Hr) as (Hd & c & l & Hp & Hc). destruct (digit_not_space _ Hc) as (Hs & Hm & Hpl).
  unfold get_size. cbv zeta. rewrite skip_blanks by (by rewrite Hp). rewrite Hp in Hd |- *. cbn [app] in *. rewrite Hm, Hpl. cbn [orb]. rewrite Hc, Hd. cbn [fst snd].
  destruct (Z.ltb_spec SIZE_MAX n); [unfold is_u64, SIZE_MAX in *; lia|done].
Qed.

(** *** Words and lines *)

Lemma take_word_spec w r : Forall (fun c => is_space c = false) w -> match r with c :: _ => is_space c = true | [] => True end ->
  take_word (w ++ r) = (w, r).
Proof.
  intros Hw Hr. induction Hw as [|c w Hc _ IH]; cbn; [destruct r; [done|cbn; by rewrite Hr]|]. by rewrite Hc, IH.
Qed.

Lemma get_lines_spec ls : forall cur, Forall (fun l => newline ∉ l) ls ->
  get_lines (concat ((fun l => l ++ [newline]) <$> ls)) cur = match ls with [] => match cur with [] => [] | _ => [cur] end | l :: ls => (cur ++ l) :: ls end.
Proof.
  induction ls as [|l ls IH]; intros cur Hl; [done|]. apply Forall_cons in Hl as [Hl Hls]. cbn [fmap list_fmap concat].
  revert cur. induction l as [|c l IHl]; intros cur.
  - cbn. rewrite app_nil_r, (IH [] Hls). by destruct ls.
  - apply not_elem_of_cons in Hl as [Hc Hl]. cbn [app get_lines]. rewrite bool_decide_eq_false_2 by done. rewrite (IHl Hl). by rewrite <- app_assoc.
Qed.

Lemma entry_one_line e : entry_ok e -> newline ∉ entry_text e.
Proof.
  intros [Hn Hv]. unfold entry_text. rewrite !not_elem_of_app. split_and!.
  - intros Hin. rewrite Forall_forall in Hn. specialize (Hn _ Hin). by vm_compute in Hn.
  - set_solver.
  - intros [H _]%elem_of_replicate. by vm_compute in H.
  - intros Hin. assert (Hd : forall x s, Forall (fun c => c <> newline) (list_ascii_of_string s) -> Forall (fun c => c <> newline) (list_ascii_of_string (pretty_N_go x s))).
    { clear. intros x. induction (N.lt_wf_0 x) as [x _ IH]; intros s Hs. destruct (decide (x = 0)%N) as [->|Hx]; [by rewrite pretty_N_go_0|].
      rewrite pretty_N_go_step by lia. apply IH; [apply N.div_lt; lia|]. constructor; [|done]. unfold pretty_N_char. by repeat case_match. }
    unfold pretty, pretty_N in Hin. case_decide; [set_solver|]. specialize (Hd (Z.to_N (e_value e)) "" ltac:(constructor)).
    rewrite Forall_forall in Hd. by apply (Hd newline).
  - destruct (e_unit e); set_solver.
Qed.

(** What the code makes of an entry. *)
Definition set_stat (e : Entry) (s : MemoryStats) : MemoryStats :=
  let v := u64 (e_value e * 1024) in
  if e_unit e then
    mkStats (if bool_decide (e_name e = "MemTotal"%string) then v else total_bytes s) (if bool_decide (e_name e = "MemFree"%string) then v else free_bytes s)
      (if bool_decide (e_name e = "MemAvailable"%string) then v else stat_available s)
  else s.

Lemma key_name (name key : string) :
  bool_decide (string_of_list_ascii (list_ascii_of_string name ++ [ascii_of_nat 58]) = String.append key (String (ascii_of_nat 58) "")) = bool_decide (name = key).
Proof.
  apply bool_decide_ext. split; [|intros ->].
  - intros H. apply (f_equal list_ascii_of_string) in H. rewrite list_ascii_of_string_of_list_ascii in H.
    assert (Ha : forall k, list_ascii_of_string (String.append k (String (ascii_of_nat 58) "")) = list_ascii_of_string k ++ [ascii_of_nat 58]).
    { induction k as [|c k IH]; [done|]. exact (f_equal (cons c) IH). }
    rewrite Ha in H. apply app_inj_tail in H as [H _]. rewrite <- (string_of_list_ascii_of_string name), H. apply string_of_list_ascii_of_string.
  - induction key as [|c k IH]; [done|]. exact (f_equal (String c) IH).
Qed.

Lemma read_line_entry e s : entry_ok e -> read_line (entry_text e) s = set_stat e s.
Proof.
  intros [Hn Hv]. unfold read_line, entry_text. rewrite (app_assoc (list_ascii_of_string (e_name e))). set (w := _ ++ [ascii_of_nat 58]).
  assert (Hw : Forall (fun c => is_space c = false) w) by (apply Forall_app; split; [done|by repeat constructor]).
  assert (Hs : forall r, skip_space (w ++ r) = w ++ r).
  { intros r. unfold w in *. destruct (list_ascii_of_string (e_name e)); [done|]. apply Forall_cons in Hw as [Hc _]. cbn. by rewrite Hc. }
  assert (Hg : forall r, get_word (w ++ replicate (S (e_blanks e)) blank ++ r) = Some (w, replicate (S (e_blanks e)) blank ++ r)).
  { intros r. unfold get_word. rewrite Hs, take_word_spec by done. unfold w. by destruct (list_ascii_of_string (e_name e)). }
  rewrite Hg. rewrite get_size_pretty by (done || by destruct (e_unit e)). unfold set_stat. destruct (e_unit e); [|done].
  change (get_word (list_ascii_of_string " kB")) with (Some (list_ascii_of_string "kB", [] : list ascii)). cbn beta iota. cbv zeta.
  change "MemTotal:"%string with (String.append "MemTotal" (String (ascii_of_nat 58) "")).
  change "MemFree:"%string with (String.append "MemFree" (String (ascii_of_nat 58) "")).
  change "MemAvailable:"%string with (String.append "MemAvailable" (String (ascii_of_nat 58) "")).
  unfold w. rewrite !key_name. repeat case_bool_decide; try congruence. by destruct s.
Qed.

Lemma entry_bytes_snoc name es e :
  entry_bytes name (es ++ [e]) = if e_unit e && bool_decide (e_name e = name) then u64 (e_value e * 1024) else entry_bytes name es.
Proof.
  unfold entry_bytes. rewrite filter_app, filter_cons, filter_nil.
  destruct (e_unit e) eqn:Hu; cbn [andb]; [case_bool_decide|]; (case_decide; [|rewrite ?app_nil_r; naive_solver]); [|naive_solver..].
  by rewrite last_snoc.
Qed.

(** ** Properties *)

(** C26: The Linux monitor reads /proc/meminfo as the kernel writes it: for lines in
    the kernel's format, in any order, whatever other fields there are, each figure is
    that of the last line of its name, times 1024 modulo 2^64, and 0 if there is none;
    lines without a unit (counts of pages) never count. *)
Theorem linux_stats_exact es : Forall entry_ok es ->
  get_stats_linux (Some (meminfo_text es)) =
    mkStats (entry_bytes "MemTotal" es) (entry_bytes "MemFree" es) (entry_bytes "MemAvailable" es).
Proof.
  intros Hes. unfold get_stats_linux, meminfo_text.
  assert (Hl : get_lines (concat ((fun e => entry_text e ++ [newline]) <$> es)) [] = entry_text <$> es).
  { replace ((fun e => entry_text e ++ [newline]) <$> es) with ((fun l => l ++ [newline]) <$> (entry_text <$> es)) by (symmetry; exact (list_fmap_compose entry_text (fun l => l ++ [newline]) es)).
    rewrite get_lines_spec; [by destruct es|]. apply Forall_fmap. eapply Forall_impl; [done|]. apply entry_one_line. }
  rewrite Hl. clear Hl. induction es as [|e es IH] using rev_ind; [done|]. apply Forall_app in Hes as [Hes He]. apply Forall_cons in He as [He _].
  rewrite fmap_app, fold_left_app. cbn [fmap list_fmap fold_left]. rewrite (IH Hes), read_line_entry by done. rewrite !entry_bytes_snoc.
  unfold set_stat. by destruct (e_unit e).
Qed.

(** *** Witness *)

Definition demo_meminfo : list Entry :=
  [mkEntry "MemTotal" 7 16316412 true; mkEntry "MemFree" 8 402 true; mkEntry "MemAvailable" 3 512000 true; mkEntry "Buffers" 8 9 true;
   mkEntry "HugePages_Total" 6 0 false; mkEntry "MemFree" 0 77 false].

Lemma linux_stats_exact_witness : Forall entry_ok demo_meminfo /\
  get_stats_linux (Some (meminfo_text demo_meminfo)) = mkStats 16708005888 411648 524288000.
Proof.
  assert (H : Forall entry_ok demo_meminfo).
  { unfold demo_meminfo. repeat constructor; unfold U64; cbn; lia. }
  split; [exact H|]. etransitivity; [exact (linux_stats_exact demo_meminfo H)|]. by vm_compute.
Defined.
