(* ===== verification/Pressure.v ===== *)
(** * The client under memory pressure

    The memory monitor's thread calls back into the client ([client_api.cpp], the
    constructor's lambda): [on_pressure] evicts blocks to the peers.  Between calls of
    the application that is invisible, or ends the process; in the middle of an
    eviction the other thread sees a handle that is nowhere. *)

From S2P Require Import Prelude Framing Slab PageTracker Crc32c Pool MemoryProtocol LruCache RemoteStore MemoryClient MemoryClientSpec Transparency MemoryMonitor.

Section pressure.
Context {World : Type} `{!PeerNet World} {PSort : PeerSort} `{!RemoteStore World}.
Abbreviation Client := (MemoryClient World).
Implicit Types (m : Client) (w : World).

(** ** The callback *)

Definition on_pressure : M Client unit :=
  let! m := get in
  evict_if_needed (Z.max (current_size (cache_ m) / 2) 1048576).

(** The application's calls, and polls of the monitor between them.  An exception
    that leaves the monitor's thread ends the process. *)
Inductive sys_event :=
| SysCall (op : client_op)
| SysPoll (file : option (list Ascii.ascii)).

Fixpoint sys_run (evs : list sys_event) (m : Client) : list (outcome client_result) * outcome unit * Client :=
  match evs with
  | [] => ([], Ret tt, m)
  | SysCall op :: evs =>
      let '(o, m) := client_exec op m in
      let '(os, e, m) := sys_run evs m in
      (o :: os, e, m)
  | SysPoll file :: evs =>
      match poll_turn (Some on_pressure) file m with
      | (Ret _, m) => sys_run evs m
      | (o, m) => ([], o, m)
      end
  end.

Definition sys_calls (evs : list sys_event) : list client_op :=
  omap (fun ev => match ev with SysCall op => Some op | SysPoll _ => None end) evs.

(** ** Inside an eviction

    One turn of the loop of [evict_if_needed], which holds a lock only within its
    calls of the cache and of the table, with calls of another thread after the block
    has left the cache and after it has entered the table. *)

Definition app_calls (ops : list client_op) : M Client (list (outcome client_result)) :=
  fun m => (Ret (fst (client_run ops m)), snd (client_run ops m)).

Definition evict_interleaved (calls1 calls2 : list client_op) : M Client (list (outcome client_result)) :=
  let! evicted := on_cache evict_one in
  match evicted with
  | None => ret []
  | Some b =>
      let! r1 := app_calls calls1 in
      catch
        (do! allocate_remote (blk_handle b) (zlen (blk_data b)) in
         let! alloc := lookup_remote (blk_handle b) in
         match alloc with
         | None => throw (runtime_error "Remote allocation vanished after allocate")
         | Some alloc =>
             let! r2 := app_calls calls2 in
             do! write_remote alloc 0 (blk_data b) in
             ret (r1 ++ r2)
         end)
        (fun e => do! roll_back b e in ret r1)
  end.

(** Without other calls it is the loop's turn. *)
Lemma evict_interleaved_nil m :
  evict_interleaved [] [] m = (let! evicted := on_cache evict_one in match evicted with None => ret [] | Some b => do! push_block b in ret [] end) m.
Proof.
  unfold evict_interleaved, push_block, app_calls, lookup_remote. munfold. cbn [client_run fst snd app].
  destruct (on_cache evict_one m) as [[[b|]|e| |] m1]; try done. repeat (case_match; simplify_eq); done.
Qed.

(** ** Polls between calls *)

Lemma on_pressure_keeps m : client_wf m -> wp on_pressure (fun _ m' => client_keeps m m') (fun _ m' => client_keeps m m') m.
Proof. intros Hwf. apply wp_bind, wp_get. eapply wp_mono; [by apply evict_if_needed_keeps|by intros _ m' [? _]..]. Qed.

Lemma poll_keeps file m : client_wf m -> wp (poll_turn (Some on_pressure) file) (fun _ m' => client_keeps m m') (fun _ m' => client_keeps m m') m.
Proof.
  intros Hwf. cbn [poll_turn]. destruct (_ <? _); [by apply on_pressure_keeps|]. unfold wp. cbn. by apply client_keeps_refl.
Qed.

Lemma sys_run_trace evs : forall s m,
  Forall (op_ok (max_bytes_ (cache_ m))) (sys_calls evs) -> represents m s -> 0 <= mem_next s -> mem_next s + zlen (sys_calls evs) < U64 ->
  let r := sys_run evs m in
  exists s', mem_trace (take (length r.1.1) (sys_calls evs)) r.1.1 s s' /\ represents r.2 s' /\
    ((r.1.2 = Ret tt /\ length r.1.1 = length (sys_calls evs)) \/ exists e, r.1.2 = Throw e).
Proof.
  induction evs as [|[op|file] evs IH]; intros s m Hops Hr H0 Hlt; cbv zeta.
  - exists s. split; [constructor|]. split; [done|]. by left.
  - change (sys_calls (SysCall op :: evs)) with (op :: sys_calls evs) in *. cbn [sys_run].
    apply Forall_cons in Hops as [Hop Hops]. rewrite zlen_cons in Hlt. pose proof (zlen_nonneg (sys_calls evs)).
    pose proof (client_exec_outcome s m op Hop Hr H0 ltac:(lia)) as Ho. unfold mem_outcome in Ho.
    destruct (client_exec op m) as [o m1] eqn:E. pose proof (wp_elim _ _ _ _ _ _ Ho E) as Hpost.
    assert (Hgo : forall s1, represents m1 s1 -> same_budget m m1 -> mem_next s <= mem_next s1 <= mem_next s + 1 ->
      (forall os s2, mem_trace (take (length os) (sys_calls evs)) os s1 s2 -> mem_trace (take (S (length os)) (op :: sys_calls evs)) (o :: os) s s2) ->
      let r := (let '(os, e, m2) := sys_run evs m1 in (o :: os, e, m2)) in
      exists s', mem_trace (take (length r.1.1) (op :: sys_calls evs)) r.1.1 s s' /\ represents r.2 s' /\
        ((r.1.2 = Ret tt /\ length r.1.1 = length (op :: sys_calls evs)) \/ exists e, r.1.2 = Throw e)).
    { intros s1 Hr1 Hb Hn Ht. rewrite <- Hb in Hops. destruct (IH s1 m1 Hops Hr1 ltac:(lia) ltac:(lia)) as (s' & Htr & Hr' & Hend).
      destruct (sys_run evs m1) as [[os e] m2]. cbn [fst snd] in *. exists s'. split; [by apply Ht|]. split; [done|].
      destruct Hend as [[-> Hl]|He]; [left; split; [done|cbn; by rewrite Hl]|by right]. }
    destruct o as [r|e| |]; try done.
    + destruct Hpost as [(s1 & Hr1 & Hs1) Hb]. apply (Hgo s1 Hr1 Hb); [by eapply mem_step_next|]. intros os s2 Ht. by eapply trace_done.
    + destruct Hpost as [Hpost Hb]. apply (Hgo _ Hpost Hb); [by apply mem_failed_next|]. intros os s2 Ht. by apply trace_fail.
  - change (sys_calls (SysPoll file :: evs)) with (sys_calls evs) in *. cbn [sys_run].
    pose proof (poll_keeps file m (rp_wf _ _ Hr)) as Hp. destruct (poll_turn (Some on_pressure) file m) as [o m1] eqn:E.
    pose proof (wp_elim _ _ _ _ _ _ Hp E) as Hk. destruct o as [[]|e| |]; try done.
    + apply IH; try done; [by rewrite (ck_max _ _ Hk)|by eapply represents_keeps].
    + cbn [fst snd length take]. exists s. split; [constructor|]. split; [by eapply represents_keeps|]. right. by exists e.
Qed.

(** ** The exceptions *)

Definition invalid_handle : exn := invalid_argument "Invalid handle or block not found".
Definition no_room : exn := runtime_error "Failed to allocate on any peer: out of memory on all peers".




(** ** Properties *)

(** C11: Pressure is invisible or fatal.  However the monitor's polls fall between the
    calls of an application, and whatever /proc/meminfo says, each call has a result
    that plain memory allows as if the evictions had not happened, or throws and
    leaves every block as it was, and every handle keeps its bytes; the only other end
    is an exception in the monitor's thread.  The cache may have any size.  Conditions,
    as for the client alone: connections stay up and calls to peers are answered
    ([RemoteStore]), and calls, and the blocks that fit in the cache, fit in one
    message ([op_ok]).  A poll falls between calls, not inside one. *)
Theorem pressure_invisible max w evs :
  0 <= max -> 2 * max < U64 -> world_ok w -> Forall (op_ok max) (sys_calls evs) -> 1 + zlen (sys_calls evs) < U64 ->
  let r := sys_run evs (MemoryClient_new max w) in
  exists s', mem_trace (take (length r.1.1) (sys_calls evs)) r.1.1 (mkMemory ∅ 1) s' /\
    (forall h, value r.2 h = mem_blocks s' !! h) /\
    ((r.1.2 = Ret tt /\ length r.1.1 = length (sys_calls evs)) \/ exists e, r.1.2 = Throw e).
Proof.
  intros H0 Hmax Hw Hops Hlt r. destruct (sys_run_trace evs (mkMemory ∅ 1) (MemoryClient_new max w)) as (s' & Ht & Hr & He);
    [done|by apply represents_new|done..|]. exists s'. split; [done|]. split; [apply Hr|done].
Qed.


(** C20: An eviction has a window.  Once [evict_one] has taken a block out of the
    cache, and until the peer has its place, another thread's reads and writes of the
    valid handle throw "Invalid handle", and its free does nothing: the block comes
    back on the peer.  From there until it has been sent, reads return zeros. *)
Theorem eviction_window m s b :
  represents m s -> last (cache_abs (cache_ m)) = Some b ->
  exists m1, on_cache evict_one m = (Ret (Some b), m1) /\ value m (blk_handle b) = Some (blk_data b) /\
    (forall off n, exists m', client_read (blk_handle b) off n m1 = (Throw invalid_handle, m')) /\
    (forall off d, exists m', client_write (blk_handle b) off d m1 = (Throw invalid_handle, m')) /\
    (exists m2, client_free (blk_handle b) m1 = (Ret tt, m2) /\
       wp (push_block b) (fun _ m3 => value m3 (blk_handle b) = Some (blk_data b)) (fun _ m3 => value m3 (blk_handle b) = Some (blk_data b)) m2) /\
    (forall m2 off n d m3, allocate_remote (blk_handle b) (zlen (blk_data b)) m1 = (Ret tt, m2) -> 0 <= off -> 0 <= n ->
       client_read (blk_handle b) off n m2 = (Ret d, m3) -> d = slice off n (replicate (length (blk_data b)) x00)).
Proof.
  intros Hr El. pose proof (rp_wf _ _ Hr) as Hwf. destruct (pop_sets m Hwf) as (c' & Hp & Hpost). rewrite El in Hp, Hpost.
  destruct Hpost as (Hs & Hv & Hroom & _ & Hrn). exists (set_cache c' m). split; [by apply on_cache_run|]. split; [done|].
  set (m1 := set_cache c' m) in *. set (h := blk_handle b) in *. pose proof (cs_wf _ _ _ _ Hs) as Hwf1.
  assert (Hv1 : value m1 h = None) by (by rewrite (cs_value _ _ _ _ Hs), decide_True). destruct (proj1 (value_None _ _) Hv1) as [Hc1 Hr1].
  assert (Hh : h < next_local_handle_ m1) by (by eapply Hwf).
  destruct (get_keeps m1 h Hwf1) as (c2 & Hg & _ & _). rewrite Hc1 in Hg. change (blk_data <$> None) with (@None (list byte)) in Hg.
  apply on_cache_run in Hg. set (m1' := set_cache c2 m1) in *. change (remote_handles_ m1) with (remote_handles_ m1') in Hr1.
  assert (Hov : oversized_remote_alloc h m1' = (Ret None, m1')) by (unfold oversized_remote_alloc; rewrite bind_get, Hr1; done).
  assert (Hld : load_to_local h m1' = (Throw invalid_handle, m1')).
  { unfold load_to_local, lookup_remote, bind at 1. rewrite bind_get, Hr1. done. }
  split_and!.
  - intros off n. exists m1'. unfold client_read. rewrite (bind_ret _ _ _ _ _ Hg), (bind_ret _ _ _ _ _ Hov). by rewrite (bind_throw _ _ _ _ _ Hld).
  - intros off d. exists m1'. unfold client_write. rewrite (bind_ret _ _ _ _ _ Hg), (bind_ret _ _ _ _ _ Hov). by rewrite (bind_throw _ _ _ _ _ Hld).
  - destruct (cache_remove_spec (cache_ m1) h (cl_cache _ Hwf1)) as (c3 & Hrm & Hwf3 & Hm3 & Ha3).
    unfold spec_remove in Hrm, Ha3. cbn [fst snd] in Hrm, Ha3. change (find_block h (cache_abs (cache_ m1))) with (cached m1 h) in Hrm. rewrite Hc1 in Hrm.
    rewrite find_without_absent in Ha3 by done. set (m3 := set_cache c3 m1).
    assert (Hk : client_keeps m1 m3) by (apply cache_keeps; try done; intros k; by rewrite Ha3).
    exists m3. split.
    + unfold client_free. rewrite (bind_ret _ _ _ _ _ (on_cache_run _ _ _ _ Hrm)). unfold lookup_remote, bind at 1. rewrite bind_get. change (remote_handles_ (set_cache c3 m1)) with (remote_handles_ m1'). by rewrite Hr1.
    + assert (Hset : forall m', client_sets h (Some (blk_data b)) m3 m' -> value m' h = Some (blk_data b)) by (intros m' H'; by rewrite (cs_value _ _ _ _ H'), decide_True).
      eapply wp_mono; [apply push_block_spec| |].
      * apply Hk.
      * by rewrite (ck_value _ _ Hk).
      * by rewrite (ck_next _ _ Hk).
      * unfold room. cbn. by rewrite Ha3, Hm3.
      * eapply room_small; [exact Hwf|exact Hv|exact Hroom|apply Hs].
      * cbn. intros _ m' [H' _]. by apply Hset.
      * cbn. intros _ m' [H' _]. by apply Hset.
  - intros m2 off n d m3 Ha Ho Hn Hrd.
    pose proof (wp_elim _ _ _ _ _ _ (allocate_remote_spec h (zlen (blk_data b)) m1 (cl_world _ Hwf1) (zlen_nonneg _)) Ha) as (a & mx & Hns & -> & Hfr).
    assert (Hb : zlen (blk_data b) <= MAX_PAYLOAD) by (eapply room_small; [exact Hwf|exact Hv|exact Hroom|apply Hs]).
    pose proof (table_insert _ _ _ _ _ Hwf1 Hv1 Hh Hns (fun _ => Hb) Hfr) as Hs2. pose proof (represents_deletes _ _ _ _ Hr Hs) as Hrep1.
    pose proof (represents_sets _ _ _ _ _ Hrep1 Hs2) as Hrep2.
    assert (Hsmall : forall v, value (set_remote (<[h:=a]> (remote_handles_ m1)) mx) h = Some v -> off + n <= zlen v -> n <= MAX_PAYLOAD).
    { intros v Hv2 Hle. rewrite (cs_value _ _ _ _ Hs2), decide_True in Hv2 by done. injection Hv2 as <-.
      rewrite zlen_zeros in Hle by apply zlen_nonneg. lia. }
    pose proof (client_read_outcome _ _ h off n Ho Hn Hsmall Hrep2) as Hout.
    destruct (wp_elim _ _ _ _ _ _ Hout Hrd) as [(s' & _ & Hstep) _]. cbn [mem_step mem_access mem_blocks] in Hstep. unfold mem_access in Hstep. cbn [mem_blocks] in Hstep.
    rewrite lookup_insert_eq in Hstep. destruct (out_of_bounds _ _ _); [done|]. injection Hstep as <- _. f_equal. unfold zeros, zlen. by rewrite Nat2Z.id.
Qed.
End pressure.

(** *** Witnesses: a cache of 4 bytes and the two peers of [Transparency], or none *)

Section demo.
#[local] Existing Instance sort_id.
#[local] Existing Instance demo_net.
#[local] Existing Instance demo_store.

Definition demo_pressure_start : list client_op := [OpAllocate 3; OpWrite 1 0 [x01; x02; x03]].

Lemma demo_pressure_start_ok : Forall (op_ok 4) demo_pressure_start.
Proof. repeat constructor; cbn; unfold MAX_PAYLOAD, MAX_MESSAGE_SIZE, zlen; cbn; lia. Qed.

Definition started (w : PoolWorld) : MemoryClient PoolWorld := (client_run demo_pressure_start (MemoryClient_new 4 w)).2.

Lemma started_represents w : world_ok w -> exists s, represents (started w) s.
Proof.
  intros Hw. destruct (client_run_trace demo_pressure_start (mkMemory ∅ 1) (MemoryClient_new 4 w)) as (s & _ & Hs).
  - exact demo_pressure_start_ok.
  - apply represents_new; [lia|unfold U64; lia|done].
  - done.
  - vm_compute. done.
  - by exists s.
Qed.

(** A peer that is known and not connected. *)
Definition lone_world : PoolWorld := mkWorld [mkPeer "10.0.0.1" 9090 false 8 0 true] (fun _ => mkPool ∅ 1 3 4) 0.


Definition demo_pressure : list sys_event :=
  [SysCall (OpAllocate 3); SysCall (OpWrite 1 0 [x01; x02; x03]); SysPoll None; SysCall (OpRead 1 0 3)].

Lemma pressure_invisible_witness :
  exists s', mem_trace (take (length (sys_run demo_pressure (MemoryClient_new 4 demo_world)).1.1) (sys_calls demo_pressure))
    (sys_run demo_pressure (MemoryClient_new 4 demo_world)).1.1 (mkMemory ∅ 1) s'.
Proof.
  destruct (pressure_invisible 4 demo_world demo_pressure) as (s' & Ht & _).
  - lia.
  - unfold U64. lia.
  - exact demo_world_ok.
  - repeat constructor; cbn; unfold MAX_PAYLOAD, MAX_MESSAGE_SIZE, zlen; cbn; lia.
  - unfold U64, zlen. cbn. lia.
  - exists s'. exact Ht.
Defined.


Lemma eviction_window_witness : exists m1, on_cache evict_one (started demo_world) = (Ret (Some (mkBlock 1 [x01; x02; x03] true)), m1) /\
  exists m', client_read 1 0 3 m1 = (Throw invalid_handle, m').
Proof.
  destruct (started_represents demo_world demo_world_ok) as [s Hs].
  destruct (eviction_window (started demo_world) s (mkBlock 1 [x01; x02; x03] true) Hs) as (m1 & He & _ & Hr & _); [vm_compute; done|].
  exists m1. split; [exact He|]. exact (Hr 0 3).
Defined.

(** A read in the second window pulls the zeros back into the cache and frees the
    peer's object; the write that follows is refused and the refusal ignored, so the
    block is zeros for good. *)
Example eviction_loses_block :
  let r := evict_interleaved [] [OpRead 1 0 3] (started demo_world) in
  value (started demo_world) 1 = Some [x01; x02; x03] /\ r.1 = Ret [Ret (RBytes [x00; x00; x00])] /\ (client_read 1 0 3 r.2).1 = Ret [x00; x00; x00].
Proof. vm_compute. done. Qed.

(** A block allocated in the first window takes the room of the one that is out; when
    no peer takes that one, putting it back silently drops the new block. *)
Example roll_back_drops_block :
  let r := evict_interleaved [OpAllocate 4; OpWrite 2 0 [x09]] [] (started lone_world) in
  r.1 = Throw no_room /\ (client_read 2 0 4 r.2).1 = Throw invalid_handle.
Proof. vm_compute. done. Qed.
End demo.
