(* ===== verification/ClientLifecycle.v ===== *)
(** * The memory client's threads, from construction to destruction

    [memclient/src/client_api.cpp]: what the constructor connects, the timed wait for
    a first peer ([wait_for_connected_peer]) and the discovery thread
    ([discovery_loop]), the callback of [stop_async_] and the destructor.  The
    connections themselves are [ClientNet]. *)

From S2P Require Import Prelude Common Framing Slab PageTracker Crc32c Pool MemoryProtocol RemoteStore ClientNet.

Section lifecycle.
Context {W : MemoryWire} {CW : ControlWire}.

(** ** Construction *)

(** The constructor, up to the threads: a peer given directly, or what discoveryd says. *)
Definition MemoryClient_connect (test_ip : string) (test_port : Z) (attempt : Z -> ConnectAttempt) (now : Z) (reply : option (list byte)) : M ClientNet unit :=
  if negb (bool_decide (test_ip = ""%string)) && (0 <? test_port) then
    let! r := ensure_peer test_ip test_port in start_connect (attempt (fst r)) (fst r)
  else
    do! connect_to_peers now (query_discovery reply) in
    drain_pending_connects attempt.

(** Whether a discovery thread is started. *)
Definition discovery_running (test_ip : string) (test_port : Z) : bool := bool_decide (test_ip = ""%string) || (test_port <=? 0).

Lemma connect_wp test_ip test_port attempt now reply n : net_wf n ->
  wp (MemoryClient_connect test_ip test_port attempt now reply) (fun _ n' => net_moves n n') (fun _ _ => False) n.
Proof.
  intros Hwf. unfold MemoryClient_connect. destruct (_ && _); apply wp_bind.
  - eapply wp_mono; [by apply ensure_peer_wp| |done]. cbn beta. intros [i c] n1 (Hm & p & Hi & _). cbn [fst].
    eapply wp_mono; [apply start_connect_wp; [apply Hm|by exists p]| |done]. cbn beta. intros _ n2 Hm2. by eapply net_moves_trans.
  - eapply wp_mono; [by apply connect_to_peers_wp| |done]. cbn beta. intros _ n1 Hm.
    eapply wp_mono; [apply drain_wp, Hm| |done]. cbn beta. intros _ n2 Hm2. by eapply net_moves_trans.
Qed.

(** ** Waiting for a peer *)

Definition has_connected (n : ClientNet) : bool := existsb (fun p => connected (np_peer p)) (net_peers n).

Definition PEER_WAIT_TIMEOUT : Z := 3000.

(** [wait_for_connected_peer] in milliseconds, from the check of its loop at time
    [now]: how many rounds it makes and what it returns.  During a sleep the network
    thread runs callbacks, and at least the time of the sleep goes by. *)
Inductive waits (deadline : Z) : Z -> Z -> ClientNet -> nat -> bool -> ClientNet -> Prop :=
| waits_timeout backoff now n : deadline <= now -> waits deadline backoff now n 0 (has_connected n) n
| waits_found backoff now n : now < deadline -> has_connected n = true -> waits deadline backoff now n 0 true n
| waits_round backoff now now' n t reply n1 n2 k b n' :
    now < deadline -> has_connected n = false ->
    net_exec (EvDiscover t reply) n = (Ret tt, n1) -> net_reach n1 n2 -> now + backoff <= now' ->
    waits deadline (Z.min (backoff * 2) 400) now' n2 k b n' ->
    waits deadline backoff now n (S k) b n'.

(** ** The discovery thread *)

Definition DISCOVERY_INTERVAL : Z := 2000.

(** The sleeps after a round: the readings of [discovery_running_] at each check,
    and what is left of them when the sleeping ends. *)
Fixpoint sleep_slices (fuel : nat) (waited : Z) (flags : list bool) : nat * list bool :=
  match fuel with
  | O => (0%nat, flags)
  | S fuel =>
      if waited <? DISCOVERY_INTERVAL then
        match flags with
        | true :: flags => let '(k, rest) := sleep_slices fuel (waited + 50) flags in (S k, rest)
        | _ => (0%nat, tail flags)
        end
      else (0%nat, flags)
  end.

(** [discovery_loop]: its rounds and slices until a reading is false. *)
Fixpoint discovery_loop (fuel : nat) (flags : list bool) : option (list nat) :=
  match fuel with
  | O => None
  | S fuel =>
      match flags with
      | true :: flags =>
          let '(k, rest) := sleep_slices 41 0 flags in
          (fun ks => k :: ks) <$> discovery_loop fuel rest
      | _ => Some []
      end
  end.

(** ** Shutting down *)

(** The loop: its sockets and the three [uv_async_t]; [cancelled]: the sockets closed
    while they were connecting, whose connect callback libuv still owes. *)
Record ClientLoop := mkLoop {
  loop_net : ClientNet;
  stop_async_ : Handle;
  wakeup_async_ : Handle;
  connect_async_ : Handle;
  cancelled : gset Z
}.

Definition loop_of (n : ClientNet) : ClientLoop := mkLoop n HOpen HOpen HOpen ∅.

Definition set_loop_net (n : ClientNet) (l : ClientLoop) : ClientLoop := mkLoop n (stop_async_ l) (wakeup_async_ l) (connect_async_ l) (cancelled l).

Definition walk_close (s : Sock) : Sock := if is_closing (sk_state s) then s else mkSock (sk_peer s) (SkClosing true).

(** The callback of [stop_async_]: [uv_walk] closes every handle that is not closing;
    the close callback deletes the sockets. *)
Definition client_on_stop : M ClientLoop unit :=
  let! l := get in
  let socks := net_sockets (loop_net l) in
  put (mkLoop (set_sockets (walk_close <$> socks) (loop_net l))
         (close_if_open (stop_async_ l)) (close_if_open (wakeup_async_ l)) (close_if_open (connect_async_ l))
         (cancelled l ∪ dom (filter (fun e => sk_state e.2 = SkConnecting) socks))).

(** libuv finishes a closing socket: the connect callback with an error if one is
    owed, then the close callback. *)
Definition finish_socket (sk : Z) : M ClientLoop unit :=
  let! l := get in
  do! (if decide (sk ∈ cancelled l) then
         match net_sockets (loop_net l) !! sk with
         | Some s =>
             do! put (mkLoop (loop_net l) (stop_async_ l) (wakeup_async_ l) (connect_async_ l) (cancelled l ∖ {[sk]})) in
             zoom loop_net set_loop_net (on_connect (sk_peer s) false)
         | None => undef
         end
       else ret tt) in
  zoom loop_net set_loop_net (on_closed sk).

Fixpoint finish_sockets (order : list Z) : M ClientLoop unit :=
  match order with
  | [] => ret tt
  | sk :: order => do! finish_socket sk in finish_sockets order
  end.

Definition finish_asyncs : M ClientLoop unit :=
  let! l := get in
  put (mkLoop (loop_net l) (run_close (stop_async_ l)) (run_close (wakeup_async_ l)) (run_close (connect_async_ l)) (cancelled l)).

(** The destructor: the stop callback runs on the network thread, which ends; the
    last [uv_run] finishes the handles, in the order libuv has them. *)
Definition MemoryClient_delete (order : list Z) : M ClientLoop unit :=
  do! client_on_stop in
  do! finish_sockets order in
  finish_asyncs.

(** [uv_loop_close] finds no handle in the loop. *)
Definition uv_loop_close (l : ClientLoop) : bool :=
  bool_decide (stop_async_ l = HClosed /\ wakeup_async_ l = HClosed /\ connect_async_ l = HClosed) &&
  bool_decide (map_Forall (fun _ s => sk_state s = SkClosed) (net_sockets (loop_net l))).

(** The handles [uv_walk] leaves in the closing queue. *)
Definition closing_sockets (n : ClientNet) : gset Z := dom (filter (fun e => sk_state e.2 <> SkClosed) (net_sockets n)).

#[local] Instance stuck_dec st : Decision (stuck st).
Proof. destruct st as [| | |[]|]; cbn; apply _. Defined.

(** The sockets that were closed with a null callback: never deleted. *)
Definition leaked (n : ClientNet) : gset Z := dom (filter (fun e => stuck (sk_state e.2)) (net_sockets n)).

(** ** Proofs: waiting *)

Lemma discover_runs t reply n : net_wf n -> exists n1, net_exec (EvDiscover t reply) n = (Ret tt, n1) /\ net_moves n n1.
Proof.
  intros Hwf. pose proof (net_exec_wp (EvDiscover t reply) n Hwf I) as Hw. destruct (net_exec _ n) as [o n1] eqn:E.
  pose proof (wp_elim _ _ _ _ _ _ Hw E) as Hm. destruct o as [[]|e| |]; try done. by exists n1.
Qed.

(** The rounds the time that is left allows, after [k] doublings of the back-off. *)
Definition backoff_at (k : nat) : Z := match k with O => 50 | S O => 100 | S (S O) => 200 | _ => 400 end.
Definition slept (k : nat) : Z := match k with O => 0 | S O => 50 | S (S O) => 150 | S (S (S k)) => 350 + 400 * Z.of_nat k end.

Lemma waits_rounds deadline backoff now n k b n' : waits deadline backoff now n k b n' ->
  forall j start, backoff = backoff_at j -> start + slept j <= now -> k = 0%nat \/ start + slept (j + k - 1) < deadline.
Proof.
  induction 1 as [| |backoff now now' n t reply n1 n2 k b n' Hnow _ _ _ Hlater _ IH]; intros j start Hb Hj; [by left..|right].
  assert (Hs : slept (S j) = slept j + backoff_at j) by (destruct j as [|[|[|j]]]; cbn -[Z.mul Z.of_nat]; lia).
  destruct (IH (S j) start) as [->|Hk].
  - rewrite Hb. by destruct j as [|[|[|j]]].
  - lia.
  - replace (j + 1 - 1)%nat with j by lia. lia.
  - by replace (j + S k - 1)%nat with (S j + k - 1)%nat by lia.
Qed.

Lemma waits_answer deadline backoff now n k b n' : waits deadline backoff now n k b n' -> b = has_connected n'.
Proof. by induction 1. Qed.

Lemma waits_moves deadline backoff now n k b n' : waits deadline backoff now n k b n' -> net_wf n -> net_moves n n'.
Proof.
  induction 1 as [| |backoff now now' n t reply n1 n2 k b n' _ _ Hd Hr _ _ IH]; intros Hwf; [by apply net_moves_refl..|].
  destruct (discover_runs t reply n Hwf) as (m & Hm & Hmv). rewrite Hd in Hm. injection Hm as <-.
  pose proof (net_reach_moves _ _ Hr (nm_wf _ _ Hmv)) as Hmv2. pose proof (IH (nm_wf _ _ Hmv2)).
  eapply net_moves_trans; [done|]. by eapply net_moves_trans.
Qed.

(** ** Proofs: the discovery thread *)

Lemma sleep_slices_true fuel : forall waited k rest, (Z.to_nat ((DISCOVERY_INTERVAL - waited + 49) / 50) < fuel)%nat -> 0 <= waited ->
  exists s, (s <= k)%nat /\ (s <= Z.to_nat ((DISCOVERY_INTERVAL - waited + 49) / 50))%nat /\
    (sleep_slices fuel waited (replicate k true ++ false :: false :: rest) = (s, replicate (k - s) true ++ false :: false :: rest) \/
     s = k /\ sleep_slices fuel waited (replicate k true ++ false :: false :: rest) = (s, false :: rest)).
Proof.
  induction fuel as [|fuel IH]; intros waited k rest Hf Hw; [lia|]. cbn [sleep_slices].
  destruct (Z.ltb_spec waited DISCOVERY_INTERVAL) as [Hlt|Hge]; unfold DISCOVERY_INTERVAL in *.
  - destruct k as [|k].
    + exists 0%nat. split; [lia|]. split; [lia|]. by right.
    + assert (Hd : (2000 - waited + 49) / 50 = (2000 - (waited + 50) + 49) / 50 + 1).
      { replace (2000 - waited + 49) with (2000 - (waited + 50) + 49 + 1 * 50) by lia. by rewrite Z.div_add by lia. }
      assert (H0 : 0 <= (2000 - (waited + 50) + 49) / 50) by (apply Z.div_pos; lia).
      destruct (IH (waited + 50) k rest ltac:(lia) ltac:(lia)) as (s & Hs & Hb & Hr). exists (S s). split; [lia|]. split; [lia|].
      cbn [replicate app]. destruct Hr as [Hr|[-> Hr]]; rewrite Hr; [by left|by right].
  - exists 0%nat. split; [lia|]. split; [lia|]. left. by rewrite Nat.sub_0_r.
Qed.

Lemma discovery_loop_stops fuel : forall k rest, (k < fuel)%nat ->
  exists ks, discovery_loop fuel (replicate k true ++ false :: false :: rest) = Some ks /\ (sum_list ks + length ks = k)%nat /\ Forall (fun s => s <= 40)%nat ks.
Proof.
  induction fuel as [|fuel IH]; intros k rest Hk; [lia|]. destruct k as [|k]; [by exists []|].
  change (replicate (S k) true ++ false :: false :: rest) with (true :: replicate k true ++ false :: false :: rest). cbn [discovery_loop].
  destruct (sleep_slices_true 41 0 k rest ltac:(by vm_compute; lia) ltac:(done)) as (s & Hs & Hb & Hr). change (Z.to_nat _) with 40%nat in Hb.
  destruct Hr as [->|[-> ->]].
  - destruct (IH (k - s)%nat rest ltac:(lia)) as (ks & -> & Hsum & Hf). exists (s :: ks). cbn. split; [done|]. split; [lia|by constructor].
  - exists [k]. destruct fuel; [lia|]. cbn. split; [done|]. split; [lia|]. by constructor; [|constructor].
Qed.

(** ** Proofs: shutting down *)

Definition closing_state (st : SockState) : Prop := exists d, st = SkClosing d.

(** While the closing queue is worked off; [todo] is what is left of it. *)
Record draining (n0 : ClientNet) (todo : list Z) (l : ClientLoop) : Prop := {
  dr_todo : forall sk, sk ∈ todo -> exists i d, net_sockets (loop_net l) !! sk = Some (mkSock i (SkClosing d));
  dr_done : forall sk s, net_sockets (loop_net l) !! sk = Some s -> sk ∈ todo \/ sk_state s = SkClosed;
  dr_owed : forall sk, sk ∈ cancelled l -> sk ∈ todo /\ exists i st p,
    net_sockets (loop_net l) !! sk = Some (mkSock i st) /\ znth (net_peers (loop_net l)) i = Some p /\ np_socket p = Some sk;
  dr_stuck : forall sk, (exists i st, net_sockets (loop_net l) !! sk = Some (mkSock i st) /\ stuck st) <-> sk ∈ leaked n0
}.

Lemma on_stop_draining n order : net_wf n -> order ≡ₚ elements (closing_sockets n) ->
  exists l, client_on_stop (loop_of n) = (Ret tt, l) /\ draining n order l /\
    stop_async_ l = HClosing /\ wakeup_async_ l = HClosing /\ connect_async_ l = HClosing.
Proof.
  intros Hwf Ho. eexists. split; [unfold client_on_stop; rewrite bind_get; reflexivity|]. split; [|done]. unfold loop_of. cbn [loop_net cancelled].
  assert (Hin : forall sk, sk ∈ order <-> exists s, net_sockets n !! sk = Some s /\ sk_state s <> SkClosed).
  { intros sk. rewrite Ho, elem_of_elements. unfold closing_sockets. rewrite elem_of_dom. unfold is_Some. setoid_rewrite map_lookup_filter_Some. done. }
  assert (Hl : forall sk s', (walk_close <$> net_sockets n) !! sk = Some s' <-> exists s, net_sockets n !! sk = Some s /\ s' = walk_close s).
  { intros sk s'. rewrite lookup_fmap_Some. naive_solver. }
  split; cbn [loop_net cancelled net_sockets net_peers set_sockets].
  - intros sk (s & Hs & Hst)%Hin. destruct s as [i st]. cbn in Hst. unfold walk_close in Hl.
    destruct st as [| | |d|]; [exists i, true|exists i, true|exists i, true|exists i, d|done]; apply Hl; by eexists.
  - intros sk s' (s & Hs & ->)%Hl. destruct (decide (sk_state s = SkClosed)) as [Hc|Hc]; [right|left; apply Hin; by exists s].
    unfold walk_close. by rewrite Hc.
  - intros sk [Hsk|Hsk]%elem_of_union; [set_solver|]. apply elem_of_dom in Hsk as [[i st] [Hs Hst]%map_lookup_filter_Some]. cbn in Hst. subst st.
    destruct (tw_socks _ _ _ (nw_topo _ Hwf) _ _ _ Hs I) as (p & Hp & Hps). split; [apply Hin; by eexists|].
    exists i, (SkClosing true), p. split; [|done]. apply Hl. by eexists.
  - intros sk. unfold leaked. rewrite elem_of_dom. unfold is_Some. setoid_rewrite map_lookup_filter_Some. cbn [snd]. split.
    + intros (i & st & ([j st0] & Hs & Hw)%Hl & Hst). exists (mkSock j st0). split; [done|]. unfold walk_close in Hw. cbn in *.
      destruct st0; cbn in Hw; by injection Hw as -> ->.
    + intros ([i st] & Hs & Hst). exists i, st. split; [|done]. apply Hl. eexists. split; [done|]. unfold walk_close. cbn in *. by destruct st.
Qed.

(** A connect callback after the socket was closed: the peer forgets it. *)
Lemma on_connect_late n i p sk d :
  znth (net_peers n) i = Some p -> np_socket p = Some sk -> net_sockets n !! sk = Some (mkSock i (SkClosing d)) ->
  on_connect i false n = (Ret tt, set_peers (alter (set_np_socket None) (Z.to_nat i) (net_peers n)) n).
Proof. intros Hp Hs Hsk. unfold on_connect, get_peer, update_peer, uv_is_closing. munfold. rewrite Hp, Hs. cbn. by rewrite Hsk. Qed.

Lemma on_closed_run n sk i d : net_sockets n !! sk = Some (mkSock i (SkClosing d)) ->
  on_closed sk n = (Ret tt, set_sockets (if d then delete sk (net_sockets n) else <[sk := mkSock i SkClosed]> (net_sockets n)) n).
Proof. intros Hs. unfold on_closed, set_state. munfold. rewrite Hs. destruct d; [done|]. by rewrite Hs. Qed.

Lemma finish_socket_draining n0 sk todo l : draining n0 (sk :: todo) l -> sk ∉ todo ->
  exists l', finish_socket sk l = (Ret tt, l') /\ draining n0 todo l' /\
    stop_async_ l' = stop_async_ l /\ wakeup_async_ l' = wakeup_async_ l /\ connect_async_ l' = connect_async_ l.
Proof.
  intros [Ht Hd Ho Hl] Hnot. destruct (Ht sk) as (i & d & Hsk); [left|].
  set (socks := net_sockets (loop_net l)) in *. set (socks' := if d then delete sk socks else <[sk := mkSock i SkClosed]> socks).
  set (peers' := if decide (sk ∈ cancelled l) then alter (set_np_socket None) (Z.to_nat i) (net_peers (loop_net l)) else net_peers (loop_net l)).
  set (l' := mkLoop (set_sockets socks' (set_peers peers' (loop_net l))) (stop_async_ l) (wakeup_async_ l) (connect_async_ l) (cancelled l ∖ {[sk]})).
  assert (Hlook : forall sk', socks' !! sk' = if decide (sk' = sk) then (if d then None else Some (mkSock i SkClosed)) else socks !! sk').
  { intros sk'. unfold socks'. case_decide as Hs; [subst sk'|]; destruct d; rewrite ?lookup_delete_eq, ?lookup_insert_eq, ?lookup_delete_ne, ?lookup_insert_ne by done; done. }
  exists l'. split; [|split; [split; cbn [loop_net cancelled net_sockets net_peers set_sockets set_peers l']|done]].
  - unfold finish_socket. rewrite bind_get. fold socks. unfold l', peers'. case_decide as Hc.
    + destruct (Ho sk Hc) as (_ & j & st & p & Hs & Hp & Hps). rewrite Hsk in Hs. injection Hs as <- <-. rewrite Hsk. cbn [sk_peer].
      set (l0 := mkLoop (loop_net l) (stop_async_ l) (wakeup_async_ l) (connect_async_ l) (cancelled l ∖ {[sk]})).
      change (loop_net l) with (loop_net l0) in Hp, Hsk. rewrite bind_bind, bind_put.
      rewrite (bind_ret _ _ _ _ _ (zoom_ret loop_net set_loop_net _ l0 _ _ (on_connect_late _ _ _ _ _ Hp Hps Hsk))).
      erewrite zoom_ret; [|by apply on_closed_run]. done.
    + unfold bind, ret. erewrite zoom_ret; [|by apply on_closed_run]. cbn. unfold set_loop_net. fold socks. fold socks'.
      replace (cancelled l ∖ {[sk]}) with (cancelled l) by set_solver. by destruct (loop_net l).
  - intros sk' Hin. destruct (Ht sk') as (j & d' & Hs); [by right|]. exists j, d'. rewrite Hlook, decide_False; [done|]. by intros ->.
  - intros sk' s Hs. rewrite Hlook in Hs. case_decide; [destruct d; [done|by injection Hs as <-; right]|].
    destruct (Hd _ _ Hs) as [[?|?]%elem_of_cons|?]; [done|by left|by right].
  - intros sk' [Hc Hne]%elem_of_difference. assert (sk' <> sk) by set_solver. destruct (Ho _ Hc) as ([?|Hin]%elem_of_cons & j & st & p & Hs & Hp & Hps); [done|].
    split; [done|]. exists j, st, p. rewrite Hlook, decide_False by done. split; [done|]. split; [|done]. unfold peers'. case_decide as Hcs; [|done].
    destruct (Ho sk Hcs) as (_ & j0 & st0 & p0 & Hs0 & Hp0 & Hps0). rewrite Hsk in Hs0. injection Hs0 as <- <-.
    pose proof (znth_Some _ _ _ Hp0) as [Hi0 _]. rewrite znth_alter by done. case_decide; [|done]. subst j. congruence.
  - intros sk'. rewrite <- Hl. rewrite Hlook. case_decide; [subst sk'|done]. split.
    + intros (j & st & Hs & Hst). destruct d; [done|]. injection Hs as <- <-. by eexists _, _.
    + intros (j & st & Hs & Hst). rewrite Hsk in Hs. injection Hs as <- <-. destruct d; [done|]. by eexists _, _.
Qed.

Lemma finish_sockets_draining n0 todo : forall l, draining n0 todo l -> NoDup todo ->
  exists l', finish_sockets todo l = (Ret tt, l') /\ draining n0 [] l' /\
    stop_async_ l' = stop_async_ l /\ wakeup_async_ l' = wakeup_async_ l /\ connect_async_ l' = connect_async_ l.
Proof.
  induction todo as [|sk todo IH]; intros l Hd Hn; [by exists l|]. apply NoDup_cons in Hn as [Hnot Hn].
  destruct (finish_socket_draining _ _ _ _ Hd Hnot) as (l1 & Hf & Hd1 & E1 & E2 & E3).
  destruct (IH l1 Hd1 Hn) as (l2 & Hf2 & Hd2 & F1 & F2 & F3). exists l2. cbn [finish_sockets]. rewrite (bind_ret _ _ _ _ _ Hf).
  split; [done|]. split; [done|]. split_and!; congruence.
Qed.

(** ** Properties *)

(** C13: The client shuts down from every state: whatever sockets there are, connecting,
    reading, closing or stranded, and in whatever order libuv finishes them, no handle
    is closed twice or used after its deletion, a connect callback that comes late
    finds its peer, [uv_loop_close] succeeds, and all that is not deleted are the
    sockets that [on_peer_read] closed with a null callback. *)
Theorem client_shuts_down test_ip test_port attempt now reply n0 n order :
  MemoryClient_connect test_ip test_port attempt now reply ClientNet_new = (Ret tt, n0) -> net_reach n0 n ->
  order ≡ₚ elements (closing_sockets n) ->
  exists l, MemoryClient_delete order (loop_of n) = (Ret tt, l) /\ uv_loop_close l = true /\
    dom (net_sockets (loop_net l)) = leaked n.
Proof.
  intros Hc Hr Ho.
  pose proof (wp_elim _ _ _ _ _ _ (connect_wp test_ip test_port attempt now reply _ ClientNet_new_wf) Hc) as Hm. cbn in Hm.
  pose proof (nm_wf _ _ (net_reach_moves _ _ Hr (nm_wf _ _ Hm))) as Hwf.
  destruct (on_stop_draining n order Hwf Ho) as (l1 & H1 & Hd1 & S1 & S2 & S3).
  destruct (finish_sockets_draining n order l1 Hd1) as (l2 & H2 & Hd2 & T1 & T2 & T3); [rewrite Ho; apply NoDup_elements|].
  eexists. split.
  { unfold MemoryClient_delete. rewrite (bind_ret _ _ _ _ _ H1), (bind_ret _ _ _ _ _ H2). reflexivity. }
  assert (Hclosed : forall sk s, net_sockets (loop_net l2) !! sk = Some s -> sk_state s = SkClosed).
  { intros sk s Hs. destruct (dr_done _ _ _ Hd2 _ _ Hs) as [?%not_elem_of_nil|?]; done. }
  split.
  - unfold uv_loop_close. cbn. rewrite T1, T2, T3, S1, S2, S3. cbn. apply bool_decide_eq_true. exact Hclosed.
  - cbn [loop_net]. apply set_eq. intros sk. rewrite <- (dr_stuck _ _ _ Hd2 sk), elem_of_dom. split.
    + intros [[i st] Hs]. exists i, st. split; [done|]. specialize (Hclosed _ _ Hs). cbn in Hclosed. by subst.
    + intros (i & st & Hs & _). by eexists.
Qed.

(** C27: The wait for a first peer ends after at most ten rounds, whatever the network
    thread does meanwhile, and says truly whether a peer is connected; no round fails. *)
Theorem wait_bounded n start :
  net_wf n ->
  (forall k b n', waits (start + PEER_WAIT_TIMEOUT) 50 start n k b n' -> (k <= 10)%nat /\ b = has_connected n' /\ net_wf n') /\
  (forall t reply, exists n1, net_exec (EvDiscover t reply) n = (Ret tt, n1) /\ net_wf n1).
Proof.
  intros Hwf. split.
  - intros k b n' Hw. split; [|split; [by eapply waits_answer|apply (waits_moves _ _ _ _ _ _ _ Hw Hwf)]].
    destruct (waits_rounds _ _ _ _ _ _ _ Hw 0%nat start eq_refl) as [->|Hk]; [cbn; lia|lia|].
    unfold PEER_WAIT_TIMEOUT in Hk. destruct k as [|[|[|[|k]]]]; cbn -[Z.mul Z.of_nat] in Hk; lia.
  - intros t reply. destruct (discover_runs t reply n Hwf) as (n1 & Hn & Hm). exists n1. split; [done|apply Hm].
Qed.

(** The discovery thread ends with its flag: every reading that is true is a round or
    a sleep of 50 ms, at most forty of them to a round, and after the first false one
    it does neither; the destructor joins it within one slice. *)
Theorem discovery_stops k rest : exists fuel ks, discovery_loop fuel (replicate k true ++ false :: false :: rest) = Some ks /\
  (sum_list ks + length ks = k)%nat /\ Forall (fun s => s <= 40)%nat ks.
Proof. destruct (discovery_loop_stops (S k) k rest) as (ks & H); [lia|]. by exists (S k), ks. Qed.
End lifecycle.

(** *** Witnesses: two peers, one connected and one connecting *)

Section demo.
#[local] Existing Instance table_wire.
#[local] Existing Instance demo_control.

Definition demo_constructed : ClientNet := snd (MemoryClient_connect "" 0 (fun _ => ConnectStarts) 0 (Some [x00; x00; x00; x00]) ClientNet_new).
Definition demo_running : ClientNet := snd (net_exec (EvConnect 0 0 true) demo_constructed).

Lemma client_shuts_down_witness : exists l,
  MemoryClient_delete (elements (closing_sockets demo_running)) (loop_of demo_running) = (Ret tt, l) /\ uv_loop_close l = true /\
  size (closing_sockets demo_running) = 2%nat.
Proof.
  destruct (client_shuts_down "" 0 (fun _ => ConnectStarts) 0 (Some [x00; x00; x00; x00]) demo_constructed demo_running
    (elements (closing_sockets demo_running))) as (l & Hl & Hc & _).
  - vm_compute. reflexivity.
  - apply (net_reach_step _ (EvConnect 0 0 true) demo_running); [by vm_compute|by vm_compute|apply net_reach_refl].
  - reflexivity.
  - exists l. split; [exact Hl|]. split; [exact Hc|]. vm_compute. reflexivity.
Defined.

Lemma wait_bounded_witness : exists k n', waits PEER_WAIT_TIMEOUT 50 0 demo_state k true n' /\ (k <= 10)%nat /\ net_wf n'.
Proof.
  assert (Hw : waits PEER_WAIT_TIMEOUT 50 0 demo_state 0 true demo_state) by (apply waits_found; by vm_compute).
  destruct (wait_bounded demo_state 0 demo_wf) as [Hk _]. destruct (Hk 0%nat true demo_state Hw) as (H1 & _ & H3).
  exists 0%nat, demo_state. split; [exact Hw|]. split; [exact H1|exact H3].
Defined.
End demo.
