(* ===== verification/HookDll.v ===== *)
(** * The hook library in a process

    [hook/meminfo_hook.cpp]: [install_hooks] and [DllMain].  The library is attached,
    follows the libraries the program loads, and is detached because the process ends
    or because it is unloaded alone; the detours of the allocation functions are
    [HookSlots], the detour of LoadLibraryExW is this file's. *)

From S2P Require Import Prelude Hook HookSlots.

(** ** State *)

(** [mapped]: the library's code is in the address space, where every detour jumps to. *)
Record HookDll := mkDll {
  dll_config : option HookConfig;
  dll_table : HookTable;
  g_real_load_library_ex_w : bool;   (* is not null *)
  loader_detoured : bool;
  g_log : bool;
  abandoned : bool;                  (* [release()]d arena, heap and client *)
  mapped : bool
}.

Definition HookDll_new : HookDll := mkDll None HookTable_new false false false false true.

Definition set_hook_table (t : HookTable) (d : HookDll) : HookDll :=
  mkDll (dll_config d) t (g_real_load_library_ex_w d) (loader_detoured d) (g_log d) (abandoned d) (mapped d).

(** ** The code *)

(** What kernel32 and Detours answer: LoadLibraryExW is found, its attach, its commit. *)
Record LoaderWorld := mkLoader { lw_found : bool; lw_attach : bool; lw_commit : bool }.

Definition install_hooks (lw : LoaderWorld) (w : ScanWorld) (d : HookDll) : bool * HookDll :=
  let real := lw_found lw && lw_commit lw in
  let d := mkDll (dll_config d) (dll_table d) real (loader_detoured d || (real && lw_attach lw)) (g_log d) (abandoned d) (mapped d) in
  let '(any, t) := scan_and_attach w (dll_table d) in
  (any, set_hook_table t d).

(** A library the program loads while LoadLibraryExW is detoured. *)
Definition library_loaded (w : ScanWorld) (loaded pass : bool) (flags : Z) (d : HookDll) : HookDll :=
  if loader_detoured d then set_hook_table (hooked_load_library_ex_w w loaded pass flags (dll_table d)) d else d.

(** [remove_hooks], its transaction included: what a commit takes away; the pointers
    go back to the functions. *)
Definition removed (commit : bool) (t : HookTable) : HookTable :=
  if commit then
    mkTable (map_ptrs (fun _ p => match p with PTramp q => q | _ => p end) <$> g_slots t) (g_slot_taken t)
      (filter (fun d => dt_key d ∉ remove_hooks t) (detours t))
  else t.

Inductive DllReason :=
| DLL_PROCESS_ATTACH (env : string -> option string) (log_opens : bool) (lw : LoaderWorld) (w : ScanWorld)
| DLL_PROCESS_DETACH (process_exits commit : bool)
| DLL_OTHER.

(** [DllMain]; [helper]: [DetourIsHelperProcess()]. *)
Definition DllMain (helper : bool) (reason : DllReason) (d : HookDll) : HookDll :=
  if helper then d
  else
    match reason with
    | DLL_PROCESS_ATTACH env log_opens lw w =>
        snd (install_hooks lw w
          (mkDll (Some (load_config env)) (dll_table d) (g_real_load_library_ex_w d) (loader_detoured d) log_opens (abandoned d) (mapped d)))
    | DLL_PROCESS_DETACH process_exits commit =>
        mkDll (dll_config d) (if process_exits then dll_table d else removed commit (dll_table d))
          (g_real_load_library_ex_w d) (loader_detoured d) false true (mapped d)
    | DLL_OTHER => d
    end.

(** [FreeLibrary] of the library: the detach, then its code is gone. *)
Definition unload (commit : bool) (d : HookDll) : HookDll :=
  let d := DllMain false (DLL_PROCESS_DETACH false commit) d in
  mkDll (dll_config d) (dll_table d) (g_real_load_library_ex_w d) (loader_detoured d) (g_log d) (abandoned d) false.

(** A call of a detoured function jumps to code that is not there. *)
Definition jumps_nowhere (d : HookDll) : bool := negb (mapped d) && (loader_detoured d || negb (bool_decide (detours (dll_table d) = []))).

(** The libraries the program loads, each with the process it meets. *)
Inductive loads (P : ScanWorld -> Prop) : HookDll -> HookDll -> Prop :=
| loads_none d : loads P d d
| loads_more w loaded pass flags d d' : P w -> loads P d d' -> loads P d (library_loaded w loaded pass flags d').

(** ** Proofs *)

Lemma scans_trans P t1 t2 t3 : scans P t1 t2 -> scans P t2 t3 -> scans P t1 t3.
Proof. intros H12 H23. induction H23 as [|w t2 t3 HP _ IH]; [done|]. by apply scans_more, IH. Qed.

Lemma loads_scans P d d' : loads P d d' ->
  scans P (dll_table d) (dll_table d') /\ loader_detoured d' = loader_detoured d /\ dll_config d' = dll_config d /\ mapped d' = mapped d.
Proof.
  induction 1 as [|w loaded pass flags d d' HP _ (Hs & Hl & Hc & Hm)]; [repeat split; constructor|].
  unfold library_loaded. destruct (loader_detoured d') eqn:E; [|by rewrite E]. cbn. rewrite E. split_and!; try done.
  unfold hooked_load_library_ex_w. destruct (_ && _ && _); [by apply scans_more|done].
Qed.

(** Without the loader's detour no library is noticed. *)
Lemma loads_blind P d d' : loads P d d' -> loader_detoured d = false -> d' = d.
Proof. induction 1 as [|w loaded pass flags d d' _ _ IH]; [done|]. intros Hl. rewrite (IH Hl). unfold library_loaded. by rewrite Hl. Qed.

Lemma install_table lw w d : dll_table (snd (install_hooks lw w d)) = snd (scan_and_attach w (dll_table d)).
Proof. unfold install_hooks. cbn. by destruct (scan_and_attach w (dll_table d)). Qed.

Lemma install_loader lw w d : loader_detoured (snd (install_hooks lw w d)) = loader_detoured d || (lw_found lw && lw_commit lw && lw_attach lw).
Proof. unfold install_hooks. cbn. by destruct (scan_and_attach w (dll_table d)). Qed.

(** ** Properties *)

(** Unloading leaves a trap.  After an attach and whatever libraries were loaded,
    unloading the library takes back every allocation detour, if all attaches and
    commits worked; but nothing ever detaches LoadLibraryExW, so the next library the
    program loads jumps into code that has been unmapped. *)
Theorem unload_leaves_trap env log_opens lw w d commit :
  let P := fun w => DetourTransactionCommit w = true /\ forall i f, DetourAttach w i f = true in
  P w -> loads P (DllMain false (DLL_PROCESS_ATTACH env log_opens lw w) HookDll_new) d ->
  let d' := unload commit d in
  dll_config d' = Some (load_config env) /\ (commit = true -> detours (dll_table d') = []) /\
  (lw_found lw = true -> lw_attach lw = true -> lw_commit lw = true -> jumps_nowhere d' = true) /\
  (lw_found lw && lw_commit lw && lw_attach lw = false -> commit = true -> jumps_nowhere d' = false).
Proof.
  cbv zeta. intros Hw Hl. set (P := fun w => _) in *. destruct (loads_scans _ _ _ Hl) as (Hs & Hld & Hc & _). cbn [DllMain] in Hs, Hld, Hc.
  rewrite install_table in Hs. rewrite install_loader in Hld. cbn [dll_table loader_detoured HookDll_new orb] in Hs, Hld.
  assert (Hcfg : dll_config (unload commit d) = Some (load_config env)).
  { cbn. rewrite Hc. unfold install_hooks. cbn. by destruct (scan_and_attach w HookTable_new). }
  assert (Ht : remove_hooks (dll_table d) = dt_key <$> detours (dll_table d)).
  { apply remove_hooks_exact. eapply scans_trans; [|exact Hs]. apply scans_more; [done|constructor]. }
  assert (Hrm : commit = true -> detours (dll_table (unload commit d)) = []).
  { intros ->. unfold unload, DllMain. cbn [dll_table removed detours]. rewrite Ht. generalize (detours (dll_table d)). intros l.
    destruct (filter (fun x => dt_key x ∉ dt_key <$> l) l) as [|x f] eqn:E; [done|]. exfalso.
    assert (Hx : x ∈ filter (fun x => dt_key x ∉ dt_key <$> l) l) by (rewrite E; left).
    apply list_elem_of_filter in Hx as [Hn Hx]. by apply Hn, list_elem_of_fmap_2. }
  split; [exact Hcfg|]. split; [exact Hrm|]. split.
  - intros H1 H2 H3. unfold jumps_nowhere. cbn. rewrite Hld, H1, H2, H3. done.
  - intros H1 Hcm. specialize (Hrm Hcm). unfold jumps_nowhere. rewrite Hrm. cbn. by rewrite Hld, H1.
Qed.

(** *** Witness *)

Definition demo_all (loaded : list string) : ScanWorld :=
  mkWorld (fun n => if bool_decide (n ∈ loaded) then Some (demo_address n) else None) (fun _ _ => true) true.

Definition demo_dll : HookDll := DllMain false (DLL_PROCESS_ATTACH (fun _ => None) true (mkLoader true true true) (demo_all ["ucrtbase.dll"%string])) HookDll_new.

Lemma unload_leaves_trap_witness :
  jumps_nowhere (unload true (library_loaded (demo_all ["msvcrt.dll"%string]) true false 0 demo_dll)) = true /\
  length (detours (dll_table (library_loaded (demo_all ["msvcrt.dll"%string]) true false 0 demo_dll))) = 9%nat.
Proof.
  split; [|vm_compute; reflexivity].
  refine (proj1 (proj2 (proj2 (unload_leaves_trap (fun _ => None) true (mkLoader true true true) (demo_all ["ucrtbase.dll"%string]) _ true _ _))) _ _ _).
  - split; [reflexivity|reflexivity].
  - apply loads_more; [split; [reflexivity|reflexivity]|]. apply loads_none.
  - reflexivity.
  - reflexivity.
  - reflexivity.
Defined.
