(* ===== verification/LanServer.v ===== *)
(** * The servers of the Windows prototype

    The [main]s of [windows-lan-sharing/server/paging_server.cpp] and
    [gpu_server.cu], which have the same text but for what they serve: start up, accept
    clients for ever, one thread and one [ClientContext] in [g_clients] for each.
    What a thread does with its client is [LanPaging] and [LanGpu]. *)

From S2P Require Import Prelude.

(** ** Starting up *)

(** What the process holds. *)
Record ServerProcess := mkServerProcess { wsa_started : bool; pool_allocated : bool; listen_sock_open : bool }.

Definition nothing_held : ServerProcess := mkServerProcess false false false.

(** Up to [listen]: the code to exit with, or go on. *)
Definition paging_startup (wsa_ok alloc_ok socket_ok bind_ok listen_ok : bool) : option Z * ServerProcess :=
  let p := nothing_held in
  if negb wsa_ok then (Some 1, p)
  else
    let p := mkServerProcess true (pool_allocated p) (listen_sock_open p) in
    let WSACleanup p := mkServerProcess false (pool_allocated p) (listen_sock_open p) in
    if negb alloc_ok then (Some 1, WSACleanup p)
    else
      let p := mkServerProcess (wsa_started p) true (listen_sock_open p) in
      let VirtualFree p := mkServerProcess (wsa_started p) false (listen_sock_open p) in
      if negb socket_ok then (Some 1, WSACleanup (VirtualFree p))
      else
        let p := mkServerProcess (wsa_started p) (pool_allocated p) true in
        let closesocket p := mkServerProcess (wsa_started p) (pool_allocated p) false in
        if negb bind_ok then (Some 1, WSACleanup (VirtualFree (closesocket p)))
        else if negb listen_ok then (Some 1, WSACleanup (VirtualFree (closesocket p)))
        else (None, p).

(** [device_count]: what [cudaGetDeviceCount] leaves, 0 if it fails. *)
Definition gpu_startup (wsa_ok : bool) (device_count : Z) (socket_ok bind_ok listen_ok : bool) : option Z * ServerProcess :=
  let p := nothing_held in
  if negb wsa_ok then (Some 1, p)
  else
    let p := mkServerProcess true (pool_allocated p) (listen_sock_open p) in
    let WSACleanup p := mkServerProcess false (pool_allocated p) (listen_sock_open p) in
    if device_count =? 0 then (Some 1, WSACleanup p)
    else if negb socket_ok then (Some 1, WSACleanup p)
    else
      let p := mkServerProcess (wsa_started p) (pool_allocated p) true in
      let closesocket p := mkServerProcess (wsa_started p) (pool_allocated p) false in
      if negb bind_ok then (Some 1, WSACleanup (closesocket p))
      else if negb listen_ok then (Some 1, WSACleanup (closesocket p))
      else (None, p).

(** ** Clients *)

(** [ClientContext]; [None] is INVALID_SOCKET. *)
Record ClientContext := mkContext { ctx_sock : option Z; ctx_active : bool }.

(** [g_clients] is a vector: its elements, its capacity and which block of memory
    holds them; and each running thread's reference: a block and an index. *)
Record LanServer := mkLanServer {
  g_clients : list ClientContext;
  g_capacity : nat;
  g_block : nat;
  g_threads : list (nat * nat)
}.

Definition LanServer_new : LanServer := mkLanServer [] 0 0 [].

Section server.
(** How the library enlarges a vector that is full. *)
Context (grow : nat -> nat) (Hgrow : forall n, (n < grow n)%nat).

(** [emplace_back()]: when the vector is full its elements move to a new block. *)
Definition emplace_back (s : LanServer) : LanServer :=
  let full := bool_decide (length (g_clients s) = g_capacity s) in
  mkLanServer (g_clients s ++ [mkContext None false])
    (if full then grow (g_capacity s) else g_capacity s) (if full then S (g_block s) else g_block s) (g_threads s).

(** A turn of the accept loop; [None]: [accept] failed.  The thread gets a reference
    to the last element. *)
Definition accept_client (sock : option Z) (s : LanServer) : LanServer :=
  match sock with
  | None => s
  | Some _ =>
      let s := emplace_back s in
      let i := pred (length (g_clients s)) in
      mkLanServer (<[i := mkContext sock true]> (g_clients s)) (g_capacity s) (g_block s) (g_threads s ++ [(g_block s, i)])
  end.

(** [ctx] in thread [k]. *)
Definition get_ctx (k : nat) : M LanServer ClientContext :=
  let! s := get in
  match g_threads s !! k with
  | Some (b, i) => if decide (b = g_block s) then match g_clients s !! i with Some c => ret c | None => undef end else undef
  | None => undef
  end.

(** What [handle_client] does when its loop ends. *)
Definition client_ends (k : nat) : M LanServer unit :=
  let! c := get_ctx k in
  let! s := get in
  match g_threads s !! k with
  | Some (b, i) => put (mkLanServer (<[i := mkContext None false]> (g_clients s)) (g_capacity s) (g_block s) (g_threads s))
  | None => undef
  end.

Inductive LanEvent := LanAccept (sock : option Z) | LanEnd (k : nat).

Definition lan_event (ev : LanEvent) : M LanServer unit :=
  match ev with
  | LanAccept sock => fun s => (Ret tt, accept_client sock s)
  | LanEnd k => client_ends k
  end.

Fixpoint lan_events (evs : list LanEvent) : M LanServer unit :=
  match evs with
  | [] => ret tt
  | ev :: evs => do! lan_event ev in lan_events evs
  end.

(** ** Proofs *)

(** References are into blocks the vector has had. *)
Definition server_wf (s : LanServer) : Prop :=
  (length (g_clients s) <= g_capacity s)%nat /\ forall k b i, g_threads s !! k = Some (b, i) -> (b <= g_block s)%nat /\ (i < length (g_clients s))%nat.

Lemma accept_wf sock s : server_wf s -> server_wf (accept_client sock s).
Proof.
  intros [Hc Ht]. destruct sock as [c|]; [|done]. unfold accept_client, emplace_back. cbn. split; cbn; rewrite length_insert, length_app; cbn.
  - case_bool_decide as Hf; [rewrite Hf; specialize (Hgrow (g_capacity s)); lia|lia].
  - intros k b i Hk. apply lookup_app_Some in Hk as [Hk|[_ Hk]].
    + destruct (Ht _ _ _ Hk). case_bool_decide; lia.
    + apply list_lookup_singleton_Some in Hk as [_ Hk]. injection Hk as Hb Hi. split; [by rewrite Hb|lia].
Qed.

Lemma lan_events_wf evs : forall s s', server_wf s -> lan_events evs s = (Ret tt, s') -> server_wf s'.
Proof.
  induction evs as [|ev evs IH]; intros s s' Hw Hr; [by injection Hr as <-|]. cbn [lan_events] in Hr.
  apply bind_inv_ret in Hr as ([] & s1 & Hev & Hr). apply (IH _ _) in Hr; [done|]. clear Hr. destruct ev as [sock|k].
  - injection Hev as <-. by apply accept_wf.
  - unfold lan_event, client_ends in Hev. apply bind_inv_ret in Hev as (c & s2 & Hc & Hev).
    assert (s2 = s) as -> by (unfold get_ctx, ret, undef in Hc; rewrite bind_get in Hc; repeat case_match; congruence).
    rewrite bind_get in Hev. destruct (g_threads s !! k) as [[b i]|]; [|done]. injection Hev as <-.
    destruct Hw as [Hc' Ht]. split; cbn; rewrite length_insert; done.
Qed.

Lemma get_ctx_defined k s : server_wf s ->
  is_Some (g_threads s !! k) ->
  ((exists c, get_ctx k s = (Ret c, s)) /\ exists i, g_threads s !! k = Some (g_block s, i)) \/
  (get_ctx k s = (Undef, s) /\ exists b i, g_threads s !! k = Some (b, i) /\ (b < g_block s)%nat).
Proof.
  intros [_ Ht] [[b i] Hk]. destruct (Ht _ _ _ Hk) as [Hb Hi]. unfold get_ctx. rewrite bind_get, Hk.
  destruct (decide (b = g_block s)) as [->|Hne].
  - left. split; [|by exists i]. destruct (lookup_lt_is_Some_2 _ _ Hi) as [c ->]. by exists c.
  - right. split; [done|]. exists b, i. split; [done|lia].
Qed.

(** ** Properties *)

(** Every way out of the start leaves nothing behind and exits with 1; otherwise the
    server holds everything it needs. *)
Theorem startup_balanced wsa_ok alloc_ok socket_ok bind_ok listen_ok device_count :
  (let '(code, p) := paging_startup wsa_ok alloc_ok socket_ok bind_ok listen_ok in
   match code with
   | Some c => c = 1 /\ p = nothing_held
   | None => p = mkServerProcess true true true /\ wsa_ok && alloc_ok && socket_ok && bind_ok && listen_ok = true
   end) /\
  (let '(code, p) := gpu_startup wsa_ok device_count socket_ok bind_ok listen_ok in
   match code with
   | Some c => c = 1 /\ p = nothing_held
   | None => p = mkServerProcess true false true /\ wsa_ok && negb (device_count =? 0) && socket_ok && bind_ok && listen_ok = true
   end).
Proof. unfold paging_startup, gpu_startup. split; destruct wsa_ok, socket_ok, bind_ok, listen_ok; try destruct alloc_ok; try destruct (device_count =? 0); by cbn. Qed.

(** A client may pull the floor from under the others.  In every state of a
    server, when one more client is accepted, the threads that had a good reference to
    their context keep it if the vector had room, and all lose it if not: their next
    look at it, and the writes with which they end, go to memory that was freed. *)
Theorem accept_moves_contexts evs s sock :
  lan_events evs LanServer_new = (Ret tt, s) ->
  forall k, (exists c, get_ctx k s = (Ret c, s)) ->
    let s' := accept_client (Some sock) s in
    ((length (g_clients s) < g_capacity s)%nat -> get_ctx k s' = (fst (get_ctx k s), s')) /\
    (length (g_clients s) = g_capacity s -> get_ctx k s' = (Undef, s') /\ client_ends k s' = (Undef, s')).
Proof.
  intros Hr k [c Hc] s'. assert (Hw : server_wf s) by (eapply lan_events_wf; [|exact Hr]; split; [done|]; by intros [|?] ? ?).
  pose proof (accept_wf (Some sock) s Hw) as Hw'. fold s' in Hw'.
  assert (Hs : is_Some (g_threads s !! k)).
  { unfold get_ctx in Hc. rewrite bind_get in Hc. by destruct (g_threads s !! k). }
  destruct (get_ctx_defined k s Hw Hs) as [[_ [i Hi]]|[Hu _]]; [|by rewrite Hu in Hc].
  pose proof (proj2 Hw _ _ _ Hi) as [_ Hlt].
  assert (Hi' : g_threads s' !! k = Some (g_block s, i)) by (cbn; by apply lookup_app_l_Some).
  split; intros Hlen.
  - unfold get_ctx. rewrite !bind_get, Hi, Hi'. cbn. rewrite bool_decide_eq_false_2 by lia. rewrite !decide_True by done.
    rewrite length_app, list_lookup_insert_ne by (cbn; lia). rewrite lookup_app_l by done. destruct (lookup_lt_is_Some_2 _ _ Hlt) as [x ->]. done.
  - assert (Hu : get_ctx k s' = (Undef, s')).
    { unfold get_ctx. rewrite bind_get, Hi'. cbn. rewrite bool_decide_eq_true_2 by done. by rewrite decide_False by lia. }
    split; [done|]. unfold client_ends, bind at 1. by rewrite Hu.
Qed.
End server.

(** *** Visual C++ enlarges by half, so the second client is enough. *)

Definition msvc_grow (n : nat) : nat := Nat.max (n + 1) (n + n / 2).

Lemma msvc_grows n : (n < msvc_grow n)%nat.
Proof. unfold msvc_grow. lia. Qed.

Lemma accept_moves_contexts_witness :
  let s := snd (lan_events msvc_grow [LanAccept (Some 7)] LanServer_new) in
  fst (get_ctx 0 s) = Ret (mkContext (Some 7) true) /\ fst (get_ctx 0 (accept_client msvc_grow (Some 8) s)) = Undef.
Proof.
  set (s := snd (lan_events msvc_grow [LanAccept (Some 7)] LanServer_new)).
  assert (Hr : lan_events msvc_grow [LanAccept (Some 7)] LanServer_new = (Ret tt, s)) by (vm_compute; reflexivity).
  assert (Hc : get_ctx 0 s = (Ret (mkContext (Some 7) true), s)) by (vm_compute; reflexivity).
  destruct (accept_moves_contexts msvc_grow msvc_grows [LanAccept (Some 7)] s 8 Hr 0%nat (ex_intro _ _ Hc)) as [_ H].
  destruct (H ltac:(vm_compute; reflexivity)) as [Hu _]. split; [by rewrite Hc|by rewrite Hu].
Defined.
