(* ===== verification/MemoryServer.v ===== *)
(** * memoryd from start to end

    [memoryd/src/memory_daemon.cpp] ([run], [stop], the destructor and the handles
    around [MemoryDaemon]'s sessions), [memoryd/src/memory_control.cpp] (the control
    socket's [start] and [stop], over the listening object of [LocalIpc]) and
    [memoryd/src/main.cpp]. *)

From S2P Require Import Prelude Common Framing Slab PageTracker Crc32c Pool MemoryProtocol ClientSession MemoryDaemon LocalIpc.

(** ** The control socket *)

(** [MemoryControlSocket]; [ipc_there]: [ipc_] is not null.  The record of the
    listening object includes the descriptors and paths of the system. *)
Record MemoryControlSocket := mkControlSocket {
  mc_socket_name : list byte;
  mc_ipc : LocalIpcPosix;
  ipc_there : bool;
  started_ : bool
}.

Definition MemoryControlSocket_new (name : list byte) (fds : gset Z) (paths : gset (list byte)) : MemoryControlSocket :=
  mkControlSocket name (ipc_new fds paths) true false.

Section control.
(** The size of [sun_path], and [handle_request] as a closure. *)
Context (sun_path_size : Z) (closure : list byte -> list byte).

Definition set_ipc (i : LocalIpcPosix) (c : MemoryControlSocket) : MemoryControlSocket :=
  mkControlSocket (mc_socket_name c) i (ipc_there c) (started_ c).

Definition control_start (a : ListenAnswers) : M MemoryControlSocket unit :=
  let! c := get in
  if started_ c || bool_decide (mc_socket_name c = []) then ret tt
  else
    let i := if ipc_there c then mc_ipc c else ipc_new (os_fds (mc_ipc c)) (os_paths (mc_ipc c)) in
    do! put (mkControlSocket (mc_socket_name c) i true (started_ c)) in
    do! zoom mc_ipc set_ipc (ipc_listen sun_path_size a (mc_socket_name c) closure) in
    fun c => (Ret tt, mkControlSocket (mc_socket_name c) (mc_ipc c) (ipc_there c) true).

(** [ipc_.reset()]: the destructor of the listening object, which stops it; [th]
    is what comes of its thread. *)
Definition ipc_reset (th : outcome unit) : M MemoryControlSocket unit :=
  let! c := get in
  if ipc_there c then
    do! zoom mc_ipc set_ipc (ipc_stop th) in
    fun c => (Ret tt, mkControlSocket (mc_socket_name c) (mc_ipc c) false (started_ c))
  else ret tt.

Definition control_stop (th : outcome unit) : M MemoryControlSocket unit :=
  let! c := get in
  if negb (started_ c) then ret tt
  else
    do! ipc_reset th in
    fun c => (Ret tt, mkControlSocket (mc_socket_name c) (mc_ipc c) (ipc_there c) false).

(** The destructor: [stop], then that of [ipc_], if it is there. *)
Definition control_delete (th : outcome unit) : M MemoryControlSocket unit :=
  do! control_stop th in ipc_reset th.

(** What the socket adds to a system with [fds] and [paths]; it listens only once it
    has started. *)
Definition control_ok (fds : gset Z) (paths : gset (list byte)) (c : MemoryControlSocket) : Prop :=
  if ipc_there c then ipc_ok fds paths (mc_ipc c) /\ (started_ c = false -> server_fd_ (mc_ipc c) < 0)
  else os_fds (mc_ipc c) = fds /\ os_paths (mc_ipc c) ⊆ paths.

(** The object has a thread. *)
Definition control_listens (c : MemoryControlSocket) : Prop := ipc_there c = true /\ 0 <= server_fd_ (mc_ipc c).

Lemma ipc_ok_new fds paths ps : ps ⊆ paths -> ipc_ok fds paths (ipc_new fds ps).
Proof. intros Hp. by split; cbn; [|lia]. Qed.

(** [start] has nothing to join, so it returns. *)
Lemma control_start_spec a fds paths c : la_fd a ∉ fds -> control_ok fds paths c ->
  exists c', control_start a c = (Ret tt, c') /\ control_ok fds paths c'.
Proof.
  intros Ha Hc. unfold control_start. rewrite bind_get. destruct (started_ c) eqn:Es; [by eexists|]. cbn [orb].
  destruct (bool_decide _); [by eexists|]. rewrite bind_put.
  set (i := if ipc_there c then mc_ipc c else _).
  assert (Hi : ipc_ok fds paths i /\ server_fd_ i < 0).
  { unfold i, control_ok in *. destruct (ipc_there c); [destruct Hc as [? Hn]; split; [done|by apply Hn]|].
    destruct Hc as [-> Hp]. split; [by apply ipc_ok_new|done]. }
  destruct Hi as [Hi Hn].
  assert (Hl : ipc_listen sun_path_size a (mc_socket_name c) closure i =
               (Ret tt, ipc_open sun_path_size a (mc_socket_name c) closure (ipc_release i))).
  { unfold ipc_listen, bind. by rewrite ipc_stop_joined by (by right). }
  rewrite (bind_ret _ _ _ _ _ (zoom_ret mc_ipc set_ipc _ (mkControlSocket (mc_socket_name c) i true false) _ _ Hl)).
  eexists. split; [done|]. split; [|done]. by apply ipc_open_ok.
Qed.

Lemma ipc_reset_ok th fds paths c : control_ok fds paths c -> th = Ret tt \/ ~ control_listens c ->
  exists c', ipc_reset th c = (Ret tt, c') /\ os_fds (mc_ipc c') = fds /\ os_paths (mc_ipc c') ⊆ paths /\ ipc_there c' = false.
Proof.
  intros Hc Ht. unfold ipc_reset. rewrite bind_get. unfold control_ok, control_listens in *.
  destruct (ipc_there c) eqn:Et; [|destruct Hc; exists c; by split_and!].
  assert (Hs : ipc_stop th (mc_ipc c) = (Ret tt, ipc_release (mc_ipc c))).
  { apply ipc_stop_joined. destruct Ht as [?|Ht]; [by left|right]. destruct (Z.lt_ge_cases (server_fd_ (mc_ipc c)) 0) as [?|?]; [done|by destruct Ht]. }
  rewrite (bind_ret _ _ _ _ _ (zoom_ret mc_ipc set_ipc _ c _ _ Hs)). eexists. split; [done|]. cbn.
  by destruct (ipc_release_ok fds paths _ (proj1 Hc)) as (H1 & H2 & _).
Qed.

Lemma control_delete_ok th fds paths c : control_ok fds paths c -> th = Ret tt \/ ~ control_listens c ->
  exists c', control_delete th c = (Ret tt, c') /\ os_fds (mc_ipc c') = fds /\ os_paths (mc_ipc c') ⊆ paths /\ ipc_there c' = false.
Proof.
  intros Hc Ht. destruct (ipc_reset_ok th fds paths c Hc Ht) as (c' & Hr & H1 & H2 & H3).
  unfold control_delete. destruct (started_ c) eqn:Es.
  - assert (Hs : control_stop th c = (Ret tt, mkControlSocket (mc_socket_name c') (mc_ipc c') (ipc_there c') false)).
    { unfold control_stop. rewrite bind_get, Es. cbn [negb]. by rewrite (bind_ret _ _ _ _ _ Hr). }
    rewrite (bind_ret _ _ _ _ _ Hs). eexists. unfold ipc_reset. rewrite bind_get. cbn [ipc_there]. rewrite H3. by split_and!.
  - assert (Hs : control_stop th c = (Ret tt, c)) by (unfold control_stop; by rewrite bind_get, Es).
    rewrite (bind_ret _ _ _ _ _ Hs). by exists c'.
Qed.

(** A thread that does not end holds the destructor before it closes anything. *)
Lemma control_delete_waits th fds paths c : control_ok fds paths c -> control_listens c -> th <> Ret tt ->
  fst (control_delete th c) = th.
Proof.
  intros Hc [Ht Hl] Hn. unfold control_ok in Hc. rewrite Ht in Hc. destruct Hc as [_ Hc].
  destruct (started_ c) eqn:Es; [|specialize (Hc eq_refl); lia].
  unfold control_delete, control_stop, ipc_reset. munfold. rewrite Es. cbn [negb]. rewrite Ht, ipc_stop_waits by done.
  by destruct th as [[]| | |].
Qed.
End control.

(** ** The daemon *)

(** [sockaddr_in]. *)
Record SockAddr := mkSockAddr { sin_addr : Z; sin_port : Z }.

(** [MemoryDaemon]'s members around the sessions; [control_there]: [control_socket_]
    is not null.  [bound], [listening] and the two handles say how libuv sees the
    listening socket and [stop_async_]; [stop_sent]: [uv_async_send] is pending;
    [in_run] and [stop_flag]: [uv_run] runs, and [uv_stop] was called. *)
Record MemoryServer := mkServer {
  ms_config : Config;
  ms_daemon : MemoryDaemon;
  control_socket_ : MemoryControlSocket;
  control_there : bool;
  listen_port_ : Z;
  ms_signals : SignalHandler;
  stop_async_ : Handle;
  stop_sent : bool;
  bound : option SockAddr;
  listening : bool;
  in_run : bool;
  stop_flag : bool
}.

Definition set_daemon (d : MemoryDaemon) s := mkServer (ms_config s) d (control_socket_ s) (control_there s) (listen_port_ s)
  (ms_signals s) (stop_async_ s) (stop_sent s) (bound s) (listening s) (in_run s) (stop_flag s).
Definition set_control (c : MemoryControlSocket) (there : bool) s := mkServer (ms_config s) (ms_daemon s) c there (listen_port_ s)
  (ms_signals s) (stop_async_ s) (stop_sent s) (bound s) (listening s) (in_run s) (stop_flag s).
Definition set_control_socket (c : MemoryControlSocket) s := set_control c (control_there s) s.
Definition set_server_signals (h : SignalHandler) s := mkServer (ms_config s) (ms_daemon s) (control_socket_ s) (control_there s)
  (listen_port_ s) h (stop_async_ s) (stop_sent s) (bound s) (listening s) (in_run s) (stop_flag s).
Definition set_async (h : Handle) (sent : bool) s := mkServer (ms_config s) (ms_daemon s) (control_socket_ s) (control_there s)
  (listen_port_ s) (ms_signals s) h sent (bound s) (listening s) (in_run s) (stop_flag s).
Definition set_socket (port : Z) (b : option SockAddr) (l : bool) s := mkServer (ms_config s) (ms_daemon s) (control_socket_ s)
  (control_there s) port (ms_signals s) (stop_async_ s) (stop_sent s) b l (in_run s) (stop_flag s).
Definition set_loop (run stop : bool) s := mkServer (ms_config s) (ms_daemon s) (control_socket_ s) (control_there s)
  (listen_port_ s) (ms_signals s) (stop_async_ s) (stop_sent s) (bound s) (listening s) run stop.
Definition set_running (b : bool) s :=
  let d := ms_daemon s in
  set_daemon (mkDaemon (page_tracker_ d) (sessions d) (next_session_id_ d) (server_closing d) b) s.

(** What libuv and the system answer to [run]: the errors of bind and listen, the
    port [uv_tcp_getsockname] finds, and the answers to the control socket. *)
Record RunAnswers := mkRun {
  ra_bind : option string;
  ra_sockname_port : Z;
  ra_listen : option string;
  ra_control : ListenAnswers
}.

Section server.
Context {W : MemoryWire} `{!MapIter Z Allocation}.
Context (sun_path_size : Z) (closure : list byte -> list byte).
(** [uv_ip4_addr]: its result, and what it leaves in the address either way. *)
Context (uv_ip4_addr : string -> Z -> bool * SockAddr).

(** The constructor, in a system with the descriptors [fds] and the paths [paths]. *)
Definition MemoryServer_new (operator_new : Z -> option (list byte)) (config : Config)
    (fds : gset Z) (paths : gset (list byte)) : outcome MemoryServer :=
  match MemoryDaemon_new operator_new (value_int config "memory" "total_reserved_bytes") (value_int config "memory" "page_size_bytes") with
  | Ret d =>
      let name := config_get value_string "memory" "control_socket" ""%string config in
      Ret (mkServer config d (MemoryControlSocket_new (String.list_byte_of_string name) fds paths)
        (negb (bool_decide (name = ""%string))) 0 SignalHandler_new HOpen false None false false false)
  | Throw e => Throw e
  | Undef => Undef
  | NoFuel => NoFuel
  end.

(** [run] up to [uv_run].  The result of [uv_ip4_addr] is not looked at. *)
Definition memoryd_run (a : RunAnswers) : M MemoryServer unit :=
  let! s := get in
  if is_running_ (ms_daemon s) then ret tt
  else
    let listen_addr := config_get value_string "memory" "listen_address" "0.0.0.0"%string (ms_config s) in
    let port := config_get value_int "memory" "port" 9200 (ms_config s) in
    let bind_addr := snd (uv_ip4_addr listen_addr port) in
    do! uv_try (ra_bind a) "Bind error: " in
    let port := if port =? 0 then ra_sockname_port a else port in
    do! (fun s => (Ret tt, set_socket port (Some bind_addr) false s)) in
    do! uv_try (ra_listen a) "Listen error: " in
    do! (fun s => (Ret tt, set_socket (listen_port_ s) (bound s) true s)) in
    do! (fun s => if control_there s then zoom control_socket_ set_control_socket (control_start sun_path_size closure (ra_control a)) s
                  else (Ret tt, s)) in
    fun s => (Ret tt, set_loop true false (set_running true s)).

(** [stop], from any thread. *)
Definition memoryd_stop (s : MemoryServer) : MemoryServer :=
  match stop_async_ s with
  | HOpen => set_async HOpen true s
  | _ => s
  end.

(** The callback of [stop_async_]. *)
Definition stop_callback (s : MemoryServer) : MemoryServer :=
  set_loop (in_run s) true (set_daemon (on_stop (ms_daemon s)) (set_async (stop_async_ s) false s)).

(** The destructor; [th]: what comes of the control socket's thread; [order]: the
    close callbacks of the sessions. *)
Definition MemoryServer_delete (th : outcome unit) (order : list Z) : M MemoryServer unit :=
  do! (fun s => if control_there s then zoom control_socket_ set_control_socket (control_delete th) s else (Ret tt, s)) in
  do! (fun s => (Ret tt, set_control (control_socket_ s) false s)) in
  do! (fun s => (Ret tt, set_daemon (close_sockets (ms_daemon s)) s)) in
  do! zoom ms_signals set_server_signals SignalHandler_delete in
  do! (fun s => (Ret tt, set_async (close_if_open (stop_async_ s)) (stop_sent s) s)) in
  do! (fun s => (Ret tt, set_running false s)) in
  fun s =>
    let h := ms_signals s in
    (Ret tt, set_server_signals (mkSignals (run_close (sigterm_handle_ h)) (run_close (sigint_handle_ h)) (closed_ h))
      (set_async (run_close (stop_async_ s)) (stop_sent s)
        (set_daemon (foldl (fun d sid => daemon_closed sid d) (ms_daemon s) order) s))).

(** ** Executions *)

Inductive server_event :=
| SeRun (a : RunAnswers)
| SeDaemon (ev : daemon_event)
| SeStop
| SeStopAsync
| SeSignal
| SeReturn.

Definition server_exec (ev : server_event) : M MemoryServer unit :=
  match ev with
  | SeRun a => memoryd_run a
  | SeDaemon ev => zoom ms_daemon set_daemon (daemon_exec ev)
  | SeStop => fun s => (Ret tt, memoryd_stop s)
  | SeStopAsync => fun s => (Ret tt, stop_callback s)
  | SeSignal => on_signal (fun s => (Ret tt, memoryd_stop s)) (fun s => set_loop (in_run s) true s)
  | SeReturn => fun s => (Ret tt, set_loop false false s)
  end.

(** [run] is called while no loop runs, with a fresh descriptor for the control
    socket, and libuv refuses to bind a socket that is closing; the callbacks come
    while the loop runs. *)
Definition server_enabled (fds : gset Z) (s : MemoryServer) (ev : server_event) : Prop :=
  match ev with
  | SeRun a => in_run s = false /\ (la_fd (ra_control a) ∉ fds) /\ (server_closing (ms_daemon s) = true -> is_Some (ra_bind a))
  | SeDaemon ev => in_run s = true /\ (ev <> EvStop) /\ enabled (ms_daemon s) ev
  | SeStop => True
  | SeStopAsync => in_run s = true /\ stop_async_ s = HOpen /\ stop_sent s = true
  | SeSignal => in_run s = true
  | SeReturn => in_run s = true /\ stop_flag s = true
  end.

(** An exception of [run] leaves a state too. *)
Inductive server_reachable (fds : gset Z) (s0 : MemoryServer) : MemoryServer -> Prop :=
| server_reachable_init : server_reachable fds s0 s0
| server_reachable_step s ev o s' :
    server_reachable fds s0 s -> server_enabled fds s ev -> server_exec ev s = (o, s') -> no_undefined o ->
    server_reachable fds s0 s'.

(** ** The invariant *)

Record server_ok (fds : gset Z) (paths : gset (list byte)) (s : MemoryServer) : Prop := {
  so_daemon : daemon_wf (ms_daemon s);
  so_control : control_ok fds paths (control_socket_ s);
  so_signals : ms_signals s = SignalHandler_new;
  so_async : stop_async_ s = HOpen;
  so_loop : in_run s = true -> listening s = true /\ is_Some (bound s)
}.

Lemma MemoryServer_new_ok operator_new config fds paths s :
  (forall n b, operator_new n = Some b -> zlen b = n) -> (forall key n, value_int config "memory" key = Some n -> is_u64 n) ->
  MemoryServer_new operator_new config fds paths = Ret s -> server_ok fds paths s.
Proof.
  intros Hnew Hu. unfold MemoryServer_new. destruct (MemoryDaemon_new _ _ _) as [d| | |] eqn:E; intros [= <-].
  split; cbn; [|by split; [apply (ipc_ok_new fds paths paths)|]|done..]. eapply MemoryDaemon_new_wf; [exact Hnew| | |exact E]; intros n; apply Hu.
Qed.

(** [run] throws with the error's text, or goes into the loop listening at what
    [uv_ip4_addr] left. *)
Lemma memoryd_run_spec a fds paths s : is_running_ (ms_daemon s) = false ->
  control_ok fds paths (control_socket_ s) -> la_fd (ra_control a) ∉ fds ->
  let port := config_get value_int "memory" "port" 9200 (ms_config s) in
  let addr := snd (uv_ip4_addr (config_get value_string "memory" "listen_address" "0.0.0.0"%string (ms_config s)) port) in
  let port := if port =? 0 then ra_sockname_port a else port in
  exists c, control_ok fds paths c /\
  memoryd_run a s =
    match ra_bind a, ra_listen a with
    | Some e, _ => (Throw (runtime_error ("Bind error: " ++ e)), s)
    | None, Some e => (Throw (runtime_error ("Listen error: " ++ e)), set_socket port (Some addr) false s)
    | None, None => (Ret tt, set_loop true false (set_running true (set_control c (control_there s) (set_socket port (Some addr) true s))))
    end.
Proof.
  intros Hr Hc Ha. cbv zeta. unfold memoryd_run, uv_try. rewrite bind_get, Hr. munfold.
  destruct (control_start_spec sun_path_size closure (ra_control a) fds paths _ Ha Hc) as (c' & Hs & Hc').
  destruct s as [cfg d c there]. cbn in *. exists (if there then c' else c). split; [by destruct there|].
  destruct (ra_bind a); [done|]. destruct (ra_listen a); [done|]. cbn. destruct there; [by rewrite Hs|done].
Qed.

Lemma set_running_wf b d : daemon_wf d ->
  daemon_wf (mkDaemon (page_tracker_ d) (sessions d) (next_session_id_ d) (server_closing d) b).
Proof. intros [? ? ? ?]. done. Qed.

Lemma server_step_ok fds paths s ev o s' :
  server_ok fds paths s -> server_enabled fds s ev -> server_exec ev s = (o, s') -> server_ok fds paths s'.
Proof.
  intros Hok Hen Hx. pose proof Hok as [Hd Hc Hs Ha Hl]. destruct ev as [a|ev| | | |]; cbn [server_exec] in Hx.
  - destruct (is_running_ (ms_daemon s)) eqn:Er; [unfold memoryd_run in Hx; rewrite bind_get, Er in Hx; by injection Hx as _ <-|].
    destruct Hen as (Hi & Hfd & _). destruct (memoryd_run_spec a fds paths s Er Hc Hfd) as (c' & Hc' & Hrun). rewrite Hrun in Hx.
    destruct (ra_bind a); [by injection Hx as _ <-|]. destruct (ra_listen a); injection Hx as _ <-.
    + split; cbn; try done. by rewrite Hi.
    + split; cbn; [by apply set_running_wf|done..|].
      intros _. split; [done|by eexists].
  - destruct Hen as (Hi & Hne & Hen). unfold zoom in Hx. destruct (daemon_exec ev (ms_daemon s)) as [o1 d1] eqn:E. injection Hx as _ <-.
    split; cbn; try done. destruct ev as [status accepted|sid r|sid|]; cbn [daemon_exec] in E; try done.
    + injection E as _ <-. by apply on_connection_wf; [|apply Hen].
    + destruct (daemon_read_spec _ sid r Hd Hen) as (o2 & d2 & Hr & _ & Hw & _). rewrite Hr in E. by injection E as _ <-.
    + injection E as _ <-. by destruct (daemon_closed_spec (ms_daemon s) sid Hd).
  - injection Hx as _ <-. unfold memoryd_stop. by rewrite Ha.
  - injection Hx as _ <-. split; cbn; try done. by apply set_running_wf, close_sockets_wf.
  - injection Hx as _ <-. unfold memoryd_stop. by rewrite Ha.
  - injection Hx as _ <-. by split.
Qed.

Lemma server_reachable_ok fds paths s0 s : server_ok fds paths s0 -> server_reachable fds s0 s -> server_ok fds paths s.
Proof. intros H0 Hr. induction Hr as [|s ev o s' _ IH Hen Hx _]; [done|]. by eapply server_step_ok. Qed.

(** The destructor, as far as the daemon is concerned, is [MemoryDaemon_delete]. *)
Lemma MemoryServer_delete_spec th order fds paths s : server_ok fds paths s ->
  th = Ret tt \/ ~ (control_there s = true /\ control_listens (control_socket_ s)) ->
  exists s', MemoryServer_delete th order s = (Ret tt, s') /\
    ms_daemon s' = MemoryDaemon_delete order (ms_daemon s) /\ ms_signals s' = mkSignals HClosed HClosed true /\
    stop_async_ s' = HClosed /\ control_there s' = false /\
    (control_there s = true -> os_fds (mc_ipc (control_socket_ s')) = fds /\ os_paths (mc_ipc (control_socket_ s')) ⊆ paths).
Proof.
  intros [Hd Hc Hs Ha Hl] Ht. unfold MemoryServer_delete, SignalHandler_delete. munfold.
  destruct s as [cfg d c there port h async]; cbn in *; subst h async. destruct there.
  - destruct (control_delete_ok th fds paths c Hc) as (c' & -> & H1 & H2 & _); [by destruct Ht as [?|Ht]; [left|right; intros ?; apply Ht]|].
    cbn. eexists. by split_and!.
  - cbn. eexists. by split_and!.
Qed.

(** It waits for the thread before it does anything else. *)
Lemma MemoryServer_delete_waits th order fds paths s : server_ok fds paths s ->
  control_there s = true -> control_listens (control_socket_ s) -> th <> Ret tt ->
  fst (MemoryServer_delete th order s) = th /\ ms_daemon (snd (MemoryServer_delete th order s)) = ms_daemon s.
Proof.
  intros Hok Hc Hl Hn. pose proof (control_delete_waits th fds paths _ (so_control _ _ _ Hok) Hl Hn) as Hx.
  assert (Hm : exists s', MemoryServer_delete th order s = (th, s') /\ ms_daemon s' = ms_daemon s).
  { unfold MemoryServer_delete, bind at 1. rewrite Hc. unfold zoom. destruct (control_delete th (control_socket_ s)) as [o c'].
    cbn in Hx. subst o. destruct th as [[]| | |]; [done|by eexists..]. }
  by destruct Hm as (s' & -> & ?).
Qed.
End server.

(** ** Properties *)

(** C32: memoryd's shutdown.  In every state memoryd can reach, whatever [run] met
    and in whatever order connections, reads, signals and calls of [stop] came: a
    request to stop, even one from before [run], is served as soon as the loop runs,
    closes the listening socket and every connection and lets [run] return.  The
    destructor then closes every handle once, frees every page and leaves the
    system's descriptors and paths as they were, when no control socket listens, and
    also when one does, provided the clients its thread still serves each send a
    whole request or close their side and take their replies.  A control client that
    connects and stays silent holds the destructor at its first step for ever, with
    every session and handle still open; one that is gone before its reply ends the
    process by SIGPIPE. *)
Theorem memoryd_stops (W : MemoryWire) `{!MapIter Z Allocation} sun_path_size closure uv_ip4_addr
    operator_new config fds paths s0 s :
  (forall n b, operator_new n = Some b -> zlen b = n) -> (forall key n, value_int config "memory" key = Some n -> is_u64 n) ->
  MemoryServer_new operator_new config fds paths = Ret s0 ->
  server_reachable sun_path_size closure uv_ip4_addr fds s0 s ->
  let control_thread := control_there s = true /\ control_listens (control_socket_ s) in
  (stop_sent s = true -> in_run s = true -> server_enabled fds s SeStopAsync) /\
  (in_run s = true ->
    let s' := stop_callback s in
    server_enabled fds s' SeReturn /\ server_closing (ms_daemon s') = true /\
    forall sid x, sessions (ms_daemon s') !! sid = Some x -> closing x = true) /\
  (forall order evs, (forall sid, is_Some (sessions (ms_daemon s) !! sid) -> sid ∈ order) ->
    ~ control_thread \/ Forall calm evs ->
    exists s', MemoryServer_delete (thread_end (Some closure) evs) order s = (Ret tt, s') /\
      ms_signals s' = mkSignals HClosed HClosed true /\ stop_async_ s' = HClosed /\ sessions (ms_daemon s') = ∅ /\
      free_pages_count (allocator_ (page_tracker_ (ms_daemon s'))) = total_pages_ (allocator_ (page_tracker_ (ms_daemon s'))) /\
      (control_there s = true -> os_fds (mc_ipc (control_socket_ s')) = fds /\ os_paths (mc_ipc (control_socket_ s')) ⊆ paths)) /\
  (forall order evs fd later, control_thread -> Forall calm evs ->
    let x := MemoryServer_delete (thread_end (Some closure) (evs ++ AcceptClient fd :: later)) order s in
    (stream (fd_in fd) = [] -> ends (fd_in fd) = false -> fst x = NoFuel /\ ms_daemon (snd x) = ms_daemon s) /\
    (forall req rest out, stream (fd_in fd) = ipc_frame req ++ rest -> zlen req <= kMaxIpcMessageBytes -> fd_out fd = OutPipe :: out ->
      fst x = Throw sigpipe)).
Proof.
  intros Hnew Hu H0 Hr. apply MemoryServer_new_ok in H0; [|done..]. pose proof (server_reachable_ok _ _ _ _ _ _ _ H0 Hr) as Hok.
  cbv zeta. split; [by intros ? ?; split_and!; [|apply Hok|]|]. split; [|split].
  - intros Hi. split; [done|]. split; [done|]. intros sid x. cbn. rewrite lookup_fmap. intros (x0 & _ & ->)%fmap_Some. by destruct (closing x0) eqn:E.
  - intros order evs Ho Ht.
    destruct (MemoryServer_delete_spec (thread_end (Some closure) evs) order fds paths s Hok) as (s' & Hx & Hd & Hs & Ha & _ & Hc).
    { destruct Ht as [?|Ht]; [by right|left; by apply thread_end_calm]. }
    exists s'. rewrite Hd. destruct (daemon_shutdown_frees (ms_daemon s) order (so_daemon _ _ _ Hok) Ho) as (He & _ & Hf).
    by split_and!.
  - intros order evs fd later [Hc Hl] Hcalm. split.
    + intros Hs He. rewrite (thread_end_silent _ evs fd later Hcalm Hs He). by apply (MemoryServer_delete_waits NoFuel order fds paths s Hok).
    + intros req rest out Hs Hreq Ho. rewrite (thread_end_gone _ evs fd later req rest out Hcalm Hs Hreq Ho).
      by apply (MemoryServer_delete_waits (Throw sigpipe) order fds paths s Hok).
Qed.

(** A control socket that could not listen says that it has started, for good: the
    listening object only logs the failure, so nobody answers and no later [start]
    tries again. *)
Theorem control_start_deaf sun_path_size closure a name fds paths :
  name <> [] ->
  exists c, control_start sun_path_size closure a (MemoryControlSocket_new name fds paths) = (Ret tt, c) /\
  started_ c = true /\ (forall a', control_start sun_path_size closure a' c = (Ret tt, c)) /\
  ipc_running_ (mc_ipc c) = set_sun_path sun_path_size name && (0 <=? la_fd a) && la_bind a && la_listen a.
Proof.
  intros Hn. unfold control_start. rewrite bind_get. cbn [started_ MemoryControlSocket_new mc_socket_name ipc_there mc_ipc orb].
  rewrite bool_decide_eq_false_2 by done. rewrite bind_put.
  assert (Hl : forall i, ipc_there i = true -> server_fd_ (mc_ipc i) < 0 -> mc_socket_name i = name ->
    zoom mc_ipc set_ipc (ipc_listen sun_path_size a name closure) i =
      (Ret tt, set_ipc (ipc_open sun_path_size a name closure (ipc_release (mc_ipc i))) i)).
  { intros i _ Hi _. apply zoom_ret. unfold ipc_listen, bind. by rewrite ipc_stop_joined by (by right). }
  rewrite (bind_ret _ _ _ _ _ (Hl (mkControlSocket name (ipc_new fds paths) true false) eq_refl eq_refl eq_refl)). eexists. split; [done|].
  split; [done|]. split; [done|]. cbn [mc_ipc set_ipc]. unfold ipc_open.
  destruct (set_sun_path sun_path_size name); [|done]. cbn [negb andb]. rewrite (Z.leb_antisym (la_fd a) 0).
  destruct (la_fd a <? 0); [done|]. by destruct (la_bind a), (la_listen a).
Qed.

(** *** Concrete runs *)

#[local] Existing Instance map_iter_std.

Definition demo_server_config : Config := mkTomlConfig
  (fun _ k => if bool_decide (k = "control_socket"%string) then Some "c"%string else None)
  (fun _ k => if bool_decide (k = "total_reserved_bytes"%string) then Some 14 else if bool_decide (k = "page_size_bytes"%string) then Some 4 else None)
  (fun _ _ => None) (fun _ _ => true).

Definition demo_ip4 (_ : string) (port : Z) : bool * SockAddr := (true, mkSockAddr 0 port).

Definition demo_server_exec (ev : server_event) (s : MemoryServer) : MemoryServer :=
  snd (server_exec (W := table_wire) 108 (fun _ => []) demo_ip4 ev s).

Definition demo_server0 : MemoryServer := mkServer demo_server_config demo_daemon (MemoryControlSocket_new [x63] {[3]} ∅) true 0
  SignalHandler_new HOpen false None false false false.

(** [stop] comes first; the loop starts, serves a client that allocates, and stops. *)
Definition demo_server_events : list server_event :=
  [SeStop; SeRun (mkRun None 0 None (mkAnswers (Ret tt) 7 true true)); SeDaemon (EvConnection 0 true); SeDaemon (EvRead 1 demo_alloc)].

Definition demo_memoryd : MemoryServer := foldl (fun s ev => demo_server_exec ev s) demo_server0 demo_server_events.

Lemma demo_server_step s ev :
  (exists a, fst (server_exec (W := table_wire) 108 (fun _ => []) demo_ip4 ev s) = Ret a) -> server_enabled {[3]} s ev ->
  server_reachable (W := table_wire) 108 (fun _ => []) demo_ip4 {[3]} demo_server0 s ->
  server_reachable (W := table_wire) 108 (fun _ => []) demo_ip4 {[3]} demo_server0 (demo_server_exec ev s).
Proof.
  intros [a Ha] Hen Hr. eapply server_reachable_step; [exact Hr|exact Hen| |].
  - unfold demo_server_exec. apply surjective_pairing.
  - by rewrite Ha.
Qed.

Lemma demo_server_reachable : server_reachable (W := table_wire) 108 (fun _ => []) demo_ip4 {[3]} demo_server0 demo_memoryd.
Proof.
  unfold demo_memoryd, demo_server_events, foldl.
  repeat (apply demo_server_step; [exists tt; vm_compute; reflexivity|..]); [..|constructor].
  - split; [vm_compute; reflexivity|]. split; [discriminate|]. eexists. split; [vm_compute; reflexivity|]. split; [reflexivity|]. vm_compute. reflexivity.
  - split; [vm_compute; reflexivity|]. split; [discriminate|]. split; vm_compute; reflexivity.
  - split; [reflexivity|]. split; [by vm_compute|]. discriminate.
  - exact I.
Qed.

Lemma memoryd_stops_witness :
  stop_sent demo_memoryd = true /\ server_enabled {[3]} demo_memoryd SeStopAsync /\
  exists s', MemoryServer_delete (thread_end (Some (fun _ => [])) [PollTimeout]) [1] demo_memoryd = (Ret tt, s') /\ sessions (ms_daemon s') = ∅.
Proof.
  assert (Hu : forall key n, value_int demo_server_config "memory" key = Some n -> is_u64 n).
  { intros key n. cbn. repeat case_bool_decide; intros [= <-]; unfold is_u64, U64; lia. }
  assert (H0 : MemoryServer_new demo_new demo_server_config {[3]} ∅ = Ret demo_server0) by (vm_compute; reflexivity).
  destruct (memoryd_stops table_wire 108 (fun _ => []) demo_ip4 demo_new demo_server_config {[3]} ∅ demo_server0 demo_memoryd demo_new_len Hu H0 demo_server_reachable)
    as (H1 & _ & H3 & _).
  assert (Hs : stop_sent demo_memoryd = true) by (vm_compute; reflexivity).
  split; [exact Hs|]. split; [apply H1; [exact Hs|vm_compute; reflexivity]|].
  destruct (H3 [1] [PollTimeout]) as (s' & Hx & _ & _ & He & _).
  - intros sid Hsid. assert (Hd : dom (sessions (ms_daemon demo_memoryd)) = {[1]}) by (vm_compute; reflexivity).
    apply elem_of_dom in Hsid. rewrite Hd in Hsid. apply elem_of_singleton in Hsid as ->. left.
  - right. by repeat constructor.
  - exists s'. split; [exact Hx|exact He].
Defined.

Lemma control_start_deaf_witness :
  exists c, control_start 108 (fun _ => []) (mkAnswers (Ret tt) 7 false true) (MemoryControlSocket_new [x63] ∅ ∅) = (Ret tt, c) /\
    started_ c = true.
Proof.
  destruct (control_start_deaf 108 (fun _ => []) (mkAnswers (Ret tt) 7 false true) [x63] ∅ ∅) as (c & H1 & H2 & _); [discriminate|].
  by exists c.
Defined.
