(* ===== verification/HeapProbe.v ===== *)
(** * The probe of the remote heap

    [tools/remote_heap_probe.cpp], a program on [RemoteHeap] from the construction of
    the heap to its destruction: it fills the region through a plain pointer, pushes
    everything out to the peer, and reads it back.  What it prints on the way, the
    client it builds first and [--hold] are left out. *)

From Stdlib.Strings Require Import Ascii String.
From stdpp Require Import pretty.
From S2P Require Import Prelude MemoryMonitor PageRegions FaultBackend PageFaultWin RemoteHeap RemoteHeapSpec HeapDemo HeapProgram.
Local Open Scope Z_scope.

(** ** Options *)

(** [std::toupper] in the classic locale. *)
Definition toupper (c : ascii) : ascii :=
  if (97 <=? char_code c) && (char_code c <=? 122) then ascii_of_N (Z.to_N (char_code c - 32)) else c.

(** [std::stoull], which skips blanks, takes a sign and stops at the first character
    that is no digit; [None]: it throws. *)
Definition stoull (l : list ascii) : option Z := fst <$> get_size l.

Definition size_multiplier (suffix : ascii) : option Z :=
  match suffix with
  | "K"%char => Some 1024
  | "M"%char => Some (1024 * 1024)
  | "G"%char => Some (1024 * 1024 * 1024)
  | _ => None
  end.

Definition parse_size (text : string) : option Z :=
  let l := list_ascii_of_string text in
  match last l with
  | None => None
  | Some back =>
      let '(digits, multiplier) :=
        match size_multiplier (toupper back) with
        | Some m => (removelast l, m)
        | None => (l, 1)
        end in
      match stoull digits with
      | None => None
      | Some value => let out := u64 (value * multiplier) in if out =? 0 then None else Some out
      end
  end.

(** ** The passes *)

Definition expected_byte (index : Z) : byte := byte_of_Z (Z.shiftr (u64 (index * 1103515245 + 12345)) 16).

Inductive ProbeResult :=
| ProbeOk
| ProbeMismatch (mismatches first : Z)
| ProbeError (e : exn)
| ProbeBadOption
| ProbeCrash.             (* a fault was not answered *)

(** What the process exits with. *)
Definition exit_code (r : ProbeResult) : option Z :=
  match r with
  | ProbeOk => Some 0
  | ProbeMismatch _ _ | ProbeError _ => Some 1
  | ProbeBadOption => Some 2
  | ProbeCrash => None
  end.

Section probe.
Context {B C : Type} `{!IPageFaultBackend B} `{!BlockStore C} (fuel : nat).
Abbreviation World := (HeapWorld B C).

(** [n] bytes are left from [i]; [false]: the process died. *)
Fixpoint probe_writes (n : nat) (i : Z) : M World bool :=
  match n with
  | O => ret true
  | S n =>
      let! w := get in
      let! ok := store fuel (base_ (heap w) + i) (expected_byte i) in
      if ok : bool then probe_writes n (i + 1) else ret false
  end.

Fixpoint probe_reads (n : nat) (i mismatches first : Z) : M World (option (Z * Z)) :=
  match n with
  | O => ret (Some (mismatches, first))
  | S n =>
      let! w := get in
      let! r := load fuel (base_ (heap w) + i) in
      match r with
      | None => ret None
      | Some v =>
          if decide (v = expected_byte i) then probe_reads n (i + 1) mismatches first
          else probe_reads n (i + 1) (mismatches + 1) (if mismatches =? 0 then i else first)
      end
  end.

(** What happens while the heap exists. *)
Definition probe_body : M World ProbeResult :=
  let! w := get in
  let total := Z.to_nat (capacity_ (heap w)) in
  let! ok := probe_writes total 0 in
  if negb ok then ret ProbeCrash
  else
    do! flush_and_evict_all in
    let! r := probe_reads total 0 0 0 in
    ret (match r with
         | None => ProbeCrash
         | Some (mismatches, first) => if mismatches =? 0 then ProbeOk else ProbeMismatch mismatches first
         end).

Definition probe_main (size_text budget_text page_text : string) : M World ProbeResult :=
  match parse_size size_text, parse_size budget_text, parse_size page_text with
  | Some size_bytes, Some budget_bytes, Some page_bytes =>
      catch
        (do! RemoteHeap_new (mkConfig size_bytes budget_bytes page_bytes) in
         let! r := catch_rethrow probe_body RemoteHeap_delete in
         match r with
         | ProbeCrash => ret ProbeCrash
         | _ => do! RemoteHeap_delete in ret r
         end)
        (fun e => ret (ProbeError e))
  | _, _, _ => ret ProbeBadOption
  end.
End probe.

(** ** Sizes *)

Lemma take_digits_all l : forall acc v, take_digits acc l = (v, []) -> Forall (fun c => is_digit c = true) l.
Proof. induction l as [|c l IH]; intros acc v; cbn; [done|]. destruct (is_digit c) eqn:E; [|done]. intros H. constructor; [done|by eapply IH]. Qed.

Lemma digit_no_suffix c : is_digit c = true -> size_multiplier (toupper c) = None.
Proof. destruct c as [[] [] [] [] [] [] [] []]; vm_compute; done. Qed.

Lemma list_ascii_app a b : list_ascii_of_string (a +:+ b) = list_ascii_of_string a ++ list_ascii_of_string b.
Proof. induction a as [|c a IH]; [done|]. change (c :: list_ascii_of_string (a +:+ b) = c :: list_ascii_of_string a ++ list_ascii_of_string b). by rewrite IH. Qed.

Lemma stoull_pretty n : is_u64 n -> stoull (list_ascii_of_string (pretty (Z.to_N n))) = Some n.
Proof. intros Hn. unfold stoull. pose proof (get_size_pretty 0 n [] Hn I) as H. cbn [replicate app] in H. rewrite app_nil_r in H. by rewrite H. Qed.

Lemma parse_size_suffix n c m : 0 < n -> 0 < m -> n * m < U64 -> size_multiplier (toupper c) = Some m ->
  parse_size (pretty (Z.to_N n) +:+ String c "") = Some (n * m).
Proof.
  intros Hn Hm Hb Hc. unfold parse_size. rewrite list_ascii_app. change (list_ascii_of_string (String c "")) with [c].
  rewrite last_snoc, removelast_last, Hc, stoull_pretty by (unfold is_u64; nia).
  rewrite u64_small by nia. by rewrite (proj2 (Z.eqb_neq _ 0)) by nia.
Qed.

Lemma parse_size_plain n : 0 < n < U64 -> parse_size (pretty (Z.to_N n)) = Some n.
Proof.
  intros Hn. unfold parse_size. destruct (pretty_digits n [] ltac:(lia) I) as [Hd (c & l & Hl & _)].
  rewrite app_nil_r in Hd. apply take_digits_all in Hd. pose proof (stoull_pretty n ltac:(unfold is_u64; lia)) as Hst.
  destruct (last _) as [back|] eqn:Eb; [|by apply last_None in Eb; rewrite Eb in Hl].
  rewrite (digit_no_suffix back); [|rewrite Forall_forall in Hd; apply Hd; by apply last_Some_elem_of].
  rewrite Hst, Z.mul_1_r, u64_small by lia. by rewrite (proj2 (Z.eqb_neq _ 0)) by lia.
Qed.

(** A decimal number, alone or with one of the letters, is that many bytes, if they
    fit 64 bits. *)
Theorem parse_size_exact n m suffix :
  0 < n -> n * m < U64 ->
  (suffix, m) ∈ [("K", 2 ^ 10); ("k", 2 ^ 10); ("M", 2 ^ 20); ("m", 2 ^ 20); ("G", 2 ^ 30); ("g", 2 ^ 30)]%char ->
  parse_size (pretty (Z.to_N n)) = Some n /\ parse_size (pretty (Z.to_N n) +:+ String suffix "") = Some (n * m).
Proof.
  intros Hn Hb Hs. assert (Hc : 0 < m /\ size_multiplier (toupper suffix) = Some m).
  { repeat (apply elem_of_cons in Hs as [[= -> ->]|Hs]; [done|]). by apply not_elem_of_nil in Hs. }
  destruct Hc. split; [apply parse_size_plain; nia|by apply parse_size_suffix].
Qed.

(** Anything after the digits is ignored, and a product beyond 64 bits wraps. *)
Example sizes_misread :
  parse_size "4GB" = Some 4 /\ parse_size "256MiB" = Some 256 /\ parse_size "17179869185G" = Some (2 ^ 30) /\
  parse_size "-1" = Some (U64 - 1) /\ parse_size "0" = None /\ parse_size "G" = None /\ parse_size "4g" = Some (2 ^ 32).
Proof. vm_compute. by split_and!. Qed.

(** ** The passes *)

Section verdict.
Context {B C : Type} `{!IPageFaultBackend B} `{!FaultBackendView B} `{!FaultBackendLaws B}.
Context `{!BlockStore C} `{!BlockStoreLaws C}.
Abbreviation World := (HeapWorld B C).
Implicit Types (w : World).

(** The array holds what the probe expects below [i]. *)
Definition filled_to (l : list byte) (i : Z) : Prop := forall j, 0 <= j < i -> znth l j = Some (expected_byte j).

Lemma fuel_access N fuel w : fuel_for N fuel w -> within_budget w ->
  N \/ (reliable (B := B) (C := C) /\ page_count_ (heap w) <= Z.of_nat fuel /\ within_budget w /\ (2 <= fuel)%nat).
Proof. intros [|(? & ? & ?)] Hb; [by left|by right]. Qed.

Lemma fuel_same N fuel w w' : fuel_for N fuel w -> page_count_ (heap w') = page_count_ (heap w) -> fuel_for N fuel w'.
Proof. intros [|(? & ? & ?)] He; [by left|right]. by rewrite He. Qed.

Lemma probe_writes_spec N fuel n : forall i w l,
  reads_as w l -> filled_to l i -> 0 <= i -> i + Z.of_nat n <= capacity_ (heap w) -> fuel_for N fuel w ->
  wpx N (probe_writes fuel n i)
    (fun ok w' => ok = true -> page_count_ (heap w') = page_count_ (heap w) /\ capacity_ (heap w') = capacity_ (heap w) /\
       exists l', reads_as w' l' /\ filled_to l' (i + Z.of_nat n))
    (fun _ _ => False) w.
Proof.
  induction n as [|n IH]; intros i w l Hr Hl H0 Hi Hf; cbn [probe_writes].
  { apply wpx_ret. intros _. split; [done|]. split; [done|]. exists l. split; [done|]. by rewrite Z.add_0_r. }
  apply wpx_bind, wpx_get, wpx_bind. eapply wpx_mono.
  { apply (store_spec N fuel w (base_ (heap w) + i) (expected_byte i) (ra_ok _ _ Hr)); [unfold in_heap; lia|by apply fuel_access, Hr]. }
  2: done. cbn beta. intros [] w' (Hb & Hs); [|by apply wpx_ret]. pose proof (st_same _ _ _ _ Hs) as Hsm.
  assert (Hr' : reads_as w' (zset l i (expected_byte i))) by (apply (reads_sets w); [done|lia|done|by apply Hb, Hr]).
  eapply wpx_mono; [apply (IH (i + 1) w' _ Hr')| |done].
  - intros j Hj. pose proof (ra_len _ _ Hr). destruct (decide (j = i)) as [->|Hne]; [rewrite znth_zset_eq by lia; done|].
    rewrite znth_zset_ne by lia. apply Hl. lia.
  - lia.
  - rewrite (sh_capacity _ _ Hsm). lia.
  - eapply fuel_same; [done|apply Hsm].
  - cbn beta. intros ok w2 H Hok. destruct (H Hok) as (Hp & Hc & l' & Hl1 & Hl2). rewrite Hp, Hc, (sh_count _ _ Hsm), (sh_capacity _ _ Hsm).
    split; [done|]. split; [done|]. exists l'. split; [done|]. intros j Hj. apply Hl2. lia.
Qed.

Lemma probe_reads_spec N fuel n : forall i w l,
  reads_as w l -> filled_to l (i + Z.of_nat n) -> 0 <= i -> i + Z.of_nat n <= capacity_ (heap w) -> fuel_for N fuel w ->
  wpx N (probe_reads fuel n i 0 0) (fun r w' => (r = None \/ r = Some (0, 0)) /\ heap_keeps w w') (fun _ _ => False) w.
Proof.
  induction n as [|n IH]; intros i w l Hr Hl H0 Hi Hf; cbn [probe_reads].
  { apply wpx_ret. split; [by right|]. apply keeps_refl, Hr. }
  apply wpx_bind, wpx_get, wpx_bind. eapply wpx_mono.
  { apply (load_spec N fuel w (base_ (heap w) + i) (ra_ok _ _ Hr)); [unfold in_heap; lia|].
    destruct (fuel_access N fuel w Hf (ra_budget _ _ Hr)) as [|(? & ? & ? & ?)]; [by left|right; split_and!; done || lia]. }
  2: done. cbn beta. intros [v|] w' (Hk & Hb & Hv); [|apply wpx_ret; split; [by left|done]]. pose proof (kp_same _ _ Hk) as Hsm.
  assert (v = expected_byte i) as ->.
  { specialize (Hv v eq_refl). rewrite (ra_byte _ _ Hr) in Hv by lia. rewrite Hl in Hv by lia. by injection Hv. }
  rewrite decide_True by done.
  assert (Hr' : reads_as w' l) by (apply (reads_keeps w); [done|done|by apply Hb, Hr]).
  eapply wpx_mono; [apply (IH (i + 1) w' l Hr')| |done].
  - intros j Hj. apply Hl. lia.
  - lia.
  - rewrite (sh_capacity _ _ Hsm). lia.
  - eapply fuel_same; [done|apply Hsm].
  - cbn beta. intros r w2 [Hres Hk2]. split; [done|]. by eapply keeps_trans.
Qed.

(** The destructor gives the region back, whatever the peer says to the [free]. *)
Lemma RemoteHeap_delete_spec w : heap_ok w ->
  wp RemoteHeap_delete
    (fun _ w' => fb_ok (backend_ w') /\ fb_armed (backend_ w') = false /\ heap w' = heap w /\
       range_pages (base_ (heap w)) (capacity_ (heap w)) (backend_ w') (fun d => d = None))
    (fun _ _ => False) w.
Proof.
  intros Hok. unfold RemoteHeap_delete. destruct (on_fault_law (backend_ w) false (hk_backend _ Hok)) as (b1 & Hon & Hb1 & Ha1 & Hr1 & _ & _).
  apply wp_bind. eapply wp_run; [apply zoom_ret; exact Hon|]. apply wp_bind, wp_get. change (heap (set_backend b1 w)) with (heap w).
  pose proof (hs_region _ (hk_shape _ Hok)) as Hreg. destruct (fb_region_bounds _ _ _ (hk_backend _ Hok) Hreg) as (H0 & _).
  rewrite (proj2 (Z.eqb_neq _ 0)) by lia. apply Hr1 in Hreg. destruct (release_law b1 _ _ Hb1 Hreg) as (b2 & Hrel & Hb2 & Ha2 & Hp2).
  apply wp_bind. eapply wp_run; [apply zoom_ret; exact Hrel|]. assert (Ha : fb_armed b2 = false) by congruence.
  destruct (_ =? 0); [by unfold wp; cbn|]. apply wp_catch, wp_zoom.
  destruct (hs_block _ (hk_shape _ Hok)) as (blk & Hblk & _).
  eapply wp_mono; [apply (bs_free_law (client_ w) _ blk); [apply Hok|done]|by cbn|by unfold wp; cbn].
Qed.

Lemma probe_body_spec N fuel w l : reads_as w l -> fuel_for N fuel w ->
  wpx N (probe_body fuel) (fun r w' => r = ProbeCrash \/ (r = ProbeOk /\ heap_ok w')) (fun _ _ => False) w.
Proof.
  intros Hr Hf. pose proof (hs_page _ (hk_shape _ (ra_ok _ _ Hr))) as Hpg. pose proof (ra_len _ _ Hr) as Hlen. pose proof (zlen_nonneg l).
  unfold probe_body. apply wpx_bind, wpx_get, wpx_bind.
  eapply wpx_mono; [apply (probe_writes_spec N fuel _ 0 w l Hr); [intros j Hj; lia|done|lia|done]| |done].
  cbn beta. intros [] w1 H1; [|apply wpx_ret; by left]. destruct (H1 eq_refl) as (Hp & Hc & l1 & Hr1 & Hl1). cbn [negb].
  apply wpx_bind. eapply wpx_mono; [apply (flush_and_evict_all_spec N w1 (ra_ok _ _ Hr1))| |done].
  cbn beta. intros _ w2 (Hk & Hb & _). assert (Hr2 : reads_as w2 l1) by (apply (reads_keeps w1); [done|done|by apply Hb, Hr1]).
  pose proof (kp_same _ _ Hk) as Hsm. apply wpx_bind.
  eapply wpx_mono; [apply (probe_reads_spec N fuel _ 0 w2 l1 Hr2 Hl1); [done| |]| |done].
  - rewrite (sh_capacity _ _ Hsm), Hc. lia.
  - eapply fuel_same; [exact Hf|]. by rewrite (sh_count _ _ Hsm).
  - cbn beta. intros r w3 [[-> | ->] Hk3]; apply wpx_ret; [by left|right]. split; [done|]. apply Hk3.
Qed.

(** ** Properties *)

(** The probe's verdict means something.  Whatever the platform and the peer do,
    it never reports a mismatch: it succeeds, dies of a fault nobody answered, or ends
    with an exception from the start that changed no block of the client.  When the
    peer takes its writes and the system the pages, it ends. *)
Theorem probe_verdict N fuel (size budget page : Z) text_s text_b text_p w :
  parse_size text_s = Some size -> parse_size text_b = Some budget -> parse_size text_p = Some page ->
  let c := mkConfig size budget page in
  config_ok c -> fb_ok (backend_ w) -> bs_ok (client_ w) -> bs_more (client_ w) ->
  N \/ (reliable (B := B) (C := C) /\ heap_capacity c <= Z.of_nat fuel /\ (2 <= fuel)%nat) ->
  wpx N (probe_main fuel text_s text_b text_p)
    (fun r w' => match r with
                 | ProbeOk | ProbeCrash => True
                 | ProbeError e => same_values (client_ w) (client_ w')
                 | ProbeMismatch _ _ | ProbeBadOption => False
                 end)
    (fun _ _ => False) w.
Proof.
  intros Hs Hb Hp c Hc Hfb Hbs Hm Hf. unfold probe_main. rewrite Hs, Hb, Hp. fold c. destruct (config_sizes c Hc) as (Hp0 & _ & _ & Hcap & _).
  pose proof (co_capacity _ Hc). apply wpx_catch, wpx_bind, wpx_of_wp.
  eapply wp_mono; [by apply RemoteHeap_new_spec| |by intros e w' H'; apply wpx_ret]. cbn beta.
  intros _ w1 (Hok & Hbud & Hz & Hcp & _). assert (Hr : reads_as w1 (replicate (Z.to_nat (heap_capacity c)) x00)).
  { split; [done|done|by rewrite zlen_replicate by lia|]. intros o Ho. rewrite Hz by (unfold in_heap; lia).
    rewrite znth_lookup by lia. symmetry. apply lookup_replicate_2. rewrite Hcp in Ho. lia. }
  apply wpx_bind, wpx_catch. eapply wpx_mono; [apply (probe_body_spec N fuel w1 _ Hr)| |done].
  - destruct Hf as [|(Hrel & Hn & H2)]; [by left|right]. split; [done|]. split; [|done].
    pose proof (hs_page _ (hk_shape _ Hok)). pose proof (hs_count _ (hk_shape _ Hok)). rewrite Hcp in *. nia.
  - cbn beta. intros r w2 [-> |[-> Hok2]]; [by apply wpx_ret|]. apply wpx_bind, wpx_of_wp.
    eapply wp_mono; [by apply RemoteHeap_delete_spec| |done]. intros ? ? ?. by apply wpx_ret.
Qed.
End verdict.

(** *** Witnesses *)

Lemma parse_size_exact_witness : parse_size "4G" = Some (4 * 2 ^ 30).
Proof. apply (parse_size_exact 4 (2 ^ 30) "G"%char); [done|done|]. do 4 right. left. Defined.

Section example.
#[local] Existing Instance demo_memory.
#[local] Existing Instance demo_vm.
#[local] Instance probe_store : BlockStore DemoStore := demo_store true.
#[local] Instance probe_store_laws : BlockStoreLaws DemoStore := demo_store_laws true.

(** Four pages of eight bytes, room for two, on the kernel and the store of [HeapDemo]. *)
Lemma probe_verdict_witness :
  fst (probe_main 32 "30" "16" "7" (demo_machine true)) = Ret ProbeOk /\
  wpx False (probe_main 32 "30" "16" "7")
    (fun r w' => match r with
                 | ProbeOk | ProbeCrash => True
                 | ProbeError e => same_values (client_ (demo_machine true)) (client_ w')
                 | ProbeMismatch _ _ | ProbeBadOption => False
                 end)
    (fun _ _ => False) (demo_machine true).
Proof.
  split; [vm_compute; reflexivity|].
  apply (probe_verdict False 32 30 16 7 "30" "16" "7" (demo_machine true)).
  - vm_compute. reflexivity.
  - vm_compute. reflexivity.
  - vm_compute. reflexivity.
  - apply (demo_config_ok true).
  - apply demo_start_ok.
  - apply demo_start_ok.
  - exact I.
  - right. split; [apply steady_reliable|]. split; [vm_compute; discriminate|lia].
Defined.
End example.

(** A verdict of its own: the peer refuses every write, the budget holds the region,
    and the probe reports that every byte made the round trip; the peer's block is
    all zeros. *)
Section deaf.
#[local] Existing Instance demo_memory.
#[local] Existing Instance demo_vm.
#[local] Instance deaf_store : BlockStore DemoStore := demo_store false.

Definition probe_on_deaf_peer : outcome ProbeResult * option (list byte) :=
  let '(o, w) := (do! RemoteHeap_new (mkConfig 30 64 7) in probe_body 32) (demo_machine false) in
  (o, bs_value (client_ w) (handle_ (heap w))).

Example probe_deaf_ok :
  fst (probe_main 32 "30" "64" "7" (demo_machine false)) = Ret ProbeOk /\
  probe_on_deaf_peer = (Ret ProbeOk, Some (replicate 32 x00)).
Proof. vm_compute. split; reflexivity. Qed.
End deaf.
