(* ===== verification/PipeListener.v ===== *)
(** * The listening thread and the end of a pipe server

    [platform/src/windows/local_ipc_win.cpp]: [listen], the thread it starts and the
    destructor, which runs at the same time.  What the thread does with a client it
    has is [LocalIpcWin]; here every call that another thread can come between is a
    step of its own. *)

From S2P Require Import Prelude.

(** ** [listen] *)

(** [LocalIpcWin]'s members; no handle is INVALID_HANDLE_VALUE. *)
Record LocalIpcWin := mkIpcWin {
  server_pipe_ : option Z;
  pipe_name_ : string;
  listen_thread_ : bool;       (* joinable *)
  pipe_running_ : bool;
  leaked : list Z              (* handles nobody will close *)
}.

Definition LocalIpcWin_new : LocalIpcWin := mkIpcWin None "" false false [].

(** [pipe]: the handle [CreateNamedPipeA] gives; [None]: [std::terminate], because a
    running thread is assigned to. *)
Definition win_listen (name : string) (pipe : option Z) (i : LocalIpcWin) : option LocalIpcWin :=
  let lost := match server_pipe_ i with Some h => h :: leaked i | None => leaked i end in
  let i := mkIpcWin pipe ("\\.\pipe\" +:+ name) (listen_thread_ i) (pipe_running_ i) lost in
  match pipe with
  | None => Some i
  | Some _ => if listen_thread_ i then None else Some (mkIpcWin pipe (pipe_name_ i) true true (leaked i))
  end.

(** ** The threads *)

(** The pipe instance: as created or with a pending ConnectNamedPipe a client can
    open it; a client's end is open and silent, or has sent its request and takes the
    reply, or is closed again; after DisconnectNamedPipe nobody can open it. *)
Inductive PipeState := PipeFresh | PipeListening | PipeOpened | PipeTalks | PipeGone | PipeDisconnected.

(** Where the listening thread is: before [while (running_)], before and inside
    [ConnectNamedPipe], before [if (!running_) break] with the value of [connected],
    in [serve_client], before [DisconnectNamedPipe], at its end. *)
Inductive ListenPc := LTest | LConnect | LWait | LCheck (connected : bool) | LServe | LDisconnect | LDone.

(** Where the destructor is: not begun, [running_] is cleared, its connection is open,
    in [join], finished. *)
Inductive DtorPc := DNone | DCleared | DConnected | DJoin | DDone.

#[export] Instance pipe_state_eq_dec : EqDecision PipeState.
Proof. solve_decision. Defined.
#[export] Instance listen_pc_eq_dec : EqDecision ListenPc.
Proof. solve_decision. Defined.
#[export] Instance dtor_pc_eq_dec : EqDecision DtorPc.
Proof. solve_decision. Defined.

(** [at_open]: what the destructor's [CreateFileA] met. *)
Record PipeServer := mkPipeServer {
  ps_pipe : PipeState;
  ps_running : bool;
  ps_listen : ListenPc;
  ps_dtor : DtorPc;
  at_open : option (ListenPc * PipeState)
}.

(** As [listen] leaves it. *)
Definition pipe_server_start : PipeServer := mkPipeServer PipeFresh true LTest DNone None.

Definition can_open (p : PipeState) : bool := match p with PipeFresh | PipeListening => true | _ => false end.

(** The listening thread's next step; [None]: it waits or has ended.  [serve_client]
    and [FlushFileBuffers] wait for a client that does not talk. *)
Definition listen_next (s : PipeServer) : option PipeServer :=
  let go p pc := Some (mkPipeServer p (ps_running s) pc (ps_dtor s) (at_open s)) in
  match ps_listen s with
  | LTest => go (ps_pipe s) (if ps_running s then LConnect else LDone)
  | LConnect =>
      match ps_pipe s with
      | PipeFresh | PipeListening | PipeDisconnected => go PipeListening LWait
      | PipeOpened | PipeTalks => go (ps_pipe s) (LCheck true)       (* ERROR_PIPE_CONNECTED *)
      | PipeGone => go PipeGone (LCheck false)          (* ERROR_NO_DATA *)
      end
  | LWait => match ps_pipe s with PipeOpened | PipeTalks | PipeGone => go (ps_pipe s) (LCheck true) | _ => None end
  | LCheck connected => go (ps_pipe s) (if negb (ps_running s) then LDone else if connected then LServe else LTest)
  | LServe => match ps_pipe s with PipeOpened => None | p => go p LDisconnect end
  | LDisconnect => go PipeDisconnected LTest
  | LDone => None
  end.

(** The destructor's next step; [None]: [join] waits, or it has not begun or is over. *)
Definition dtor_next (s : PipeServer) : option PipeServer :=
  match ps_dtor s with
  | DNone | DDone => None
  | DCleared =>
      let ok := can_open (ps_pipe s) in
      Some (mkPipeServer (if ok then PipeOpened else ps_pipe s) (ps_running s) (ps_listen s) (if ok then DConnected else DJoin)
        (Some (ps_listen s, ps_pipe s)))
  | DConnected =>
      Some (mkPipeServer (match ps_pipe s with PipeOpened => PipeGone | p => p end) (ps_running s) (ps_listen s) DJoin (at_open s))
  | DJoin =>
      match ps_listen s with
      | LDone => Some (mkPipeServer (ps_pipe s) (ps_running s) LDone DDone (at_open s))
      | _ => None
      end
  end.

(** What can happen next: a step of either thread, the destructor begins, a client
    opens the pipe, talks or closes its end. *)
Inductive pipe_step : PipeServer -> PipeServer -> Prop :=
| step_listen s s' : listen_next s = Some s' -> pipe_step s s'
| step_dtor s s' : dtor_next s = Some s' -> pipe_step s s'
| step_dtor_begin s : ps_dtor s = DNone ->
    pipe_step s (mkPipeServer (ps_pipe s) false (ps_listen s) DCleared (at_open s))
| step_client_opens s : can_open (ps_pipe s) = true ->
    pipe_step s (mkPipeServer PipeOpened (ps_running s) (ps_listen s) (ps_dtor s) (at_open s))
| step_client_talks s : ps_pipe s = PipeOpened -> ps_dtor s <> DConnected ->
    pipe_step s (mkPipeServer PipeTalks (ps_running s) (ps_listen s) (ps_dtor s) (at_open s))
| step_client_closes s : ps_pipe s = PipeOpened \/ ps_pipe s = PipeTalks -> ps_dtor s <> DConnected ->
    pipe_step s (mkPipeServer PipeGone (ps_running s) (ps_listen s) (ps_dtor s) (at_open s)).

Definition pipe_reachable : PipeServer -> Prop := rtc pipe_step pipe_server_start.

(** Neither thread can go on, and [join] has not returned. *)
Definition join_hangs (s : PipeServer) : Prop :=
  ps_dtor s = DJoin /\ listen_next s = None /\ dtor_next s = None.

(** ** The invariant *)

(** How the destructor's connection went: not tried, made, tried between the test of
    [running_] and [ConnectNamedPipe] on a disconnected pipe, refused otherwise. *)
Inductive OpenClass := NotTried | Made | InWindow | Refused.

Definition open_class (a : option (ListenPc * PipeState)) : OpenClass :=
  match a with
  | None => NotTried
  | Some (pc, p) =>
      if can_open p then Made
      else match pc, p with LConnect, PipeDisconnected => InWindow | _, _ => Refused end
  end.

Definition has_client (p : PipeState) : bool := match p with PipeOpened | PipeTalks | PipeGone => true | _ => false end.
Definition before_connect (pc : ListenPc) : bool := match pc with LTest | LConnect | LDone => true | _ => false end.
Definition is_done (pc : ListenPc) : bool := match pc with LDone => true | _ => false end.

(** The pipe and the thread agree; and once the destructor has tried its connection,
    the thread is on its way to the end, or in the window. *)
Definition pipe_inv (p : PipeState) (pc : ListenPc) (d : DtorPc) (g : OpenClass) : bool :=
  match p with
  | PipeFresh | PipeDisconnected => before_connect pc
  | PipeListening => match pc with LWait => true | _ => false end
  | _ => true
  end &&
  match d, pc with DNone, LDone => false | _, _ => true end &&
  match g with
  | NotTried => match d with DNone | DCleared => true | _ => false end
  | Made => match d with DConnected | DJoin | DDone => true | _ => false end &&
      (is_done pc || has_client p) && match pc with LServe | LDisconnect => false | _ => true end
  | InWindow => match d with DJoin | DDone => true | _ => false end
  | Refused => match d with DJoin | DDone => true | _ => false end && (is_done pc || has_client p || match pc with LTest => true | _ => false end)
  end.

Definition pipe_ok (s : PipeServer) : Prop :=
  ps_running s = match ps_dtor s with DNone => true | _ => false end /\
  pipe_inv (ps_pipe s) (ps_listen s) (ps_dtor s) (open_class (at_open s)) = true.

Lemma pipe_step_ok s s' : pipe_ok s -> pipe_step s s' -> pipe_ok s'.
Proof.
  intros [Hr Hi] Hs. destruct Hs as [s s' H|s s' H|s H|s H|s H H2|s H H2]; destruct s as [p r pc d a]; cbn in *; subst r.
  - unfold listen_next in H. cbn in H. remember (open_class a) as g eqn:Hg.
    destruct pc as [| | |[]| | |], p, d; try discriminate H; try discriminate Hi; injection H as <-; (split; [done|]); cbn; rewrite <- Hg; by destruct g.
  - unfold dtor_next in H. cbn in H.
    destruct d; try discriminate H; [..|destruct pc; try discriminate H]; injection H as <-; (split; [cbn; by try destruct (can_open p)|]); cbn.
    + destruct (open_class a), p, pc; by try discriminate Hi.
    + destruct (open_class a), p, pc; done.
    + destruct (open_class a), p; done.
  - subst d. split; [done|]. cbn. by destruct (open_class a), p, pc.
  - split; [done|]. cbn. by destruct (open_class a), p, pc, d.
  - split; [done|]. cbn. by destruct (open_class a), p, pc, d.
  - split; [done|]. cbn. by destruct H as [-> | ->]; destruct (open_class a), pc, d.
Qed.

Lemma pipe_reachable_ok s : pipe_reachable s -> pipe_ok s.
Proof.
  unfold pipe_reachable. intros H. assert (H0 : pipe_ok pipe_server_start) by done. revert H0.
  induction H as [|s1 s2 s3 Hs _ IH]; [done|]. intros H1. by apply IH, (pipe_step_ok s1).
Qed.

(** ** Properties *)

(** The listening thread alone, for up to [n] steps. *)
Fixpoint listen_steps (n : nat) (s : PipeServer) : PipeServer :=
  match n with
  | O => s
  | S n => match listen_next s with Some s => listen_steps n s | None => s end
  end.

(** C33: When the destructor returns.  In every state the threads and any clients can
    reach with the destructor in [join]: if its own connection was made, or was refused
    because of a client, the listening thread ends within three of its steps and
    [join] returns, unless it serves a client that stays silent; otherwise the
    connection was tried when the thread had tested [running_] but not yet called
    [ConnectNamedPipe] again.  These are the only ways to hang, and in the second the
    next client that opens the pipe ends it. *)
Theorem pipe_server_stops s :
  pipe_reachable s -> ps_dtor s = DJoin ->
  let silent := ps_listen s = LServe /\ ps_pipe s = PipeOpened in
  (open_class (at_open s) <> InWindow ->
     silent \/ exists n, (n <= 3)%nat /\ ps_listen (listen_steps n s) = LDone /\ is_Some (dtor_next (listen_steps n s))) /\
  (open_class (at_open s) = Made -> ~ join_hangs s) /\
  (join_hangs s -> silent \/
     (at_open s = Some (LConnect, PipeDisconnected) /\ ps_listen s = LWait /\ can_open (ps_pipe s) = true /\
      let s' := mkPipeServer PipeOpened (ps_running s) (ps_listen s) (ps_dtor s) (at_open s) in
      pipe_step s s' /\ is_Some (dtor_next (listen_steps 2 s')))).
Proof.
  intros Hr Hd. apply pipe_reachable_ok in Hr as [Hrun Hi]. destruct s as [p r pc d a]. cbn in *. subst d r. split; [|split].
  - intros Hw. remember (open_class a) as g eqn:Hg. clear Hg.
    destruct g, p, pc as [| | |[]| | |]; try discriminate Hi; try done; try (by left); right;
      solve [exists 0%nat; (split; [lia|by split]) | exists 1%nat; (split; [lia|by split]) | exists 2%nat; (split; [lia|by split]) | exists 3%nat; (split; [lia|by split])].
  - intros Hg (_ & Hl & Hn). rewrite Hg in Hi. by destruct p, pc as [| | |[]| | |].
  - intros (_ & Hl & Hn). assert (Hp : (pc = LServe /\ p = PipeOpened) \/ (p = PipeListening /\ pc = LWait /\ open_class a = InWindow)).
    { destruct (open_class a), p, pc as [| | |[]| | |]; try discriminate Hl; try discriminate Hn; try discriminate Hi; auto. }
    destruct Hp as [?|(-> & -> & Hg)]; [by left|right]. split_and!; try done.
    + destruct a as [[pc p]|]; [|done]. unfold open_class in Hg. destruct (can_open p); [done|]. by destruct pc, p.
    + by apply step_client_opens.
Qed.

(** Moves of the others, as functions. *)
Definition client_opens (s : PipeServer) : option PipeServer :=
  if can_open (ps_pipe s) then Some (mkPipeServer PipeOpened (ps_running s) (ps_listen s) (ps_dtor s) (at_open s)) else None.

Definition destructor_begins (s : PipeServer) : option PipeServer :=
  match ps_dtor s with
  | DNone => Some (mkPipeServer (ps_pipe s) false (ps_listen s) DCleared (at_open s))
  | _ => None
  end.

Lemma opens_step s s' : client_opens s = Some s' -> pipe_step s s'.
Proof. unfold client_opens. destruct (can_open (ps_pipe s)) eqn:E; [|done]. intros [= <-]. by apply step_client_opens. Qed.

Definition client_talks (s : PipeServer) : option PipeServer :=
  match ps_pipe s, ps_dtor s with
  | PipeOpened, DNone => Some (mkPipeServer PipeTalks (ps_running s) (ps_listen s) (ps_dtor s) (at_open s))
  | _, _ => None
  end.

Lemma talks_step s s' : client_talks s = Some s' -> pipe_step s s'.
Proof. unfold client_talks. destruct (ps_pipe s) eqn:Ep, (ps_dtor s) eqn:Ed; try done. intros [= <-]. rewrite <- Ed. apply step_client_talks; [done|by rewrite Ed]. Qed.

Lemma begins_step s s' : destructor_begins s = Some s' -> pipe_step s s'.
Proof. unfold destructor_begins. destruct (ps_dtor s) eqn:E; try done. intros [= <-]. by apply step_dtor_begin. Qed.

Fixpoint follow (path : list (PipeServer -> option PipeServer)) (s : PipeServer) : option PipeServer :=
  match path with
  | [] => Some s
  | f :: path => match f s with Some s => follow path s | None => None end
  end.

Lemma follow_reachable path : forall s s',
  Forall (fun f => forall s s', f s = Some s' -> pipe_step s s') path -> follow path s = Some s' -> rtc pipe_step s s'.
Proof.
  induction path as [|f path IH]; intros s s' Hf; cbn; [by intros [= ->]|]. apply Forall_cons in Hf as [Hf1 Hf].
  destruct (f s) as [s1|] eqn:E; [|done]. intros H. eapply rtc_l; [by apply Hf1|by apply IH].
Qed.

(** The window is real: a client is served, the thread tests [running_], the
    destructor clears it and finds the pipe busy, and the thread waits for a client. *)
Definition hang_path : list (PipeServer -> option PipeServer) :=
  [listen_next; listen_next; client_opens; listen_next; listen_next; client_talks; listen_next; listen_next; listen_next; destructor_begins; dtor_next; listen_next].

Theorem destructor_can_hang : exists s, pipe_reachable s /\ join_hangs s.
Proof.
  exists (mkPipeServer PipeListening false LWait DJoin (Some (LConnect, PipeDisconnected))). split; [|done].
  apply (follow_reachable hang_path); [|reflexivity]. unfold hang_path. rewrite !Forall_cons.
  split_and!; [..|by constructor]; auto using step_listen, step_dtor, opens_step, talks_step, begins_step.
Qed.

(** A client that came and went between [CreateNamedPipeA] and [ConnectNamedPipe], or
    between two turns: ConnectNamedPipe fails from then on, the thread goes round
    without a pause, and no client gets in until the destructor begins. *)
Definition lost_client (s : PipeServer) : Prop :=
  ps_pipe s = PipeGone /\ ps_running s = true /\ ps_dtor s = DNone /\
  (ps_listen s = LTest \/ ps_listen s = LConnect \/ ps_listen s = LCheck false).

Theorem lost_client_spins s s' :
  lost_client s -> pipe_step s s' -> ps_dtor s' = DNone ->
  lost_client s' /\ is_Some (listen_next s') /\ can_open (ps_pipe s') = false.
Proof.
  intros (Hp & Hr & Hd & Hl) Hs Hd'. assert (Hs' : lost_client s').
  { destruct Hs as [s s' H|s s' H|s H|s H|s H H2|s [H|H] H2]; cbn in Hd'; try congruence.
    - unfold listen_next in H. rewrite Hp, Hr in H. destruct Hl as [Hl|[Hl|Hl]]; rewrite Hl in H; injection H as <-;
        unfold lost_client; cbn; auto 6.
    - unfold dtor_next in H. by rewrite Hd in H.
    - by rewrite Hp in H. }
  split; [done|]. destruct Hs' as (Hp' & Hr' & _ & Hl'). split; [|by rewrite Hp'].
  unfold listen_next. rewrite Hp', Hr'. destruct Hl' as [-> | [-> | ->]]; by eexists.
Qed.

(** A second [listen] ends the process, or loses the handle the thread still uses. *)
Theorem listen_twice name i h : listen_thread_ i = true -> server_pipe_ i = Some h ->
  (forall h', win_listen name (Some h') i = None) /\
  exists i', win_listen name None i = Some i' /\ server_pipe_ i' = None /\ h ∈ leaked i'.
Proof.
  intros Ht Hp. unfold win_listen. cbn. rewrite Ht, Hp. split; [done|]. eexists. split; [done|]. split; [done|left].
Qed.

(** *** Witnesses *)

(** A client connects while the thread waits; then the destructor. *)
Definition stop_path : list (PipeServer -> option PipeServer) := [listen_next; listen_next; destructor_begins; dtor_next; dtor_next].

Lemma pipe_server_stops_witness :
  let s := mkPipeServer PipeGone false LWait DJoin (Some (LWait, PipeListening)) in
  exists n, (n <= 3)%nat /\ ps_listen (listen_steps n s) = LDone /\ is_Some (dtor_next (listen_steps n s)).
Proof.
  set (s := mkPipeServer _ _ _ _ _). destruct (pipe_server_stops s) as [H _]; [|reflexivity|].
  2: { destruct H as [[H _]|H]; [discriminate|discriminate|exact H]. }
  apply (follow_reachable stop_path); [|reflexivity]. unfold stop_path. rewrite !Forall_cons.
  split_and!; [..|by constructor]; auto using step_listen, step_dtor, begins_step.
Defined.

Lemma lost_client_spins_witness :
  let s := mkPipeServer PipeGone true (LCheck false) DNone None in
  lost_client s /\ lost_client (mkPipeServer PipeGone true LTest DNone None).
Proof.
  split; [by unfold lost_client; cbn; auto 6|].
  apply (lost_client_spins (mkPipeServer PipeGone true (LCheck false) DNone None)); [by unfold lost_client; cbn; auto 6|by apply step_listen|done].
Defined.

Lemma listen_twice_witness : win_listen "x" (Some 8) (mkIpcWin (Some 7) "" true true []) = None.
Proof. apply (listen_twice "x" (mkIpcWin (Some 7) "" true true []) 7); reflexivity. Defined.
