(* ===== verification/GpuReal.v ===== *)
(** * The executor on the CUDA runtime

    [gpud/src/cuda_executor_real.cpp] with MEMINFO_ENABLE_CUDA; without it the file
    gives no executor.  The CUDA runtime is a class. *)

From S2P Require Import Prelude Framing Common MemoryProtocol GpuDaemon.

(** The calls of the runtime: a [cudaError_t], what they write through their pointers
    (anything, when they fail), and the device. *)
Class CudaApi (D : Type) := {
  api_malloc : D -> Z -> Z * Z * D;
  api_free : D -> Z -> Z * D;
  api_memcpy_to_device : D -> Z -> list byte -> Z * D;
  api_memcpy_to_host : D -> Z -> list byte -> Z * list byte * D;     (* into the given buffer *)
  api_properties : D -> Z * (string * Z) * D
}.

(** Errors are those of a C enumeration, addresses and sizes have 64 bits, and a copy
    fills its buffer and nothing behind it. *)
Class CudaApiLaws (D : Type) `{!CudaApi D} := {
  api_malloc_typed : forall d n err p d', api_malloc d n = (err, p, d') -> is_i32 err /\ is_u64 p;
  api_free_typed : forall d p err d', api_free d p = (err, d') -> is_i32 err;
  api_to_device_typed : forall d p b err d', api_memcpy_to_device d p b = (err, d') -> is_i32 err;
  api_to_host_typed : forall d p b err b' d', api_memcpy_to_host d p b = (err, b', d') -> is_i32 err /\ zlen b' = zlen b;
  api_properties_typed : forall d err name total d', api_properties d = (err, (name, total), d') -> is_i32 err /\ is_u64 total
}.

Section real.
Context {D : Type} `{!CudaApi D}.

Definition cudaSuccess : Z := 0.

(** [*devPtr] is set only on success; the caller has set it to 0. *)
Definition real_allocate (size : Z) : M D (Z * Z) :=
  fun d => let '(err, ptr, d) := api_malloc d size in (Ret (err, if err =? cudaSuccess then ptr else 0), d).

Definition real_cuda_free (devPtr : Z) : M D Z :=
  fun d => let '(err, d) := api_free d devPtr in (Ret err, d).

(** The runtime reads [size] bytes of the buffer. *)
Definition real_memcpyHtoD (dst : Z) (src : list byte) (size : Z) : M D Z :=
  if zlen src <? size then undef
  else fun d => let '(err, d) := api_memcpy_to_device d dst (slice 0 size src) in (Ret err, d).

(** The buffer comes from [resize], which fills it with zeros. *)
Definition real_memcpyDtoH (src size : Z) : M D (Z * list byte) :=
  fun d => let '(err, b, d) := api_memcpy_to_host d src (replicate (Z.to_nat size) x00) in (Ret (err, b), d).

(** [name] and [totalGlobalMem] keep the caller's values on failure. *)
Definition real_getDeviceProperties : M D (Z * string * Z) :=
  fun d =>
    let '(err, (name, total), d) := api_properties d in
    (Ret (if err =? cudaSuccess then (err, name, total) else (err, ""%string, 0)), d).

#[export] Instance real_executor : ICudaExecutor D := {|
  cuda_allocate := real_allocate;
  cuda_free := real_cuda_free;
  memcpyHtoD := real_memcpyHtoD;
  memcpyDtoH := real_memcpyDtoH;
  getDeviceProperties := real_getDeviceProperties
|}.

(** So what is proved of requests, sessions and the client for any executor holds
    for this one. *)
#[export] Instance real_executor_types `{!CudaApiLaws D} : CudaExecutorTypes D.
Proof.
  split; cbn.
  - unfold real_allocate. intros n d err p d' _. destruct (api_malloc d n) as [[e q] d1] eqn:E. apply api_malloc_typed in E as [? ?].
    intros [= <- <- _]. destruct (e =? cudaSuccess); [done|]. split; [done|]. by unfold is_u64, U64.
  - unfold real_cuda_free. intros p d err d'. destruct (api_free d p) eqn:E. apply api_free_typed in E. by intros [= <- _].
  - unfold real_memcpyHtoD. intros dst s n d err d'. destruct (zlen s <? n); [done|].
    destruct (api_memcpy_to_device _ _ _) eqn:E. apply api_to_device_typed in E. by intros [= <- _].
  - unfold real_memcpyDtoH. intros s n d err b d'. destruct (api_memcpy_to_host _ _ _) as [[e b1] d1] eqn:E.
    apply api_to_host_typed in E as [? Hl]. intros [= <- <- _]. split; [done|]. intros Hn. by rewrite Hl, zlen_replicate.
  - unfold real_getDeviceProperties. intros d err name total d'. destruct (api_properties d) as [[e [nm t]] d1] eqn:E.
    apply api_properties_typed in E as [? ?]. destruct (e =? cudaSuccess); intros [= <- _ <- _]; [done|]. split; [done|]. by unfold is_u64, U64.
Qed.

(** A request to the real device never yields a pointer, data or a name with an error
    other than of a copy, and reports the runtime's own error. *)
Theorem real_errors_clean resize req d err ptr data msg d' :
  gpu_switch (E := D) resize req d = (Ret (err, ptr, data, msg), d') -> err <> 0 ->
  ptr = 0 /\ (gr_op req <> CUDA_MEMCPY -> data = []) /\ (gr_op req = CUDA_GET_DEVICE_PROPERTIES -> msg = ""%string).
Proof.
  unfold gpu_switch. cbn [cuda_allocate cuda_free memcpyHtoD memcpyDtoH getDeviceProperties real_executor].
  unfold real_allocate, real_cuda_free, real_memcpyHtoD, real_memcpyDtoH, real_getDeviceProperties, cudaSuccess. munfold. intros H Hne.
  destruct (gr_op req) eqn:Eo.
  - destruct (api_malloc d _) as [[e p] d1]. cbn in H. injection H as <- <- <- <- _. destruct (Z.eqb_spec e 0); done.
  - destruct (api_free d _) as [e d1]. by injection H as <- <- <- <- _.
  - destruct (gr_memcpy_kind req); [destruct (gr_data req) as [l|]; [destruct (zlen l <? _); [done|]; destruct (api_memcpy_to_device _ _ _)|]| |];
      try (injection H as <- <- <- <- _; done).
    destruct (resize _); [done|]. destruct (api_memcpy_to_host _ _ _) as [[e b] d1]. cbn in H. by injection H as <- <- <- <- _.
  - destruct (api_properties d) as [[e [nm t]] d1]. destruct (Z.eqb_spec e 0) as [->|]; cbn in H.
    + by injection H as <- _ _ _ _.
    + destruct (Z.eqb_spec e 0); [done|]. by injection H as <- <- <- <- _.
  - by injection H as <- <- <- <- _.
Qed.
End real.

(** *** A device that counts: each allocation is a page, of which it has four. *)

#[local] Instance demo_api : CudaApi Z := {|
  api_malloc d _ := if d <? 4 then (0, 4096 * (d + 1) mod U64, d + 1) else (2, 0, d);
  api_free d _ := (0, d - 1);
  api_memcpy_to_device d _ _ := (0, d);
  api_memcpy_to_host d _ b := (0, b, d);
  api_properties d := (0, ("demo"%string, 16384), d)
|}.

#[local] Instance demo_api_laws : CudaApiLaws Z.
Proof.
  split; cbn.
  - intros d n err p d'. destruct (d <? 4); intros [= <- <- _]; (split; [done|]); [apply Z.mod_pos_bound; done|done].
  - by intros d p err d' [= <- _].
  - by intros d p b err d' [= <- _].
  - by intros d p b err b' d' [= <- <- _].
  - by intros d err name total d' [= <- _ <- _].
Qed.

Example demo_device_full :
  fst (gpu_switch (E := Z) (fun _ => None) (mkGpuRequest 1 7 CUDA_MALLOC 0 64 None HOST_TO_DEVICE 0 0) 4) = Ret (2, 0, [], ""%string).
Proof. reflexivity. Qed.
