(* ===== verification/VehProbe.v ===== *)
(** * The probe of the Windows fault technique

    [tools/win_veh_probe.cpp]: a stand-alone program that reserves four pages, installs
    an exception handler, reads and writes through it, and says whether the system
    behaves as the Windows backend needs.  It runs here on the kernel interface of
    [PageFaultWin], to compare what it tests with what the backend's theorems assume. *)

From S2P Require Import Prelude PageRegions FaultBackend PageFaultWin HeapDemo.

(** [VirtualAlloc(a, n, MEM_COMMIT, PAGE_NOACCESS)], which the backend does not use. *)
Class WinCommit (K : Type) `{!PagedMemory K} `{!WinVM K} := {
  vm_commit_noaccess : Z -> Z -> K -> bool * K;
  vm_commit_noaccess_ok : forall a n k k', vm_commit_noaccess a n k = (true, k') ->
    (forall p, p mod os_page = 0 -> access_of k' p = (if decide (a <= p < a + n) then NoPage else access_of k p)) /\
    (forall p, reservation k' p = reservation k p)
}.

Section probe.
Context {K : Type} `{!PagedMemory K} `{!WinVM K} `{!WinCommit K}.

Record VehProbe := mkVeh {
  vp_kernel : K;
  g_region : Z;
  g_region_size : Z;
  g_read_faults : Z;
  g_write_faults : Z;
  all_ok : bool
}.

Definition set_kernel (k : K) (s : VehProbe) : VehProbe :=
  mkVeh k (g_region s) (g_region_size s) (g_read_faults s) (g_write_faults s) (all_ok s).
Definition count_fault (is_write : bool) (s : VehProbe) : VehProbe :=
  if is_write then mkVeh (vp_kernel s) (g_region s) (g_region_size s) (g_read_faults s) (g_write_faults s + 1) (all_ok s)
  else mkVeh (vp_kernel s) (g_region s) (g_region_size s) (g_read_faults s + 1) (g_write_faults s) (all_ok s).

(** A system call on the kernel. *)
Definition syscall (f : K -> bool * K) : M VehProbe bool :=
  fun s => let '(ok, k) := f (vp_kernel s) in (Ret ok, set_kernel k s).

(** [all_ok &= check(...)]. *)
Definition check (condition : bool) : M VehProbe unit :=
  fun s => (Ret tt, mkVeh (vp_kernel s) (g_region s) (g_region_size s) (g_read_faults s) (g_write_faults s) (all_ok s && condition)).

(** [probe_handler] on an access violation; [true]: EXCEPTION_CONTINUE_EXECUTION. *)
Definition probe_handler (is_write : bool) (fault_addr : Z) : M VehProbe bool :=
  let! s := get in
  let base := g_region s in
  if (base =? 0) || (fault_addr <? base) || (base + g_region_size s <=? fault_addr) then ret false
  else
    let page := Z.land fault_addr (u64 (Z.lnot (os_page - 1))) in
    do! (fun s => (Ret tt, count_fault is_write s)) in
    let! ok := syscall (vm_protect page os_page ReadWrite) in
    if negb ok then ret false
    else if is_write then ret true
    else
      do! (fun s => (Ret tt, set_kernel (store_bytes page (replicate (Z.to_nat os_page) xab) (vp_kernel s)) s)) in
      let! ok := syscall (vm_protect page os_page ReadOnly) in
      ret ok.

(** The processor tries an access until it is allowed; [false]: the process dies. *)
Fixpoint veh_access (n : nat) (addr : Z) (is_write : bool) : M VehProbe bool :=
  let! s := get in
  if allowed (access_of (vp_kernel s) (addr - addr mod os_page)) is_write then ret true
  else
    match n with
    | O => nofuel
    | S n => let! resumed := probe_handler is_write addr in if resumed : bool then veh_access n addr is_write else ret false
    end.

(** Reads and writes of [bytes[i]]; [None]: the process died. *)
Definition veh_read (n : nat) (i : Z) : M VehProbe (option byte) :=
  let! s := get in
  let! ok := veh_access n (g_region s + i) false in
  let! s := get in
  ret (if ok : bool then Some (byte_at (vp_kernel s) (g_region s + i)) else None).

Definition veh_write (n : nat) (i : Z) (v : byte) : M VehProbe bool :=
  let! s := get in
  let! ok := veh_access n (g_region s + i) true in
  if ok : bool then fun s => (Ret true, set_kernel (store_bytes (g_region s + i) [v] (vp_kernel s)) s) else ret false.

(** An access and the rest of the program; [None]: the process died. *)
Definition then_read (n : nat) (i : Z) (rest : byte -> M VehProbe (option Z)) : M VehProbe (option Z) :=
  let! r := veh_read n i in match r with Some v => rest v | None => ret None end.
Definition then_write (n : nat) (i : Z) (v : byte) (rest : M VehProbe (option Z)) : M VehProbe (option Z) :=
  let! ok := veh_write n i v in if ok : bool then rest else ret None.

(** [main]; [installed]: AddVectoredExceptionHandler gave a handle.  The result is the
    exit code. *)
Definition veh_main (n : nat) (installed : bool) : M VehProbe (option Z) :=
  do! check installed in
  if negb installed then ret (Some 1)
  else
    let! s := get in
    let '(region, k) := vm_reserve (os_page * 4) (vp_kernel s) in
    do! put (mkVeh k region (os_page * 4) (g_read_faults s) (g_write_faults s) (all_ok s)) in
    do! check (negb (region =? 0)) in
    if region =? 0 then ret (Some 1)
    else
      let! ok := syscall (vm_commit_noaccess region (os_page * 4)) in
      do! check ok in
      then_read n 0 (fun observed =>
      let! s := get in
      do! check (g_read_faults s =? 1) in
      do! check (bool_decide (observed = xab)) in
      then_write n 1 x5a (
      let! s := get in
      do! check (g_write_faults s =? 1) in
      then_read n 1 (fun v =>
      do! check (bool_decide (v = x5a)) in
      let! s := get in
      let writes_before := g_write_faults s in
      then_write n 2 x77 (
      let! s := get in
      do! check (g_write_faults s =? writes_before) in
      let! ok := syscall (vm_decommit region os_page) in
      do! check ok in
      let! ok := syscall (vm_commit_noaccess region os_page) in
      do! check ok in
      let! s := get in
      let reads_before := g_read_faults s in
      then_read n 0 (fun after_evict =>
      let! s := get in
      do! check (g_read_faults s =? reads_before + 1) in
      do! check (bool_decide (after_evict = xab)) in
      do! (fun s => (Ret tt, set_kernel (vm_release region (vp_kernel s)) s)) in
      let! s := get in
      ret (Some (if all_ok s then 0 else 1))))))).

(** ** What it tests *)

(** The region is reserved, its first page allows [acc], and the faults counted. *)
Record at_page (base : Z) (acc : Access) (reads writes : Z) (s : VehProbe) : Prop := {
  ap_region : g_region s = base;
  ap_size : g_region_size s = os_page * 4;
  ap_access : access_of (vp_kernel s) base = acc;
  ap_reservation : reservation (vp_kernel s) base = Some (os_page * 4);
  ap_reads : g_read_faults s = reads;
  ap_writes : g_write_faults s = writes;
  ap_ok : all_ok s = true
}.

(** The calls of the probe succeed on its reservation. *)
Record calls_succeed (base : Z) : Prop := {
  cs_commit : forall k n, reservation k base = Some (os_page * 4) -> (n = os_page \/ n = os_page * 4) -> exists k', vm_commit_noaccess base n k = (true, k');
  cs_protect : forall k pr, reservation k base = Some (os_page * 4) -> pr <> NoPage -> exists k', vm_protect base os_page pr k = (true, k');
  cs_decommit : forall k, reservation k base = Some (os_page * 4) -> exists k', vm_decommit base os_page k = (true, k')
}.

Context (base : Z) (Hbase : 0 < base) (Hmod : base mod os_page = 0) (Htop : base + os_page * 4 < U64) (Hpage : 2 < os_page).
Context (Hcalls : calls_succeed base).

Lemma page_start i : 0 <= i <= 2 -> (base + i) - (base + i) mod os_page = base.
Proof.
  intros Hi. rewrite <- Zplus_mod_idemp_l, Hmod, Z.add_0_l, Z.mod_small by lia. lia.
Qed.

Lemma page_mask i : 0 <= i <= 2 -> Z.land (base + i) (u64 (Z.lnot (os_page - 1))) = base.
Proof.
  intros Hi. destruct os_page_pow2 as (k & Hk & Hp). rewrite Hp. rewrite land_lnot_mask by lia.
  rewrite <- Hp. by apply page_start.
Qed.

Lemma protect_page acc pr rd wr s : at_page base acc rd wr s -> pr <> NoPage ->
  exists k, syscall (vm_protect base os_page pr) s = (Ret true, set_kernel k s) /\ at_page base pr rd wr (set_kernel k s) /\
    forall x, byte_at k x = byte_at (vp_kernel s) x.
Proof.
  intros [] Hpr. destruct (cs_protect _ Hcalls (vp_kernel s) pr ap_reservation0 Hpr) as (k & Hk). exists k.
  destruct (vm_protect_ok _ _ _ _ _ Hk) as (Ha & Hb & Hr). unfold syscall. rewrite Hk. split; [done|]. split; [|done].
  split; cbn; try done. - rewrite Ha by done. by rewrite decide_True by lia. - by rewrite Hr.
Qed.

Lemma guard_in i s : g_region s = base -> g_region_size s = os_page * 4 -> 0 <= i <= 2 ->
  (g_region s =? 0) || (base + i <? g_region s) || (g_region s + g_region_size s <=? base + i) = false.
Proof. intros -> -> Hi. rewrite (proj2 (Z.eqb_neq base 0)), (proj2 (Z.ltb_ge _ _)), (proj2 (Z.leb_gt _ _)) by lia. done. Qed.

(** A read of the page without access: one fault, and the page is filled and read-only. *)
Lemma read_fault i rd wr s : at_page base NoPage rd wr s -> 0 <= i <= 2 ->
  exists k, veh_read 1 i s = (Ret (Some xab), set_kernel k (count_fault false s)) /\ at_page base ReadOnly (rd + 1) wr (set_kernel k (count_fault false s)).
Proof.
  intros Hs Hi. pose proof Hs as [Hg Hsz Ha Hres Hrd Hwr Hok].
  assert (Hs1 : at_page base NoPage (rd + 1) wr (count_fault false s)) by (split; cbn; try done; by rewrite Hrd).
  destruct (protect_page NoPage ReadWrite _ _ _ Hs1 ltac:(done)) as (k1 & Hp1 & Hk1 & _).
  set (k2 := store_bytes base (replicate (Z.to_nat os_page) xab) k1).
  assert (Hk2 : at_page base ReadWrite (rd + 1) wr (set_kernel k2 (count_fault false s))).
  { destruct Hk1. split; cbn; try done; unfold k2; [by rewrite store_access|by rewrite store_reservation]. }
  destruct (protect_page ReadWrite ReadOnly _ _ _ Hk2 ltac:(done)) as (k3 & Hp3 & Hk3 & Hb3).
  change (set_kernel k3 (set_kernel k2 (count_fault false s))) with (set_kernel k3 (count_fault false s)) in Hp3, Hk3.
  assert (Hh : probe_handler false (base + i) s = (Ret true, set_kernel k3 (count_fault false s))).
  { unfold probe_handler. rewrite bind_get, (guard_in i s Hg Hsz Hi), page_mask by done. cbv zeta. munfold. rewrite Hp1. cbn [negb].
    change (set_kernel _ (set_kernel k1 (count_fault false s))) with (set_kernel k2 (count_fault false s)).
    unfold k2. cbn [vp_kernel set_kernel]. fold k2. rewrite Hp3. done. }
  exists k3. split; [|exact Hk3]. unfold veh_read. rewrite bind_get, Hg. cbn [veh_access]. rewrite bind_bind, bind_get. cbv beta. rewrite page_start by done.
  rewrite Ha. cbn [allowed]. rewrite bind_bind, (bind_ret _ _ _ _ _ Hh). cbn [veh_access]. rewrite bind_bind, bind_get. cbv beta.
  rewrite (ap_access _ _ _ _ _ Hk3). cbn [allowed negb]. munfold. rewrite (ap_region _ _ _ _ _ Hk3). do 3 f_equal.
  cbn [vp_kernel set_kernel] in *. rewrite Hb3. unfold k2. rewrite store_byte, znth_lookup by lia.
  replace (base + i - base) with i by lia. by rewrite lookup_replicate_2 by lia.
Qed.

Lemma read_hit i acc rd wr s : at_page base acc rd wr s -> acc <> NoPage -> 0 <= i <= 2 ->
  veh_read 1 i s = (Ret (Some (byte_at (vp_kernel s) (base + i))), s).
Proof.
  intros [] Ha Hi. unfold veh_read. rewrite bind_get, ap_region0. cbn [veh_access]. rewrite bind_bind, bind_get. cbv beta.
  rewrite page_start, ap_access0 by done. destruct acc; [done|..]; cbn [allowed negb]; munfold; by rewrite ap_region0.
Qed.

(** A write to the page: it faults if the page is read-only, and not if it is writable. *)
Lemma write_fault i v rd wr s : at_page base ReadOnly rd wr s -> 0 <= i <= 2 ->
  exists k, veh_write 1 i v s = (Ret true, set_kernel k (count_fault true s)) /\
    at_page base ReadWrite rd (wr + 1) (set_kernel k (count_fault true s)) /\ byte_at k (base + i) = v.
Proof.
  intros Hs Hi. pose proof Hs as [Hg Hsz Ha Hres Hrd Hwr Hok].
  assert (Hs1 : at_page base ReadOnly rd (wr + 1) (count_fault true s)) by (split; cbn; try done; by rewrite Hwr).
  destruct (protect_page ReadOnly ReadWrite _ _ _ Hs1 ltac:(done)) as (k1 & Hp1 & Hk1 & _).
  assert (Hh : probe_handler true (base + i) s = (Ret true, set_kernel k1 (count_fault true s))).
  { unfold probe_handler. rewrite bind_get, (guard_in i s Hg Hsz Hi), page_mask by done. cbv zeta. munfold. by rewrite Hp1. }
  exists (store_bytes (base + i) [v] k1). split; [|split].
  - unfold veh_write. rewrite bind_get, Hg. cbn [veh_access]. rewrite bind_bind, bind_get. cbv beta. rewrite page_start by done.
    rewrite Ha. cbn [allowed negb]. rewrite bind_bind, (bind_ret _ _ _ _ _ Hh). cbn [veh_access]. rewrite bind_bind, bind_get. cbv beta.
    rewrite (ap_access _ _ _ _ _ Hk1). cbn [allowed negb]. munfold. by rewrite (ap_region _ _ _ _ _ Hk1).
  - destruct Hk1. split; cbn; try done; [by rewrite store_access|by rewrite store_reservation].
  - rewrite store_byte. by rewrite Z.sub_diag.
Qed.

Lemma write_hit i v rd wr s : at_page base ReadWrite rd wr s -> 0 <= i <= 2 ->
  exists k, veh_write 1 i v s = (Ret true, set_kernel k s) /\ at_page base ReadWrite rd wr (set_kernel k s).
Proof.
  intros Hs Hi. pose proof Hs as [Hg Hsz Ha Hres Hrd Hwr Hok]. exists (store_bytes (base + i) [v] (vp_kernel s)). split.
  - unfold veh_write. rewrite bind_get, Hg. cbn [veh_access]. rewrite bind_bind, bind_get. cbv beta. rewrite page_start by done.
    rewrite Ha. cbn [allowed]. munfold. by rewrite Hg.
  - split; cbn; try done; [by rewrite store_access|by rewrite store_reservation].
Qed.

(** Both ways of taking the access away. *)
Lemma commit_page n acc rd wr s : at_page base acc rd wr s -> n = os_page \/ n = os_page * 4 ->
  exists k, syscall (vm_commit_noaccess base n) s = (Ret true, set_kernel k s) /\ at_page base NoPage rd wr (set_kernel k s).
Proof.
  intros [] Hn. destruct (cs_commit _ Hcalls (vp_kernel s) n ap_reservation0 Hn) as (k & Hk). exists k.
  destruct (vm_commit_noaccess_ok _ _ _ _ Hk) as (Ha & Hr). unfold syscall. rewrite Hk. split; [done|].
  split; cbn; try done; [rewrite Ha by done; by rewrite decide_True by (destruct Hn; lia)|by rewrite Hr].
Qed.

Lemma decommit_page acc rd wr s : at_page base acc rd wr s ->
  exists k, syscall (vm_decommit base os_page) s = (Ret true, set_kernel k s) /\ at_page base NoPage rd wr (set_kernel k s).
Proof.
  intros []. destruct (cs_decommit _ Hcalls (vp_kernel s) ap_reservation0) as (k & Hk). exists k.
  destruct (vm_decommit_ok _ _ _ _ Hk) as (Ha & _ & Hr). unfold syscall. rewrite Hk. split; [done|].
  split; cbn; try done; [rewrite Ha by done; by rewrite decide_True by lia|by rewrite Hr].
Qed.

Lemma check_true acc rd wr s c : at_page base acc rd wr s -> c = true -> check c s = (Ret tt, s).
Proof. intros [] ->. unfold check. rewrite ap_ok0. destruct s. cbn in *. by subst. Qed.

Lemma veh_body_passes k0 k : vm_reserve (os_page * 4) k0 = (base, k) ->
  fst (veh_main 1 true (mkVeh k0 0 0 0 0 true)) = Ret (Some 0).
Proof.
  intros Hres. destruct (vm_reserve_ok _ _ _ _ Hres ltac:(lia)) as (_ & _ & _ & _ & _ & Hacc & _ & Hrv).
  set (s0 := mkVeh k base (os_page * 4) 0 0 true).
  assert (H0 : at_page base NoPage 0 0 s0).
  { split; cbn; try done; [rewrite Hacc by done; by rewrite decide_True by lia|by rewrite Hrv, decide_True]. }
  unfold veh_main. rewrite (bind_ret (check true) _ (mkVeh k0 0 0 0 0 true) tt (mkVeh k0 0 0 0 0 true)) by done. cbn [negb].
  rewrite bind_get. cbn [vp_kernel g_read_faults g_write_faults all_ok]. rewrite Hres, bind_put. fold s0.
  assert (Hnz : (base =? 0) = false) by lia. rewrite Hnz. cbn [negb]. rewrite (bind_ret _ _ _ _ _ (check_true _ _ _ _ _ H0 eq_refl)).
  destruct (commit_page _ _ _ _ _ H0 (or_intror eq_refl)) as (k1 & E1 & H1). rewrite (bind_ret _ _ _ _ _ E1), (bind_ret _ _ _ _ _ (check_true _ _ _ _ _ H1 eq_refl)).
  destruct (read_fault 0 _ _ _ H1 ltac:(lia)) as (k2 & E2 & H2). unfold then_read at 1. rewrite (bind_ret _ _ _ _ _ E2).
  set (s2 := set_kernel k2 _) in *. clearbody s2.
  rewrite bind_get, (bind_ret _ _ _ _ _ (check_true _ _ _ _ _ H2 (proj2 (Z.eqb_eq _ _) (ap_reads _ _ _ _ _ H2)))).
  rewrite (bind_ret _ _ _ _ _ (check_true _ _ _ _ _ H2 eq_refl)).
  destruct (write_fault 1 x5a _ _ _ H2 ltac:(lia)) as (k3 & E3 & H3 & Hv). unfold then_write at 1. rewrite (bind_ret _ _ _ _ _ E3).
  change k3 with (vp_kernel (set_kernel k3 (count_fault true s2))) in Hv. set (s3 := set_kernel k3 _) in *. clearbody s3.
  rewrite bind_get, (bind_ret _ _ _ _ _ (check_true _ _ _ _ _ H3 (proj2 (Z.eqb_eq _ _) (ap_writes _ _ _ _ _ H3)))).
  unfold then_read at 1. rewrite (bind_ret _ _ _ _ _ (read_hit 1 _ _ _ _ H3 ltac:(done) ltac:(lia))), Hv.
  rewrite (bind_ret _ _ _ _ _ (check_true _ _ _ _ _ H3 eq_refl)), bind_get. cbv zeta.
  destruct (write_hit 2 x77 _ _ _ H3 ltac:(lia)) as (k4 & E4 & H4). unfold then_write at 1. rewrite (bind_ret _ _ _ _ _ E4), bind_get.
  assert (Hw : (g_write_faults (set_kernel k4 s3) =? g_write_faults s3) = true) by apply Z.eqb_refl.
  rewrite (bind_ret _ _ _ _ _ (check_true _ _ _ _ _ H4 Hw)). set (s4 := set_kernel k4 s3) in *.
  destruct (decommit_page _ _ _ _ H4) as (k5 & E5 & H5). rewrite (bind_ret _ _ _ _ _ E5), (bind_ret _ _ _ _ _ (check_true _ _ _ _ _ H5 eq_refl)).
  destruct (commit_page _ _ _ _ _ H5 (or_introl eq_refl)) as (k6 & E6 & H6). rewrite (bind_ret _ _ _ _ _ E6), (bind_ret _ _ _ _ _ (check_true _ _ _ _ _ H6 eq_refl)).
  set (s6 := set_kernel k6 _) in *. clearbody s6. rewrite bind_get. cbv zeta.
  destruct (read_fault 0 _ _ _ H6 ltac:(lia)) as (k7 & E7 & H7). unfold then_read. rewrite (bind_ret _ _ _ _ _ E7), bind_get.
  set (s7 := set_kernel k7 _) in *. assert (Hr : (g_read_faults s7 =? g_read_faults s6 + 1) = true) by apply Z.eqb_refl. clearbody s7.
  rewrite (bind_ret _ _ _ _ _ (check_true _ _ _ _ _ H7 Hr)), (bind_ret _ _ _ _ _ (check_true _ _ _ _ _ H7 eq_refl)).
  munfold. cbn. by rewrite (ap_ok _ _ _ _ _ H7).
Qed.
End probe.
Arguments VehProbe : clear implicits.
Arguments mkVeh {K}.

(** ** Properties *)

(** The probe asks for no more than the Windows backend's theorems do: on every kernel
    with the documented behaviour, with pages of at least four bytes, whose calls
    succeed on the region it reserves, it exits with 0, after two read faults and one
    write fault. *)
Theorem veh_probe_passes {K} `{!PagedMemory K} `{!WinVM K} `{!WinCommit K} (k0 : K) base k :
  2 < os_page -> vm_reserve (os_page * 4) k0 = (base, k) -> base <> 0 -> calls_succeed base ->
  fst (veh_main 1 true (mkVeh k0 0 0 0 0 true)) = Ret (Some 0).
Proof.
  intros Hp Hres Hb Hc. destruct (vm_reserve_ok _ _ _ _ Hres Hb) as (_ & H0 & Ht & Hm & _). by apply (veh_body_passes base H0 Hm Ht Hp Hc k0 k).
Qed.

(** *** On the kernel of [HeapDemo] *)

#[local] Existing Instance demo_memory.
#[local] Existing Instance demo_vm.

#[refine, local] Instance demo_commit : WinCommit DemoKernel := {|
  vm_commit_noaccess a n k := (true, mkKernel (set_access a n NoPage k) (dk_mem k) (dk_res k))
|}.
Proof. intros a n k k' [= <-]. split; [intros p _; cbn; apply set_access_spec|done]. Defined.

Definition demo_kernel : DemoKernel := mkKernel (fun _ => NoPage) (fun _ => x00) [].

Lemma veh_probe_passes_witness : fst (veh_main 1 true (mkVeh demo_kernel 0 0 0 0 true)) = Ret (Some 0).
Proof.
  apply (veh_probe_passes demo_kernel 4096 (snd (vm_reserve 16 demo_kernel))); [reflexivity|vm_compute; reflexivity|discriminate|].
  split; cbn; eauto.
Defined.
